(* ===== verification/_CoqProject ===== *)
-Q . S2P
Prelude.v
Messages.v
Firmware.v
Arduino.v
Link.v
Double.v
Filter.v
WsServer.v
Text.v
Regex.v
App.v
AppProps.v
AppIO.v
AppWitnesses.v
Vehicle.v
AppTypes.v
UartEcho.v
System.v
CecConst.v
Cec.v
CecFuncs.v
CecCodec.v
CecRun.v
CecProps.v
Endian.v
LittleEndian.v
BigEndian.v
EndianProps.v
Tipc.v
TipcProps.v
Heap.v
HeapProps.v
AlgoBase.v
AlgoBaseProps.v
Sort.v
SortProps.v
SortCorrect.v
CxxMemory.v
CxxString.v
CxxStringProps.v
CxxStringOps.v
CxxStringLife.v
CxxStringWorld.v
CxxStringMove.v
CxxStringSpec.v
CxxStringRefine.v
CxxStringCommands.v
CxxStringObjects.v
CxxStringPlus.v
CxxStringSearch.v
CxxStringSearchProps.v
CxxStringQueries.v
CxxStringCorrect.v
Utf8.v
WsFrame.v
WsFrameProps.v
Hybi13.v
Hybi13Props.v
Hybi13Stream.v
Hybi13Frames.v
Hybi13Wire.v
WsConnection.v
WsSession.v
WsSessionProps.v
WsSessionCorrect.v
WsLiveness.v
WsEndpoint.v
Browser.v
Sha1.v
Sha1Correct.v
Base64.v
Md5.v
Http.v
HttpProps.v
Handshake.v
Opening.v
OpeningProps.v
OpeningSession.v
OpeningLife.v
ServerLives.v
