(* ===== verification/Prelude.v ===== *)
(** * Rover: a verification library

    The repository holds the programs of a remote-controlled rover.  A
    Raspberry Pi runs [main_app] (under rover/src): it receives joystick
    positions from a UDP socket and commands from a browser over a WebSocket,
    and drives motors, LED and fan by requests on a serial line.  At the other
    end of the line an ATmega328P (rover_slave/src) decodes the requests and
    owns the PWM registers and pins.  The tree also carries the system headers
    the cross-compiler uses (rover/externals/usr_include); the ones with
    algorithms or codecs of their own are modelled as well, and so is the part
    of the WebSocket library websocketpp (rover/dependencies_install) that the
    program's servers run, from the accept of a connection to its end.

<<
      browser --WebSocket--> connection, ws_server --+
                                                     v
      joystick ----UDP----> run_udp ---queue---> main_app.run ---> ArduinoSlave
                            run_timer --queue------^                   | serial
                                                                       v
                             timer registers, pins <--- slave firmware (loop)
>>

    ** How to read the definitions

    Machine integers are [Z] with their wrap-around written out ([u8], [u16],
    [u32], [i32]); characters and octets are [Z]; a floating-point number is a
    [spec_float] of the Standard Library at the precision of its C++ type.
    A function that may run into undefined behaviour (an access outside an
    array, a conversion out of range, an unterminated string) returns an
    [option] with [None] for it; where the code can throw as well it returns an
    [outcome].  Handlers take the state and return the new one, composed as the
    code composes its calls.  What is not in the repository is a class: the
    wiringPi port ([Arduino.SerialPort]), the Arduino core
    ([Firmware.ArduinoCore]), the bit numbers of avr/io.h
    ([Firmware.AvrHeader], with the data sheet's values as
    [Firmware.AvrHeaderLaws]) and what the C++ implementation leaves open
    ([App.Platform]: signedness of [char], width of [long], [std::stof],
    printing of a [double]; [WsFrame.Machine]: byte order and width of
    [size_t]).

    ** The files

    The rover.
    - [Prelude] (this file): machine words, decimal text, C strings, buffers,
      [outcome], and the tactics and hint databases of the library.
    - [Messages]: rover_slave/src/messages.hpp and messages.cpp, the protocol
      both programs share.  Message layouts are [PackedStruct]s; a round trip
      of packed fields; the decimal parser of textual commands.
    - [Firmware]: rover_slave/src/main.cpp.  [device] holds the timer
      configurations, the registers, the output and the calls made to the
      core; [parser] is the framing machine.  [loop] is one call of the
      program's loop on the octets that arrived, [exec_request] the effect a
      request is meant to have.  Theorems: the machine is safe on every input
      but for a textual parameter too large for its [uint8_t] ([text_defined]),
      executes requests in order however they are cut into chunks,
      resynchronises after silence; textual and binary forms of a command
      agree where the textual one is defined; the registers hold the last duty.
    - [Arduino]: src/arduino.hpp and arduino.cpp, the client, over any
      [SerialPort].  [logged_port] records what it does to the port: retries,
      time-outs and counters are proved of every port.
    - [Link]: client and firmware over a line with one [fate] per millisecond
      (deliver, lose the request, lose the reply, delay).  On a fault-free
      line a call is executed exactly once; on a faulty one the registers are
      those of one execution or of none.  The class [SlaveDriver] is what the
      client promises to the rest of the program, [line_driver] discharges it.
    - [Double], [Filter]: src/filter.hpp and filter.cpp, the averaging filter.
    - [WsServer]: src/ws_server.cpp, ws_server_isolated.cpp and
      ws_broadcaster.cpp.  The two connection tables refine one set of
      sessions; messages and answers reach the right connection.  What the
      library does with the messages they send is in [WsEndpoint].
    - [Text], [Regex]: stream extraction and the conversions of libstdc++ as
      far as the handlers use them (istream.tcc, locale_facets.tcc,
      basic_string.h), and the two regular expressions, each proved equal to a
      specification without backtracking.
    - [App]: src/app.hpp, app.cpp and main.cpp: every handler, the timer
      tasks, the constructor, the dispatcher.  [AppProps] (the motors and the
      watchdog) and [AppIO] (datagrams, web socket commands, answers, fan,
      start-up) are proved against [SlaveDriver] alone; [AppWitnesses]
      instantiates them with the line and the firmware.  [AppTypes]: every
      member stays in its type and bounds on arbitrary input.
    - [Vehicle]: the whole program with its threads as events refines an
      abstract vehicle of two speeds, a light and a watchdog, from power-on
      down to the registers of the controller.
    - [System]: the producer threads, the queue and the heap of app.cpp as a
      step relation; memory safety and ordering in every interleaving.
    - [UartEcho]: uart_echo_test.cpp.

    The WebSocket library (websocketpp/).
    - [Utf8]: utf8_validator.hpp; the automaton accepts exactly the encodings
      of code points and stops at the first octet that cannot be repaired.
    - [WsFrame], [WsFrameProps]: frame.hpp and common/network.hpp; headers come
      back from their octets, and masking by words, with a key that is rotated
      from call to call, is masking octet by octet.
    - [Hybi13]: processors/hybi13.hpp with the messages (message_buffer), the
      close codes (close.hpp) and error codes.  [Hybi13Props]: the invariant of
      [consume] and that it ends; [Hybi13Stream]: buffers may be cut anywhere;
      [Hybi13Frames]: the messages delivered and the close codes against
      [rfc_rules], the rules of RFC 6455 as an inductive relation; they agree
      but where the code departs from the rules ([departs]), on two kinds of
      frame, a length that is not minimal and a fragmented text that ends
      inside a character ([code_rules] is what it does there).  [Hybi13Wire]:
      what one end prepares the other end delivers.
    - [WsConnection]: impl/connection_impl.hpp, a connection from the end of
      the opening handshake on.  Its functions are computations that change
      the connection and ask the transport for [action]s.  [WsSession]: the
      [world] of a connection and its transport; calls from other threads and
      completions of reads, writes, timers and the shutdown are [event]s, in
      any order and with any result.  [WsSessionProps]: the handlers as
      functions on the world and the invariant of every [reachable] world.
      [WsSessionCorrect]: no handler is undefined, the close handler is called
      once at most; what is written is a prefix of what was queued; what is
      delivered and answered follows the frame rules, with the same two
      departures.  [WsLiveness]: the
      closing handshake comes to its end.
    - [Sha1], [Base64], [Md5]: sha1/sha1.hpp, base64/base64.hpp and
      common/md5.hpp.  [Sha1Correct]: the hash is SHA-1 of FIPS 180-4; base64
      comes back; the digests of the standards are computed.
    - [Http]: http/parser.hpp with http/impl/parser.hpp and request.hpp, the
      parser of requests, and the writer of responses.  [HttpProps]: no access
      outside a buffer, and the cut of the input into reads does not matter.
    - [Handshake]: the handshakes of processors/hybi13.hpp (which hybi07.hpp and
      hybi08.hpp inherit) and hybi00.hpp, on the parsed request.  [Opening]:
      connection_impl.hpp up to the open handler, as handlers of an [opening].
      [OpeningProps]: what is answered, with which status, and when the
      connection opens.
    - [OpeningSession]: the [life] of a connection, from the accept over its
      handshake to its session; completions and timers are [levent]s.  The
      request of RFC 6455 opens a connection.
      [OpeningLife]: the invariant of every [lreachable] life; the handlers of
      the program are called once at most and in order; a handshake that
      stalls is ended by its timer.
    - [ServerLives]: [ws_server] with any number of connections, each with a
      [life] of its own: which handlers call those of the program; the tables,
      the numbers and the queue of the application agree with the connections.
    - [WsEndpoint]: impl/endpoint_impl.hpp, as far as sending goes, under
      [ws_server::send] and the loop of [ws_broadcaster::run_udp]: who gets a
      datagram, and what is thrown.  [Browser]: what a browser sends drives
      the vehicle of [Vehicle]; and what happens to sends when it leaves.

    The system headers.
    - [CecConst], [Cec], [CecFuncs]: linux/cec.h and linux/cec-funcs.h, the
      messages of HDMI CEC.  [CecCodec] lists every message as a codec,
      [CecRun] holds the tactics that run a builder and a reader, [CecProps]
      the round trip of all of them, but for what the header gets wrong
      ([CecCodec.mishandled]), and what becomes of that.
    - [Endian], [LittleEndian], [BigEndian], [EndianProps]: linux/swab.h,
      asm/swab.h, the two files of linux/byteorder and bsd/sys/endian.h.
    - [Tipc], [TipcProps]: the records of linux/tipc_config.h.
    - [Heap], [HeapProps]: c++/8/bits/stl_heap.h, correct for every
      [StrictWeakOrder].
    - [AlgoBase], [AlgoBaseProps]: c++/8/bits/stl_algobase.h; [Sort],
      [SortProps], [SortCorrect]: sort, partial_sort and nth_element of
      stl_algo.h, correct for every [StrictWeakOrder].
    - [CxxMemory], [CxxString], [CxxStringSearch]: [std::string] with its small
      buffer (basic_string.h and basic_string.tcc) on a memory of objects and
      blocks.  [CxxStringProps] is a weakest-precondition calculus for it,
      [CxxStringOps], [CxxStringLife] and [CxxStringMove] specify the
      functions, [CxxStringWorld] keeps all strings of a program apart;
      [CxxStringSpec] is the abstract specification, [CxxStringRefine],
      [CxxStringCommands], [CxxStringObjects] and [CxxStringPlus] the
      refinement, [CxxStringSearchProps] and [CxxStringQueries] the searches
      and comparisons, [CxxStringCorrect] the theorems.

    ** Fuel and bounds

    [Arduino.recv] runs [recv_loop] with fuel 52: its idle counter leaves the
    loop at 51, and [recv_spec] proves that the fuel is never exhausted.
    [dec] prints with one step per bit ([undec_dec]).  The loops of [Heap] run
    with the length of the range, which each step shortens, and so do those of
    [Sort], [AlgoBase.lower_bound_loop] and the searches of [CxxStringSearch];
    the depth of introsort is the library's.  The correctness theorems state
    that a result is returned.  [Hybi13.consume] has three passes per octet
    and a few more ([consume_ends]); [read_loop] and [receive_loop] take an
    octet at least per round; [write_loop] ends with the queue;
    [WsLiveness.drain] has [work w] steps.  [Http.consume_loop] takes a line per
    round and has one round more than there are octets; [Sha1.full_blocks]
    and [Md5.process_blocks] take a block per round.  [CecFuncs.skip_ext] has one
    step per octet of a message.  The firmware's loops over its buffers are
    structural.  The counts in the theorems are the program's own: 500 timer
    messages of the watchdog, 275 idle calls of the firmware, five attempts of
    the client.

    ** What is not modelled

    Log.hpp (formatted output on standard error) and the debug texts; the
    socket library bfc, a submodule that is not checked out, whose datagrams
    are arguments of [App]; asio, whose operations are events of [WsSession];
    of websocketpp the frames of version 0 (hybi00; its handshake is
    modelled), the client side with its parser of responses, the http and
    validate handlers (the program sets none), ping timers (no pong timeout
    handler is set), extensions (the configuration disables them) and
    logging, and with them the set-up calls of [ws_server::run]; the
    browser's JavaScript; the system headers that only declare.  Calls on the
    slave and handlers of the server exclude each other by their mutexes and
    are single steps; a lock and an unlock are not represented.  [send] of a
    connection is two steps, since it takes two locks one after the other.
    Memory is always available, except to [std::string].  The sends into the
    socket pair of the application neither fail nor block ([System]: the
    program does not look at their result, and a position whose send failed
    would be leaked).  The powers of ten of [get_str_param] are exact, as the
    [pow] of avr-libc is meant to be.

    ** Beyond this

    What the programs run is modelled from the accept of a connection and the
    datagrams down to the registers.  What could be added is code of the
    vendored headers that the programs hardly reach: the frames of version 0
    and the client side of websocketpp, the other algorithms of stl_algo.h,
    the ioctl structures of linux/cec.h. *)
From stdpp Require Export base list numbers option gmap strings relations.
From Stdlib Require Export ZArith Lia.

#[export] Set Default Proof Using "Type".
Open Scope Z_scope.

(** ** Machine words

    A [w]-bit unsigned value is a [Z] kept reduced by [wrap w]; [i32] is the
    two's complement reading of a 32-bit value. *)
Definition wrap (w z : Z) : Z := z mod 2 ^ w.
Definition u8 (z : Z) : Z := wrap 8 z.
Definition u16 (z : Z) : Z := wrap 16 z.
Definition u32 (z : Z) : Z := wrap 32 z.
Definition i32 (z : Z) : Z := wrap 32 (z + 2 ^ 31) - 2 ^ 31.

Definition is_byte (b : Z) : Prop := 0 <= b < 256.

Lemma wrap_bound w z : 0 <= w -> 0 <= wrap w z < 2 ^ w.
Proof. intros. apply Z.mod_pos_bound, Z.pow_pos_nonneg; lia. Qed.

Lemma wrap_small w z : 0 <= z < 2 ^ w -> wrap w z = z.
Proof. apply Z.mod_small. Qed.

Lemma wrap_wrap w z : 0 <= w -> wrap w (wrap w z) = wrap w z.
Proof. intros. apply wrap_small, wrap_bound; lia. Qed.

Lemma u8_bound z : 0 <= u8 z < 256.
Proof. exact (wrap_bound 8 z ltac:(lia)). Qed.
Lemma u16_bound z : 0 <= u16 z < 65536.
Proof. exact (wrap_bound 16 z ltac:(lia)). Qed.
Lemma u32_bound z : 0 <= u32 z < 4294967296.
Proof. exact (wrap_bound 32 z ltac:(lia)). Qed.
Lemma i32_bound z : -2147483648 <= i32 z < 2147483648.
Proof. unfold i32. pose proof (u32_bound (z + 2 ^ 31)). unfold u32 in *. lia. Qed.

Lemma u8_small z : 0 <= z < 256 -> u8 z = z.
Proof. exact (wrap_small 8 z). Qed.
Lemma u16_small z : 0 <= z < 65536 -> u16 z = z.
Proof. exact (wrap_small 16 z). Qed.
Lemma u32_small z : 0 <= z < 4294967296 -> u32 z = z.
Proof. exact (wrap_small 32 z). Qed.
Lemma i32_small z : -2147483648 <= z < 2147483648 -> i32 z = z.
Proof. intros. unfold i32. rewrite wrap_small; lia. Qed.
Lemma u8_u8 z : u8 (u8 z) = u8 z.
Proof. apply u8_small, u8_bound. Qed.
Lemma u32_u32 z : u32 (u32 z) = u32 z.
Proof. apply u32_small, u32_bound. Qed.

Lemma wrap_land w z : 0 <= w -> wrap w z = Z.land z (Z.ones w).
Proof. intros. symmetry. by apply Z.land_ones. Qed.

Lemma testbit_wrap w z n :
  0 <= w -> 0 <= n -> Z.testbit (wrap w z) n = (n <? w) && Z.testbit z n.
Proof.
  intros. rewrite wrap_land, Z.land_spec, Z.testbit_ones_nonneg by lia.
  by rewrite andb_comm.
Qed.

Lemma testbit_above w z n : 0 <= z < 2 ^ w -> 0 <= w <= n -> Z.testbit z n = false.
Proof.
  intros Hz Hn. rewrite <-(wrap_small w z Hz), testbit_wrap by lia.
  by replace (n <? w) with false by lia.
Qed.

Lemma below_pow2 w z :
  0 <= w -> 0 <= z -> (forall n, w <= n -> Z.testbit z n = false) -> z < 2 ^ w.
Proof.
  intros Hw Hz Hb.
  replace z with (wrap w z); [apply wrap_bound; lia|].
  apply Z.bits_inj'. intros n Hn. rewrite testbit_wrap by lia.
  destruct (Z.ltb_spec n w) as [?|?]; [done|]. by rewrite Hb.
Qed.

Lemma lor_shiftl a b n : 0 <= n -> 0 <= a < 2 ^ n ->
  Z.lor a (Z.shiftl b n) = a + 2 ^ n * b.
Proof.
  intros Hn Ha. enough (Z.land a (Z.shiftl b n) = 0) as E.
  { rewrite <-Z.lxor_lor, <-Z.add_nocarry_lxor by done. rewrite Z.shiftl_mul_pow2; lia. }
  apply Z.bits_inj'. intros k Hk. rewrite Z.land_spec, Z.shiftl_spec, Z.bits_0 by lia.
  destruct (Z.ltb_spec k n).
  - by rewrite (Z.testbit_neg_r _ (k - n)), andb_false_r by lia.
  - by rewrite (testbit_above n a k) by lia.
Qed.

#[global] Arguments wrap : simpl never.
#[global] Arguments u8 : simpl never.
#[global] Arguments u16 : simpl never.
#[global] Arguments u32 : simpl never.
#[global] Arguments i32 : simpl never.

Create HintDb octets.
Create HintDb words.
#[export] Hint Resolve u8_bound u16_bound u32_bound i32_bound : words.

(** Proves that two integers agree on every bit: the goal's bitwise
    operations are pushed to booleans, one destruct per [testbit] left. *)
Ltac bitwise :=
  apply Z.bits_inj'; intros ?n ?Hn;
  repeat (rewrite ?Z.land_spec, ?Z.lor_spec, ?Z.ldiff_spec, ?Z.lxor_spec,
            ?Z.lnot_spec, ?Z.shiftr_spec, ?Z.shiftl_spec,
            ?testbit_wrap, ?Z.testbit_ones_nonneg by lia).

(** Reduces [lia] goals about wrapped values to their bounds. *)
Ltac word_bounds :=
  repeat match goal with
  | |- context [u8 ?z] => lazymatch goal with
      | _ : 0 <= u8 z < 256 |- _ => fail | _ => pose proof (u8_bound z) end
  | |- context [u16 ?z] => lazymatch goal with
      | _ : 0 <= u16 z < 65536 |- _ => fail | _ => pose proof (u16_bound z) end
  | |- context [u32 ?z] => lazymatch goal with
      | _ : 0 <= u32 z < 4294967296 |- _ => fail | _ => pose proof (u32_bound z) end
  end.

(** [Forall is_byte] of an explicit list, from what the context says of its
    elements. *)
Ltac octets :=
  simpl in *; repeat apply Forall_cons_2; try apply Forall_nil_2;
  first [assumption | apply u8_bound | solve [eauto with octets]
        | unfold is_byte in *; lia | by split].

(** Evaluates a closed subterm of the goal. *)
Ltac closed t := let v := eval vm_compute in t in change t with v.

(** Splits the visible conjunctions of the goal, none hidden in a definition. *)
Ltac splits := repeat match goal with |- _ /\ _ => split end.

(** ** Finite checks

    A boolean predicate that holds of every element of [seqZ a n] holds of
    every integer of the interval: exhaustive facts about bytes and small
    fields are decided by computation. *)
Lemma forallb_seqZ (P : Z -> bool) a n :
  forallb P (seqZ a n) = true -> forall z, a <= z < a + n -> P z = true.
Proof.
  intros H z Hz. rewrite forallb_forall in H. apply H.
  apply list_elem_of_In, elem_of_seqZ. lia.
Qed.

(** ** Characters and decimal text *)
Definition str (s : string) : list Z :=
  (fun a => Z.of_N (Ascii.N_of_ascii a)) <$> String.list_ascii_of_string s.

(** The digit characters are ['0'] = 48 to ['9'] = 57. *)
Definition is_digit (c : Z) : bool := (48 <=? c) && (c <=? 57).
Definition is_space (c : Z) : bool := (c =? 32) || ((9 <=? c) && (c <=? 13)).

Fixpoint dec_fuel (fuel : nat) (z : Z) (acc : list Z) : list Z :=
  match fuel with
  | O => acc
  | S fuel' =>
      let acc' := (48 + z mod 10) :: acc in
      if z <? 10 then acc' else dec_fuel fuel' (z / 10) acc'
  end.

(** [%u]: the decimal digits of a non-negative integer. A number has at most
    one digit per bit, so the fuel is enough (see [undec_dec]). *)
Definition dec (z : Z) : list Z := dec_fuel (S (Z.to_nat (Z.log2 z))) z [].

(** [%d]. *)
Definition dec_signed (z : Z) : list Z :=
  if z <? 0 then 45 :: dec (- z) else dec z.

Definition undec_step (a c : Z) : Z := 10 * a + (c - 48).
Definition undec (cs : list Z) : Z := fold_left undec_step cs 0.

Lemma undec_from cs a :
  fold_left undec_step cs a = a * 10 ^ Z.of_nat (length cs) + undec cs.
Proof.
  unfold undec. revert a. induction cs as [|c cs IH]; intros a; simpl fold_left.
  { simpl. lia. }
  rewrite IH, (IH (undec_step 0 c)). simpl length.
  rewrite Nat2Z.inj_succ, Z.pow_succ_r by lia. unfold undec_step. lia.
Qed.

Lemma undec_cons c cs :
  undec (c :: cs) = (c - 48) * 10 ^ Z.of_nat (length cs) + undec cs.
Proof. unfold undec at 1. simpl. rewrite undec_from. unfold undec_step. lia. Qed.

Lemma undec_app cs ds :
  undec (cs ++ ds) = undec cs * 10 ^ Z.of_nat (length ds) + undec ds.
Proof. unfold undec at 1. rewrite fold_left_app, undec_from. done. Qed.

Lemma dec_fuel_spec fuel : forall z acc,
  0 <= z -> (z < 2 ^ Z.of_nat fuel) ->
  exists ds, dec_fuel fuel z acc = ds ++ acc /\ undec ds = z /\
    Forall (fun c => is_digit c = true) ds /\ (fuel <> O -> ds <> []).
Proof.
  induction fuel as [|fuel IH]; intros z acc Hz Hlt.
  { exists []. split_and!; try done. simpl in Hlt. unfold undec. simpl. lia. }
  assert (is_digit (48 + z mod 10) = true) as Hd.
  { unfold is_digit. pose proof (Z.mod_pos_bound z 10). lia. }
  simpl. destruct (Z.ltb_spec z 10) as [Hs|Hs].
  - exists [48 + z mod 10]. split_and!; [done| |by constructor|done].
    rewrite undec_cons. unfold undec. simpl. rewrite Z.mod_small; lia.
  - destruct (IH (z / 10) ((48 + z mod 10) :: acc)) as (ds & -> & Hv & Hf & _).
    { apply Z.div_pos; lia. }
    { apply Z.div_lt_upper_bound; [lia|].
      rewrite Nat2Z.inj_succ, Z.pow_succ_r in Hlt by lia. nia. }
    exists (ds ++ [48 + z mod 10]). split_and!.
    + by rewrite <-app_assoc.
    + rewrite undec_app, Hv, undec_cons. unfold undec. simpl.
      pose proof (Z.div_mod z 10). lia.
    + apply Forall_app. split; [done|by constructor].
    + intros _. by destruct ds.
Qed.

Lemma dec_spec z : 0 <= z ->
  undec (dec z) = z /\ Forall (fun c => is_digit c = true) (dec z) /\ dec z <> [].
Proof.
  intros Hz. unfold dec.
  destruct (dec_fuel_spec (S (Z.to_nat (Z.log2 z))) z []) as (ds & -> & Hv & Hf & Hn).
  - done.
  - destruct (decide (z = 0)) as [->|]; [done|].
    rewrite Nat2Z.inj_succ, Z2Nat.id by apply Z.log2_nonneg.
    apply Z.log2_spec. lia.
  - rewrite app_nil_r. auto.
Qed.

Lemma undec_dec z : 0 <= z -> undec (dec z) = z.
Proof. apply dec_spec. Qed.
Lemma dec_digits z : 0 <= z -> Forall (fun c => is_digit c = true) (dec z).
Proof. apply dec_spec. Qed.
Lemma dec_nonempty z : 0 <= z -> dec z <> [].
Proof. apply dec_spec. Qed.

Lemma length_dec_fuel fuel z acc :
  (length (dec_fuel fuel z acc) <= fuel + length acc)%nat.
Proof.
  revert z acc. induction fuel as [|fuel IH]; intros z acc; simpl; [lia|].
  destruct (z <? 10); simpl; [lia|]. etrans; [apply IH|]. simpl. lia.
Qed.

Lemma length_dec z n : 0 <= z < 2 ^ Z.of_nat n -> (length (dec z) <= S n)%nat.
Proof.
  intros Hz. unfold dec. etrans; [apply length_dec_fuel|]. simpl length.
  enough (Z.log2 z < Z.of_nat n \/ z = 0) as [?| ->]; [lia|simpl; lia|].
  destruct (decide (z = 0)); [by right|left]. apply Z.log2_lt_pow2; lia.
Qed.

Lemma dec_octets z : 0 <= z -> Forall is_byte (dec z).
Proof.
  intros Hz. eapply Forall_impl; [by apply dec_digits|].
  intros c. unfold is_digit, is_byte. lia.
Qed.

Lemma dec_nonzero z : 0 <= z -> Forall (fun c => c <> 0) (dec z).
Proof.
  intros Hz. eapply Forall_impl; [by apply dec_digits|].
  intros c. unfold is_digit. lia.
Qed.

(** Fixed-width decimal text. *)
Definition digit (z : Z) : Z := 48 + z.
Definition two_digits (z : Z) : list Z := [digit (z / 10); digit (z mod 10)].
Definition three_digits (z : Z) : list Z := digit (z / 100) :: two_digits (z mod 100).

Lemma is_digit_digit z : 0 <= z < 10 -> is_digit (digit z) = true.
Proof. unfold is_digit, digit. lia. Qed.

Lemma two_digits_spec z : 0 <= z < 100 ->
  is_digit (digit (z / 10)) = true /\ is_digit (digit (z mod 10)) = true /\
  undec (two_digits z) = z.
Proof.
  intros Hz. pose proof (Z.mod_pos_bound z 10 ltac:(lia)).
  pose proof (Z.div_mod z 10 ltac:(lia)).
  split_and!; [apply is_digit_digit; lia..|].
  unfold two_digits, digit, undec, undec_step. simpl. lia.
Qed.

(** ** C strings: the bytes before the first NUL, if there is one. *)
Fixpoint cstring (buf : list Z) : option (list Z) :=
  match buf with
  | [] => None
  | c :: cs => if c =? 0 then Some [] else cons c <$> cstring cs
  end.

Lemma cstring_app s r :
  Forall (fun c => c <> 0) s -> cstring (s ++ 0 :: r) = Some s.
Proof.
  induction 1 as [|c s Hc Hs IH]; [done|]. simpl.
  rewrite (proj2 (Z.eqb_neq c 0) Hc), IH. done.
Qed.

(** ** Overwriting a buffer from its start, as a bulk read does. *)
Definition overwrite {A} (src dst : list A) : list A :=
  src ++ drop (length src) dst.

Lemma length_overwrite {A} (src dst : list A) :
  (length src <= length dst)%nat -> length (overwrite src dst) = length dst.
Proof. intros. unfold overwrite. rewrite length_app, length_drop. lia. Qed.

Lemma lookup_overwrite_lt {A} (src dst : list A) i :
  (i < length src)%nat -> overwrite src dst !! i = src !! i.
Proof. intros. unfold overwrite. by rewrite lookup_app_l. Qed.

Lemma lookup_overwrite_ge {A} (src dst : list A) i :
  (length src <= i)%nat -> overwrite src dst !! i = dst !! i.
Proof.
  intros. unfold overwrite. rewrite lookup_app_r, lookup_drop by lia.
  f_equal. lia.
Qed.

Lemma overwrite_nil {A} (dst : list A) : overwrite [] dst = dst.
Proof. done. Qed.

Lemma overwrite_snoc {A} (src dst : list A) (x : A) :
  (length src < length dst)%nat ->
  <[length src := x]> (overwrite src dst) = overwrite (src ++ [x]) dst.
Proof.
  intros Hlt. unfold overwrite.
  rewrite length_app, <-app_assoc. simpl.
  pose proof (insert_app_r src (drop (length src) dst) 0 x) as E.
  rewrite Nat.add_0_r in E. rewrite E. f_equal.
  destruct (drop (length src) dst) as [|y l] eqn:Ed.
  - apply (f_equal length) in Ed. rewrite length_drop in Ed. simpl in Ed. lia.
  - simpl. f_equal. by rewrite <-drop_drop, Ed.
Qed.

(** ** Outcomes

    A C++ function returns, throws, or has undefined behaviour. *)
Inductive exn := InvalidArgument | OutOfRange | RuntimeError.

Inductive outcome (A : Type) := Ret (x : A) | Throw (e : exn) | Undef.
Arguments Ret {A}.
Arguments Throw {A}.
Arguments Undef {A}.

#[export] Instance outcome_ret : MRet outcome := fun A x => Ret x.
#[export] Instance outcome_bind : MBind outcome := fun A B f m =>
  match m with Ret x => f x | Throw e => Throw e | Undef => Undef end.

(** A partial function whose [None] is undefined behaviour. *)
Definition defined {A} (o : option A) : outcome A :=
  match o with Some x => Ret x | None => Undef end.

Lemma bind_Ret {A B} (x : A) (f : A -> outcome B) : (Ret x ≫= f) = f x.
Proof. done. Qed.

Lemma bind_Ret_inv {A B} (m : outcome A) (f : A -> outcome B) y :
  m ≫= f = Ret y -> exists x, m = Ret x /\ f x = Ret y.
Proof. destruct m as [x| |]; [|done|done]. by exists x. Qed.

Lemma defined_inv {A} (o : option A) x : defined o = Ret x -> o = Some x.
Proof. destruct o; [|done]. by intros [= ->]. Qed.
