(* ===== verification/Messages.v ===== *)
(** * The serial protocol: [src/messages.hpp] and [src/messages.cpp]

    Both programs of the repository share this protocol: [rover/src] builds
    the requests, [rover_slave/src] decodes them and answers.  The file models
    the bit-field helpers [set_param] and [get_param], every packed struct, the
    table [msg_size_by_type] the firmware frames requests with, and
    [get_str_param_n], the decimal parser of the textual commands. *)
From S2P Require Import Prelude.

(** ** Bit fields of an octet

    [field &= ~mask; field |= (value << shift);] on an [uint8_t] field: the
    operands are promoted to [int] and every assignment truncates to 8 bits.
    The value is not masked. *)
Definition set_param (value field mask shift : Z) : Z :=
  let field := u8 (Z.land field (Z.lnot mask)) in
  u8 (Z.lor field (Z.shiftl value shift)).

(** [(field&mask) >> shift] *)
Definition get_param (field mask shift : Z) : Z :=
  u8 (Z.shiftr (Z.land field mask) shift).

(** ** Message types *)
Definition E_TYPE_MSGB_LOG_INFO_REQUEST : Z := 0.
Definition E_TYPE_MSGB_PINMODE_REQUEST : Z := 1.
Definition E_TYPE_MSGB_DIGITAL_WRITE_REQUEST : Z := 2.
Definition E_TYPE_MSGB_DIGITAL_READ_REQUEST : Z := 3.
Definition E_TYPE_MSGB_ANALOG_READ_REQUEST : Z := 4.
Definition E_TYPE_MSGB_PWM_INIT_REQUEST : Z := 5.
Definition E_TYPE_MSGB_PWM_DUTY_REQUEST : Z := 6.

(** ** Packed structs

    A packed struct is its octets in declaration order.  [to_bytes] is the
    octet-pointer view of [msg] a sender takes, [of_bytes] the receiver's cast
    of [serial_data] to a message pointer, which only looks at the first
    [sizeof] octets. *)
Class PackedStruct (T : Type) := {
  sizeof : nat;
  to_bytes : T -> list Z;
  of_bytes : list Z -> option T
}.
Arguments sizeof T {_}.

(** What the rest of the development relies on for a packed struct, for the
    values whose fields are in range. *)
Class PackedStructLaws (T : Type) `{PackedStruct T} (wf : T -> Prop) := {
  length_to_bytes : forall x : T, length (to_bytes x) = sizeof T;
  of_to_bytes : forall (x : T) (rest : list Z),
    wf x -> of_bytes (to_bytes x ++ rest) = Some x;
  to_bytes_octets : forall x : T, wf x -> Forall is_byte (to_bytes x)
}.

Record msgb_log_info_request := MsgbLogInfoRequest {
  log_info_request_type : Z }.

Record msgb_pinmode_request := MsgbPinmodeRequest {
  pinmode_request_type : Z;
  mode_pin : Z }.
Definition pinmode_MASK_MODE : Z := 192.
Definition pinmode_MASK_PIN : Z := 63.
Definition pinmode_SHIFT_MODE : Z := 6.
Definition pinmode_SHIFT_PIN : Z := 0.

Record msgb_pinmode_response := MsgbPinmodeResponse { pinmode_rval : Z }.

Record msgb_digital_write_request := MsgbDigitalWriteRequest {
  digital_write_request_type : Z;
  value_pin : Z }.
Definition digital_write_MASK_VALUE : Z := 192.
Definition digital_write_MASK_PIN : Z := 63.
Definition digital_write_SHIFT_VALUE : Z := 6.
Definition digital_write_SHIFT_PIN : Z := 0.

Record msgb_digital_write_response := MsgbDigitalWriteResponse {
  digital_write_rval : Z }.

Record msgb_digital_read_request := MsgbDigitalReadRequest {
  digital_read_request_type : Z;
  digital_read_pin : Z }.

Record msgb_digital_read_response := MsgbDigitalReadResponse {
  digital_read_rval : Z }.

Record msgb_analog_read_request := MsgbAnalogReadRequest {
  analog_read_request_type : Z;
  analog_read_pin : Z }.

(** The only response wider than an octet: an [uint16_t]. *)
Record msgb_analog_read_response := MsgbAnalogReadResponse {
  analog_read_rval : Z }.

Record msgb_pwm_init_request := MsgbPwmInitRequest {
  pwm_init_request_type : Z;
  prescaler_timer_channel : Z }.
Definition pwm_init_MASK_PRESCALER : Z := 56.
Definition pwm_init_MASK_TIMER : Z := 6.
Definition pwm_init_MASK_CHANNEL : Z := 1.
Definition pwm_init_SHIFT_PRESCALER : Z := 3.
Definition pwm_init_SHIFT_TIMER : Z := 1.
Definition pwm_init_SHIFT_CHANNEL : Z := 0.

Record msgb_pwm_init_response := MsgbPwmInitResponse { pwm_init_rval : Z }.

Record msgb_pwm_duty_request := MsgbPwmDutyRequest {
  pwm_duty_request_type : Z;
  timer_channel : Z;
  duty : Z }.
Definition pwm_duty_MASK_TIMER : Z := 6.
Definition pwm_duty_MASK_CHANNEL : Z := 1.
Definition pwm_duty_SHIFT_TIMER : Z := 1.
Definition pwm_duty_SHIFT_CHANNEL : Z := 0.

Record msgb_pwm_duty_response := MsgbPwmDutyResponse { pwm_duty_rval : Z }.

(** Structs of one, two and three octets. *)
Definition cast1 {T} (mk : Z -> T) (bs : list Z) : option T :=
  match bs with a :: _ => Some (mk a) | _ => None end.
Definition cast2 {T} (mk : Z -> Z -> T) (bs : list Z) : option T :=
  match bs with a :: b :: _ => Some (mk a b) | _ => None end.
Definition cast3 {T} (mk : Z -> Z -> Z -> T) (bs : list Z) : option T :=
  match bs with a :: b :: c :: _ => Some (mk a b c) | _ => None end.

#[export] Instance packed_log_info_request : PackedStruct msgb_log_info_request := {|
  sizeof := 1; of_bytes := cast1 MsgbLogInfoRequest;
  to_bytes m := [log_info_request_type m] |}.
#[export] Instance packed_pinmode_request : PackedStruct msgb_pinmode_request := {|
  sizeof := 2; of_bytes := cast2 MsgbPinmodeRequest;
  to_bytes m := [pinmode_request_type m; mode_pin m] |}.
#[export] Instance packed_pinmode_response : PackedStruct msgb_pinmode_response := {|
  sizeof := 1; of_bytes := cast1 MsgbPinmodeResponse;
  to_bytes m := [pinmode_rval m] |}.
#[export] Instance packed_digital_write_request : PackedStruct msgb_digital_write_request := {|
  sizeof := 2; of_bytes := cast2 MsgbDigitalWriteRequest;
  to_bytes m := [digital_write_request_type m; value_pin m] |}.
#[export] Instance packed_digital_write_response : PackedStruct msgb_digital_write_response := {|
  sizeof := 1; of_bytes := cast1 MsgbDigitalWriteResponse;
  to_bytes m := [digital_write_rval m] |}.
#[export] Instance packed_digital_read_request : PackedStruct msgb_digital_read_request := {|
  sizeof := 2; of_bytes := cast2 MsgbDigitalReadRequest;
  to_bytes m := [digital_read_request_type m; digital_read_pin m] |}.
#[export] Instance packed_digital_read_response : PackedStruct msgb_digital_read_response := {|
  sizeof := 1; of_bytes := cast1 MsgbDigitalReadResponse;
  to_bytes m := [digital_read_rval m] |}.
#[export] Instance packed_analog_read_request : PackedStruct msgb_analog_read_request := {|
  sizeof := 2; of_bytes := cast2 MsgbAnalogReadRequest;
  to_bytes m := [analog_read_request_type m; analog_read_pin m] |}.
(** Both the ATmega328 and the ARM host store the low octet first. *)
#[export] Instance packed_analog_read_response : PackedStruct msgb_analog_read_response := {|
  sizeof := 2;
  of_bytes := cast2 (fun lo hi => MsgbAnalogReadResponse (Z.lor lo (Z.shiftl hi 8)));
  to_bytes m := [u8 (analog_read_rval m); u8 (Z.shiftr (analog_read_rval m) 8)] |}.
#[export] Instance packed_pwm_init_request : PackedStruct msgb_pwm_init_request := {|
  sizeof := 2; of_bytes := cast2 MsgbPwmInitRequest;
  to_bytes m := [pwm_init_request_type m; prescaler_timer_channel m] |}.
#[export] Instance packed_pwm_init_response : PackedStruct msgb_pwm_init_response := {|
  sizeof := 1; of_bytes := cast1 MsgbPwmInitResponse;
  to_bytes m := [pwm_init_rval m] |}.
#[export] Instance packed_pwm_duty_request : PackedStruct msgb_pwm_duty_request := {|
  sizeof := 3; of_bytes := cast3 MsgbPwmDutyRequest;
  to_bytes m := [pwm_duty_request_type m; timer_channel m; duty m] |}.
#[export] Instance packed_pwm_duty_response : PackedStruct msgb_pwm_duty_response := {|
  sizeof := 1; of_bytes := cast1 MsgbPwmDutyResponse;
  to_bytes m := [pwm_duty_rval m] |}.

(** [msg_size_by_type], indexed by the message type. *)
Definition msg_size_by_type : list Z := Z.of_nat <$>
  [sizeof msgb_log_info_request;
   sizeof msgb_pinmode_request;
   sizeof msgb_digital_write_request;
   sizeof msgb_digital_read_request;
   sizeof msgb_analog_read_request;
   sizeof msgb_pwm_init_request;
   sizeof msgb_pwm_duty_request].

(** ** Textual parameters

    [get_str_param_n<uint8_t>(cdata, size)].  [rval *= pow(10, size-i-1)]
    multiplies in floating point and converts back to [uint8_t]: the powers of
    ten and the product are exact, and a product that does not fit the
    [uint8_t] has no defined conversion, so the result is [None].  So is a
    read past the end of [cdata]. *)
Definition to_uint8_checked (x : Z) : option Z :=
  if (0 <=? x) && (x <? 256) then Some x else None.

Fixpoint get_str_param_loop (cdata : list Z) (n : nat) (rval : Z) {struct n} : option Z :=
  match n with
  | O => Some rval
  | S n' =>
      match cdata with
      | [] => None
      | c :: cs =>
          let digit := c - 48 in
          let rval := u8 (rval + digit) in
          rval ← to_uint8_checked (rval * 10 ^ Z.of_nat n');
          get_str_param_loop cs n' rval
      end
  end.

Definition get_str_param_n (cdata : list Z) (size : nat) : option Z :=
  get_str_param_loop cdata size 0.

(** ** The requests as commands

    The abstract reading of the seven request structs, with the fields the
    receiver extracts.  [wf_request] bounds every field by its mask. *)
Inductive request :=
| ReqLogInfo
| ReqPinMode (pin mode : Z)
| ReqDigitalWrite (pin value : Z)
| ReqDigitalRead (pin : Z)
| ReqAnalogRead (pin : Z)
| ReqPwmInit (timer channel prescale : Z)
| ReqPwmDuty (timer channel duty : Z).

Definition wf_request (r : request) : Prop :=
  match r with
  | ReqLogInfo => True
  | ReqPinMode pin mode => 0 <= pin < 64 /\ 0 <= mode < 4
  | ReqDigitalWrite pin value => 0 <= pin < 64 /\ 0 <= value < 4
  | ReqDigitalRead pin | ReqAnalogRead pin => is_byte pin
  | ReqPwmInit timer channel prescale =>
      0 <= timer < 4 /\ 0 <= channel < 2 /\ 0 <= prescale < 8
  | ReqPwmDuty timer channel duty =>
      0 <= timer < 4 /\ 0 <= channel < 2 /\ is_byte duty
  end.

(** The octets on the wire, each field stored with [set_param] in a zeroed
    struct, in the order the senders use. *)
Definition encode_request (r : request) : list Z :=
  match r with
  | ReqLogInfo => to_bytes (MsgbLogInfoRequest E_TYPE_MSGB_LOG_INFO_REQUEST)
  | ReqPinMode pin mode =>
      let mp := set_param pin 0 pinmode_MASK_PIN pinmode_SHIFT_PIN in
      let mp := set_param mode mp pinmode_MASK_MODE pinmode_SHIFT_MODE in
      to_bytes (MsgbPinmodeRequest E_TYPE_MSGB_PINMODE_REQUEST mp)
  | ReqDigitalWrite pin value =>
      let vp := set_param pin 0 digital_write_MASK_PIN digital_write_SHIFT_PIN in
      let vp := set_param value vp digital_write_MASK_VALUE digital_write_SHIFT_VALUE in
      to_bytes (MsgbDigitalWriteRequest E_TYPE_MSGB_DIGITAL_WRITE_REQUEST vp)
  | ReqDigitalRead pin =>
      to_bytes (MsgbDigitalReadRequest E_TYPE_MSGB_DIGITAL_READ_REQUEST pin)
  | ReqAnalogRead pin =>
      to_bytes (MsgbAnalogReadRequest E_TYPE_MSGB_ANALOG_READ_REQUEST pin)
  | ReqPwmInit timer channel prescale =>
      let f := set_param timer 0 pwm_init_MASK_TIMER pwm_init_SHIFT_TIMER in
      let f := set_param channel f pwm_init_MASK_CHANNEL pwm_init_SHIFT_CHANNEL in
      let f := set_param prescale f pwm_init_MASK_PRESCALER pwm_init_SHIFT_PRESCALER in
      to_bytes (MsgbPwmInitRequest E_TYPE_MSGB_PWM_INIT_REQUEST f)
  | ReqPwmDuty timer channel duty =>
      let tc := set_param timer 0 pwm_duty_MASK_TIMER pwm_duty_SHIFT_TIMER in
      let tc := set_param channel tc pwm_duty_MASK_CHANNEL pwm_duty_SHIFT_CHANNEL in
      to_bytes (MsgbPwmDutyRequest E_TYPE_MSGB_PWM_DUTY_REQUEST tc duty)
  end.

(** A mask of [w] bits at position [s] inside an octet. *)
Definition field_mask (mask w s : Z) : Prop :=
  0 <= w /\ 0 <= s /\ w + s <= 8 /\ mask = Z.shiftl (Z.ones w) s.

(** ** Facts about bit fields *)
#[global] Arguments set_param : simpl never.
#[global] Arguments get_param : simpl never.

Lemma testbit_field_mask mask w s n :
  field_mask mask w s -> 0 <= n ->
  Z.testbit mask n = (s <=? n) && (n <? w + s).
Proof.
  intros (Hw & Hs & H8 & ->) Hn. rewrite Z.shiftl_spec by lia.
  destruct (Z.leb_spec s n); [|by rewrite Z.testbit_neg_r by lia].
  rewrite Z.testbit_ones_nonneg by lia.
  destruct (Z.ltb_spec (n - s) w), (Z.ltb_spec n (w + s)); lia || done.
Qed.

Lemma testbit_set_param value field mask w s n :
  field_mask mask w s -> 0 <= value < 2 ^ w -> 0 <= n ->
  Z.testbit (set_param value field mask s) n =
  (n <? 8) && (if Z.testbit mask n then Z.testbit value (n - s) else Z.testbit field n).
Proof.
  intros Hm Hv Hn. unfold set_param, u8.
  rewrite testbit_wrap, Z.lor_spec, testbit_wrap, Z.land_spec, Z.lnot_spec by lia.
  rewrite (testbit_field_mask mask w s n) by done.
  destruct Hm as (Hw & Hs & H8 & _).
  destruct (Z.ltb_spec n 8) as [H|H]; [|done]. simpl.
  rewrite Z.shiftl_spec by lia.
  destruct (Z.leb_spec s n) as [H1|H1]; simpl.
  - destruct (Z.ltb_spec n (w + s)) as [H2|H2]; simpl; [by rewrite andb_false_r|].
    rewrite andb_true_r, (testbit_above w value) by lia. by rewrite orb_false_r.
  - rewrite andb_true_r, (Z.testbit_neg_r value) by lia. by rewrite orb_false_r.
Qed.

Lemma testbit_get_param field mask w s n :
  field_mask mask w s -> 0 <= n ->
  Z.testbit (get_param field mask s) n = (n <? w) && Z.testbit field (n + s).
Proof.
  intros Hm Hn. pose proof Hm as (Hw & Hs & H8 & _). unfold get_param, u8.
  rewrite testbit_wrap, Z.shiftr_spec, Z.land_spec by lia.
  rewrite (testbit_field_mask mask w s) by (done || lia).
  replace (s <=? n + s) with true by lia.
  destruct (Z.ltb_spec n 8), (Z.ltb_spec n w), (Z.ltb_spec (n + s) (w + s));
    simpl; rewrite ?andb_true_r, ?andb_false_r; lia || done.
Qed.

Lemma get_set_param value field mask w s :
  field_mask mask w s -> 0 <= value < 2 ^ w ->
  get_param (set_param value field mask s) mask s = value.
Proof.
  intros Hm Hv. apply Z.bits_inj'. intros n Hn.
  pose proof Hm as (Hw & Hs & H8 & _).
  rewrite (testbit_get_param _ _ w) by done.
  destruct (Z.ltb_spec n w) as [H|H].
  - rewrite (testbit_set_param _ _ _ w) by (done || lia).
    rewrite (testbit_field_mask mask w s) by (done || lia).
    replace (n + s <? 8) with true by lia. replace (s <=? n + s) with true by lia.
    replace (n + s <? w + s) with true by lia. simpl. f_equal. lia.
  - by rewrite (testbit_above w value) by lia.
Qed.

Lemma get_set_param_disjoint value field mask w s mask' w' s' :
  field_mask mask w s -> field_mask mask' w' s' ->
  (w + s <= s' \/ w' + s' <= s) -> 0 <= value < 2 ^ w ->
  get_param (set_param value field mask s) mask' s' = get_param field mask' s'.
Proof.
  intros Hm Hm' Hdis Hv. apply Z.bits_inj'. intros n Hn.
  pose proof Hm as (? & ? & ? & _). pose proof Hm' as (? & ? & ? & _).
  rewrite !(testbit_get_param _ _ w') by done.
  destruct (Z.ltb_spec n w') as [H'|H']; [|done].
  rewrite (testbit_set_param _ _ _ w) by (done || lia).
  rewrite (testbit_field_mask mask w s) by (done || lia).
  replace (n + s' <? 8) with true by lia. simpl.
  destruct (Z.leb_spec s (n + s')), (Z.ltb_spec (n + s') (w + s)); simpl; lia || done.
Qed.

Lemma set_param_octet value field mask s : is_byte (set_param value field mask s).
Proof. apply u8_bound. Qed.

Lemma field_mask_intro mask w s :
  0 <= w -> 0 <= s -> w + s <= 8 -> mask = Z.shiftl (Z.ones w) s ->
  field_mask mask w s.
Proof. unfold field_mask. auto. Qed.

Create HintDb messages.
#[export] Hint Resolve set_param_octet : messages octets.
#[export] Hint Extern 1 (field_mask _ _ _) =>
  (apply field_mask_intro; [lia|lia|lia|reflexivity]) : messages.

(** Reads a field back out of a chain of [set_param]s: the stores to other
    fields are skipped, the store to the field itself returns its value. *)
Ltac fmask := apply field_mask_intro; [lia|lia|lia|reflexivity].
Ltac field_store w s := rewrite (get_set_param _ _ _ w s) by (fmask || lia).
Ltac field_skip w s w' s' :=
  rewrite (get_set_param_disjoint _ _ _ w s _ w' s') by (fmask || lia).

Ltac masks :=
  cbv [pinmode_MASK_MODE pinmode_MASK_PIN pinmode_SHIFT_MODE pinmode_SHIFT_PIN
       digital_write_MASK_VALUE digital_write_MASK_PIN digital_write_SHIFT_VALUE
       digital_write_SHIFT_PIN pwm_init_MASK_PRESCALER pwm_init_MASK_TIMER
       pwm_init_MASK_CHANNEL pwm_init_SHIFT_PRESCALER pwm_init_SHIFT_TIMER
       pwm_init_SHIFT_CHANNEL pwm_duty_MASK_TIMER pwm_duty_MASK_CHANNEL
       pwm_duty_SHIFT_TIMER pwm_duty_SHIFT_CHANNEL].

Lemma pin_fields pin v :
  0 <= pin < 64 -> 0 <= v < 4 ->
  let f := set_param v (set_param pin 0 63 0) 192 6 in
  get_param f 63 0 = pin /\ get_param f 192 6 = v.
Proof. intros. subst f. split; [field_skip 2 6 6 0; field_store 6 0|field_store 2 6]; done. Qed.

Lemma pwm_init_fields t c p :
  0 <= t < 4 -> 0 <= c < 2 -> 0 <= p < 8 ->
  let f := set_param p (set_param c (set_param t 0 6 1) 1 0) 56 3 in
  get_param f 6 1 = t /\ get_param f 1 0 = c /\ get_param f 56 3 = p.
Proof.
  intros. subst f. split_and!.
  - field_skip 3 3 2 1. field_skip 1 0 2 1. by field_store 2 1.
  - field_skip 3 3 1 0. by field_store 1 0.
  - by field_store 3 3.
Qed.

Lemma pwm_duty_fields t c :
  0 <= t < 4 -> 0 <= c < 2 ->
  let f := set_param c (set_param t 0 6 1) 1 0 in
  get_param f 6 1 = t /\ get_param f 1 0 = c.
Proof. intros. subst f. split; [field_skip 1 0 2 1; field_store 2 1|field_store 1 0]; done. Qed.

(** ** The struct laws *)
Lemma lor_octets lo hi : is_byte lo -> is_byte hi ->
  0 <= Z.lor lo (Z.shiftl hi 8) < 65536.
Proof.
  unfold is_byte. intros Hl Hh. split.
  - apply Z.lor_nonneg. split; [lia|]. apply Z.shiftl_nonneg. lia.
  - apply (below_pow2 16); [lia| |].
    + apply Z.lor_nonneg. split; [lia|]. apply Z.shiftl_nonneg. lia.
    + intros n Hn. rewrite Z.lor_spec, Z.shiftl_spec by lia.
      by rewrite (testbit_above 8 lo), (testbit_above 8 hi) by lia.
Qed.

Lemma u16_split z : 0 <= z < 65536 ->
  Z.lor (u8 z) (Z.shiftl (u8 (Z.shiftr z 8)) 8) = z.
Proof.
  intros Hz. bitwise. unfold u8.
  destruct (Z.ltb_spec n 8) as [H|H].
  - rewrite (Z.testbit_neg_r _ (n - 8)) by lia. rewrite testbit_wrap by lia.
    replace (n <? 8) with true by lia. by rewrite orb_false_r.
  - rewrite !testbit_wrap, Z.shiftr_spec by lia.
    replace (n <? 8) with false by lia. simpl. replace (n - 8 + 8) with n by lia.
    destruct (Z.ltb_spec (n - 8) 8) as [H'|H']; [done|].
    by rewrite (testbit_above 16 z) by lia.
Qed.

Definition analog_response_wf (m : msgb_analog_read_response) : Prop :=
  0 <= analog_read_rval m < 65536.

#[export] Instance analog_read_response_laws :
  PackedStructLaws msgb_analog_read_response analog_response_wf.
Proof.
  split; [done| |].
  - intros [v] rest H. simpl in *. rewrite u16_split by done. done.
  - intros [v] H. octets.
Qed.

Definition duty_request_wf (m : msgb_pwm_duty_request) : Prop :=
  is_byte (pwm_duty_request_type m) /\ is_byte (timer_channel m) /\ is_byte (duty m).

#[export] Instance pwm_duty_request_laws :
  PackedStructLaws msgb_pwm_duty_request duty_request_wf.
Proof.
  split; [done|by intros []|]. intros [t c d] (? & ? & ?). octets.
Qed.

(** The firmware's framing table agrees with the encoder on every request. *)
Lemma encode_request_shape r :
  exists type body, encode_request r = type :: body /\ 0 <= type < 7 /\
    msg_size_by_type !! Z.to_nat type = Some (Z.of_nat (length (type :: body))).
Proof. destruct r; eexists _, _; (split; [reflexivity|]); (split; [by split|reflexivity]). Qed.

Lemma encode_request_length r : (1 <= length (encode_request r) <= 3)%nat.
Proof. destruct r; simpl; lia. Qed.

Lemma encode_request_octets r :
  wf_request r -> Forall is_byte (encode_request r).
Proof.
  destruct r; intros H; octets.
Qed.

(** ** The textual parameters *)
Lemma to_uint8_checked_ok x : 0 <= x < 256 -> to_uint8_checked x = Some x.
Proof.
  intros H. unfold to_uint8_checked.
  replace (0 <=? x) with true by lia. by replace (x <? 256) with true by lia.
Qed.

Lemma to_uint8_checked_overflow x : 256 <= x -> to_uint8_checked x = None.
Proof.
  intros H. unfold to_uint8_checked.
  replace (x <? 256) with false by lia. by rewrite andb_false_r.
Qed.

(** One iteration that stays in range. *)
Lemma get_str_param_step c cs n rval :
  0 <= rval + (c - 48) < 256 ->
  (rval + (c - 48)) * 10 ^ Z.of_nat n < 256 ->
  get_str_param_loop (c :: cs) (S n) rval =
  get_str_param_loop cs n ((rval + (c - 48)) * 10 ^ Z.of_nat n).
Proof.
  intros H1 H2. cbn [get_str_param_loop]. rewrite u8_small by done.
  rewrite to_uint8_checked_ok; [done|].
  split; [|done]. apply Z.mul_nonneg_nonneg; [lia|]. apply Z.pow_nonneg. lia.
Qed.

Lemma get_str_param_overflow c cs n rval :
  0 <= rval + (c - 48) < 256 ->
  256 <= (rval + (c - 48)) * 10 ^ Z.of_nat n ->
  get_str_param_loop (c :: cs) (S n) rval = None.
Proof.
  intros H1 H2. cbn [get_str_param_loop]. rewrite u8_small by done.
  by rewrite to_uint8_checked_overflow.
Qed.

Ltac pow10 :=
  change (Z.of_nat 0) with 0; change (Z.of_nat 1) with 1; change (Z.of_nat 2) with 2;
  change (10 ^ 0) with 1; change (10 ^ 1) with 10; change (10 ^ 2) with 100.

Lemma get_str_param_digits1 c0 rest :
  is_digit c0 = true -> get_str_param_n (c0 :: rest) 1 = Some (c0 - 48).
Proof.
  unfold is_digit, get_str_param_n. intros H0.
  rewrite get_str_param_step by (pow10; lia). cbn [get_str_param_loop]. pow10.
  f_equal. lia.
Qed.

Lemma get_str_param_digits2 c0 c1 rest :
  is_digit c0 = true -> is_digit c1 = true ->
  get_str_param_n (c0 :: c1 :: rest) 2 = Some (undec [c0; c1]).
Proof.
  unfold is_digit, get_str_param_n. intros H0 H1.
  rewrite !get_str_param_step by (pow10; lia). cbn [get_str_param_loop].
  unfold undec, undec_step. cbn [fold_left]. pow10. f_equal. lia.
Qed.

Lemma get_str_param_digits3 c0 c1 c2 rest :
  is_digit c0 = true -> is_digit c1 = true -> is_digit c2 = true ->
  get_str_param_n (c0 :: c1 :: c2 :: rest) 3 =
  if c0 =? 48 then Some (undec [c0; c1; c2]) else None.
Proof.
  unfold is_digit, get_str_param_n. intros H0 H1 H2.
  destruct (Z.eqb_spec c0 48) as [->|Hne].
  - rewrite !get_str_param_step by (pow10; lia). cbn [get_str_param_loop].
    unfold undec, undec_step. cbn [fold_left]. pow10. f_equal. lia.
  - destruct (Z.ltb_spec c0 51).
    + rewrite get_str_param_step by (pow10; lia).
      rewrite get_str_param_overflow by (pow10; lia). done.
    + rewrite get_str_param_overflow by (pow10; lia). done.
Qed.

Lemma get_str_param_one z rest :
  0 <= z < 10 -> get_str_param_n (digit z :: rest) 1 = Some z.
Proof.
  intros Hz. rewrite get_str_param_digits1 by by apply is_digit_digit.
  unfold digit. f_equal. lia.
Qed.

Lemma get_str_param_two z rest :
  0 <= z < 100 -> get_str_param_n (two_digits z ++ rest) 2 = Some z.
Proof.
  intros Hz. destruct (two_digits_spec z Hz) as (H1 & H2 & H3).
  unfold two_digits in *. simpl app. rewrite get_str_param_digits2 by done. by f_equal.
Qed.

Lemma get_str_param_three z rest :
  0 <= z < 1000 ->
  get_str_param_n (three_digits z ++ rest) 3 = if z <? 100 then Some z else None.
Proof.
  intros Hz. pose proof (Z.mod_pos_bound z 100 ltac:(lia)).
  pose proof (Z.div_mod z 100 ltac:(lia)).
  destruct (two_digits_spec (z mod 100)) as (H1 & H2 & H3); [done|].
  unfold three_digits, two_digits in *. simpl app.
  rewrite get_str_param_digits3 by (done || (apply is_digit_digit; lia)).
  rewrite undec_cons, H3. unfold digit. change (Z.of_nat _) with 2.
  destruct (Z.ltb_spec z 100), (Z.eqb_spec (48 + z / 100) 48); try lia; [|done].
  f_equal. lia.
Qed.

(** ** Packing a list of fields *)

(** A field of a packed octet: its value, its width and its position. *)
Record bit_field := BitField { bf_value : Z; bf_width : Z; bf_shift : Z }.

Definition bf_mask (b : bit_field) : Z := Z.shiftl (Z.ones (bf_width b)) (bf_shift b).

Definition bf_wf (b : bit_field) : Prop :=
  0 <= bf_width b /\ 0 <= bf_shift b /\ bf_width b + bf_shift b <= 8 /\
  0 <= bf_value b < 2 ^ bf_width b.

Definition bf_disjoint (a b : bit_field) : Prop :=
  bf_width a + bf_shift a <= bf_shift b \/ bf_width b + bf_shift b <= bf_shift a.

(** The stores of a sender, in order. *)
Definition pack_fields (bs : list bit_field) (field : Z) : Z :=
  fold_left (fun f b => set_param (bf_value b) f (bf_mask b) (bf_shift b)) bs field.

Lemma bf_field_mask b : bf_wf b -> field_mask (bf_mask b) (bf_width b) (bf_shift b).
Proof. intros (? & ? & ? & ?). by apply field_mask_intro. Qed.

Lemma pack_fields_get b bs field :
  Forall bf_wf (b :: bs) -> Forall (bf_disjoint b) bs ->
  get_param (pack_fields bs field) (bf_mask b) (bf_shift b) =
  get_param field (bf_mask b) (bf_shift b).
Proof.
  intros [Hb Hbs]%Forall_cons. revert field.
  induction bs as [|c bs IH]; intros field Hd; [done|].
  apply Forall_cons in Hbs as [Hc Hbs]. apply Forall_cons in Hd as [Hbc Hd].
  simpl. rewrite IH by done.
  apply (get_set_param_disjoint _ _ _ (bf_width c) _ _ (bf_width b));
    [by apply bf_field_mask..| |by apply Hc].
  unfold bf_disjoint in Hbc. tauto.
Qed.

Lemma pack_fields_frame bs n field :
  Forall bf_wf bs -> 0 <= n < 8 ->
  Forall (fun b => Z.testbit (bf_mask b) n = false) bs ->
  Z.testbit (pack_fields bs field) n = Z.testbit field n.
Proof.
  intros Hbs Hn Hm. revert field.
  induction bs as [|c bs IH]; intros field; [done|].
  apply Forall_cons in Hbs as [Hc Hbs]. apply Forall_cons in Hm as [Hcm Hm].
  simpl. rewrite IH by done.
  rewrite (testbit_set_param _ _ _ (bf_width c))
    by (by apply bf_field_mask || apply Hc || lia).
  rewrite Hcm. by replace (n <? 8) with true by lia.
Qed.

(** Packing round trip.  Any number of fields stored with [set_param] in
    one octet, at disjoint positions and with values that fit, are all read
    back unchanged by [get_param], and the bits outside their masks are those
    the octet had. *)
Theorem packed_fields_roundtrip (bs : list bit_field) (field : Z) :
  Forall bf_wf bs -> ForallOrdPairs bf_disjoint bs -> is_byte field ->
  is_byte (pack_fields bs field) /\
  Forall (fun b => get_param (pack_fields bs field) (bf_mask b) (bf_shift b) = bf_value b) bs /\
  forall n, 0 <= n < 8 -> Forall (fun b => Z.testbit (bf_mask b) n = false) bs ->
    Z.testbit (pack_fields bs field) n = Z.testbit field n.
Proof.
  intros Hwf Hd Hf. splits.
  - clear Hwf Hd. revert field Hf.
    induction bs as [|b bs IH]; intros field Hf; [done|]. apply IH, set_param_octet.
  - clear Hf. revert field Hwf. induction Hd as [|b bs Hb Hd IH]; intros field Hwf; [done|].
    pose proof Hwf as [Hbw Hbs]%Forall_cons. constructor; [|by apply IH].
    simpl. rewrite pack_fields_get by done.
    apply (get_set_param _ _ _ (bf_width b)); [by apply bf_field_mask|apply Hbw].
  - intros n Hn Hm. by apply pack_fields_frame.
Qed.

(** The stores of [initPwm]: timer 2, channel 1, prescaler 5. *)
Lemma packed_fields_roundtrip_witness :
  let bs := [BitField 2 2 pwm_init_SHIFT_TIMER; BitField 1 1 pwm_init_SHIFT_CHANNEL;
             BitField 5 3 pwm_init_SHIFT_PRESCALER] in
  bf_mask <$> bs = [pwm_init_MASK_TIMER; pwm_init_MASK_CHANNEL; pwm_init_MASK_PRESCALER] /\
  pack_fields bs 0 = 45 /\
  Forall (fun b => get_param (pack_fields bs 0) (bf_mask b) (bf_shift b) = bf_value b) bs.
Proof.
  intros bs. split; [reflexivity|]. split; [reflexivity|].
  apply (packed_fields_roundtrip bs 0).
  - repeat (apply Forall_cons_2 || apply Forall_nil_2); by vm_compute.
  - repeat first [apply FOP_cons | apply FOP_nil | apply Forall_cons_2 | apply Forall_nil_2];
      unfold bf_disjoint; simpl; masks; lia.
  - unfold is_byte; lia.
Defined.
