(* ===== verification/Firmware.v ===== *)
(** * The slave firmware: [rover_slave/src/main.cpp]

    The ATmega328 program that owns the motor pins.  [device] is what its
    commands act on (timer configuration, registers, serial output, the calls
    made to the Arduino core), [parser] the state of the byte-by-byte framing
    machine of [loop].  Undefined behaviour of the C++ text (an access outside
    an array, a conversion out of range, an unterminated string) is [None].

    The Arduino core and the AVR headers are not part of the repository: the
    inputs of [digitalRead] and [analogRead] and the bit numbers of the timer
    registers are the fields of the classes [ArduinoCore] and [AvrHeader]. *)
From S2P Require Import Prelude Messages.

(** ** The outside: registers, header constants, Arduino core *)
Inductive reg :=
| TCCR0A | TCCR0B | TCCR1A | TCCR1B | TCCR2A | TCCR2B
| OCR0A | OCR0B | OCR1A | OCR1B | OCR2A | OCR2B.

#[export] Instance reg_eq_dec : EqDecision reg.
Proof. solve_decision. Defined.

Definition reg_index (r : reg) : nat :=
  match r with
  | TCCR0A => 0 | TCCR0B => 1 | TCCR1A => 2 | TCCR1B => 3 | TCCR2A => 4 | TCCR2B => 5
  | OCR0A => 6 | OCR0B => 7 | OCR1A => 8 | OCR1B => 9 | OCR2A => 10 | OCR2B => 11
  end.
Definition reg_of_index (n : nat) : option reg :=
  [TCCR0A; TCCR0B; TCCR1A; TCCR1B; TCCR2A; TCCR2B;
   OCR0A; OCR0B; OCR1A; OCR1B; OCR2A; OCR2B] !! n.

#[export] Instance reg_countable : Countable reg.
Proof. refine (inj_countable reg_index reg_of_index _). by intros []. Defined.

(** Bit positions of [<avr/io.h>]. *)
Class AvrHeader := {
  WGM00 : Z; WGM01 : Z; WGM10 : Z; WGM20 : Z; WGM21 : Z;
  COM0A1 : Z; COM0B1 : Z; COM2A1 : Z; COM2B1 : Z }.

(** Their values in the ATmega328P data sheet. *)
Class AvrHeaderLaws `{AvrHeader} : Prop := {
  wgm_bits : WGM00 = 0 /\ WGM01 = 1 /\ WGM10 = 0 /\ WGM20 = 0 /\ WGM21 = 1;
  com_bit_values : COM0A1 = 7 /\ COM0B1 = 5 /\ COM2A1 = 7 /\ COM2B1 = 5 }.

(** Calls of the firmware to the Arduino core, oldest first. *)
Inductive event :=
| EvPinMode (pin mode : Z)
| EvDigitalWrite (pin value : Z)
| EvDigitalRead (pin : Z)
| EvAnalogRead (pin : Z).

(** What a pin reads may depend on everything done before. *)
Class ArduinoCore := {
  digitalRead : list event -> Z -> Z;
  analogRead : list event -> Z -> Z }.

Definition _BV (bit : Z) : Z := Z.shiftl 1 bit.

(** ** Data *)
Record timer_config := TimerConfig { prescale : Z; configured : bool }.

Record device := Device {
  timers : list timer_config;
  regs : gmap reg Z;
  sprintf_buffer : list Z;
  tx : list Z;
  trace : list event }.

Inductive serial_state_e :=
| E_SERIAL_STATE_WAIT_BODY
| E_SERIAL_STATE_WAIT_TYPE
| E_SERIAL_STATE_WAIT_TEXT_BODY.

#[export] Instance serial_state_eq_dec : EqDecision serial_state_e.
Proof. solve_decision. Defined.

Definition SERIAL_TEXT_MSG_DELIMITER : Z := 59.

Record parser := Parser {
  serial_data : list Z;
  serial_data_idx : Z;
  serial_idle_count : Z;
  serial_state : serial_state_e;
  expected_size : Z }.

Record state := State { dev : device; par : parser }.

(** Register and output access. *)
Definition rget (r : reg) (d : device) : Z := default 0 (regs d !! r).
Definition rset (r : reg) (v : Z) (d : device) : device :=
  Device (timers d) (<[r := v]> (regs d)) (sprintf_buffer d) (tx d) (trace d).
Definition set_timer (i : nat) (c : timer_config) (d : device) : device :=
  Device (<[i := c]> (timers d)) (regs d) (sprintf_buffer d) (tx d) (trace d).
Definition serial_write (b : Z) (d : device) : device :=
  Device (timers d) (regs d) (sprintf_buffer d) (tx d ++ [b]) (trace d).
Definition call (e : event) (d : device) : device :=
  Device (timers d) (regs d) (sprintf_buffer d) (tx d) (trace d ++ [e]).

(** ** setup *)
Definition setup (s : state) : state :=
  State
    (Device (replicate 3 (TimerConfig 0 false)) (regs (dev s))
       (sprintf_buffer (dev s)) (tx (dev s)) (trace (dev s)))
    (Parser (serial_data (par s)) 0 0 E_SERIAL_STATE_WAIT_TYPE (expected_size (par s))).

(** ** send_serial, both overloads *)
Fixpoint send_serial (data : list Z) (size : nat) (d : device) : option device :=
  match size with
  | O => Some d
  | S size' =>
      match data with
      | [] => None
      | b :: data' => send_serial data' size' (serial_write b d)
      end
  end.

Fixpoint send_serial_str (data : list Z) (d : device) : option device :=
  match data with
  | [] => None
  | b :: data' => if b =? 0 then Some d else send_serial_str data' (serial_write b d)
  end.

(** [sprintf] into [sprintf_buffer] of an already formatted text, with
    its terminator, into 256 octets. *)
Definition sprintf (text : list Z) (d : device) : option device :=
  if (length text <? 256)%nat
  then Some (Device (timers d) (regs d) (overwrite (text ++ [0]) (sprintf_buffer d))
               (tx d) (trace d))
  else None.

Definition send_response {T} `{PackedStruct T} (rsp : T) (d : device) : option device :=
  send_serial (to_bytes rsp) (sizeof T) d.

Section Firmware.
Context `{AvrHeader} `{ArduinoCore}.

(** ** initPwm

    [timers[timer_]] is only used by the three branches, so an index past the
    table has no effect. *)
Definition timer_at (i : nat) (d : device) : timer_config :=
  default (TimerConfig 0 false) (timers d !! i).

Definition initPwm (timer_ channel prescale_ : Z) (d : device) : device :=
  if timer_ =? 0 then
    let timer := timer_at 0 d in
    let d :=
      if negb (configured timer) then
        let d := rset TCCR0A (Z.lor (_BV WGM01) (_BV WGM00)) d in
        rset TCCR0B (Z.land prescale_ 7) d
      else if negb (prescale timer =? prescale_) then
        rset TCCR0B (Z.land prescale_ 7) d
      else d in
    let channel_bits := u8 (if channel =? 0 then _BV COM0A1 else _BV COM0B1) in
    let d := rset TCCR0A (Z.lor (rget TCCR0A d) channel_bits) d in
    set_timer 0 (TimerConfig prescale_ true) d
  else if timer_ =? 1 then
    let timer := timer_at 1 d in
    let d :=
      if negb (configured timer) then
        let d := rset TCCR1A (_BV WGM10) d in
        rset TCCR1B (Z.lor (_BV WGM10) (Z.land prescale_ 7)) d
      else if negb (prescale timer =? prescale_) then
        rset TCCR1B (Z.lor (Z.land (rget TCCR1B d) 248) (Z.land prescale_ 7)) d
      else d in
    let channel_bits := u8 (if channel =? 0 then _BV COM2A1 else _BV COM2B1) in
    let d := rset TCCR1A (Z.lor (rget TCCR1A d) channel_bits) d in
    set_timer 1 (TimerConfig prescale_ true) d
  else if timer_ =? 2 then
    let timer := timer_at 2 d in
    let d :=
      if negb (configured timer) then
        let d := rset TCCR2A (Z.lor (_BV WGM21) (_BV WGM20)) d in
        rset TCCR2B (Z.land prescale_ 7) d
      else if negb (prescale timer =? prescale_) then
        rset TCCR0B (Z.land prescale_ 7) d
      else d in
    let channel_bits := u8 (if channel =? 0 then _BV COM2A1 else _BV COM2B1) in
    let d := rset TCCR2A (Z.lor (rget TCCR2A d) channel_bits) d in
    set_timer 2 (TimerConfig prescale_ true) d
  else d.

(** ** pwmDuty *)
Definition pwmDuty (timer channel duty_ : Z) (d : device) : device :=
  if timer =? 0 then
    if channel =? 0 then rset OCR0A duty_ d else rset OCR0B duty_ d
  else if timer =? 1 then
    if channel =? 0 then rset OCR1A duty_ d else rset OCR1B duty_ d
  else if timer =? 2 then
    if channel =? 0 then rset OCR2A duty_ d else rset OCR2B duty_ d
  else d.

(** ** process_message *)
Definition process_message (serial_data : list Z) (d : device) : option device :=
  type ← serial_data !! 0%nat;
  if type =? E_TYPE_MSGB_LOG_INFO_REQUEST then Some d
  else if type =? E_TYPE_MSGB_PINMODE_REQUEST then
    msg ← of_bytes (T := msgb_pinmode_request) serial_data;
    let pin := get_param (mode_pin msg) pinmode_MASK_PIN pinmode_SHIFT_PIN in
    let mode := get_param (mode_pin msg) pinmode_MASK_MODE pinmode_SHIFT_MODE in
    let d := call (EvPinMode pin mode) d in
    send_response (MsgbPinmodeResponse 0) d
  else if type =? E_TYPE_MSGB_DIGITAL_WRITE_REQUEST then
    msg ← of_bytes (T := msgb_digital_write_request) serial_data;
    let d := call (EvDigitalWrite
      (get_param (value_pin msg) digital_write_MASK_PIN digital_write_SHIFT_PIN)
      (get_param (value_pin msg) digital_write_MASK_VALUE digital_write_SHIFT_VALUE)) d in
    send_response (MsgbDigitalWriteResponse 0) d
  else if type =? E_TYPE_MSGB_DIGITAL_READ_REQUEST then
    msg ← of_bytes (T := msgb_digital_read_request) serial_data;
    let v := digitalRead (trace d) (digital_read_pin msg) in
    let d := call (EvDigitalRead (digital_read_pin msg)) d in
    send_response (MsgbDigitalReadResponse (u8 v)) d
  else if type =? E_TYPE_MSGB_ANALOG_READ_REQUEST then
    msg ← of_bytes (T := msgb_analog_read_request) serial_data;
    let v := analogRead (trace d) (analog_read_pin msg) in
    let d := call (EvAnalogRead (analog_read_pin msg)) d in
    send_response (MsgbAnalogReadResponse (u16 v)) d
  else if type =? E_TYPE_MSGB_PWM_INIT_REQUEST then
    msg ← of_bytes (T := msgb_pwm_init_request) serial_data;
    let f := prescaler_timer_channel msg in
    let d := initPwm (get_param f pwm_init_MASK_TIMER pwm_init_SHIFT_TIMER)
               (get_param f pwm_init_MASK_CHANNEL pwm_init_SHIFT_CHANNEL)
               (get_param f pwm_init_MASK_PRESCALER pwm_init_SHIFT_PRESCALER) d in
    send_response (MsgbPwmInitResponse 0) d
  else if type =? E_TYPE_MSGB_PWM_DUTY_REQUEST then
    msg ← of_bytes (T := msgb_pwm_duty_request) serial_data;
    let f := timer_channel msg in
    let d := pwmDuty (get_param f pwm_duty_MASK_TIMER pwm_duty_SHIFT_TIMER)
               (get_param f pwm_duty_MASK_CHANNEL pwm_duty_SHIFT_CHANNEL)
               (duty msg) d in
    send_response (MsgbPwmDutyResponse 0) d
  else Some d.

(** ** process_text_message *)
Definition reply (text : list Z) (d : device) : option device :=
  d ← sprintf text d; send_serial_str (sprintf_buffer d) d.

Definition process_text_message (serial_data : list Z) (d : device) : option device :=
  type ← serial_data !! 0%nat;
  let serial_data := drop 1 serial_data in
  if type =? 65 (* 'A' *) then Some (serial_write 59 d)
  else if type =? 66 (* 'B' *) then
    pin ← get_str_param_n serial_data 2;
    let serial_data := drop 2 serial_data in
    mode ← get_str_param_n serial_data 2;
    let d := call (EvPinMode pin mode) d in
    reply (str "pinMode(" ++ dec pin ++ str "," ++ dec mode ++ str ");") d
  else if type =? 67 (* 'C' *) then
    pin ← get_str_param_n serial_data 2;
    let serial_data := drop 2 serial_data in
    value ← get_str_param_n serial_data 2;
    let d := call (EvDigitalWrite pin value) d in
    reply (str "digitalWrite(" ++ dec pin ++ str "," ++ dec value ++ str ");") d
  else if type =? 68 (* 'D' *) then
    pin ← get_str_param_n serial_data 2;
    let value := u8 (digitalRead (trace d) pin) in
    let d := call (EvDigitalRead pin) d in
    reply (dec value ++ str "=digitalRead(" ++ dec pin ++ str ");") d
  else if type =? 69 (* 'E' *) then
    pin ← get_str_param_n serial_data 2;
    let value := u16 (analogRead (trace d) pin) in
    let d := call (EvAnalogRead pin) d in
    reply (dec value ++ str "=analogRead(" ++ dec pin ++ str ");") d
  else if type =? 70 (* 'F' *) then
    timer ← get_str_param_n serial_data 1;
    let serial_data := drop 1 serial_data in
    channel ← get_str_param_n serial_data 1;
    let serial_data := drop 1 serial_data in
    prescale ← get_str_param_n serial_data 1;
    let d := initPwm timer channel prescale d in
    reply (str "initPwm(" ++ dec timer ++ str "," ++ dec channel ++ str ","
             ++ dec prescale ++ str ");") d
  else if type =? 71 (* 'G' *) then
    timer ← get_str_param_n serial_data 1;
    let serial_data := drop 1 serial_data in
    channel ← get_str_param_n serial_data 1;
    let serial_data := drop 1 serial_data in
    duty ← get_str_param_n serial_data 3;
    let d := pwmDuty timer channel duty d in
    reply (str "pwmDuty(" ++ dec timer ++ str "," ++ dec channel ++ str ","
             ++ dec duty ++ str ");") d
  else Some d.

(** ** loop *)
(** [serial_data[serial_data_idx++] = b], on an array of 256 octets with an
    [uint8_t] index. *)
Definition store (b : Z) (p : parser) : option parser :=
  if decide (Z.to_nat (serial_data_idx p) < length (serial_data p))%nat then
    Some (Parser (<[Z.to_nat (serial_data_idx p) := u8 b]> (serial_data p))
            (u8 (serial_data_idx p + 1)) (serial_idle_count p)
            (serial_state p) (expected_size p))
  else None.

Definition reset_idle (p : parser) : parser :=
  Parser (serial_data p) (serial_data_idx p) 0 (serial_state p) (expected_size p).
Definition goto_state (st : serial_state_e) (p : parser) : parser :=
  Parser (serial_data p) (serial_data_idx p) (serial_idle_count p) st (expected_size p).
Definition rewind (p : parser) : parser :=
  Parser (serial_data p) 0 (serial_idle_count p) (serial_state p) (expected_size p).
Definition expect (n : Z) (p : parser) : parser :=
  Parser (serial_data p) (serial_data_idx p) (serial_idle_count p) (serial_state p) (u8 n).

(** One iteration of [while (Serial.available())]; [rb] is what
    [Serial.read()] returns. *)
Definition loop_byte (rb : Z) (s : state) : option state :=
  let p := reset_idle (par s) in
  p ← store rb p;
  match serial_state p with
  | E_SERIAL_STATE_WAIT_TYPE =>
      if u8 rb <? Z.of_nat (length msg_size_by_type) then
        sz ← msg_size_by_type !! Z.to_nat rb;
        let p := expect (sz - 1) p in
        if expected_size p =? 0 then
          d ← process_message (serial_data p) (dev s);
          Some (State d (rewind p))
        else Some (State (dev s) (goto_state E_SERIAL_STATE_WAIT_BODY p))
      else Some (State (dev s) (goto_state E_SERIAL_STATE_WAIT_TEXT_BODY p))
  | E_SERIAL_STATE_WAIT_BODY =>
      let p := expect (expected_size p - 1) p in
      if expected_size p =? 0 then
        d ← process_message (serial_data p) (dev s);
        Some (State d (rewind (goto_state E_SERIAL_STATE_WAIT_TYPE p)))
      else Some (State (dev s) p)
  | E_SERIAL_STATE_WAIT_TEXT_BODY =>
      if SERIAL_TEXT_MSG_DELIMITER =? rb then
        p ← store 0 p;
        d ← process_text_message (serial_data p) (dev s);
        Some (State d (rewind (goto_state E_SERIAL_STATE_WAIT_TYPE p)))
      else Some (State (dev s) p)
  end.

Fixpoint loop_bytes (input : list Z) (s : state) : option state :=
  match input with
  | [] => Some s
  | rb :: input' => s' ← loop_byte rb s; loop_bytes input' s'
  end.

(** What follows the loop: the idle counter and its 2 ms limit. *)
Definition loop_idle (p : parser) : parser :=
  let n := u32 (serial_idle_count p + 1) in
  if 274 <? n
  then Parser (serial_data p) 0 0 E_SERIAL_STATE_WAIT_TYPE (expected_size p)
  else Parser (serial_data p) (serial_data_idx p) n (serial_state p) (expected_size p).

(** A call of [loop] that finds the octets [input] available. *)
Definition loop (input : list Z) (s : state) : option state :=
  s ← loop_bytes input s;
  Some (State (dev s) (loop_idle (par s))).

(** Successive calls. *)
Fixpoint loops (inputs : list (list Z)) (s : state) : option state :=
  match inputs with
  | [] => Some s
  | input :: inputs' => s' ← loop input s; loops inputs' s'
  end.

(** ** Specification

    The effect a request is meant to have, response included. *)
Definition respond (bytes : list Z) (d : device) : device :=
  Device (timers d) (regs d) (sprintf_buffer d) (tx d ++ bytes) (trace d).

Definition exec_request (r : request) (d : device) : device :=
  match r with
  | ReqLogInfo => d
  | ReqPinMode pin mode => respond [0] (call (EvPinMode pin mode) d)
  | ReqDigitalWrite pin value => respond [0] (call (EvDigitalWrite pin value) d)
  | ReqDigitalRead pin =>
      respond [u8 (digitalRead (trace d) pin)] (call (EvDigitalRead pin) d)
  | ReqAnalogRead pin =>
      respond (to_bytes (MsgbAnalogReadResponse (u16 (analogRead (trace d) pin))))
        (call (EvAnalogRead pin) d)
  | ReqPwmInit timer channel prescale => respond [0] (initPwm timer channel prescale d)
  | ReqPwmDuty timer channel duty => respond [0] (pwmDuty timer channel duty d)
  end.

(** The parser between two messages. *)
Definition parser_idle (p : parser) : Prop :=
  serial_state p = E_SERIAL_STATE_WAIT_TYPE /\ serial_data_idx p = 0 /\
  length (serial_data p) = 256%nat.

(** The invariant of the parser: the buffer keeps its 256 octets and the
    index is one of them; a binary body that is awaited is bounded by the
    largest struct, and what is already stored starts with its type. *)
Definition body_progress (p : parser) : Prop :=
  exists type size, serial_data p !! 0%nat = Some type /\
    msg_size_by_type !! Z.to_nat type = Some size /\ 0 <= type /\
    1 <= expected_size p /\ 1 <= serial_data_idx p /\
    serial_data_idx p + expected_size p = size.

Definition parser_wf (p : parser) : Prop :=
  length (serial_data p) = 256%nat /\ 0 <= serial_data_idx p < 256 /\
  0 <= serial_idle_count p <= 274 /\
  match serial_state p with
  | E_SERIAL_STATE_WAIT_TYPE => serial_data_idx p = 0
  | E_SERIAL_STATE_WAIT_BODY => body_progress p
  | E_SERIAL_STATE_WAIT_TEXT_BODY => True
  end.




(** The calls of [loop] stay within 2 ms of each other: [n] is the idle count
    the next call starts from. *)
Fixpoint gaps_ok (n : Z) (inputs : list (list Z)) : Prop :=
  match inputs with
  | [] => True
  | [] :: inputs' => n + 1 <= 274 /\ gaps_ok (n + 1) inputs'
  | _ :: inputs' => gaps_ok 1 inputs'
  end.

(** ** Device lemmas *)
Lemma rget_rset_eq r v d : rget r (rset r v d) = v.
Proof. unfold rget, rset. simpl. by rewrite lookup_insert_eq. Qed.

Lemma rget_rset_ne r r' v d : r <> r' -> rget r (rset r' v d) = rget r d.
Proof. intros. unfold rget, rset. simpl. by rewrite lookup_insert_ne. Qed.

Lemma rget_set_timer r i c d : rget r (set_timer i c d) = rget r d.
Proof. done. Qed.

Lemma send_serial_respond data d :
  send_serial data (length data) d = Some (respond data d).
Proof.
  revert d. induction data as [|b data IH]; intros d; simpl.
  - unfold respond. rewrite app_nil_r. by destruct d.
  - rewrite IH. unfold respond, serial_write. simpl. by rewrite <-app_assoc.
Qed.

Lemma send_response_respond {T} `{PackedStruct T} (rsp : T) d :
  length (to_bytes rsp) = sizeof T ->
  send_response rsp d = Some (respond (to_bytes rsp) d).
Proof. unfold send_response. intros <-. apply send_serial_respond. Qed.

Lemma send_serial_str_respond text r d :
  Forall (fun c => c <> 0) text ->
  send_serial_str (text ++ 0 :: r) d = Some (respond text d).
Proof.
  intros Ht. revert d. induction Ht as [|c cs Hc Hcs IH]; intros d; simpl.
  - unfold respond. rewrite app_nil_r. by destruct d.
  - rewrite (proj2 (Z.eqb_neq c 0) Hc), IH.
    unfold respond, serial_write. simpl. by rewrite <-app_assoc.
Qed.

Lemma respond_app bs cs d : respond cs (respond bs d) = respond (bs ++ cs) d.
Proof. unfold respond. simpl. by rewrite app_assoc. Qed.

Lemma rget_respond r bs d : rget r (respond bs d) = rget r d.
Proof. done. Qed.

Lemma rget_call r e d : rget r (call e d) = rget r d.
Proof. done. Qed.

(** ** One binary message *)
Lemma process_message_encode r buf d :
  wf_request r ->
  process_message (encode_request r ++ buf) d = Some (exec_request r d).
Proof.
  intros Hr. destruct r as [|pin mode|pin v|pin|pin|t c p|t c du]; simpl in Hr;
    [done| | | | | |]; unfold process_message;
    cbn -[set_param get_param send_response Z.lor]; masks.
  - destruct (pin_fields pin mode) as [-> ->]; [tauto..|].
    by rewrite send_response_respond.
  - destruct (pin_fields pin v) as [-> ->]; [tauto..|].
    by rewrite send_response_respond.
  - by rewrite send_response_respond.
  - by rewrite send_response_respond.
  - destruct (pwm_init_fields t c p) as (-> & -> & ->); [tauto..|].
    by rewrite send_response_respond.
  - destruct (pwm_duty_fields t c) as [-> ->]; [tauto..|].
    by rewrite send_response_respond.
Qed.

(** ** Framing *)
Lemma store_ok b p :
  (Z.to_nat (serial_data_idx p) < length (serial_data p))%nat ->
  store b p = Some (Parser (<[Z.to_nat (serial_data_idx p) := u8 b]> (serial_data p))
    (u8 (serial_data_idx p + 1)) (serial_idle_count p) (serial_state p) (expected_size p)).
Proof. intros. unfold store. by rewrite decide_True. Qed.

Lemma store_overwrite b pre buf n st e :
  is_byte b -> (length pre < 255)%nat -> length buf = 256%nat ->
  store b (Parser (overwrite pre buf) (Z.of_nat (length pre)) n st e) =
  Some (Parser (overwrite (pre ++ [b]) buf) (Z.of_nat (length (pre ++ [b]))) n st e).
Proof.
  intros Hb Hp Hbuf. rewrite store_ok; simpl.
  - rewrite Nat2Z.id, u8_small, overwrite_snoc by (done || lia).
    rewrite length_app, u8_small by lia. simpl. repeat f_equal. lia.
  - rewrite Nat2Z.id, length_overwrite; lia.
Qed.

(** The body of a binary message, octet by octet. *)
Lemma loop_body rest : forall pre buf n d,
  rest <> [] -> Forall is_byte rest ->
  (length (pre ++ rest) < 255)%nat -> length buf = 256%nat ->
  loop_bytes rest (State d (Parser (overwrite pre buf) (Z.of_nat (length pre)) n
    E_SERIAL_STATE_WAIT_BODY (Z.of_nat (length rest)))) =
  (d' ← process_message (overwrite (pre ++ rest) buf) d;
   Some (State d' (Parser (overwrite (pre ++ rest) buf) 0 0 E_SERIAL_STATE_WAIT_TYPE 0))).
Proof.
  induction rest as [|b rest IH]; intros pre buf n d Hne Hf Hlen Hbuf; [done|].
  apply Forall_cons in Hf as [Hb Hf]. rewrite length_app in Hlen. simpl in Hlen.
  cbn [loop_bytes]. unfold loop_byte. cbn [par].
  unfold reset_idle. cbn [serial_data serial_data_idx serial_state expected_size].
  rewrite store_overwrite by (done || lia). cbn [mbind option_bind serial_state].
  unfold expect. cbn [expected_size dev].
  rewrite u8_small by (simpl; lia).
  replace (Z.of_nat (length (b :: rest)) - 1) with (Z.of_nat (length rest)) by (simpl; lia).
  destruct rest as [|b' rest'].
  - cbn -[overwrite process_message]. by destruct (process_message _ d).
  - replace (Z.of_nat (length (b' :: rest')) =? 0) with false by (simpl; lia).
    cbn [mbind option_bind dev serial_data serial_data_idx serial_idle_count serial_state].
    rewrite IH; [|done|done|rewrite !length_app; simpl in *; lia|done].
    by rewrite <-app_assoc.
Qed.

(** A whole message from an idle parser. *)
Lemma loop_frame type body p d :
  parser_idle p -> 0 <= type < 7 -> Forall is_byte body -> (length body < 254)%nat ->
  msg_size_by_type !! Z.to_nat type = Some (Z.of_nat (length (type :: body))) ->
  loop_bytes (type :: body) (State d p) =
  (d' ← process_message (overwrite (type :: body) (serial_data p)) d;
   Some (State d' (Parser (overwrite (type :: body) (serial_data p)) 0 0
           E_SERIAL_STATE_WAIT_TYPE 0))).
Proof.
  intros (Hst & Hidx & Hbuf) Ht Hb Hl Hsz.
  destruct p as [buf idx n st e]. simpl in Hst, Hidx, Hbuf. subst.
  cbn [loop_bytes]. unfold loop_byte, reset_idle.
  cbn [par dev serial_data serial_data_idx serial_state expected_size].
  rewrite (store_overwrite type [] buf) by (unfold is_byte; simpl; lia).
  cbn [mbind option_bind serial_state app length].
  rewrite (u8_small type) by lia. change (Z.of_nat (length msg_size_by_type)) with 7.
  replace (type <? 7) with true by lia. rewrite Hsz. cbn [mbind option_bind].
  unfold expect. cbn [expected_size length] in *.
  rewrite u8_small by lia.
  replace (Z.of_nat (S (length body)) - 1) with (Z.of_nat (length body)) by lia.
  destruct body as [|b body].
  - cbn -[overwrite process_message]. by destruct (process_message _ d).
  - replace (Z.of_nat (length (b :: body)) =? 0) with false by (simpl; lia).
    cbn [mbind option_bind]. unfold goto_state.
    cbn [dev serial_data serial_data_idx serial_idle_count serial_state].
    rewrite (loop_body (b :: body) [type]); try done.
    simpl in *. lia.
Qed.

Lemma loop_request r p d :
  parser_idle p -> wf_request r ->
  exists p', parser_idle p' /\ serial_idle_count p' = 0 /\
    loop_bytes (encode_request r) (State d p) = Some (State (exec_request r d) p').
Proof.
  intros Hp Hr. pose proof (encode_request_octets r Hr) as Ho.
  destruct (encode_request_shape r) as (type & body & E & Ht & Hsz).
  pose proof (encode_request_length r) as Hl.
  assert (length body < 254)%nat by (rewrite E in Hl; simpl in Hl; lia).
  rewrite E in Ho |- *. apply Forall_cons in Ho as [_ Ho].
  rewrite loop_frame, <-E by done.
  rewrite (process_message_encode r _ d Hr : process_message (overwrite _ _) d = _).
  cbn [mbind option_bind].
  exists (Parser (overwrite (encode_request r) (serial_data p)) 0 0
            E_SERIAL_STATE_WAIT_TYPE 0).
  split; [|by split]. repeat split. cbn [serial_data].
  destruct Hp as (_ & _ & Hp). rewrite length_overwrite; lia.
Qed.

Lemma loop_bytes_app xs ys s :
  loop_bytes (xs ++ ys) s = (s' ← loop_bytes xs s; loop_bytes ys s').
Proof.
  revert s. induction xs as [|x xs IH]; intros s; [done|]. simpl.
  destruct (loop_byte x s); simpl; [apply IH|done].
Qed.

Lemma loop_requests rs : forall p d,
  parser_idle p -> Forall wf_request rs ->
  exists p', parser_idle p' /\
    loop_bytes (concat (encode_request <$> rs)) (State d p) =
    Some (State (fold_left (fun d r => exec_request r d) rs d) p').
Proof.
  induction rs as [|r rs IH]; intros p d Hp Hf; simpl.
  { eauto. }
  apply Forall_cons in Hf as [Hr Hf]. rewrite loop_bytes_app.
  destruct (loop_request r p d Hp Hr) as (p1 & Hp1 & _ & ->). by apply IH.
Qed.

(** ** Independence from the chunking of the input *)
Definition erase_idle (s : state) : state := State (dev s) (reset_idle (par s)).

Lemma loop_byte_erase rb s : loop_byte rb s = loop_byte rb (erase_idle s).
Proof. done. Qed.

Lemma loop_bytes_erase input s :
  erase_idle <$> loop_bytes input s = erase_idle <$> loop_bytes input (erase_idle s).
Proof. destruct input; done. Qed.

Lemma store_idle b p p' : store b p = Some p' -> serial_idle_count p' = serial_idle_count p.
Proof. unfold store. case_decide; [|done]. by intros [= <-]. Qed.

Lemma loop_byte_idle rb s s' : loop_byte rb s = Some s' -> serial_idle_count (par s') = 0.
Proof.
  unfold loop_byte. intros Hs. apply bind_Some in Hs as (p1 & Hp1%store_idle & Hs).
  simpl in Hp1.
  repeat first [ case_match | apply bind_Some in Hs as (? & ?%store_idle & Hs)
               | apply bind_Some in Hs as (? & ? & Hs) ];
    simplify_eq; simpl; congruence.
Qed.

Lemma loop_bytes_idle input s s' :
  input <> [] -> loop_bytes input s = Some s' -> serial_idle_count (par s') = 0.
Proof.
  revert s. induction input as [|rb input IH]; intros s Hne Hs; [done|].
  simpl in Hs. apply bind_Some in Hs as (s1 & H1 & H2).
  destruct input as [|rb' input].
  - simplify_eq/=. by eapply loop_byte_idle.
  - by eapply IH.
Qed.

Lemma loop_idle_small p :
  0 <= serial_idle_count p -> serial_idle_count p + 1 <= 274 ->
  loop_idle p = Parser (serial_data p) (serial_data_idx p) (serial_idle_count p + 1)
                  (serial_state p) (expected_size p).
Proof.
  intros. unfold loop_idle. rewrite u32_small by lia.
  by replace (274 <? serial_idle_count p + 1) with false by lia.
Qed.

Lemma loops_chunks chunks : forall s,
  0 <= serial_idle_count (par s) -> gaps_ok (serial_idle_count (par s)) chunks ->
  erase_idle <$> loops chunks s = erase_idle <$> loop_bytes (concat chunks) s.
Proof.
  induction chunks as [|c chunks IH]; intros s Hn Hg; [done|].
  simpl concat. rewrite loop_bytes_app. simpl loops. unfold loop.
  destruct c as [|b c].
  - simpl in Hg. destruct Hg as [Hg1 Hg2]. simpl.
    rewrite loop_idle_small by done. rewrite IH; [|simpl; lia|done].
    by rewrite loop_bytes_erase, (loop_bytes_erase _ s).
  - destruct (loop_bytes (b :: c) s) as [s1|] eqn:E; [|done].
    pose proof (loop_bytes_idle (b :: c) s s1 ltac:(done) E) as H1.
    cbn [mbind option_bind].
    rewrite loop_idle_small by (rewrite H1; lia).
    rewrite IH by (cbn [par serial_idle_count]; rewrite ?H1; (lia || done)).
    by rewrite loop_bytes_erase, (loop_bytes_erase _ s1).
Qed.

(** ** Resynchronisation *)
Lemma loop_idle_idle p : parser_idle p -> parser_idle (loop_idle p).
Proof. intros (? & ? & ?). unfold loop_idle. by case_match. Qed.

Lemma loops_silent_idle k s :
  parser_idle (par s) ->
  exists p', loops (replicate k []) s = Some (State (dev s) p') /\ parser_idle p'.
Proof.
  revert s. induction k as [|k IH]; intros s Hs.
  { exists (par s). by destruct s. }
  apply (IH (State (dev s) (loop_idle (par s)))). by apply loop_idle_idle.
Qed.

Lemma loops_silent k : forall s,
  length (serial_data (par s)) = 256%nat ->
  0 <= serial_idle_count (par s) <= 274 ->
  275 - serial_idle_count (par s) <= Z.of_nat k ->
  exists p', loops (replicate k []) s = Some (State (dev s) p') /\ parser_idle p'.
Proof.
  induction k as [|k IH]; intros s Hl Hn Hk; [lia|].
  simpl. destruct (decide (serial_idle_count (par s) + 1 <= 274)).
  - rewrite loop_idle_small by lia.
    refine (IH (State (dev s) _) _ _ _); simpl; (done || lia).
  - unfold loop_idle. rewrite u32_small by lia.
    replace (274 <? serial_idle_count (par s) + 1) with true by lia.
    by apply (loops_silent_idle k (State (dev s) _)).
Qed.








(** ** Textual commands

    The textual form of a request, as the comments of [process_text_message]
    give it: [u2] parameters are two decimal digits, [u1] one, [u3] three. *)
Definition text_request (r : request) : list Z :=
  match r with
  | ReqLogInfo => [65]
  | ReqPinMode pin mode => 66 :: two_digits pin ++ two_digits mode
  | ReqDigitalWrite pin value => 67 :: two_digits pin ++ two_digits value
  | ReqDigitalRead pin => 68 :: two_digits pin
  | ReqAnalogRead pin => 69 :: two_digits pin
  | ReqPwmInit timer channel prescale => [70; digit timer; digit channel; digit prescale]
  | ReqPwmDuty timer channel duty => 71 :: digit timer :: digit channel :: three_digits duty
  end.

(** The parameters that form can express and the parser can read. *)
Definition text_expressible (r : request) : Prop :=
  match r with
  | ReqLogInfo => True
  | ReqPinMode pin v | ReqDigitalWrite pin v => 0 <= pin < 100 /\ 0 <= v < 100
  | ReqDigitalRead pin | ReqAnalogRead pin => 0 <= pin < 100
  | ReqPwmInit timer channel prescale =>
      0 <= timer < 10 /\ 0 <= channel < 10 /\ 0 <= prescale < 10
  | ReqPwmDuty timer channel duty =>
      0 <= timer < 10 /\ 0 <= channel < 10 /\ 0 <= duty < 100
  end.

(** A pin the form can write, and a duty the parser can read. *)
Definition two_digit_pin (r : request) : Prop :=
  match r with ReqDigitalRead pin | ReqAnalogRead pin => pin < 100 | _ => True end.
Definition two_digit_duty (r : request) : bool :=
  match r with ReqPwmDuty _ _ duty => duty <? 100 | _ => true end.

Lemma text_expressible_intro r : wf_request r -> two_digit_pin r -> two_digit_duty r = true -> text_expressible r.
Proof. destruct r; cbn [wf_request two_digit_pin two_digit_duty text_expressible]; unfold is_byte; lia. Qed.

(** What the firmware echoes. *)
Definition text_reply (r : request) (d : device) : list Z :=
  match r with
  | ReqLogInfo => [59]
  | ReqPinMode pin mode => str "pinMode(" ++ dec pin ++ str "," ++ dec mode ++ str ");"
  | ReqDigitalWrite pin v => str "digitalWrite(" ++ dec pin ++ str "," ++ dec v ++ str ");"
  | ReqDigitalRead pin =>
      dec (u8 (digitalRead (trace d) pin)) ++ str "=digitalRead(" ++ dec pin ++ str ");"
  | ReqAnalogRead pin =>
      dec (u16 (analogRead (trace d) pin)) ++ str "=analogRead(" ++ dec pin ++ str ");"
  | ReqPwmInit t c p =>
      str "initPwm(" ++ dec t ++ str "," ++ dec c ++ str "," ++ dec p ++ str ");"
  | ReqPwmDuty t c du =>
      str "pwmDuty(" ++ dec t ++ str "," ++ dec c ++ str "," ++ dec du ++ str ");"
  end.

(** Everything of a device but its output. *)
Definition same_effect (d d' : device) : Prop :=
  timers d = timers d' /\ regs d = regs d' /\ trace d = trace d'.

Definition printable (text : list Z) : Prop :=
  Forall (fun c => c <> 0) text /\ (length text < 256)%nat.

Lemma reply_printable text d :
  printable text ->
  exists d', reply text d = Some d' /\ same_effect d' d /\ tx d' = tx d ++ text.
Proof.
  intros [Hz Hl]. unfold reply, sprintf.
  replace (length text <? 256)%nat with true by (symmetry; apply Nat.ltb_lt; lia).
  cbn [mbind option_bind sprintf_buffer]. unfold overwrite.
  rewrite <-app_assoc. simpl app.
  rewrite send_serial_str_respond by done. eexists. split; [done|]. done.
Qed.

Lemma printable_parts (parts : list (list Z)) :
  Forall (fun p => Forall (fun c => c <> 0) p /\ (length p <= 20)%nat) parts ->
  (length parts <= 8)%nat -> printable (concat parts).
Proof.
  intros Hf Hn. split.
  - induction Hf as [|p parts [Hp _] _ IH]; simpl; [done|].
    apply Forall_app. split; [done|]. apply IH. simpl in Hn. lia.
  - enough (length (concat parts) <= 20 * length parts)%nat by lia. clear Hn.
    induction Hf as [|p parts [_ Hp] _ IH]; simpl; [lia|]. rewrite length_app. lia.
Qed.

Lemma part_dec z : 0 <= z < 65536 ->
  Forall (fun c => c <> 0) (dec z) /\ (length (dec z) <= 20)%nat.
Proof.
  intros Hz. split; [apply dec_nonzero; lia|].
  pose proof (length_dec z 16 Hz). lia.
Qed.

Lemma part_str s :
  forallb (fun c => negb (c =? 0)) (str s) = true -> (length (str s) <= 20)%nat ->
  Forall (fun c => c <> 0) (str s) /\ (length (str s) <= 20)%nat.
Proof.
  intros Hs Hl. split; [|done]. apply Forall_forall. intros c Hc.
  rewrite forallb_forall in Hs. apply list_elem_of_In, Hs in Hc. lia.
Qed.

(** [reply] of a text made of literals and numbers. *)
Ltac reply_parts :=
  match goal with
  | |- context [reply ?t ?d] =>
      let parts := match t with
        | ?a ++ ?b ++ ?c ++ ?e ++ ?f ++ ?g ++ ?h => constr:([a; b; c; e; f; g; h])
        | ?a ++ ?b ++ ?c ++ ?e ++ ?f => constr:([a; b; c; e; f])
        | ?a ++ ?b ++ ?c ++ ?e => constr:([a; b; c; e]) end in
      let Hp := fresh in
      assert (printable (concat parts)) as Hp;
      [ apply printable_parts; [|simpl; lia];
        repeat apply Forall_cons_2; try apply Forall_nil_2;
        first [apply part_str; [reflexivity|vm_compute; lia]
              | apply part_dec; word_bounds; lia]
      | cbn [concat] in Hp; rewrite ?app_nil_r in Hp;
        destruct (reply_printable t d Hp) as (?d' & -> & ?Heff & ?Htx) ]
  end.

Lemma drop_two z (rest : list Z) : drop 2 (two_digits z ++ rest) = rest.
Proof. done. Qed.

(** The effect part of a response does not matter to [same_effect]. *)
Lemma same_effect_respond d1 d2 bs : same_effect d1 d2 -> same_effect d1 (respond bs d2).
Proof. done. Qed.

Ltac text_dispatch :=
  unfold process_text_message;
  cbn [lookup list_lookup mbind option_bind text_request app];
  cbv beta iota delta [Z.eqb Pos.eqb];
  rewrite ?skipn_cons, ?drop_0, <-?app_assoc.

Lemma initPwm_tx t c p d : tx (initPwm t c p d) = tx d.
Proof. unfold initPwm. by repeat case_match. Qed.

Lemma initPwm_trace t c p d : trace (initPwm t c p d) = trace d.
Proof. unfold initPwm. by repeat case_match. Qed.

Lemma pwmDuty_tx t c du d : tx (pwmDuty t c du d) = tx d.
Proof. unfold pwmDuty. by repeat case_match. Qed.

Lemma process_text_request r rest d :
  text_expressible r ->
  exists d', process_text_message (text_request r ++ rest) d = Some d' /\
    same_effect d' (exec_request r d) /\ tx d' = tx d ++ text_reply r d.
Proof.
  intros Hr. destruct r as [|pin v|pin v|pin|pin|t c p|t c du]; simpl in Hr;
    text_dispatch.
  { eexists. by split. }
  1-4: rewrite get_str_param_two by tauto; cbn [mbind option_bind].
  1-2: rewrite drop_two, get_str_param_two by tauto; cbn [mbind option_bind].
  1-4: reply_parts; eauto.
  all: rewrite get_str_param_one by tauto; cbn [mbind option_bind];
    rewrite ?skipn_cons, ?drop_0.
  all: rewrite get_str_param_one by tauto; cbn [mbind option_bind];
    rewrite ?skipn_cons, ?drop_0.
  - rewrite get_str_param_one by tauto; cbn [mbind option_bind].
    reply_parts. rewrite initPwm_tx in *. eauto.
  - rewrite get_str_param_three by lia. replace (du <? 100) with true by lia.
    cbn [mbind option_bind]. reply_parts. rewrite pwmDuty_tx in *. eauto.
Qed.

Lemma process_text_request_stored r ts buf d :
  text_expressible r ->
  exists d', process_text_message (overwrite (text_request r ++ ts) buf) d = Some d' /\
    same_effect d' (exec_request r d) /\ tx d' = tx d ++ text_reply r d.
Proof. intros. unfold overwrite. rewrite <-app_assoc. by apply process_text_request. Qed.

(** A duty of three significant digits is not computed: the running value is
    scaled by a power of ten that already counted the leading digit. *)
Lemma process_text_duty_undefined t c du rest d :
  0 <= t < 10 -> 0 <= c < 10 -> 100 <= du < 1000 ->
  process_text_message (text_request (ReqPwmDuty t c du) ++ rest) d = None.
Proof.
  intros Ht Hc Hdu. text_dispatch.
  do 2 (rewrite get_str_param_one by tauto; cbn [mbind option_bind];
    rewrite ?skipn_cons, ?drop_0).
  rewrite get_str_param_three by lia. by replace (du <? 100) with false by lia.
Qed.

Lemma process_text_duty_undefined_stored t c du ts buf d :
  0 <= t < 10 -> 0 <= c < 10 -> 100 <= du < 1000 ->
  process_text_message (overwrite (text_request (ReqPwmDuty t c du) ++ ts) buf) d = None.
Proof.
  intros. unfold overwrite. rewrite <-app_assoc. by apply process_text_duty_undefined.
Qed.







(** ** Framing of a textual command *)
Lemma loop_text_body body : forall pre buf e d,
  Forall is_byte body -> Forall (fun c => c <> SERIAL_TEXT_MSG_DELIMITER) body ->
  (length (pre ++ body) < 255)%nat -> length buf = 256%nat ->
  loop_bytes body (State d (Parser (overwrite pre buf) (Z.of_nat (length pre)) 0
    E_SERIAL_STATE_WAIT_TEXT_BODY e)) =
  Some (State d (Parser (overwrite (pre ++ body) buf) (Z.of_nat (length (pre ++ body))) 0
    E_SERIAL_STATE_WAIT_TEXT_BODY e)).
Proof.
  induction body as [|b body IH]; intros pre buf e d Hf Hn Hl Hbuf.
  { by rewrite app_nil_r. }
  apply Forall_cons in Hf as [Hb Hf]. apply Forall_cons in Hn as [Hb' Hn].
  rewrite length_app in Hl. simpl in Hl.
  cbn [loop_bytes]. unfold loop_byte, reset_idle.
  cbn [par dev serial_data serial_data_idx serial_state expected_size].
  rewrite store_overwrite by (done || lia). cbn [mbind option_bind serial_state].
  replace (SERIAL_TEXT_MSG_DELIMITER =? b) with false
    by (symmetry; apply Z.eqb_neq; done).
  cbn [mbind option_bind]. rewrite IH; [by rewrite <-app_assoc|done|done| |done].
  rewrite !length_app. simpl. lia.
Qed.

Lemma loop_text_command c body p d :
  parser_idle p -> 7 <= c < 256 -> Forall is_byte body ->
  Forall (fun c => c <> SERIAL_TEXT_MSG_DELIMITER) body -> (length body < 250)%nat ->
  loop_bytes (c :: body ++ [SERIAL_TEXT_MSG_DELIMITER]) (State d p) =
  (d' ← process_text_message
          (overwrite (c :: body ++ [SERIAL_TEXT_MSG_DELIMITER; 0]) (serial_data p)) d;
   Some (State d' (Parser
     (overwrite (c :: body ++ [SERIAL_TEXT_MSG_DELIMITER; 0]) (serial_data p)) 0 0
     E_SERIAL_STATE_WAIT_TYPE (expected_size p)))).
Proof.
  intros (Hst & Hidx & Hbuf) Hc Hb Hn Hl.
  destruct p as [buf idx n st e]. simpl in Hst, Hidx, Hbuf. subst.
  cbn [loop_bytes]. unfold loop_byte at 1, reset_idle.
  cbn [par dev serial_data serial_data_idx serial_state expected_size].
  rewrite (store_overwrite c [] buf) by (unfold is_byte; simpl; lia).
  cbn [mbind option_bind serial_state app].
  rewrite (u8_small c) by lia. change (Z.of_nat (length msg_size_by_type)) with 7.
  replace (c <? 7) with false by lia. unfold goto_state.
  cbn [mbind option_bind serial_data serial_data_idx serial_idle_count expected_size].
  rewrite loop_bytes_app, (loop_text_body body [c]) by (done || (simpl; lia)).
  cbn [mbind option_bind loop_bytes]. unfold loop_byte, reset_idle.
  cbn [par dev serial_data serial_data_idx serial_state expected_size app].
  rewrite store_overwrite by (by split || done || (simpl; lia)).
  cbn [mbind option_bind serial_state]. rewrite Z.eqb_refl.
  rewrite store_overwrite by
    (by split || done || (rewrite !length_app; simpl; lia)).
  cbn [mbind option_bind serial_data]. rewrite <-!app_assoc. simpl app.
  by destruct (process_text_message _ d).
Qed.

Lemma text_request_shape r :
  text_expressible r ->
  exists c body, text_request r = c :: body /\ 7 <= c < 256 /\ Forall is_byte body /\
    Forall (fun c => c <> SERIAL_TEXT_MSG_DELIMITER) body /\ (length body < 250)%nat.
Proof.
  intros Hr. exists (hd 0 (text_request r)), (tail (text_request r)).
  destruct r as [|pin v|pin v|pin|pin|t c p|t c du]; simpl in Hr;
    (split; [done|]); (split; [by split|]);
    unfold SERIAL_TEXT_MSG_DELIMITER; (split; [|split; [|simpl; lia]]);
    simpl; unfold three_digits, two_digits, digit;
    repeat apply Forall_cons_2; try apply Forall_nil_2; unfold is_byte; 
    Z.to_euclidean_division_equations; lia.
Qed.

(** ** Registers *)
(** The compare register of an output and the requests that set it. *)
Definition duty_reg (timer channel : Z) : option reg :=
  if timer =? 0 then Some (if channel =? 0 then OCR0A else OCR0B)
  else if timer =? 1 then Some (if channel =? 0 then OCR1A else OCR1B)
  else if timer =? 2 then Some (if channel =? 0 then OCR2A else OCR2B)
  else None.

Definition is_duty_reg (r : reg) : bool :=
  match r with OCR0A | OCR0B | OCR1A | OCR1B | OCR2A | OCR2B => true | _ => false end.

(** The duty the last request of a sequence that addresses [r] asks for. *)
Fixpoint last_duty (r : reg) (rs : list request) (v : Z) : Z :=
  match rs with
  | [] => v
  | ReqPwmDuty t c du :: rs =>
      last_duty r rs (if decide (duty_reg t c = Some r) then du else v)
  | _ :: rs => last_duty r rs v
  end.

Lemma pwmDuty_rset t c du d :
  pwmDuty t c du d = match duty_reg t c with Some r => rset r du d | None => d end.
Proof. unfold pwmDuty, duty_reg. by repeat case_match. Qed.

Lemma rget_pwmDuty r t c du d :
  rget r (pwmDuty t c du d) = if decide (duty_reg t c = Some r) then du else rget r d.
Proof.
  rewrite pwmDuty_rset. destruct (duty_reg t c) as [r'|]; case_decide; simplify_eq.
  - apply rget_rset_eq.
  - apply rget_rset_ne. congruence.
  - done.
Qed.

Lemma rget_initPwm_duty r t c p d :
  is_duty_reg r = true -> rget r (initPwm t c p d) = rget r d.
Proof.
  intros Hr. unfold initPwm.
  repeat case_match; rewrite ?rget_set_timer;
    rewrite ?rget_rset_ne by (intros ->; discriminate); done.
Qed.

Lemma rget_exec_request_duty r q d :
  is_duty_reg r = true -> rget r (exec_request q d) = last_duty r [q] (rget r d).
Proof.
  intros Hr. destruct q; simpl; rewrite ?rget_respond, ?rget_call; try done.
  - by apply rget_initPwm_duty.
  - apply rget_pwmDuty.
Qed.

Lemma last_duty_cons r q rs v :
  last_duty r (q :: rs) v = last_duty r rs (last_duty r [q] v).
Proof. by destruct q. Qed.

Lemma rget_exec_requests_duty r rs d :
  is_duty_reg r = true ->
  rget r (fold_left (fun d q => exec_request q d) rs d) = last_duty r rs (rget r d).
Proof.
  intros Hr. revert d. induction rs as [|q rs IH]; intros d; [done|].
  simpl fold_left. rewrite IH, rget_exec_request_duty by done.
  by rewrite <-last_duty_cons.
Qed.

Lemma rset_rset r v w d : rset r v (rset r w d) = rset r v d.
Proof. unfold rset. simpl. by rewrite insert_insert_eq. Qed.

Lemma rset_id r d : regs d !! r = Some (rget r d) -> rset r (rget r d) d = d.
Proof. intros Hr. unfold rset. rewrite insert_id by done. by destruct d. Qed.

(** A value stored twice. *)
Lemma rset_same r v d : regs d !! r = Some v -> rset r v d = d.
Proof. intros Hr. unfold rset. rewrite insert_id by done. by destruct d. Qed.

Lemma set_timer_same i c d : timers d !! i = Some c -> set_timer i c d = d.
Proof. intros Hi. unfold set_timer. rewrite list_insert_id by done. by destruct d. Qed.

Lemma timer_at_set_timer i c d :
  (i < length (timers d))%nat -> timer_at i (set_timer i c d) = c.
Proof. intros. unfold timer_at. simpl. by rewrite list_lookup_insert_eq. Qed.

Ltac timer_cases t :=
  assert (t = 0 \/ t = 1 \/ t = 2) as [->|[->| ->]] by lia;
  change (Z.to_nat 0) with 0%nat in *; change (Z.to_nat 1) with 1%nat in *;
  change (Z.to_nat 2) with 2%nat in *;
  change (1 =? 0) with false in *; change (2 =? 0) with false in *;
  change (2 =? 1) with false in *; rewrite ?Z.eqb_refl; cbv beta iota zeta.

Definition tccr_a (t : Z) : reg :=
  if t =? 0 then TCCR0A else if t =? 1 then TCCR1A else TCCR2A.
Definition tccr_b (t : Z) : reg :=
  if t =? 0 then TCCR0B else if t =? 1 then TCCR1B else TCCR2B.
Definition com_bits (t c : Z) : Z :=
  u8 (if t =? 0 then (if c =? 0 then _BV COM0A1 else _BV COM0B1)
      else (if c =? 0 then _BV COM2A1 else _BV COM2B1)).
Definition wgm_value (t : Z) : Z :=
  if t =? 0 then Z.lor (_BV WGM01) (_BV WGM00)
  else if t =? 1 then _BV WGM10 else Z.lor (_BV WGM21) (_BV WGM20).
Definition clock_value (t p : Z) : Z :=
  if t =? 1 then Z.lor (_BV WGM10) (Z.land p 7) else Z.land p 7.

(** The last step of [initPwm], whatever came before. *)
Definition enable_channel (t c p : Z) (d : device) : device :=
  set_timer (Z.to_nat t) (TimerConfig p true)
    (rset (tccr_a t) (Z.lor (rget (tccr_a t) d) (com_bits t c)) d).

Lemma initPwm_enable t c p d :
  0 <= t < 3 ->
  exists d0, initPwm t c p d = enable_channel t c p d0 /\ timers d0 = timers d.
Proof.
  intros Ht. unfold enable_channel, initPwm, tccr_a, com_bits. timer_cases t;
    (eexists; split; [reflexivity|]); by repeat case_match.
Qed.

Lemma initPwm_again t c p d :
  0 <= t < 3 -> timer_at (Z.to_nat t) d = TimerConfig p true ->
  initPwm t c p d = enable_channel t c p d.
Proof.
  intros Ht Hc. unfold enable_channel, initPwm, tccr_a, com_bits.
  timer_cases t; rewrite Hc; cbn [prescale configured negb]; by rewrite Z.eqb_refl.
Qed.

Lemma initPwm_first t c p d :
  0 <= t < 3 -> configured (timer_at (Z.to_nat t) d) = false ->
  initPwm t c p d =
  enable_channel t c p (rset (tccr_b t) (clock_value t p) (rset (tccr_a t) (wgm_value t) d)).
Proof.
  intros Ht Hc. unfold enable_channel, initPwm, tccr_a, tccr_b, com_bits, clock_value, wgm_value.
  timer_cases t; by rewrite Hc.
Qed.

Lemma initPwm_no_timer t c p d : ~ 0 <= t < 3 -> initPwm t c p d = d.
Proof.
  intros. unfold initPwm. replace (t =? 0) with false by lia.
  replace (t =? 1) with false by lia. by replace (t =? 2) with false by lia.
Qed.

Lemma timer_at_enable t c p d :
  0 <= t < 3 -> length (timers d) = 3%nat ->
  timer_at (Z.to_nat t) (enable_channel t c p d) = TimerConfig p true.
Proof. intros. apply timer_at_set_timer. simpl. lia. Qed.

Lemma enable_channel_twice t c p d :
  0 <= t < 3 -> length (timers d) = 3%nat ->
  enable_channel t c p (enable_channel t c p d) = enable_channel t c p d.
Proof.
  intros Ht Hl. unfold enable_channel at 1. set (d1 := enable_channel t c p d).
  assert (rget (tccr_a t) d1 = Z.lor (rget (tccr_a t) d) (com_bits t c)) as ->
    by exact (rget_rset_eq _ _ d).
  rewrite <-Z.lor_assoc, Z.lor_diag, rset_same.
  - apply set_timer_same. apply list_lookup_insert_eq. simpl. lia.
  - subst d1. apply lookup_insert_eq.
Qed.

Lemma initPwm_idempotent t c p d :
  length (timers d) = 3%nat ->
  initPwm t c p (initPwm t c p d) = initPwm t c p d.
Proof.
  intros Hl. destruct (decide (0 <= t < 3)) as [Ht|Ht].
  - destruct (initPwm_enable t c p d Ht) as (d0 & -> & Hd0).
    rewrite initPwm_again by (done || apply timer_at_enable; congruence).
    apply enable_channel_twice; congruence.
  - by rewrite !initPwm_no_timer.
Qed.

Lemma initPwm_respond t c p bs d :
  initPwm t c p (respond bs d) = respond bs (initPwm t c p d).
Proof. unfold initPwm, timer_at. simpl. by repeat case_match. Qed.

(** A repeated request changes neither registers nor timers again. *)
Lemma exec_request_idempotent r d :
  length (timers d) = 3%nat ->
  timers (exec_request r (exec_request r d)) = timers (exec_request r d) /\
  regs (exec_request r (exec_request r d)) = regs (exec_request r d).
Proof.
  intros Hl. destruct r as [| | | | |t c p|t c du]; simpl; try done.
  - by rewrite initPwm_respond, initPwm_idempotent.
  - rewrite !pwmDuty_rset. destruct (duty_reg t c); [|done]. split; [done|].
    simpl. by rewrite insert_insert_eq.
Qed.

Lemma length_timers_exec r d :
  length (timers (exec_request r d)) = length (timers d).
Proof.
  destruct r as [| | | | |t c p|t c du]; simpl; try done.
  - unfold initPwm. repeat case_match; simpl; by rewrite ?length_insert.
  - rewrite pwmDuty_rset. by case_match.
Qed.

(** ** Theorems *)

(** C4. Refinement of the wire protocol.  Requests serialised back to back,
    cut into arbitrary chunks, and handed to successive calls of [loop] with
    less than 275 silent calls in a row between two octets, are executed one
    by one in order, whatever the cut, and leave the parser idle. *)
Theorem firmware_executes_requests (rs : list request) (chunks : list (list Z)) (s : state) :
  parser_idle (par s) -> serial_idle_count (par s) = 0 -> Forall wf_request rs ->
  concat chunks = concat (encode_request <$> rs) -> gaps_ok 0 chunks ->
  exists s', loops chunks s = Some s' /\
    dev s' = fold_left (fun d r => exec_request r d) rs (dev s) /\ parser_idle (par s').
Proof.
  intros Hp Hn Hr Hc Hg.
  pose proof (loops_chunks chunks s ltac:(lia) ltac:(by rewrite Hn)) as H1.
  destruct s as [d p]. cbn [par dev] in *.
  destruct (loop_requests rs p d Hp Hr) as (p' & Hp' & H2).
  rewrite Hc, H2 in H1. destruct (loops chunks (State d p)) as [s'|]; [|done].
  exists s'. split; [done|]. injection H1 as H1 H3 H4 H5 H6. split; [done|].
  destruct Hp' as (? & ? & ?). split_and!; congruence.
Qed.


(** C22. Resynchronisation.  Whatever partial message the parser holds, 275
    calls of [loop] that find no input drop it: the next request is executed. *)
Theorem firmware_resync (r : request) (s : state) :
  parser_wf (par s) -> wf_request r ->
  exists s', loops (replicate 275 [] ++ [encode_request r]) s = Some s' /\
    dev s' = exec_request r (dev s) /\ parser_idle (par s').
Proof.
  intros (Hl & _ & Hn & _) Hr.
  destruct (loops_silent 275 s) as (p & Hp & Hidle); [done|lia|lia|].
  assert (forall xs ys t, loops (xs ++ ys) t = (t' ← loops xs t; loops ys t')) as Happ.
  { intros xs. induction xs as [|x xs IH]; intros ys t; [done|]. simpl.
    destruct (loop x t); simpl; [apply IH|done]. }
  rewrite Happ, Hp. cbn [mbind option_bind loops]. unfold loop.
  destruct (loop_request r p (dev s) Hidle Hr) as (p' & Hp' & _ & ->).
  eexists. split; [done|]. split; [done|]. by apply loop_idle_idle.
Qed.

(** Defect: the textual duty command [G] cannot express a duty of 100 or
    more, although its parameter has three digits: every such command reaches
    a floating-point value that does not fit the [uint8_t] it is converted to. *)
Theorem text_duty_undefined (timer channel duty : Z) (p : parser) (d : device) :
  parser_idle p -> 0 <= timer < 10 -> 0 <= channel < 10 -> 100 <= duty < 1000 ->
  loop_bytes (text_request (ReqPwmDuty timer channel duty) ++ [SERIAL_TEXT_MSG_DELIMITER])
    (State d p) = None.
Proof.
  intros Hp Ht Hc Hd. unfold text_request. cbn [app].
  change (digit timer :: digit channel :: three_digits duty ++ [SERIAL_TEXT_MSG_DELIMITER])
    with ((digit timer :: digit channel :: three_digits duty) ++ [SERIAL_TEXT_MSG_DELIMITER]).
  rewrite loop_text_command; [| done | lia | | | simpl; lia].
  - pose proof (process_text_duty_undefined_stored timer channel duty
      [SERIAL_TEXT_MSG_DELIMITER; 0] (serial_data p) d Ht Hc Hd) as E.
    cbn [text_request app] in E |- *. by rewrite E.
  - unfold three_digits, two_digits, digit. repeat apply Forall_cons_2;
      try apply Forall_nil_2; unfold is_byte; Z.to_euclidean_division_equations; lia.
  - unfold three_digits, two_digits, digit, SERIAL_TEXT_MSG_DELIMITER.
    repeat apply Forall_cons_2; try apply Forall_nil_2;
      Z.to_euclidean_division_equations; lia.
Qed.

(** C32. The textual and the binary form of a request.  A request whose pin has
    two digits, sent as text between messages: unless it sets a duty of three
    digits, it drives the same pins, registers and timers as its binary form,
    and is answered by its echo; a duty of 100 or more, which the form can
    write, is undefined, for it reaches a value that does not fit its
    [uint8_t]. *)
Theorem text_binary_equivalent (r : request) (p : parser) (d : device) :
  parser_idle p -> two_digit_pin r -> wf_request r ->
  if two_digit_duty r then
    exists p' d', loop_bytes (text_request r ++ [SERIAL_TEXT_MSG_DELIMITER]) (State d p) =
        Some (State d' p') /\ parser_idle p' /\
      (exists p'' d'', loop_bytes (encode_request r) (State d p) = Some (State d'' p'') /\
         same_effect d' d'') /\
      tx d' = tx d ++ text_reply r d
  else loop_bytes (text_request r ++ [SERIAL_TEXT_MSG_DELIMITER]) (State d p) = None.
Proof.
  intros Hp Hpin Hr. destruct (two_digit_duty r) eqn:Hdu.
  2: { destruct r; try done. unfold wf_request, is_byte in Hr. simpl in Hdu. apply text_duty_undefined; (done || lia). }
  assert (text_expressible r) as Ht by (apply text_expressible_intro; done).
  destruct (text_request_shape r Ht) as (c & body & E & Hc & Hb & Hd & Hl).
  destruct (loop_request r p d Hp Hr) as (p'' & _ & _ & Hbin).
  rewrite E. simpl app. rewrite loop_text_command by done.
  rewrite app_comm_cons, <-E.
  destruct (process_text_request_stored r [SERIAL_TEXT_MSG_DELIMITER; 0]
    (serial_data p) d Ht) as (d' & -> & He & Htx).
  eexists _, d'. split; [reflexivity|]. split; [|by eauto].
  destruct Hp as (_ & _ & Hp). split_and!; [done|done|].
  cbn [serial_data]. rewrite length_overwrite; [done|].
  rewrite E, length_app. simpl in *. lia.
Qed.

(** After any sequence of requests every compare register holds the duty
    of the last [ReqPwmDuty] addressed to it: the outputs do not interfere,
    and no other request disturbs them. *)
Theorem duty_registers_hold_last_request (rs : list request) (d : device) (r : reg) :
  is_duty_reg r = true ->
  rget r (fold_left (fun d q => exec_request q d) rs d) = last_duty r rs (rget r d).
Proof. apply rget_exec_requests_duty. Qed.

(** Configuring both channels of a timer for the first time selects the
    8-bit fast PWM waveform, enables both compare outputs, whatever the order
    of the two requests, and leaves every other register alone.  The clock
    select bits are the requested ones on timers 0 and 2; on timer 1 the bit
    [WGM10], a bit of the other mode register, is or-ed into them. *)
Theorem initPwm_both_channels `{!AvrHeaderLaws} (t c p : Z) (d : device) :
  0 <= t < 3 -> 0 <= c < 2 -> length (timers d) = 3%nat ->
  configured (timer_at (Z.to_nat t) d) = false ->
  let d' := initPwm t (1 - c) p (initPwm t c p d) in
  rget (tccr_a t) d' = (if t =? 1 then 161 else 163) /\
  rget (tccr_b t) d' = (if t =? 1 then Z.lor 1 (Z.land p 7) else Z.land p 7) /\
  forall r, r <> tccr_a t -> r <> tccr_b t -> rget r d' = rget r d.
Proof.
  intros Ht Hc Hl Hn d'. subst d'. rewrite (initPwm_first t c p d) by done.
  rewrite initPwm_again by (done || by apply timer_at_enable).
  unfold enable_channel. rewrite !rget_set_timer.
  assert (tccr_b t <> tccr_a t) by (unfold tccr_a, tccr_b; by repeat case_match).
  destruct wgm_bits as (E1 & E2 & E3 & E4 & E5), com_bit_values as (E6 & E7 & E8 & E9).
  split_and!.
  - rewrite !rget_rset_eq, rget_rset_ne, rget_rset_eq by congruence.
    unfold wgm_value, com_bits, _BV. rewrite E1, E2, E3, E4, E5, E6, E7, E8, E9.
    assert (c = 0 \/ c = 1) as [-> | ->] by lia; timer_cases t; reflexivity.
  - rewrite (rget_rset_ne (tccr_b t) (tccr_a t)), rget_set_timer,
      (rget_rset_ne (tccr_b t) (tccr_a t)), rget_rset_eq by done.
    unfold clock_value, _BV. rewrite E3. by case_match.
  - intros r Ha Hb. by rewrite rget_set_timer, rget_rset_ne, rget_set_timer, !rget_rset_ne.
Qed.

(** Defect: changing the prescaler of timer 2 once it is configured leaves
    the clock of timer 2 as it was and reprograms that of timer 0. *)
Theorem timer2_prescale_change (c p : Z) (d : device) :
  configured (timer_at 2 d) = true -> prescale (timer_at 2 d) <> p ->
  rget TCCR2B (initPwm 2 c p d) = rget TCCR2B d /\
  rget TCCR0B (initPwm 2 c p d) = Z.land p 7.
Proof.
  intros Hc Hp. unfold initPwm.
  change (2 =? 0) with false; change (2 =? 1) with false; change (2 =? 2) with true.
  cbv beta iota zeta. rewrite Hc, (proj2 (Z.eqb_neq _ _) Hp). cbn [negb].
  rewrite !rget_set_timer. split.
  - by rewrite !rget_rset_ne.
  - by rewrite rget_rset_ne, rget_rset_eq.
Qed.
End Firmware.

(** ** Witnesses *)
Section FirmwareWitnesses.

Definition atmega328p : AvrHeader := {|
  WGM00 := 0; WGM01 := 1; WGM10 := 0; WGM20 := 0; WGM21 := 1;
  COM0A1 := 7; COM0B1 := 5; COM2A1 := 7; COM2B1 := 5 |}.
#[local] Existing Instance atmega328p.

Lemma atmega328p_laws : AvrHeaderLaws.
Proof. split; by repeat split. Qed.

(** A board whose digital pins read high and whose analog pins read their
    number. *)
Definition sample_core : ArduinoCore := {|
  digitalRead _ _ := 1; analogRead _ pin := 500 + pin |}.
#[local] Existing Instance sample_core.

Definition sample_state : state :=
  setup (State (Device [] ∅ (replicate 256 0) [] [])
               (Parser (replicate 256 0) 7 3 E_SERIAL_STATE_WAIT_BODY 9)).

Definition sample_requests : list request :=
  [ReqPinMode 3 1; ReqPwmInit 2 1 1; ReqPwmDuty 2 1 200; ReqAnalogRead 14].

Definition sample_chunks : list (list Z) :=
  [[1; 67; 5]; []; [13; 6; 5]; []; []; [200]; [4; 14]].

Lemma firmware_executes_requests_witness :
  exists s', loops sample_chunks sample_state = Some s' /\ tx (dev s') = [0; 0; 0; 2; 2].
Proof.
  destruct (firmware_executes_requests sample_requests sample_chunks sample_state)
    as (s' & Hs & Hd & _);
    [by repeat split|reflexivity| |reflexivity|by vm_compute|].
  - repeat constructor; by vm_compute.
  - exists s'. split; [exact Hs|]. rewrite Hd. reflexivity.
Defined.


Lemma firmware_resync_witness :
  exists s', loops (replicate 275 [] ++ [[6; 1; 9]])
    (State (dev sample_state) (Parser (replicate 256 0) 40 0 E_SERIAL_STATE_WAIT_TEXT_BODY 0))
    = Some s' /\ rget OCR0B (dev s') = 9.
Proof.
  destruct (firmware_resync (ReqPwmDuty 0 1 9)
    (State (dev sample_state) (Parser (replicate 256 0) 40 0 E_SERIAL_STATE_WAIT_TEXT_BODY 0)))
    as (s' & Hs & Hd & _); [by repeat split|by vm_compute|].
  exists s'. split; [exact Hs|]. rewrite Hd. reflexivity.
Defined.

Lemma text_binary_equivalent_witness :
  exists p' d', loop_bytes (str "B0301;") sample_state = Some (State d' p') /\
    tx d' = str "pinMode(3,1);" /\ trace d' = [EvPinMode 3 1].
Proof.
  destruct (text_binary_equivalent (ReqPinMode 3 1) (par sample_state) (dev sample_state))
    as (p' & d' & H & _ & (p'' & d'' & H' & (_ & _ & Ht)) & Htx);
    [by repeat split|by vm_compute|by vm_compute|].
  exists p', d'. split; [exact H|]. split; [exact Htx|]. rewrite Ht.
  assert (Some (State d'' p'') = loop_bytes [1; 67] sample_state) as H2 by (symmetry; exact H').
  vm_compute in H2. injection H2 as -> _. reflexivity.
Defined.

Lemma text_duty_undefined_witness :
  loop_bytes (str "G21127;") sample_state = None.
Proof.
  apply (text_duty_undefined 2 1 127 (par sample_state) (dev sample_state));
    [by repeat split|lia|lia|lia].
Defined.

Lemma duty_registers_hold_last_request_witness :
  rget OCR2B (fold_left (fun d q => exec_request q d) sample_requests (dev sample_state)) = 200.
Proof.
  rewrite (duty_registers_hold_last_request sample_requests (dev sample_state) OCR2B);
    reflexivity.
Defined.

Lemma initPwm_both_channels_witness :
  rget TCCR0A (initPwm 0 0 1 (initPwm 0 1 1 (dev sample_state))) = 163.
Proof.
  pose proof atmega328p_laws as Hlaws.
  destruct (initPwm_both_channels 0 1 1 (dev sample_state)) as [Hr _];
    [lia|lia|reflexivity|reflexivity|]. exact Hr.
Defined.

Lemma timer2_prescale_change_witness :
  let d := initPwm 2 0 3 (initPwm 2 1 1 (dev sample_state)) in
  rget TCCR2B d = 1 /\ rget TCCR0B d = 3.
Proof.
  destruct (timer2_prescale_change 0 3 (initPwm 2 1 1 (dev sample_state))) as [H1 H2];
    [reflexivity|by vm_compute|]. split; [exact H1|exact H2].
Defined.

End FirmwareWitnesses.
