(* ===== verification/Arduino.v ===== *)
(** * The serial client: [src/arduino.hpp] and [src/arduino.cpp]

    [ArduinoSlave] turns calls into requests on the serial line and retries
    them.  The port itself (wiringPi's [wiringSerial], the clock) is outside
    the repository: it is the class [SerialPort], a state machine the client
    drives; the theorems hold for every port.  The instance [logged_port]
    records what a client does to a port. *)
From S2P Require Import Prelude Messages.

Class SerialPort (P : Type) := {
  serialFlush : P -> P;
  serialPutchar : Z -> P -> P;
  serialDataAvail : P -> Z * P;
  serialGetchar : P -> Z * P;
  sleep_ms : Z -> P -> P }.

(** [ArduinoSlave]; [port] stands for [serial_fd]. *)
Record ArduinoSlave (P : Type) := Slave {
  port : P;
  max_retry : Z;
  transaction_sent : Z;
  transaction_received : Z }.
Arguments Slave {P}.
Arguments port {P}.
Arguments max_retry {P}.
Arguments transaction_sent {P}.
Arguments transaction_received {P}.

(** The state a constructor leaves that could open its device. *)
Definition new_slave {P} (p : P) : ArduinoSlave P := Slave p 5 0 0.

Section Client.
Context {P : Type} `{SerialPort P}.
Implicit Types (s : ArduinoSlave P).

Definition with_port (p : P) s : ArduinoSlave P :=
  Slave p (max_retry s) (transaction_sent s) (transaction_received s).

(** ** send *)
Fixpoint put_all (cdata : list Z) (p : P) : P :=
  match cdata with
  | [] => p
  | b :: cdata' => put_all cdata' (serialPutchar b p)
  end.

Definition send (cdata : list Z) s : ArduinoSlave P :=
  Slave (put_all cdata (serialFlush (port s)))
    (max_retry s) (u32 (transaction_sent s + 1)) (transaction_received s).

(** ** recv *)
(** [while(serialDataAvail(serial_fd) && size)]: the octets read, how many are
    still wanted. *)
Fixpoint recv_avail (size : nat) (p : P) : list Z * nat * P :=
  let '(a, p) := serialDataAvail p in
  match size with
  | O => ([], O, p)
  | S size' =>
      if a =? 0 then ([], size, p)
      else
        let '(c, p) := serialGetchar p in
        let '(bs, rest, p) := recv_avail size' p in
        (u8 c :: bs, rest, p)
  end.

(** [while (size)]: [None] when [fuel] runs out. *)
Fixpoint recv_loop (fuel : nat) (idle_counter : Z) (size : nat) (data : list Z) s :
    option (bool * list Z * ArduinoSlave P) :=
  match size with
  | O => Some (true, data, s)
  | _ =>
      match fuel with
      | O => None
      | S fuel' =>
          let '(bs, size, p) := recv_avail size (port s) in
          let data := data ++ bs in
          let s := with_port p s in
          match size with
          | O => Some (true, data,
                   Slave (port s) (max_retry s) (transaction_sent s)
                     (u32 (transaction_received s + 1)))
          | _ =>
              let s := with_port (sleep_ms 1 (port s)) s in
              if 50 <? idle_counter then Some (false, data, s)
              else recv_loop fuel' (u32 (idle_counter + 1)) size data s
          end
      end
  end.

(** The counter goes 0, 1, ..., 51: 52 passes, see [recv_spec]. *)
Definition recv (size : nat) s : option (bool * list Z * ArduinoSlave P) :=
  recv_loop 52 0 size [] s.
#[global] Strategy -10 [recv].
#[global] Strategy 100 [recv_loop].

(** ** The retry loop of [pinMode], [initPwm] and [pwmDuty]

    The response is received over the request: [recv] is given [&msg]. *)
Fixpoint ack_loop (n : nat) (msg : list Z) (rsp_size : nat) s : option (ArduinoSlave P) :=
  match n with
  | O => Some s
  | S n' =>
      let s := send msg s in
      '(ok, bs, s) ← recv rsp_size s;
      let msg := overwrite bs msg in
      if (ok : bool) then Some s else ack_loop n' msg rsp_size s
  end.

Definition pinMode (pin mode : Z) s : option (ArduinoSlave P) :=
  let mp := set_param pin 0 pinmode_MASK_PIN pinmode_SHIFT_PIN in
  let mp := set_param mode mp pinmode_MASK_MODE pinmode_SHIFT_MODE in
  let msg := MsgbPinmodeRequest E_TYPE_MSGB_PINMODE_REQUEST mp in
  ack_loop (Z.to_nat (max_retry s)) (to_bytes msg) (sizeof msgb_pinmode_response) s.

Definition initPwm (timer channel prescale : Z) s : option (ArduinoSlave P) :=
  let f := set_param timer 0 pwm_init_MASK_TIMER pwm_init_SHIFT_TIMER in
  let f := set_param channel f pwm_init_MASK_CHANNEL pwm_init_SHIFT_CHANNEL in
  let f := set_param prescale f pwm_init_MASK_PRESCALER pwm_init_SHIFT_PRESCALER in
  let msg := MsgbPwmInitRequest E_TYPE_MSGB_PWM_INIT_REQUEST f in
  ack_loop (Z.to_nat (max_retry s)) (to_bytes msg) (sizeof msgb_pwm_init_response) s.

Definition pwmDuty (timer channel duty : Z) s : option (ArduinoSlave P) :=
  let tc := set_param timer 0 pwm_duty_MASK_TIMER pwm_duty_SHIFT_TIMER in
  let tc := set_param channel tc pwm_duty_MASK_CHANNEL pwm_duty_SHIFT_CHANNEL in
  let msg := MsgbPwmDutyRequest E_TYPE_MSGB_PWM_DUTY_REQUEST tc duty in
  ack_loop (Z.to_nat (max_retry s)) (to_bytes msg) (sizeof msgb_pwm_duty_response) s.

(** ** analogRead *)
Fixpoint analog_loop (n : nat) (msg : list Z) s : option (Z * ArduinoSlave P) :=
  match n with
  | O => Some (u16 (-1), s)
  | S n' =>
      let s := send msg s in
      '(ok, bs, s) ← recv (sizeof msgb_analog_read_response) s;
      if (ok : bool) then
        rsp ← of_bytes (T := msgb_analog_read_response) bs;
        Some (analog_read_rval rsp, s)
      else analog_loop n' msg s
  end.

Definition analogRead (pin : Z) s : option (Z * ArduinoSlave P) :=
  let msg := MsgbAnalogReadRequest E_TYPE_MSGB_ANALOG_READ_REQUEST pin in
  analog_loop (Z.to_nat (max_retry s)) (to_bytes msg) s.

(** ** get_transaction_stats: received first, then sent *)
Definition get_transaction_stats s : (Z * Z) * ArduinoSlave P :=
  ((transaction_received s, transaction_sent s), Slave (port s) (max_retry s) 0 0).

(** ** Lemmas: recv *)
(** One pass of the outer loop. *)
Lemma recv_loop_S fuel idle size data s :
  recv_loop (S fuel) idle (S size) data s =
  let '(bs, rest, p) := recv_avail (S size) (port s) in
  match rest with
  | O => Some (true, data ++ bs,
           Slave p (max_retry s) (transaction_sent s) (u32 (transaction_received s + 1)))
  | S _ =>
      if 50 <? idle then Some (false, data ++ bs, with_port (sleep_ms 1 p) s)
      else recv_loop fuel (u32 (idle + 1)) rest (data ++ bs) (with_port (sleep_ms 1 p) s)
  end.
Proof.
  cbn [recv_loop]. destruct (recv_avail (S size) (port s)) as [[bs [|rest]] p]; done.
Qed.

Lemma recv_avail_length size p bs rest p' :
  recv_avail size p = (bs, rest, p') -> (length bs + rest = size)%nat.
Proof.
  revert p bs rest p'. induction size as [|size IH]; intros p bs rest p' E; simpl in E.
  - destruct (serialDataAvail p). by simplify_eq.
  - destruct (serialDataAvail p) as [a p1]. destruct (a =? 0); [by simplify_eq|].
    destruct (serialGetchar p1) as [c p2].
    destruct (recv_avail size p2) as [[bs' rest'] p3] eqn:E'. simplify_eq.
    apply IH in E'. simpl. lia.
Qed.

(** What a call of [recv] does to the client: its port moves, the counter of
    received transactions counts a success that needed octets. *)
Definition recv_post (size : nat) (n : nat) s (ok : bool) (bs : list Z) s' : Prop :=
  max_retry s' = max_retry s /\ transaction_sent s' = transaction_sent s /\
  (if ok then length bs = (n + size)%nat /\
     transaction_received s' =
       if decide (size = O) then transaction_received s else u32 (transaction_received s + 1)
   else (n <= length bs < n + size)%nat /\
     transaction_received s' = transaction_received s).

Lemma recv_loop_spec fuel : forall idle size data s,
  0 <= idle <= 51 -> 52 - idle <= Z.of_nat fuel ->
  exists ok bs s', recv_loop fuel idle size data s = Some (ok, bs, s') /\
    recv_post size (length data) s ok bs s'.
Proof.
  induction fuel as [|fuel IH]; intros idle size data s Hi Hf; [lia|].
  destruct size as [|size].
  { exists true, data, s. split; [done|]. split; [done|split; [done|]]. split; [lia|done]. }
  cbn [recv_loop]. destruct (recv_avail (S size) (port s)) as [[bs rest] p] eqn:E.
  pose proof (recv_avail_length _ _ _ _ _ E) as Hl.
  destruct rest as [|rest].
  { do 3 eexists. split; [reflexivity|]. split; [done|split; [done|]].
    rewrite length_app, decide_False by done. split; [lia|done]. }
  destruct (Z.ltb_spec 50 idle) as [H50|H50].
  { do 3 eexists. split; [reflexivity|]. split; [done|split; [done|]].
    rewrite length_app. split; [lia|done]. }
  rewrite u32_small by lia.
  destruct (IH (idle + 1) (S rest) (data ++ bs) (with_port (sleep_ms 1 p) (with_port p s)))
    as (ok & bs' & s' & Hr & Hm & Hs & Hpost); [lia|lia|].
  exists ok, bs', s'. split; [exact Hr|]. split; [done|]. split; [done|].
  rewrite length_app in Hpost. rewrite decide_False in Hpost by done.
  rewrite decide_False by done.
  destruct ok; destruct Hpost as [Hp1 Hp2]; (split; [lia|done]).
Qed.

Lemma recv_spec size s :
  exists ok bs s', recv size s = Some (ok, bs, s') /\ recv_post size 0 s ok bs s'.
Proof. apply (recv_loop_spec 52 0 size []); lia. Qed.

(** ** Lemmas: retries

    [transmissions msg size k ok s s']: the client sends [msg], unchanged, [k]
    times, every time but the last without a complete response of [size]
    octets, the last with one if [ok]. *)
Inductive transmissions (msg : list Z) (size : nat) :
    nat -> bool -> ArduinoSlave P -> ArduinoSlave P -> Prop :=
| transmissions_none s : transmissions msg size 0 false s s
| transmissions_ok s bs s' :
    recv size (send msg s) = Some (true, bs, s') ->
    transmissions msg size 1 true s s'
| transmissions_retry k ok s bs s1 s2 :
    recv size (send msg s) = Some (false, bs, s1) ->
    transmissions msg size k ok s1 s2 ->
    transmissions msg size (S k) ok s s2.

(** How the call ends: [n] failures, or a success within [n] tries. *)
Definition tries (n k : nat) (ok : bool) : Prop :=
  if ok then (1 <= k <= n)%nat else k = n.

Lemma ack_loop_spec n : forall msg s,
  exists k ok s', ack_loop n msg 1 s = Some s' /\
    transmissions msg 1 k ok s s' /\ tries n k ok.
Proof.
  induction n as [|n IH]; intros msg s.
  { exists O, false, s. split; [done|]. split; [constructor|done]. }
  cbn [ack_loop]. destruct (recv_spec 1 (send msg s)) as (ok & bs & s1 & E & _ & _ & Hp).
  rewrite E. cbn [mbind option_bind]. destruct ok.
  - exists 1%nat, true, s1. split; [done|]. split; [by econstructor|]. simpl. lia.
  - destruct bs as [|b bs]; [|simpl in Hp; lia]. rewrite overwrite_nil.
    destruct (IH msg s1) as (k & ok & s2 & -> & Ht & Hk).
    exists (S k), ok, s2. split; [done|]. split; [by econstructor|].
    unfold tries in *. destruct ok; lia.
Qed.

Lemma pinMode_ack_loop pin mode s :
  pinMode pin mode s =
  ack_loop (Z.to_nat (max_retry s)) (encode_request (ReqPinMode pin mode)) 1 s.
Proof. done. Qed.

Lemma initPwm_ack_loop t c p s :
  initPwm t c p s =
  ack_loop (Z.to_nat (max_retry s)) (encode_request (ReqPwmInit t c p)) 1 s.
Proof. done. Qed.

Lemma pwmDuty_ack_loop t c d s :
  pwmDuty t c d s =
  ack_loop (Z.to_nat (max_retry s)) (encode_request (ReqPwmDuty t c d)) 1 s.
Proof. done. Qed.

(** [analogRead] yields what the last response held, or [0xFFFF]. *)
Lemma analog_loop_spec n : forall msg s,
  exists v s', analog_loop n msg s = Some (v, s') /\
    exists k ok, transmissions msg 2 k ok s s' /\ tries n k ok /\
      (ok = false -> v = 65535).
Proof.
  induction n as [|n IH]; intros msg s.
  { exists 65535, s. split; [done|]. exists O, false. split; [constructor|done]. }
  cbn [analog_loop]. change (sizeof msgb_analog_read_response) with 2%nat.
  destruct (recv_spec 2 (send msg s)) as (ok & bs & s1 & E & _ & _ & Hp).
  rewrite E. cbn [mbind option_bind]. destruct ok.
  - destruct Hp as [Hl _]. destruct bs as [|lo [|hi [|? ?]]]; try (simpl in Hl; lia).
    cbn. do 2 eexists. split; [reflexivity|]. exists 1%nat, true.
    split; [by econstructor|]. split; [simpl; lia|done].
  - destruct (IH msg s1) as (v & s2 & -> & k & ok & Ht & Hk & Hv).
    exists v, s2. split; [done|]. exists (S k), ok. split; [by econstructor|].
    split; [|done]. unfold tries in *. destruct ok; lia.
Qed.

(** Counters along a sequence of transmissions. *)
Lemma transmissions_counters msg size k ok s s' :
  size <> O -> transmissions msg size k ok s s' ->
  max_retry s' = max_retry s /\
  u32 (transaction_sent s') = u32 (transaction_sent s + Z.of_nat k) /\
  u32 (transaction_received s') = u32 (transaction_received s + (if ok then 1 else 0)).
Proof.
  intros Hsz. assert (forall a b c, u32 a = u32 b -> u32 (a + c) = u32 (b + c)) as Hadd.
  { unfold u32, wrap. intros a b c E. by rewrite Z.add_mod, E, <-Z.add_mod by done. }
  assert (forall s1 bs ok1 s2, recv size (send msg s1) = Some (ok1, bs, s2) ->
    recv_post size 0 (send msg s1) ok1 bs s2) as Hrecv.
  { intros s1 bs ok1 s2 E. destruct (recv_spec size (send msg s1)) as (?&?&?&E'&?).
    by simplify_eq. }
  induction 1 as [s|s bs s' E|k ok s bs s1 s2 E _ IH].
  - by rewrite !Z.add_0_r.
  - destruct (Hrecv _ _ _ _ E) as (-> & -> & _ & ->). rewrite decide_False by done.
    split; [done|]. simpl. unfold u32. by rewrite !wrap_wrap by lia.
  - destruct (Hrecv _ _ _ _ E) as (Hm & Hs & _ & Hr).
    destruct IH as (IH1 & IH2 & IH3). simpl in Hm, Hs, Hr.
    split; [congruence|]. rewrite IH2, IH3, Hs, Hr. split; [|done].
    replace (transaction_sent s + Z.of_nat (S k))
      with (transaction_sent s + 1 + Z.of_nat k) by lia.
    apply Hadd, u32_u32.
Qed.
End Client.

(** ** A port that logs

    What the client does to any port [P], as the sequence of its calls. *)
Inductive io := IoFlush | IoPut (b : Z) | IoAvail | IoGet | IoSleep (ms : Z).

#[export] Instance io_eq_dec : EqDecision io.
Proof. solve_decision. Defined.

Record logged (P : Type) := Logged { base : P; io_log : list io }.
Arguments Logged {P}.
Arguments base {P}.
Arguments io_log {P}.

#[export] Instance logged_port {P} `{SerialPort P} : SerialPort (logged P) := {|
  serialFlush l := Logged (serialFlush (base l)) (io_log l ++ [IoFlush]);
  serialPutchar b l := Logged (serialPutchar b (base l)) (io_log l ++ [IoPut b]);
  serialDataAvail l :=
    let '(a, p) := serialDataAvail (base l) in (a, Logged p (io_log l ++ [IoAvail]));
  serialGetchar l :=
    let '(c, p) := serialGetchar (base l) in (c, Logged p (io_log l ++ [IoGet]));
  sleep_ms ms l := Logged (sleep_ms ms (base l)) (io_log l ++ [IoSleep ms]) |}.

(** What reaches the line, and the time spent sleeping. *)
Definition written (l : list io) : list Z :=
  l ≫= (fun e => match e with IoPut b => [b] | _ => [] end).
Definition slept (l : list io) : Z :=
  foldr (fun e n => match e with IoSleep ms => ms + n | _ => n end) 0 l.

Section Logged.
Context {P : Type} `{SerialPort P}.
Implicit Types (s : ArduinoSlave (logged P)).

Lemma written_app l1 l2 : written (l1 ++ l2) = written l1 ++ written l2.
Proof. apply bind_app. Qed.

Lemma slept_app l1 l2 : slept (l1 ++ l2) = slept l1 + slept l2.
Proof. induction l1 as [|[] l1 IH]; simpl; lia. Qed.

Lemma put_all_log cdata (l : logged P) :
  io_log (put_all cdata l) = io_log l ++ (IoPut <$> cdata).
Proof.
  revert l. induction cdata as [|b cdata IH]; intros l; simpl.
  - by rewrite app_nil_r.
  - rewrite IH. simpl. by rewrite <-app_assoc.
Qed.

Lemma written_puts cdata : written (IoPut <$> cdata) = cdata.
Proof. induction cdata as [|b cdata IH]; [done|]. simpl. f_equal. exact IH. Qed.

Lemma slept_puts cdata : slept (IoPut <$> cdata) = 0.
Proof. by induction cdata. Qed.

(** [log_grows l l' w t]: between [l] and [l'], [w] was written and [t]
    milliseconds were slept. *)
Definition log_grows (l l' : list io) (w : list Z) (t : Z) : Prop :=
  written l' = written l ++ w /\ slept l' = slept l + t.

Lemma log_grows_trans l1 l2 l3 w1 w2 t1 t2 :
  log_grows l1 l2 w1 t1 -> log_grows l2 l3 w2 t2 ->
  log_grows l1 l3 (w1 ++ w2) (t1 + t2).
Proof. intros [H1 H2] [H3 H4]. split; [by rewrite H3, H1, app_assoc|lia]. Qed.

Lemma log_grows_snoc l e w t :
  written [e] = w -> slept [e] = t -> log_grows l (l ++ [e]) w t.
Proof. intros <- <-. split; [apply written_app|apply slept_app]. Qed.

Lemma send_log msg s :
  log_grows (io_log (port s)) (io_log (port (send msg s))) msg 0.
Proof.
  unfold log_grows, send. cbn [port]. rewrite put_all_log. simpl.
  rewrite !written_app, !slept_app, written_puts, slept_puts. simpl.
  rewrite app_nil_r. split; [done|lia].
Qed.

Lemma recv_avail_log size (p : logged P) bs rest p' :
  recv_avail size p = (bs, rest, p') -> log_grows (io_log p) (io_log p') [] 0.
Proof.
  revert p bs rest p'. induction size as [|size IH]; intros p bs rest p' E; simpl in E.
  - destruct (serialDataAvail (base p)). simplify_eq/=. by apply log_grows_snoc.
  - destruct (serialDataAvail (base p)) as [a b1]. destruct (a =? 0).
    { simplify_eq/=. by apply log_grows_snoc. }
    simpl in E. destruct (serialGetchar b1) as [c b2].
    destruct (recv_avail size _) as [[bs' rest'] p3] eqn:E'. simplify_eq/=.
    apply IH in E'. simpl in E'. rewrite <-app_assoc in E'.
    eapply (log_grows_trans _ (io_log p ++ [IoAvail; IoGet]) _ [] [] 0 0); [|exact E'].
    split; [by rewrite written_app|by rewrite slept_app].
Qed.

Lemma recv_loop_log fuel : forall idle size data s ok bs s',
  0 <= idle <= 51 ->
  recv_loop fuel idle size data s = Some (ok, bs, s') ->
  exists t, log_grows (io_log (port s)) (io_log (port s')) [] t /\ 0 <= t <= 52 - idle.
Proof.
  induction fuel as [|fuel IH]; intros idle size data s ok bs s' Hi E.
  { destruct size; [|done]. simplify_eq/=. exists 0. split; [|lia].
    split; [by rewrite app_nil_r|lia]. }
  destruct size as [|size].
  { simplify_eq/=. exists 0. split; [|lia]. split; [by rewrite app_nil_r|lia]. }
  cbn [recv_loop] in E.
  destruct (recv_avail (S size) (port s)) as [[bs1 rest] p] eqn:Ea.
  apply recv_avail_log in Ea. destruct rest as [|rest].
  { simplify_eq/=. exists 0. split; [done|lia]. }
  assert (log_grows (io_log (port s)) (io_log p ++ [IoSleep 1]) [] 1) as H1.
  { apply (log_grows_trans _ _ _ [] [] 0 1 Ea). by apply log_grows_snoc. }
  destruct (Z.ltb_spec 50 idle).
  { simplify_eq/=. exists 1. split; [done|lia]. }
  rewrite u32_small in E by lia. apply IH in E as (t & Ht & Hb); [|lia].
  exists (1 + t). split; [|lia]. by apply (log_grows_trans _ _ _ [] [] 1 t H1).
Qed.

Lemma recv_log size s ok bs s' :
  recv size s = Some (ok, bs, s') ->
  exists t, log_grows (io_log (port s)) (io_log (port s')) [] t /\ 0 <= t <= 52.
Proof. unfold recv. intros E. eapply recv_loop_log in E; [exact E|lia]. Qed.

Lemma transmissions_log msg size k ok s s' :
  transmissions msg size k ok s s' ->
  exists t, log_grows (io_log (port s)) (io_log (port s'))
    (concat (replicate k msg)) t /\ 0 <= t <= 52 * Z.of_nat k.
Proof.
  induction 1 as [s|s bs s' E|k ok s bs s1 s2 E _ (t2 & IH & Hb)].
  - exists 0. split; [|lia]. split; [by rewrite app_nil_r|lia].
  - apply recv_log in E as (t & Ht & Hb).
    exists t. split; [|lia]. simpl. rewrite app_nil_r.
    rewrite <-(app_nil_r msg). exact (log_grows_trans _ _ _ msg [] 0 t (send_log msg s) Ht).
  - apply recv_log in E as (t & Ht & Hb').
    exists (t + t2). split; [|lia]. simpl.
    rewrite <-(app_nil_r msg) at 1. eapply log_grows_trans; [|exact IH].
    exact (log_grows_trans _ _ _ msg [] 0 t (send_log msg s) Ht).
Qed.
End Logged.

(** ** Calls of the client *)
Inductive call :=
| CallPinMode (pin mode : Z)
| CallInitPwm (timer channel prescale : Z)
| CallPwmDuty (timer channel duty : Z)
| CallAnalogRead (pin : Z)
| CallStats.

(** The request a call sends, and how many octets answer it. *)
Definition call_request (c : call) : option (request * nat) :=
  match c with
  | CallPinMode pin mode => Some (ReqPinMode pin mode, 1%nat)
  | CallInitPwm t c p => Some (ReqPwmInit t c p, 1%nat)
  | CallPwmDuty t c d => Some (ReqPwmDuty t c d, 1%nat)
  | CallAnalogRead pin => Some (ReqAnalogRead pin, 2%nat)
  | CallStats => None
  end.

Section Calls.
Context {P : Type} `{SerialPort P}.
Implicit Types (s : ArduinoSlave P).

Definition run_call (c : call) s : option (ArduinoSlave P) :=
  match c with
  | CallPinMode pin mode => pinMode pin mode s
  | CallInitPwm t c p => initPwm t c p s
  | CallPwmDuty t c d => pwmDuty t c d s
  | CallAnalogRead pin => snd <$> analogRead pin s
  | CallStats => Some (snd (get_transaction_stats s))
  end.

Fixpoint run_calls (cs : list call) s : option (ArduinoSlave P) :=
  match cs with
  | [] => Some s
  | c :: cs' => s' ← run_call c s; run_calls cs' s'
  end.

Lemma run_call_spec c s r n :
  call_request c = Some (r, n) ->
  exists k ok s', run_call c s = Some s' /\
    transmissions (encode_request r) n k ok s s' /\ tries (Z.to_nat (max_retry s)) k ok.
Proof.
  intros Hc. destruct c; simpl in Hc; simplify_eq; simpl.
  - rewrite pinMode_ack_loop. apply ack_loop_spec.
  - rewrite initPwm_ack_loop. apply ack_loop_spec.
  - rewrite pwmDuty_ack_loop. apply ack_loop_spec.
  - unfold analogRead.
    destruct (analog_loop_spec (Z.to_nat (max_retry s))
      (to_bytes (MsgbAnalogReadRequest E_TYPE_MSGB_ANALOG_READ_REQUEST pin)) s)
      as (v & s' & E & k & ok & Ht & Hk & _).
    exists k, ok, s'. rewrite E. done.
Qed.

(** What a call does to the counters: it sends at most five times and counts
    at most one response. *)
Lemma transmissions_bounds msg n k ok s s' :
  transmissions msg n k ok s s' ->
  0 <= transaction_received s < 2 ^ 32 -> 0 <= transaction_sent s < 2 ^ 32 ->
  0 <= transaction_received s' < 2 ^ 32 /\ 0 <= transaction_sent s' < 2 ^ 32.
Proof.
  induction 1 as [s|s bs s' E|k ok s bs s1 s2 E _ IH]; intros Hr Hs; [done| |];
    destruct (recv_spec n (send msg s)) as (?&?&?&E'&_&Hs1&Hp); simplify_eq;
    pose proof (u32_bound (transaction_sent s + 1));
    pose proof (u32_bound (transaction_received s + 1)).
  - simpl in Hs1. rewrite Hs1. destruct Hp as [_ ->]. case_decide; simpl; lia.
  - destruct Hp as [_ Hp]. simpl in Hs1, Hp. apply IH; lia.
Qed.

(** Every call leaves the client with its retries and its counters words. *)
Definition slave_wf s : Prop :=
  max_retry s = 5 /\ 0 <= transaction_received s < 2 ^ 32 /\ 0 <= transaction_sent s < 2 ^ 32.

Lemma run_call_wf c s s' : run_call c s = Some s' -> slave_wf s -> slave_wf s'.
Proof.
  intros E (Hm & Hr & Hs). destruct (call_request c) as [[r n]|] eqn:Hc.
  - destruct (run_call_spec c s r n Hc) as (k & ok & s1 & E1 & Ht & _).
    rewrite E in E1. injection E1 as <-.
    assert (n <> O) as Hn by (destruct c; by simplify_eq/=).
    destruct (transmissions_counters _ _ _ _ _ _ Hn Ht) as (Hm' & _).
    destruct (transmissions_bounds _ _ _ _ _ _ Ht Hr Hs). by split; [congruence|].
  - destruct c; try done. injection E as <-. by split.
Qed.

Lemma run_call_counters c s :
  max_retry s = 5 -> 0 <= transaction_received s <= transaction_sent s ->
  transaction_sent s + 5 < 2 ^ 32 ->
  exists s', run_call c s = Some s' /\ max_retry s' = 5 /\
    0 <= transaction_received s' <= transaction_sent s' /\
    transaction_sent s' <= transaction_sent s + 5 /\
    0 <= transaction_sent s' < 2 ^ 32.
Proof.
  intros Hm Hrs Hlt. destruct (call_request c) as [[r n]|] eqn:Hc.
  - assert (n <> O) as Hn by (destruct c; by simplify_eq/=).
    destruct (run_call_spec c s r n Hc) as (k & ok & s' & E & Ht & Hk).
    destruct (transmissions_bounds _ _ _ _ _ _ Ht) as [Hr' Hs']; [lia|lia|].
    destruct (transmissions_counters _ _ _ _ _ _ Hn Ht) as (Hm' & H1 & H2).
    exists s'. split; [done|]. split; [congruence|].
    unfold tries in Hk. rewrite Hm in Hk. change (Z.to_nat 5) with 5%nat in Hk.
    rewrite !u32_small in H1, H2 by (destruct ok; lia). destruct ok; lia.
  - destruct c; try done. eexists. split; [done|]. simpl. lia.
Qed.

(** A client never fails to return: every call ends, whatever the port
    does.  Over any sequence of calls the two counters it reports stay
    consistent, never more responses than transmissions and never more than
    five transmissions a call, as long as they cannot wrap. *)
Theorem client_counters (cs : list call) (p : P) :
  5 * Z.of_nat (length cs) < 2 ^ 32 ->
  exists s, run_calls cs (new_slave p) = Some s /\
    0 <= transaction_received s <= transaction_sent s /\
    transaction_sent s <= 5 * Z.of_nat (length cs).
Proof.
  intros Hlen.
  assert (forall cs s n, max_retry s = 5 -> 0 <= transaction_received s <= transaction_sent s ->
    transaction_sent s <= 5 * n -> 5 * (n + Z.of_nat (length cs)) < 2 ^ 32 ->
    exists s', run_calls cs s = Some s' /\
      0 <= transaction_received s' <= transaction_sent s' /\
      transaction_sent s' <= 5 * (n + Z.of_nat (length cs))) as Hgen.
  { clear. induction cs as [|c cs IH]; intros s n Hm Hrs Hn Hlt.
    - exists s. split; [done|]. simpl. lia.
    - simpl length in *. destruct (run_call_counters c s) as (s1 & E & Hm1 & Hr1 & Hs1 & _);
        [done|done|lia|].
      simpl. rewrite E. cbn [mbind option_bind].
      destruct (IH s1 (n + 1)) as (s2 & -> & Hr2 & Hs2); [done|done|lia|lia|].
      exists s2. split; [done|]. lia. }
  apply (Hgen cs (new_slave p) 0); simpl; lia.
Qed.
End Calls.

Section CallTheorems.
Context {P : Type} `{SerialPort P}.

(** Retransmission.  A call writes its request, octet for octet the same,
    between one and five times, and nothing else; it blocks for at most 52 ms
    per transmission; it stops at the first complete response. *)
Theorem client_retransmits (c : call) (r : request) (n : nat) (p : logged P) :
  call_request c = Some (r, n) ->
  exists (k : nat) (ok : bool) s', run_call c (new_slave p) = Some s' /\ (1 <= k <= 5)%nat /\
    written (io_log (port s')) =
      written (io_log p) ++ concat (replicate k (encode_request r)) /\
    slept (io_log (port s')) <= slept (io_log p) + 52 * Z.of_nat k /\
    transaction_sent s' = Z.of_nat k /\
    transaction_received s' = (if ok then 1 else 0) /\ ((k < 5)%nat -> ok = true).
Proof.
  intros Hc.
  destruct (run_call_spec c (new_slave p) r n Hc) as (k & ok & s' & E & Ht & Hk).
  destruct (run_call_counters c (new_slave p)) as (s1 & E1 & _ & Hr & _ & Hs);
    [done|simpl; lia|simpl; lia|].
  assert (s1 = s') as -> by congruence. exists k, ok, s'.
  destruct (transmissions_log _ _ _ _ _ _ Ht) as (t & [Hw Hsl] & Hb).
  assert (n <> O) as Hn by (destruct c; by simplify_eq/=).
  destruct (transmissions_counters _ _ _ _ _ _ Hn Ht) as (_ & H1 & H2).
  simpl in Hk, H1, H2, Hw, Hsl. rewrite u32_small in H1, H2 by lia.
  assert ((1 <= k <= 5)%nat) by (destruct ok; simpl in Hk; lia).
  rewrite u32_small in H1 by lia. rewrite u32_small in H2 by (destruct ok; lia).
  split_and!; try done; try lia. intros. by destruct ok; simpl in Hk; [|lia].
Qed.
End CallTheorems.
