(* ===== verification/Link.v ===== *)
(** * Client and firmware over a serial line

    [Arduino] proves what the client does on any port, [Firmware] what the
    slave does with the octets it reads.  This file closes the loop: [link] is
    a line with the firmware at its other end, a [SerialPort] of the client.
    The line may lose or delay what it carries, one [fate] for every
    millisecond the client sleeps. *)
From S2P Require Import Prelude Messages.
From S2P Require Firmware.
From S2P Require Import Arduino.

Inductive fate := Deliver | LoseRequest | LoseReply | Delay.

Record link := Link {
  slave_state : option Firmware.state;
  to_slave : list Z;
  to_master : list Z;
  fates : list fate }.

Section Link.
Context `{Firmware.AvrHeader} `{Firmware.ArduinoCore}.

(** The firmware runs [loop] on what arrived; its new output is on the line. *)
Definition slave_run (input : list Z) (st : option Firmware.state) :
    option Firmware.state * list Z :=
  match st with
  | None => (None, [])
  | Some s =>
      match Firmware.loop input s with
      | None => (None, [])
      | Some s' =>
          (Some s', drop (length (Firmware.tx (Firmware.dev s)))
                         (Firmware.tx (Firmware.dev s')))
      end
  end.

Definition link_sleep (l : link) : link :=
  let f := hd Deliver (fates l) in
  let fs := tail (fates l) in
  match f with
  | Deliver =>
      let '(st, out) := slave_run (to_slave l) (slave_state l) in
      Link st [] (to_master l ++ out) fs
  | LoseRequest =>
      let '(st, out) := slave_run [] (slave_state l) in Link st [] (to_master l ++ out) fs
  | LoseReply =>
      let '(st, out) := slave_run (to_slave l) (slave_state l) in
      Link st [] (to_master l) fs
  | Delay =>
      let '(st, out) := slave_run [] (slave_state l) in
      Link st (to_slave l) (to_master l ++ out) fs
  end.

#[export] Instance link_port : SerialPort link := {|
  serialFlush l := Link (slave_state l) (to_slave l) [] (fates l);
  serialPutchar b l := Link (slave_state l) (to_slave l ++ [b]) (to_master l) (fates l);
  serialDataAvail l := (Z.of_nat (length (to_master l)), l);
  serialGetchar l :=
    match to_master l with
    | [] => (-1, l)
    | c :: cs => (c, Link (slave_state l) (to_slave l) cs (fates l))
    end;
  sleep_ms _ l := link_sleep l |}.

(** A link between calls: nothing under way, the firmware between messages. *)
Definition link_ready (d : Firmware.device) (l : link) : Prop :=
  to_slave l = [] /\ exists p, Firmware.parser_idle p /\
    slave_state l = Some (Firmware.State d p).

(** During a call for [r]: [m] copies of the request are on the line, the
    firmware has executed [j], and octets to read witness an execution. *)
Definition under_way (r : request) (d : Firmware.device) (j : nat) (l : link) : Prop :=
  exists m p, Firmware.parser_idle p /\ 0 <= Firmware.serial_idle_count p <= 274 /\
    slave_state l = Some (Firmware.State (Nat.iter j (Firmware.exec_request r) d) p) /\
    to_slave l = concat (replicate m (encode_request r)) /\
    (to_master l <> [] -> (1 <= j)%nat).

Lemma fold_replicate_iter r m d :
  fold_left (fun d r => Firmware.exec_request r d) (replicate m r) d =
  Nat.iter m (Firmware.exec_request r) d.
Proof.
  revert d. induction m as [|m IH]; intros d; [done|]. simpl. rewrite IH.
  clear IH. induction m as [|m IH]; [done|]. simpl. by rewrite IH.
Qed.

Lemma tx_exec_request r d :
  exists bs, Firmware.tx (Firmware.exec_request r d) = Firmware.tx d ++ bs.
Proof.
  destruct r; simpl; rewrite ?Firmware.initPwm_tx, ?Firmware.pwmDuty_tx;
    eauto. exists []. by rewrite app_nil_r.
Qed.

Lemma loop_idle_parser p :
  Firmware.parser_idle p -> 0 <= Firmware.serial_idle_count p <= 274 ->
  Firmware.parser_idle (Firmware.loop_idle p) /\
  0 <= Firmware.serial_idle_count (Firmware.loop_idle p) <= 274.
Proof.
  intros Hp Hn. split; [by apply Firmware.loop_idle_idle|].
  unfold Firmware.loop_idle. rewrite u32_small by lia.
  destruct (Z.ltb_spec 274 (Firmware.serial_idle_count p + 1)); simpl; lia.
Qed.

Lemma loop_bytes_idle_bound input s s' :
  0 <= Firmware.serial_idle_count (Firmware.par s) <= 274 ->
  Firmware.loop_bytes input s = Some s' ->
  0 <= Firmware.serial_idle_count (Firmware.par s') <= 274.
Proof.
  destruct input as [|b input]; intros Hn E.
  - by simplify_eq/=.
  - apply Firmware.loop_bytes_idle in E; [lia|done].
Qed.

(** The firmware on [m] copies of a request. *)
Lemma slave_run_requests r m d p :
  wf_request r -> Firmware.parser_idle p -> 0 <= Firmware.serial_idle_count p <= 274 ->
  exists p' out, slave_run (concat (replicate m (encode_request r)))
      (Some (Firmware.State d p)) =
    (Some (Firmware.State (Nat.iter m (Firmware.exec_request r) d) p'), out) /\
    Firmware.parser_idle p' /\ 0 <= Firmware.serial_idle_count p' <= 274 /\
    Firmware.tx (Nat.iter m (Firmware.exec_request r) d) = Firmware.tx d ++ out.
Proof.
  intros Hr Hp Hn.
  destruct (Firmware.loop_requests (replicate m r) p d Hp) as (p1 & Hp1 & E).
  { apply Forall_replicate. done. }
  rewrite fmap_replicate, fold_replicate_iter in E.
  pose proof (loop_bytes_idle_bound _ (Firmware.State d p) _ Hn E) as Hn1. cbn [Firmware.par] in Hn1.
  destruct (loop_idle_parser p1 Hp1 Hn1) as [Hp2 Hn2].
  assert (exists out, Firmware.tx (Nat.iter m (Firmware.exec_request r) d) =
    Firmware.tx d ++ out) as [out Hout].
  { clear. induction m as [|m [out IH]]; simpl; [exists []; by rewrite app_nil_r|].
    destruct (tx_exec_request r (Nat.iter m (Firmware.exec_request r) d)) as [bs ->].
    rewrite IH. exists (out ++ bs). by rewrite app_assoc. }
  exists (Firmware.loop_idle p1), out. splits; try done; try lia.
  unfold slave_run, Firmware.loop. rewrite E. cbn [mbind option_bind Firmware.dev Firmware.par].
  by rewrite Hout, drop_app_length.
Qed.

Lemma slave_run_silent d p :
  Firmware.parser_idle p -> 0 <= Firmware.serial_idle_count p <= 274 ->
  exists p', slave_run [] (Some (Firmware.State d p)) = (Some (Firmware.State d p'), []) /\
    Firmware.parser_idle p' /\ 0 <= Firmware.serial_idle_count p' <= 274.
Proof.
  intros Hp Hn. exists (Firmware.loop_idle p).
  destruct (loop_idle_parser p Hp Hn) as [Hp2 Hn2].
  split; [|done]. unfold slave_run, Firmware.loop.
  cbn [mbind option_bind Firmware.loop_bytes Firmware.dev Firmware.par].
  by rewrite drop_all.
Qed.

Lemma iter_add {A} (f : A -> A) a b x : Nat.iter a f (Nat.iter b f x) = Nat.iter (a + b) f x.
Proof. induction a as [|a IH]; simpl; [done|]. by rewrite IH. Qed.

(** ** A millisecond of the line *)
Lemma sleep_under_way r d j l :
  wf_request r -> under_way r d j l ->
  exists j', (j <= j')%nat /\ under_way r d j' (link_sleep l).
Proof.
  intros Hr (m & p & Hp & Hn & Hs & Hto & Hm). unfold link_sleep. rewrite Hs, Hto.
  set (dj := Nat.iter j (Firmware.exec_request r) d).
  destruct (slave_run_requests r m dj p Hr Hp Hn) as (p1 & out & E1 & Hp1 & Hn1 & Hout).
  destruct (slave_run_silent dj p Hp Hn) as (p2 & E2 & Hp2 & Hn2).
  subst dj. rewrite iter_add in E1, Hout. rewrite Nat.add_comm in E1, Hout.
  destruct (hd Deliver (fates l)).
  - rewrite E1. exists (j + m)%nat. split; [lia|]. exists O, p1. splits; try done; try lia.
    cbn [to_master]. intros Hne. destruct (to_master l); [|specialize (Hm ltac:(done)); lia].
    destruct m as [|m]; [|lia]. rewrite Nat.add_0_r in Hout.
    apply (f_equal length) in Hout. rewrite length_app in Hout.
    destruct out; [done|simpl in Hout; lia].
  - rewrite E2, app_nil_r. exists j. split; [done|]. by exists O, p2.
  - rewrite E1. exists (j + m)%nat. split; [lia|]. exists O, p1. splits; try done; try lia.
    cbn [to_master]. intros Hne. specialize (Hm Hne). lia.
  - rewrite E2, app_nil_r. exists j. split; [done|]. by exists m, p2.
Qed.

(** ** The client's operations on the link *)
Lemma recv_avail_under_way r d j size (l : link) bs rest l' :
  recv_avail size l = (bs, rest, l') -> under_way r d j l ->
  under_way r d j l' /\ (bs <> [] -> (1 <= j)%nat).
Proof.
  revert l bs rest l'. induction size as [|size IH]; intros l bs rest l' E Hu; simpl in E.
  { by simplify_eq. }
  destruct (to_master l) as [|c cs] eqn:Em; simpl in E; [by simplify_eq|].
  replace (Z.pos (Pos.of_succ_nat (length cs)) =? 0) with false in E by done.
  destruct (recv_avail size _) as [[bs' rest'] l1] eqn:E'. simplify_eq.
  destruct Hu as (m & p & Hp & Hn & Hs & Hto & Hm). rewrite Em in Hm.
  assert (1 <= j)%nat as Hj by (by apply Hm).
  split; [|done]. eapply (IH _ _ _ _ E'). exists m, p. splits; (done || lia).
Qed.

Implicit Types (s : ArduinoSlave link).

Lemma recv_under_way r d fuel : forall idle size data s j ok bs s',
  wf_request r -> under_way r d j (port s) -> (data <> [] -> (1 <= j)%nat) ->
  recv_loop fuel idle size data s = Some (ok, bs, s') ->
  exists j', (j <= j')%nat /\ under_way r d j' (port s') /\ (bs <> [] -> (1 <= j')%nat).
Proof.
  induction fuel as [|fuel IH]; intros idle size data s j ok bs s' Hr Hu Hd E.
  { destruct size; [|done]. simplify_eq/=. eauto. }
  destruct size as [|size]; [simplify_eq/=; eauto|].
  cbn [recv_loop] in E.
  destruct (recv_avail (S size) (port s)) as [[bs1 rest] l1] eqn:Ea.
  destruct (recv_avail_under_way r d j _ _ _ _ _ Ea Hu) as [Hu1 Hb1].
  assert (data ++ bs1 <> [] -> (1 <= j)%nat) as Hd1.
  { intros Hne. destruct data as [|x data]; [by apply Hb1|by apply Hd]. }
  destruct rest as [|rest]; [simplify_eq/=; eauto|].
  destruct (sleep_under_way r d j l1 Hr Hu1) as (j1 & Hj1 & Hu2).
  destruct (50 <? idle).
  - simplify_eq/=. exists j1. splits; try done; try lia. intros Hne. specialize (Hd1 Hne). lia.
  - eapply IH in E as (j2 & Hj2 & Hu3 & Hb3); [|done|exact Hu2|].
    + exists j2. splits; try done; try lia.
    + intros Hne. specialize (Hd1 Hne). lia.
Qed.

Lemma put_all_link cdata (l : link) :
  put_all cdata l = Link (slave_state l) (to_slave l ++ cdata) (to_master l) (fates l).
Proof.
  revert l. induction cdata as [|b cdata IH]; intros l; simpl.
  - rewrite app_nil_r. by destruct l.
  - rewrite IH. simpl. by rewrite <-app_assoc.
Qed.

Lemma send_under_way r d j s :
  under_way r d j (port s) -> under_way r d j (port (send (encode_request r) s)).
Proof.
  intros (m & p & Hp & Hn & Hs & Hto & Hm). unfold send. cbn [port].
  rewrite put_all_link. simpl. exists (S m), p. splits; try done; try lia.
  cbn [to_slave]. rewrite Hto, replicate_S_end, concat_app. simpl. by rewrite app_nil_r.
Qed.

Lemma transmissions_under_way r d n k ok s s' :
  wf_request r -> n <> O -> transmissions (encode_request r) n k ok s s' ->
  forall j, under_way r d j (port s) ->
  exists j', (j <= j')%nat /\ under_way r d j' (port s') /\ (ok = true -> (1 <= j')%nat).
Proof.
  intros Hr Hn. induction 1 as [s|s bs s' E|k ok s bs s1 s2 E _ IH]; intros j Hu.
  - by exists j.
  - pose proof (send_under_way r d j s Hu) as Hu1.
    destruct (recv_spec n (send (encode_request r) s)) as (ok' & bs' & s1 & E' & _ & _ & Hp).
    rewrite E in E'. injection E' as <- <- <-. destruct Hp as [Hl _]. unfold recv in E.
    eapply recv_under_way in E as (j' & Hj & Hu' & Hb); [|done|exact Hu1|done].
    exists j'. splits; try done; try lia. intros _. apply Hb. by destruct bs.
  - pose proof (send_under_way r d j s Hu) as Hu1. unfold recv in E.
    eapply recv_under_way in E as (j1 & Hj1 & Hu' & _); [|done|exact Hu1|done].
    destruct (IH j1 Hu') as (j' & Hj' & Hu2 & Hok). exists j'. splits; try done; try lia.
Qed.

(** ** A line without faults *)
(** What the firmware answers to the requests a client sends. *)
Definition response (r : request) (d : Firmware.device) : list Z :=
  match r with
  | ReqAnalogRead pin =>
      to_bytes (MsgbAnalogReadResponse
        (u16 (Firmware.analogRead (Firmware.trace d) pin)))
  | ReqDigitalRead pin => [u8 (Firmware.digitalRead (Firmware.trace d) pin)]
  | ReqLogInfo => []
  | _ => [0]
  end.

Lemma tx_response r d :
  Firmware.tx (Firmware.exec_request r d) = Firmware.tx d ++ response r d.
Proof.
  destruct r; simpl; rewrite ?Firmware.initPwm_tx, ?Firmware.pwmDuty_tx, ?app_nil_r; done.
Qed.

Lemma response_octets r d : Forall is_byte (response r d).
Proof. destruct r; octets. Qed.

Lemma length_response c r n d :
  call_request c = Some (r, n) -> length (response r d) = n.
Proof. intros Hc. destruct c; by simplify_eq/=. Qed.

Lemma recv_avail_none size (l : link) :
  to_master l = [] -> recv_avail size l = ([], size, l).
Proof. intros E. destruct size; cbn [recv_avail serialDataAvail link_port]; [done|]. by rewrite E. Qed.

Lemma recv_avail_all (bs : list Z) : forall l : link,
  Forall is_byte bs -> to_master l = bs ->
  recv_avail (length bs) l =
    (bs, O, Link (slave_state l) (to_slave l) [] (fates l)).
Proof.
  induction bs as [|b bs IH]; intros l Hf E.
  { destruct l. simpl in *. by subst. }
  apply Forall_cons in Hf as [Hb Hf]. cbn [recv_avail length serialDataAvail link_port].
  rewrite E. replace (Z.of_nat (length (b :: bs)) =? 0) with false by (simpl; lia).
  cbn [serialGetchar link_port]. rewrite E.
  rewrite (IH (Link (slave_state l) (to_slave l) bs (fates l)) Hf eq_refl).
  by rewrite u8_small.
Qed.

Lemma perfect_attempt c r n d s :
  call_request c = Some (r, n) -> wf_request r ->
  link_ready d (port s) -> fates (port s) = [] ->
  exists s', recv n (send (encode_request r) s) = Some (true, response r d, s') /\
    link_ready (Firmware.exec_request r d) (port s') /\ fates (port s') = [].
Proof.
  intros Hc Hr (Hto & p & Hp & Hs) Hf.
  pose proof (length_response c r n d Hc) as Hlen.
  unfold recv. set (s0 := send (encode_request r) s).
  assert (port s0 = Link (Some (Firmware.State d p)) (encode_request r) [] []) as Hp0.
  { subst s0. unfold send. cbn [port]. rewrite put_all_link. simpl. by rewrite Hs, Hto, Hf. }
  destruct (Firmware.loop_request r p d Hp Hr) as (p1 & Hp1 & _ & E).
  set (l1 := Link (Some (Firmware.State (Firmware.exec_request r d) (Firmware.loop_idle p1)))
               [] (response r d) []).
  assert (link_sleep (port s0) = l1) as Hp1'.
  { rewrite Hp0. unfold link_sleep, slave_run, Firmware.loop. simpl hd. simpl tail.
    cbn [to_slave slave_state to_master]. rewrite E.
    cbn [mbind option_bind Firmware.dev Firmware.par].
    by rewrite tx_response, drop_app_length. }
  destruct n as [|n]; [by destruct c; simplify_eq/=|].
  rewrite recv_loop_S, recv_avail_none by by rewrite Hp0.
  change (sleep_ms 1 (port s0)) with (link_sleep (port s0)). rewrite Hp1'.
  change (50 <? 0) with false. cbn [app].
  rewrite recv_loop_S. cbn [port with_port].
  rewrite <-Hlen, (recv_avail_all (response r d) l1) by (done || apply response_octets).
  cbn [app]. eexists. split; [reflexivity|]. cbn [port]. split; [|done].
  split; [done|]. exists (Firmware.loop_idle p1). split; [|done].
  by apply Firmware.loop_idle_idle.
Qed.

(** A call on a line without faults succeeds at its first attempt. *)
Definition line_drives (d : Firmware.device) (s : ArduinoSlave link) : Prop :=
  link_ready d (port s) /\ fates (port s) = [] /\ max_retry s = 5.

Lemma recv_max_retry n msg s ok bs s' :
  recv n (send msg s) = Some (ok, bs, s') -> max_retry s' = max_retry s.
Proof. intros E. destruct (recv_spec n (send msg s)) as (? & ? & ? & E' & Hm & _). by simplify_eq. Qed.

Lemma perfect_ack c r n d s :
  call_request c = Some (r, n) -> wf_request r -> line_drives d s ->
  exists s', ack_loop (Z.to_nat (max_retry s)) (encode_request r) n s = Some s' /\
    recv n (send (encode_request r) s) = Some (true, response r d, s') /\
    line_drives (Firmware.exec_request r d) s'.
Proof.
  intros Hc Hr (Hl & Hf & Hm).
  destruct (perfect_attempt c r n d s Hc Hr Hl Hf) as (s' & E & Hl' & Hf').
  exists s'. rewrite Hm. change (Z.to_nat 5) with 5%nat. cbn [ack_loop]. rewrite E.
  split; [done|]. split; [done|]. split; [done|]. split; [done|].
  by rewrite (recv_max_retry _ _ _ _ _ _ E).
Qed.

Lemma perfect_analogRead pin d s :
  is_byte pin -> line_drives d s ->
  exists s', analogRead pin s = Some (u16 (Firmware.analogRead (Firmware.trace d) pin), s') /\
    line_drives (Firmware.exec_request (ReqAnalogRead pin) d) s'.
Proof.
  intros Hp Hd. pose proof Hd as (_ & _ & Hm).
  destruct (perfect_ack (CallAnalogRead pin) _ _ d s eq_refl Hp Hd) as (s' & _ & E & Hd').
  exists s'. split; [|done]. unfold analogRead. rewrite Hm. change (Z.to_nat 5) with 5%nat.
  cbn [analog_loop]. change (sizeof msgb_analog_read_response) with 2%nat.
  change (to_bytes _) with (encode_request (ReqAnalogRead pin)). rewrite E.
  cbn [mbind option_bind response].
  pose proof (of_to_bytes (MsgbAnalogReadResponse
    (u16 (Firmware.analogRead (Firmware.trace d) pin))) [] (u16_bound _)) as Hrt.
  rewrite app_nil_r in Hrt. by rewrite Hrt.
Qed.

Lemma perfect_call c r n d s :
  call_request c = Some (r, n) -> wf_request r -> line_drives d s ->
  exists s', run_call c s = Some s' /\ line_drives (Firmware.exec_request r d) s'.
Proof.
  intros Hc Hr Hd. destruct (perfect_ack c r n d s Hc Hr Hd) as (s' & E & _ & Hd').
  destruct c as [pin mode|t ch p|t ch du|pin|]; simpl in Hc; simplify_eq; simpl run_call.
  - rewrite pinMode_ack_loop, E. eauto.
  - rewrite initPwm_ack_loop, E. eauto.
  - rewrite pwmDuty_ack_loop, E. eauto.
  - destruct (perfect_analogRead pin d s Hr Hd) as (s2 & -> & Hd2). eauto.
Qed.

Lemma link_ready_under_way r d (l : link) :
  link_ready d l -> to_master l = [] ->
  (forall p, slave_state l = Some (Firmware.State d p) ->
     0 <= Firmware.serial_idle_count p <= 274) ->
  under_way r d O l.
Proof.
  intros (Hto & p & Hp & Hs) Hm Hn. exists O, p. specialize (Hn p Hs).
  splits; try done; try lia.
Qed.

Lemma iter_exec_idempotent r d j :
  length (Firmware.timers d) = 3%nat ->
  Firmware.timers (Nat.iter (S j) (Firmware.exec_request r) d) =
    Firmware.timers (Firmware.exec_request r d) /\
  Firmware.regs (Nat.iter (S j) (Firmware.exec_request r) d) =
    Firmware.regs (Firmware.exec_request r d).
Proof.
  intros Hl. assert (forall j, length (Firmware.timers
    (Nat.iter j (Firmware.exec_request r) d)) = 3%nat) as Hlen.
  { induction j0 as [|j0 IH]; simpl; [done|]. by rewrite Firmware.length_timers_exec. }
  induction j as [|j [IH1 IH2]]; [done|].
  destruct (Firmware.exec_request_idempotent r (Nat.iter j (Firmware.exec_request r) d)
    (Hlen j)) as [H1 H2].
  change (Nat.iter (S (S j)) ?f ?x) with (f (f (Nat.iter j f x))).
  by rewrite H1, H2.
Qed.

(** ** Theorems *)

(** C19. End to end, without faults: a call makes the firmware execute the
    request exactly once, succeeds at the first transmission, and leaves the
    line ready for the next call.  [analogRead] returns what the converter
    read. *)
Theorem link_exactly_once (c : call) (r : request) (n : nat)
    (d : Firmware.device) (l : link) :
  call_request c = Some (r, n) -> wf_request r -> link_ready d l -> fates l = [] ->
  exists s, run_call c (new_slave l) = Some s /\
    link_ready (Firmware.exec_request r d) (port s) /\ fates (port s) = [] /\
    match c with
    | CallAnalogRead pin =>
        fst <$> analogRead pin (new_slave l) =
          Some (u16 (Firmware.analogRead (Firmware.trace d) pin))
    | _ => True
    end.
Proof.
  intros Hc Hr Hl Hf.
  assert (line_drives d (new_slave l)) as Hd by done.
  destruct (perfect_call c r n d _ Hc Hr Hd) as (s & E & Hl' & Hf' & _).
  exists s. splits; try done. destruct c; try done. simpl in Hc. simplify_eq.
  by destruct (perfect_analogRead pin d _ Hr Hd) as (s2 & -> & _).
Qed.

(** C5. At-least-once delivery with an exactly-once effect.  On a line that
    loses requests, loses responses or delays either, a call still ends; the
    firmware has executed the request some number [j] of times, at least once
    if the client counts a response, and its registers and timers are those of
    a single execution, or untouched if [j] is 0. *)
Theorem link_effect_once (c : call) (r : request) (n : nat)
    (d : Firmware.device) (l : link) :
  call_request c = Some (r, n) -> wf_request r -> link_ready d l -> to_master l = [] ->
  (forall p, slave_state l = Some (Firmware.State d p) ->
     0 <= Firmware.serial_idle_count p <= 274) ->
  length (Firmware.timers d) = 3%nat ->
  exists s (j : nat) d' p', run_call c (new_slave l) = Some s /\
    slave_state (port s) = Some (Firmware.State d' p') /\ Firmware.parser_idle p' /\
    d' = Nat.iter j (Firmware.exec_request r) d /\
    (transaction_received s = 1 -> (1 <= j)%nat) /\
    Firmware.timers d' =
      Firmware.timers (if decide (j = O) then d else Firmware.exec_request r d) /\
    Firmware.regs d' =
      Firmware.regs (if decide (j = O) then d else Firmware.exec_request r d).
Proof.
  intros Hc Hr Hl Hm Hn Ht.
  assert (n <> O) as Hn0 by (destruct c; by simplify_eq/=).
  destruct (run_call_spec c (new_slave l) r n Hc) as (k & ok & s & E & Htr & _).
  pose proof (link_ready_under_way r d l Hl Hm Hn) as Hu.
  destruct (transmissions_under_way r d n k ok _ _ Hr Hn0 Htr O Hu)
    as (j & _ & (m & p & Hp & _ & Hs & _) & Hok).
  destruct (transmissions_counters _ _ _ _ _ _ Hn0 Htr) as (_ & _ & Hrec).
  exists s, j, (Nat.iter j (Firmware.exec_request r) d), p.
  splits; try done.
  - intros H1. apply Hok. destruct ok; [done|]. rewrite H1 in Hrec. discriminate.
  - destruct j as [|j]; [done|]. rewrite decide_False by done.
    by apply iter_exec_idempotent.
  - destruct j as [|j]; [done|]. rewrite decide_False by done.
    by apply iter_exec_idempotent.
Qed.

(** ** What the client promises to its users

    The rest of the program talks to the motors through an [ArduinoSlave]
    only.  [drives d s] says that the device behind [s] is in state [d]; the
    laws are all a user needs, whatever the port. *)
Class SlaveDriver (P : Type) `{SerialPort P} := {
  drives : Firmware.device -> ArduinoSlave P -> Prop;
  drives_call : forall c r n d (s : ArduinoSlave P),
    call_request c = Some (r, n) -> wf_request r -> drives d s ->
    exists s' : ArduinoSlave P, run_call c s = Some s' /\ drives (Firmware.exec_request r d) s';
  drives_analogRead : forall pin d (s : ArduinoSlave P),
    is_byte pin -> drives d s ->
    exists s' : ArduinoSlave P, analogRead pin s = Some (u16 (Firmware.analogRead (Firmware.trace d) pin), s') /\
      drives (Firmware.exec_request (ReqAnalogRead pin) d) s';
  drives_stats : forall d (s : ArduinoSlave P), drives d s -> drives d (snd (get_transaction_stats s)) }.

(** A line without faults keeps the promise. *)
#[export] Instance line_driver : SlaveDriver link := {|
  drives := line_drives;
  drives_call := perfect_call;
  drives_analogRead := perfect_analogRead;
  drives_stats := fun d s H => H |}.
End Link.

(** ** Witnesses *)
Section LinkWitnesses.
#[local] Existing Instance Firmware.atmega328p.
#[local] Existing Instance Firmware.sample_core.

Definition sample_link (fs : list fate) : link :=
  Link (Some Firmware.sample_state) [] [] fs.

Lemma sample_link_ready fs : link_ready (Firmware.dev Firmware.sample_state) (sample_link fs).
Proof. split; [done|]. exists (Firmware.par Firmware.sample_state). by repeat split. Qed.

Lemma link_exactly_once_witness :
  fst <$> analogRead 14 (new_slave (sample_link [])) = Some 514.
Proof.
  destruct (link_exactly_once (CallAnalogRead 14) (ReqAnalogRead 14) 2
    (Firmware.dev Firmware.sample_state) (sample_link []))
    as (s & _ & _ & _ & Hv);
    [reflexivity|by vm_compute|apply sample_link_ready|reflexivity|].
  rewrite Hv. reflexivity.
Defined.

(** The first request is lost, then the response, then a request is delayed. *)
Lemma link_effect_once_witness :
  exists s (j : nat) d' p',
    run_call (CallPwmDuty 2 1 77)
      (new_slave (sample_link (replicate 52 LoseRequest ++ replicate 52 LoseReply ++ [Delay])))
      = Some s /\
    slave_state (port s) = Some (Firmware.State d' p') /\
    (transaction_received s = 1 -> Firmware.rget Firmware.OCR2B d' = 77).
Proof.
  destruct (link_effect_once (CallPwmDuty 2 1 77) (ReqPwmDuty 2 1 77) 1
    (Firmware.dev Firmware.sample_state)
    (sample_link (replicate 52 LoseRequest ++ replicate 52 LoseReply ++ [Delay])))
    as (s & j & d' & p' & E & Hs & _ & _ & Hj & _ & Hregs);
    [reflexivity|by vm_compute|apply sample_link_ready|reflexivity| |reflexivity|].
  - intros p Hp. cbn [sample_link slave_state] in Hp. injection Hp as <-.
    vm_compute. split; discriminate.
  - exists s, j, d', p'. split; [exact E|]. split; [exact Hs|].
    intros H1. specialize (Hj H1). unfold Firmware.rget. rewrite Hregs.
    rewrite decide_False by lia. reflexivity.
Defined.

Lemma client_retransmits_witness :
  exists (k : nat) s, run_call (CallPinMode 3 1)
      (new_slave (Logged (sample_link [LoseRequest; LoseRequest]) [])) = Some s /\
    (1 <= k <= 5)%nat /\
    written (io_log (port s)) = concat (replicate k [1; 67]).
Proof.
  destruct (client_retransmits (CallPinMode 3 1) (ReqPinMode 3 1) 1
    (Logged (sample_link [LoseRequest; LoseRequest]) []))
    as (k & ok & s & E & Hk & Hw & _); [reflexivity|].
  exists k, s. split; [exact E|]. split; [exact Hk|exact Hw].
Defined.

Lemma client_counters_witness :
  exists s, run_calls [CallPinMode 3 1; CallAnalogRead 14; CallPwmDuty 0 0 5]
      (new_slave (sample_link [LoseReply])) = Some s /\
    0 <= transaction_received s <= transaction_sent s /\ transaction_sent s <= 5 * 3.
Proof.
  apply (client_counters [CallPinMode 3 1; CallAnalogRead 14; CallPwmDuty 0 0 5]
    (sample_link [LoseReply])). reflexivity.
Defined.

End LinkWitnesses.
