(* ===== verification/Double.v ===== *)
(** * Floating point

    The C++ [double] and [float] are the IEEE 754 formats binary64 and
    binary32: the executable operations of the Standard Library's [SpecFloat],
    at their two precisions, rounding to nearest even, with the conversions
    the programs use.  A conversion to an integer type that cannot hold the
    truncated value is undefined in C++ and is [None] here. *)
From S2P Require Import Prelude.
From Stdlib Require Export SpecFloat.

Definition double : Type := spec_float.
Definition dadd (x y : double) : double := SFadd 53 1024 x y.
Definition dsub (x y : double) : double := SFsub 53 1024 x y.
Definition dmul (x y : double) : double := SFmul 53 1024 x y.
Definition ddiv (x y : double) : double := SFdiv 53 1024 x y.
Definition dabs (x : double) : double := SFabs x.
Definition dlt (x y : double) : bool := SFltb x y.

(** Conversion of an integer, and of the decimal literal [m / 10 ^ k]: both
    operands are exact, so the quotient is the nearest [double]. *)
Definition d_of_Z (z : Z) : double := binary_normalize 53 1024 z 0 false.
Definition d_lit (m k : Z) : double := ddiv (d_of_Z m) (d_of_Z (10 ^ k)).

(** [float], stored as the [double] of the same value. *)
Definition renormalize (prec emax : Z) (x : spec_float) : spec_float :=
  match x with
  | S754_finite s m e =>
      binary_normalize prec emax (if s then Z.neg m else Z.pos m) e s
  | _ => x
  end.
Definition to_float (x : double) : spec_float := renormalize 24 128 x.
Definition of_float (x : spec_float) : double := renormalize 53 1024 x.
Definition fsub (x y : spec_float) : spec_float := SFsub 24 128 x y.
Definition f_of_Z (z : Z) : spec_float := binary_normalize 24 128 z 0 false.

(** Truncation towards zero. *)
Definition d_trunc (x : double) : option Z :=
  match x with
  | S754_zero _ => Some 0
  | S754_finite s m e =>
      let mag := if 0 <=? e then Z.pos m * 2 ^ e else Z.pos m / 2 ^ (- e) in
      Some (if s then - mag else mag)
  | _ => None
  end.

Definition in_range (lo hi : Z) (z : Z) : option Z :=
  if (lo <=? z) && (z <=? hi) then Some z else None.

Definition d_to_u32 (x : double) : option Z := d_trunc x ≫= in_range 0 4294967295.
Definition d_to_i32 (x : double) : option Z :=
  d_trunc x ≫= in_range (-2147483648) 2147483647.

(** [std::round] of a [float]: to the nearest integer, halves away from zero. *)
Definition f_round (x : spec_float) : spec_float :=
  match x with
  | S754_finite s m e =>
      if 0 <=? e then x
      else
        let d := 2 ^ (- e) in
        let mag := (2 * Z.pos m + d) / (2 * d) in
        if mag =? 0 then S754_zero s else f_of_Z (if s then - mag else mag)
  | _ => x
  end.

#[export] Instance spec_float_eq_dec : EqDecision spec_float.
Proof. solve_decision. Defined.
#[export] Instance double_eq_dec : EqDecision double := spec_float_eq_dec.

Lemma in_range_Some lo hi z : lo <= z <= hi -> in_range lo hi z = Some z.
Proof.
  intros. unfold in_range. replace (lo <=? z) with true by lia.
  by replace (z <=? hi) with true by lia.
Qed.

Lemma in_range_inv lo hi z v : in_range lo hi z = Some v -> v = z /\ lo <= z <= hi.
Proof.
  unfold in_range. destruct (Z.leb_spec lo z), (Z.leb_spec z hi); simpl; intros; simplify_eq.
  split; [done|lia].
Qed.

Lemma d_to_u32_bound x v : d_to_u32 x = Some v -> 0 <= v < 4294967296.
Proof. unfold d_to_u32. intros (z & _ & [-> ?]%in_range_inv)%bind_Some. lia. Qed.
