(* ===== verification/Filter.v ===== *)
(** * The averaging filter: [src/filter.hpp] and [src/filter.cpp]

    [dsp::averaging_filter] keeps the last [size_] samples in a ring and
    returns their mean; the means are kept in a ring of the same size that
    [last] looks back into.  An access outside a vector is [None]. *)
From S2P Require Import Prelude Double.

Record averaging_filter := AveragingFilter {
  samples : list double;
  output : list double;
  samples_idx : Z;
  size_ : Z }.

(** The constructor. *)
Definition new_filter (size : Z) : averaging_filter := AveragingFilter [] [] 0 size.

(** [std::accumulate(samples.begin(), samples.end(), double(0))] *)
Definition accumulate (xs : list double) : double := fold_left dadd xs (d_of_Z 0).

Definition mean (xs : list double) : double :=
  ddiv (accumulate xs) (d_of_Z (Z.of_nat (length xs))).

(** [v[i] = x] *)
Definition vec_set (i : Z) (x : double) (v : list double) : option (list double) :=
  if decide (Z.to_nat i < length v)%nat then Some (<[Z.to_nat i := x]> v) else None.

(** [operator()] *)
Definition filter_call (x : double) (f : averaging_filter) :
    option (double * averaging_filter) :=
  let f :=
    match samples f with
    | [] => AveragingFilter (replicate (Z.to_nat (size_ f)) x)
              (replicate (Z.to_nat (size_ f)) x) (samples_idx f) (size_ f)
    | _ => f
    end in
  samples' ← vec_set (samples_idx f) x (samples f);
  output' ← vec_set (samples_idx f) (mean samples') (output f);
  sample0 ← output' !! Z.to_nat (samples_idx f);
  Some (sample0, AveragingFilter samples' output'
    (u32 (u32 (samples_idx f + 1) mod Z.of_nat (length samples'))) (size_ f)).

(** [last]: the sum is an [int]; the remainder is taken of its conversion to
    [uint32_t], so the test [idx < 0] that follows never holds. *)
Definition int_checked (z : Z) : option Z := in_range (-2147483648) 2147483647 z.

Definition last (rel_idx : Z) (f : averaging_filter) : option double :=
  i ← int_checked (i32 (samples_idx f) - 1);
  i ← int_checked (i + rel_idx);
  if size_ f =? 0 then None
  else
    let idx := u32 i mod size_ f in
    let idx := if idx <? 0 then u32 (idx + size_ f) else idx in
    output f !! Z.to_nat idx.

Definition is_initialized (f : averaging_filter) : bool :=
  negb (length (samples f) =? 0)%nat.

Definition filter_size (f : averaging_filter) : Z := size_ f.

Definition reset (size : Z) (f : averaging_filter) : averaging_filter :=
  AveragingFilter [] [] (samples_idx f) size.

(** Successive calls: the outputs, newest last. *)
Fixpoint filter_calls (xs : list double) (f : averaging_filter) :
    option (list double * averaging_filter) :=
  match xs with
  | [] => Some ([], f)
  | x :: xs' =>
      '(y, f) ← filter_call x f;
      '(ys, f) ← filter_calls xs' f;
      Some (y :: ys, f)
  end.

(** ** Specification

    A sliding window of the last [n] values of a history that starts as if
    its first sample had always been there, oldest first. *)
Definition window {A} (n : nat) (x0 : A) (xs : list A) : list A :=
  drop (length xs) (replicate n x0 ++ xs).

(** A ring holds a window if it is a rotation of it: the [r] newest values
    are at the front, and [r] is where the next one goes. *)
Definition ring {A} (w : list A) (r : nat) (cells : list A) : Prop :=
  exists old new, w = old ++ new /\ cells = new ++ old /\ length new = r /\ old <> [].

Definition filter_rep (n : nat) (x0 : double) (xs ys : list double)
    (f : averaging_filter) : Prop :=
  size_ f = Z.of_nat n /\ samples_idx f = Z.of_nat (length xs mod n) /\
  ring (window n x0 xs) (Z.to_nat (samples_idx f)) (samples f) /\
  ring (window n x0 ys) (Z.to_nat (samples_idx f)) (output f).

(** ** Rings *)
Lemma length_window {A} n x0 (xs : list A) : length (window n x0 xs) = n.
Proof. unfold window. rewrite length_drop, length_app, length_replicate. lia. Qed.

Lemma drop_S_tail {A} k (l : list A) : drop (S k) l = tail (drop k l).
Proof. revert l. induction k as [|k IH]; intros [|x l]; try done. apply IH. Qed.

Lemma window_snoc {A} n x0 (xs : list A) x :
  (0 < n)%nat -> window n x0 (xs ++ [x]) = tail (window n x0 xs) ++ [x].
Proof.
  intros Hn. unfold window. rewrite length_app, app_assoc, Nat.add_comm. simpl length.
  rewrite drop_app_le by (rewrite length_app, length_replicate; simpl; lia).
  f_equal. apply drop_S_tail.
Qed.

Lemma ring_length {A} (w : list A) r cells : ring w r cells -> length cells = length w.
Proof. intros (old & new & -> & -> & _). rewrite !length_app. lia. Qed.

Lemma ring_perm {A} (w : list A) r cells : ring w r cells -> cells ≡ₚ w.
Proof. intros (old & new & -> & -> & _). apply Permutation_app_comm. Qed.

Lemma ring_push {A} (w : list A) r cells x :
  ring w r cells ->
  (r < length cells)%nat /\
  ring (tail w ++ [x]) ((r + 1) mod length cells) (<[r := x]> cells).
Proof.
  intros (old & new & -> & -> & Hr & Hne).
  destruct old as [|o old]; [done|]. clear Hne.
  rewrite length_app. simpl length. split; [lia|].
  replace r with (length new + 0)%nat by lia. rewrite insert_app_r. simpl.
  destruct old as [|o' old].
  - exists (new ++ [x]), []. rewrite app_nil_r. split_and!; try done.
    + simpl. symmetry. rewrite Nat.add_0_r. apply Nat.Div0.mod_same.
    + by destruct new.
  - exists (o' :: old), (new ++ [x]). split_and!; [by rewrite <-app_assoc| |  |done].
    + by rewrite <-app_assoc.
    + rewrite length_app. simpl length. rewrite Nat.mod_small by lia. lia.
Qed.

Lemma ring_lookup {A} (w : list A) r cells k :
  ring w r cells -> (k < length w)%nat ->
  cells !! ((r + k) mod length w)%nat = w !! k.
Proof.
  intros (old & new & -> & -> & Hr & Hne) Hk. rewrite length_app in *.
  destruct (decide (k < length old)%nat) as [H|H].
  - rewrite Nat.mod_small by lia. rewrite lookup_app_r by lia.
    rewrite lookup_app_l by done. f_equal. lia.
  - replace (r + k)%nat with ((k - length old) + 1 * (length old + length new))%nat by lia.
    rewrite Nat.Div0.mod_add, Nat.mod_small by lia.
    rewrite lookup_app_l by lia. by rewrite lookup_app_r by lia.
Qed.

(** ** Calls *)
Lemma vec_set_ok i x v :
  (Z.to_nat i < length v)%nat -> vec_set i x v = Some (<[Z.to_nat i := x]> v).
Proof. intros. unfold vec_set. by rewrite decide_True. Qed.

Lemma filter_call_rep n x0 xs ys f x :
  Z.of_nat n < 2 ^ 32 -> samples f <> [] -> filter_rep n x0 xs ys f ->
  exists y f', filter_call x f = Some (y, f') /\
    filter_rep n x0 (xs ++ [x]) (ys ++ [y]) f' /\ samples f' <> [] /\
    y = mean (samples f').
Proof.
  intros Hn Hne (Hsz & Hidx & Hs & Ho).
  pose proof (ring_length _ _ _ Hs) as Hls. pose proof (ring_length _ _ _ Ho) as Hlo.
  rewrite length_window in Hls, Hlo.
  destruct (ring_push _ _ _ x Hs) as [Hlt Hs']. rewrite Hls in Hlt.
  assert (0 <= samples_idx f < Z.of_nat n) as Hbnd by lia.
  unfold filter_call.
  destruct (samples f) as [|s0 ss] eqn:Es; [done|]. rewrite <-Es in *. clear s0 ss Es.
  rewrite vec_set_ok by lia. cbn [mbind option_bind].
  set (samples' := <[Z.to_nat (samples_idx f) := x]> (samples f)) in *.
  assert (length samples' = n) as Hls' by (subst samples'; by rewrite length_insert).
  rewrite vec_set_ok by lia. cbn [mbind option_bind].
  rewrite list_lookup_insert_eq by lia. cbn [mbind option_bind].
  destruct (ring_push _ _ _ (mean samples') Ho) as [_ Ho'].
  eexists _, _. split; [reflexivity|].
  assert (Z.to_nat (u32 (u32 (samples_idx f + 1) mod Z.of_nat (length samples'))) =
          (Z.to_nat (samples_idx f) + 1) mod n)%nat as Hr.
  { rewrite Hls', (u32_small (samples_idx f + 1)) by lia.
    rewrite u32_small by (pose proof (Z.mod_pos_bound (samples_idx f + 1) (Z.of_nat n)); lia).
    rewrite Z2Nat.inj_mod by lia. rewrite Nat2Z.id, Z2Nat.inj_add by lia. done. }
  rewrite Hls in Hs'. rewrite Hlo in Ho'.
  unfold filter_rep. splits; cbn [size_ samples_idx samples output]; try done.
  - rewrite <-(Z2Nat.id (u32 _)) by apply u32_bound. rewrite Hr, Hidx, Nat2Z.id.
    by rewrite length_app, Nat.Div0.add_mod_idemp_l.
  - by rewrite Hr, window_snoc by lia.
  - by rewrite Hr, window_snoc by lia.
  - intros E. apply (f_equal length) in E. simpl in E. lia.
Qed.

(** The first call fills both rings. *)
Lemma filter_first n x :
  (0 < n)%nat -> Z.of_nat n < 2 ^ 32 ->
  exists y f', filter_call x (new_filter (Z.of_nat n)) = Some (y, f') /\
    filter_rep n x [x] [y] f' /\ samples f' <> [] /\ y = mean (samples f').
Proof.
  intros Hn Hlt.
  set (f1 := AveragingFilter (replicate n x) (replicate n x) 0 (Z.of_nat n)).
  assert (filter_call x (new_filter (Z.of_nat n)) = filter_call x f1) as ->.
  { unfold filter_call, new_filter, f1. cbn [samples size_ samples_idx output].
    rewrite Nat2Z.id. destruct n; [lia|done]. }
  assert (filter_rep n x [] [] f1) as Hrep.
  { assert (ring (window n x ([] : list double)) 0 (replicate n x)) as Hring.
    { exists (replicate n x), []. unfold window. rewrite !app_nil_r. simpl.
      split_and!; try done. by destruct n; [lia|]. }
    split; [done|]. split; [simpl; by rewrite Nat.Div0.mod_0_l|]. by split. }
  apply (filter_call_rep n x [] [] f1 x Hlt); [|done].
  unfold f1. simpl. destruct n; [lia|done].
Qed.

Lemma filter_calls_rep n x0 xs : forall xs0 ys0 f,
  Z.of_nat n < 2 ^ 32 -> samples f <> [] -> filter_rep n x0 xs0 ys0 f ->
  exists ys f', filter_calls xs f = Some (ys, f') /\
    filter_rep n x0 (xs0 ++ xs) (ys0 ++ ys) f' /\ samples f' <> [] /\
    length ys = length xs.
Proof.
  induction xs as [|x xs IH]; intros xs0 ys0 f Hn Hne Hrep.
  { exists [], f. by rewrite !app_nil_r. }
  destruct (filter_call_rep n x0 xs0 ys0 f x Hn Hne Hrep) as (y & f1 & E & Hrep1 & Hne1 & _).
  destruct (IH _ _ f1 Hn Hne1 Hrep1) as (ys & f2 & E2 & Hrep2 & Hne2 & Hl).
  exists (y :: ys), f2. simpl. rewrite E. cbn [mbind option_bind]. rewrite E2.
  rewrite <-!app_assoc in Hrep2. split_and!; try done. simpl. by rewrite Hl.
Qed.

Lemma filter_history n x xs :
  (0 < n)%nat -> Z.of_nat n < 2 ^ 32 ->
  exists ys f, filter_calls (x :: xs) (new_filter (Z.of_nat n)) = Some (ys, f) /\
    filter_rep n x (x :: xs) ys f /\ samples f <> [] /\ length ys = S (length xs).
Proof.
  intros Hn Hlt. destruct (filter_first n x Hn Hlt) as (y & f1 & E & Hrep & Hne & _).
  destruct (filter_calls_rep n x xs _ _ f1 Hlt Hne Hrep) as (ys & f & E2 & Hrep2 & Hne2 & Hl).
  exists (y :: ys), f. simpl. rewrite E. cbn [mbind option_bind]. rewrite E2.
  split_and!; try done. simpl. by rewrite Hl.
Qed.

(** ** [last] *)
(** Which cell [last] reads: the remainder of an unsigned difference. *)
Lemma last_cell rel f n :
  size_ f = Z.of_nat n -> (0 < n)%nat -> Z.of_nat n < 2 ^ 31 ->
  0 <= samples_idx f < Z.of_nat n -> - Z.of_nat n < rel <= 0 ->
  last rel f =
  output f !! Z.to_nat
    ((samples_idx f - 1 + rel + (if samples_idx f - 1 + rel <? 0 then 2 ^ 32 else 0))
       mod Z.of_nat n).
Proof.
  intros Hsz Hn Hlt Hi Hrel. unfold last, int_checked.
  rewrite (i32_small (samples_idx f)) by lia.
  rewrite in_range_Some by lia. cbn [mbind option_bind].
  rewrite in_range_Some by lia. cbn [mbind option_bind]. rewrite Hsz.
  replace (Z.of_nat n =? 0) with false by lia.
  set (z := samples_idx f - 1 + rel).
  assert (u32 z = z + (if z <? 0 then 2 ^ 32 else 0)) as ->.
  { destruct (Z.ltb_spec z 0).
    - unfold u32, wrap. rewrite <-(Z_mod_plus_full z 1), Z.mod_small; lia.
    - rewrite u32_small by lia. lia. }
  pose proof (Z.mod_pos_bound (z + (if z <? 0 then 2 ^ 32 else 0)) (Z.of_nat n) ltac:(lia)).
  by match goal with |- context [?e <? 0] => replace (e <? 0) with false by lia end.
Qed.

(** ** The invariant of a filter of [n] samples, first sample or not *)
Definition filter_wf (n : nat) (f : averaging_filter) : Prop :=
  size_ f = Z.of_nat n /\ 0 <= samples_idx f < Z.of_nat n /\
  length (output f) = length (samples f) /\ (samples f = [] \/ length (samples f) = n).

Lemma new_filter_wf n : (0 < n)%nat -> filter_wf n (new_filter (Z.of_nat n)).
Proof. intros. unfold filter_wf. simpl. splits; [done|lia|lia|done|by left]. Qed.

Lemma filter_call_wf n x f :
  Z.of_nat n < 2 ^ 32 -> filter_wf n f ->
  exists y f', filter_call x f = Some (y, f') /\ filter_wf n f' /\ samples f' <> [].
Proof.
  intros Hn (Hsz & Hi & Hlo & Hls). unfold filter_call.
  set (f1 := match samples f with [] => _ | _ => f end).
  assert (size_ f1 = Z.of_nat n /\ samples_idx f1 = samples_idx f /\
          length (samples f1) = n /\ length (output f1) = n) as (H1 & H2 & H3 & H4).
  { subst f1. destruct Hls as [E|Hls].
    - rewrite E. simpl. rewrite !length_replicate, Hsz, Nat2Z.id. done.
    - destruct (samples f) as [|x0 l] eqn:E; [simpl in *; lia|]. rewrite E. splits; congruence. }
  rewrite H2, vec_set_ok by lia. cbn [mbind option_bind].
  rewrite vec_set_ok by lia. cbn [mbind option_bind].
  rewrite list_lookup_insert_eq by lia. cbn [mbind option_bind].
  eexists _, _. split; [reflexivity|]. unfold filter_wf.
  cbn [size_ samples_idx samples output]. rewrite !length_insert, H3, H4.
  pose proof (Z.mod_pos_bound (u32 (samples_idx f + 1)) (Z.of_nat n) ltac:(lia)).
  rewrite (u32_small (_ mod _)) by lia. splits; try done; try lia.
  intros E. apply (f_equal length) in E. rewrite length_insert in E. simpl in E. lia.
Qed.

Lemma last_wf n rel f :
  Z.of_nat n < 2 ^ 31 -> filter_wf n f -> samples f <> [] -> - Z.of_nat n < rel <= 0 ->
  is_Some (last rel f).
Proof.
  intros Hn (Hsz & Hi & Hlo & Hls) Hne Hrel. rewrite (last_cell rel f n) by (done || lia).
  apply lookup_lt_is_Some_2. rewrite Hlo. destruct Hls as [|Hls]; [done|]. rewrite Hls.
  match goal with |- context [?z mod ?m] => pose proof (Z.mod_pos_bound z m ltac:(lia)) end. lia.
Qed.

(** A window of outputs, counted back from the newest. *)
Lemma window_lookup_back {A} n (x0 : A) ys b :
  (b < n)%nat -> (b < length ys)%nat ->
  window n x0 ys !! (n - 1 - b)%nat = ys !! (length ys - 1 - b)%nat.
Proof.
  intros Hb Hl. unfold window. rewrite lookup_drop, lookup_app_r, length_replicate
    by (rewrite length_replicate; lia).
  f_equal. lia.
Qed.

Lemma filter_rep_index n x0 xs ys f :
  (0 < n)%nat -> filter_rep n x0 xs ys f ->
  size_ f = Z.of_nat n /\ samples_idx f = Z.of_nat (length xs mod n) /\
  0 <= samples_idx f < Z.of_nat n.
Proof.
  intros Hn (Hsz & Hidx & _). split; [done|]. split; [done|]. rewrite Hidx.
  pose proof (Nat.mod_upper_bound (length xs) n ltac:(lia)). lia.
Qed.

(** The cell at distance [b] behind the write index. *)
Lemma output_lookup_back n x0 xs ys f b (i : Z) :
  filter_rep n x0 xs ys f -> (b < n)%nat -> (b < length ys)%nat ->
  i mod Z.of_nat n = (samples_idx f - 1 - Z.of_nat b) mod Z.of_nat n ->
  output f !! Z.to_nat (i mod Z.of_nat n) = ys !! (length ys - 1 - b)%nat.
Proof.
  intros (Hsz & Hidx & _ & Ho) Hb Hl Hi. rewrite <-(window_lookup_back n x0) by done.
  rewrite <-(ring_lookup _ _ _ (n - 1 - b) Ho) by (rewrite length_window; lia).
  rewrite length_window. f_equal. rewrite Hi.
  rewrite <-(Z_mod_plus_full _ 1).
  replace (samples_idx f - 1 - Z.of_nat b + 1 * Z.of_nat n)
    with (Z.of_nat (Z.to_nat (samples_idx f) + (n - 1 - b))) by lia.
  by rewrite <-Nat2Z.inj_mod, Nat2Z.id.
Qed.

(** ** Theorems *)

(** C36. Functional correctness of the filter.  A filter of positive size never
    accesses its vectors out of range; whatever it was fed before, a call
    leaves in [samples] exactly the last [size_] inputs (the first one counted
    as often as needed before it was [size_] calls old) and returns their
    mean. *)
Theorem filter_averages_window (n : nat) (x : double) (xs : list double) (z : double) :
  (0 < n)%nat -> Z.of_nat n < 2 ^ 32 ->
  exists ys f f', filter_calls (x :: xs) (new_filter (Z.of_nat n)) = Some (ys, f) /\
    filter_call z f = Some (mean (samples f'), f') /\
    samples f' ≡ₚ window n x ((x :: xs) ++ [z]).
Proof.
  intros Hn Hlt. destruct (filter_history n x xs Hn Hlt) as (ys & f & E & Hrep & Hne & _).
  destruct (filter_call_rep n x _ _ f z Hlt Hne Hrep)
    as (y & f' & Ec & (_ & _ & Hs & _) & _ & ->).
  exists ys, f, f'. split; [done|]. split; [done|]. by eapply ring_perm.
Qed.

(** [last(-b)] is the result of [b] calls ago, as long as the write index,
    the number of calls modulo the size, is above [b], or the size divides
    [2 ^ 32]. *)
Theorem filter_last_looks_back (n b : nat) (x : double) (xs : list double) :
  (0 < n)%nat -> Z.of_nat n < 2 ^ 31 -> (b < n)%nat -> (b <= length xs)%nat ->
  (b < S (length xs) mod n)%nat \/ 2 ^ 32 mod Z.of_nat n = 0 ->
  exists ys f, filter_calls (x :: xs) (new_filter (Z.of_nat n)) = Some (ys, f) /\
    length ys = S (length xs) /\ last (- Z.of_nat b) f = ys !! (length xs - b)%nat.
Proof.
  intros Hn Hlt Hb Hl Hw.
  destruct (filter_history n x xs Hn ltac:(lia)) as (ys & f & E & Hrep & _ & Hlen).
  exists ys, f. split; [done|]. split; [done|].
  destruct (filter_rep_index _ _ _ _ _ Hn Hrep) as (Hsz & Hidx & Hbnd).
  rewrite (last_cell _ f n) by (done || lia).
  replace (length xs - b)%nat with (length ys - 1 - b)%nat by lia.
  eapply output_lookup_back; [done|done|lia|].
  destruct (Z.ltb_spec (samples_idx f - 1 + - Z.of_nat b) 0).
  - destruct Hw as [Hw|Hw]; [simpl length in Hidx; apply inj_lt in Hw; rewrite <-Hidx in Hw; lia|].
    rewrite Z.add_mod, Hw, Z.add_0_r, Z.mod_mod by lia. done.
  - f_equal. lia.
Qed.

(** Defect: with 250 samples, the size the battery slope uses, [last(-60)]
    is the result of 14 calls ago, not of 60, whenever the number of calls is
    at most 60 modulo 250: the unsigned remainder of a negative difference is
    off by [2 ^ 32 mod 250 = 46]. *)
Theorem filter_last_wraps_wrong (x : double) (xs : list double) :
  (60 <= length xs)%nat -> (S (length xs) mod 250 <= 60)%nat ->
  exists ys f, filter_calls (x :: xs) (new_filter 250) = Some (ys, f) /\
    length ys = S (length xs) /\ last (-60) f = ys !! (length xs - 14)%nat.
Proof.
  intros Hl Hi.
  destruct (filter_history 250 x xs ltac:(lia) ltac:(lia)) as (ys & f & E & Hrep & _ & Hlen).
  exists ys, f. split; [done|]. split; [done|].
  destruct (filter_rep_index 250 _ _ _ _ ltac:(lia) Hrep) as (Hsz & Hidx & Hbnd).
  simpl length in Hidx. rewrite (last_cell _ f 250) by (done || lia).
  replace (samples_idx f - 1 + -60 <? 0) with true by lia.
  replace (length xs - 14)%nat with (length ys - 1 - 14)%nat by lia.
  eapply output_lookup_back; [done|lia|lia|].
  change (Z.of_nat 250) with 250. change (Z.of_nat 14) with 14.
  replace (samples_idx f - 1 + -60 + 2 ^ 32)
    with (samples_idx f - 1 - 14 + 17179869 * 250) by lia.
  apply Z_mod_plus_full.
Qed.

(** Defect: [reset] empties the vectors but keeps the write index, so a
    filter reset to a size that index has reached writes out of range at its
    next call. *)
Theorem filter_reset_overruns (f : averaging_filter) (size : Z) (x : double) :
  0 <= size <= samples_idx f -> filter_call x (reset size f) = None.
Proof.
  intros Hs. unfold filter_call, reset, vec_set. cbn [samples size_ samples_idx].
  rewrite length_replicate, decide_False by lia. done.
Qed.

(** ** Witnesses *)
Section FilterWitnesses.

Definition sample_inputs : list double := d_of_Z <$> [4; 8; 6; 10; 2].

Lemma filter_averages_window_witness :
  exists ys f f',
    filter_calls sample_inputs (new_filter 3) = Some (ys, f) /\
    filter_call (d_of_Z 9) f = Some (mean (samples f'), f') /\
    samples f' ≡ₚ [d_of_Z 10; d_of_Z 2; d_of_Z 9].
Proof.
  apply (filter_averages_window 3 (d_of_Z 4) (tail sample_inputs) (d_of_Z 9)); lia.
Defined.

Lemma filter_last_looks_back_witness :
  exists ys f, filter_calls sample_inputs (new_filter 4) = Some (ys, f) /\
    length ys = 5%nat /\ last (-3) f = ys !! 1%nat.
Proof.
  apply (filter_last_looks_back 4 3 (d_of_Z 4) (tail sample_inputs));
    [lia|lia|lia|simpl; lia|by right].
Defined.

Lemma filter_last_wraps_wrong_witness :
  exists ys f, filter_calls (replicate 260 (d_of_Z 7)) (new_filter 250) = Some (ys, f) /\
    length ys = 260%nat /\ last (-60) f = ys !! 245%nat.
Proof.
  apply (filter_last_wraps_wrong (d_of_Z 7) (replicate 259 (d_of_Z 7)));
    rewrite length_replicate; [lia|by vm_compute; lia].
Defined.

Lemma filter_reset_overruns_witness :
  filter_call (d_of_Z 1) (reset 2 (AveragingFilter [] [] 2 3)) = None.
Proof. apply filter_reset_overruns. simpl. lia. Defined.

End FilterWitnesses.
