(* ===== verification/WsServer.v ===== *)
(** * The WebSocket servers: [src/ws_server.cpp], [src/ws_broadcaster.cpp] and
      [src/ws_server_isolated.cpp]

    Both servers number their connections: [connections_fmap] leads from a
    number to the connection's handle, [connections_rmap] from the address of
    the connection object back to the number.  [ws_server] carries commands
    from the browser to [main_app] and its answers back, [ws_broadcaster]
    copies video datagrams to every connection.

    Here the endpoint's calls of the handlers are the events of a step
    relation, and what [server.send] is given is recorded in [sent];
    [WsConnection] is what happens below the handlers, [WsEndpoint] what
    becomes of what is sent.  Every handler holds [server_mutex] (or runs on the endpoint's
    only thread), so events interleave as wholes. *)
From stdpp Require Import sorting.
From S2P Require Import Prelude.

(** A [connection_hdl] is an abstract name; [hdl.lock().get()] is an argument
    of the handlers. *)
Abbreviation hdl := Z.
Abbreviation address := Z.

Inductive opcode := OpText | OpBinary.

Record ws_server := WsServer {
  connection_id_ctr : Z;
  connections_fmap : gmap Z hdl;
  connections_rmap : gmap address Z;
  sent : list (hdl * list Z * opcode) }.

Definition new_server : ws_server := WsServer 0 ∅ ∅ [].

(** [std::map::emplace]: an existing key keeps its value. *)
Definition emplace {V} (k : Z) (v : V) (m : gmap Z V) : gmap Z V :=
  match m !! k with Some _ => m | None => <[k := v]> m end.

(** The message of [ws_server_queue_socks]: [data_str] is a NUL-terminated
    copy of the payload. *)
Record queue_msg_t := QueueMsg { conn_id : Z; data_str : list Z }.

(** ** ws_server *)
Definition on_message (ptr : address) (payload : list Z) (s : ws_server) :
    option queue_msg_t :=
  match connections_rmap s !! ptr with
  | None => None
  | Some id => Some (QueueMsg id (payload ++ [0]))
  end.

Definition on_open (h : hdl) (ptr : address) (s : ws_server) : ws_server :=
  let id := connection_id_ctr s in
  WsServer (u32 (id + 1)) (emplace id h (connections_fmap s))
    (emplace ptr id (connections_rmap s)) (sent s).

Definition on_close (ptr : address) (s : ws_server) : ws_server :=
  match connections_rmap s !! ptr with
  | None => s
  | Some id =>
      WsServer (connection_id_ctr s) (delete id (connections_fmap s))
        (delete ptr (connections_rmap s)) (sent s)
  end.

(** [send]: the size as an [int], or -1. *)
Definition send (id : Z) (message : list Z) (s : ws_server) : Z * ws_server :=
  match connections_fmap s !! id with
  | Some h =>
      (i32 (Z.of_nat (length message)),
       WsServer (connection_id_ctr s) (connections_fmap s) (connections_rmap s)
         (sent s ++ [(h, message, OpText)]))
  | None => (-1, s)
  end.

Definition get_handle (id : Z) (s : ws_server) : option hdl := connections_fmap s !! id.

(** [ws_send] of [ws_server_isolated.cpp] forwards to the global server. *)
Definition ws_send (id : Z) (msg : list Z) (g_ws_server : ws_server) : Z * ws_server :=
  send id msg g_ws_server.

(** [main_app::run_ws]: what is read back from a queue message. *)
Definition run_ws_recv (m : queue_msg_t) : option (Z * list Z) :=
  s ← cstring (data_str m); Some (conn_id m, s).

(** ** ws_broadcaster

    [on_open] and [on_close] are those of [ws_server] line by line; messages
    of the connections are ignored.  A [std::map] is walked in the order of
    its keys. *)
Definition broadcaster_on_open := on_open.
Definition broadcaster_on_close := on_close.
Definition broadcaster_on_message (ptr : address) (payload : list Z) (s : ws_server) :
  ws_server := s.

Definition key_le {V} (p q : Z * V) : Prop := p.1 <= q.1.
#[export] Instance key_le_dec {V} : RelDecision (@key_le V).
Proof. intros p q. unfold key_le. apply _. Defined.

Definition in_order {V} (m : gmap Z V) : list (Z * V) := merge_sort key_le (map_to_list m).

(** One datagram of [sz] octets at the start of the receive buffer. *)
Definition run_udp_datagram (rcv_raw_buffer : list Z) (sz : nat) (s : ws_server) : ws_server :=
  WsServer (connection_id_ctr s) (connections_fmap s) (connections_rmap s)
    (sent s ++ ((fun p => (p.2, take sz rcv_raw_buffer, OpBinary)) <$>
                  in_order (connections_fmap s))).

(** ** Events

    The endpoint opens a connection at an address no open connection has, and
    closes open ones (or, harmlessly, unknown ones). *)
Inductive ws_step : ws_server -> ws_server -> Prop :=
| step_open h ptr s :
    connections_rmap s !! ptr = None -> ws_step s (on_open h ptr s)
| step_close ptr s : ws_step s (on_close ptr s)
| step_send id message s : ws_step s (send id message s).2
| step_datagram buffer sz s : ws_step s (run_udp_datagram buffer sz s).

Inductive ws_run : nat -> ws_server -> ws_server -> Prop :=
| ws_run_refl s : ws_run 0 s s
| ws_run_step n s1 s2 s3 : ws_run n s1 s2 -> ws_step s2 s3 -> ws_run (S n) s1 s3.

(** ** Specification

    The open sessions: for every connection object its number and handle. *)
Abbreviation sessions := (gmap address (Z * hdl)).

Definition spec_open (id : Z) (h : hdl) (ptr : address) (ss : sessions) : sessions :=
  <[ptr := (id, h)]> ss.
Definition spec_close (ptr : address) (ss : sessions) : sessions := delete ptr ss.

Definition ws_rep (ss : sessions) (s : ws_server) : Prop :=
  (forall ptr id, connections_rmap s !! ptr = Some id <->
     exists h, ss !! ptr = Some (id, h)) /\
  (forall id h, connections_fmap s !! id = Some h <->
     exists ptr, ss !! ptr = Some (id, h)) /\
  (forall p1 p2 id h1 h2, ss !! p1 = Some (id, h1) -> ss !! p2 = Some (id, h2) -> p1 = p2) /\
  (forall ptr id h, ss !! ptr = Some (id, h) -> 0 <= id < connection_id_ctr s).

(** ** Lemmas *)
Lemma ws_rep_new : ws_rep ∅ new_server.
Proof.
  assert (forall ptr x, (∅ : sessions) !! ptr = Some x -> False) as He
    by (intros ptr x E; by rewrite lookup_empty in E).
  unfold ws_rep, new_server. cbn [connections_rmap connections_fmap connection_id_ctr].
  splits; intros; try (exfalso; eauto; fail);
    (split; [intros E; by rewrite lookup_empty in E|intros [? E]; exfalso; eauto]).
Qed.

Lemma ws_rep_rmap_None ss s ptr :
  ws_rep ss s -> connections_rmap s !! ptr = None <-> ss !! ptr = None.
Proof.
  intros (Hr & _). split; intros E.
  - destruct (ss !! ptr) as [[id h]|] eqn:Es; [|done].
    assert (connections_rmap s !! ptr = Some id) by (apply Hr; eauto). congruence.
  - destruct (connections_rmap s !! ptr) as [id|] eqn:Es; [|done].
    apply Hr in Es as [h Hh]. congruence.
Qed.

Lemma on_open_rep ss s h ptr :
  ws_rep ss s -> connection_id_ctr s + 1 < 2 ^ 32 -> 0 <= connection_id_ctr s ->
  connections_rmap s !! ptr = None ->
  ws_rep (spec_open (connection_id_ctr s) h ptr ss) (on_open h ptr s) /\
  connection_id_ctr (on_open h ptr s) = connection_id_ctr s + 1.
Proof.
  intros Hrep Hc H0 Hp. pose proof Hrep as (Hr & Hf & Hi & Hb).
  assert (ss !! ptr = None) as Hss by by apply (ws_rep_rmap_None ss s ptr Hrep).
  assert (connections_fmap s !! connection_id_ctr s = None) as Hfn.
  { destruct (connections_fmap s !! connection_id_ctr s) as [h'|] eqn:E; [|done].
    apply Hf in E as [p E]. apply Hb in E. lia. }
  unfold on_open, emplace, spec_open. rewrite Hp, Hfn.
  rewrite u32_small by lia. split; [|done].
  unfold ws_rep. cbn [connections_rmap connections_fmap connection_id_ctr]. splits.
  - intros p id. destruct (decide (ptr = p)) as [->|Hne].
    + rewrite !lookup_insert_eq. split; [intros [= <-]; eauto|]. by intros [h' [= <- <-]].
    + rewrite !lookup_insert_ne by done. apply Hr.
  - intros id h'. destruct (decide (connection_id_ctr s = id)) as [<-|Hne].
    + rewrite lookup_insert_eq. split.
      * intros [= <-]. exists ptr. by rewrite lookup_insert_eq.
      * intros [p E]. destruct (decide (ptr = p)) as [->|Hne].
        -- rewrite lookup_insert_eq in E. congruence.
        -- rewrite lookup_insert_ne in E by done. apply Hb in E. lia.
    + rewrite lookup_insert_ne by done. rewrite Hf. split; intros [p E].
      * exists p. rewrite lookup_insert_ne; [done|]. intros ->. congruence.
      * destruct (decide (ptr = p)) as [->|Hne'].
        -- rewrite lookup_insert_eq in E. congruence.
        -- rewrite lookup_insert_ne in E by done. eauto.
  - intros p1 p2 id h1 h2. rewrite !lookup_insert.
    repeat case_decide; intros E1 E2; simplify_eq; try done;
      [apply Hb in E2; lia|apply Hb in E1; lia|by eapply Hi].
  - intros p id h'. rewrite lookup_insert. case_decide; intros E; simplify_eq; [lia|].
    apply Hb in E. lia.
Qed.

Lemma on_close_rep ss s ptr :
  ws_rep ss s ->
  ws_rep (spec_close ptr ss) (on_close ptr s) /\
  connection_id_ctr (on_close ptr s) = connection_id_ctr s.
Proof.
  intros Hrep. pose proof Hrep as (Hr & Hf & Hi & Hb). unfold on_close, spec_close.
  destruct (connections_rmap s !! ptr) as [id|] eqn:E.
  2: { split; [|done]. rewrite delete_id; [done|]. by apply (ws_rep_rmap_None ss s ptr Hrep). }
  apply Hr in E as [h Hh]. split; [|done].
  unfold ws_rep. cbn [connections_rmap connections_fmap connection_id_ctr]. splits.
  - intros p i. rewrite !lookup_delete. case_decide; [|apply Hr].
    split; [done|]. by intros [? ?].
  - intros i h'. rewrite lookup_delete. case_decide as Hd.
    + subst i. split; [done|]. intros [p E]. rewrite lookup_delete in E.
      case_decide; [done|]. by pose proof (Hi _ _ _ _ _ Hh E).
    + rewrite Hf. split; intros [p E]; exists p.
      * rewrite lookup_delete_ne; [done|]. intros ->. congruence.
      * rewrite lookup_delete in E. by case_decide.
  - intros p1 p2 i h1 h2. rewrite !lookup_delete. repeat case_decide; try done. apply Hi.
  - intros p i h'. rewrite lookup_delete. case_decide; [done|]. apply Hb.
Qed.

Lemma send_maps id message s :
  connection_id_ctr (send id message s).2 = connection_id_ctr s /\
  connections_fmap (send id message s).2 = connections_fmap s /\
  connections_rmap (send id message s).2 = connections_rmap s.
Proof. unfold send. by case_match. Qed.

Lemma ws_rep_maps ss s s' :
  ws_rep ss s -> connection_id_ctr s' = connection_id_ctr s ->
  connections_fmap s' = connections_fmap s -> connections_rmap s' = connections_rmap s ->
  ws_rep ss s'.
Proof. unfold ws_rep. by intros H -> -> ->. Qed.

(** One event: a session is opened with a number never used, or closed, or
    nothing changes. *)
Lemma ws_step_rep ss s s' :
  ws_rep ss s -> 0 <= connection_id_ctr s -> connection_id_ctr s + 1 < 2 ^ 32 ->
  ws_step s s' ->
  exists ss', ws_rep ss' s' /\
    connection_id_ctr s <= connection_id_ctr s' <= connection_id_ctr s + 1 /\
    (forall ptr id h, ss' !! ptr = Some (id, h) ->
       ss !! ptr = Some (id, h) \/ id = connection_id_ctr s).
Proof.
  intros Hrep H0 Hc Hs. destruct Hs as [h ptr s Hp|ptr s|id message s|buffer sz s].
  - destruct (on_open_rep ss s h ptr Hrep Hc H0 Hp) as [H1 ->].
    eexists. split; [exact H1|]. split; [lia|]. intros p id h'. unfold spec_open.
    rewrite lookup_insert. case_decide; intros; simplify_eq; auto.
  - destruct (on_close_rep ss s ptr Hrep) as [H1 ->].
    eexists. split; [exact H1|]. split; [lia|]. intros p id h'. unfold spec_close.
    rewrite lookup_delete. case_decide; [done|auto].
  - destruct (send_maps id message s) as (E1 & E2 & E3). exists ss.
    split; [by eapply ws_rep_maps|]. split; [lia|auto].
  - exists ss. split; [by eapply ws_rep_maps|]. simpl. split; [lia|auto].
Qed.

(** Any number of events: a number once given keeps its connection. *)
Lemma ws_run_rep n s s' :
  ws_run n s s' -> forall ss,
  ws_rep ss s -> 0 <= connection_id_ctr s -> connection_id_ctr s + Z.of_nat n < 2 ^ 32 ->
  exists ss', ws_rep ss' s' /\
    connection_id_ctr s <= connection_id_ctr s' <= connection_id_ctr s + Z.of_nat n /\
    (forall ptr id h, ss' !! ptr = Some (id, h) ->
       ss !! ptr = Some (id, h) \/ connection_id_ctr s <= id).
Proof.
  induction 1 as [s|n s1 s2 s3 _ IH Hstep]; intros ss Hrep H0 Hc.
  { exists ss. split; [done|]. split; [lia|auto]. }
  destruct (IH ss Hrep H0 ltac:(lia)) as (ss2 & Hrep2 & Hb2 & Hold2).
  destruct (ws_step_rep ss2 s2 s3 Hrep2 ltac:(lia) ltac:(lia) Hstep)
    as (ss3 & Hrep3 & Hb3 & Hold3).
  exists ss3. split; [done|]. split; [lia|]. intros ptr id h E.
  destruct (Hold3 _ _ _ E) as [E'| ->]; [by apply Hold2|right; lia].
Qed.

#[export] Instance key_le_total {V} : Total (@key_le V).
Proof. intros p q. unfold key_le. lia. Qed.
#[export] Instance key_le_trans {V} : Transitive (@key_le V).
Proof. intros p q r. unfold key_le. lia. Qed.

Lemma cstring_terminated s : exists t, cstring (s ++ [0]) = Some t /\
  Forall (fun c => c <> 0) t /\ exists u, s = t ++ u /\ (u = [] \/ exists v, u = 0 :: v).
Proof.
  induction s as [|c s (t & E & Ht & u & -> & Hu)]; simpl.
  { exists []. split; [done|]. split; [constructor|]. exists []. auto. }
  destruct (Z.eqb_spec c 0) as [->|Hc].
  - exists []. split; [done|]. split; [constructor|]. exists (0 :: t ++ u). eauto.
  - rewrite E. exists (c :: t). split; [done|]. split; [by constructor|].
    exists u. auto.
Qed.

(** ** Theorems *)

(** Invariant and refinement of the connection tables.  In every state the
    server reaches in fewer than [2 ^ 32] events the two maps represent one
    set of sessions: they are inverse to each other, no two connections share
    a number, and every number is below the counter. *)
Theorem ws_tables_refine_sessions (n : nat) (s : ws_server) :
  ws_run n new_server s -> Z.of_nat n < 2 ^ 32 ->
  exists ss, ws_rep ss s /\
    (forall ptr id, connections_rmap s !! ptr = Some id ->
       exists h, connections_fmap s !! id = Some h /\ ss !! ptr = Some (id, h)).
Proof.
  intros Hrun Hn.
  destruct (ws_run_rep n new_server s Hrun ∅ ws_rep_new) as (ss & Hrep & _); [done|simpl; lia|].
  exists ss. split; [done|]. intros ptr id E. destruct Hrep as (Hr & Hf & _).
  destruct (proj1 (Hr ptr id) E) as [h E']. exists h. split; [|done]. apply Hf. eauto.
Qed.

(** C34. An answer reaches the connection that asked, or nobody.  A message of
    a connection is tagged with its number; whatever connections are opened
    and closed before the answer to that number is sent, as long as the counter
    of connections does not wrap, the answer goes to
    the very handle the message came from, or, when that connection is gone,
    [ws_send] returns -1 and sends nothing. *)
Theorem ws_reply_reaches_sender (n1 n2 : nat) (s s' : ws_server) (ptr : address)
    (payload : list Z) (m : queue_msg_t) (answer : list Z) :
  ws_run n1 new_server s -> ws_run n2 s s' -> Z.of_nat (n1 + n2) < 2 ^ 32 ->
  on_message ptr payload s = Some m ->
  exists h, connections_fmap s !! conn_id m = Some h /\
    ((ws_send (conn_id m) answer s').1 = i32 (Z.of_nat (length answer)) /\
     sent (ws_send (conn_id m) answer s').2 = sent s' ++ [(h, answer, OpText)] \/
     ws_send (conn_id m) answer s' = (-1, s')).
Proof.
  intros H1 H2 Hn Hm. unfold on_message in Hm.
  destruct (connections_rmap s !! ptr) as [id|] eqn:Eid; [|done]. simplify_eq/=.
  destruct (ws_run_rep n1 new_server s H1 ∅ ws_rep_new) as (ss & Hrep & Hb & _);
    [done|simpl; lia|]. simpl in Hb.
  destruct (ws_run_rep n2 s s' H2 ss Hrep) as (ss' & Hrep' & _ & Hold); [lia|lia|].
  destruct Hrep as (Hr & Hf & Hi & Hlt). destruct Hrep' as (_ & Hf' & _ & _).
  destruct (proj1 (Hr ptr id) Eid) as [h Eh]. exists h. split; [apply Hf; eauto|].
  unfold ws_send, send. destruct (connections_fmap s' !! id) as [h'|] eqn:E'; [left|by right].
  split; [done|]. apply Hf' in E' as [p E'].
  destruct (Hold _ _ _ E') as [E''|E'']; [|apply Hlt in Eh; lia].
  pose proof (Hi _ _ _ _ _ Eh E'') as ->. simpl. congruence.
Qed.

(** From the browser to [main_app]: a message of an open connection
    arrives under that connection's number, cut at its first NUL octet and
    otherwise unchanged; in particular a text without NUL arrives whole. *)
Theorem ws_message_transport (ptr : address) (payload : list Z) (id : Z) (s : ws_server) :
  connections_rmap s !! ptr = Some id ->
  exists text rest, on_message ptr payload s ≫= run_ws_recv = Some (id, text) /\
    payload = text ++ rest /\ Forall (fun c => c <> 0) text /\
    (rest = [] \/ exists tl, rest = 0 :: tl).
Proof.
  intros E. unfold on_message, run_ws_recv. rewrite E. simpl.
  destruct (cstring_terminated payload) as (t & -> & Ht & u & -> & Hu).
  exists t, u. by splits.
Qed.

(** The broadcaster hands a datagram to every open connection exactly
    once, in the order the connections were numbered, as one binary message
    holding the received octets. *)
Theorem broadcast_reaches_all (buffer : list Z) (sz : nat) (s : ws_server) :
  exists order, sent (run_udp_datagram buffer sz s) =
      sent s ++ ((fun p => (p.2, take sz buffer, OpBinary)) <$> order) /\
    order ≡ₚ map_to_list (connections_fmap s) /\ StronglySorted key_le order /\
    NoDup order.*1 /\
    connections_fmap (run_udp_datagram buffer sz s) = connections_fmap s.
Proof.
  exists (in_order (connections_fmap s)). split; [done|]. unfold in_order.
  assert (merge_sort key_le (map_to_list (connections_fmap s)) ≡ₚ
    map_to_list (connections_fmap s)) as Hp by apply merge_sort_Permutation.
  splits; [done| | |done].
  - apply (StronglySorted_merge_sort key_le).
  - rewrite Hp. apply NoDup_fst_map_to_list.
Qed.

(** ** Witnesses *)
Section WsWitnesses.

(** Three connections, the first closed again. *)
Definition sample_server : ws_server :=
  on_close 1000 (on_open 73 3000 (on_open 72 2000 (on_open 71 1000 new_server))).

Lemma sample_server_run : ws_run 4 new_server sample_server.
Proof.
  unfold sample_server.
  eapply ws_run_step; [|apply step_close].
  eapply ws_run_step; [|apply step_open; reflexivity].
  eapply ws_run_step; [|apply step_open; reflexivity].
  eapply ws_run_step; [apply ws_run_refl|apply step_open; reflexivity].
Qed.

Lemma ws_tables_refine_sessions_witness :
  exists h, connections_fmap sample_server !! 1 = Some h /\
    connections_rmap sample_server !! 2000 = Some 1.
Proof.
  destruct (ws_tables_refine_sessions 4 sample_server sample_server_run)
    as (ss & _ & H); [reflexivity|].
  destruct (H 2000 1) as (h & Hh & _); [reflexivity|].
  exists h. split; [exact Hh|reflexivity].
Defined.

Lemma ws_reply_reaches_sender_witness :
  ws_send 2 (str "stats") (on_close 2000 sample_server) =
    (5, WsServer 3 (connections_fmap (on_close 2000 sample_server))
          (connections_rmap (on_close 2000 sample_server)) [(73, str "stats", OpText)]).
Proof.
  destruct (ws_reply_reaches_sender 4 1 sample_server (on_close 2000 sample_server) 3000
    (str "led 10") (QueueMsg 2 (str "led 10" ++ [0])) (str "stats"))
    as (h & Hh & [[H1 H2]|H]);
    [apply sample_server_run| |reflexivity|reflexivity| |].
  - eapply ws_run_step; [apply ws_run_refl|apply step_close].
  - reflexivity.
  - discriminate H.
Defined.

Lemma ws_message_transport_witness :
  exists text rest,
    on_message 3000 (str "js 10 20") sample_server ≫= run_ws_recv = Some (2, text) /\
    str "js 10 20" = text ++ rest.
Proof.
  destruct (ws_message_transport 3000 (str "js 10 20") 2 sample_server)
    as (text & rest & H1 & H2 & _); [reflexivity|].
  exists text, rest. split; [exact H1|exact H2].
Defined.

End WsWitnesses.
