(* ===== verification/Text.v ===== *)
(** * Text input: stream extraction and the [sto*] conversions

    [handle_cmd] and [handle_ws] read words and integers with the [>>]
    operators of a [std::stringstream], [handle_timer] reads the temperature
    file the same way; [std::stoul] and [std::stoi] convert the command line
    options and the columns of [/proc/net/wireless].  The definitions follow
    the sources of libstdc++ under [rover/externals/usr_include/c++/8] in the
    "C" locale and base 10.  A variable an extraction leaves unwritten is
    [None]. *)
From S2P Require Import Prelude.

(** ** Streams *)
Record istream := IStream {
  chars : list Z;
  failbit : bool;
  eofbit : bool }.

Definition stringstream (s : list Z) : istream := IStream s false false.

Definition good (ss : istream) : bool := negb (failbit ss || eofbit ss).

Fixpoint skip_spaces (cs : list Z) : list Z :=
  match cs with
  | c :: cs' => if is_space c then skip_spaces cs' else cs
  | [] => []
  end.

(** [istream::sentry]: white space is skipped; a stream that is not good, or
    ends first, fails. *)
Definition sentry (ss : istream) : bool * istream :=
  if good ss then
    match skip_spaces (chars ss) with
    | [] => (false, IStream [] true true)
    | cs => (true, IStream cs false false)
    end
  else (false, IStream (chars ss) true (eofbit ss)).

Definition is_nil {A} (l : list A) : bool := match l with [] => true | _ => false end.

(** [ss >> str] on an empty string: it is left as it is when the sentry
    fails. *)
Fixpoint take_word (cs : list Z) : list Z * list Z :=
  match cs with
  | c :: cs' => if is_space c then ([], cs)
                else let '(w, r) := take_word cs' in (c :: w, r)
  | [] => ([], [])
  end.

Definition extract_word (ss : istream) : list Z * istream :=
  let '(ok, ss) := sentry ss in
  if ok then
    let '(w, r) := take_word (chars ss) in
    (w, IStream r (is_nil w) (is_nil r))
  else ([], ss).

(** ** num_get::_M_extract_int *)

(** The optional sign: [__negative] and what follows. *)
Definition take_sign (cs : list Z) : bool * list Z :=
  match cs with
  | c :: cs' => if c =? 45 then (true, cs') else if c =? 43 then (false, cs') else (false, cs)
  | [] => (false, [])
  end.

(** The leading zeros: [__found_zero] and what follows. *)
Fixpoint take_zeros (cs : list Z) : bool * list Z :=
  match cs with
  | c :: cs' => if c =? 48 then (true, (take_zeros cs').2) else (false, cs)
  | [] => (false, [])
  end.

(** The accumulation: [__result], [__testoverflow], whether [__sep_pos]
    advanced, and what follows. *)
Fixpoint take_digits (max : Z) (cs : list Z) (result : Z) (overflow sep : bool) :
    Z * bool * bool * list Z :=
  match cs with
  | c :: cs' =>
      if is_digit c then
        if max / 10 <? result then take_digits max cs' result true sep
        else
          let result := result * 10 in
          let overflow := overflow || (max - (c - 48) <? result) in
          take_digits max cs' (result + (c - 48)) overflow true
      else (result, overflow, sep, cs)
  | [] => (result, overflow, sep, [])
  end.

(** The value [__v] and the stream after the call; [hi] and [lo] are the
    bounds of the type, [neg_max] the value of [__max] for a negative number,
    [negate] the conversion of [-__result]. *)
Definition extract_integer (lo hi neg_max : Z) (is_signed : bool) (negate : Z -> Z)
    (ss : istream) : Z * istream :=
  let '(negative, cs) := take_sign (chars ss) in
  let '(zero, cs) := take_zeros cs in
  let max := if negative && is_signed then neg_max else hi in
  let '(result, overflow, sep, cs) := take_digits max cs 0 false false in
  if negb sep && negb zero then (0, IStream cs true (is_nil cs))
  else if overflow then
    ((if negative && is_signed then lo else hi), IStream cs true (is_nil cs))
  else ((if negative then negate result else result), IStream cs false (is_nil cs)).

(** [ss >> v] for an [unsigned v] and for an [int v]. *)
Definition extract_unsigned (ss : istream) : option Z * istream :=
  let '(ok, ss) := sentry ss in
  if ok then
    let '(v, ss) := extract_integer 0 4294967295 4294967295 false (fun r => u32 (- r)) ss in
    (Some v, ss)
  else (None, ss).

Definition extract_int (ss : istream) : option Z * istream :=
  let '(ok, ss) := sentry ss in
  if ok then
    let '(v, ss) := extract_integer (-2147483648) 2147483647 2147483648 true Z.opp ss in
    (Some v, ss)
  else (None, ss).

(** ** std::stoi and std::stoul *)
Inductive sto_result := StoOk (v : Z) | StoInvalidArgument | StoOutOfRange.

(** [strtol] and [strtoul] of the C library, base 10: white space, a sign,
    digits.  [None] when no conversion is done ([__endptr == __str]). *)
Fixpoint digits_prefix (cs : list Z) : list Z :=
  match cs with
  | c :: cs' => if is_digit c then c :: digits_prefix cs' else []
  | [] => []
  end.

Definition strto (s : list Z) : option (bool * Z) :=
  let '(negative, cs) := take_sign (skip_spaces s) in
  match digits_prefix cs with
  | [] => None
  | ds => Some (negative, undec ds)
  end.

(** [__stoa] over [strtol] with [_Ret = int]: both a value outside [long] and
    one outside [int] are out of range. *)
Definition stoi (s : list Z) : sto_result :=
  match strto s with
  | None => StoInvalidArgument
  | Some (negative, m) =>
      let v := if (negative : bool) then - m else m in
      if (-2147483648 <=? v) && (v <=? 2147483647) then StoOk v else StoOutOfRange
  end.

(** [__stoa] over [strtoul], with an [unsigned long] of [w] bits; a sign is
    applied in that type. *)
Definition stoul (w : Z) (s : list Z) : sto_result :=
  match strto s with
  | None => StoInvalidArgument
  | Some (negative, m) =>
      if m <? 2 ^ w then StoOk (if (negative : bool) then wrap w (- m) else m)
      else StoOutOfRange
  end.

(** ** Lemmas *)
(** *** Extracted numbers fit their types *)
Lemma take_digits_bounds max cs : forall r o sep r' o' sep' rest,
  take_digits max cs r o sep = (r', o', sep', rest) ->
  0 <= r -> (o = false -> r <= max) -> 0 <= r' /\ (o' = false -> r' <= max).
Proof.
  induction cs as [|c cs IH]; intros r o sep r' o' sep' rest E Hr Ho; cbn [take_digits] in E.
  { by injection E as <- <- <- <-. }
  unfold is_digit in E. destruct (Z.leb_spec 48 c), (Z.leb_spec c 57); cbn [andb] in E;
    try by injection E as <- <- <- <-.
  destruct (Z.ltb_spec (max / 10) r); [by apply IH in E|].
  apply IH in E; [done|lia|]. intros [_ Hlt%Z.ltb_ge]%orb_false_iff. lia.
Qed.

Lemma extract_integer_bounds lo hi neg_max is_signed negate ss v ss' :
  extract_integer lo hi neg_max is_signed negate ss = (v, ss') ->
  lo <= 0 <= hi -> 0 <= neg_max ->
  (forall r, 0 <= r <= (if is_signed then neg_max else hi) -> lo <= negate r <= hi) ->
  lo <= v <= hi.
Proof.
  unfold extract_integer. intros E Hb Hm Hn. destruct (take_sign (chars ss)) as [neg cs].
  destruct (take_zeros cs) as [zero cs'].
  destruct (take_digits _ cs' 0 false false) as [[[r o] sep] cs''] eqn:Et.
  destruct (negb sep && negb zero); [injection E as <- <-; lia|].
  destruct o; [destruct (neg && is_signed); injection E as <- <-; lia|].
  apply take_digits_bounds in Et as [Hr Ho]; [|done|intros _; destruct (neg && is_signed); lia].
  specialize (Ho eq_refl). injection E as <- <-. destruct neg; cbn [andb] in Ho; [|lia].
  apply Hn. by destruct is_signed.
Qed.

Lemma extract_unsigned_bound ss v ss' :
  extract_unsigned ss = (Some v, ss') -> 0 <= v < 4294967296.
Proof.
  unfold extract_unsigned. destruct (sentry ss) as [[] s]; [|done].
  destruct (extract_integer _ _ _ _ _ s) as [r s'] eqn:E. intros [= <- _].
  apply extract_integer_bounds in E; [lia|lia|lia|].
  intros x _. pose proof (u32_bound (- x)). lia.
Qed.

Lemma extract_int_bound ss v ss' :
  extract_int ss = (Some v, ss') -> -2147483648 <= v < 2147483648.
Proof.
  unfold extract_int. destruct (sentry ss) as [[] s]; [|done].
  destruct (extract_integer _ _ _ _ _ s) as [r s'] eqn:E. intros [= <- _].
  apply extract_integer_bounds in E; lia.
Qed.

Lemma stoi_bound s v : stoi s = StoOk v -> -2147483648 <= v < 2147483648.
Proof.
  unfold stoi. destruct (strto s) as [[neg m]|]; [|done].
  case_match eqn:E; [|done]. intros [= <-]. lia.
Qed.

(** *** Numbers and words in a text *)
Definition ends_number (cs : list Z) : Prop :=
  match cs with [] => True | c :: _ => is_digit c = false end.

Definition ends_word (cs : list Z) : Prop :=
  match cs with [] => True | c :: _ => is_space c = true end.

Lemma digit_not_space c : is_digit c = true -> is_space c = false.
Proof. unfold is_digit, is_space. lia. Qed.

Lemma space_not_digit c : is_space c = true -> is_digit c = false.
Proof. unfold is_digit, is_space. lia. Qed.

Lemma ends_word_number cs : ends_word cs -> ends_number cs.
Proof. destruct cs; [done|]. apply space_not_digit. Qed.

Lemma sentry_start c cs :
  is_space c = false -> sentry (stringstream (c :: cs)) = (true, stringstream (c :: cs)).
Proof. intros H. unfold sentry. simpl. by rewrite H. Qed.

Lemma sentry_space c cs :
  is_space c = false ->
  sentry (stringstream (32 :: c :: cs)) = (true, stringstream (c :: cs)).
Proof. intros H. unfold sentry. simpl. by rewrite H. Qed.

Lemma take_word_spec w r :
  Forall (fun c => is_space c = false) w -> ends_word r -> take_word (w ++ r) = (w, r).
Proof.
  intros Hw Hr. induction Hw as [|c w Hc Hw IH]; simpl.
  - destruct r as [|c r]; [done|]. simpl in *. by rewrite Hr.
  - by rewrite Hc, IH.
Qed.

Lemma extract_word_spec w r ss :
  w <> [] -> Forall (fun c => is_space c = false) w -> ends_word r ->
  sentry ss = (true, stringstream (w ++ r)) ->
  extract_word ss = (w, IStream r false (is_nil r)).
Proof.
  intros Hne Hw Hr Hs. unfold extract_word. rewrite Hs. simpl.
  rewrite take_word_spec by done. by destruct w.
Qed.

(** The digit loop computes the value of the digits as long as it fits. *)
Lemma take_digits_fit max cs ds : forall result sep,
  0 <= result -> Forall (fun c => is_digit c = true) ds -> ends_number cs ->
  result * 10 ^ Z.of_nat (length ds) + undec ds <= max ->
  take_digits max (ds ++ cs) result false sep =
    (result * 10 ^ Z.of_nat (length ds) + undec ds, false, sep || negb (is_nil ds), cs).
Proof.
  induction ds as [|c ds IH]; intros result sep Hr Hd Hc Hmax.
  - simpl in *. unfold undec. simpl. rewrite orb_false_r. destruct cs as [|c cs]; simpl.
    + do 3 f_equal. lia.
    + simpl in Hc. rewrite Hc. do 3 f_equal. lia.
  - apply Forall_cons in Hd as [Hdc Hd]. simpl app. simpl take_digits. rewrite Hdc.
    simpl length in *. rewrite undec_cons in *. rewrite Nat2Z.inj_succ, Z.pow_succ_r in * by lia.
    assert (0 <= c - 48 <= 9) as Hc9 by (unfold is_digit in Hdc; lia).
    assert (1 <= 10 ^ Z.of_nat (length ds)) by (apply (Z.pow_le_mono_r 10 0); lia).
    assert (0 <= undec ds) as Hu.
    { clear -Hd. induction Hd as [|x l Hx Hl IHl]; [done|]. rewrite undec_cons.
      unfold is_digit in Hx. assert (0 <= 10 ^ Z.of_nat (length l)) by (apply Z.pow_nonneg; lia). nia. }
    set (p := 10 ^ Z.of_nat (length ds)) in *.
    assert (10 * result + (c - 48) <= max) by nia.
    assert (result <= max / 10) by (apply Z.div_le_lower_bound; lia).
    replace (max / 10 <? result) with false by lia.
    replace (max - (c - 48) <? result * 10) with false by lia. simpl orb.
    rewrite IH by (done || nia). rewrite orb_true_r. simpl. do 3 f_equal. lia.
Qed.

Lemma take_zeros_value cs : forall ds,
  Forall (fun c => is_digit c = true) ds -> ends_number cs ->
  exists z ds', take_zeros (ds ++ cs) = (z, ds' ++ cs) /\ undec ds' = undec ds /\
    Forall (fun c => is_digit c = true) ds' /\ (z = false -> ds' = ds).
Proof.
  induction 1 as [|c ds Hc Hd IH]; intros He.
  - exists false, []. splits; try done. destruct cs as [|c cs]; [done|]. simpl in *.
    destruct (Z.eqb_spec c 48) as [->|]; done.
  - specialize (IH He) as (z & ds' & E & Hu & Hf & _). simpl.
    destruct (Z.eqb_spec c 48) as [->|Hne].
    + exists true, ds'. rewrite E. splits; [done| |done|done].
      rewrite undec_cons. lia.
    + exists false, (c :: ds). splits; [done|done|by constructor|done].
Qed.

Lemma extract_integer_digits lo hi neg_max is_signed negate sign ds cs negative :
  ds <> [] -> Forall (fun c => is_digit c = true) ds -> ends_number cs ->
  take_sign (sign ++ ds ++ cs) = (negative, ds ++ cs) ->
  undec ds <= (if negative && is_signed then neg_max else hi) ->
  extract_integer lo hi neg_max is_signed negate (stringstream (sign ++ ds ++ cs)) =
    ((if negative then negate (undec ds) else undec ds), IStream cs false (is_nil cs)).
Proof.
  intros Hne Hd He Hs Hmax. unfold extract_integer. simpl chars. rewrite Hs.
  destruct (take_zeros_value cs ds Hd He) as (z & ds' & -> & Hu & Hf & Hz).
  rewrite take_digits_fit; [|lia|done|done|rewrite Hu; lia].
  rewrite Hu. simpl orb. destruct z; [rewrite andb_false_r; done|].
  rewrite (Hz eq_refl). by destruct ds.
Qed.

Lemma take_sign_digits ds cs :
  ds <> [] -> Forall (fun c => is_digit c = true) ds -> take_sign (ds ++ cs) = (false, ds ++ cs).
Proof.
  intros Hne Hd. destruct Hd as [|c ds Hc Hd]; [done|]. simpl. unfold is_digit in Hc.
  replace (c =? 45) with false by lia. by replace (c =? 43) with false by lia.
Qed.

(** Reading back a printed number, with or without a blank before it. *)
Definition at_token (ss : istream) (cs : list Z) : Prop :=
  sentry ss = (true, stringstream cs).

Lemma at_token_here c cs : is_space c = false -> at_token (stringstream (c :: cs)) (c :: cs).
Proof. apply sentry_start. Qed.

Lemma at_token_blank c cs : is_space c = false -> at_token (stringstream (32 :: c :: cs)) (c :: cs).
Proof. apply sentry_space. Qed.

Lemma dec_signed_start v : exists c cs, dec_signed v = c :: cs /\ is_space c = false.
Proof.
  unfold dec_signed. destruct (Z.ltb_spec v 0); [by exists 45, (dec (- v))|].
  pose proof (dec_spec v ltac:(lia)) as (_ & Hd & Hne).
  destruct Hd as [|c cs Hc Hd]; [done|]. exists c, cs. split; [done|]. by apply digit_not_space.
Qed.

Lemma extract_unsigned_at ss v cs :
  0 <= v < 4294967296 -> ends_number cs -> at_token ss (dec v ++ cs) ->
  extract_unsigned ss = (Some v, IStream cs false (is_nil cs)).
Proof.
  intros Hv He Hs. pose proof (dec_spec v ltac:(lia)) as (Hu & Hd & Hne).
  unfold extract_unsigned. rewrite Hs.
  pose proof (extract_integer_digits 0 4294967295 4294967295 false (fun r => u32 (- r)) []
    (dec v) cs false Hne Hd He (take_sign_digits _ _ Hne Hd)) as E.
  simpl app in E. rewrite E by (simpl; lia). by rewrite Hu.
Qed.

Lemma extract_int_at ss v cs :
  -2147483648 <= v <= 2147483647 -> ends_number cs -> at_token ss (dec_signed v ++ cs) ->
  extract_int ss = (Some v, IStream cs false (is_nil cs)).
Proof.
  intros Hv He Hs. unfold extract_int, dec_signed in *. rewrite Hs.
  destruct (Z.ltb_spec v 0) as [Hneg|Hpos].
  - pose proof (dec_spec (- v) ltac:(lia)) as (Hu & Hd & Hne).
    pose proof (extract_integer_digits (-2147483648) 2147483647 2147483648 true Z.opp [45]
      (dec (- v)) cs true Hne Hd He eq_refl) as E.
    simpl app in *. rewrite E by (simpl; lia). rewrite Hu. by rewrite Z.opp_involutive.
  - pose proof (dec_spec v ltac:(lia)) as (Hu & Hd & Hne).
    pose proof (extract_integer_digits (-2147483648) 2147483647 2147483648 true Z.opp []
      (dec v) cs false Hne Hd He (take_sign_digits _ _ Hne Hd)) as E.
    simpl app in E. rewrite E by (simpl; lia). by rewrite Hu.
Qed.

Lemma dec_start v : 0 <= v -> exists c cs, dec v = c :: cs /\ is_space c = false.
Proof.
  intros Hv. destruct (dec_signed_start v) as (c & cs & E & Hc). exists c, cs.
  split; [|done]. unfold dec_signed in E. by replace (v <? 0) with false in E by lia.
Qed.

Lemma extract_unsigned_dec v cs :
  0 <= v < 4294967296 -> ends_number cs ->
  extract_unsigned (stringstream (32 :: dec v ++ cs)) = (Some v, IStream cs false (is_nil cs)).
Proof.
  intros Hv He. apply extract_unsigned_at; [done|done|].
  destruct (dec_start v ltac:(lia)) as (c & ds & E & Hc). rewrite E. by apply at_token_blank.
Qed.

Lemma extract_int_dec v cs :
  -2147483648 <= v <= 2147483647 -> ends_number cs ->
  extract_int (stringstream (32 :: dec_signed v ++ cs)) = (Some v, IStream cs false (is_nil cs)).
Proof.
  intros Hv He. apply extract_int_at; [done|done|].
  destruct (dec_signed_start v) as (c & ds & E & Hc). rewrite E. by apply at_token_blank.
Qed.
