(* ===== verification/Regex.v ===== *)
(** * The two regular expressions of the program

    [rover/src/main.cpp] splits its arguments with [^--(.+?)=(.+?)$], and
    [handle_timer] cuts a line of [/proc/net/wireless] with a pattern of
    eleven groups.  Both are sequences of literals and of repeated character
    classes, so the backtracking semantics of [std::regex] (ECMAScript) needs
    only those: a greedy repetition tries its longest run first, a lazy one
    its shortest, and the first continuation that matches wins.  The theorems
    say what the two patterns mean without backtracking. *)
From S2P Require Import Prelude Text.

(** ** A backtracking matcher *)
Inductive item :=
| Lit (c : Z)
| Rep (cls : Z -> bool) (least : nat) (greedy capture : bool).

Fixpoint prefix_len (cls : Z -> bool) (s : list Z) : nat :=
  match s with
  | c :: s' => if cls c then S (prefix_len cls s') else O
  | [] => O
  end.

(** How many characters a repetition may take, in the order it tries. *)
Definition candidates (greedy : bool) (least most : nat) : list nat :=
  let ns := seq least (S most - least) in if greedy then reverse ns else ns.

Fixpoint first_some {A B} (f : A -> option B) (l : list A) : option B :=
  match l with
  | [] => None
  | x :: l' => match f x with Some y => Some y | None => first_some f l' end
  end.

(** The captures and the rest of the input; [full] asks for a match of the
    whole input. *)
Fixpoint match_items (full : bool) (items : list item) (s : list Z) :
    option (list (list Z) * list Z) :=
  match items with
  | [] => if full && negb (is_nil s) then None else Some ([], s)
  | Lit c :: items' =>
      match s with
      | x :: s' => if x =? c then match_items full items' s' else None
      | [] => None
      end
  | Rep cls least greedy capture :: items' =>
      first_some (fun n =>
        '(caps, r) ← match_items full items' (drop n s);
        Some ((if (capture : bool) then take n s :: caps else caps), r))
        (candidates greedy least (prefix_len cls s))
  end.

(** [std::regex_match]: the groups. *)
Definition regex_match (items : list item) (s : list Z) : option (list (list Z)) :=
  fst <$> match_items true items s.

(** [std::regex_search]: the leftmost match and its groups. *)
Fixpoint regex_search (items : list item) (s : list Z) : option (list (list Z)) :=
  match match_items false items s with
  | Some (caps, r) => Some (take (length s - length r) s :: caps)
  | None => match s with [] => None | _ :: s' => regex_search items s' end
  end.

(** ** The patterns *)
Definition dot (c : Z) : bool := negb ((c =? 10) || (c =? 13)).
Definition is_blank (c : Z) : bool := c =? 32.
Definition not_blank (c : Z) : bool := negb (c =? 32).

(** [^--(.+?)=(.+?)$] *)
Definition arger : list item :=
  [Lit 45; Lit 45; Rep dot 1 false true; Lit 61; Rep dot 1 false true].

Definition parse_arg (s : list Z) : option (list Z * list Z) :=
  match regex_match arger s with
  | Some [k; v] => Some (k, v)
  | _ => None
  end.

(** [([^ ]+)[ ]+] ten times, then [([^ ]+)[ ]*]. *)
Definition word : item := Rep not_blank 1 true true.
Definition gap : item := Rep is_blank 1 true false.
Definition trail : item := Rep is_blank 0 true false.

Definition wireless_pattern : list item :=
  [word; gap; word; gap; word; gap; word; gap; word; gap; word; gap;
   word; gap; word; gap; word; gap; word; gap; word; trail].

(** ** Reading the command line: [main]

    [emplace] keeps the binding an option already has.  The left side is the
    argument the exception reports. *)
Abbreviation options_t := (gmap (list Z) (list Z)).

Definition options_emplace (k v : list Z) (o : options_t) : options_t :=
  match o !! k with Some _ => o | None => <[k := v]> o end.

Fixpoint parse_args (argv : list (list Z)) (o : options_t) : list Z + options_t :=
  match argv with
  | [] => inr o
  | s :: argv' =>
      match parse_arg s with
      | Some (k, v) => parse_args argv' (options_emplace k v o)
      | None => inl s
      end
  end.

(** ** Lemmas on repetitions *)
Lemma first_some_Some {A B} (f : A -> option B) l y :
  first_some f l = Some y <->
  exists l1 x l2, l = l1 ++ x :: l2 /\ f x = Some y /\ Forall (fun x => f x = None) l1.
Proof.
  induction l as [|x l IH]; simpl.
  - split; [done|]. intros (l1 & x & l2 & E & _). by destruct l1.
  - destruct (f x) eqn:E; split.
    + intros [= ->]. by exists [], x, l.
    + intros (l1 & x' & l2 & El & Hf & Hn). destruct l1 as [|z l1]; simplify_eq/=; try congruence.
      apply Forall_cons in Hn as [Hz _]. congruence.
    + intros (l1 & x' & l2 & -> & Hf & Hn)%IH. exists (x :: l1), x', l2. auto.
    + intros (l1 & x' & l2 & El & Hf & Hn). apply IH.
      destruct l1 as [|z l1]; simplify_eq/=; try congruence.
      apply Forall_cons in Hn as [_ Hn]. eauto 10.
Qed.

Lemma first_some_None {A B} (f : A -> option B) l :
  Forall (fun x => f x = None) l -> first_some f l = None.
Proof. induction 1 as [|x l Hx _ IH]; simpl; [done|]. by rewrite Hx. Qed.

Lemma prefix_len_le cls s : (prefix_len cls s <= length s)%nat.
Proof. induction s as [|c s IH]; simpl; [lia|]. destruct (cls c); lia. Qed.

Lemma prefix_len_app cls w r :
  Forall (fun c => cls c = true) w ->
  prefix_len cls (w ++ r) = (length w + prefix_len cls r)%nat.
Proof. induction 1 as [|c w Hc Hw IH]; simpl; [done|]. by rewrite Hc, IH. Qed.

Lemma prefix_len_take cls s n :
  (n <= prefix_len cls s)%nat -> Forall (fun c => cls c = true) (take n s).
Proof.
  revert n. induction s as [|c s IH]; intros [|n] Hn; simpl in *; try done; try lia.
  destruct (cls c) eqn:E; [|lia]. constructor; [done|]. apply IH. lia.
Qed.

(** A lazy repetition takes the shortest run that lets the rest match. *)
Lemma match_lazy full cls capture items s caps r :
  match_items full (Rep cls 1 false capture :: items) s = Some (caps, r) <->
  exists n caps', (1 <= n <= prefix_len cls s)%nat /\
    match_items full items (drop n s) = Some (caps', r) /\
    caps = (if capture then take n s :: caps' else caps') /\
    forall m, (1 <= m < n)%nat -> match_items full items (drop m s) = None.
Proof.
  cbn [match_items]. unfold candidates. rewrite Nat.sub_succ, Nat.sub_0_r, first_some_Some. split.
  - intros (l1 & n & l2 & E & Hf & Hn).
    assert (n = S (length l1) /\ (1 <= n <= prefix_len cls s)%nat) as [Hl Hb].
    { assert (seq 1 (prefix_len cls s) !! length l1 = Some n) as Hl
        by (rewrite E; apply list_lookup_middle; done).
      apply lookup_seq in Hl. lia. }
    apply bind_Some in Hf as ((caps' & r') & Hm & [= <- <-]).
    exists n, caps'. splits; try done; try lia.
    intros m Hm'. assert (l1 !! (m - 1)%nat = Some m) as Hl1.
    { rewrite <-(lookup_app_l l1 (n :: l2)) by lia. rewrite <-E. apply lookup_seq. lia. }
    eapply Forall_lookup_1 in Hn; [|done]. simpl in Hn.
    destruct (match_items full items (drop m s)) as [[]|]; done.
  - intros (n & caps' & Hb & Hm & -> & Hn).
    exists (seq 1 (n - 1)), n, (seq (S n) (prefix_len cls s - n)). splits.
    + replace (prefix_len cls s) with (n - 1 + S (prefix_len cls s - n))%nat at 1 by lia.
      rewrite seq_app. f_equal. cbn [seq]. f_equal; [lia|]. f_equal; lia.
    + rewrite Hm. done.
    + apply Forall_forall. intros m Hm'%elem_of_seq. rewrite Hn by lia. done.
Qed.

(** A greedy repetition whose shorter runs cannot be continued takes the
    longest. *)
Lemma match_greedy full cls least capture items s :
  (least <= prefix_len cls s)%nat ->
  (forall n, (least <= n < prefix_len cls s)%nat -> match_items full items (drop n s) = None) ->
  match_items full (Rep cls least true capture :: items) s =
    '(caps, r) ← match_items full items (drop (prefix_len cls s) s);
    Some ((if capture then take (prefix_len cls s) s :: caps else caps), r).
Proof.
  intros Hl Hn. simpl. unfold candidates.
  replace (S (prefix_len cls s) - least)%nat with (prefix_len cls s - least + 1)%nat by lia.
  rewrite seq_app, reverse_app. simpl. replace (least + (prefix_len cls s - least))%nat
    with (prefix_len cls s) by lia.
  destruct (match_items full items (drop (prefix_len cls s) s)) as [[caps r]|]; simpl; [done|].
  apply first_some_None, Forall_forall. intros m Hm.
  rewrite elem_of_reverse, elem_of_seq in Hm. rewrite Hn by lia. done.
Qed.

Lemma match_rep_short full cls least greedy capture items s :
  (prefix_len cls s < least)%nat ->
  match_items full (Rep cls least greedy capture :: items) s = None.
Proof.
  intros H. simpl. unfold candidates. replace (S (prefix_len cls s) - least)%nat with O by lia.
  by destruct greedy.
Qed.

(** ** The command line *)
Lemma prefix_len_all cls s : prefix_len cls s = length s <-> Forall (fun c => cls c = true) s.
Proof.
  split; intros H.
  - rewrite <-(take_ge s (length s)) by done. apply prefix_len_take. lia.
  - rewrite <-(app_nil_r s) at 1. rewrite prefix_len_app by done. simpl. lia.
Qed.

(** [(.+?)$] takes all the rest. *)
Lemma match_lazy_full t caps r :
  match_items true [Rep dot 1 false true] t = Some (caps, r) <->
  t <> [] /\ Forall (fun c => dot c = true) t /\ caps = [t] /\ r = [].
Proof.
  rewrite match_lazy. split.
  - intros (n & caps' & Hb & Hm & -> & _). simpl in Hm. pose proof (prefix_len_le dot t).
    destruct (drop n t) as [|c u] eqn:E; simplify_eq/=.
    apply (f_equal length) in E. rewrite length_drop in E. simpl in E.
    assert (n = length t) as -> by lia. rewrite take_ge by done. splits; try done.
    + intros ->. simpl in *. lia.
    + apply prefix_len_all. lia.
  - intros (Hne & Hd & -> & ->). exists (length t), [].
    rewrite drop_ge, take_ge by done. splits; try done.
    + destruct t; [done|simpl; lia].
    + apply prefix_len_all in Hd. lia.
    + intros m Hm. simpl. destruct (drop m t) eqn:E; [|done].
      apply (f_equal length) in E. rewrite length_drop in E. simpl in E. lia.
Qed.

Lemma match_value t caps r :
  match_items true [Lit 61; Rep dot 1 false true] t = Some (caps, r) <->
  exists v, t = 61 :: v /\ v <> [] /\ Forall (fun c => dot c = true) v /\ caps = [v] /\ r = [].
Proof.
  destruct t as [|c t]; [split; [done|by intros (? & ? & _)]|].
  change (match_items true [Lit 61; Rep dot 1 false true] (c :: t))
    with (if c =? 61 then match_items true [Rep dot 1 false true] t else None).
  destruct (Z.eqb_spec c 61) as [->|Hne].
  - rewrite match_lazy_full. split; [eauto 10|].
    intros (v & E & ?). by simplify_eq.
  - split; [done|]. intros (v & E & _). by simplify_eq.
Qed.

Lemma match_value_None u v :
  61 ∉ tail u -> u <> [] -> forall m, (1 <= m < length u)%nat ->
  match_items true [Lit 61; Rep dot 1 false true] (drop m (u ++ 61 :: v)) = None.
Proof.
  intros Hu Hne m Hm. rewrite drop_app_le by lia.
  destruct (drop m u) as [|c w] eqn:E.
  { apply (f_equal length) in E. rewrite length_drop in E. simpl in E. lia. }
  assert (c <> 61) as Hc.
  { intros ->. apply Hu. destruct u as [|a u]; [done|]. destruct m as [|m]; [lia|].
    simpl in E |- *. apply (list_elem_of_lookup_2 _ m).
    pose proof (lookup_drop u m 0) as L. rewrite E, Nat.add_0_r in L. done. }
  simpl. by rewrite (proj2 (Z.eqb_neq c 61) Hc).
Qed.

(** The key a lazy match finds stops at the first possible equals sign. *)
Lemma shortest_key s n w :
  (1 <= n <= prefix_len dot s)%nat -> drop n s = 61 :: w -> w <> [] ->
  Forall (fun c => dot c = true) w ->
  (forall m, (1 <= m < n)%nat ->
     match_items true [Lit 61; Rep dot 1 false true] (drop m s) = None) ->
  61 ∉ tail (take n s).
Proof.
  intros Hb Ew Hne Hd Hmin (i & Hi)%list_elem_of_lookup.
  assert (take n s !! S i = Some 61) as Hi' by (destruct (take n s); [done|exact Hi]).
  pose proof (lookup_lt_Some _ _ _ Hi') as Hlt. rewrite length_take in Hlt.
  rewrite lookup_take_lt in Hi' by lia.
  assert (s = take n s ++ 61 :: w) as Es by (rewrite <-Ew; symmetry; apply take_drop).
  assert (match_items true [Lit 61; Rep dot 1 false true] (drop (S i) s)
          = Some ([drop (S (S i)) s], [])) as Hsome; [|rewrite Hmin in Hsome by lia; done].
  apply match_value. exists (drop (S (S i)) s). splits; try done.
  - by apply drop_S.
  - intros E. apply (f_equal length) in E, Ew. rewrite length_drop in E, Ew.
    destruct w; [done|]. simpl in *. lia.
  - rewrite Es, drop_app. apply Forall_app. split.
    + apply Forall_drop, prefix_len_take. lia.
    + apply Forall_drop. by constructor.
Qed.

(** C37. The meaning of the argument pattern.  An argument is accepted exactly
    when it is two dashes, a key, an equals sign and a value, both non-empty
    and without line breaks; the key ends at the first equals sign that is
    not its first character, so the value keeps any later ones. *)
Theorem parse_arg_spec (s k v : list Z) :
  parse_arg s = Some (k, v) <->
  s = [45; 45] ++ k ++ [61] ++ v /\ k <> [] /\ v <> [] /\ (61 ∉ tail k) /\
  Forall (fun c => dot c = true) (k ++ v).
Proof.
  unfold parse_arg, regex_match.
  destruct s as [|a [|b s]]; [split; [done|intros [E _]; done]|..].
  { split; [simpl; by destruct (a =? 45)|intros [E _]; done]. }
  change (match_items true arger (a :: b :: s)) with
    (if a =? 45 then if b =? 45 then
       match_items true [Rep dot 1 false true; Lit 61; Rep dot 1 false true] s else None else None).
  destruct (Z.eqb_spec a 45) as [->|]; [|split; [done|intros [E _]; simpl in E; congruence]].
  destruct (Z.eqb_spec b 45) as [->|]; [|split; [done|intros [E _]; simpl in E; congruence]].
  split.
  - destruct (match_items _ _ s) as [[caps r]|] eqn:E; simpl; [|done].
    apply match_lazy in E as (n & caps' & Hb & (w & Ew & Hne & Hd & -> & ->)%match_value & -> & Hmin).
    intros [= <- <-]. pose proof (prefix_len_le dot s).
    assert (s = take n s ++ 61 :: w) as Es by (rewrite <-Ew; symmetry; apply take_drop).
    splits; [by rewrite Es at 1| |done| |].
    + intros E. apply (f_equal length) in E. rewrite length_take in E. simpl in E. lia.
    + by eapply shortest_key.
    + apply Forall_app. split; [|done]. apply prefix_len_take. lia.
  - intros (E & Hk & Hv & H61 & [Hdk Hdv]%Forall_app). simpl in E. injection E as ->.
    assert (match_items true [Rep dot 1 false true; Lit 61; Rep dot 1 false true]
              (k ++ 61 :: v) = Some ([k; v], [])) as ->; [|done].
    apply match_lazy. exists (length k), [v].
    rewrite drop_app_length, take_app_length. splits; try done.
    + destruct k; [done|simpl; lia].
    + rewrite prefix_len_app by done. lia.
    + apply match_value. eauto 10.
    + intros m Hm. by apply match_value_None.
Qed.

Fixpoint first_binding (k : list Z) (kvs : list (list Z * list Z)) : option (list Z) :=
  match kvs with
  | [] => None
  | (k', v) :: kvs' => if decide (k' = k) then Some v else first_binding k kvs'
  end.

Lemma options_emplace_lookup (k k' v : list Z) (o : options_t) :
  options_emplace k' v o !! k =
  match o !! k with Some w => Some w | None => if decide (k' = k) then Some v else None end.
Proof.
  unfold options_emplace. destruct (o !! k') eqn:E; case_decide as Hk; subst.
  - by rewrite E.
  - by destruct (o !! k).
  - by rewrite lookup_insert_eq, E.
  - rewrite lookup_insert_ne by done. by destruct (o !! k).
Qed.

Lemma parse_args_spec argv : forall o : options_t,
  match parse_args argv o with
  | inr o' => exists kvs, Forall2 (fun s kv => parse_arg s = Some kv) argv kvs /\
      forall k, o' !! k = match o !! k with Some v => Some v | None => first_binding k kvs end
  | inl s => exists pre post kvs, argv = pre ++ s :: post /\
      Forall2 (fun s kv => parse_arg s = Some kv) pre kvs /\ parse_arg s = None
  end.
Proof.
  induction argv as [|s argv IH]; intros o; simpl.
  - exists []. split; [done|]. intros k. by destruct (o !! k).
  - destruct (parse_arg s) as [[k' v]|] eqn:E.
    + specialize (IH (options_emplace k' v o)).
      destruct (parse_args argv _) as [bad|o'].
      * destruct IH as (pre & post & kvs & -> & H & Hb).
        exists (s :: pre), post, ((k', v) :: kvs). auto.
      * destruct IH as (kvs & H & Hl). exists ((k', v) :: kvs). split; [by constructor|].
        intros k. rewrite Hl, options_emplace_lookup. simpl.
        destruct (o !! k); [done|]. by case_decide.
    + exists [], argv, []. auto.
Qed.

(** The options [main] builds.  Either every argument has the form of the
    pattern, and an option's value is the first one given for it, or the
    exception names the first argument that has not that form. *)
Theorem main_options (argv : list (list Z)) :
  match parse_args argv ∅ with
  | inr o => exists kvs, Forall2 (fun s kv => parse_arg s = Some kv) argv kvs /\
      forall k, o !! k = first_binding k kvs
  | inl s => exists pre post kvs, argv = pre ++ s :: post /\
      Forall2 (fun s kv => parse_arg s = Some kv) pre kvs /\ parse_arg s = None
  end.
Proof.
  pose proof (parse_args_spec argv ∅) as H. destruct (parse_args argv ∅); [done|].
  destruct H as (kvs & H & Hl). exists kvs. split; [done|]. intros k. by rewrite Hl, lookup_empty.
Qed.

(** ** The columns of [/proc/net/wireless] *)

(** The maximal runs of characters other than blanks; [cur] is the run under
    way. *)
Fixpoint words_from (cur : list Z) (s : list Z) : list (list Z) :=
  match s with
  | [] => if is_nil cur then [] else [cur]
  | c :: s' =>
      if is_blank c then (if is_nil cur then [] else [cur]) ++ words_from [] s'
      else words_from (cur ++ [c]) s'
  end.
Definition words (s : list Z) : list (list Z) := words_from [] s.

(** The pattern for [n] more columns after the first. *)
Fixpoint columns (n : nat) : list item :=
  match n with
  | O => [word; trail]
  | S n' => word :: gap :: columns n'
  end.

Lemma wireless_pattern_columns : wireless_pattern = columns 10.
Proof. reflexivity. Qed.

Lemma blank_run s : exists b r, s = b ++ r /\ Forall (fun c => is_blank c = true) b /\
  (r = [] \/ exists c r', r = c :: r' /\ not_blank c = true).
Proof.
  induction s as [|c s (b & r & -> & Hb & Hr)].
  - exists [], []. auto.
  - destruct (is_blank c) eqn:E.
    + exists (c :: b), r. auto.
    + exists [], (c :: b ++ r). splits; [done|done|]. right. eexists _, _. split; [done|].
      unfold not_blank, is_blank in *. by rewrite E.
Qed.

Lemma word_run s : exists w r, s = w ++ r /\ Forall (fun c => not_blank c = true) w /\
  (r = [] \/ exists c r', r = c :: r' /\ is_blank c = true).
Proof.
  induction s as [|c s (b & r & -> & Hb & Hr)].
  - exists [], []. auto.
  - destruct (not_blank c) eqn:E.
    + exists (c :: b), r. auto.
    + exists [], (c :: b ++ r). splits; [done|done|]. right. eexists _, _. split; [done|].
      unfold not_blank, is_blank in *. by destruct (c =? 32).
Qed.

Lemma not_blank_is_blank c : not_blank c = negb (is_blank c).
Proof. done. Qed.

Lemma words_from_app w : forall cur r, Forall (fun c => not_blank c = true) w ->
  words_from cur (w ++ r) = words_from (cur ++ w) r.
Proof.
  induction w as [|c w IH]; intros cur r Hw; [by rewrite app_nil_r|].
  apply Forall_cons in Hw as [Hc Hw]. simpl. rewrite not_blank_is_blank in Hc.
  destruct (is_blank c); [done|]. rewrite IH by done. by rewrite <-app_assoc.
Qed.

Lemma words_blank b r : Forall (fun c => is_blank c = true) b -> words (b ++ r) = words r.
Proof. unfold words. induction 1 as [|c b Hc Hb IH]; simpl; [done|]. by rewrite Hc, IH. Qed.

Lemma words_word w r : w <> [] -> Forall (fun c => not_blank c = true) w ->
  (r = [] \/ exists c r', r = c :: r' /\ is_blank c = true) ->
  words (w ++ r) = w :: words r.
Proof.
  intros Hne Hw Hr. unfold words. rewrite words_from_app by done. simpl.
  destruct Hr as [->|(c & r' & -> & Hc)]; simpl; [by destruct w|]. rewrite Hc. by destruct w.
Qed.

Lemma prefix_len_stop cls w r : Forall (fun c => cls c = true) w ->
  (r = [] \/ exists c r', r = c :: r' /\ cls c = false) -> prefix_len cls (w ++ r) = length w.
Proof.
  intros Hw Hr. rewrite prefix_len_app by done.
  destruct Hr as [->|(c & r' & -> & Hc)]; simpl; [lia|]. rewrite Hc. lia.
Qed.

(** A column pattern cannot start at a blank. *)
Lemma columns_blank n c s : is_blank c = true -> match_items false (columns n) (c :: s) = None.
Proof.
  intros Hc. assert (not_blank c = false) as Hn by (by rewrite not_blank_is_blank, Hc).
  destruct n; apply match_rep_short; simpl; rewrite Hn; lia.
Qed.

Lemma columns_nil n : match_items false (columns n) [] = None.
Proof. destruct n; apply match_rep_short; simpl; lia. Qed.

Lemma drop_inside (cls : Z -> bool) w r m :
  Forall (fun c => cls c = true) w -> (m < length w)%nat ->
  exists c s, drop m (w ++ r) = c :: s /\ cls c = true.
Proof.
  intros Hw Hm. destruct (lookup_lt_is_Some_2 w m Hm) as [c Hc].
  exists c, (drop (S m) (w ++ r)). split.
  - apply drop_S. by rewrite lookup_app_l.
  - by eapply (Forall_lookup_1 (fun c => cls c = true)) in Hc.
Qed.

Lemma stop_not_blank r : (r = [] \/ exists c r', r = c :: r' /\ is_blank c = true) ->
  r = [] \/ exists c r', r = c :: r' /\ not_blank c = false.
Proof.
  intros [->|(c & r' & -> & Hc)]; [by left|right]. exists c, r'. split; [done|].
  by rewrite not_blank_is_blank, Hc.
Qed.

Lemma stop_blank r : (r = [] \/ exists c r', r = c :: r' /\ not_blank c = true) ->
  r = [] \/ exists c r', r = c :: r' /\ is_blank c = false.
Proof.
  intros [->|(c & r' & -> & Hc)]; [by left|right]. exists c, r'. split; [done|].
  rewrite not_blank_is_blank in Hc. by destruct (is_blank c).
Qed.

Lemma no_run r :
  (r = [] \/ exists c r', r = c :: r' /\ is_blank c = true) ->
  (r = [] \/ exists c r', r = c :: r' /\ not_blank c = true) -> r = [].
Proof.
  intros [?|(c & r' & E & Hc)] [?|(c' & r'' & E' & Hc')]; [done..|].
  simplify_eq. by rewrite not_blank_is_blank, Hc in Hc'.
Qed.

(** [word] followed by [gap] takes a whole word. *)
Lemma match_word_gap items w r :
  w <> [] -> Forall (fun c => not_blank c = true) w ->
  (r = [] \/ exists c r', r = c :: r' /\ is_blank c = true) ->
  match_items false (word :: gap :: items) (w ++ r) =
    '(caps, r') ← match_items false (gap :: items) r; Some (w :: caps, r').
Proof.
  intros Hne Hw Hr. pose proof (prefix_len_stop not_blank w r Hw (stop_not_blank r Hr)) as El.
  unfold word. rewrite match_greedy; rewrite El.
  - by rewrite drop_app_length, take_app_length.
  - destruct w; [done|simpl; lia].
  - intros m Hm. destruct (drop_inside not_blank w r m Hw) as (c & s & -> & Hc); [lia|].
    apply match_rep_short. rewrite not_blank_is_blank in Hc. simpl.
    destruct (is_blank c); [done|lia].
Qed.

(** [gap] before a column takes a whole run of blanks. *)
Lemma match_gap_columns n b r :
  b <> [] -> Forall (fun c => is_blank c = true) b ->
  (r = [] \/ exists c r', r = c :: r' /\ not_blank c = true) ->
  match_items false (gap :: columns n) (b ++ r) = match_items false (columns n) r.
Proof.
  intros Hne Hb Hr. pose proof (prefix_len_stop is_blank b r Hb (stop_blank r Hr)) as El.
  unfold gap. rewrite match_greedy; rewrite El.
  - rewrite drop_app_length. by destruct (match_items false (columns n) r) as [[]|].
  - destruct b; [done|simpl; lia].
  - intros m Hm. destruct (drop_inside is_blank b r m Hb) as (c & s & -> & Hc); [lia|].
    by apply columns_blank.
Qed.

Lemma match_last_word w r :
  w <> [] -> Forall (fun c => not_blank c = true) w ->
  (r = [] \/ exists c r', r = c :: r' /\ is_blank c = true) ->
  fst <$> match_items false [word; trail] (w ++ r) = Some [w].
Proof.
  intros Hne Hw Hr. pose proof (prefix_len_stop not_blank w r Hw (stop_not_blank r Hr)) as El.
  change (match_items false [word; trail] (w ++ r)) with
    (first_some (fun n => '(caps, r') ← match_items false [trail] (drop n (w ++ r));
       Some (take n (w ++ r) :: caps, r')) (candidates true 1 (prefix_len not_blank (w ++ r)))).
  rewrite El. unfold candidates. assert (length w <> O) by (by destruct w).
  replace (S (length w) - 1)%nat with (length w - 1 + 1)%nat by lia.
  rewrite seq_app, reverse_app. simpl.
  replace (S (length w - 1)) with (length w) by lia.
  rewrite drop_app_length, take_app_length.
  assert (exists r', match_items false [trail] r = Some ([], r')) as [r' E].
  { cbn [match_items trail]. unfold candidates. rewrite Nat.sub_0_r, seq_S, reverse_snoc. by eexists. }
  unfold trail in E. simpl in E. rewrite E. done.
Qed.

(** What [n + 1] columns match where a word starts. *)
Lemma match_columns n : forall w r,
  w <> [] -> Forall (fun c => not_blank c = true) w ->
  (r = [] \/ exists c r', r = c :: r' /\ is_blank c = true) ->
  fst <$> match_items false (columns n) (w ++ r) =
    if decide (S n <= length (words (w ++ r)))%nat then Some (take (S n) (words (w ++ r))) else None.
Proof.
  induction n as [|n IH]; intros w r Hne Hw Hr; rewrite (words_word w r) by done.
  { cbn [columns]. rewrite match_last_word, decide_True by (done || simpl; lia). done. }
  cbn [columns]. rewrite match_word_gap by done.
  destruct (blank_run r) as (b & r2 & -> & Hb & Hr2).
  rewrite words_blank by done. simpl length.
  destruct (decide (b = [])) as [->|Hbne].
  { simpl in Hr. assert (r2 = []) as -> by by apply no_run.
    unfold gap. rewrite match_rep_short, decide_False by (simpl; lia). done. }
  rewrite match_gap_columns by done.
  destruct Hr2 as [->|(c & r' & Er & Hc)].
  { rewrite columns_nil, decide_False by (simpl; lia). done. }
  destruct (word_run r2) as (w2 & r3 & E2 & Hw2 & Hr3).
  assert (w2 <> []) as Hne2.
  { intros ->. simpl in E2. subst r3. assert (r2 = []) as -> by (apply no_run; eauto). done. }
  rewrite E2. specialize (IH w2 r3 Hne2 Hw2 Hr3).
  destruct (match_items false (columns n) (w2 ++ r3)) as [[caps rr]|];
    cbn [fmap option_fmap option_map mbind option_bind fst] in *; case_decide; try done.
  - rewrite decide_True by lia. injection IH as ->. done.
  - by rewrite decide_False by lia.
Qed.

Lemma words_from_length s : forall cur1 cur2,
  (cur2 = [] -> cur1 = []) ->
  (length (words_from cur1 s) <= length (words_from cur2 s))%nat.
Proof.
  induction s as [|c s IH]; intros cur1 cur2 Hc; simpl.
  - destruct cur2; [by rewrite Hc|]. destruct cur1; simpl; lia.
  - destruct (is_blank c).
    + rewrite !length_app. destruct cur2; [rewrite Hc by done; lia|]. destruct cur1; simpl; lia.
    + apply IH. by destruct cur2.
Qed.

(** Words joined by single blanks. *)
Fixpoint unwords (ws : list (list Z)) : list Z :=
  match ws with
  | [] => []
  | [w] => w
  | w :: ws' => w ++ 32 :: unwords ws'
  end.

Definition is_word (w : list Z) : Prop := w <> [] /\ Forall (fun c => not_blank c = true) w.

Lemma words_unwords ws : Forall is_word ws -> words (unwords ws) = ws.
Proof.
  induction 1 as [|w ws [Hne Hw] Hws IH]; [done|]. destruct ws as [|w' ws].
  - simpl. rewrite <-(app_nil_r w) at 1. rewrite words_word by (done || by left). done.
  - change (unwords (w :: w' :: ws)) with (w ++ 32 :: unwords (w' :: ws)).
    rewrite words_word by (done || right; eexists _, _; done). f_equal. exact IH.
Qed.

Lemma digits_word ds : ds <> [] -> Forall (fun c => is_digit c = true) ds -> is_word ds.
Proof.
  intros Hne Hd. split; [done|]. eapply Forall_impl; [done|]. intros c. unfold is_digit, not_blank. lia.
Qed.

Lemma dec_is_word v : 0 <= v -> is_word (dec v).
Proof. intros Hv. apply digits_word; [by apply dec_nonempty|by apply dec_digits]. Qed.

Lemma dec_signed_is_word v : is_word (dec_signed v).
Proof.
  unfold dec_signed. destruct (Z.ltb_spec v 0); [|by apply dec_is_word].
  destruct (dec_is_word (- v)) as [_ Hw]; [lia|]. split; [done|]. by constructor.
Qed.

(** The meaning of the wireless pattern.  On any line the search succeeds
    exactly when the line has eleven blank-separated words, and its groups are
    the first eleven of them: no backtracking ever splits a word. *)
Theorem wireless_columns (line : list Z) :
  tail <$> regex_search wireless_pattern line =
    if decide (11 <= length (words line))%nat then Some (take 11 (words line)) else None.
Proof.
  rewrite wireless_pattern_columns. induction line as [|c s IH].
  { cbn [regex_search]. rewrite columns_nil. by rewrite decide_False by (simpl; lia). }
  cbn [regex_search]. destruct (is_blank c) eqn:Ec.
  { rewrite columns_blank, IH by done. unfold words. cbn [words_from]. by rewrite Ec. }
  destruct (word_run (c :: s)) as (w & r & E & Hw & Hr).
  assert (w <> []) as Hne.
  { intros ->. simpl in E. subst r. destruct Hr as [?|(c' & r' & ? & ?)]; [done|]. congruence. }
  pose proof (match_columns 10 w r Hne Hw Hr) as Hm. rewrite <-E in Hm.
  destruct (match_items false (columns 10) (c :: s)) as [[caps rr]|] eqn:Em.
  - exact Hm.
  - case_decide as Hd; [done|]. rewrite IH, decide_False; [done|].
    pose proof (words_from_length s [] [c] ltac:(done)). unfold words in *. simpl in Hd. rewrite Ec in Hd.
    simpl in Hd. lia.
Qed.
