(* ===== verification/App.v ===== *)
(** * The rover application: [rover/src/app.hpp] and [rover/src/app.cpp]

    [main_app] turns joystick positions into motor duties, watches over the
    motors, the battery and the temperatures, and answers the browser.  Its
    three producer threads (UDP, timer, web socket) parse and enqueue, and run
    the LED command themselves; [run] dispatches the queue.  The calls on the
    slave exclude each other by its mutex, so a call is one step.
    Every handler is a function of the state; its environment (files, clock,
    the text of floating-point numbers) is an argument or a field of
    [Platform]. *)
From S2P Require Import Prelude Messages Arduino Double Text Regex.
From S2P Require Firmware Filter WsServer.

(** What the C++ implementation leaves open and the program depends on:
    whether [char] is signed, the width of [unsigned long], the conversion
    [std::stof] and the output of a [double]. *)
Class Platform := {
  char_signed : bool;
  ulong_bits : Z;
  stof : list Z -> outcome spec_float;
  show_double : double -> list Z }.

(** ** Data *)
Record js_data_t := JsData {
  left_x : Z; right_x : Z; left_y : Z; right_y : Z }.

(** [queue_msg_t]: a [TTY] message is never sent. *)
Inductive queue_msg_t := JS (js_data : js_data_t) | TIMER (timer : Z).

Definition PIN_HBRIDGE_A : Z := 3.
Definition PIN_HBRIDGE_B : Z := 5.
Definition PIN_HBRIDGE_C : Z := 6.
Definition PIN_HBRIDGE_D : Z := 9.
Definition PIN_LED : Z := 10.
Definition PIN_BATT : Z := 14.
(** [OUTPUT] of the wiringPi header. *)
Definition OUTPUT : Z := 1.

Definition R_BATT_TOP : double := d_of_Z 47000.
Definition R_BATT_BOT : double := d_of_Z 10000.
Definition V_REF : double := d_lit 333 2.

Definition TIMER_PERIOD_US : Z := 1000.
Definition TIMER_CI_WDT : Z := 500.
Definition TIMER_CI_FAN : Z := 1000.
Definition TIMER_CI_THR : Z := 10.
Definition TIMER_CI_THR_PRNT : Z := 1000.
Definition TIMER_CI_BATT : Z := 1000.
Definition TIMER_CI_SLAVE_TRX : Z := 1000.
Definition TIMER_CI_WLAN : Z := 100.
Definition VBAT_FILTER_SIZE : Z := 5.

(** The timer counters. *)
Record counters := Counters {
  timer_cx_wdt : Z; timer_cx_fan : Z; timer_cx_thr : Z; timer_cx_thr_prnt : Z;
  timer_cx_batt : Z; timer_cx_slave_trx : Z; timer_cx_wlan : Z }.

(** The tunable parameters of the motors and of their thermal model. *)
Record config := Config {
  PWM_RANGE : Z; PWM_POWER : double; HEAT_TRANSFER_KA : double;
  SPECIFIC_HEAT : double; MASS : double }.

Record thermal := Thermal {
  heat : double; thr_limit : double; ambient : double; mot_temp : double }.

(** [vbat] and [vbat_slope] have no initial value. *)
Record battery := Battery {
  vbat : option double; vbat_slope : option double;
  vbat_csv : list (Z * double * double); vbat_s0 : Z;
  vbatfb : Filter.averaging_filter; vbatfb2 : Filter.averaging_filter }.

Record telemetry := Telemetry {
  left_pwm : Z; right_pwm : Z; fan_pwm : Z; led_pwm : Z;
  soc_temp : double; wifi_quality : Z; wifi_signal : Z; slave_trx : Z * Z }.

(** [main_app]; the queue is the socket pair. *)
Record main_app (P : Type) := MainApp {
  conf : config; cx : counters; therm : thermal; batt : battery; tel : telemetry;
  slave : ArduinoSlave P; queue : list queue_msg_t }.
Arguments MainApp {P}.
Arguments conf {P}. Arguments cx {P}. Arguments therm {P}. Arguments batt {P}.
Arguments tel {P}. Arguments slave {P}. Arguments queue {P}.

(** What a handler finds outside: the two files (absent, or their text) and
    the clock in seconds. *)
Record environment := Environment {
  thermal_zone : option (list Z); net_wireless : option (list Z); s_epoch : Z }.

(** ** Field updates *)
Section Updates.
Context {P : Type}.
Implicit Types a : main_app P.

Definition set_cx (c : counters) a : main_app P :=
  MainApp (conf a) c (therm a) (batt a) (tel a) (slave a) (queue a).
Definition set_therm (t : thermal) a : main_app P :=
  MainApp (conf a) (cx a) t (batt a) (tel a) (slave a) (queue a).
Definition set_batt (b : battery) a : main_app P :=
  MainApp (conf a) (cx a) (therm a) b (tel a) (slave a) (queue a).
Definition set_tel (t : telemetry) a : main_app P :=
  MainApp (conf a) (cx a) (therm a) (batt a) t (slave a) (queue a).
Definition set_slave (s : ArduinoSlave P) a : main_app P :=
  MainApp (conf a) (cx a) (therm a) (batt a) (tel a) s (queue a).
Definition set_queue (q : list queue_msg_t) a : main_app P :=
  MainApp (conf a) (cx a) (therm a) (batt a) (tel a) (slave a) q.

Definition set_wdt (n : Z) (c : counters) : counters :=
  Counters n (timer_cx_fan c) (timer_cx_thr c) (timer_cx_thr_prnt c) (timer_cx_batt c)
    (timer_cx_slave_trx c) (timer_cx_wlan c).
Definition set_fan (n : Z) (c : counters) : counters :=
  Counters (timer_cx_wdt c) n (timer_cx_thr c) (timer_cx_thr_prnt c) (timer_cx_batt c)
    (timer_cx_slave_trx c) (timer_cx_wlan c).
Definition set_thr (n : Z) (c : counters) : counters :=
  Counters (timer_cx_wdt c) (timer_cx_fan c) n (timer_cx_thr_prnt c) (timer_cx_batt c)
    (timer_cx_slave_trx c) (timer_cx_wlan c).
Definition set_thr_prnt (n : Z) (c : counters) : counters :=
  Counters (timer_cx_wdt c) (timer_cx_fan c) (timer_cx_thr c) n (timer_cx_batt c)
    (timer_cx_slave_trx c) (timer_cx_wlan c).
Definition set_cx_batt (n : Z) (c : counters) : counters :=
  Counters (timer_cx_wdt c) (timer_cx_fan c) (timer_cx_thr c) (timer_cx_thr_prnt c) n
    (timer_cx_slave_trx c) (timer_cx_wlan c).
Definition set_trx (n : Z) (c : counters) : counters :=
  Counters (timer_cx_wdt c) (timer_cx_fan c) (timer_cx_thr c) (timer_cx_thr_prnt c)
    (timer_cx_batt c) n (timer_cx_wlan c).
Definition set_wlan (n : Z) (c : counters) : counters :=
  Counters (timer_cx_wdt c) (timer_cx_fan c) (timer_cx_thr c) (timer_cx_thr_prnt c)
    (timer_cx_batt c) (timer_cx_slave_trx c) n.

Definition set_motor_pwm (l r : Z) (t : telemetry) : telemetry :=
  Telemetry l r (fan_pwm t) (led_pwm t) (soc_temp t) (wifi_quality t) (wifi_signal t) (slave_trx t).
Definition set_fan_pwm (n : Z) (t : telemetry) : telemetry :=
  Telemetry (left_pwm t) (right_pwm t) n (led_pwm t) (soc_temp t) (wifi_quality t)
    (wifi_signal t) (slave_trx t).
Definition set_led_pwm (n : Z) (t : telemetry) : telemetry :=
  Telemetry (left_pwm t) (right_pwm t) (fan_pwm t) n (soc_temp t) (wifi_quality t)
    (wifi_signal t) (slave_trx t).
Definition set_soc_temp (x : double) (t : telemetry) : telemetry :=
  Telemetry (left_pwm t) (right_pwm t) (fan_pwm t) (led_pwm t) x (wifi_quality t)
    (wifi_signal t) (slave_trx t).
Definition set_wifi (q s : Z) (t : telemetry) : telemetry :=
  Telemetry (left_pwm t) (right_pwm t) (fan_pwm t) (led_pwm t) (soc_temp t) q s (slave_trx t).
Definition set_slave_trx (p : Z * Z) (t : telemetry) : telemetry :=
  Telemetry (left_pwm t) (right_pwm t) (fan_pwm t) (led_pwm t) (soc_temp t) (wifi_quality t)
    (wifi_signal t) p.
End Updates.

Section App.
Context {P : Type} `{SerialPort P} `{Platform}.
Implicit Types a : main_app P.

(** A call on the slave; duties, pins and timers are converted to [uint8_t]
    by the parameter types. *)
Definition slave_call (c : call) a : outcome (main_app P) :=
  s ← defined (run_call c (slave a)); Ret (set_slave s a).

Fixpoint slave_calls (cs : list call) a : outcome (main_app P) :=
  match cs with
  | [] => Ret a
  | c :: cs' => a ← slave_call c a; slave_calls cs' a
  end.

(** [send(queue_socks[QUEUE_SOCK_OUT], &msg, ...)] *)
Definition enqueue (m : queue_msg_t) a : main_app P := set_queue (queue a ++ [m]) a.

(** ** The LED: shared by [handle_cmd] and [handle_ws]

    [unsigned pwm; ss >> pwm; led_pwm = pwm; slave.pwmDuty(1, 1, led_pwm*255/100);]
    [pwm] has no value when the extraction does not write it. *)
Definition led_command (ss : istream) a : outcome (main_app P) :=
  pwm ← defined (extract_unsigned ss).1;
  let a := set_tel (set_led_pwm pwm (tel a)) a in
  slave_call (CallPwmDuty 1 1 (u8 (u32 (led_pwm (tel a) * 255) / 100))) a.

(** ** handle_cmd

    [cmdline] is the whole receive buffer: [std::stringstream ss(cmdline)]
    reads up to its first NUL. *)
Definition handle_cmd (cmdline : list Z) a : outcome (main_app P) :=
  text ← defined (cstring cmdline);
  let '(cmd, ss) := extract_word (stringstream text) in
  if decide (cmd = str "led") then led_command ss a else Ret a.

(** ** handle_udp *)
Definition to_char (b : Z) : Z := if char_signed && (128 <=? b) then b - 256 else b.

(** The four additions to an [unsigned], and the conversion of the difference
    to [int]. *)
Definition axis (c0 c1 c2 c3 : Z) : Z :=
  let v := u32 ((c0 - 48) * 1000) in
  let v := u32 (v + (c1 - 48) * 100) in
  let v := u32 (v + (c2 - 48) * 10) in
  let v := u32 (v + (c3 - 48) * 1) in
  i32 (v - 1500).

Definition parse_js (data : list Z) : option js_data_t :=
  match to_char <$> data with
  | a0 :: a1 :: a2 :: a3 :: b0 :: b1 :: b2 :: b3 ::
    c0 :: c1 :: c2 :: c3 :: d0 :: d1 :: d2 :: d3 :: _ =>
      Some (JsData (axis a0 a1 a2 a3) (axis c0 c1 c2 c3) (axis b0 b1 b2 b3) (axis d0 d1 d2 d3))
  | _ => None
  end.

Definition handle_udp (buffer : list Z) a : outcome (main_app P) :=
  c ← defined (to_char <$> head buffer);
  if (c <? 48) || (57 <? c) then handle_cmd buffer a
  else js ← defined (parse_js buffer); Ret (enqueue (JS js) a).

(** ** run_udp: one iteration

    [recvfrom] overwrites the start of the 1024 octets of [rcv_raw_buffer];
    the handler is given all of them. *)
Definition run_udp (datagram rcv_raw_buffer : list Z) a : outcome (list Z * main_app P) :=
  let rcv_raw_buffer := overwrite (take 1024 datagram) rcv_raw_buffer in
  a ← handle_udp rcv_raw_buffer a; Ret (rcv_raw_buffer, a).

(** ** run_timer: one iteration *)
Definition run_timer (now_us : Z) a : main_app P := enqueue (TIMER now_us) a.

(** ** handle_js *)
Definition stick_pwm (y : Z) (c : config) (t : thermal) : option Z :=
  let y' := ddiv (dmul (d_of_Z y) (d_of_Z 1)) (d_of_Z 500) in
  d_to_u32 (dmul (dmul (dabs y') (d_of_Z (PWM_RANGE c))) (thr_limit t)).

Definition stick_is_fwd (y : Z) : bool :=
  dlt (d_of_Z 0) (ddiv (dmul (d_of_Z y) (d_of_Z 1)) (d_of_Z 500)).

Definition js_calls (js : js_data_t) (l r : Z) : list call :=
  (if stick_is_fwd (left_y js)
   then [CallPwmDuty 2 1 (u8 l); CallPwmDuty 0 1 0]
   else [CallPwmDuty 2 1 0; CallPwmDuty 0 1 (u8 l)]) ++
  (if stick_is_fwd (right_y js)
   then [CallPwmDuty 0 0 0; CallPwmDuty 1 0 (u8 r)]
   else [CallPwmDuty 0 0 (u8 r); CallPwmDuty 1 0 0]).

Definition handle_js (js : js_data_t) a : outcome (main_app P) :=
  let a := set_cx (set_wdt 0 (cx a)) a in
  l ← defined (stick_pwm (left_y js) (conf a) (therm a));
  r ← defined (stick_pwm (right_y js) (conf a) (therm a));
  let a := set_tel (set_motor_pwm l r (tel a)) a in
  slave_calls (js_calls js l r) a.

(** ** handle_timer, one definition per task *)

(** The watchdog. *)
Definition stop_calls : list call :=
  [CallPwmDuty 2 1 0; CallPwmDuty 0 1 0; CallPwmDuty 0 0 0; CallPwmDuty 1 0 0].

Definition timer_wdt a : outcome (main_app P) :=
  let a := set_cx (set_wdt (u32 (timer_cx_wdt (cx a) + 1)) (cx a)) a in
  if TIMER_CI_WDT <=? timer_cx_wdt (cx a) then
    a ← slave_calls stop_calls a;
    Ret (set_cx (set_wdt 0 (cx a)) a)
  else Ret a.

(** The thermal model of the motors. *)
Definition thermal_step (c : config) (l r : Z) (t : thermal) : thermal :=
  let dt := ddiv (dmul (d_of_Z (u32 (TIMER_CI_THR * (TIMER_PERIOD_US / 1000)))) (d_of_Z 1))
              (d_of_Z 1000) in
  let pwm_power := ddiv (dmul (PWM_POWER c) (d_of_Z (u32 (l + r))))
                     (d_of_Z (u32 (2 * PWM_RANGE c))) in
  let heat_in := dmul (dmul dt pwm_power) (d_of_Z 1) in
  let heat' := dadd (heat t) heat_in in
  let temp := dadd (ambient t) (ddiv heat' (dmul (SPECIFIC_HEAT c) (MASS c))) in
  let heat_out := dmul (HEAT_TRANSFER_KA c) (dsub temp (ambient t)) in
  Thermal (dsub heat' heat_out) (thr_limit t) (ambient t) temp.

Definition timer_thr a : main_app P :=
  let a := set_cx (set_thr (u32 (timer_cx_thr (cx a) + 1)) (cx a)) a in
  if TIMER_CI_THR <=? timer_cx_thr (cx a) then
    let a := set_therm (thermal_step (conf a) (left_pwm (tel a)) (right_pwm (tel a)) (therm a)) a in
    let a := if TIMER_CI_THR_PRNT <=? timer_cx_thr_prnt (cx a)
             then set_cx (set_thr_prnt 0 (cx a)) a else a in
    set_cx (set_thr_prnt (u32 (timer_cx_thr_prnt (cx a) + 1)) (cx a)) a
  else a.

(** The temperature of the processor and the fan.  A file that does not open
    leaves a stream on which every extraction fails. *)
Definition file_stream (content : option (list Z)) : istream :=
  match content with Some text => stringstream text | None => IStream [] true false end.

(** [float temp = temp_raw*1.0/1000;] *)
Definition celsius (temp_raw : Z) : spec_float :=
  to_float (ddiv (dmul (d_of_Z temp_raw) (d_of_Z 1)) (d_of_Z 1000)).

(** [int pwm = (std::round(temp)-40)*2.5;] and its clamping. *)
Definition fan_duty (temp : spec_float) : option Z :=
  pwm ← d_to_i32 (dmul (of_float (fsub (f_round temp) (f_of_Z 40))) (d_lit 25 1));
  let pwm := if 0 <? pwm then pwm else 0 in
  Some (if pwm <? 100 then pwm else 100).

Definition timer_fan (e : environment) a : outcome (main_app P) :=
  let a := set_cx (set_fan (u32 (timer_cx_fan (cx a) + 1)) (cx a)) a in
  if TIMER_CI_FAN <=? timer_cx_fan (cx a) then
    let a := set_cx (set_fan 0 (cx a)) a in
    temp_raw ← defined (extract_int (file_stream (thermal_zone e))).1;
    let temp := celsius temp_raw in
    let a := set_tel (set_soc_temp (of_float temp) (tel a)) a in
    if SFltb (f_of_Z 0) temp then
      pwm ← defined (fan_duty temp);
      Ret (set_tel (set_fan_pwm (u32 pwm) (tel a)) a)
    else Ret a
  else Ret a.

(** The battery. *)
Definition battery_volts (raw_batt : Z) : double :=
  ddiv (dmul (dmul (ddiv (dadd R_BATT_BOT R_BATT_TOP) R_BATT_BOT) V_REF) (d_of_Z raw_batt))
    (d_of_Z 1024).

Definition battery_sample (vbat_raw : double) (now_s : Z) (b : battery) : option battery :=
  '(vbat_presmooth, fb) ← Filter.filter_call vbat_raw (vbatfb b);
  '(vbat_smooth, fb2) ← Filter.filter_call vbat_raw (vbatfb2 b);
  now ← Filter.last 0 fb2;
  before ← Filter.last (-60) fb2;
  let slope := ddiv (dmul (d_of_Z 1000) (dsub now before)) (d_of_Z 10) in
  Some (if vbat_s0 b =? now_s
        then Battery (Some vbat_presmooth) (Some slope) (vbat_csv b) (vbat_s0 b) fb fb2
        else Battery (Some vbat_presmooth) (Some slope)
               (vbat_csv b ++ [(now_s, vbat_raw, vbat_smooth)]) now_s fb fb2).

Definition timer_batt (e : environment) a : outcome (main_app P) :=
  let a := set_cx (set_cx_batt (u32 (timer_cx_batt (cx a) + 1)) (cx a)) a in
  if TIMER_CI_BATT <=? timer_cx_batt (cx a) then
    '(raw_batt, s) ← defined (analogRead PIN_BATT (slave a));
    let a := set_slave s a in
    if raw_batt =? 65535 then Ret a
    else
      let a := set_cx (set_cx_batt 0 (cx a)) a in
      b ← defined (battery_sample (battery_volts raw_batt) (s_epoch e) (batt a));
      Ret (set_batt b a)
  else Ret a.

(** The statistics of the slave. *)
Definition timer_slave_trx a : main_app P :=
  let a := set_cx (set_trx (u32 (timer_cx_slave_trx (cx a) + 1)) (cx a)) a in
  if TIMER_CI_SLAVE_TRX <=? timer_cx_slave_trx (cx a) then
    let a := set_cx (set_trx 0 (cx a)) a in
    let '(trx, s) := get_transaction_stats (slave a) in
    set_tel (set_slave_trx trx (tel a)) (set_slave s a)
  else a.

(** The wireless link: the lines [std::getline] delivers, and the third. *)
Fixpoint lines_from (cur : list Z) (text : list Z) : list (list Z) :=
  match text with
  | [] => if is_nil cur then [] else [cur]
  | c :: text' => if c =? 10 then cur :: lines_from [] text' else lines_from (cur ++ [c]) text'
  end.

Definition of_sto (r : sto_result) : outcome Z :=
  match r with
  | StoOk v => Ret v
  | StoInvalidArgument => Throw InvalidArgument
  | StoOutOfRange => Throw OutOfRange
  end.

(** The quality and the level a line holds, if it has the eleven columns. *)
Definition wireless_line (line : list Z) : outcome (option (Z * Z)) :=
  match regex_search wireless_pattern line with
  | Some cols =>
      if (4 <=? length cols)%nat then
        c3 ← defined (cols !! 3%nat);
        q ← of_sto (stoi c3);
        c4 ← defined (cols !! 4%nat);
        s ← of_sto (stoi c4);
        Ret (Some (q, s))
      else Ret None
  | None => Ret None
  end.

Definition wireless_file (content : option (list Z)) : outcome (option (Z * Z)) :=
  match lines_from [] (default [] content) !! 2%nat with
  | Some line => wireless_line line
  | None => Ret None
  end.

Definition timer_wlan (e : environment) a : outcome (main_app P) :=
  let a := set_cx (set_wlan (u32 (timer_cx_wlan (cx a) + 1)) (cx a)) a in
  if TIMER_CI_WLAN <=? timer_cx_wlan (cx a) then
    let a := set_cx (set_wlan 0 (cx a)) a in
    v ← wireless_file (net_wireless e);
    Ret (match v with Some (q, s) => set_tel (set_wifi q s (tel a)) a | None => a end)
  else Ret a.

Definition handle_timer (e : environment) a : outcome (main_app P) :=
  a ← timer_wdt a;
  let a := timer_thr a in
  a ← timer_fan e a;
  a ← timer_batt e a;
  let a := timer_slave_trx a in
  timer_wlan e a.

(** ** run: one iteration, which blocks while the queue is empty *)
Definition run (e : environment) a : option (outcome (main_app P)) :=
  match queue a with
  | [] => None
  | m :: q =>
      let a := set_queue q a in
      Some (match m with
            | JS js => handle_js js a
            | TIMER _ => handle_timer e a
            end)
  end.

(** ** handle_ws *)
Definition show_maybe (x : option double) : outcome (list Z) :=
  x ← defined x; Ret (show_double x).

(** The answer to [stats]; [vbat] is not initialised before the first
    sample. *)
Definition stats_text a : outcome (list Z) :=
  let t := tel a in
  vb ← show_maybe (vbat (batt a));
  vs ← show_maybe (vbat_slope (batt a));
  Ret (str "stats " ++ show_double (soc_temp t) ++ str " " ++ dec (fan_pwm t) ++ str " " ++
       dec (led_pwm t) ++ str " " ++ show_double (mot_temp (therm a)) ++ str " " ++
       dec (left_pwm t) ++ str " " ++ dec (right_pwm t) ++ str " " ++ vb ++ str " " ++
       vs ++ str " " ++ dec (slave_trx t).1 ++ str " " ++ dec (slave_trx t).2 ++ str " " ++
       dec_signed (wifi_quality t) ++ str " " ++ dec_signed (wifi_signal t) ++ [10]).

(** [left*5] overflows an [int] outside a fifth of its range. *)
Definition times5 (v : Z) : option Z := in_range (-2147483648) 2147483647 (v * 5).

Definition handle_ws (id : Z) (text : list Z) a (g : WsServer.ws_server) :
    outcome (main_app P * WsServer.ws_server) :=
  let '(cmd, ss) := extract_word (stringstream text) in
  if decide (cmd = str "stats") then
    reply ← stats_text a;
    Ret (a, (WsServer.ws_send id reply g).2)
  else if decide (cmd = str "js") then
    let '(l, ss) := extract_int ss in
    let '(r, ss) := extract_int ss in
    l ← defined l; l ← defined (times5 l);
    r ← defined r; r ← defined (times5 r);
    Ret (enqueue (JS (JsData 0 0 l r)) a, g)
  else if decide (cmd = str "led") then
    a ← led_command ss a; Ret (a, g)
  else Ret (a, g).

(** ** The constructors *)

(** [serialOpen]: no port when the device cannot be opened. *)
Definition new_ArduinoSlave (serialOpen : list Z -> Z -> option P) (o : options_t) :
    outcome (ArduinoSlave P) :=
  let sdev := default (str "/dev/serial0") (o !! str "sdev") in
  baud ← match o !! str "baud" with
         | Some v => b ← of_sto (stoul ulong_bits v); Ret (u32 b)
         | None => Ret 19200
         end;
  match serialOpen sdev baud with
  | Some p => Ret (new_slave p)
  | None => Throw RuntimeError
  end.

Definition stof_option (k : list Z) (o : options_t) (initial : double) : outcome double :=
  match o !! k with
  | Some v => x ← stof v; Ret (of_float x)
  | None => Ret initial
  end.

Definition startup_calls : list call :=
  [CallPinMode PIN_HBRIDGE_A OUTPUT; CallPinMode PIN_HBRIDGE_B OUTPUT;
   CallPinMode PIN_HBRIDGE_C OUTPUT; CallPinMode PIN_HBRIDGE_D OUTPUT;
   CallPinMode PIN_LED OUTPUT;
   CallInitPwm 2 1 1; CallInitPwm 0 1 1; CallInitPwm 0 0 1; CallInitPwm 1 0 1;
   CallInitPwm 1 1 1].

(** The members with their default initialisers, [vbatfb], [vbatfb2] and
    [slave] by the constructor's list. *)
Definition initial_app (c : config) (s : ArduinoSlave P) : main_app P :=
  MainApp c (Counters 0 0 0 0 0 0 0)
    (Thermal (d_of_Z 0) (d_of_Z 1) (d_of_Z 25) (d_of_Z 0))
    (Battery None None [] 0 (Filter.new_filter VBAT_FILTER_SIZE)
       (Filter.new_filter (VBAT_FILTER_SIZE * 50)))
    (Telemetry 0 0 0 0 (d_of_Z 0) 0 0 (0, 0)) s [].

(** The result also says which UDP port is bound.  [socketpair_ok] is the
    success of [socketpair]. *)
Definition new_main_app (serialOpen : list Z -> Z -> option P) (socketpair_ok : bool)
    (o : options_t) : outcome (Z * main_app P) :=
  s ← new_ArduinoSlave serialOpen o;
  udp_bind_port ← match o !! str "js_port" with
                  | Some v => p ← of_sto (stoul ulong_bits v); Ret (u16 p)
                  | None => Ret 11223
                  end;
  range ← match o !! str "pwmr" with
          | Some v => r ← of_sto (stoul ulong_bits v); Ret (u32 r)
          | None => Ret 255
          end;
  ka ← stof_option (str "ka") o (d_lit 1 6);
  c ← stof_option (str "c") o (d_lit 466 3);
  m ← stof_option (str "m") o (d_lit 6 2);
  p ← stof_option (str "p") o (d_lit 12 4);
  if negb socketpair_ok then Throw RuntimeError
  else
    p ← stof_option (str "vbat_csv") o p;
    a ← slave_calls startup_calls (initial_app (Config range p ka c m) s);
    Ret (udp_bind_port, a).
End App.
