(* ===== verification/AppProps.v ===== *)
(** * Properties of the rover application

    What [main_app] does to the motors, proved against the interface
    [SlaveDriver] of the serial client: the theorems speak of the registers of
    the device behind it.  The last section closes them over the line of
    [Link], with the firmware at its other end. *)
From S2P Require Import Prelude Messages Arduino Link Double Text Regex App.
From S2P Require Firmware Filter WsServer.

(** ** The outcome monad and calls of the slave *)
Lemma defined_Some {A} (o : option A) x : o = Some x -> defined o = Ret x.
Proof. by intros ->. Qed.

Definition call_ok (c : call) : Prop :=
  match call_request c with Some (r, _) => wf_request r | None => False end.

Definition requests (cs : list call) : list request :=
  omap (fun c => fst <$> call_request c) cs.

(** The duties of the four inputs of the H bridge, pins A to D. *)
Definition motor_regs : list Firmware.reg :=
  [Firmware.OCR2B; Firmware.OCR0B; Firmware.OCR0A; Firmware.OCR1A].

Section Props.
Context `{Firmware.AvrHeader} `{Firmware.ArduinoCore} {P : Type} `{SerialPort P}
  `{!SlaveDriver P} `{Platform}.
Implicit Types (a : main_app P) (d : Firmware.device) (s : ArduinoSlave P).

(** The effect of a sequence of requests. *)
Definition exec_all (rs : list request) d : Firmware.device :=
  fold_left (fun d q => Firmware.exec_request q d) rs d.

Lemma rget_exec_all r rs d : Firmware.is_duty_reg r = true ->
  Firmware.rget r (exec_all rs d) = Firmware.last_duty r rs (Firmware.rget r d).
Proof. apply Firmware.rget_exec_requests_duty. Qed.

Lemma slave_call_drives c r n a d :
  call_request c = Some (r, n) -> wf_request r -> drives d (slave a) ->
  exists s, slave_call c a = Ret (set_slave s a) /\ drives (Firmware.exec_request r d) s.
Proof.
  intros Hc Hr Hd. destruct (drives_call c r n d (slave a) Hc Hr Hd) as (s & E & Hs).
  exists s. unfold slave_call. by rewrite E.
Qed.

Lemma slave_calls_drives cs : forall a d,
  Forall call_ok cs -> drives d (slave a) ->
  exists s, slave_calls cs a = Ret (set_slave s a) /\ drives (exec_all (requests cs) d) s.
Proof.
  induction cs as [|c cs IH]; intros a d Hok Hd.
  { exists (slave a). split; [|done]. by destruct a. }
  apply Forall_cons in Hok as [Hc Hok]. unfold call_ok in Hc.
  destruct (call_request c) as [[r n]|] eqn:Ec; [|done].
  destruct (slave_call_drives c r n a d Ec Hc Hd) as (s & E & Hs).
  destruct (IH (set_slave s a) _ Hok Hs) as (s' & E' & Hs'). exists s'.
  simpl. rewrite Ec. simpl. rewrite E. simpl. by rewrite E'.
Qed.

(** ** The joystick *)

(** The duty of a stick at full range 255: [|y| * 255 / 500], cut to the
    [uint8_t] the slave takes. *)
Definition stick_quotient (y : Z) : Z := Z.abs y * 255 / 500.
(** As the [uint8_t] it is passed in. *)
Definition stick_duty (y : Z) : Z := u8 (stick_quotient y).

Definition default_drive (c : config) (t : thermal) : Prop :=
  PWM_RANGE c = 255 /\ thr_limit t = d_of_Z 1.

(** The floating-point computation of [handle_js] is exact on sticks up to
    twice full scale: all positions are evaluated. *)
Definition stick_exact (y : Z) : bool :=
  bool_decide (d_to_u32 (dmul (dmul (dabs (ddiv (dmul (d_of_Z y) (d_of_Z 1)) (d_of_Z 500)))
    (d_of_Z 255)) (d_of_Z 1)) = Some (Z.abs y * 255 / 500)) &&
  Bool.eqb (stick_is_fwd y) (0 <? y).

Lemma sticks_exact : forallb stick_exact (seqZ (-1000) 2001) = true.
Proof. vm_compute. reflexivity. Qed.

Lemma stick_pwm_exact y c t :
  default_drive c t -> -1000 <= y <= 1000 ->
  stick_pwm y c t = Some (Z.abs y * 255 / 500) /\ stick_is_fwd y = (0 <? y).
Proof.
  intros [Hr Ht] Hy.
  pose proof (forallb_seqZ _ _ _ sticks_exact y ltac:(lia)) as E.
  apply andb_true_iff in E as [E1 E2]. apply bool_decide_eq_true in E1.
  apply Bool.eqb_prop in E2. unfold stick_pwm. by rewrite Hr, Ht.
Qed.

Lemma js_calls_ok js l r : Forall call_ok (js_calls js l r).
Proof.
  unfold js_calls. apply Forall_app. split; case_match;
    repeat (apply Forall_cons_2 || apply Forall_nil_2); unfold call_ok; simpl;
    unfold is_byte; word_bounds; lia.
Qed.

(** What only the constructor and the receiving threads change. *)
Definition settled a a' : Prop :=
  conf a' = conf a /\ thr_limit (therm a') = thr_limit (therm a) /\ queue a' = queue a.

Lemma settled_trans a1 a2 a3 : settled a1 a2 -> settled a2 a3 -> settled a1 a3.
Proof. unfold settled. intuition congruence. Qed.

(** What [handle_js] does, on every branch. *)
Lemma handle_js_ok js a d :
  -1000 <= left_y js <= 1000 -> -1000 <= right_y js <= 1000 ->
  default_drive (conf a) (therm a) -> drives d (slave a) ->
  exists a' d', handle_js js a = Ret a' /\ drives d' (slave a') /\
    Firmware.rget Firmware.OCR2B d' = (if 0 <? left_y js then stick_duty (left_y js) else 0) /\
    Firmware.rget Firmware.OCR0B d' = (if 0 <? left_y js then 0 else stick_duty (left_y js)) /\
    Firmware.rget Firmware.OCR0A d' = (if 0 <? right_y js then 0 else stick_duty (right_y js)) /\
    Firmware.rget Firmware.OCR1A d' = (if 0 <? right_y js then stick_duty (right_y js) else 0) /\
    (forall r, Firmware.is_duty_reg r = true -> (r ∉ motor_regs) ->
       Firmware.rget r d' = Firmware.rget r d) /\
    cx a' = set_wdt 0 (cx a) /\ batt a' = batt a /\ settled a a' /\
    tel a' = set_motor_pwm (Z.abs (left_y js) * 255 / 500) (Z.abs (right_y js) * 255 / 500) (tel a).
Proof.
  intros Hl Hr Hdef Hd. unfold handle_js. cbn [set_cx conf therm].
  destruct (stick_pwm_exact _ _ _ Hdef Hl) as [-> Hlf].
  destruct (stick_pwm_exact _ _ _ Hdef Hr) as [-> Hrf].
  cbn [defined mbind outcome_bind].
  match goal with |- context [slave_calls ?cs ?b] =>
    destruct (slave_calls_drives cs b d (js_calls_ok _ _ _) Hd) as (s & E & Hs) end.
  rewrite E. eexists _, _. split; [reflexivity|]. split; [exact Hs|].
  unfold js_calls. rewrite Hlf, Hrf. unfold stick_duty.
  splits; try reflexivity; try (by splits);
    try (rewrite rget_exec_all by done;
         destruct (0 <? left_y js), (0 <? right_y js); reflexivity).
  intros r Hdr Hnr. rewrite rget_exec_all by done.
  destruct r; try done; try (by exfalso; apply Hnr; unfold motor_regs; rewrite !elem_of_cons; tauto);
    destruct (0 <? left_y js), (0 <? right_y js); reflexivity.
Qed.

Lemma stick_quotient_small y : Z.abs y <= 501 -> u8 (stick_quotient y) = stick_quotient y.
Proof. intros Hy. apply u8_small. unfold stick_quotient. Z.to_euclidean_division_equations. lia. Qed.

(** C17. Driving.  With the default range, a joystick position up to twice
    full scale on either stick sets the four motor duties: the input of each
    bridge that the stick selects, A or D when it points forward and B or C
    otherwise, gets the quotient [|y| * 255 / 500] as the [uint8_t] it is
    passed in, and the other one 0, so no bridge ever has both inputs driven.
    Up to a deflection of 501 that is the quotient itself; above, 256 is lost,
    while the telemetry keeps the quotient.  The watchdog is restarted and no
    other duty changes. *)
Theorem joystick_drives_motors (js : js_data_t) (a : main_app P) (d : Firmware.device) :
  -1000 <= left_y js <= 1000 -> -1000 <= right_y js <= 1000 ->
  default_drive (conf a) (therm a) -> drives d (slave a) ->
  exists a' d', handle_js js a = Ret a' /\ drives d' (slave a') /\
    Firmware.rget Firmware.OCR2B d' = (if 0 <? left_y js then u8 (stick_quotient (left_y js)) else 0) /\
    Firmware.rget Firmware.OCR0B d' = (if 0 <? left_y js then 0 else u8 (stick_quotient (left_y js))) /\
    Firmware.rget Firmware.OCR0A d' = (if 0 <? right_y js then 0 else u8 (stick_quotient (right_y js))) /\
    Firmware.rget Firmware.OCR1A d' = (if 0 <? right_y js then u8 (stick_quotient (right_y js)) else 0) /\
    (forall r, Firmware.is_duty_reg r = true -> (r ∉ motor_regs) ->
       Firmware.rget r d' = Firmware.rget r d) /\
    timer_cx_wdt (cx a') = 0 /\
    left_pwm (tel a') = stick_quotient (left_y js) /\
    right_pwm (tel a') = stick_quotient (right_y js) /\
    (Z.abs (left_y js) <= 501 -> u8 (stick_quotient (left_y js)) = stick_quotient (left_y js)) /\
    (Z.abs (right_y js) <= 501 -> u8 (stick_quotient (right_y js)) = stick_quotient (right_y js)).
Proof.
  intros Hl Hr Hdef Hd.
  destruct (handle_js_ok js a d Hl Hr Hdef Hd)
    as (a' & d' & E & Hd' & Hlf & Hlb & Hrf & Hrb & Hk & Hc & _ & _ & Ht).
  exists a', d'. rewrite Hc, Ht. splits; try done; apply stick_quotient_small.
Qed.

(** ** The watchdog *)

(** What the files must hold for [handle_timer] to return: a number in the
    temperature file, and no third line in [/proc/net/wireless] whose third
    or fourth column is not a number.  Executable. *)
Definition temp_ok (content : option (list Z)) : bool :=
  match (extract_int (file_stream content)).1 with
  | Some t => negb (SFltb (f_of_Z 0) (celsius t)) || bool_decide (is_Some (fan_duty (celsius t)))
  | None => false
  end.

Definition wireless_ok (content : option (list Z)) : bool :=
  match wireless_file content with Ret _ => true | _ => false end.

Definition env_ok (e : environment) : bool :=
  temp_ok (thermal_zone e) && wireless_ok (net_wireless e).

Definition batt_inv (b : battery) : Prop :=
  Filter.filter_wf 5 (vbatfb b) /\ Filter.filter_wf 250 (vbatfb2 b).

(** The battery has been read at least once. *)
Definition batt_known (b : battery) : Prop := is_Some (vbat b) /\ is_Some (vbat_slope b).

Definition app_inv a : Prop := 0 <= timer_cx_wdt (cx a) < 500 /\ batt_inv (batt a).

Definition stopped d : Prop := Forall (fun r => Firmware.rget r d = 0) motor_regs.
Definition quiet d d' : Prop :=
  Forall (fun r => Firmware.rget r d' = Firmware.rget r d) motor_regs.

(** A task that leaves the motors, the battery and the watchdog alone. *)
Definition aside a a' : Prop :=
  slave a' = slave a /\ batt a' = batt a /\ timer_cx_wdt (cx a') = timer_cx_wdt (cx a) /\
  settled a a'.

(** No duty changes. *)
Definition still d d' : Prop :=
  forall r, Firmware.is_duty_reg r = true -> Firmware.rget r d' = Firmware.rget r d.

Lemma quiet_refl d : quiet d d.
Proof. by repeat constructor. Qed.

Lemma quiet_stopped d d' : quiet d d' -> stopped d -> stopped d'.
Proof.
  unfold quiet, stopped. rewrite !Forall_forall. intros Hq Hs r Hr.
  rewrite (Hq r Hr). by apply Hs.
Qed.

Lemma quiet_trans d1 d2 d3 : quiet d1 d2 -> quiet d2 d3 -> quiet d1 d3.
Proof.
  unfold quiet. rewrite !Forall_forall. intros H12 H23 r Hr. by rewrite H23, H12.
Qed.

Lemma still_quiet d d' : still d d' -> quiet d d'.
Proof. intros Hs. by repeat constructor; apply Hs. Qed.

Lemma quiet_requests rs d :
  Forall (fun q => match q with ReqPwmDuty t c _ => t = 1 /\ c = 1 | _ => True end) rs ->
  quiet d (exec_all rs d).
Proof.
  intros Hq. assert (forall r, Firmware.is_duty_reg r = true -> r <> Firmware.OCR1B ->
    Firmware.rget r (exec_all rs d) = Firmware.rget r d) as Hr.
  { intros r Hdr Hne. rewrite rget_exec_all by done. generalize (Firmware.rget r d). intros v.
    induction Hq as [|q rs Hc Hq IH]; [done|]. rewrite Firmware.last_duty_cons.
    destruct q; try done. destruct Hc as [-> ->]. cbn [Firmware.last_duty].
    rewrite decide_False; [done|]. by intros [= <-]. }
  repeat constructor; by apply Hr.
Qed.

Lemma stop_calls_stop a d :
  drives d (slave a) ->
  exists s d', slave_calls stop_calls a = Ret (set_slave s a) /\ drives d' s /\ stopped d' /\
    Firmware.rget Firmware.OCR1B d' = Firmware.rget Firmware.OCR1B d.
Proof.
  intros Hd. destruct (slave_calls_drives stop_calls a d) as (s & E & Hs); [|done|].
  { unfold stop_calls, call_ok. repeat (apply Forall_cons_2 || apply Forall_nil_2); simpl;
      unfold is_byte; lia. }
  exists s, (exec_all (requests stop_calls) d). split; [done|]. split; [done|].
  split; [|by rewrite rget_exec_all].
  repeat constructor; rewrite rget_exec_all by done; reflexivity.
Qed.

Lemma timer_wdt_ok a d :
  0 <= timer_cx_wdt (cx a) < 500 -> drives d (slave a) ->
  exists a' d', timer_wdt a = Ret a' /\ drives d' (slave a') /\ batt a' = batt a /\
    settled a a' /\
    (500 <= timer_cx_wdt (cx a) + 1 /\ timer_cx_wdt (cx a') = 0 /\ stopped d' /\
       Firmware.rget Firmware.OCR1B d' = Firmware.rget Firmware.OCR1B d \/
     timer_cx_wdt (cx a') = timer_cx_wdt (cx a) + 1 /\ timer_cx_wdt (cx a) + 1 < 500 /\ d' = d).
Proof.
  intros Hw Hd. unfold timer_wdt. cbn [set_cx cx set_wdt timer_cx_wdt].
  rewrite u32_small by lia. unfold TIMER_CI_WDT.
  destruct (Z.leb_spec 500 (timer_cx_wdt (cx a) + 1)) as [Hle|Hlt].
  - match goal with |- context [slave_calls _ ?b] =>
      destruct (stop_calls_stop b d Hd) as (s & d' & -> & Hs & Hst & Hled) end.
    eexists _, d'. split; [reflexivity|]. split; [exact Hs|]. split; [done|]. split; [done|].
    by left.
  - eexists _, d. split; [reflexivity|]. split; [exact Hd|]. split; [done|]. split; [done|].
    right. by splits.
Qed.

Lemma timer_thr_aside a : aside a (timer_thr a).
Proof. unfold timer_thr. by repeat case_match. Qed.

Lemma timer_fan_aside e a a' : timer_fan e a = Ret a' -> aside a a'.
Proof.
  unfold timer_fan. case_match; [|by intros [= <-]].
  destruct (extract_int _).1 as [t|]; [|done]. cbn [defined mbind outcome_bind].
  destruct (SFltb _ _); [|by intros [= <-]]. by destruct (fan_duty _); [intros [= <-]|].
Qed.

Lemma timer_fan_ok e a : temp_ok (thermal_zone e) = true -> exists a', timer_fan e a = Ret a'.
Proof.
  intros Ht. unfold timer_fan. case_match; [|by eexists].
  unfold temp_ok in Ht. destruct (extract_int _).1 as [t|]; [|done].
  cbn [defined mbind outcome_bind]. destruct (SFltb _ _); [|by eexists].
  simpl in Ht. apply bool_decide_eq_true in Ht as [pwm ->]. by eexists.
Qed.

Lemma battery_sample_ok v now b : batt_inv b ->
  exists b', battery_sample v now b = Some b' /\ batt_inv b' /\
    is_Some (vbat b') /\ is_Some (vbat_slope b').
Proof.
  intros [H5 H250]. unfold battery_sample.
  destruct (Filter.filter_call_wf 5 v _ ltac:(lia) H5) as (y & fb & -> & Hfb & _).
  destruct (Filter.filter_call_wf 250 v _ ltac:(lia) H250) as (y2 & fb2 & -> & Hfb2 & Hne).
  cbn [mbind option_bind].
  destruct (Filter.last_wf 250 0 fb2 ltac:(lia) Hfb2 Hne ltac:(lia)) as [now' ->].
  destruct (Filter.last_wf 250 (-60) fb2 ltac:(lia) Hfb2 Hne ltac:(lia)) as [before ->].
  cbn [mbind option_bind]. eexists. split; [reflexivity|]. case_match; (split; [by split|]); split; by eexists.
Qed.

Lemma timer_batt_known e a a' :
  timer_batt e a = Ret a' -> batt_known (batt a) -> batt_known (batt a').
Proof.
  unfold timer_batt. case_match; [|by intros [= <-]].
  cbn [set_cx slave]. destruct (analogRead _ _) as [[v s]|]; [|done].
  cbn [defined mbind outcome_bind]. case_match; [by intros [= <-]|].
  unfold battery_sample.
  repeat (match goal with |- context [?o ≫= _] => destruct o as [?|]; [|done] end;
    repeat match goal with p : (_ * _)%type |- _ => destruct p end;
    cbn [mbind option_bind defined outcome_bind]).
  intros [= <-] _. case_match; split; by eexists.
Qed.

Lemma timer_batt_ok e a d : batt_inv (batt a) -> drives d (slave a) ->
  exists a' d', timer_batt e a = Ret a' /\ drives d' (slave a') /\ still d d' /\
    batt_inv (batt a') /\ timer_cx_wdt (cx a') = timer_cx_wdt (cx a) /\ settled a a' /\
    (batt_known (batt a) -> batt_known (batt a')).
Proof.
  intros Hb Hd. pose proof (timer_batt_known e a) as Hk. unfold timer_batt in *.
  case_match; [|by eexists _, d; splits].
  destruct (drives_analogRead PIN_BATT d (slave a)) as (s & E & Hs);
    [unfold is_byte, PIN_BATT; lia|done|].
  cbn [set_cx slave] in *. rewrite E in *. cbn [defined mbind outcome_bind] in *.
  assert (still d (Firmware.exec_request (ReqAnalogRead PIN_BATT) d)) as Hq
    by (intros r Hr; by rewrite Firmware.rget_exec_request_duty).
  case_match.
  { eexists _, _. split; [reflexivity|]. by splits. }
  match goal with |- context [battery_sample ?v ?n ?b] =>
    destruct (battery_sample_ok v n b Hb) as (b' & Eb & Hb' & _) end.
  rewrite Eb in *. eexists _, _. split; [reflexivity|]. splits; try done. by apply Hk.
Qed.

Lemma timer_slave_trx_ok a d : drives d (slave a) ->
  drives d (slave (timer_slave_trx a)) /\ batt (timer_slave_trx a) = batt a /\
  timer_cx_wdt (cx (timer_slave_trx a)) = timer_cx_wdt (cx a) /\ settled a (timer_slave_trx a).
Proof.
  intros Hd. unfold timer_slave_trx. case_match; [|done].
  pose proof (drives_stats d _ Hd) as Hs. cbn [set_cx slave].
  destruct (get_transaction_stats (slave a)) as [trx s]. done.
Qed.

Lemma timer_wlan_aside e a a' : timer_wlan e a = Ret a' -> aside a a'.
Proof.
  unfold timer_wlan. case_match; [|by intros [= <-]].
  destruct (wireless_file (net_wireless e)) as [v| |]; try done.
  cbn [mbind outcome_bind]. destruct v as [[q s]|]; by intros [= <-].
Qed.

Lemma timer_wlan_ok e a : wireless_ok (net_wireless e) = true -> exists a', timer_wlan e a = Ret a'.
Proof.
  intros Hw. unfold timer_wlan. case_match; [|by eexists].
  unfold wireless_ok in Hw. destruct (wireless_file (net_wireless e)) as [v| |]; try done. by eexists.
Qed.

(** What the timer handler does when none of its tasks fails. *)
Definition timer_effect a d a' d' : Prop :=
  drives d' (slave a') /\ app_inv a' /\
  (batt_known (batt a) -> batt_known (batt a')) /\ settled a a' /\
  (500 <= timer_cx_wdt (cx a) + 1 /\ timer_cx_wdt (cx a') = 0 /\ stopped d' \/
   timer_cx_wdt (cx a) + 1 < 500 /\ timer_cx_wdt (cx a') = timer_cx_wdt (cx a) + 1 /\
     quiet d d') /\
  Firmware.rget Firmware.OCR1B d' = Firmware.rget Firmware.OCR1B d.

(** The tasks that read files are the only ones that can fail. *)
Lemma handle_timer_effect e a d : app_inv a -> drives d (slave a) ->
  match handle_timer e a with
  | Ret a' => exists d', timer_effect a d a' d'
  | _ => env_ok e = false
  end.
Proof.
  intros [Hw Hb] Hd. unfold handle_timer.
  destruct (timer_wdt_ok a d Hw Hd) as (a1 & d1 & -> & Hd1 & Eb1 & Hs1 & Hstep).
  cbn [mbind outcome_bind].
  destruct (timer_thr_aside a1) as (Es2 & Eb2 & Ew2 & Hs2). set (a2 := timer_thr a1) in *.
  unfold env_ok. pose proof (timer_fan_ok e a2) as Hfan.
  destruct (timer_fan e a2) as [a3| |] eqn:E3; cbn [mbind outcome_bind];
    [clear Hfan|destruct (temp_ok _); [by destruct Hfan|done]..].
  destruct (timer_fan_aside e a2 a3 E3) as (Es3 & Eb3 & Ew3 & Hs3).
  destruct (timer_batt_ok e a3 d1) as (a4 & d4 & -> & Hd4 & Hq4 & Hb4 & Ew4 & Hs4 & Hk4);
    [congruence|congruence|]. cbn [mbind outcome_bind].
  destruct (timer_slave_trx_ok a4 d4 Hd4) as (Hd5 & Eb5 & Ew5 & Hs5).
  set (a5 := timer_slave_trx a4) in *. pose proof (timer_wlan_ok e a5) as Hwlan.
  destruct (timer_wlan e a5) as [a6| |] eqn:E6;
    [clear Hwlan|destruct (wireless_ok _); [by destruct Hwlan|by rewrite andb_false_r]..].
  destruct (timer_wlan_aside e a5 a6 E6) as (Es6 & Eb6 & Ew6 & Hs6).
  exists d4. split; [by rewrite Es6|].
  assert (timer_cx_wdt (cx a6) = timer_cx_wdt (cx a1)) as Ew by congruence.
  unfold app_inv. rewrite Eb6, Eb5, Ew. split; [split; [lia|done]|].
  split; [intros Hk; apply Hk4; congruence|].
  split; [eauto 8 using settled_trans|].
  pose proof (Hq4 Firmware.OCR1B eq_refl) as Hled. apply still_quiet in Hq4.
  destruct Hstep as [(Hle & Hz & Hst & Hl1)|(E & Hlt & ->)].
  - split; [left; by eauto using quiet_stopped|congruence].
  - split; [right; by splits|done].
Qed.

Lemma handle_timer_ok e a d :
  app_inv a -> env_ok e = true -> drives d (slave a) ->
  exists a' d', handle_timer e a = Ret a' /\ timer_effect a d a' d'.
Proof.
  intros Hi He Hd. pose proof (handle_timer_effect e a d Hi Hd) as Ht.
  destruct (handle_timer e a) as [a'| |]; [|congruence..]. destruct Ht as [d' Ht]. by exists a', d'.
Qed.

(** *** Handlers in any order

    The dispatcher and the two receiving threads run handlers one at a time
    on the state; [handled] is one such run. *)
Inductive handled :=
| HandledJs (js : js_data_t)
| HandledTimer (e : environment)
| HandledUdp (buffer : list Z)
| HandledWs (id : Z) (text : list Z).

Definition handle (h : handled) (ag : main_app P * WsServer.ws_server) :
    outcome (main_app P * WsServer.ws_server) :=
  let '(a, g) := ag in
  match h with
  | HandledJs js => a ← handle_js js a; Ret (a, g)
  | HandledTimer e => a ← handle_timer e a; Ret (a, g)
  | HandledUdp buffer => a ← handle_udp buffer a; Ret (a, g)
  | HandledWs id text => handle_ws id text a g
  end.

Fixpoint handle_all (hs : list handled) (ag : main_app P * WsServer.ws_server) :
    outcome (main_app P * WsServer.ws_server) :=
  match hs with
  | [] => Ret ag
  | h :: hs' => ag ← handle h ag; handle_all hs' ag
  end.

Definition is_js (h : handled) : bool := match h with HandledJs _ => true | _ => false end.
Definition is_timer (h : handled) : bool := match h with HandledTimer _ => true | _ => false end.
Definition timers_in (hs : list handled) : nat := length (filter (fun h => is_timer h = true) hs).

(** The command lines with defined behaviour: a number follows [led], two
    numbers that fit follow [js]. *)
Definition led_ok (ss : istream) : bool := bool_decide (is_Some (extract_unsigned ss).1).

Definition cmd_ok (text : list Z) : bool :=
  let '(cmd, ss) := extract_word (stringstream text) in
  if decide (cmd = str "led") then led_ok ss else true.

Definition udp_ok (buffer : list Z) : bool :=
  match to_char <$> head buffer with
  | None => false
  | Some c =>
      if (c <? 48) || (57 <? c)
      then match cstring buffer with Some text => cmd_ok text | None => false end
      else bool_decide (is_Some (parse_js buffer))
  end.

Definition js_ok (ss : istream) : bool :=
  let '(l, ss) := extract_int ss in
  let '(r, ss) := extract_int ss in
  bool_decide (is_Some (l ≫= times5)) && bool_decide (is_Some (r ≫= times5)).

Definition ws_ok (text : list Z) : bool :=
  let '(cmd, ss) := extract_word (stringstream text) in
  if decide (cmd = str "stats") then true
  else if decide (cmd = str "js") then js_ok ss
  else if decide (cmd = str "led") then led_ok ss else true.

(** Everything but a joystick position, and with defined behaviour. *)
Definition idle_ok (h : handled) : bool :=
  match h with
  | HandledJs _ => false
  | HandledTimer e => env_ok e
  | HandledUdp buffer => udp_ok buffer
  | HandledWs _ text => ws_ok text
  end.

(** The duty an LED command asks for. *)
Definition led_duty (ss : istream) : Z := u8 (u32 (default 0 (extract_unsigned ss).1 * 255) / 100).

(** *** What the inputs ask for

    A joystick position to be queued, a new LED duty, or nothing. *)
Inductive demand := Steer (js : js_data_t) | Light (duty : Z) | Nothing.

Definition led_demand (text : list Z) : demand :=
  let '(cmd, ss) := extract_word (stringstream text) in
  if decide (cmd = str "led") then Light (led_duty ss) else Nothing.

Definition udp_demand (buffer : list Z) : demand :=
  match to_char <$> head buffer with
  | None => Nothing
  | Some c =>
      if (c <? 48) || (57 <? c) then default Nothing (led_demand <$> cstring buffer)
      else default Nothing (Steer <$> parse_js buffer)
  end.

Definition ws_demand (text : list Z) : demand :=
  let '(cmd, ss) := extract_word (stringstream text) in
  if decide (cmd = str "js") then
    let '(l, ss) := extract_int ss in
    let '(r, ss) := extract_int ss in
    default Nothing (l ← l ≫= times5; r ← r ≫= times5; Some (Steer (JsData 0 0 l r)))
  else if decide (cmd = str "led") then Light (led_duty ss) else Nothing.

(** The demand has been met: the position is in the queue, the LED has its
    duty, and nothing else changed. *)
Definition meets (m : demand) a d a' d' : Prop :=
  drives d' (slave a') /\ quiet d d' /\ batt a' = batt a /\ cx a' = cx a /\
  conf a' = conf a /\ therm a' = therm a /\
  queue a' = queue a ++ (match m with Steer js => [JS js] | _ => [] end) /\
  Firmware.rget Firmware.OCR1B d' =
    match m with Light n => n | _ => Firmware.rget Firmware.OCR1B d end.

Lemma meets_nothing a d : drives d (slave a) -> meets Nothing a d a d.
Proof. intros Hd. unfold meets. rewrite app_nil_r. by splits; [|apply quiet_refl|..]. Qed.

Lemma meets_steer js a d : drives d (slave a) -> meets (Steer js) a d (enqueue (JS js) a) d.
Proof. intros Hd. unfold meets. by splits; [|apply quiet_refl|..]. Qed.

Lemma led_command_ok ss a d : led_ok ss = true -> drives d (slave a) ->
  exists a' d', led_command ss a = Ret a' /\ meets (Light (led_duty ss)) a d a' d'.
Proof.
  unfold led_duty. intros [v Hv]%bool_decide_eq_true Hd. unfold led_command. rewrite Hv.
  cbn [defined mbind outcome_bind].
  match goal with |- context [slave_call ?c ?b] =>
    destruct (slave_call_drives c _ _ b d eq_refl) as (s & -> & Hs) end; [|done|].
  { simpl. unfold is_byte. word_bounds. lia. }
  eexists _, _. split; [reflexivity|]. unfold meets. split; [exact Hs|].
  split; [by apply (quiet_requests [ReqPwmDuty 1 1 _]); repeat constructor|].
  rewrite app_nil_r. splits; try done. by rewrite Firmware.rget_exec_request_duty.
Qed.

Lemma handle_udp_ok buffer a d : udp_ok buffer = true -> drives d (slave a) ->
  exists a' d', handle_udp buffer a = Ret a' /\ meets (udp_demand buffer) a d a' d'.
Proof.
  intros Hok Hd. unfold handle_udp, udp_ok, udp_demand in *.
  destruct (to_char <$> head buffer) as [c|]; [|done]. cbn [defined mbind outcome_bind].
  destruct ((c <? 48) || (57 <? c)).
  - unfold handle_cmd. destruct (cstring buffer) as [text|]; [|done].
    cbn [defined mbind outcome_bind default fmap option_fmap option_map]. unfold cmd_ok, led_demand in *.
    destruct (extract_word (stringstream text)) as [cmd ss]. case_decide.
    + by apply led_command_ok.
    + exists a, d. split; [done|]. by apply meets_nothing.
  - apply bool_decide_eq_true in Hok as [js ->].
    eexists _, d. split; [reflexivity|]. by apply meets_steer.
Qed.

Definition asks_stats (text : list Z) : bool :=
  bool_decide ((extract_word (stringstream text)).1 = str "stats").

Lemma handle_ws_ok id text a g d :
  ws_ok text = true -> (asks_stats text = true -> batt_known (batt a)) -> drives d (slave a) ->
  exists a' g' d', handle_ws id text a g = Ret (a', g') /\ meets (ws_demand text) a d a' d'.
Proof.
  intros Hok Hk Hd. unfold handle_ws, ws_ok, ws_demand, asks_stats in *.
  destruct (extract_word (stringstream text)) as [cmd ss]. case_decide as Hst; [|case_decide].
  - destruct Hk as [[vb Hvb] [vs Hvs]]; [by apply bool_decide_eq_true|]. rewrite Hst, !decide_False by done.
    unfold stats_text, show_maybe. rewrite Hvb, Hvs. eexists a, _, d. split; [reflexivity|].
    by apply meets_nothing.
  - unfold js_ok in Hok. destruct (extract_int ss) as [l ss1], (extract_int ss1) as [r ss2].
    apply andb_true_iff in Hok as [[l' Hl]%bool_decide_eq_true [r' Hr]%bool_decide_eq_true].
    destruct l as [l|], r as [r|]; try done. simpl in Hl, Hr.
    cbn [defined mbind outcome_bind option_bind]. rewrite Hl. cbn [defined mbind outcome_bind option_bind].
    rewrite Hr. eexists _, _, d. split; [reflexivity|]. by apply meets_steer.
  - case_decide.
    + destruct (led_command_ok ss a d Hok Hd) as (a' & d' & -> & ?). eexists _, _, _. by split.
    + eexists _, _, d. split; [reflexivity|]. by apply meets_nothing.
Qed.

(** A handler that returns was given something it is defined on. *)
Lemma led_command_ret ss a a' : led_command ss a = Ret a' -> led_ok ss = true.
Proof. unfold led_command, led_ok. by destruct (extract_unsigned ss) as [[x|] ?]. Qed.

Lemma handle_udp_ret buffer a a' : handle_udp buffer a = Ret a' -> udp_ok buffer = true.
Proof.
  unfold handle_udp, udp_ok. destruct (to_char <$> head buffer) as [c|]; [|done]. cbn [defined mbind outcome_bind].
  destruct (_ || _).
  - unfold handle_cmd, cmd_ok. destruct (cstring buffer) as [text|]; [|done]. cbn [defined mbind outcome_bind].
    destruct (extract_word (stringstream text)) as [cmd ss]. case_decide; [apply led_command_ret|done].
  - by destruct (parse_js buffer).
Qed.

Lemma handle_ws_ret id text a g a' g' : handle_ws id text a g = Ret (a', g') ->
  ws_ok text = true /\ (asks_stats text = true -> batt_known (batt a)).
Proof.
  unfold handle_ws, ws_ok, asks_stats. destruct (extract_word (stringstream text)) as [cmd ss]. cbn [fst].
  case_decide as Hst; [|case_decide as Hjs].
  - intros E. split; [done|]. intros _. unfold stats_text, show_maybe in E. unfold batt_known.
    destruct (vbat (batt a)), (vbat_slope (batt a)); cbn in E; by try discriminate; split; eexists.
  - intros E. split; [|intros Hs; by apply bool_decide_eq_true in Hs].
    unfold js_ok. destruct (extract_int ss) as [l ss1], (extract_int ss1) as [r ss2].
    destruct l as [l|]; [|done]. cbn [defined mbind outcome_bind option_bind] in *.
    destruct (times5 l); [|done]. destruct r as [r|]; [|done]. cbn [defined mbind outcome_bind option_bind] in *.
    by destruct (times5 r).
  - intros E. split; [|intros Hs; by apply bool_decide_eq_true in Hs]. case_decide; [|done].
    destruct (led_command ss a) eqn:El; [|done..]. by eapply led_command_ret.
Qed.

(** One run of a handler other than [handle_js] that does not fail. *)
Definition idle_effect h a d a' d' : Prop :=
  drives d' (slave a') /\ app_inv a' /\ (batt_known (batt a) -> batt_known (batt a')) /\
  (stopped d' \/ quiet d d' /\
     timer_cx_wdt (cx a') = timer_cx_wdt (cx a) + (if is_timer h then 1 else 0)).

Lemma meets_idle m h a d a' d' : is_timer h = false -> app_inv a -> meets m a d a' d' -> idle_effect h a d a' d'.
Proof.
  intros Ht Hinv (Hd' & Hq & Eb & Ec & _). unfold idle_effect, app_inv. rewrite Ht, Eb, Ec.
  split; [done|]. split; [exact Hinv|]. split; [done|]. right. split; [done|]. lia.
Qed.

Lemma handle_effect h a g d a' g' : is_js h = false -> app_inv a -> drives d (slave a) ->
  handle h (a, g) = Ret (a', g') -> exists d', idle_effect h a d a' d'.
Proof.
  intros Hjs Hinv Hd E. destruct h as [js|e|buffer|id text]; [done|..]; cbn [handle] in E.
  - pose proof (handle_timer_effect e a d Hinv Hd) as Ht.
    destruct (handle_timer e a) as [a1| |]; [|done..]. injection E as <- <-.
    destruct Ht as (d' & Hd' & Hinv' & Hk & _ & Hs & _). exists d'. do 3 (split; [done|]).
    destruct Hs as [(_ & _ & ?)|(_ & ? & ?)]; [by left|by right].
  - destruct (handle_udp buffer a) as [a1| |] eqn:Eu; [|done..]. injection E as <- <-.
    destruct (handle_udp_ok buffer a d) as (a2 & d' & Eu' & Hm); [by eapply handle_udp_ret|done|].
    rewrite Eu in Eu'. injection Eu' as <-. exists d'. by eapply meets_idle.
  - destruct (handle_ws_ret id text a g a' g' E) as [Hok Hk].
    destruct (handle_ws_ok id text a g d Hok Hk Hd) as (a2 & g2 & d' & E' & Hm).
    rewrite E in E'. injection E' as <- <-. exists d'. by eapply meets_idle.
Qed.

Lemma handle_idle h a g d :
  app_inv a -> batt_known (batt a) -> idle_ok h = true -> drives d (slave a) ->
  exists a' g', handle h (a, g) = Ret (a', g').
Proof.
  intros Hinv Hk Hok Hd. destruct h as [js|e|buffer|id text]; [done|..]; cbn [handle].
  - destruct (handle_timer_ok e a d Hinv Hok Hd) as (a' & d' & -> & _). by do 2 eexists.
  - destruct (handle_udp_ok buffer a d Hok Hd) as (a' & d' & -> & _). by do 2 eexists.
  - destruct (handle_ws_ok id text a g d Hok (fun _ => Hk) Hd) as (a' & g' & d' & -> & _). by do 2 eexists.
Qed.

Lemma timers_in_cons h hs :
  Z.of_nat (timers_in (h :: hs)) = (if is_timer h then 1 else 0) + Z.of_nat (timers_in hs).
Proof.
  unfold timers_in. rewrite filter_cons. destruct (is_timer h); simpl; [|done].
  lia.
Qed.

(** A run of handlers stops the motors or counts the timer up. *)
Lemma handle_all_effect hs : Forall (fun h => is_js h = false) hs -> forall a g d a' g',
  app_inv a -> drives d (slave a) -> handle_all hs (a, g) = Ret (a', g') ->
  exists d', drives d' (slave a') /\ app_inv a' /\ (stopped d' \/ quiet d d' /\
    timer_cx_wdt (cx a') = timer_cx_wdt (cx a) + Z.of_nat (timers_in hs)).
Proof.
  induction 1 as [|h hs Hh _ IH]; intros a g d a' g' Hinv Hd E; cbn [handle_all] in E.
  - injection E as <- <-. exists d. do 2 (split; [done|]). right.
    split; [apply quiet_refl|]. change (timers_in []) with 0%nat. lia.
  - destruct (handle h (a, g)) as [[a1 g1]| |] eqn:E1; [|done..].
    destruct (handle_effect h a g d a1 g1 Hh Hinv Hd E1) as (d1 & Hd1 & Hi1 & _ & Hs1).
    destruct (IH a1 g1 d1 a' g' Hi1 Hd1 E) as (d2 & Hd2 & Hi2 & Hs2).
    exists d2. do 2 (split; [done|]). destruct Hs2 as [?|[Hq2 Hw2]]; [by left|]. destruct Hs1 as [?|[Hq1 Hw1]].
    + left. by eapply quiet_stopped.
    + right. split; [by eapply quiet_trans|]. rewrite timers_in_cons. lia.
Qed.

Lemma handle_all_idle hs : Forall (fun h => idle_ok h = true) hs -> forall a g d,
  app_inv a -> batt_known (batt a) -> drives d (slave a) ->
  exists a' g', handle_all hs (a, g) = Ret (a', g').
Proof.
  induction 1 as [|h hs Hh Hok IH]; intros a g d Hinv Hk Hd; [by exists a, g|].
  destruct (handle_idle h a g d Hinv Hk Hh Hd) as (a1 & g1 & E1).
  destruct (handle_effect h a g d a1 g1) as (d1 & Hd1 & Hi1 & Hk1 & _); [by destruct h|done..|].
  cbn [handle_all]. rewrite E1. by apply (IH a1 g1 d1 Hi1 (Hk1 Hk) Hd1).
Qed.

(** C3. The watchdog.  From any state of the application, whatever duties the
    motors have: when the timer handler has run 500 times (half a second) and no
    joystick position has been handled in between, all four motor duties are
    0, whatever datagrams, files, LED commands and status requests were handled
    as well, provided that no handler failed (a [led] without a number, for
    instance, is undefined).  And none fails if the battery has been read
    before, the datagrams and commands are well formed and the files hold what
    the timer reads ([idle_ok]). *)
Theorem watchdog_stops_motors (hs : list handled) (a : main_app P)
    (g : WsServer.ws_server) (d : Firmware.device) :
  app_inv a -> drives d (slave a) ->
  Forall (fun h => is_js h = false) hs -> (500 <= timers_in hs)%nat ->
  (forall a' g', handle_all hs (a, g) = Ret (a', g') ->
     exists d', drives d' (slave a') /\ stopped d') /\
  (batt_known (batt a) -> Forall (fun h => idle_ok h = true) hs ->
     exists a' g', handle_all hs (a, g) = Ret (a', g')).
Proof.
  intros Hinv Hd Hjs Hn. split; [|intros Hk Hok; by apply (handle_all_idle hs Hok a g d)].
  intros a' g' E. destruct (handle_all_effect hs Hjs a g d a' g' Hinv Hd E) as (d' & Hd' & [Hw' _] & Hs).
  exists d'. split; [done|]. destruct Hs as [Hs|[_ Hw]]; [done|]. destruct Hinv as [Hw0 _]. lia.
Qed.
End Props.
