(* ===== verification/AppIO.v ===== *)
(** * Properties of the rover application's inputs, outputs and start-up

    The commands of the two remote interfaces (datagrams and web socket), the
    status text, the fan, the thermal model and the constructor. *)
From S2P Require Import Prelude Messages Arduino Link Double Text Regex App AppProps.
From S2P Require Firmware Filter WsServer.

(** Four decimal digits, as the joystick sender formats an axis. *)
Definition four_digits (z : Z) : list Z := two_digits (z / 100) ++ two_digits (z mod 100).

Section AppIO.
Context `{Firmware.AvrHeader} `{Firmware.ArduinoCore} {P : Type} `{SerialPort P}
  `{!SlaveDriver P} `{Platform}.
Implicit Types (a : main_app P) (d : Firmware.device) (s : ArduinoSlave P).

(** ** Joystick datagrams *)
Lemma to_char_digit z : 0 <= z < 10 -> to_char (digit z) = digit z.
Proof.
  intros Hz. unfold to_char, digit. destruct char_signed; [|done]. simpl.
  by replace (128 <=? 48 + z) with false by lia.
Qed.

Lemma four_digits_bounds z : 0 <= z < 10000 ->
  0 <= z / 100 / 10 < 10 /\ 0 <= z / 100 mod 10 < 10 /\
  0 <= z mod 100 / 10 < 10 /\ 0 <= (z mod 100) mod 10 < 10.
Proof. intros. splits; Z.to_euclidean_division_equations; lia. Qed.

Lemma axis_digits z : 0 <= z < 10000 ->
  axis (digit (z / 100 / 10)) (digit (z / 100 mod 10))
       (digit (z mod 100 / 10)) (digit ((z mod 100) mod 10)) = z - 1500.
Proof.
  intros Hz. pose proof (four_digits_bounds z Hz) as (? & ? & ? & ?). unfold axis, digit.
  pose proof (Z.div_mod z 100 ltac:(lia)). pose proof (Z.mod_pos_bound z 100 ltac:(lia)).
  pose proof (Z.div_mod (z / 100) 10 ltac:(lia)).
  pose proof (Z.mod_pos_bound (z / 100) 10 ltac:(lia)).
  pose proof (Z.div_mod (z mod 100) 10 ltac:(lia)).
  pose proof (Z.mod_pos_bound (z mod 100) 10 ltac:(lia)).
  rewrite (u32_small (_ * 1000)) by lia. rewrite (u32_small (_ + _ * 100)) by lia.
  rewrite (u32_small (_ + _ * 10)) by lia. rewrite u32_small by lia. rewrite i32_small; lia.
Qed.

(** The datagram a joystick sends. *)
Definition js_datagram (lx ly rx ry : Z) : list Z :=
  four_digits lx ++ four_digits ly ++ four_digits rx ++ four_digits ry.

Lemma parse_js_datagram lx ly rx ry rest :
  0 <= lx < 10000 -> 0 <= ly < 10000 -> 0 <= rx < 10000 -> 0 <= ry < 10000 ->
  parse_js (js_datagram lx ly rx ry ++ rest) =
    Some (JsData (lx - 1500) (rx - 1500) (ly - 1500) (ry - 1500)).
Proof.
  intros Hlx Hly Hrx Hry. unfold parse_js, js_datagram, four_digits, two_digits.
  cbn [app fmap list_fmap].
  pose proof (four_digits_bounds lx Hlx) as (? & ? & ? & ?).
  pose proof (four_digits_bounds ly Hly) as (? & ? & ? & ?).
  pose proof (four_digits_bounds rx Hrx) as (? & ? & ? & ?).
  pose proof (four_digits_bounds ry Hry) as (? & ? & ? & ?).
  rewrite !to_char_digit by done. by rewrite !axis_digits.
Qed.

(** C31. Joystick round trip.  A datagram of four four-digit numbers is queued
    as the joystick position it encodes, each axis centred at 1500, whatever
    earlier datagrams left in the receive buffer and whatever the signedness
    of [char]. *)
Theorem joystick_datagram_roundtrip (lx ly rx ry : Z) (buffer : list Z) (a : main_app P) :
  0 <= lx < 10000 -> 0 <= ly < 10000 -> 0 <= rx < 10000 -> 0 <= ry < 10000 ->
  length buffer = 1024%nat ->
  exists buffer', length buffer' = 1024%nat /\
    run_udp (js_datagram lx ly rx ry) buffer a =
    Ret (buffer', enqueue (JS (JsData (lx - 1500) (rx - 1500) (ly - 1500) (ry - 1500))) a).
Proof.
  intros Hlx Hly Hrx Hry Hlen. unfold run_udp.
  rewrite (take_ge (js_datagram _ _ _ _)) by (simpl; lia).
  eexists. split; [|unfold handle_udp, overwrite].
  2: { rewrite (parse_js_datagram lx ly rx ry) by done.
    pose proof (four_digits_bounds lx Hlx) as (? & ? & ? & ?).
    match goal with |- context [to_char <$> ?h] =>
      change (to_char <$> h) with (Some (to_char (digit (lx / 100 / 10)))) end.
    rewrite to_char_digit by done. cbn [defined mbind outcome_bind].
    replace ((digit (lx / 100 / 10) <? 48) || (57 <? digit (lx / 100 / 10))) with false
      by (unfold digit; lia). reflexivity. }
  rewrite length_app, length_drop, Hlen. simpl. lia.
Qed.

(** ** Web socket commands *)
Lemma dec_word z : 0 <= z -> Forall (fun c => is_space c = false) (dec z).
Proof. intros Hz. eapply Forall_impl; [by apply dec_digits|]. apply digit_not_space. Qed.

Lemma command_word cmd text :
  cmd <> [] -> Forall (fun c => is_space c = false) cmd ->
  extract_word (stringstream (cmd ++ 32 :: text)) = (cmd, stringstream (32 :: text)).
Proof.
  intros Hne Hc.
  assert (exists c cs, cmd = c :: cs) as (c & cs & E) by (destruct cmd; eauto; done).
  rewrite (extract_word_spec cmd (32 :: text)); try done.
  rewrite E in *. apply Forall_cons in Hc as [Hc _]. by apply sentry_start.
Qed.

(** The [js] command of the browser.  The text form of two percentages is
    queued as a joystick position of five times their value, for every pair
    of numbers for which that product does not overflow an [int]. *)
Theorem ws_js_roundtrip (id left right : Z) (a : main_app P) (g : WsServer.ws_server) :
  -429496729 <= left <= 429496729 -> -429496729 <= right <= 429496729 ->
  handle_ws id (str "js" ++ 32 :: dec_signed left ++ 32 :: dec_signed right) a g =
    Ret (enqueue (JS (JsData 0 0 (left * 5) (right * 5))) a, g).
Proof.
  intros Hl Hr. unfold handle_ws.
  rewrite command_word by (done || by repeat constructor).
  rewrite decide_False, decide_True by done.
  rewrite extract_int_dec by (lia || done).
  rewrite <-(app_nil_r (dec_signed right)).
  change (IStream (32 :: dec_signed right ++ []) false (is_nil (32 :: dec_signed right ++ [])))
    with (stringstream (32 :: dec_signed right ++ [])).
  rewrite extract_int_dec by (lia || done). cbn [defined mbind outcome_bind].
  unfold times5. rewrite !in_range_Some by lia. reflexivity.
Qed.

(** ** The LED *)
Lemma led_command_dec v cs a d :
  0 <= v <= 100 -> ends_number cs -> drives d (slave a) ->
  exists s, led_command (stringstream (32 :: dec v ++ cs)) a =
      Ret (set_slave s (set_tel (set_led_pwm v (tel a)) a)) /\
    drives (Firmware.exec_request (ReqPwmDuty 1 1 (v * 255 / 100)) d) s.
Proof.
  intros Hv Hc Hd. unfold led_command. rewrite extract_unsigned_dec by (lia || done).
  cbn [fst defined mbind outcome_bind]. cbn [tel set_tel led_pwm set_led_pwm].
  assert (0 <= v * 255 / 100 < 256) by (Z.to_euclidean_division_equations; lia).
  rewrite u32_small, u8_small by lia.
  by eapply (slave_call_drives (CallPwmDuty 1 1 (v * 255 / 100)) _ _
    (set_tel (set_led_pwm v (tel a)) a) d eq_refl); [split; [lia|]; split; [lia|]|].
Qed.

(** The LED.  The command [led v] with a percentage sets the duty of the
    LED output to [v * 255 / 100] and no other duty, and means the same in a
    datagram (up to its terminator) and in a web socket message. *)
Theorem led_sets_duty (id v : Z) (rest : list Z) (a : main_app P) (g : WsServer.ws_server)
    (d : Firmware.device) :
  0 <= v <= 100 -> drives d (slave a) ->
  exists a' d', handle_udp (str "led" ++ 32 :: dec v ++ 0 :: rest) a = Ret a' /\
    handle_ws id (str "led" ++ 32 :: dec v) a g = Ret (a', g) /\
    led_pwm (tel a') = v /\ drives d' (slave a') /\
    Firmware.rget Firmware.OCR1B d' = v * 255 / 100 /\ quiet d d'.
Proof.
  intros Hv Hd. destruct (led_command_dec v [] a d Hv I Hd) as (s & E & Hs).
  rewrite app_nil_r in E.
  exists (set_slave s (set_tel (set_led_pwm v (tel a)) a)),
    (Firmware.exec_request (ReqPwmDuty 1 1 (v * 255 / 100)) d).
  assert (Forall (fun c => c <> 0) (str "led" ++ 32 :: dec v)) as Hnz.
  { apply Forall_app. split; [by repeat constructor|]. constructor; [done|].
    apply dec_nonzero. lia. }
  split; [|split; [|split; [|split; [exact Hs|]]]].
  - unfold handle_udp.
    assert (cstring (str "led" ++ 32 :: dec v ++ 0 :: rest) = Some (str "led" ++ 32 :: dec v)) as Ec.
    { pose proof (cstring_app _ rest Hnz) as Ec. by rewrite <-app_assoc in Ec. }
    match goal with |- context [to_char <$> ?h] =>
      change (to_char <$> h) with (Some (to_char 108)) end.
    cbn [defined mbind outcome_bind].
    replace ((to_char 108 <? 48) || (57 <? to_char 108)) with true
      by (unfold to_char; by rewrite andb_false_r).
    unfold handle_cmd. rewrite Ec. cbn [defined mbind outcome_bind].
    rewrite command_word by (done || by repeat constructor).
    rewrite decide_True by done. exact E.
  - unfold handle_ws. rewrite command_word by (done || by repeat constructor).
    rewrite !decide_False, decide_True by done. by rewrite E.
  - reflexivity.
  - split.
    + simpl. by rewrite Firmware.rget_respond, Firmware.rget_pwmDuty.
    + by apply (quiet_requests [ReqPwmDuty 1 1 (v * 255 / 100)]); repeat constructor.
Qed.

(** ** Start-up *)
Lemma startup_calls_ok : Forall call_ok startup_calls.
Proof.
  unfold startup_calls, call_ok. repeat (apply Forall_cons_2 || apply Forall_nil_2); simpl;
    unfold PIN_HBRIDGE_A, PIN_HBRIDGE_B, PIN_HBRIDGE_C, PIN_HBRIDGE_D, PIN_LED, OUTPUT; lia.
Qed.

(** What one [ReqPwmInit] does to registers and timers. *)
Lemma exec_init_first t c p d :
  0 <= t < 3 -> Firmware.configured (Firmware.timer_at (Z.to_nat t) d) = false ->
  let d' := Firmware.exec_request (ReqPwmInit t c p) d in
  Firmware.rget (Firmware.tccr_a t) d' =
    Z.lor (Firmware.wgm_value t) (Firmware.com_bits t c) /\
  Firmware.rget (Firmware.tccr_b t) d' = Firmware.clock_value t p /\
  (forall r, r <> Firmware.tccr_a t -> r <> Firmware.tccr_b t ->
     Firmware.rget r d' = Firmware.rget r d) /\
  Firmware.timers d' = <[Z.to_nat t := Firmware.TimerConfig p true]> (Firmware.timers d).
Proof.
  intros Ht Hc d'. subst d'. cbn [Firmware.exec_request].
  rewrite !Firmware.rget_respond, Firmware.initPwm_first by done.
  assert (Firmware.tccr_b t <> Firmware.tccr_a t)
    by (unfold Firmware.tccr_a, Firmware.tccr_b; by repeat case_match).
  unfold Firmware.enable_channel. rewrite !Firmware.rget_set_timer. splits; [| | |done].
  - by rewrite Firmware.rget_rset_eq, Firmware.rget_rset_ne, Firmware.rget_rset_eq.
  - by rewrite Firmware.rget_rset_ne, Firmware.rget_rset_eq.
  - intros r Ha Hb.
    by rewrite Firmware.rget_respond, Firmware.rget_set_timer, !Firmware.rget_rset_ne.
Qed.

Lemma exec_init_again t c p d :
  0 <= t < 3 -> Firmware.timer_at (Z.to_nat t) d = Firmware.TimerConfig p true ->
  let d' := Firmware.exec_request (ReqPwmInit t c p) d in
  Firmware.rget (Firmware.tccr_a t) d' =
    Z.lor (Firmware.rget (Firmware.tccr_a t) d) (Firmware.com_bits t c) /\
  (forall r, r <> Firmware.tccr_a t -> Firmware.rget r d' = Firmware.rget r d) /\
  Firmware.timers d' = <[Z.to_nat t := Firmware.TimerConfig p true]> (Firmware.timers d).
Proof.
  intros Ht Hc d'. subst d'. cbn [Firmware.exec_request].
  rewrite !Firmware.rget_respond, Firmware.initPwm_again by done.
  unfold Firmware.enable_channel. rewrite !Firmware.rget_set_timer. splits; [| |done].
  - by rewrite Firmware.rget_rset_eq.
  - intros r Ha. by rewrite Firmware.rget_respond, Firmware.rget_set_timer, Firmware.rget_rset_ne.
Qed.

(** The registers of a device whose five outputs are configured. *)
Definition pwm_configured d : Prop :=
  Firmware.rget Firmware.TCCR0A d = 163 /\ Firmware.rget Firmware.TCCR0B d = 1 /\
  Firmware.rget Firmware.TCCR1A d = 161 /\ Firmware.rget Firmware.TCCR1B d = 1 /\
  Firmware.rget Firmware.TCCR2A d = 35 /\ Firmware.rget Firmware.TCCR2B d = 1 /\
  Firmware.timers d = replicate 3 (Firmware.TimerConfig 1 true).

Definition init_requests : list request :=
  [ReqPwmInit 2 1 1; ReqPwmInit 0 1 1; ReqPwmInit 0 0 1; ReqPwmInit 1 0 1; ReqPwmInit 1 1 1].

Lemma startup_registers `{!Firmware.AvrHeaderLaws} d :
  Firmware.timers d = replicate 3 (Firmware.TimerConfig 0 false) ->
  pwm_configured (exec_all init_requests d).
Proof.
  intros Ht. unfold exec_all, init_requests. cbn [fold_left].
  destruct (exec_init_first 2 1 1 d) as (A1 & B1 & F1 & T1);
    [lia|unfold Firmware.timer_at; by rewrite Ht|].
  set (d1 := Firmware.exec_request (ReqPwmInit 2 1 1) d) in *. clearbody d1. rewrite Ht in T1.
  destruct (exec_init_first 0 1 1 d1) as (A2 & B2 & F2 & T2);
    [lia|unfold Firmware.timer_at; by rewrite T1|].
  set (d2 := Firmware.exec_request _ d1) in *. clearbody d2. rewrite T1 in T2.
  destruct (exec_init_again 0 0 1 d2) as (A3 & F3 & T3);
    [lia|unfold Firmware.timer_at; by rewrite T2|].
  set (d3 := Firmware.exec_request _ d2) in *. clearbody d3. rewrite T2 in T3.
  destruct (exec_init_first 1 0 1 d3) as (A4 & B4 & F4 & T4);
    [lia|unfold Firmware.timer_at; by rewrite T3|].
  set (d4 := Firmware.exec_request _ d3) in *. clearbody d4. rewrite T3 in T4.
  destruct (exec_init_again 1 1 1 d4) as (A5 & F5 & T5);
    [lia|unfold Firmware.timer_at; by rewrite T4|].
  set (d5 := Firmware.exec_request _ d4) in *. clearbody d5. rewrite T4 in T5.
  cbn in A1, B1, F1, A2, B2, F2, A3, F3, A4, B4, F4, A5, F5.
  destruct Firmware.wgm_bits as (E1 & E2 & E3 & E4 & E5),
    Firmware.com_bit_values as (E6 & E7 & E8 & E9).
  unfold Firmware.wgm_value, Firmware.com_bits, Firmware.clock_value, Firmware._BV in *.
  rewrite ?E1, ?E2, ?E3, ?E4, ?E5, ?E6, ?E7, ?E8, ?E9 in *.
  unfold pwm_configured. splits.
  - rewrite F5, F4, A3, A2 by done. reflexivity.
  - rewrite F5, F4, F3, B2 by done. reflexivity.
  - rewrite A5, A4. reflexivity.
  - rewrite F5, B4 by done. reflexivity.
  - rewrite F5, F4, F3, F2, A1 by done. reflexivity.
  - rewrite F5, F4, F3, F2, B1 by done. reflexivity.
  - rewrite T5. reflexivity.
Qed.

(** The options [main_app] converts to numbers. *)
Definition numeric_options : list (list Z) :=
  [str "baud"; str "js_port"; str "pwmr"; str "ka"; str "c"; str "m"; str "p"; str "vbat_csv"].

Lemma exec_pins_timers d :
  Firmware.timers (exec_all (take 5 (requests startup_calls)) d) = Firmware.timers d.
Proof. reflexivity. Qed.

Lemma exec_pins_trace d :
  Firmware.trace (exec_all (take 5 (requests startup_calls)) d) = Firmware.trace d ++
    [Firmware.EvPinMode 3 1; Firmware.EvPinMode 5 1; Firmware.EvPinMode 6 1;
     Firmware.EvPinMode 9 1; Firmware.EvPinMode 10 1].
Proof. simpl. by rewrite <-!app_assoc. Qed.

Lemma exec_inits_trace d : Firmware.trace (exec_all init_requests d) = Firmware.trace d.
Proof.
  assert (forall t c p d, Firmware.trace (Firmware.exec_request (ReqPwmInit t c p) d) =
    Firmware.trace d) as Hi by (intros; simpl; unfold Firmware.initPwm; by repeat case_match).
  unfold init_requests, exec_all. cbn [fold_left]. by rewrite !Hi.
Qed.

Lemma initial_inv c s : app_inv (initial_app c s).
Proof.
  split; [simpl; lia|]. split.
  - exact (Filter.new_filter_wf 5 ltac:(lia)).
  - exact (Filter.new_filter_wf 250 ltac:(lia)).
Qed.

Lemma startup_requests_split : requests startup_calls = take 5 (requests startup_calls) ++ init_requests.
Proof. reflexivity. Qed.

Lemma exec_all_app rs1 rs2 d : exec_all (rs1 ++ rs2) d = exec_all rs2 (exec_all rs1 d).
Proof. apply fold_left_app. Qed.

(** What the constructor leaves behind. *)
Lemma startup_ok `{!Firmware.AvrHeaderLaws}
    (serialOpen : list Z -> Z -> option P) (o : options_t) (p : P) (d : Firmware.device) :
  Forall (fun k => o !! k = None) numeric_options ->
  serialOpen (default (str "/dev/serial0") (o !! str "sdev")) 19200 = Some p ->
  drives d (new_slave p) ->
  Firmware.timers d = replicate 3 (Firmware.TimerConfig 0 false) ->
  exists a d', new_main_app serialOpen true o = Ret (11223, a) /\ drives d' (slave a) /\
    pwm_configured d' /\
    Firmware.trace d' = Firmware.trace d ++
      [Firmware.EvPinMode 3 1; Firmware.EvPinMode 5 1; Firmware.EvPinMode 6 1;
       Firmware.EvPinMode 9 1; Firmware.EvPinMode 10 1] /\
    app_inv a /\ default_drive (conf a) (therm a) /\ queue a = [] /\
    cx a = Counters 0 0 0 0 0 0 0 /\ still d d'.
Proof.
  intros Ho Hopen Hd Ht. unfold new_main_app, new_ArduinoSlave, stof_option.
  unfold numeric_options in Ho. repeat (apply Forall_cons in Ho as [?E Ho]).
  repeat match goal with E : o !! _ = None |- _ => rewrite E; clear E end.
  rewrite bind_Ret, Hopen, !bind_Ret. cbn [negb].
  match goal with |- context [slave_calls _ ?b] =>
    destruct (slave_calls_drives startup_calls b d startup_calls_ok Hd) as (s & -> & Hs) end.
  rewrite bind_Ret. eexists _, _. split; [reflexivity|]. split; [exact Hs|].
  rewrite startup_requests_split, exec_all_app. split; [|split; [|split; [|split; [done|split; [done|split; [done|]]]]]].
  - apply startup_registers. by rewrite exec_pins_timers.
  - by rewrite exec_inits_trace, exec_pins_trace.
  - exact (initial_inv _ s).
  - intros r Hr. by rewrite !rget_exec_all.
Qed.

(** Start-up.  Without numeric options the constructor opens the serial
    device at 19200 baud, binds port 11223 and leaves the defaults and the
    invariants the other theorems start from; a slave that has just run
    [setup] has its five pins as outputs and its three timers in fast PWM with
    the undivided clock, and its duties as they were. *)
Theorem startup_configures_slave `{!Firmware.AvrHeaderLaws}
    (serialOpen : list Z -> Z -> option P) (o : options_t) (p : P) (d : Firmware.device) :
  Forall (fun k => o !! k = None) numeric_options ->
  serialOpen (default (str "/dev/serial0") (o !! str "sdev")) 19200 = Some p ->
  drives d (new_slave p) ->
  Firmware.timers d = replicate 3 (Firmware.TimerConfig 0 false) ->
  exists a d', new_main_app serialOpen true o = Ret (11223, a) /\ drives d' (slave a) /\
    pwm_configured d' /\
    Firmware.trace d' = Firmware.trace d ++
      [Firmware.EvPinMode 3 1; Firmware.EvPinMode 5 1; Firmware.EvPinMode 6 1;
       Firmware.EvPinMode 9 1; Firmware.EvPinMode 10 1] /\
    app_inv a /\ default_drive (conf a) (therm a) /\ queue a = [] /\ still d d'.
Proof.
  intros Ho Hopen Hd Ht.
  destruct (startup_ok serialOpen o p d Ho Hopen Hd Ht)
    as (a & d' & E & Hd' & Hp & Htr & Hi & Hdr & Hq & _ & Hs).
  exists a, d'. by splits.
Qed.

(** Defect: the option [vbat_csv], which is meant to name the log file,
    is converted to a number and replaces the motor power of the thermal
    model. *)
Theorem vbat_csv_sets_motor_power (serialOpen : list Z -> Z -> option P) (v : list Z)
    (x : spec_float) (p : P) (d : Firmware.device) :
  stof v = Ret x -> serialOpen (str "/dev/serial0") 19200 = Some p -> drives d (new_slave p) ->
  exists a, new_main_app serialOpen true {[ str "vbat_csv" := v ]} = Ret (11223, a) /\
    PWM_POWER (conf a) = of_float x.
Proof.
  intros Hx Hopen Hd. unfold new_main_app, new_ArduinoSlave, stof_option.
  rewrite lookup_singleton_eq, !lookup_singleton_ne by done.
  rewrite bind_Ret. cbn [default from_option]. rewrite Hopen, Hx, !bind_Ret. cbn [negb].
  match goal with |- context [slave_calls _ ?b] =>
    destruct (slave_calls_drives startup_calls b d startup_calls_ok Hd) as (s & -> & Hs) end.
  rewrite bind_Ret. by eexists.
Qed.

(** ** The thermal model *)
Lemma timer_thr_counts n a :
  timer_cx_thr (cx a) = 0 -> Z.of_nat n < 4294967296 ->
  timer_cx_thr (cx (Nat.iter n timer_thr a)) = Z.of_nat n /\
  conf (Nat.iter n timer_thr a) = conf a /\ tel (Nat.iter n timer_thr a) = tel a /\
  therm (Nat.iter n timer_thr a) =
    Nat.iter (n - 9) (thermal_step (conf a) (left_pwm (tel a)) (right_pwm (tel a))) (therm a).
Proof.
  intros Hz. induction n as [|n IH]; intros Hn; [done|].
  destruct IH as (Hc & Hconf & Htel & Hth); [lia|]. rewrite Nat.iter_succ.
  set (b := Nat.iter n timer_thr a) in *. unfold timer_thr, TIMER_CI_THR.
  cbn [set_cx set_thr cx timer_cx_thr]. rewrite Hc, u32_small by lia.
  destruct (Z.leb_spec 10 (Z.of_nat n + 1)).
  - replace (S n - 9)%nat with (S (n - 9)) by lia. rewrite Nat.iter_succ, <-Hth.
    cbn [set_therm set_cx conf tel cx]. rewrite Hconf, Htel. case_match; simpl; splits; try done; lia.
  - replace (S n - 9)%nat with 0%nat by lia. replace (n - 9)%nat with 0%nat in Hth by lia.
    simpl. splits; try done; lia.
Qed.

(** Defect: the counter of the thermal model is never restarted, so after
    the first ten timer messages the model advances at every one of them: of
    [n] messages it runs [n - 9] times, although each step accounts for ten of
    them. *)
Theorem thermal_model_overruns (n : nat) (a : main_app P) :
  timer_cx_thr (cx a) = 0 -> Z.of_nat n < 4294967296 ->
  therm (Nat.iter n timer_thr a) =
    Nat.iter (n - 9) (thermal_step (conf a) (left_pwm (tel a)) (right_pwm (tel a))) (therm a).
Proof. apply timer_thr_counts. Qed.

(** ** The status text *)

(** The fields the browser reads, in order. *)
Definition stats_fields a (vb vs : double) : list (list Z) :=
  let t := tel a in
  [str "stats"; show_double (soc_temp t); dec (fan_pwm t); dec (led_pwm t);
   show_double (mot_temp (therm a)); dec (left_pwm t); dec (right_pwm t);
   show_double vb; show_double vs; dec (slave_trx t).1; dec (slave_trx t).2;
   dec_signed (wifi_quality t); dec_signed (wifi_signal t)].

(** The unsigned members are not negative. *)
Definition tel_wf (t : telemetry) : Prop :=
  0 <= fan_pwm t /\ 0 <= led_pwm t /\ 0 <= left_pwm t /\ 0 <= right_pwm t /\
  0 <= (slave_trx t).1 /\ 0 <= (slave_trx t).2.

(** The status answer.  Once the battery has been read, [stats] answers
    the connection that asked with one line whose blank-separated words are
    exactly the word [stats] and the twelve values in the order the browser
    expects, provided floating-point numbers print without blanks. *)
Theorem stats_answer_fields (id : Z) (a : main_app P) (g : WsServer.ws_server) (vb vs : double) :
  (forall x, is_word (show_double x)) -> tel_wf (tel a) ->
  vbat (batt a) = Some vb -> vbat_slope (batt a) = Some vs ->
  exists line, handle_ws id (str "stats") a g =
      Ret (a, (WsServer.ws_send id (line ++ [10]) g).2) /\
    words line = stats_fields a vb vs.
Proof.
  intros Hshow (H1' & H2' & H3' & H4' & H5' & H6') Hvb Hvs.
  exists (unwords (stats_fields a vb vs)). split.
  - unfold handle_ws. change (extract_word (stringstream (str "stats"))) with
      (str "stats", IStream [] false true). cbv beta iota.
    rewrite decide_True by done. unfold stats_text, show_maybe. rewrite Hvb, Hvs.
    cbn [defined]. rewrite !bind_Ret. do 4 f_equal. unfold stats_fields. cbn [unwords].
    rewrite <-!app_assoc. simpl. repeat (f_equal; rewrite <-?app_assoc; simpl).
  - apply words_unwords. unfold stats_fields.
    repeat apply Forall_cons_2; try apply Forall_nil_2;
      auto using dec_is_word, dec_signed_is_word.
    split; [done|]. by repeat constructor.
Qed.

(** ** The fan *)
Definition fan_percent (celsius : Z) : Z := Z.max 0 (Z.min 100 (Z.quot (5 * (celsius - 40)) 2)).

Definition fan_exact (k : Z) : bool :=
  bool_decide (fan_duty (celsius (1000 * k)) = Some (fan_percent k)) &&
  bool_decide (of_float (celsius (1000 * k)) = d_of_Z k) &&
  SFltb (f_of_Z 0) (celsius (1000 * k)).

Lemma fans_exact : forallb fan_exact (seqZ 1 150) = true.
Proof. vm_compute. reflexivity. Qed.

(** The fan.  Every thousandth timer message reads the processor's
    temperature file; at [k] degrees, for every [k] from 1 to 150, the duty
    recorded for the fan is [(k - 40) * 2.5] percent, rounded towards zero and
    clamped to 0 and 100. *)
Theorem fan_follows_temperature (k : Z) (e : environment) (a : main_app P) :
  1 <= k <= 150 -> timer_cx_fan (cx a) = 999 ->
  thermal_zone e = Some (dec (1000 * k) ++ [10]) ->
  exists a', timer_fan e a = Ret a' /\ fan_pwm (tel a') = fan_percent k /\
    soc_temp (tel a') = d_of_Z k /\ timer_cx_fan (cx a') = 0.
Proof.
  intros Hk Hc He. unfold timer_fan. cbn [set_cx cx set_fan timer_cx_fan]. rewrite Hc, He.
  change (TIMER_CI_FAN <=? u32 (999 + 1)) with true. cbv iota. cbn [file_stream].
  assert (dec (1000 * k) = dec_signed (1000 * k)) as Ed
    by (unfold dec_signed; by replace (1000 * k <? 0) with false by lia).
  rewrite (extract_int_at _ (1000 * k) [10]); [|lia|done|].
  2: { destruct (dec_signed_start (1000 * k)) as (c & cs & E & Hc'). rewrite Ed, E.
    by apply at_token_here. }
  cbn [fst defined]. rewrite bind_Ret.
  pose proof (forallb_seqZ _ _ _ fans_exact k ltac:(lia)) as E.
  apply andb_true_iff in E as [E Epos]. apply andb_true_iff in E as [E1 E2].
  apply bool_decide_eq_true in E1, E2. rewrite Epos, E1. cbn [defined]. rewrite bind_Ret.
  eexists. split; [reflexivity|]. cbn [set_tel set_fan_pwm fan_pwm tel soc_temp set_soc_temp cx].
  assert (0 <= fan_percent k <= 100) by (unfold fan_percent; lia).
  rewrite u32_small by lia. by splits.
Qed.
End AppIO.
