(* ===== verification/AppWitnesses.v ===== *)
(** * Witnesses of the application's theorems

    The theorems of [AppProps] and [AppIO] at concrete inputs: the application
    on a line without faults, with the firmware of an ATmega328P that has just
    run [setup] at its other end. *)
From S2P Require Import Prelude Messages Arduino Link Double Text Regex App AppProps AppIO.
From S2P Require Firmware Filter WsServer.

Section AppWitnesses.
#[local] Existing Instance Firmware.atmega328p.
#[local] Existing Instance Firmware.atmega328p_laws.
#[local] Existing Instance Firmware.sample_core.

(** A platform with unsigned [char] and 32-bit [long], as the Raspberry Pi. *)
#[local] Instance sample_platform : Platform := {|
  char_signed := false; ulong_bits := 32;
  stof s := if decide (s = str "2.5") then Ret (to_float (d_lit 25 1)) else Throw InvalidArgument;
  show_double _ := str "1.5" |}.

Definition sample_device : Firmware.device := Firmware.dev Firmware.sample_state.

Definition sample_app : main_app link :=
  let a := initial_app (Config 255 (d_lit 12 4) (d_lit 1 6) (d_lit 466 3) (d_lit 6 2))
             (new_slave (sample_link [])) in
  set_batt (Battery (Some (d_of_Z 12)) (Some (d_of_Z 0)) [] 0
    (Filter.new_filter 5) (Filter.new_filter 250)) a.

Lemma sample_drives : drives sample_device (slave sample_app).
Proof. split; [apply sample_link_ready|]. done. Qed.

Lemma sample_inv : app_inv sample_app.
Proof.
  split; [simpl; lia|]. split.
  - exact (Filter.new_filter_wf 5 ltac:(lia)).
  - exact (Filter.new_filter_wf 250 ltac:(lia)).
Qed.

Lemma joystick_drives_motors_witness :
  exists a' d', handle_js (JsData 0 0 250 (-500)) sample_app = Ret a' /\
    drives d' (slave a') /\
    Firmware.rget Firmware.OCR2B d' = 127 /\ Firmware.rget Firmware.OCR0B d' = 0 /\
    Firmware.rget Firmware.OCR0A d' = 255 /\ Firmware.rget Firmware.OCR1A d' = 0.
Proof.
  destruct (joystick_drives_motors (JsData 0 0 250 (-500)) sample_app sample_device)
    as (a' & d' & E & Hd & H1 & H2 & H3 & H4 & _);
    [simpl; lia|simpl; lia|by split|apply sample_drives|].
  exists a', d'. by splits.
Defined.

(** Half a second of timer messages, with a status request and an LED command
    in between. *)
Definition sample_env : environment :=
  Environment (Some (str "48312")) (Some (str "a")) 1600000000.

Definition sample_events : list handled :=
  replicate 300 (HandledTimer sample_env) ++
  [HandledWs 1 (str "stats"); HandledUdp (str "led 40" ++ [0])] ++
  replicate 200 (HandledTimer sample_env).

Lemma watchdog_stops_motors_witness :
  exists a' g' d', handle_all sample_events (sample_app, WsServer.new_server) = Ret (a', g') /\
    drives d' (slave a') /\ stopped d'.
Proof.
  destruct (watchdog_stops_motors sample_events sample_app WsServer.new_server sample_device) as [Hs Hr].
  - apply sample_inv.
  - apply sample_drives.
  - apply Forall_app. split; [by apply Forall_replicate|].
    constructor; [reflexivity|]. constructor; [reflexivity|]. by apply Forall_replicate.
  - apply Nat.leb_le. vm_compute. reflexivity.
  - destruct Hr as (a' & g' & E); [split; eexists; reflexivity| |].
    + apply Forall_app. split; [by apply Forall_replicate; vm_compute|].
      constructor; [by vm_compute|]. constructor; [by vm_compute|].
      by apply Forall_replicate; vm_compute.
    + destruct (Hs a' g' E) as (d' & Hd' & Hst). exists a', g', d'. split; [exact E|]. split; [exact Hd'|exact Hst].
Defined.

Lemma joystick_datagram_roundtrip_witness :
  exists buffer', length buffer' = 1024%nat /\
    run_udp (str "1500200015001000") (replicate 1024 0) sample_app =
    Ret (buffer', enqueue (JS (JsData 0 0 500 (-500))) sample_app).
Proof.
  apply (joystick_datagram_roundtrip 1500 2000 1500 1000 (replicate 1024 0) sample_app); try lia.
  by rewrite length_replicate.
Defined.

Lemma ws_js_roundtrip_witness :
  handle_ws 7 (str "js -40 100") sample_app WsServer.new_server =
    Ret (enqueue (JS (JsData 0 0 (-200) 500)) sample_app, WsServer.new_server).
Proof. apply (ws_js_roundtrip 7 (-40) 100 sample_app WsServer.new_server); lia. Defined.

Lemma led_sets_duty_witness :
  exists a' d', handle_udp (str "led 40" ++ 0 :: [1; 2; 3]) sample_app = Ret a' /\
    handle_ws 7 (str "led 40") sample_app WsServer.new_server = Ret (a', WsServer.new_server) /\
    led_pwm (tel a') = 40 /\ drives d' (slave a') /\
    Firmware.rget Firmware.OCR1B d' = 102 /\ quiet sample_device d'.
Proof.
  apply (led_sets_duty 7 40 [1; 2; 3] sample_app WsServer.new_server sample_device);
    [lia|apply sample_drives].
Defined.

Lemma startup_configures_slave_witness :
  exists a d', new_main_app (fun _ _ => Some (sample_link [])) true
      {[ str "sdev" := str "/dev/ttyS0" ]} = Ret (11223, a) /\
    drives d' (slave a) /\ pwm_configured d'.
Proof.
  destruct (startup_configures_slave (fun _ _ => Some (sample_link []))
    {[ str "sdev" := str "/dev/ttyS0" ]} (sample_link []) sample_device)
    as (a & d' & E & Hd & Hc & _).
  - unfold numeric_options. repeat (apply Forall_cons_2 || apply Forall_nil_2);
      by apply lookup_singleton_ne.
  - reflexivity.
  - apply sample_drives.
  - reflexivity.
  - exists a, d'. split; [exact E|]. split; [exact Hd|exact Hc].
Defined.

Lemma vbat_csv_sets_motor_power_witness :
  exists a, new_main_app (fun _ _ => Some (sample_link [])) true
      {[ str "vbat_csv" := str "2.5" ]} = Ret (11223, a) /\
    PWM_POWER (conf a) = of_float (to_float (d_lit 25 1)).
Proof.
  apply (vbat_csv_sets_motor_power (fun _ _ => Some (sample_link [])) (str "2.5")
    (to_float (d_lit 25 1)) (sample_link []) sample_device); [done|done|apply sample_drives].
Defined.

Lemma thermal_model_overruns_witness :
  therm (Nat.iter 11 timer_thr sample_app) =
    Nat.iter 2 (thermal_step (conf sample_app) 0 0) (therm sample_app).
Proof. apply (thermal_model_overruns 11 sample_app); [done|simpl; lia]. Defined.

Lemma stats_answer_fields_witness :
  exists line, handle_ws 3 (str "stats") sample_app WsServer.new_server =
      Ret (sample_app, (WsServer.ws_send 3 (line ++ [10]) WsServer.new_server).2) /\
    words line = stats_fields sample_app (d_of_Z 12) (d_of_Z 0).
Proof.
  apply (stats_answer_fields 3 sample_app WsServer.new_server (d_of_Z 12) (d_of_Z 0)).
  - intros x. split; [done|]. by repeat constructor.
  - by repeat split.
  - reflexivity.
  - reflexivity.
Defined.

Lemma fan_follows_temperature_witness :
  exists a', timer_fan (Environment (Some (str "61000" ++ [10])) None 0)
      (set_cx (set_fan 999 (cx sample_app)) sample_app) = Ret a' /\
    fan_pwm (tel a') = 52 /\ soc_temp (tel a') = d_of_Z 61 /\ timer_cx_fan (cx a') = 0.
Proof.
  apply (fan_follows_temperature 61); [lia|reflexivity|reflexivity].
Defined.
End AppWitnesses.
