(* ===== verification/Vehicle.v ===== *)
(** * The vehicle: what the rover program promises as a whole

    The program of [App] with its threads as events, the vehicle it is meant
    to be, and the proof that the program behaves like the vehicle: what the
    motors and the LED do is a function of the inputs, whatever the battery,
    the temperatures, the files and the browser say in between. *)
From S2P Require Import Prelude Messages Arduino Link Double Text Regex App AppProps AppIO AppWitnesses.
From S2P Require Firmware Filter WsServer.

(** ** The program: an iteration of one of its threads *)
Inductive event :=
| Datagram (bytes : list Z)              (** [run_udp] *)
| WsText (id : Z) (text : list Z)        (** [run_ws] *)
| TimerThread (now_us : Z)               (** [run_timer] *)
| Dispatch (e : environment).            (** [run] *)

Record program (P : Type) := Program {
  app : main_app P; sessions : WsServer.ws_server; rcv_raw_buffer : list Z }.
Arguments Program {P}.
Arguments app {P}.
Arguments sessions {P}.
Arguments rcv_raw_buffer {P}.

(** ** The vehicle

    Signed speeds of the two sides in steps of the duty, positive forward;
    the duty of the LED; the timer messages since the last joystick position;
    the messages not handled yet; what the datagrams left in the receive
    buffer; whether the battery has been measured. *)
Record vehicle := Vehicle {
  left_speed : Z; right_speed : Z; light : Z; idle : Z;
  pending : list queue_msg_t; inbox : list Z; metered : bool }.

Definition stick_speed (y : Z) : Z := if 0 <? y then stick_duty y else - stick_duty y.

(** A message taken from the queue. *)
Definition vehicle_message (m : queue_msg_t) (v : vehicle) : vehicle :=
  match m with
  | JS js => Vehicle (stick_speed (left_y js)) (stick_speed (right_y js)) (light v) 0
               (pending v) (inbox v) (metered v)
  | TIMER _ =>
      if 500 <=? idle v + 1
      then Vehicle 0 0 (light v) 0 (pending v) (inbox v) (metered v)
      else Vehicle (left_speed v) (right_speed v) (light v) (idle v + 1)
             (pending v) (inbox v) (metered v)
  end.

Definition vehicle_queue (q : list queue_msg_t) (v : vehicle) : vehicle :=
  Vehicle (left_speed v) (right_speed v) (light v) (idle v) q (inbox v) (metered v).

Definition vehicle_demand (m : demand) (v : vehicle) : vehicle :=
  match m with
  | Steer js => vehicle_queue (pending v ++ [JS js]) v
  | Light n => Vehicle (left_speed v) (right_speed v) n (idle v) (pending v) (inbox v) (metered v)
  | Nothing => v
  end.

Definition vehicle_inbox (buffer : list Z) (v : vehicle) : vehicle :=
  Vehicle (left_speed v) (right_speed v) (light v) (idle v) (pending v) buffer (metered v).

Section Vehicle.
Context `{Firmware.AvrHeader} `{Firmware.ArduinoCore} {P : Type} `{SerialPort P}
  `{!SlaveDriver P} `{Platform}.
Implicit Types (a : main_app P) (d : Firmware.device) (p : program P) (v : vehicle).

Definition exec_event (ev : event) p : outcome (program P) :=
  match ev with
  | Datagram bytes =>
      '(buffer, a) ← run_udp bytes (rcv_raw_buffer p) (app p); Ret (Program a (sessions p) buffer)
  | WsText id text =>
      '(a, g) ← handle_ws id text (app p) (sessions p); Ret (Program a g (rcv_raw_buffer p))
  | TimerThread now_us => Ret (Program (run_timer now_us (app p)) (sessions p) (rcv_raw_buffer p))
  | Dispatch e =>
      match run e (app p) with
      | None => Ret p
      | Some o => a ← o; Ret (Program a (sessions p) (rcv_raw_buffer p))
      end
  end.

Fixpoint exec_events (evs : list event) p : outcome (program P) :=
  match evs with [] => Ret p | ev :: evs' => p ← exec_event ev p; exec_events evs' p end.

Definition received_buffer (bytes : list Z) v : list Z := overwrite (take 1024 bytes) (inbox v).

Definition vehicle_event (ev : event) v : vehicle :=
  match ev with
  | Datagram bytes =>
      let buffer := received_buffer bytes v in
      vehicle_demand (udp_demand buffer) (vehicle_inbox buffer v)
  | WsText _ text => vehicle_demand (ws_demand text) v
  | TimerThread now_us => vehicle_queue (pending v ++ [TIMER now_us]) v
  | Dispatch _ =>
      match pending v with
      | [] => v
      | m :: q => vehicle_message m (vehicle_queue q v)
      end
  end.

Definition vehicle_events (evs : list event) v : vehicle :=
  fold_left (fun v ev => vehicle_event ev v) evs v.

(** ** Inputs with defined behaviour

    Complete commands, positions up to twice full scale, readable files; no
    [stats] request before the battery has been measured. *)
Definition stick_ok (y : Z) : bool := (-1000 <=? y) && (y <=? 1000).
Definition message_ok (m : queue_msg_t) : bool :=
  match m with JS js => stick_ok (left_y js) && stick_ok (right_y js) | TIMER _ => true end.
Definition demand_ok (m : demand) : bool :=
  match m with Steer js => message_ok (JS js) | _ => true end.

Definition admissible (ev : event) v : bool :=
  match ev with
  | Datagram bytes =>
      let buffer := received_buffer bytes v in udp_ok buffer && demand_ok (udp_demand buffer)
  | WsText _ text =>
      ws_ok text && implb (asks_stats text) (metered v) && demand_ok (ws_demand text)
  | TimerThread _ => true
  | Dispatch e => env_ok e
  end.

Fixpoint all_admissible (evs : list event) v : bool :=
  match evs with
  | [] => true
  | ev :: evs' => admissible ev v && all_admissible evs' (vehicle_event ev v)
  end.

(** ** The relation between program and vehicle *)

(** The five PWM outputs: one input of a bridge drives, the other is off. *)
Record shows v d : Prop := Shows {
  left_forward : Firmware.rget Firmware.OCR2B d = Z.max 0 (left_speed v);
  left_backward : Firmware.rget Firmware.OCR0B d = Z.max 0 (- left_speed v);
  right_forward : Firmware.rget Firmware.OCR1A d = Z.max 0 (right_speed v);
  right_backward : Firmware.rget Firmware.OCR0A d = Z.max 0 (- right_speed v);
  led_on : Firmware.rget Firmware.OCR1B d = light v }.

Record implements_with v p d : Prop := Implements {
  imp_drives : drives d (slave (app p));
  imp_shows : shows v d;
  imp_inv : app_inv (app p);
  imp_drive : default_drive (conf (app p)) (therm (app p));
  imp_idle : timer_cx_wdt (cx (app p)) = idle v;
  imp_queue : queue (app p) = pending v;
  imp_inbox : rcv_raw_buffer p = inbox v;
  imp_metered : metered v = true -> batt_known (batt (app p));
  imp_pending : forallb message_ok (pending v) = true }.

Definition implements v p : Prop := exists d, implements_with v p d.

(** ** The simulation *)
Lemma quiet_shows v v' d d' :
  quiet d d' -> shows v d -> Firmware.rget Firmware.OCR1B d' = light v' ->
  left_speed v' = left_speed v -> right_speed v' = right_speed v -> shows v' d'.
Proof.
  intros Hq [S1 S2 S3 S4 _] Hl El Er.
  unfold quiet, motor_regs in Hq. repeat (apply Forall_cons in Hq as [?E Hq]).
  split; try done; congruence.
Qed.

Lemma stick_max y :
  (if 0 <? y then stick_duty y else 0) = Z.max 0 (stick_speed y) /\
  (if 0 <? y then 0 else stick_duty y) = Z.max 0 (- stick_speed y).
Proof.
  unfold stick_speed, stick_duty, stick_quotient. pose proof (u8_bound (Z.abs y * 255 / 500)). case_match; lia.
Qed.

Lemma demand_implements m v a' d' p d g :
  implements_with v p d -> meets m (app p) d a' d' -> demand_ok m = true ->
  implements_with (vehicle_demand m v) (Program a' g (rcv_raw_buffer p)) d'.
Proof.
  intros Hi (Hd & Hq & Eb & Ec & Ef & Et & Eq & El) Hm.
  destruct Hi as [_ Hs Hinv Hdr Hid Hqu Hin Hme Hpe].
  split; cbn [app rcv_raw_buffer]; unfold app_inv; rewrite ?Eb, ?Ec, ?Ef, ?Et, ?Eq, ?Hqu; try done.
  - eapply quiet_shows; [done|done| |by destruct m..]. rewrite El. destruct m; try done; apply Hs.
  - by destruct m.
  - destruct m; [done| |]; by rewrite app_nil_r.
  - by destruct m.
  - by destruct m.
  - destruct m; [|done|done]. cbn [vehicle_demand vehicle_queue pending].
    rewrite forallb_app. cbn [forallb]. by rewrite Hpe, andb_true_r.
Qed.

Lemma datagram_implements bytes v p d :
  implements_with v p d -> admissible (Datagram bytes) v = true ->
  exists p' d', exec_event (Datagram bytes) p = Ret p' /\
    implements_with (vehicle_event (Datagram bytes) v) p' d'.
Proof.
  intros Hi [Hok Hm]%andb_true_iff. cbn [exec_event vehicle_event]. unfold run_udp.
  rewrite (imp_inbox _ _ _ Hi). fold (received_buffer bytes v).
  set (buffer := received_buffer bytes v) in *.
  destruct (handle_udp_ok buffer (app p) d Hok (imp_drives _ _ _ Hi)) as (a' & d' & -> & Hme).
  cbn [mbind outcome_bind]. eexists _, d'. split; [reflexivity|].
  apply (demand_implements _ _ _ _ (Program (app p) (sessions p) buffer) d); [|done|done].
  destruct Hi as [Hd Hs Hinv Hdr Hid Hqu Hin Hmt Hpe]. split; try done. by destruct Hs.
Qed.

Lemma ws_implements id text v p d :
  implements_with v p d -> admissible (WsText id text) v = true ->
  exists p' d', exec_event (WsText id text) p = Ret p' /\
    implements_with (vehicle_event (WsText id text) v) p' d'.
Proof.
  intros Hi [[Hok Hst]%andb_true_iff Hm]%andb_true_iff. cbn [exec_event vehicle_event].
  destruct (handle_ws_ok id text (app p) (sessions p) d Hok) as (a' & g' & d' & -> & Hme).
  - intros E. apply (imp_metered _ _ _ Hi). by rewrite E in Hst.
  - apply Hi.
  - cbn [mbind outcome_bind]. eexists _, d'. split; [reflexivity|].
    by apply (demand_implements _ _ _ _ p d).
Qed.

Lemma js_implements js q e v p d :
  implements_with v p d -> pending v = JS js :: q ->
  exists p' d', exec_event (Dispatch e) p = Ret p' /\
    implements_with (vehicle_event (Dispatch e) v) p' d'.
Proof.
  intros [Hd Hs Hinv Hdr Hid Hqu Hin Hme Hpe] Eq. cbn [exec_event vehicle_event]. unfold run.
  rewrite Eq in *. rewrite Hqu. cbn [forallb] in Hpe. apply andb_true_iff in Hpe as [Hm Hpe].
  apply andb_true_iff in Hm as [Hl Hr]. unfold stick_ok in Hl, Hr.
  destruct (handle_js_ok js (set_queue q (app p)) d)
    as (a' & d' & -> & Hd' & H2b & H0b & H0a & H1a & Hk & Ec & Eb & (Ef & Et & Eq') & _);
    [lia|lia|done|done|].
  cbn [mbind outcome_bind]. eexists _, d'. split; [reflexivity|].
  destruct (stick_max (left_y js)) as [L1 L2], (stick_max (right_y js)) as [R1 R2].
  split; cbn [app rcv_raw_buffer]; unfold app_inv, default_drive; rewrite ?Eb, ?Ec, ?Ef, ?Et, ?Eq'; try done.
  - split; cbn [vehicle_message left_speed right_speed light vehicle_queue]; try congruence.
    rewrite Hk; [apply Hs|done|]. unfold motor_regs. rewrite !elem_of_cons, elem_of_nil.
    intuition discriminate.
  - split; [simpl; lia|apply Hinv].
Qed.

Lemma stopped_shows v d : stopped d -> left_speed v = 0 -> right_speed v = 0 ->
  Firmware.rget Firmware.OCR1B d = light v -> shows v d.
Proof.
  intros Hq El Er Hl. unfold stopped, motor_regs in Hq.
  repeat (apply Forall_cons in Hq as [?E Hq]). split; rewrite ?El, ?Er; done.
Qed.

Lemma timer_implements t q e v p d :
  implements_with v p d -> pending v = TIMER t :: q -> env_ok e = true ->
  exists p' d', exec_event (Dispatch e) p = Ret p' /\
    implements_with (vehicle_event (Dispatch e) v) p' d'.
Proof.
  intros [Hd Hs Hinv Hdr Hid Hqu Hin Hme Hpe] Eq He. cbn [exec_event vehicle_event]. unfold run.
  rewrite Eq in *. rewrite Hqu.
  destruct (handle_timer_ok e (set_queue q (app p)) d Hinv He Hd)
    as (a' & d' & -> & Hd' & Hinv' & Hk & (Ef & Et & Eq') & Hstep & Hled).
  cbn [mbind outcome_bind]. eexists _, d'. split; [reflexivity|].
  cbn [set_queue cx conf therm queue batt] in *. rewrite Hid in Hstep.
  cbn [vehicle_message vehicle_queue idle].
  destruct Hstep as [(Hle & Ez & Hst)|(Hlt & Ew & Hqt)];
    [rewrite (proj2 (Z.leb_le 500 _) Hle)|rewrite (proj2 (Z.leb_gt 500 _) Hlt)];
    split; cbn [app rcv_raw_buffer]; unfold default_drive; rewrite ?Ef, ?Et, ?Eq'; try done; try (by intros Hm; apply Hk, Hme).
  - apply stopped_shows; try done. rewrite Hled. apply Hs.
  - eapply quiet_shows; try done. rewrite Hled. apply Hs.
Qed.

Lemma event_implements ev v p d :
  implements_with v p d -> admissible ev v = true ->
  exists p' d', exec_event ev p = Ret p' /\ implements_with (vehicle_event ev v) p' d'.
Proof.
  intros Hi Ha. destruct ev as [bytes|id text|now_us|e].
  - by apply (datagram_implements bytes v p d).
  - by apply (ws_implements id text v p d).
  - eexists _, d. split; [reflexivity|]. destruct Hi as [Hd Hs Hinv Hdr Hid Hqu Hin Hme Hpe].
    split; try done; [by destruct Hs|by apply (f_equal (fun q => q ++ [TIMER now_us]))|].
    cbn [vehicle_event vehicle_queue pending]. by rewrite forallb_app, Hpe.
  - destruct (pending v) as [|[js|t] q] eqn:Eq.
    + exists p, d. cbn [exec_event vehicle_event]. unfold run. rewrite (imp_queue _ _ _ Hi), Eq.
      by split.
    + by apply (js_implements js q e v p d).
    + by apply (timer_implements t q e v p d).
Qed.

Lemma events_implement evs : forall v p d,
  implements_with v p d -> all_admissible evs v = true ->
  exists p' d', exec_events evs p = Ret p' /\ implements_with (vehicle_events evs v) p' d'.
Proof.
  induction evs as [|ev evs IH]; intros v p d Hi Ha; [by exists p, d|].
  cbn [all_admissible] in Ha. apply andb_true_iff in Ha as [Ha1 Ha2].
  destruct (event_implements ev v p d Hi Ha1) as (p1 & d1 & E & Hi1).
  destruct (IH _ p1 d1 Hi1 Ha2) as (p2 & d2 & E2 & Hi2).
  exists p2, d2. cbn [exec_events]. by rewrite E.
Qed.

(** C1. The program behaves like the vehicle.  From related states, any
    admissible sequence of datagrams, browser messages, timer messages and
    dispatcher iterations runs to its end without an exception or undefined
    behaviour, and the state it ends in is related to the one the vehicle
    reaches: in particular the five PWM registers show the vehicle's speeds
    and light, at most one input of each bridge is driven, and the queue holds
    the vehicle's pending messages. *)
Theorem program_refines_vehicle (evs : list event) (v : vehicle) (p : program P) :
  implements v p -> all_admissible evs v = true ->
  exists p', exec_events evs p = Ret p' /\ implements (vehicle_events evs v) p'.
Proof.
  intros [d Hi] Ha. destruct (events_implement evs v p d Hi Ha) as (p' & d' & E & Hi').
  exists p'. split; [done|]. by exists d'.
Qed.

(** *** From start-up *)
Definition new_vehicle (buffer : list Z) : vehicle := Vehicle 0 0 0 0 [] buffer false.

Definition all_off d : Prop := forall r, Firmware.is_duty_reg r = true -> Firmware.rget r d = 0.

Lemma startup_implements `{!Firmware.AvrHeaderLaws} (serialOpen : list Z -> Z -> option P)
    (o : options_t) (port : P) d buffer :
  Forall (fun k => o !! k = None) numeric_options ->
  serialOpen (default (str "/dev/serial0") (o !! str "sdev")) 19200 = Some port ->
  drives d (new_slave port) -> all_off d ->
  Firmware.timers d = replicate 3 (Firmware.TimerConfig 0 false) ->
  exists a d', new_main_app serialOpen true o = Ret (11223, a) /\
    implements_with (new_vehicle buffer) (Program a WsServer.new_server buffer) d'.
Proof.
  intros Ho Hopen Hd Hoff Ht.
  destruct (startup_ok serialOpen o port d Ho Hopen Hd Ht)
    as (a & d' & E & Hd' & _ & _ & Hi & Hdr & Hq & Hc & Hs).
  exists a, d'. split; [done|]. split; try done.
  - split; rewrite Hs by done; by apply Hoff.
  - cbn [app]. by rewrite Hc.
Qed.
End Vehicle.

(** C2. The rover from power-on to the pins.  The constructor, given no numeric
    option, opens a line without faults to a firmware that has just run [setup];
    after any admissible sequence of events the compare registers of the
    controller at the other end of that line show the speeds and the light of
    the vehicle that started at rest, and the line is ready for the next call. *)
Theorem rover_end_to_end
    `{Firmware.AvrHeaderLaws} `{Firmware.ArduinoCore} `{Platform}
    (serialOpen : list Z -> Z -> option link) (o : options_t) (l : link)
    (d : Firmware.device) (buffer : list Z) (evs : list event) :
  Forall (fun k => o !! k = None) numeric_options ->
  serialOpen (default (str "/dev/serial0") (o !! str "sdev")) 19200 = Some l ->
  link_ready d l -> fates l = [] -> all_off d ->
  Firmware.timers d = replicate 3 (Firmware.TimerConfig 0 false) ->
  all_admissible evs (new_vehicle buffer) = true ->
  exists a p' d',
    new_main_app serialOpen true o = Ret (11223, a) /\
    exec_events evs (Program a WsServer.new_server buffer) = Ret p' /\
    link_ready d' (port (slave (app p'))) /\
    shows (vehicle_events evs (new_vehicle buffer)) d'.
Proof.
  intros Ho Hopen Hl Hf Hoff Ht Ha.
  destruct (startup_implements serialOpen o l d buffer Ho Hopen) as (a & d0 & E & Hi);
    [by split|done|done|].
  destruct (events_implement evs _ _ _ Hi Ha) as (p' & d' & E' & Hi').
  exists a, p', d'. split; [done|]. split; [done|].
  destruct Hi' as [(Hl' & _) Hs _ _ _ _ _ _ _]. by split.
Qed.

(** ** Bounds *)

(** C35. The duty of a stick.  With the default range, a stick up to twice full
    scale gives a duty below 511, the exact quotient [|y| * 255 / 500]; it
    passes the conversion to [uint8_t] unchanged up to a deflection of 501,
    where it grows with the deflection, and no further. *)
Theorem stick_duty_bounds (c : config) (t : thermal) (y y' : Z) :
  default_drive c t -> -1000 <= y <= 1000 -> -1000 <= y' <= 1000 ->
  exists n n', stick_pwm y c t = Some n /\ stick_pwm y' c t = Some n' /\
    0 <= n <= 510 /\ 500 * n <= 255 * Z.abs y < 500 * (n + 1) /\
    (u8 n = n <-> Z.abs y <= 501) /\
    (Z.abs y <= Z.abs y' <= 501 -> u8 n <= u8 n').
Proof.
  intros Hd Hy Hy'. destruct (stick_pwm_exact y c t Hd Hy) as [-> _].
  destruct (stick_pwm_exact y' c t Hd Hy') as [-> _].
  eexists _, _. split; [reflexivity|]. split; [reflexivity|].
  pose proof (Z.div_mod (Z.abs y * 255) 500 ltac:(lia)).
  pose proof (Z.mod_pos_bound (Z.abs y * 255) 500 ltac:(lia)).
  pose proof (Z.div_mod (Z.abs y' * 255) 500 ltac:(lia)).
  pose proof (Z.mod_pos_bound (Z.abs y' * 255) 500 ltac:(lia)).
  splits; try lia.
  - split; [|intros; apply u8_small; lia]. intros E.
    pose proof (u8_bound (Z.abs y * 255 / 500)). lia.
  - intros. rewrite !u8_small by lia. apply Z.div_le_mono; lia.
Qed.

(** ** Witnesses *)
Section VehicleWitnesses.
#[local] Existing Instance Firmware.atmega328p.
#[local] Existing Instance Firmware.atmega328p_laws.
#[local] Existing Instance Firmware.sample_core.
#[local] Existing Instance sample_platform.

(** Half speed ahead on the left, full speed back on the right, the LED. *)
Definition sample_drive : list event :=
  [Datagram (str "1500175015001000"); WsText 4 (str "led 40"); TimerThread 7;
   Dispatch sample_env; Dispatch sample_env; WsText 4 (str "hello")].

Definition sample_buffer : list Z := replicate 1024 0.

Lemma sample_all_off : all_off sample_device.
Proof. intros r _. by destruct r. Qed.

Lemma program_refines_vehicle_witness :
  exists p', exec_events sample_drive (Program sample_app WsServer.new_server sample_buffer) = Ret p' /\
    implements (Vehicle 127 (-255) 102 1 [] (overwrite (str "1500175015001000") sample_buffer) true) p'.
Proof.
  destruct (program_refines_vehicle sample_drive (Vehicle 0 0 0 0 [] sample_buffer true)
    (Program sample_app WsServer.new_server sample_buffer)) as (p' & E & Hi).
  - exists sample_device. split; try reflexivity.
    + apply sample_drives.
    + split; reflexivity.
    + apply sample_inv.
    + by split.
    + by split; eexists.
  - vm_compute. reflexivity.
  - exists p'. split; [exact E|].
    assert (vehicle_events sample_drive (Vehicle 0 0 0 0 [] sample_buffer true) =
      Vehicle 127 (-255) 102 1 [] (overwrite (str "1500175015001000") sample_buffer) true) as Ev
      by (vm_compute; reflexivity).
    rewrite Ev in Hi. exact Hi.
Defined.

Lemma rover_end_to_end_witness :
  exists a p' d', new_main_app (fun _ _ => Some (sample_link [])) true ∅ = Ret (11223, a) /\
    exec_events sample_drive (Program a WsServer.new_server sample_buffer) = Ret p' /\
    link_ready d' (port (slave (app p'))) /\
    shows (vehicle_events sample_drive (new_vehicle sample_buffer)) d' /\
    Firmware.rget Firmware.OCR2B d' = 127 /\ Firmware.rget Firmware.OCR0A d' = 255.
Proof.
  destruct (rover_end_to_end (fun _ _ => Some (sample_link [])) ∅ (sample_link [])
    sample_device sample_buffer sample_drive) as (a & p' & d' & E1 & E2 & E3 & E4).
  - unfold numeric_options. repeat (apply Forall_cons_2 || apply Forall_nil_2); apply lookup_empty.
  - reflexivity.
  - apply sample_link_ready.
  - reflexivity.
  - apply sample_all_off.
  - reflexivity.
  - vm_compute. reflexivity.
  - exists a, p', d'. split; [exact E1|]. split; [exact E2|]. split; [exact E3|].
    split; [exact E4|]. destruct E4 as [H1 _ _ H4 _].
    split; [rewrite H1; vm_compute; reflexivity|rewrite H4; vm_compute; reflexivity].
Defined.

Lemma stick_duty_bounds_witness :
  exists n n', stick_pwm 250 (conf sample_app) (therm sample_app) = Some n /\
    stick_pwm (-501) (conf sample_app) (therm sample_app) = Some n' /\ u8 n <= u8 n'.
Proof.
  destruct (stick_duty_bounds (conf sample_app) (therm sample_app) 250 (-501))
    as (n & n' & E & E' & _ & _ & _ & H); [by split|lia|lia|].
  exists n, n'. split; [exact E|]. split; [exact E'|]. apply H. lia.
Defined.
End VehicleWitnesses.
