(* ===== verification/AppTypes.v ===== *)
(** * The application's state is well formed, whatever it receives

    [AppProps] and [Vehicle] follow inputs with defined behaviour.  Here the
    input is arbitrary: whenever a handler returns, every member of the state
    still holds a value of its C++ type, the counters stay below their
    periods, the percentages below 100 and the filters within their vectors. *)
From S2P Require Import Prelude Messages Arduino Link Double Text Regex App Vehicle.
From S2P Require Filter WsServer AppWitnesses.

Definition is_u32 (z : Z) : Prop := 0 <= z < 2 ^ 32.
Definition is_i32 (z : Z) : Prop := - 2 ^ 31 <= z < 2 ^ 31.

(** The counters that are reset together with the test of their period stay
    below it; [timer_cx_thr] is never reset, and [timer_cx_batt] is not while
    the converter does not answer. *)
Record counters_wf (c : counters) : Prop := CountersWf {
  cw_wdt : 0 <= timer_cx_wdt c < TIMER_CI_WDT;
  cw_fan : 0 <= timer_cx_fan c < TIMER_CI_FAN;
  cw_thr : is_u32 (timer_cx_thr c);
  cw_thr_prnt : 0 <= timer_cx_thr_prnt c <= TIMER_CI_THR_PRNT;
  cw_batt : is_u32 (timer_cx_batt c);
  cw_trx : 0 <= timer_cx_slave_trx c < TIMER_CI_SLAVE_TRX;
  cw_wlan : 0 <= timer_cx_wlan c < TIMER_CI_WLAN }.

Record telemetry_wf (t : telemetry) : Prop := TelemetryWf {
  tw_left : is_u32 (left_pwm t);
  tw_right : is_u32 (right_pwm t);
  tw_fan : 0 <= fan_pwm t <= 100;
  tw_led : is_u32 (led_pwm t);
  tw_quality : is_i32 (wifi_quality t);
  tw_signal : is_i32 (wifi_signal t);
  tw_received : is_u32 (slave_trx t).1;
  tw_sent : is_u32 (slave_trx t).2 }.

Definition js_wf (js : js_data_t) : Prop :=
  is_i32 (left_x js) /\ is_i32 (right_x js) /\ is_i32 (left_y js) /\ is_i32 (right_y js).

Definition message_wf (m : queue_msg_t) : Prop :=
  match m with JS js => js_wf js | TIMER _ => True end.

Section AppTypes.
Context {P : Type} `{SerialPort P} `{Platform}.
Implicit Types (a : main_app P) (s : ArduinoSlave P).

Record app_wf a : Prop := AppWf {
  aw_range : is_u32 (PWM_RANGE (conf a));
  aw_cx : counters_wf (cx a);
  aw_tel : telemetry_wf (tel a);
  aw_fb : Filter.filter_wf 5 (vbatfb (batt a));
  aw_fb2 : Filter.filter_wf 250 (vbatfb2 (batt a));
  aw_slave : slave_wf (slave a);
  aw_queue : Forall message_wf (queue a) }.

(** ** Inversion of a handler that returned *)
Ltac returned :=
  repeat match goal with
  | E : Throw _ = Ret _ |- _ => discriminate E
  | E : Undef = Ret _ |- _ => discriminate E
  | E : mbind _ _ = Ret _ |- _ => apply bind_Ret_inv in E as (? & ? & E)
  | E : defined _ = Ret _ |- _ => apply defined_inv in E
  | E : mbind _ _ = Some _ |- _ => apply bind_Some in E as (? & ? & E)
  end; simplify_eq.

(** The calls on the slave change nothing else. *)
Lemma slave_calls_slave cs : forall a a', slave_calls cs a = Ret a' ->
  exists s, a' = set_slave s a /\ (slave_wf (slave a) -> slave_wf s).
Proof.
  induction cs as [|c cs IH]; intros a a' E; cbn [slave_calls] in E.
  { returned. exists (slave a'). by destruct a'. }
  unfold slave_call in E. returned. apply IH in E as (s' & -> & Hs).
  exists s'. split; [done|]. intros Hw. apply Hs. cbn [slave set_slave]. by eapply run_call_wf.
Qed.

Lemma set_slave_wf s a : slave_wf s -> app_wf a -> app_wf (set_slave s a).
Proof. intros ? []. by split. Qed.

Lemma slave_calls_wf cs a a' : slave_calls cs a = Ret a' -> app_wf a -> app_wf a'.
Proof.
  intros (s & -> & Hs)%slave_calls_slave Ha. apply set_slave_wf; [apply Hs, Ha|done].
Qed.

Lemma slave_call_wf c a a' : slave_call c a = Ret a' -> app_wf a -> app_wf a'.
Proof. intros E. apply (slave_calls_wf [c]). cbn [slave_calls]. by rewrite E. Qed.

(** The updates of single members. *)
Lemma set_cx_wf c a : counters_wf c -> app_wf a -> app_wf (set_cx c a).
Proof. intros ? []. by split. Qed.
Lemma set_tel_wf t a : telemetry_wf t -> app_wf a -> app_wf (set_tel t a).
Proof. intros ? []. by split. Qed.
Lemma set_therm_wf t a : app_wf a -> app_wf (set_therm t a).
Proof. intros []. by split. Qed.
Lemma enqueue_wf m a : message_wf m -> app_wf a -> app_wf (enqueue m a).
Proof.
  intros Hm []. split; try done. unfold enqueue. cbn [queue set_queue].
  apply Forall_app. split; [done|by constructor].
Qed.

(** Every member of a state that is given explicitly. *)
Ltac members :=
  match goal with Ha : app_wf _ |- _ => destruct Ha as [? [] [] ? ? ? ?] end;
  split; try done; split; try done; simpl; unfold TIMER_CI_WDT, TIMER_CI_FAN, TIMER_CI_THR_PRNT,
    TIMER_CI_SLAVE_TRX, TIMER_CI_WLAN, is_u32 in *; rewrite ?u32_small by lia; word_bounds; try lia.

(** ** The handlers *)
Lemma led_command_wf ss a a' : led_command ss a = Ret a' -> app_wf a -> app_wf a'.
Proof.
  unfold led_command. intros E Ha. returned. eapply slave_call_wf; [done|].
  destruct (extract_unsigned ss) as [v ss'] eqn:Ev. simpl in *. simplify_eq.
  apply extract_unsigned_bound in Ev.
  apply set_tel_wf; [|done]. destruct Ha as [_ _ [] _ _ _ _]. by split.
Qed.

Lemma axis_wf c0 c1 c2 c3 : is_i32 (axis c0 c1 c2 c3).
Proof. unfold axis, is_i32. apply i32_bound. Qed.

Lemma parse_js_wf data js : parse_js data = Some js -> js_wf js.
Proof.
  unfold parse_js. repeat (case_match; try discriminate). intros [= <-].
  unfold js_wf. splits; apply axis_wf.
Qed.

Lemma handle_udp_wf buffer a a' : handle_udp buffer a = Ret a' -> app_wf a -> app_wf a'.
Proof.
  unfold handle_udp, handle_cmd. intros E Ha. returned. case_match.
  - returned. destruct (extract_word _) as [cmd ss]. case_decide.
    + by eapply led_command_wf.
    + by returned.
  - returned. apply enqueue_wf; [|done]. by eapply parse_js_wf.
Qed.

Lemma times5_wf l l' : times5 l = Some l' -> is_i32 l'.
Proof. unfold times5. intros [-> ?]%in_range_inv. unfold is_i32. lia. Qed.

Lemma handle_ws_wf id text a g a' g' :
  handle_ws id text a g = Ret (a', g') -> app_wf a -> app_wf a'.
Proof.
  unfold handle_ws. intros E Ha. destruct (extract_word _) as [cmd ss].
  case_decide; [by returned|]. case_decide.
  - destruct (extract_int ss) as [l ss1], (extract_int ss1) as [r ss2]. returned.
    apply enqueue_wf; [|done].
    unfold message_wf, js_wf. cbn [left_x right_x left_y right_y].
    splits; [unfold is_i32; lia..| |]; by eapply times5_wf.
  - case_decide; returned; [by eapply led_command_wf|done].
Qed.

Lemma handle_js_wf js a a' : handle_js js a = Ret a' -> app_wf a -> app_wf a'.
Proof.
  unfold handle_js. intros E Ha. returned. eapply slave_calls_wf; [done|].
  pose proof Ha as [_ [] [] _ _ _ _]. apply set_tel_wf; [|apply set_cx_wf; [|done]].
  - split; try done; cbn [left_pwm right_pwm set_motor_pwm]; unfold stick_pwm in *;
      unfold is_u32; by eapply d_to_u32_bound.
  - by split.
Qed.

(** *** The tasks of the timer *)
#[local] Arguments Z.pow : simpl never.

Lemma timer_wdt_wf a a' : timer_wdt a = Ret a' -> app_wf a -> app_wf a'.
Proof.
  unfold timer_wdt. intros E Ha. pose proof (cw_wdt _ (aw_cx _ Ha)) as Hw.
  cbn [cx set_cx set_wdt timer_cx_wdt] in E. unfold TIMER_CI_WDT in *.
  rewrite u32_small in E by lia.
  destruct (Z.leb_spec 500 (timer_cx_wdt (cx a) + 1)); returned.
  - match goal with E : slave_calls _ _ = _ |- _ => apply slave_calls_slave in E as (s & -> & Hs) end.
    specialize (Hs (aw_slave _ Ha)). members.
  - members.
Qed.

Lemma timer_thr_wf a : app_wf a -> app_wf (timer_thr a).
Proof.
  intros Ha. unfold timer_thr.
  assert (app_wf (set_cx (set_thr (u32 (timer_cx_thr (cx a) + 1)) (cx a)) a)) as W1.
  { apply set_cx_wf; [|done]. destruct Ha as [? [] ? ? ? ? ?]. split; try done. apply u32_bound. }
  case_match; [|done]. set (b := set_cx _ a) in *. clearbody b.
  match goal with |- context [set_therm ?t ?b] =>
    pose proof (set_therm_wf t b W1) as W2; set (b2 := set_therm t b) in * end.
  clearbody b2. pose proof (cw_thr_prnt _ (aw_cx _ W2)) as Hp. unfold TIMER_CI_THR_PRNT in *.
  destruct (Z.leb_spec 1000 (timer_cx_thr_prnt (cx b2)));
    clear Ha; members.
Qed.

Lemma fan_duty_bound temp n : fan_duty temp = Some n -> 0 <= n <= 100.
Proof.
  unfold fan_duty. intros (pwm & _ & E)%bind_Some. injection E as <-.
  destruct (Z.ltb_spec 0 pwm), (Z.ltb_spec pwm 100); simpl; lia.
Qed.

Lemma timer_fan_wf e a a' : timer_fan e a = Ret a' -> app_wf a -> app_wf a'.
Proof.
  unfold timer_fan. intros E Ha. pose proof (cw_fan _ (aw_cx _ Ha)) as Hw.
  cbn [cx set_cx set_fan timer_cx_fan] in E. unfold TIMER_CI_FAN in *.
  rewrite u32_small in E by lia.
  destruct (Z.leb_spec 1000 (timer_cx_fan (cx a) + 1)); returned; [case_match; returned|].
  - match goal with E : fan_duty _ = _ |- _ => apply fan_duty_bound in E end.
    members.
  - members.
  - members.
Qed.

Lemma analogRead_wf pin s v s' : analogRead pin s = Some (v, s') -> slave_wf s -> slave_wf s'.
Proof. intros E. apply (run_call_wf (CallAnalogRead pin)). cbn [run_call]. by rewrite E. Qed.

Lemma battery_sample_wf v now b b' : battery_sample v now b = Some b' ->
  Filter.filter_wf 5 (vbatfb b) -> Filter.filter_wf 250 (vbatfb2 b) ->
  Filter.filter_wf 5 (vbatfb b') /\ Filter.filter_wf 250 (vbatfb2 b').
Proof.
  unfold battery_sample. intros E H5 H250.
  destruct (Filter.filter_call_wf 5 v _ ltac:(lia) H5) as (y & fb & E5 & Hfb & _).
  destruct (Filter.filter_call_wf 250 v _ ltac:(lia) H250) as (y2 & fb2 & E250 & Hfb2 & _).
  rewrite E5 in E. cbn [mbind option_bind] in E. rewrite E250 in E. cbn [mbind option_bind] in E.
  returned. by case_match.
Qed.

Lemma timer_batt_wf e a a' : timer_batt e a = Ret a' -> app_wf a -> app_wf a'.
Proof.
  unfold timer_batt. intros E Ha.
  assert (forall n, is_u32 n -> app_wf (set_cx (set_cx_batt n (cx a)) a)) as Hset.
  { intros n Hn. apply set_cx_wf; [|done]. by destruct (aw_cx _ Ha). }
  specialize (Hset _ (u32_bound (timer_cx_batt (cx a) + 1))).
  case_match; [|by returned]. set (b := set_cx _ a) in *. clearbody b.
  apply bind_Ret_inv in E as ([raw s] & E1%defined_inv & E).
  apply analogRead_wf in E1; [|apply Hset].
  pose proof (set_slave_wf s b E1 Hset) as Hs. set (b2 := set_slave s b) in *. clearbody b2.
  case_match; [by returned|]. apply bind_Ret_inv in E as (bt & E2%defined_inv & E). returned.
  apply battery_sample_wf in E2 as [? ?]; [|apply Hs..].
  members.
Qed.

Lemma timer_slave_trx_wf a : app_wf a -> app_wf (timer_slave_trx a).
Proof.
  intros Ha. unfold timer_slave_trx. pose proof (cw_trx _ (aw_cx _ Ha)) as Hw.
  cbn [cx set_cx set_trx timer_cx_slave_trx]. unfold TIMER_CI_SLAVE_TRX in *.
  rewrite u32_small by lia.
  destruct (Z.leb_spec 1000 (timer_cx_slave_trx (cx a) + 1)); cbn [get_transaction_stats];
    pose proof (aw_slave _ Ha) as (? & ? & ?); members.
Qed.

Lemma of_sto_inv r v : of_sto r = Ret v -> r = StoOk v.
Proof. destruct r; by intros [= ->]. Qed.

Lemma wireless_file_wf content (q s : Z) :
  wireless_file content = Ret (Some (q, s)) -> is_i32 q /\ is_i32 s.
Proof.
  unfold wireless_file, wireless_line. intros E. repeat (case_match; [|returned; done]).
  returned. 
  repeat match goal with E : of_sto _ = Ret _ |- _ => apply of_sto_inv, stoi_bound in E end.
  by split.
Qed.

Lemma timer_wlan_wf e a a' : timer_wlan e a = Ret a' -> app_wf a -> app_wf a'.
Proof.
  unfold timer_wlan. intros E Ha. pose proof (cw_wlan _ (aw_cx _ Ha)) as Hw.
  cbn [cx set_cx set_wlan timer_cx_wlan] in E. unfold TIMER_CI_WLAN in *.
  rewrite u32_small in E by lia.
  destruct (Z.leb_spec 100 (timer_cx_wlan (cx a) + 1)).
  - apply bind_Ret_inv in E as (v & E1 & E). injection E as <-.
    destruct v as [[q s]|]; [apply wireless_file_wf in E1 as [? ?]|];
      members.
  - returned. members.
Qed.

Lemma handle_timer_wf e a a' : handle_timer e a = Ret a' -> app_wf a -> app_wf a'.
Proof.
  unfold handle_timer. intros E Ha.
  apply bind_Ret_inv in E as (a1 & E1 & E). apply timer_wdt_wf in E1; [|done].
  apply timer_thr_wf in E1.
  apply bind_Ret_inv in E as (a2 & E2 & E). apply timer_fan_wf in E2; [|done].
  apply bind_Ret_inv in E as (a3 & E3 & E). apply timer_batt_wf in E3; [|done].
  apply timer_slave_trx_wf in E3. by eapply timer_wlan_wf.
Qed.

(** ** The program *)
Definition program_wf (p : program P) : Prop :=
  app_wf (app p) /\ length (rcv_raw_buffer p) = 1024%nat.

Lemma exec_event_wf ev p p' : exec_event ev p = Ret p' -> program_wf p -> program_wf p'.
Proof.
  intros E [Ha Hl]. destruct ev as [bytes|id text|now_us|e]; cbn [exec_event] in E.
  - unfold run_udp in E. apply bind_Ret_inv in E as ([buffer a] & E1 & E). returned.
    split; [by eapply handle_udp_wf|]. cbn [rcv_raw_buffer].
    rewrite length_overwrite; [done|]. rewrite length_take. lia.
  - apply bind_Ret_inv in E as ([a g] & E1 & E). returned. split; [by eapply handle_ws_wf|done].
  - returned. split; [by apply enqueue_wf|done].
  - unfold run in E. destruct (queue (app p)) as [|m q] eqn:Eq; returned; [done|].
    split; [|done]. pose proof (aw_queue _ Ha) as Hq. rewrite Eq in Hq. apply Forall_cons in Hq as [_ Hq].
    assert (app_wf (set_queue q (app p))) as Hs by (by destruct Ha).
    destruct m; [by eapply handle_js_wf|by eapply handle_timer_wf].
Qed.

Lemma initial_app_wf c s : is_u32 (PWM_RANGE c) -> slave_wf s -> app_wf (initial_app c s).
Proof.
  intros Hr Hs. split; try done.
  - exact (Filter.new_filter_wf 5 ltac:(lia)).
  - exact (Filter.new_filter_wf 250 ltac:(lia)).
Qed.

Lemma new_main_app_wf (serialOpen : list Z -> Z -> option P) (ok : bool) (o : options_t) (udp_port : Z) a :
  new_main_app serialOpen ok o = Ret (udp_port, a) -> app_wf a /\ 0 <= udp_port < 65536.
Proof.
  unfold new_main_app. intros E.
  apply bind_Ret_inv in E as (s & Es & E). apply bind_Ret_inv in E as (udp & Eu & E).
  apply bind_Ret_inv in E as (range & Er & E).
  assert (slave_wf s) as Hs.
  { unfold new_ArduinoSlave in Es. apply bind_Ret_inv in Es as (baud & _ & Es). destruct (serialOpen _ _); returned. split; [done|]. simpl. lia. }
  assert (is_u32 range) as Hr.
  { destruct (o !! str "pwmr"); returned; [apply u32_bound|unfold is_u32; lia]. }
  assert (0 <= udp < 65536) as Hu.
  { destruct (o !! str "js_port"); returned; [apply u16_bound|lia]. }
  do 4 (apply bind_Ret_inv in E as (? & _ & E)). destruct ok; [|done]. cbn [negb] in E.
  apply bind_Ret_inv in E as (pw & _ & E). apply bind_Ret_inv in E as (a' & E' & E). returned.
  split; [|done]. eapply slave_calls_wf; [done|]. by apply initial_app_wf.
Qed.

(** C18. The members keep their types and bounds.  Whatever the options, the
    serial port, the datagrams, the browser messages and the files hold, and
    in whatever order the threads run: as long as no handler throws or runs
    into undefined behaviour, the application that comes out is well formed.
    Every integer is in the range of its type, the watchdog and the other
    periodic counters are below their periods, the fan's duty is a percentage,
    the filters index inside their vectors, the receive buffer keeps its
    size. *)
Theorem program_stays_well_formed (serialOpen : list Z -> Z -> option P) (ok : bool)
    (o : options_t) (udp_port : Z) (a : main_app P) (buffer : list Z) (evs : list event)
    (p : program P) :
  new_main_app serialOpen ok o = Ret (udp_port, a) -> length buffer = 1024%nat ->
  exec_events evs (Program a WsServer.new_server buffer) = Ret p ->
  app_wf (app p) /\ length (rcv_raw_buffer p) = 1024%nat /\ 0 <= udp_port < 65536.
Proof.
  intros En Hl. destruct (new_main_app_wf _ _ _ _ _ En) as [Ha Hu].
  assert (program_wf (Program a WsServer.new_server buffer)) as Hp by done.
  revert Hp. generalize (Program a WsServer.new_server buffer) as p0.
  induction evs as [|ev evs IH]; intros p0 Hp E; cbn [exec_events] in E.
  { returned. by destruct Hp. }
  apply bind_Ret_inv in E as (p1 & E1 & E). apply (IH p1); [|done]. by eapply exec_event_wf.
Qed.
End AppTypes.

(** ** Witness

    A datagram of arbitrary bytes and a fan at 130 degrees, on the line. *)
Section AppTypesWitness.
#[local] Existing Instance Firmware.atmega328p.
#[local] Existing Instance Firmware.sample_core.
#[local] Existing Instance AppWitnesses.sample_platform.

Definition odd_events : list event :=
  [Datagram (str "9x" ++ replicate 14 255); WsText 4 (str "js 7777777 -1"); TimerThread 7;
   Datagram (str "led 4000000000"); Dispatch AppWitnesses.sample_env].

Definition odd_start : outcome (Z * main_app link) :=
  new_main_app (fun _ _ => Some (sample_link [])) true ∅.

Definition returns {A} (o : outcome A) : bool := match o with Ret _ => true | _ => false end.

Lemma returns_Ret {A} (o : outcome A) : returns o = true -> exists x, o = Ret x.
Proof. destruct o as [x| |]; [by exists x|done|done]. Qed.

Lemma odd_run : returns ('(_, a) ← odd_start;
  exec_events odd_events (Program a WsServer.new_server sample_buffer)) = true.
Proof. vm_compute. reflexivity. Qed.

Lemma program_stays_well_formed_witness :
  exists udp a p, odd_start = Ret (udp, a) /\
    exec_events odd_events (Program a WsServer.new_server sample_buffer) = Ret p /\
    app_wf (app p).
Proof.
  destruct (returns_Ret _ odd_run) as [p E].
  destruct (bind_Ret_inv _ _ _ E) as ([udp a] & Es & Ee).
  exists udp, a, p. split; [exact Es|]. split; [exact Ee|].
  apply (program_stays_well_formed (fun _ _ => Some (sample_link [])) true ∅ udp a
    sample_buffer odd_events p Es); [reflexivity|exact Ee].
Defined.
End AppTypesWitness.
