(* ===== verification/UartEcho.v ===== *)
(** * The serial loop-back test: [rover/uart_echo_test.cpp]

    One thread writes numbered frames, the other collects octets up to a
    semicolon and prints them.  [None] is an access outside [buff]. *)
From S2P Require Import Prelude.

Definition DELIM : Z := 59.

(** [std::setw(10) << std::setfill('0') << count << ";"] *)
Definition pad_left (width : nat) (cs : list Z) : list Z := replicate (width - length cs) 48 ++ cs.
Definition frame (count : Z) : list Z := pad_left 10 (dec count) ++ [DELIM].

(** The sender's loop, [n] iterations from [count]: what [serialPuts] is
    given. *)
Fixpoint sender (n : nat) (count : Z) : list (list Z) :=
  match n with
  | O => []
  | S n' => frame count :: sender n' (u32 (count + 1))
  end.

(** The receiver: [buff], [buff_idx] and the lines printed. *)
Record receiver := Receiver { buff : list Z; buff_idx : nat; printed : list (list Z) }.

Definition buff_set (i : nat) (c : Z) (b : list Z) : option (list Z) :=
  if decide (i < length b)%nat then Some (<[i := u8 c]> b) else None.

(** The body of [while (serialDataAvail(fd))]. *)
Definition receive (cdata : Z) (r : receiver) : option receiver :=
  b ← buff_set (buff_idx r) cdata (buff r);
  let i := S (buff_idx r) in
  b ← buff_set i 0 b;
  if cdata =? DELIM then
    text ← cstring b;
    b ← buff_set 0 0 b;
    Some (Receiver b 0 (printed r ++ [text]))
  else Some (Receiver b i (printed r)).

Fixpoint receive_all (cs : list Z) (r : receiver) : option receiver :=
  match cs with
  | [] => Some r
  | c :: cs' => r ← receive c r; receive_all cs' r
  end.

(** ** Lemmas *)
Definition plain (c : Z) : Prop := 0 < c < 256 /\ c <> DELIM.

Lemma buff_set_ok i c b : (i < length b)%nat -> buff_set i c b = Some (<[i := u8 c]> b).
Proof. intros. unfold buff_set. by rewrite decide_True. Qed.

Lemma receive_all_app cs1 cs2 r :
  receive_all (cs1 ++ cs2) r = receive_all cs1 r ≫= receive_all cs2.
Proof.
  revert r. induction cs1 as [|c cs IH]; intros r; [done|]. simpl.
  destruct (receive c r); simpl; [apply IH|done].
Qed.

(** [text] is collected at the start of the buffer, terminated. *)
Definition collected (text : list Z) (r : receiver) : Prop :=
  length (buff r) = 1024%nat /\ buff_idx r = length text /\
  exists rest, buff r = text ++ rest.

(** The two stores of an iteration. *)
Lemma store_terminated (text rest : list Z) c x y :
  <[S (length text) := u8 0]> (<[length text := c]> (text ++ x :: y :: rest)) =
  text ++ c :: 0 :: rest.
Proof. induction text as [|t text IH]; [done|]. simpl. f_equal. exact IH. Qed.

Lemma receive_plain c text r :
  plain c -> (S (length text) < 1024)%nat -> collected text r ->
  exists r', receive c r = Some r' /\ collected (text ++ [c]) r' /\ printed r' = printed r.
Proof.
  intros [Hc Hd] Hlen (Hl & Hi & rest & Eb). unfold receive.
  rewrite Hi, buff_set_ok by lia. cbn [mbind option_bind].
  rewrite buff_set_ok by (rewrite length_insert; lia). cbn [mbind option_bind].
  rewrite (proj2 (Z.eqb_neq c DELIM) Hd). eexists. split; [reflexivity|].
  split; [|done]. unfold collected. cbn [buff buff_idx].
  rewrite !length_insert, length_app. simpl. splits; [done|lia|].
  rewrite Eb. rewrite Eb, length_app in Hl.
  destruct rest as [|x [|y rest]]; [simpl in Hl; lia..|]. exists (0 :: rest).
  rewrite (u8_small c) by lia. rewrite store_terminated. by rewrite <-app_assoc.
Qed.

Lemma receive_plains cs : forall text r,
  Forall plain cs -> (length text + length cs < 1024)%nat -> collected text r ->
  exists r', receive_all cs r = Some r' /\ collected (text ++ cs) r' /\ printed r' = printed r.
Proof.
  induction cs as [|c cs IH]; intros text r Hp Hl Hc.
  { exists r. by rewrite app_nil_r. }
  apply Forall_cons in Hp as [Hpc Hp]. simpl in Hl.
  destruct (receive_plain c text r Hpc ltac:(lia) Hc) as (r1 & E & Hc1 & Hp1).
  destruct (IH (text ++ [c]) r1 Hp) as (r2 & E2 & Hc2 & Hp2);
    [rewrite length_app; simpl; lia|done|].
  exists r2. simpl. rewrite E. cbn [mbind option_bind]. rewrite E2.
  rewrite <-app_assoc in Hc2. by rewrite Hp2, Hp1.
Qed.

Lemma receive_delim text r :
  Forall plain text -> (S (length text) < 1024)%nat -> collected text r ->
  exists r', receive DELIM r = Some r' /\ collected [] r' /\
    printed r' = printed r ++ [text ++ [DELIM]].
Proof.
  intros Hp Hlen (Hl & Hi & rest & Eb). unfold receive.
  rewrite Hi, buff_set_ok by lia. cbn [mbind option_bind].
  rewrite buff_set_ok by (rewrite length_insert; lia). cbn [mbind option_bind].
  rewrite Z.eqb_refl. rewrite Eb. rewrite Eb, length_app in Hl.
  destruct rest as [|x [|y rest]]; [simpl in Hl; lia..|].
  rewrite store_terminated. change (u8 DELIM) with DELIM.
  assert (cstring (text ++ DELIM :: 0 :: rest) = Some (text ++ [DELIM])) as ->.
  { pose proof (cstring_app (text ++ [DELIM]) rest) as E. rewrite <-app_assoc in E.
    apply E. apply Forall_app. split; [|by repeat constructor].
    eapply Forall_impl; [done|]. intros c [? _]. lia. }
  cbn [mbind option_bind]. rewrite buff_set_ok by (rewrite length_app; simpl; lia).
  cbn [mbind option_bind]. eexists. split; [reflexivity|]. split; [|done].
  unfold collected. cbn [buff buff_idx]. rewrite length_insert, length_app. simpl in *.
  splits; [lia|done|by eexists].
Qed.

Lemma receive_frame text r :
  Forall plain text -> (S (length text) < 1024)%nat -> collected [] r ->
  exists r', receive_all (text ++ [DELIM]) r = Some r' /\ collected [] r' /\
    printed r' = printed r ++ [text ++ [DELIM]].
Proof.
  intros Hp Hl Hc. destruct (receive_plains text [] r Hp) as (r1 & E1 & Hc1 & Hp1);
    [simpl; lia|done|].
  destruct (receive_delim text r1 Hp Hl Hc1) as (r2 & E2 & Hc2 & Hp2).
  exists r2. rewrite receive_all_app, E1. simpl. rewrite E2. simpl. by rewrite Hp2, Hp1.
Qed.

Lemma dec_short z : 0 <= z < 4294967296 -> (length (dec z) <= 33)%nat.
Proof. intros Hz. apply (length_dec z 32). done. Qed.

Lemma frame_plain z : 0 <= z < 4294967296 ->
  Forall plain (pad_left 10 (dec z)) /\ (length (pad_left 10 (dec z)) <= 43)%nat.
Proof.
  intros Hz. pose proof (dec_short z Hz). unfold pad_left. split.
  - apply Forall_app. split.
    + apply Forall_replicate. unfold plain, DELIM. lia.
    + eapply Forall_impl; [apply dec_digits; lia|].
      intros c Hc. unfold is_digit in Hc. unfold plain, DELIM. lia.
  - rewrite length_app, length_replicate. lia.
Qed.

(** C38. The echo test on a loop-back line.  However many frames the sender
    writes, counter wrap-around included, the receiver prints exactly these
    frames, in order, without leaving its buffer. *)
Theorem echo_prints_frames (n : nat) (count : Z) (r : receiver) :
  0 <= count < 4294967296 -> collected [] r ->
  exists r', receive_all (concat (sender n count)) r = Some r' /\
    printed r' = printed r ++ sender n count.
Proof.
  revert count r. induction n as [|n IH]; intros count r Hc Hr.
  { exists r. simpl. by rewrite app_nil_r. }
  destruct (frame_plain count Hc) as [Hp Hl].
  destruct (receive_frame _ r Hp ltac:(lia) Hr) as (r1 & E1 & Hc1 & Hp1).
  destruct (IH (u32 (count + 1)) r1 (u32_bound _) Hc1) as (r2 & E2 & Hp2).
  exists r2. cbn [sender concat]. fold (frame count) in *. rewrite receive_all_app, E1. cbn [mbind option_bind]. rewrite E2. split; [done|].
  rewrite Hp2, Hp1. by rewrite <-app_assoc.
Qed.

Lemma receive_1023 cs r :
  Forall plain cs -> length cs = 1023%nat -> collected [] r ->
  exists r', receive_all cs r = Some r' /\ buff_idx r' = 1023%nat /\ length (buff r') = 1024%nat.
Proof.
  intros Hp Hl Hc. destruct (receive_plains cs [] r Hp) as (r' & E & (Hb & Hi & _) & _);
    [simpl; lia|done|]. exists r'. splits; [done| |done]. rewrite Hi. exact Hl.
Qed.

(** Defect: 1024 octets without a semicolon, one more than the longest
    line that fits, make the receiver write past its buffer. *)
Theorem echo_overruns_buffer (cs : list Z) (c : Z) (r : receiver) :
  Forall plain cs -> length cs = 1023%nat -> collected [] r ->
  receive_all (cs ++ [c]) r = None.
Proof.
  intros Hp Hl Hc. destruct (receive_1023 cs r Hp Hl Hc) as (r' & E & Hi & Hb).
  rewrite receive_all_app, E. cbn [mbind option_bind receive_all]. unfold receive.
  rewrite buff_set_ok by lia. cbn [mbind option_bind].
  assert (forall b, length b = 1024%nat -> buff_set (S (buff_idx r')) 0 b = None) as Hover.
  { intros b Hb'. unfold buff_set. by rewrite decide_False by lia. }
  rewrite Hover by (by rewrite length_insert). done.
Qed.

Definition fresh_receiver : receiver := Receiver (replicate 1024 0) 0 [].

Lemma fresh_collected : collected [] fresh_receiver.
Proof. split; [apply (length_replicate 1024)|]. split; [done|]. by eexists. Qed.

Lemma echo_prints_frames_witness :
  exists r', receive_all (concat (sender 3 4294967294)) fresh_receiver = Some r' /\
    printed r' = [str "4294967294;"; str "4294967295;"; str "0000000000;"].
Proof. apply (echo_prints_frames 3 4294967294 fresh_receiver); [lia|apply fresh_collected]. Defined.

Lemma echo_overruns_buffer_witness :
  receive_all (replicate 1023 65 ++ [66]) fresh_receiver = None.
Proof.
  apply (echo_overruns_buffer (replicate 1023 65) 66 fresh_receiver).
  - apply Forall_replicate. unfold plain, DELIM. lia.
  - apply length_replicate.
  - apply fresh_collected.
Defined.
