(* ===== verification/System.v ===== *)
(** * Threads, queue and heap of the application

    [run_udp], [run_ws] and [run_timer] run in their own threads and hand
    their results to [run] through a socket pair.  A joystick position is
    allocated by its producer ([new js_data_t{}]), its address is sent, and
    [run] frees it after [handle_js].  The step relation interleaves the
    threads at the granularity of allocation, send, receive, use and free; the
    allocator may return any address that is not in use.  The socket pair takes
    what is sent: a send neither fails nor blocks, so the theorems say nothing
    of a full socket (the program does not look at the result of a send). *)
From S2P Require Import Prelude App.

Abbreviation ptr := Z.

(** The threads that produce joystick positions. *)
Inductive producer := Udp | Ws.

(** [queue_msg_t] as it travels through the socket. *)
Inductive wire_msg := WireJs (p : ptr) | WireTimer (time : Z).

(** [received] is the message [run] is working on; [used] says whether
    [handle_js] has read it.  [sent] and [handled] are ghost histories. *)
Record system := System {
  heap : gmap ptr js_data_t;
  held_udp : option ptr;
  held_ws : option ptr;
  wire : list wire_msg;
  received : option (ptr * bool);
  sent : list queue_msg_t;
  handled_msgs : list queue_msg_t }.

Definition initial_system : system := System ∅ None None [] None [] [].

Definition held (w : producer) (s : system) : option ptr :=
  match w with Udp => held_udp s | Ws => held_ws s end.
Definition set_held (w : producer) (h : option ptr) (s : system) : system :=
  match w with
  | Udp => System (heap s) h (held_ws s) (wire s) (received s) (sent s) (handled_msgs s)
  | Ws => System (heap s) (held_udp s) h (wire s) (received s) (sent s) (handled_msgs s)
  end.
Definition set_heap (m : gmap ptr js_data_t) (s : system) : system :=
  System m (held_udp s) (held_ws s) (wire s) (received s) (sent s) (handled_msgs s).
Definition set_received (r : option (ptr * bool)) (s : system) : system :=
  System (heap s) (held_udp s) (held_ws s) (wire s) r (sent s) (handled_msgs s).
Definition put_wire (m : wire_msg) (v : queue_msg_t) (s : system) : system :=
  System (heap s) (held_udp s) (held_ws s) (wire s ++ [m]) (received s) (sent s ++ [v]) (handled_msgs s).
Definition set_wire (q : list wire_msg) (s : system) : system :=
  System (heap s) (held_udp s) (held_ws s) q (received s) (sent s) (handled_msgs s).
Definition record (v : queue_msg_t) (s : system) : system :=
  System (heap s) (held_udp s) (held_ws s) (wire s) (received s) (sent s) (handled_msgs s ++ [v]).

Inductive step : system -> system -> Prop :=
| StepNew w p js s :
    held w s = None -> heap s !! p = None ->
    step s (set_held w (Some p) (set_heap (<[p := js]> (heap s)) s))
| StepSendJs w p js s :
    held w s = Some p -> heap s !! p = Some js ->
    step s (set_held w None (put_wire (WireJs p) (JS js) s))
| StepSendTimer t s :
    step s (put_wire (WireTimer t) (TIMER t) s)
| StepRecvJs p q s :
    received s = None -> wire s = WireJs p :: q ->
    step s (set_received (Some (p, false)) (set_wire q s))
| StepRecvTimer t q s :
    received s = None -> wire s = WireTimer t :: q ->
    step s (record (TIMER t) (set_wire q s))
| StepHandleJs p js s :
    received s = Some (p, false) -> heap s !! p = Some js ->
    step s (record (JS js) (set_received (Some (p, true)) s))
| StepDelete p s :
    received s = Some (p, true) -> is_Some (heap s !! p) ->
    step s (set_received None (set_heap (delete p (heap s)) s)).

(** A thread that touches memory it does not own: the address it works on is
    not allocated. *)
Inductive faulty (s : system) : Prop :=
| FaultSend w p : held w s = Some p -> heap s !! p = None -> faulty s
| FaultUse p u : received s = Some (p, u) -> heap s !! p = None -> faulty s.

(** ** The ownership invariant: every allocated position has exactly one
    owner, a producer, the queue or the consumer, and nothing else is
    allocated. *)
Definition opt_list {A} (o : option A) : list A := match o with Some x => [x] | None => [] end.

Definition wire_ptrs (q : list wire_msg) : list ptr :=
  omap (fun m => match m with WireJs p => Some p | WireTimer _ => None end) q.

Definition owners (s : system) : list ptr :=
  opt_list (held_udp s) ++ opt_list (held_ws s) ++ wire_ptrs (wire s) ++
  opt_list (fst <$> received s).

Definition owned (s : system) : Prop :=
  NoDup (owners s) /\ forall p, p ∈ owners s <-> is_Some (heap s !! p).

(** What a message on the wire stands for. *)
Definition deref (m : gmap ptr js_data_t) (w : wire_msg) : option queue_msg_t :=
  match w with WireJs p => JS <$> m !! p | WireTimer t => Some (TIMER t) end.

Definition in_progress (s : system) : list queue_msg_t :=
  match received s with
  | Some (p, false) => opt_list (JS <$> heap s !! p)
  | _ => []
  end.

(** Handled, in progress and queued messages are the sent ones, in order. *)
Definition fifo (s : system) : Prop :=
  exists queued, mapM (deref (heap s)) (wire s) = Some queued /\
    sent s = handled_msgs s ++ in_progress s ++ queued.

Definition sys_inv (s : system) : Prop := owned s /\ fifo s.

Lemma wire_ptrs_app q1 q2 : wire_ptrs (q1 ++ q2) = wire_ptrs q1 ++ wire_ptrs q2.
Proof. apply omap_app. Qed.

Lemma held_owner w p s : held w s = Some p -> p ∈ owners s.
Proof. unfold owners. destruct w; simpl; intros ->; set_solver. Qed.

(** Dereferencing the queue does not depend on the rest of the heap. *)
Lemma mapM_deref_insert m p js q :
  p ∉ wire_ptrs q -> mapM (deref (<[p := js]> m)) q = mapM (deref m) q.
Proof.
  induction q as [|[p'|t] q IH]; intros Hp; [done|..]; simpl in *.
  - apply not_elem_of_cons in Hp as [Hne Hp]. rewrite lookup_insert_ne by done. by rewrite IH.
  - by rewrite IH.
Qed.

Lemma mapM_deref_delete m p q :
  p ∉ wire_ptrs q -> mapM (deref (delete p m)) q = mapM (deref m) q.
Proof.
  induction q as [|[p'|t] q IH]; intros Hp; [done|..]; simpl in *.
  - apply not_elem_of_cons in Hp as [Hne Hp]. rewrite lookup_delete_ne by done. by rewrite IH.
  - by rewrite IH.
Qed.

Lemma owned_perm s s' : owners s' ≡ₚ owners s -> heap s' = heap s -> owned s -> owned s'.
Proof.
  intros Hp Hh [Hn Ho]. split; [by rewrite Hp|]. intros p. rewrite Hh, <-Ho. by rewrite Hp.
Qed.

Lemma owned_new s s' p js :
  owners s' ≡ₚ p :: owners s -> heap s' = <[p := js]> (heap s) -> heap s !! p = None ->
  owned s -> owned s'.
Proof.
  intros Hp Hh Hf [Hn Ho].
  assert (p ∉ owners s) as Hni by (rewrite Ho, Hf; by intros [? ?]).
  split; [rewrite Hp; by constructor|]. intros q. rewrite Hp, Hh, elem_of_cons, Ho.
  destruct (decide (p = q)) as [->|Hne].
  - rewrite lookup_insert_eq. split; [by eexists|by left].
  - rewrite lookup_insert_ne by done. split; [by intros [?|?]|by right].
Qed.

Lemma owned_delete s s' p :
  owners s ≡ₚ p :: owners s' -> heap s' = delete p (heap s) -> owned s -> owned s'.
Proof.
  intros Hp Hh [Hn Ho]. rewrite Hp in Hn. apply NoDup_cons in Hn as [Hni Hn].
  split; [done|]. intros q. rewrite Hh. specialize (Ho q). rewrite Hp, elem_of_cons in Ho.
  destruct (decide (p = q)) as [->|Hne].
  - rewrite lookup_delete_eq. split; [done|by intros [? ?]].
  - rewrite lookup_delete_ne by done. rewrite <-Ho. split; [by right|by intros [?|?]].
Qed.

Ltac own := unfold owners; simpl; rewrite ?wire_ptrs_app; simpl; rewrite ?app_nil_r.

Lemma step_owned s s' : owned s -> step s s' -> owned s'.
Proof.
  intros Hown Hstep. destruct Hstep as
    [w p js s Hh Hp|w p js s Hh Hp|t s|p q s Hr Hq|t q s Hr Hq|p js s Hr Hp|p s Hr Hp].
  - eapply (owned_new s _ p js); [|by destruct w|done|done].
    destruct w; simpl in Hh; own; rewrite Hh; simpl; solve_Permutation.
  - apply (owned_perm s); [|by destruct w|done].
    destruct w; simpl in Hh; own; rewrite Hh; simpl; solve_Permutation.
  - apply (owned_perm s); [|done|done]. own. done.
  - apply (owned_perm s); [|done|done]. own. rewrite Hr, Hq. simpl. solve_Permutation.
  - apply (owned_perm s); [|done|done]. own. by rewrite Hq.
  - apply (owned_perm s); [|done|done]. own. by rewrite Hr.
  - eapply (owned_delete s _ p); [|done|done]. own. rewrite Hr. simpl. solve_Permutation.
Qed.

Lemma mapM_snoc {A B} (f : A -> option B) l x ys y :
  mapM f l = Some ys -> f x = Some y -> mapM f (l ++ [x]) = Some (ys ++ [y]).
Proof.
  revert ys. induction l as [|a l IH]; intros ys Hl Hx; simpl in *.
  - injection Hl as <-. simpl. rewrite Hx. reflexivity.
  - apply bind_Some in Hl as (b & Hb & (bs & Hbs & [= <-])%bind_Some).
    rewrite Hb. simpl. by rewrite (IH bs).
Qed.

Lemma mapM_cons_inv {A B} (f : A -> option B) x l ys :
  mapM f (x :: l) = Some ys -> exists z zs, f x = Some z /\ mapM f l = Some zs /\ ys = z :: zs.
Proof.
  simpl. intros (z & Hz & (zs & Hzs & [= <-])%bind_Some)%bind_Some. eauto.
Qed.

Lemma step_fifo s s' : owned s -> fifo s -> step s s' -> fifo s'.
Proof.
  intros [Hn Ho] (queued & Hq & Hs) Hstep. destruct Hstep as
    [w p js s Hh Hp|w p js s Hh Hp|t s|p q s Hr Ew|t q s Hr Ew|p js s Hr Hp|p s Hr Hp].
  - assert (p ∉ owners s) as Hni by (rewrite Ho, Hp; by intros [? ?]).
    unfold owners in Hni. rewrite !not_elem_of_app in Hni.
    destruct Hni as (_ & _ & Hni & Hnr). exists queued.
    assert (in_progress (set_held w (Some p) (set_heap (<[p := js]> (heap s)) s)) =
            in_progress s) as Ei.
    { unfold in_progress. destruct w; simpl; destruct (received s) as [[p' []]|]; try done;
        simpl in Hnr; rewrite lookup_insert_ne by set_solver; done. }
    rewrite Ei. destruct w; simpl; by rewrite mapM_deref_insert.
  - exists (queued ++ [JS js]).
    assert (in_progress (set_held w None (put_wire (WireJs p) (JS js) s)) = in_progress s) as ->
      by (by destruct w).
    split.
    + destruct w; simpl; apply mapM_snoc; try done; simpl; by rewrite Hp.
    + destruct w; simpl; rewrite Hs; by rewrite <-!app_assoc.
  - exists (queued ++ [TIMER t]). split; [by apply mapM_snoc|].
    simpl. rewrite Hs. by rewrite <-!app_assoc.
  - rewrite Ew in Hq. apply mapM_cons_inv in Hq as (z & zs & Hz & Hzs & ->).
    exists zs. split; [done|]. simpl in *. rewrite Hs. unfold in_progress. rewrite Hr. simpl.
    by rewrite Hz.
  - rewrite Ew in Hq. apply mapM_cons_inv in Hq as (z & zs & Hz & Hzs & ->). simpl in Hz.
    simplify_eq. exists zs. split; [done|]. simpl. rewrite Hs. unfold in_progress. simpl.
    rewrite Hr. simpl. by rewrite <-app_assoc.
  - exists queued. split; [done|]. simpl. rewrite Hs. unfold in_progress. simpl. rewrite Hr, Hp.
    simpl. by rewrite <-app_assoc.
  - assert (p ∉ wire_ptrs (wire s)) as Hni.
    { unfold owners in Hn. rewrite Hr in Hn. apply NoDup_app in Hn as (_ & _ & Hn).
      apply NoDup_app in Hn as (_ & _ & Hn). apply NoDup_app in Hn as (_ & Hd & _).
      intros Hin. apply (Hd p Hin). simpl. set_solver. }
    exists queued. split; [simpl; by rewrite mapM_deref_delete|].
    simpl. rewrite Hs. unfold in_progress. simpl. by rewrite Hr.
Qed.

Lemma reachable_inv s : rtc step initial_system s -> sys_inv s.
Proof.
  intros H. assert (sys_inv initial_system) as H0.
  { split.
    - split; [constructor|]. intros p. simpl. rewrite lookup_empty.
      split; [by intros ?%elem_of_nil|by intros [? ?]].
    - by exists []. }
  induction H as [s|s1 s2 s3 Hs _ IH]; [done|]. apply IH. destruct H0 as [Ho Hf].
  split; [by eapply step_owned|by eapply step_fifo].
Qed.

Lemma owned_not_faulty s : owned s -> ~ faulty s.
Proof.
  intros [_ Ho] [w p Hh Hp|p u Hr Hp].
  - apply held_owner, Ho in Hh. rewrite Hp in Hh. by destruct Hh.
  - assert (p ∈ owners s) as Hin by (unfold owners; rewrite Hr; simpl; set_solver).
    apply Ho in Hin. rewrite Hp in Hin. by destruct Hin.
Qed.

(** C20. Memory safety and order of the message queue.  In every reachable
    interleaving of the threads no thread touches a position that is not
    allocated; when nothing is held, queued or in progress, everything has been
    freed; and the messages handled so far are a prefix of those sent, in the
    order they were sent. *)
Theorem queue_safe_and_ordered (s : system) :
  rtc step initial_system s ->
  ~ faulty s /\
  (owners s = [] -> heap s = ∅) /\
  (forall p, is_Some (heap s !! p) -> p ∈ owners s) /\
  handled_msgs s `prefix_of` sent s.
Proof.
  intros [Hown (queued & _ & Hs)]%reachable_inv. pose proof Hown as [_ Ho].
  splits.
  - by apply owned_not_faulty.
  - intros E. apply map_empty. intros p. destruct (heap s !! p) eqn:Ep; [|done].
    assert (p ∈ owners s) as Hin by (apply Ho; by rewrite Ep). rewrite E in Hin. set_solver.
  - intros p. apply Ho.
  - exists (in_progress s ++ queued). done.
Qed.

(** The consumer never blocks on memory: whatever message is first, it can be
    received, handled and freed. *)
Lemma received_progress s p u :
  owned s -> received s = Some (p, u) -> exists s', step s s'.
Proof.
  intros [_ Ho] Hr. assert (is_Some (heap s !! p)) as [js Hp].
  { apply Ho. unfold owners. rewrite Hr. simpl. set_solver. }
  destruct u; [|by eexists; eapply StepHandleJs].
  eexists. apply StepDelete; [done|by eexists].
Qed.

(** Two positions and a timer message, the second producer overtaking. *)
Definition sample_js : js_data_t := JsData 0 0 500 (-500).

Lemma queue_safe_and_ordered_witness :
  exists s, rtc step initial_system s /\ ~ faulty s /\ heap s = ∅ /\
    handled_msgs s = [JS sample_js; TIMER 5].
Proof.
  set (s1 := set_held Udp (Some 1) (set_heap (<[1 := sample_js]> ∅) initial_system)).
  set (s2 := set_held Udp None (put_wire (WireJs 1) (JS sample_js) s1)).
  set (s3 := put_wire (WireTimer 5) (TIMER 5) s2).
  set (s4 := set_received (Some (1, false)) (set_wire [WireTimer 5] s3)).
  set (s5 := record (JS sample_js) (set_received (Some (1, true)) s4)).
  set (s6 := set_received None (set_heap (delete 1 (heap s5)) s5)).
  set (s7 := record (TIMER 5) (set_wire [] s6)).
  assert (rtc step initial_system s7) as Hrun.
  { apply (rtc_l _ _ s1); [by apply (StepNew Udp)|].
    apply (rtc_l _ _ s2); [by apply (StepSendJs Udp 1 sample_js)|].
    apply (rtc_l _ _ s3); [apply StepSendTimer|].
    apply (rtc_l _ _ s4); [by apply StepRecvJs|].
    apply (rtc_l _ _ s5); [by apply StepHandleJs|].
    apply (rtc_l _ _ s6); [apply StepDelete; [done|by eexists]|].
    apply (rtc_l _ _ s7); [by apply StepRecvTimer|]. apply rtc_refl. }
  exists s7. destruct (queue_safe_and_ordered s7 Hrun) as (Hf & He & _ & _).
  split; [exact Hrun|]. split; [exact Hf|]. split; [by apply He|reflexivity].
Defined.
