(* ===== verification/CecConst.v ===== *)
(** * CEC constants

    The named constants of [linux/cec.h]: message flags and status bits,
    logical addresses, modes, capabilities, opcodes and operand values. *)
From S2P Require Import Prelude.

Definition CEC_MAX_MSG_SIZE : Z := 16.
Definition CEC_MSG_FL_REPLY_TO_FOLLOWERS : Z := Z.shiftl 1 0.
Definition CEC_TX_STATUS_OK : Z := Z.shiftl 1 0.
Definition CEC_TX_STATUS_ARB_LOST : Z := Z.shiftl 1 1.
Definition CEC_TX_STATUS_NACK : Z := Z.shiftl 1 2.
Definition CEC_TX_STATUS_LOW_DRIVE : Z := Z.shiftl 1 3.
Definition CEC_TX_STATUS_ERROR : Z := Z.shiftl 1 4.
Definition CEC_TX_STATUS_MAX_RETRIES : Z := Z.shiftl 1 5.
Definition CEC_TX_STATUS_ABORTED : Z := Z.shiftl 1 6.
Definition CEC_TX_STATUS_TIMEOUT : Z := Z.shiftl 1 7.
Definition CEC_RX_STATUS_OK : Z := Z.shiftl 1 0.
Definition CEC_RX_STATUS_TIMEOUT : Z := Z.shiftl 1 1.
Definition CEC_RX_STATUS_FEATURE_ABORT : Z := Z.shiftl 1 2.
Definition CEC_RX_STATUS_ABORTED : Z := Z.shiftl 1 3.
Definition CEC_LOG_ADDR_INVALID : Z := 0xff.
Definition CEC_PHYS_ADDR_INVALID : Z := 0xffff.
Definition CEC_MAX_LOG_ADDRS : Z := 4.
Definition CEC_LOG_ADDR_TV : Z := 0.
Definition CEC_LOG_ADDR_RECORD_1 : Z := 1.
Definition CEC_LOG_ADDR_RECORD_2 : Z := 2.
Definition CEC_LOG_ADDR_TUNER_1 : Z := 3.
Definition CEC_LOG_ADDR_PLAYBACK_1 : Z := 4.
Definition CEC_LOG_ADDR_AUDIOSYSTEM : Z := 5.
Definition CEC_LOG_ADDR_TUNER_2 : Z := 6.
Definition CEC_LOG_ADDR_TUNER_3 : Z := 7.
Definition CEC_LOG_ADDR_PLAYBACK_2 : Z := 8.
Definition CEC_LOG_ADDR_RECORD_3 : Z := 9.
Definition CEC_LOG_ADDR_TUNER_4 : Z := 10.
Definition CEC_LOG_ADDR_PLAYBACK_3 : Z := 11.
Definition CEC_LOG_ADDR_BACKUP_1 : Z := 12.
Definition CEC_LOG_ADDR_BACKUP_2 : Z := 13.
Definition CEC_LOG_ADDR_SPECIFIC : Z := 14.
Definition CEC_LOG_ADDR_UNREGISTERED : Z := 15.
Definition CEC_LOG_ADDR_BROADCAST : Z := 15.
Definition CEC_LOG_ADDR_TYPE_TV : Z := 0.
Definition CEC_LOG_ADDR_TYPE_RECORD : Z := 1.
Definition CEC_LOG_ADDR_TYPE_TUNER : Z := 2.
Definition CEC_LOG_ADDR_TYPE_PLAYBACK : Z := 3.
Definition CEC_LOG_ADDR_TYPE_AUDIOSYSTEM : Z := 4.
Definition CEC_LOG_ADDR_TYPE_SPECIFIC : Z := 5.
Definition CEC_LOG_ADDR_TYPE_UNREGISTERED : Z := 6.
Definition CEC_LOG_ADDR_MASK_TV : Z := Z.shiftl 1 CEC_LOG_ADDR_TV.
Definition CEC_LOG_ADDR_MASK_RECORD : Z := Z.lor (Z.lor (Z.shiftl 1 CEC_LOG_ADDR_RECORD_1) (Z.shiftl 1 CEC_LOG_ADDR_RECORD_2)) (Z.shiftl 1 CEC_LOG_ADDR_RECORD_3).
Definition CEC_LOG_ADDR_MASK_TUNER : Z := Z.lor (Z.lor (Z.lor (Z.shiftl 1 CEC_LOG_ADDR_TUNER_1) (Z.shiftl 1 CEC_LOG_ADDR_TUNER_2)) (Z.shiftl 1 CEC_LOG_ADDR_TUNER_3)) (Z.shiftl 1 CEC_LOG_ADDR_TUNER_4).
Definition CEC_LOG_ADDR_MASK_PLAYBACK : Z := Z.lor (Z.lor (Z.shiftl 1 CEC_LOG_ADDR_PLAYBACK_1) (Z.shiftl 1 CEC_LOG_ADDR_PLAYBACK_2)) (Z.shiftl 1 CEC_LOG_ADDR_PLAYBACK_3).
Definition CEC_LOG_ADDR_MASK_AUDIOSYSTEM : Z := Z.shiftl 1 CEC_LOG_ADDR_AUDIOSYSTEM.
Definition CEC_LOG_ADDR_MASK_BACKUP : Z := Z.lor (Z.shiftl 1 CEC_LOG_ADDR_BACKUP_1) (Z.shiftl 1 CEC_LOG_ADDR_BACKUP_2).
Definition CEC_LOG_ADDR_MASK_SPECIFIC : Z := Z.shiftl 1 CEC_LOG_ADDR_SPECIFIC.
Definition CEC_LOG_ADDR_MASK_UNREGISTERED : Z := Z.shiftl 1 CEC_LOG_ADDR_UNREGISTERED.
Definition CEC_VENDOR_ID_NONE : Z := 0xffffffff.
Definition CEC_MODE_NO_INITIATOR : Z := Z.shiftl 0x0 0.
Definition CEC_MODE_INITIATOR : Z := Z.shiftl 0x1 0.
Definition CEC_MODE_EXCL_INITIATOR : Z := Z.shiftl 0x2 0.
Definition CEC_MODE_INITIATOR_MSK : Z := 0x0f.
Definition CEC_MODE_NO_FOLLOWER : Z := Z.shiftl 0x0 4.
Definition CEC_MODE_FOLLOWER : Z := Z.shiftl 0x1 4.
Definition CEC_MODE_EXCL_FOLLOWER : Z := Z.shiftl 0x2 4.
Definition CEC_MODE_EXCL_FOLLOWER_PASSTHRU : Z := Z.shiftl 0x3 4.
Definition CEC_MODE_MONITOR_PIN : Z := Z.shiftl 0xd 4.
Definition CEC_MODE_MONITOR : Z := Z.shiftl 0xe 4.
Definition CEC_MODE_MONITOR_ALL : Z := Z.shiftl 0xf 4.
Definition CEC_MODE_FOLLOWER_MSK : Z := 0xf0.
Definition CEC_CAP_PHYS_ADDR : Z := Z.shiftl 1 0.
Definition CEC_CAP_LOG_ADDRS : Z := Z.shiftl 1 1.
Definition CEC_CAP_TRANSMIT : Z := Z.shiftl 1 2.
Definition CEC_CAP_PASSTHROUGH : Z := Z.shiftl 1 3.
Definition CEC_CAP_RC : Z := Z.shiftl 1 4.
Definition CEC_CAP_MONITOR_ALL : Z := Z.shiftl 1 5.
Definition CEC_CAP_NEEDS_HPD : Z := Z.shiftl 1 6.
Definition CEC_CAP_MONITOR_PIN : Z := Z.shiftl 1 7.
Definition CEC_LOG_ADDRS_FL_ALLOW_UNREG_FALLBACK : Z := Z.shiftl 1 0.
Definition CEC_LOG_ADDRS_FL_ALLOW_RC_PASSTHRU : Z := Z.shiftl 1 1.
Definition CEC_LOG_ADDRS_FL_CDC_ONLY : Z := Z.shiftl 1 2.
Definition CEC_EVENT_STATE_CHANGE : Z := 1.
Definition CEC_EVENT_LOST_MSGS : Z := 2.
Definition CEC_EVENT_PIN_CEC_LOW : Z := 3.
Definition CEC_EVENT_PIN_CEC_HIGH : Z := 4.
Definition CEC_EVENT_PIN_HPD_LOW : Z := 5.
Definition CEC_EVENT_PIN_HPD_HIGH : Z := 6.
Definition CEC_EVENT_FL_INITIAL_STATE : Z := Z.shiftl 1 0.
Definition CEC_EVENT_FL_DROPPED_EVENTS : Z := Z.shiftl 1 1.

(** One Touch Play Feature *)
Definition CEC_MSG_ACTIVE_SOURCE : Z := 0x82.
Definition CEC_MSG_IMAGE_VIEW_ON : Z := 0x04.
Definition CEC_MSG_TEXT_VIEW_ON : Z := 0x0d.

(** Routing Control Feature *)
Definition CEC_MSG_INACTIVE_SOURCE : Z := 0x9d.
Definition CEC_MSG_REQUEST_ACTIVE_SOURCE : Z := 0x85.
Definition CEC_MSG_ROUTING_CHANGE : Z := 0x80.
Definition CEC_MSG_ROUTING_INFORMATION : Z := 0x81.
Definition CEC_MSG_SET_STREAM_PATH : Z := 0x86.

(** Standby Feature *)
Definition CEC_MSG_STANDBY : Z := 0x36.

(** One Touch Record Feature *)
Definition CEC_MSG_RECORD_OFF : Z := 0x0b.
Definition CEC_MSG_RECORD_ON : Z := 0x09.

(** Record Source Type Operand (rec_src_type) *)
Definition CEC_OP_RECORD_SRC_OWN : Z := 1.
Definition CEC_OP_RECORD_SRC_DIGITAL : Z := 2.
Definition CEC_OP_RECORD_SRC_ANALOG : Z := 3.
Definition CEC_OP_RECORD_SRC_EXT_PLUG : Z := 4.
Definition CEC_OP_RECORD_SRC_EXT_PHYS_ADDR : Z := 5.

(** Service Identification Method Operand (service_id_method) *)
Definition CEC_OP_SERVICE_ID_METHOD_BY_DIG_ID : Z := 0.
Definition CEC_OP_SERVICE_ID_METHOD_BY_CHANNEL : Z := 1.

(** Digital Service Broadcast System Operand (dig_bcast_system) *)
Definition CEC_OP_DIG_SERVICE_BCAST_SYSTEM_ARIB_GEN : Z := 0x00.
Definition CEC_OP_DIG_SERVICE_BCAST_SYSTEM_ATSC_GEN : Z := 0x01.
Definition CEC_OP_DIG_SERVICE_BCAST_SYSTEM_DVB_GEN : Z := 0x02.
Definition CEC_OP_DIG_SERVICE_BCAST_SYSTEM_ARIB_BS : Z := 0x08.
Definition CEC_OP_DIG_SERVICE_BCAST_SYSTEM_ARIB_CS : Z := 0x09.
Definition CEC_OP_DIG_SERVICE_BCAST_SYSTEM_ARIB_T : Z := 0x0a.
Definition CEC_OP_DIG_SERVICE_BCAST_SYSTEM_ATSC_CABLE : Z := 0x10.
Definition CEC_OP_DIG_SERVICE_BCAST_SYSTEM_ATSC_SAT : Z := 0x11.
Definition CEC_OP_DIG_SERVICE_BCAST_SYSTEM_ATSC_T : Z := 0x12.
Definition CEC_OP_DIG_SERVICE_BCAST_SYSTEM_DVB_C : Z := 0x18.
Definition CEC_OP_DIG_SERVICE_BCAST_SYSTEM_DVB_S : Z := 0x19.
Definition CEC_OP_DIG_SERVICE_BCAST_SYSTEM_DVB_S2 : Z := 0x1a.
Definition CEC_OP_DIG_SERVICE_BCAST_SYSTEM_DVB_T : Z := 0x1b.

(** Analogue Broadcast Type Operand (ana_bcast_type) *)
Definition CEC_OP_ANA_BCAST_TYPE_CABLE : Z := 0.
Definition CEC_OP_ANA_BCAST_TYPE_SATELLITE : Z := 1.
Definition CEC_OP_ANA_BCAST_TYPE_TERRESTRIAL : Z := 2.

(** Broadcast System Operand (bcast_system) *)
Definition CEC_OP_BCAST_SYSTEM_PAL_BG : Z := 0x00.
Definition CEC_OP_BCAST_SYSTEM_SECAM_LQ : Z := 0x01.
Definition CEC_OP_BCAST_SYSTEM_PAL_M : Z := 0x02.
Definition CEC_OP_BCAST_SYSTEM_NTSC_M : Z := 0x03.
Definition CEC_OP_BCAST_SYSTEM_PAL_I : Z := 0x04.
Definition CEC_OP_BCAST_SYSTEM_SECAM_DK : Z := 0x05.
Definition CEC_OP_BCAST_SYSTEM_SECAM_BG : Z := 0x06.
Definition CEC_OP_BCAST_SYSTEM_SECAM_L : Z := 0x07.
Definition CEC_OP_BCAST_SYSTEM_PAL_DK : Z := 0x08.
Definition CEC_OP_BCAST_SYSTEM_OTHER : Z := 0x1f.

(** Channel Number Format Operand (channel_number_fmt) *)
Definition CEC_OP_CHANNEL_NUMBER_FMT_1_PART : Z := 0x01.
Definition CEC_OP_CHANNEL_NUMBER_FMT_2_PART : Z := 0x02.
Definition CEC_MSG_RECORD_STATUS : Z := 0x0a.

(** Record Status Operand (rec_status) *)
Definition CEC_OP_RECORD_STATUS_CUR_SRC : Z := 0x01.
Definition CEC_OP_RECORD_STATUS_DIG_SERVICE : Z := 0x02.
Definition CEC_OP_RECORD_STATUS_ANA_SERVICE : Z := 0x03.
Definition CEC_OP_RECORD_STATUS_EXT_INPUT : Z := 0x04.
Definition CEC_OP_RECORD_STATUS_NO_DIG_SERVICE : Z := 0x05.
Definition CEC_OP_RECORD_STATUS_NO_ANA_SERVICE : Z := 0x06.
Definition CEC_OP_RECORD_STATUS_NO_SERVICE : Z := 0x07.
Definition CEC_OP_RECORD_STATUS_INVALID_EXT_PLUG : Z := 0x09.
Definition CEC_OP_RECORD_STATUS_INVALID_EXT_PHYS_ADDR : Z := 0x0a.
Definition CEC_OP_RECORD_STATUS_UNSUP_CA : Z := 0x0b.
Definition CEC_OP_RECORD_STATUS_NO_CA_ENTITLEMENTS : Z := 0x0c.
Definition CEC_OP_RECORD_STATUS_CANT_COPY_SRC : Z := 0x0d.
Definition CEC_OP_RECORD_STATUS_NO_MORE_COPIES : Z := 0x0e.
Definition CEC_OP_RECORD_STATUS_NO_MEDIA : Z := 0x10.
Definition CEC_OP_RECORD_STATUS_PLAYING : Z := 0x11.
Definition CEC_OP_RECORD_STATUS_ALREADY_RECORDING : Z := 0x12.
Definition CEC_OP_RECORD_STATUS_MEDIA_PROT : Z := 0x13.
Definition CEC_OP_RECORD_STATUS_NO_SIGNAL : Z := 0x14.
Definition CEC_OP_RECORD_STATUS_MEDIA_PROBLEM : Z := 0x15.
Definition CEC_OP_RECORD_STATUS_NO_SPACE : Z := 0x16.
Definition CEC_OP_RECORD_STATUS_PARENTAL_LOCK : Z := 0x17.
Definition CEC_OP_RECORD_STATUS_TERMINATED_OK : Z := 0x1a.
Definition CEC_OP_RECORD_STATUS_ALREADY_TERM : Z := 0x1b.
Definition CEC_OP_RECORD_STATUS_OTHER : Z := 0x1f.
Definition CEC_MSG_RECORD_TV_SCREEN : Z := 0x0f.

(** Timer Programming Feature *)
Definition CEC_MSG_CLEAR_ANALOGUE_TIMER : Z := 0x33.

(** Recording Sequence Operand (recording_seq) *)
Definition CEC_OP_REC_SEQ_SUNDAY : Z := 0x01.
Definition CEC_OP_REC_SEQ_MONDAY : Z := 0x02.
Definition CEC_OP_REC_SEQ_TUESDAY : Z := 0x04.
Definition CEC_OP_REC_SEQ_WEDNESDAY : Z := 0x08.
Definition CEC_OP_REC_SEQ_THURSDAY : Z := 0x10.
Definition CEC_OP_REC_SEQ_FRIDAY : Z := 0x20.
Definition CEC_OP_REC_SEQ_SATERDAY : Z := 0x40.
Definition CEC_OP_REC_SEQ_ONCE_ONLY : Z := 0x00.
Definition CEC_MSG_CLEAR_DIGITAL_TIMER : Z := 0x99.
Definition CEC_MSG_CLEAR_EXT_TIMER : Z := 0xa1.

(** External Source Specifier Operand (ext_src_spec) *)
Definition CEC_OP_EXT_SRC_PLUG : Z := 0x04.
Definition CEC_OP_EXT_SRC_PHYS_ADDR : Z := 0x05.
Definition CEC_MSG_SET_ANALOGUE_TIMER : Z := 0x34.
Definition CEC_MSG_SET_DIGITAL_TIMER : Z := 0x97.
Definition CEC_MSG_SET_EXT_TIMER : Z := 0xa2.
Definition CEC_MSG_SET_TIMER_PROGRAM_TITLE : Z := 0x67.
Definition CEC_MSG_TIMER_CLEARED_STATUS : Z := 0x43.

(** Timer Cleared Status Data Operand (timer_cleared_status) *)
Definition CEC_OP_TIMER_CLR_STAT_RECORDING : Z := 0x00.
Definition CEC_OP_TIMER_CLR_STAT_NO_MATCHING : Z := 0x01.
Definition CEC_OP_TIMER_CLR_STAT_NO_INFO : Z := 0x02.
Definition CEC_OP_TIMER_CLR_STAT_CLEARED : Z := 0x80.
Definition CEC_MSG_TIMER_STATUS : Z := 0x35.

(** Timer Overlap Warning Operand (timer_overlap_warning) *)
Definition CEC_OP_TIMER_OVERLAP_WARNING_NO_OVERLAP : Z := 0.
Definition CEC_OP_TIMER_OVERLAP_WARNING_OVERLAP : Z := 1.

(** Media Info Operand (media_info) *)
Definition CEC_OP_MEDIA_INFO_UNPROT_MEDIA : Z := 0.
Definition CEC_OP_MEDIA_INFO_PROT_MEDIA : Z := 1.
Definition CEC_OP_MEDIA_INFO_NO_MEDIA : Z := 2.

(** Programmed Indicator Operand (prog_indicator) *)
Definition CEC_OP_PROG_IND_NOT_PROGRAMMED : Z := 0.
Definition CEC_OP_PROG_IND_PROGRAMMED : Z := 1.

(** Programmed Info Operand (prog_info) *)
Definition CEC_OP_PROG_INFO_ENOUGH_SPACE : Z := 0x08.
Definition CEC_OP_PROG_INFO_NOT_ENOUGH_SPACE : Z := 0x09.
Definition CEC_OP_PROG_INFO_MIGHT_NOT_BE_ENOUGH_SPACE : Z := 0x0b.
Definition CEC_OP_PROG_INFO_NONE_AVAILABLE : Z := 0x0a.

(** Not Programmed Error Info Operand (prog_error) *)
Definition CEC_OP_PROG_ERROR_NO_FREE_TIMER : Z := 0x01.
Definition CEC_OP_PROG_ERROR_DATE_OUT_OF_RANGE : Z := 0x02.
Definition CEC_OP_PROG_ERROR_REC_SEQ_ERROR : Z := 0x03.
Definition CEC_OP_PROG_ERROR_INV_EXT_PLUG : Z := 0x04.
Definition CEC_OP_PROG_ERROR_INV_EXT_PHYS_ADDR : Z := 0x05.
Definition CEC_OP_PROG_ERROR_CA_UNSUPP : Z := 0x06.
Definition CEC_OP_PROG_ERROR_INSUF_CA_ENTITLEMENTS : Z := 0x07.
Definition CEC_OP_PROG_ERROR_RESOLUTION_UNSUPP : Z := 0x08.
Definition CEC_OP_PROG_ERROR_PARENTAL_LOCK : Z := 0x09.
Definition CEC_OP_PROG_ERROR_CLOCK_FAILURE : Z := 0x0a.
Definition CEC_OP_PROG_ERROR_DUPLICATE : Z := 0x0e.

(** System Information Feature *)
Definition CEC_MSG_CEC_VERSION : Z := 0x9e.

(** CEC Version Operand (cec_version) *)
Definition CEC_OP_CEC_VERSION_1_3A : Z := 4.
Definition CEC_OP_CEC_VERSION_1_4 : Z := 5.
Definition CEC_OP_CEC_VERSION_2_0 : Z := 6.
Definition CEC_MSG_GET_CEC_VERSION : Z := 0x9f.
Definition CEC_MSG_GIVE_PHYSICAL_ADDR : Z := 0x83.
Definition CEC_MSG_GET_MENU_LANGUAGE : Z := 0x91.
Definition CEC_MSG_REPORT_PHYSICAL_ADDR : Z := 0x84.

(** Primary Device Type Operand (prim_devtype) *)
Definition CEC_OP_PRIM_DEVTYPE_TV : Z := 0.
Definition CEC_OP_PRIM_DEVTYPE_RECORD : Z := 1.
Definition CEC_OP_PRIM_DEVTYPE_TUNER : Z := 3.
Definition CEC_OP_PRIM_DEVTYPE_PLAYBACK : Z := 4.
Definition CEC_OP_PRIM_DEVTYPE_AUDIOSYSTEM : Z := 5.
Definition CEC_OP_PRIM_DEVTYPE_SWITCH : Z := 6.
Definition CEC_OP_PRIM_DEVTYPE_PROCESSOR : Z := 7.
Definition CEC_MSG_SET_MENU_LANGUAGE : Z := 0x32.
Definition CEC_MSG_REPORT_FEATURES : Z := 0xa6.

(** All Device Types Operand (all_device_types) *)
Definition CEC_OP_ALL_DEVTYPE_TV : Z := 0x80.
Definition CEC_OP_ALL_DEVTYPE_RECORD : Z := 0x40.
Definition CEC_OP_ALL_DEVTYPE_TUNER : Z := 0x20.
Definition CEC_OP_ALL_DEVTYPE_PLAYBACK : Z := 0x10.
Definition CEC_OP_ALL_DEVTYPE_AUDIOSYSTEM : Z := 0x08.
Definition CEC_OP_ALL_DEVTYPE_SWITCH : Z := 0x04.

(** Valid for RC Profile and Device Feature operands *)
Definition CEC_OP_FEAT_EXT : Z := 0x80.

(** RC Profile Operand (rc_profile) *)
Definition CEC_OP_FEAT_RC_TV_PROFILE_NONE : Z := 0x00.
Definition CEC_OP_FEAT_RC_TV_PROFILE_1 : Z := 0x02.
Definition CEC_OP_FEAT_RC_TV_PROFILE_2 : Z := 0x06.
Definition CEC_OP_FEAT_RC_TV_PROFILE_3 : Z := 0x0a.
Definition CEC_OP_FEAT_RC_TV_PROFILE_4 : Z := 0x0e.
Definition CEC_OP_FEAT_RC_SRC_HAS_DEV_ROOT_MENU : Z := 0x50.
Definition CEC_OP_FEAT_RC_SRC_HAS_DEV_SETUP_MENU : Z := 0x48.
Definition CEC_OP_FEAT_RC_SRC_HAS_CONTENTS_MENU : Z := 0x44.
Definition CEC_OP_FEAT_RC_SRC_HAS_MEDIA_TOP_MENU : Z := 0x42.
Definition CEC_OP_FEAT_RC_SRC_HAS_MEDIA_CONTEXT_MENU : Z := 0x41.

(** Device Feature Operand (dev_features) *)
Definition CEC_OP_FEAT_DEV_HAS_RECORD_TV_SCREEN : Z := 0x40.
Definition CEC_OP_FEAT_DEV_HAS_SET_OSD_STRING : Z := 0x20.
Definition CEC_OP_FEAT_DEV_HAS_DECK_CONTROL : Z := 0x10.
Definition CEC_OP_FEAT_DEV_HAS_SET_AUDIO_RATE : Z := 0x08.
Definition CEC_OP_FEAT_DEV_SINK_HAS_ARC_TX : Z := 0x04.
Definition CEC_OP_FEAT_DEV_SOURCE_HAS_ARC_RX : Z := 0x02.
Definition CEC_MSG_GIVE_FEATURES : Z := 0xa5.

(** Deck Control Feature *)
Definition CEC_MSG_DECK_CONTROL : Z := 0x42.

(** Deck Control Mode Operand (deck_control_mode) *)
Definition CEC_OP_DECK_CTL_MODE_SKIP_FWD : Z := 1.
Definition CEC_OP_DECK_CTL_MODE_SKIP_REV : Z := 2.
Definition CEC_OP_DECK_CTL_MODE_STOP : Z := 3.
Definition CEC_OP_DECK_CTL_MODE_EJECT : Z := 4.
Definition CEC_MSG_DECK_STATUS : Z := 0x1b.

(** Deck Info Operand (deck_info) *)
Definition CEC_OP_DECK_INFO_PLAY : Z := 0x11.
Definition CEC_OP_DECK_INFO_RECORD : Z := 0x12.
Definition CEC_OP_DECK_INFO_PLAY_REV : Z := 0x13.
Definition CEC_OP_DECK_INFO_STILL : Z := 0x14.
Definition CEC_OP_DECK_INFO_SLOW : Z := 0x15.
Definition CEC_OP_DECK_INFO_SLOW_REV : Z := 0x16.
Definition CEC_OP_DECK_INFO_FAST_FWD : Z := 0x17.
Definition CEC_OP_DECK_INFO_FAST_REV : Z := 0x18.
Definition CEC_OP_DECK_INFO_NO_MEDIA : Z := 0x19.
Definition CEC_OP_DECK_INFO_STOP : Z := 0x1a.
Definition CEC_OP_DECK_INFO_SKIP_FWD : Z := 0x1b.
Definition CEC_OP_DECK_INFO_SKIP_REV : Z := 0x1c.
Definition CEC_OP_DECK_INFO_INDEX_SEARCH_FWD : Z := 0x1d.
Definition CEC_OP_DECK_INFO_INDEX_SEARCH_REV : Z := 0x1e.
Definition CEC_OP_DECK_INFO_OTHER : Z := 0x1f.
Definition CEC_MSG_GIVE_DECK_STATUS : Z := 0x1a.

(** Status Request Operand (status_req) *)
Definition CEC_OP_STATUS_REQ_ON : Z := 1.
Definition CEC_OP_STATUS_REQ_OFF : Z := 2.
Definition CEC_OP_STATUS_REQ_ONCE : Z := 3.
Definition CEC_MSG_PLAY : Z := 0x41.

(** Play Mode Operand (play_mode) *)
Definition CEC_OP_PLAY_MODE_PLAY_FWD : Z := 0x24.
Definition CEC_OP_PLAY_MODE_PLAY_REV : Z := 0x20.
Definition CEC_OP_PLAY_MODE_PLAY_STILL : Z := 0x25.
Definition CEC_OP_PLAY_MODE_PLAY_FAST_FWD_MIN : Z := 0x05.
Definition CEC_OP_PLAY_MODE_PLAY_FAST_FWD_MED : Z := 0x06.
Definition CEC_OP_PLAY_MODE_PLAY_FAST_FWD_MAX : Z := 0x07.
Definition CEC_OP_PLAY_MODE_PLAY_FAST_REV_MIN : Z := 0x09.
Definition CEC_OP_PLAY_MODE_PLAY_FAST_REV_MED : Z := 0x0a.
Definition CEC_OP_PLAY_MODE_PLAY_FAST_REV_MAX : Z := 0x0b.
Definition CEC_OP_PLAY_MODE_PLAY_SLOW_FWD_MIN : Z := 0x15.
Definition CEC_OP_PLAY_MODE_PLAY_SLOW_FWD_MED : Z := 0x16.
Definition CEC_OP_PLAY_MODE_PLAY_SLOW_FWD_MAX : Z := 0x17.
Definition CEC_OP_PLAY_MODE_PLAY_SLOW_REV_MIN : Z := 0x19.
Definition CEC_OP_PLAY_MODE_PLAY_SLOW_REV_MED : Z := 0x1a.
Definition CEC_OP_PLAY_MODE_PLAY_SLOW_REV_MAX : Z := 0x1b.

(** Tuner Control Feature *)
Definition CEC_MSG_GIVE_TUNER_DEVICE_STATUS : Z := 0x08.
Definition CEC_MSG_SELECT_ANALOGUE_SERVICE : Z := 0x92.
Definition CEC_MSG_SELECT_DIGITAL_SERVICE : Z := 0x93.
Definition CEC_MSG_TUNER_DEVICE_STATUS : Z := 0x07.

(** Recording Flag Operand (rec_flag) *)
Definition CEC_OP_REC_FLAG_USED : Z := 0.
Definition CEC_OP_REC_FLAG_NOT_USED : Z := 1.

(** Tuner Display Info Operand (tuner_display_info) *)
Definition CEC_OP_TUNER_DISPLAY_INFO_DIGITAL : Z := 0.
Definition CEC_OP_TUNER_DISPLAY_INFO_NONE : Z := 1.
Definition CEC_OP_TUNER_DISPLAY_INFO_ANALOGUE : Z := 2.
Definition CEC_MSG_TUNER_STEP_DECREMENT : Z := 0x06.
Definition CEC_MSG_TUNER_STEP_INCREMENT : Z := 0x05.

(** Vendor Specific Commands Feature *)
Definition CEC_MSG_DEVICE_VENDOR_ID : Z := 0x87.
Definition CEC_MSG_GIVE_DEVICE_VENDOR_ID : Z := 0x8c.
Definition CEC_MSG_VENDOR_COMMAND : Z := 0x89.
Definition CEC_MSG_VENDOR_COMMAND_WITH_ID : Z := 0xa0.
Definition CEC_MSG_VENDOR_REMOTE_BUTTON_DOWN : Z := 0x8a.
Definition CEC_MSG_VENDOR_REMOTE_BUTTON_UP : Z := 0x8b.

(** OSD Display Feature *)
Definition CEC_MSG_SET_OSD_STRING : Z := 0x64.

(** Display Control Operand (disp_ctl) *)
Definition CEC_OP_DISP_CTL_DEFAULT : Z := 0x00.
Definition CEC_OP_DISP_CTL_UNTIL_CLEARED : Z := 0x40.
Definition CEC_OP_DISP_CTL_CLEAR : Z := 0x80.

(** Device OSD Transfer Feature *)
Definition CEC_MSG_GIVE_OSD_NAME : Z := 0x46.
Definition CEC_MSG_SET_OSD_NAME : Z := 0x47.

(** Device Menu Control Feature *)
Definition CEC_MSG_MENU_REQUEST : Z := 0x8d.

(** Menu Request Type Operand (menu_req) *)
Definition CEC_OP_MENU_REQUEST_ACTIVATE : Z := 0x00.
Definition CEC_OP_MENU_REQUEST_DEACTIVATE : Z := 0x01.
Definition CEC_OP_MENU_REQUEST_QUERY : Z := 0x02.
Definition CEC_MSG_MENU_STATUS : Z := 0x8e.

(** Menu State Operand (menu_state) *)
Definition CEC_OP_MENU_STATE_ACTIVATED : Z := 0x00.
Definition CEC_OP_MENU_STATE_DEACTIVATED : Z := 0x01.
Definition CEC_MSG_USER_CONTROL_PRESSED : Z := 0x44.

(** UI Broadcast Type Operand (ui_bcast_type) *)
Definition CEC_OP_UI_BCAST_TYPE_TOGGLE_ALL : Z := 0x00.
Definition CEC_OP_UI_BCAST_TYPE_TOGGLE_DIG_ANA : Z := 0x01.
Definition CEC_OP_UI_BCAST_TYPE_ANALOGUE : Z := 0x10.
Definition CEC_OP_UI_BCAST_TYPE_ANALOGUE_T : Z := 0x20.
Definition CEC_OP_UI_BCAST_TYPE_ANALOGUE_CABLE : Z := 0x30.
Definition CEC_OP_UI_BCAST_TYPE_ANALOGUE_SAT : Z := 0x40.
Definition CEC_OP_UI_BCAST_TYPE_DIGITAL : Z := 0x50.
Definition CEC_OP_UI_BCAST_TYPE_DIGITAL_T : Z := 0x60.
Definition CEC_OP_UI_BCAST_TYPE_DIGITAL_CABLE : Z := 0x70.
Definition CEC_OP_UI_BCAST_TYPE_DIGITAL_SAT : Z := 0x80.
Definition CEC_OP_UI_BCAST_TYPE_DIGITAL_COM_SAT : Z := 0x90.
Definition CEC_OP_UI_BCAST_TYPE_DIGITAL_COM_SAT2 : Z := 0x91.
Definition CEC_OP_UI_BCAST_TYPE_IP : Z := 0xa0.

(** UI Sound Presentation Control Operand (ui_snd_pres_ctl) *)
Definition CEC_OP_UI_SND_PRES_CTL_DUAL_MONO : Z := 0x10.
Definition CEC_OP_UI_SND_PRES_CTL_KARAOKE : Z := 0x20.
Definition CEC_OP_UI_SND_PRES_CTL_DOWNMIX : Z := 0x80.
Definition CEC_OP_UI_SND_PRES_CTL_REVERB : Z := 0x90.
Definition CEC_OP_UI_SND_PRES_CTL_EQUALIZER : Z := 0xa0.
Definition CEC_OP_UI_SND_PRES_CTL_BASS_UP : Z := 0xb1.
Definition CEC_OP_UI_SND_PRES_CTL_BASS_NEUTRAL : Z := 0xb2.
Definition CEC_OP_UI_SND_PRES_CTL_BASS_DOWN : Z := 0xb3.
Definition CEC_OP_UI_SND_PRES_CTL_TREBLE_UP : Z := 0xc1.
Definition CEC_OP_UI_SND_PRES_CTL_TREBLE_NEUTRAL : Z := 0xc2.
Definition CEC_OP_UI_SND_PRES_CTL_TREBLE_DOWN : Z := 0xc3.
Definition CEC_MSG_USER_CONTROL_RELEASED : Z := 0x45.

(** Power Status Feature *)
Definition CEC_MSG_GIVE_DEVICE_POWER_STATUS : Z := 0x8f.
Definition CEC_MSG_REPORT_POWER_STATUS : Z := 0x90.

(** Power Status Operand (pwr_state) *)
Definition CEC_OP_POWER_STATUS_ON : Z := 0.
Definition CEC_OP_POWER_STATUS_STANDBY : Z := 1.
Definition CEC_OP_POWER_STATUS_TO_ON : Z := 2.
Definition CEC_OP_POWER_STATUS_TO_STANDBY : Z := 3.

(** General Protocol Messages *)
Definition CEC_MSG_FEATURE_ABORT : Z := 0x00.

(** Abort Reason Operand (reason) *)
Definition CEC_OP_ABORT_UNRECOGNIZED_OP : Z := 0.
Definition CEC_OP_ABORT_INCORRECT_MODE : Z := 1.
Definition CEC_OP_ABORT_NO_SOURCE : Z := 2.
Definition CEC_OP_ABORT_INVALID_OP : Z := 3.
Definition CEC_OP_ABORT_REFUSED : Z := 4.
Definition CEC_OP_ABORT_UNDETERMINED : Z := 5.
Definition CEC_MSG_ABORT : Z := 0xff.

(** System Audio Control Feature *)
Definition CEC_MSG_GIVE_AUDIO_STATUS : Z := 0x71.
Definition CEC_MSG_GIVE_SYSTEM_AUDIO_MODE_STATUS : Z := 0x7d.
Definition CEC_MSG_REPORT_AUDIO_STATUS : Z := 0x7a.

(** Audio Mute Status Operand (aud_mute_status) *)
Definition CEC_OP_AUD_MUTE_STATUS_OFF : Z := 0.
Definition CEC_OP_AUD_MUTE_STATUS_ON : Z := 1.
Definition CEC_MSG_REPORT_SHORT_AUDIO_DESCRIPTOR : Z := 0xa3.
Definition CEC_MSG_REQUEST_SHORT_AUDIO_DESCRIPTOR : Z := 0xa4.
Definition CEC_MSG_SET_SYSTEM_AUDIO_MODE : Z := 0x72.

(** System Audio Status Operand (sys_aud_status) *)
Definition CEC_OP_SYS_AUD_STATUS_OFF : Z := 0.
Definition CEC_OP_SYS_AUD_STATUS_ON : Z := 1.
Definition CEC_MSG_SYSTEM_AUDIO_MODE_REQUEST : Z := 0x70.
Definition CEC_MSG_SYSTEM_AUDIO_MODE_STATUS : Z := 0x7e.

(** Audio Format ID Operand (audio_format_id) *)
Definition CEC_OP_AUD_FMT_ID_CEA861 : Z := 0.
Definition CEC_OP_AUD_FMT_ID_CEA861_CXT : Z := 1.

(** Audio Rate Control Feature *)
Definition CEC_MSG_SET_AUDIO_RATE : Z := 0x9a.

(** Audio Rate Operand (audio_rate) *)
Definition CEC_OP_AUD_RATE_OFF : Z := 0.
Definition CEC_OP_AUD_RATE_WIDE_STD : Z := 1.
Definition CEC_OP_AUD_RATE_WIDE_FAST : Z := 2.
Definition CEC_OP_AUD_RATE_WIDE_SLOW : Z := 3.
Definition CEC_OP_AUD_RATE_NARROW_STD : Z := 4.
Definition CEC_OP_AUD_RATE_NARROW_FAST : Z := 5.
Definition CEC_OP_AUD_RATE_NARROW_SLOW : Z := 6.

(** Audio Return Channel Control Feature *)
Definition CEC_MSG_INITIATE_ARC : Z := 0xc0.
Definition CEC_MSG_REPORT_ARC_INITIATED : Z := 0xc1.
Definition CEC_MSG_REPORT_ARC_TERMINATED : Z := 0xc2.
Definition CEC_MSG_REQUEST_ARC_INITIATION : Z := 0xc3.
Definition CEC_MSG_REQUEST_ARC_TERMINATION : Z := 0xc4.
Definition CEC_MSG_TERMINATE_ARC : Z := 0xc5.

(** Only for CEC 2.0 and up *)
Definition CEC_MSG_REQUEST_CURRENT_LATENCY : Z := 0xa7.
Definition CEC_MSG_REPORT_CURRENT_LATENCY : Z := 0xa8.

(** Low Latency Mode Operand (low_latency_mode) *)
Definition CEC_OP_LOW_LATENCY_MODE_OFF : Z := 0.
Definition CEC_OP_LOW_LATENCY_MODE_ON : Z := 1.

(** Audio Output Compensated Operand (audio_out_compensated) *)
Definition CEC_OP_AUD_OUT_COMPENSATED_NA : Z := 0.
Definition CEC_OP_AUD_OUT_COMPENSATED_DELAY : Z := 1.
Definition CEC_OP_AUD_OUT_COMPENSATED_NO_DELAY : Z := 2.
Definition CEC_OP_AUD_OUT_COMPENSATED_PARTIAL_DELAY : Z := 3.

(** Capability Discovery and Control Feature *)
Definition CEC_MSG_CDC_MESSAGE : Z := 0xf8.

(** Ethernet-over-HDMI: nobody ever does this... *)
Definition CEC_MSG_CDC_HEC_INQUIRE_STATE : Z := 0x00.
Definition CEC_MSG_CDC_HEC_REPORT_STATE : Z := 0x01.

(** HEC Functionality State Operand (hec_func_state) *)
Definition CEC_OP_HEC_FUNC_STATE_NOT_SUPPORTED : Z := 0.
Definition CEC_OP_HEC_FUNC_STATE_INACTIVE : Z := 1.
Definition CEC_OP_HEC_FUNC_STATE_ACTIVE : Z := 2.
Definition CEC_OP_HEC_FUNC_STATE_ACTIVATION_FIELD : Z := 3.

(** Host Functionality State Operand (host_func_state) *)
Definition CEC_OP_HOST_FUNC_STATE_NOT_SUPPORTED : Z := 0.
Definition CEC_OP_HOST_FUNC_STATE_INACTIVE : Z := 1.
Definition CEC_OP_HOST_FUNC_STATE_ACTIVE : Z := 2.

(** ENC Functionality State Operand (enc_func_state) *)
Definition CEC_OP_ENC_FUNC_STATE_EXT_CON_NOT_SUPPORTED : Z := 0.
Definition CEC_OP_ENC_FUNC_STATE_EXT_CON_INACTIVE : Z := 1.
Definition CEC_OP_ENC_FUNC_STATE_EXT_CON_ACTIVE : Z := 2.

(** CDC Error Code Operand (cdc_errcode) *)
Definition CEC_OP_CDC_ERROR_CODE_NONE : Z := 0.
Definition CEC_OP_CDC_ERROR_CODE_CAP_UNSUPPORTED : Z := 1.
Definition CEC_OP_CDC_ERROR_CODE_WRONG_STATE : Z := 2.
Definition CEC_OP_CDC_ERROR_CODE_OTHER : Z := 3.

(** HEC Support Operand (hec_support) *)
Definition CEC_OP_HEC_SUPPORT_NO : Z := 0.
Definition CEC_OP_HEC_SUPPORT_YES : Z := 1.

(** HEC Activation Operand (hec_activation) *)
Definition CEC_OP_HEC_ACTIVATION_ON : Z := 0.
Definition CEC_OP_HEC_ACTIVATION_OFF : Z := 1.
Definition CEC_MSG_CDC_HEC_SET_STATE_ADJACENT : Z := 0x02.
Definition CEC_MSG_CDC_HEC_SET_STATE : Z := 0x03.

(** HEC Set State Operand (hec_set_state) *)
Definition CEC_OP_HEC_SET_STATE_DEACTIVATE : Z := 0.
Definition CEC_OP_HEC_SET_STATE_ACTIVATE : Z := 1.
Definition CEC_MSG_CDC_HEC_REQUEST_DEACTIVATION : Z := 0x04.
Definition CEC_MSG_CDC_HEC_NOTIFY_ALIVE : Z := 0x05.
Definition CEC_MSG_CDC_HEC_DISCOVER : Z := 0x06.

(** Hotplug Detect messages *)
Definition CEC_MSG_CDC_HPD_SET_STATE : Z := 0x10.

(** HPD State Operand (hpd_state) *)
Definition CEC_OP_HPD_STATE_CP_EDID_DISABLE : Z := 0.
Definition CEC_OP_HPD_STATE_CP_EDID_ENABLE : Z := 1.
Definition CEC_OP_HPD_STATE_CP_EDID_DISABLE_ENABLE : Z := 2.
Definition CEC_OP_HPD_STATE_EDID_DISABLE : Z := 3.
Definition CEC_OP_HPD_STATE_EDID_ENABLE : Z := 4.
Definition CEC_OP_HPD_STATE_EDID_DISABLE_ENABLE : Z := 5.
Definition CEC_MSG_CDC_HPD_REPORT_STATE : Z := 0x11.

(** HPD Error Code Operand (hpd_error) *)
Definition CEC_OP_HPD_ERROR_NONE : Z := 0.
Definition CEC_OP_HPD_ERROR_INITIATOR_NOT_CAPABLE : Z := 1.
Definition CEC_OP_HPD_ERROR_INITIATOR_WRONG_STATE : Z := 2.
Definition CEC_OP_HPD_ERROR_OTHER : Z := 3.
Definition CEC_OP_HPD_ERROR_NONE_NO_VIDEO : Z := 4.
