(* ===== verification/Cec.v ===== *)
(** * CEC messages: the message structure and its helpers

    [struct cec_msg] of [linux/cec.h] and its inline helpers, with the small
    state monad the message builders and readers of [linux/cec-funcs.h] run
    in.  The octets of the message are a list of sixteen; a store or a load
    outside of them is undefined behaviour, [None]. *)
From S2P Require Import Prelude CecConst.

(** ** [struct cec_msg] *)
Record cec_msg := CecMsg {
  tx_ts : Z; rx_ts : Z; len : Z; timeout : Z; sequence : Z; flags : Z;
  msg : list Z; reply : Z; rx_status : Z; tx_status : Z;
  tx_arb_lost_cnt : Z; tx_nack_cnt : Z; tx_low_drive_cnt : Z; tx_error_cnt : Z }.

Definition with_len (v : Z) (m : cec_msg) : cec_msg :=
  CecMsg (tx_ts m) (rx_ts m) v (timeout m) (sequence m) (flags m) (msg m) (reply m)
    (rx_status m) (tx_status m) (tx_arb_lost_cnt m) (tx_nack_cnt m) (tx_low_drive_cnt m)
    (tx_error_cnt m).
Definition with_timeout (v : Z) (m : cec_msg) : cec_msg :=
  CecMsg (tx_ts m) (rx_ts m) (len m) v (sequence m) (flags m) (msg m) (reply m)
    (rx_status m) (tx_status m) (tx_arb_lost_cnt m) (tx_nack_cnt m) (tx_low_drive_cnt m)
    (tx_error_cnt m).
Definition with_msg (v : list Z) (m : cec_msg) : cec_msg :=
  CecMsg (tx_ts m) (rx_ts m) (len m) (timeout m) (sequence m) (flags m) v (reply m)
    (rx_status m) (tx_status m) (tx_arb_lost_cnt m) (tx_nack_cnt m) (tx_low_drive_cnt m)
    (tx_error_cnt m).
Definition with_reply (v : Z) (m : cec_msg) : cec_msg :=
  CecMsg (tx_ts m) (rx_ts m) (len m) (timeout m) (sequence m) (flags m) (msg m) v
    (rx_status m) (tx_status m) (tx_arb_lost_cnt m) (tx_nack_cnt m) (tx_low_drive_cnt m)
    (tx_error_cnt m).

(** ** The monad of a function that works on one message *)
Definition C (A : Type) : Type := cec_msg -> option (A * cec_msg).

Definition ret {A} (x : A) : C A := fun m => Some (x, m).
Definition bind {A B} (e : C A) (k : A -> C B) : C B := fun m =>
  match e m with Some (x, m') => k x m' | None => None end.

Declare Scope cec_scope.
Delimit Scope cec_scope with cec.
Open Scope cec_scope.
Notation "e1 ;; e2" := (bind e1 (fun _ : unit => e2))
  (at level 100, right associativity) : cec_scope.
Notation "'let*' x := e 'in' k" := (bind e (fun x => k))
  (at level 10, x binder, e at level 200, k at level 200) : cec_scope.
Notation "'let*' ' p := e 'in' k" := (bind e (fun x => match x with p => k end))
  (at level 10, p pattern, e at level 200, k at level 200) : cec_scope.

(** [msg->len = v], [msg->len], [msg->reply = v]. *)
Definition set_len (v : Z) : C unit := fun m => Some (tt, with_len (u32 v) m).
Definition get_len : C Z := fun m => Some (len m, m).
Definition set_reply (v : Z) : C unit := fun m => Some (tt, with_reply (u8 v) m).

(** [msg->msg[i]] and [msg->msg[i] = v]. *)
Definition get (i : nat) : C Z := fun m =>
  match msg m !! i with Some b => Some (b, m) | None => None end.
Definition put (i : nat) (v : Z) : C unit := fun m =>
  if (i <? length (msg m))%nat then Some (tt, with_msg (<[i := u8 v]> (msg m)) m) else None.

(** [msg->msg[i] |= v] and [msg->msg[msg->len++] = v]. *)
Definition or_msg (i : nat) (v : Z) : C unit :=
  let* b := get i in put i (Z.lor b v).
Definition append (v : Z) : C unit :=
  let* l := get_len in
  set_len (l + 1);;
  put (Z.to_nat l) v.

(** [buf[0]], ..., [buf[n - 1]], when the array has them. *)
Definition elements (n : nat) (buf : list Z) : C (list Z) := fun m =>
  if (n <=? length buf)%nat then Some (take n buf, m) else None.

Fixpoint put_all (i : nat) (bs : list Z) : C unit :=
  match bs with
  | [] => ret tt
  | b :: bs' => put i b;; put_all (S i) bs'
  end.

(** [memcpy(msg->msg + i, buf, n)] and [memcpy(..., msg->msg + i, n)]. *)
Definition memcpy_in (i : nat) (buf : list Z) (n : nat) : C unit :=
  let* bs := elements n buf in put_all i bs.
Definition memcpy_out (i n : nat) : C (list Z) := fun m =>
  if (i + n <=? length (msg m))%nat then Some (take n (drop i (msg m)), m) else None.

(** The characters [strlen] counts. *)
Definition strlen (buf : list Z) : C (list Z) := fun m =>
  match cstring buf with Some s => Some (s, m) | None => None end.

(** ** The helpers of cec.h *)
Definition cec_msg_initiator : C Z := let* b := get 0 in ret (u8 (Z.shiftr b 4)).
Definition cec_msg_destination : C Z := let* b := get 0 in ret (u8 (Z.land b 0xf)).
Definition cec_msg_opcode : C Z :=
  let* l := get_len in if 1 <? l then get 1 else ret (-1).
Definition cec_msg_is_broadcast : C bool :=
  let* b := get 0 in ret (Z.land b 0xf =? 0xf).

Definition cec_msg_init (initiator destination : Z) : cec_msg :=
  CecMsg 0 0 1 0 0 0 (u8 (Z.lor (Z.shiftl initiator 4) destination) :: replicate 15 0)
    0 0 0 0 0 0 0.

(** [cec_msg_set_reply_to(msg, orig)] with two messages, and with the same
    one twice. *)
Definition cec_msg_set_reply_to (orig : cec_msg) : C unit := fun m =>
  match cec_msg_destination orig, cec_msg_initiator orig with
  | Some (d, _), Some (i, _) =>
      match put 0 (Z.lor (Z.shiftl d 4) i) m with
      | Some (_, m') => Some (tt, with_reply 0 (with_timeout 0 m'))
      | None => None
      end
  | _, _ => None
  end.
Definition cec_msg_set_reply_to_self : C unit := fun m => cec_msg_set_reply_to m m.

Definition cec_msg_status_is_ok (m : cec_msg) : bool :=
  if negb (tx_status m =? 0) && (Z.land (tx_status m) CEC_TX_STATUS_OK =? 0) then false
  else if negb (rx_status m =? 0) && (Z.land (rx_status m) CEC_RX_STATUS_OK =? 0) then false
  else if (tx_status m =? 0) && (rx_status m =? 0) then false
  else Z.land (rx_status m) CEC_RX_STATUS_FEATURE_ABORT =? 0.

Definition cec_has_tv (log_addr_mask : Z) : Z := Z.land log_addr_mask CEC_LOG_ADDR_MASK_TV.
Definition cec_has_record (log_addr_mask : Z) : Z :=
  Z.land log_addr_mask CEC_LOG_ADDR_MASK_RECORD.
Definition cec_has_tuner (log_addr_mask : Z) : Z :=
  Z.land log_addr_mask CEC_LOG_ADDR_MASK_TUNER.
Definition cec_has_playback (log_addr_mask : Z) : Z :=
  Z.land log_addr_mask CEC_LOG_ADDR_MASK_PLAYBACK.
Definition cec_has_audiosystem (log_addr_mask : Z) : Z :=
  Z.land log_addr_mask CEC_LOG_ADDR_MASK_AUDIOSYSTEM.
Definition cec_has_backup (log_addr_mask : Z) : Z :=
  Z.land log_addr_mask CEC_LOG_ADDR_MASK_BACKUP.
Definition cec_has_specific (log_addr_mask : Z) : Z :=
  Z.land log_addr_mask CEC_LOG_ADDR_MASK_SPECIFIC.
Definition cec_is_unregistered (log_addr_mask : Z) : Z :=
  Z.land log_addr_mask CEC_LOG_ADDR_MASK_UNREGISTERED.
Definition cec_is_unconfigured (log_addr_mask : Z) : bool := log_addr_mask =? 0.
