(* ===== verification/CecFuncs.v ===== *)
(** * CEC message builders and readers

    The inline functions of [linux/cec-funcs.h], in the order of the header:
    [cec_msg_x] fills in a message, [cec_ops_x] reads the operands back.  A
    reader returns the values it stores through its pointers; a reader that
    fills in a structure takes its old value. *)
From S2P Require Import Prelude CecConst Cec.

Definition cec_msg_active_source (phys_addr : Z) : C unit :=
  set_len 4;;
  or_msg 0 0xf;;
  put 1 CEC_MSG_ACTIVE_SOURCE;;
  put 2 (Z.shiftr phys_addr 8);;
  put 3 (Z.land phys_addr 0xff).

Definition cec_ops_active_source : C Z :=
  let* b2 := get 2 in
  let* b3 := get 3 in
  ret (u16 (Z.lor (Z.shiftl b2 8) b3)).

Definition cec_msg_image_view_on : C unit :=
  set_len 2;;
  put 1 CEC_MSG_IMAGE_VIEW_ON.

Definition cec_msg_text_view_on : C unit :=
  set_len 2;;
  put 1 CEC_MSG_TEXT_VIEW_ON.

Definition cec_msg_inactive_source (phys_addr : Z) : C unit :=
  set_len 4;;
  put 1 CEC_MSG_INACTIVE_SOURCE;;
  put 2 (Z.shiftr phys_addr 8);;
  put 3 (Z.land phys_addr 0xff).

Definition cec_ops_inactive_source : C Z :=
  let* b2 := get 2 in
  let* b3 := get 3 in
  ret (u16 (Z.lor (Z.shiftl b2 8) b3)).

Definition cec_msg_request_active_source (reply : Z) : C unit :=
  set_len 2;;
  or_msg 0 0xf;;
  put 1 CEC_MSG_REQUEST_ACTIVE_SOURCE;;
  set_reply (if reply =? 0 then 0 else CEC_MSG_ACTIVE_SOURCE).

Definition cec_msg_routing_information (phys_addr : Z) : C unit :=
  set_len 4;;
  or_msg 0 0xf;;
  put 1 CEC_MSG_ROUTING_INFORMATION;;
  put 2 (Z.shiftr phys_addr 8);;
  put 3 (Z.land phys_addr 0xff).

Definition cec_ops_routing_information : C Z :=
  let* b2 := get 2 in
  let* b3 := get 3 in
  ret (u16 (Z.lor (Z.shiftl b2 8) b3)).

Definition cec_msg_routing_change (reply orig_phys_addr new_phys_addr : Z) : C unit :=
  set_len 6;;
  or_msg 0 0xf;;
  put 1 CEC_MSG_ROUTING_CHANGE;;
  put 2 (Z.shiftr orig_phys_addr 8);;
  put 3 (Z.land orig_phys_addr 0xff);;
  put 4 (Z.shiftr new_phys_addr 8);;
  put 5 (Z.land new_phys_addr 0xff);;
  set_reply (if reply =? 0 then 0 else CEC_MSG_ROUTING_INFORMATION).

Definition cec_ops_routing_change : C (Z * Z) :=
  let* b2 := get 2 in
  let* b3 := get 3 in
  let* b4 := get 4 in
  let* b5 := get 5 in
  let orig_phys_addr := u16 (Z.lor (Z.shiftl b2 8) b3) in
  let new_phys_addr := u16 (Z.lor (Z.shiftl b4 8) b5) in
  ret (orig_phys_addr, new_phys_addr).

Definition cec_msg_set_stream_path (phys_addr : Z) : C unit :=
  set_len 4;;
  or_msg 0 0xf;;
  put 1 CEC_MSG_SET_STREAM_PATH;;
  put 2 (Z.shiftr phys_addr 8);;
  put 3 (Z.land phys_addr 0xff).

Definition cec_ops_set_stream_path : C Z :=
  let* b2 := get 2 in
  let* b3 := get 3 in
  ret (u16 (Z.lor (Z.shiftl b2 8) b3)).

Definition cec_msg_standby : C unit :=
  set_len 2;;
  put 1 CEC_MSG_STANDBY.

Definition cec_msg_record_off (reply : Z) : C unit :=
  set_len 2;;
  put 1 CEC_MSG_RECORD_OFF;;
  set_reply (if reply =? 0 then 0 else CEC_MSG_RECORD_STATUS).

(** [struct cec_op_digital_service_id].  The members of its union overlap:
    the three half-words [w0], [w1], [w2] are the storage of [arib] and [dvb]
    (transport, service and original network id) and of [atsc] (transport id,
    program number); [channel] has its format in the low octet of the first,
    the major and minor numbers in the other two. *)
Record cec_op_digital_service_id := DigitalServiceId {
  service_id_method : Z; dig_bcast_system : Z; w0 : Z; w1 : Z; w2 : Z }.

Record cec_op_arib_data := AribData {
  arib_transport_id : Z; arib_service_id : Z; arib_orig_network_id : Z }.

Record cec_op_atsc_data := AtscData { atsc_transport_id : Z; atsc_program_number : Z }.

Record cec_op_dvb_data := DvbData {
  dvb_transport_id : Z; dvb_service_id : Z; dvb_orig_network_id : Z }.

Record cec_op_channel_data := ChannelData {
  channel_number_fmt : Z; major : Z; minor : Z }.

Definition arib (d : cec_op_digital_service_id) : cec_op_arib_data := AribData (w0 d) (w1 d) (w2 d).

Definition atsc (d : cec_op_digital_service_id) : cec_op_atsc_data := AtscData (w0 d) (w1 d).

Definition dvb (d : cec_op_digital_service_id) : cec_op_dvb_data := DvbData (w0 d) (w1 d) (w2 d).

Definition channel (d : cec_op_digital_service_id) : cec_op_channel_data :=
  ChannelData (Z.land (w0 d) 0xff) (w1 d) (w2 d).

(** The analogue service of two unions. *)

Record analog_service := AnalogService {
  an_ana_bcast_type : Z; an_ana_freq : Z; an_bcast_system : Z }.

(** [struct cec_op_record_src].  The code only touches the member of the union
    that [type] selects, so the members are kept apart. *)
Record cec_op_record_src := RecordSrc {
  src_type : Z; src_digital : cec_op_digital_service_id; src_analog : analog_service;
  src_plug : Z; src_phys_addr : Z }.

(** [*msg++ = ...] from the index [p] on. *)
Definition cec_set_digital_service_id (p : nat) (digital : cec_op_digital_service_id) : C unit :=
  put p (Z.lor (Z.shiftl (service_id_method digital) 7) (dig_bcast_system digital));;
  if service_id_method digital =? CEC_OP_SERVICE_ID_METHOD_BY_CHANNEL then
    put (p + 1) (Z.lor (Z.shiftl (channel_number_fmt (channel digital)) 2)
                       (Z.shiftr (major (channel digital)) 8));;
    put (p + 2) (Z.land (major (channel digital)) 0xff);;
    put (p + 3) (Z.shiftr (minor (channel digital)) 8);;
    put (p + 4) (Z.land (minor (channel digital)) 0xff);;
    put (p + 5) 0;;
    put (p + 6) 0
  else if (dig_bcast_system digital =? CEC_OP_DIG_SERVICE_BCAST_SYSTEM_ATSC_GEN) ||
          (dig_bcast_system digital =? CEC_OP_DIG_SERVICE_BCAST_SYSTEM_ATSC_CABLE) ||
          (dig_bcast_system digital =? CEC_OP_DIG_SERVICE_BCAST_SYSTEM_ATSC_SAT) ||
          (dig_bcast_system digital =? CEC_OP_DIG_SERVICE_BCAST_SYSTEM_ATSC_T) then
    put (p + 1) (Z.shiftr (atsc_transport_id (atsc digital)) 8);;
    put (p + 2) (Z.land (atsc_transport_id (atsc digital)) 0xff);;
    put (p + 3) (Z.shiftr (atsc_program_number (atsc digital)) 8);;
    put (p + 4) (Z.land (atsc_program_number (atsc digital)) 0xff);;
    put (p + 5) 0;;
    put (p + 6) 0
  else
    put (p + 1) (Z.shiftr (dvb_transport_id (dvb digital)) 8);;
    put (p + 2) (Z.land (dvb_transport_id (dvb digital)) 0xff);;
    put (p + 3) (Z.shiftr (dvb_service_id (dvb digital)) 8);;
    put (p + 4) (Z.land (dvb_service_id (dvb digital)) 0xff);;
    put (p + 5) (Z.shiftr (dvb_orig_network_id (dvb digital)) 8);;
    put (p + 6) (Z.land (dvb_orig_network_id (dvb digital)) 0xff).

(** The stores go to the members of [digital]; [channel_number_fmt] only
    replaces the low octet of the first half-word. *)
Definition cec_get_digital_service_id (p : nat) (digital : cec_op_digital_service_id) :
    C cec_op_digital_service_id :=
  let* b0 := get p in
  let method := u8 (Z.shiftr b0 7) in
  let system := u8 (Z.land b0 0x7f) in
  if method =? CEC_OP_SERVICE_ID_METHOD_BY_CHANNEL then
    let* b1 := get (p + 1) in
    let* b2 := get (p + 2) in
    let* b3 := get (p + 3) in
    let* b4 := get (p + 4) in
    let fmt := u8 (Z.shiftr b1 2) in
    let major := u16 (Z.lor (Z.shiftl (Z.land b1 3) 6) b2) in
    let minor := u16 (Z.lor (Z.shiftl b3 8) b4) in
    ret (DigitalServiceId method system (Z.lor (Z.land (w0 digital) 0xff00) fmt) major minor)
  else
    let* b1 := get (p + 1) in
    let* b2 := get (p + 2) in
    let* b3 := get (p + 3) in
    let* b4 := get (p + 4) in
    let* b5 := get (p + 5) in
    let* b6 := get (p + 6) in
    ret (DigitalServiceId method system (u16 (Z.lor (Z.shiftl b1 8) b2))
           (u16 (Z.lor (Z.shiftl b3 8) b4)) (u16 (Z.lor (Z.shiftl b5 8) b6))).

Definition cec_msg_record_on_own : C unit :=
  set_len 3;;
  put 1 CEC_MSG_RECORD_ON;;
  put 2 CEC_OP_RECORD_SRC_OWN.

Definition cec_msg_record_on_digital (digital : cec_op_digital_service_id) : C unit :=
  set_len 10;;
  put 1 CEC_MSG_RECORD_ON;;
  put 2 CEC_OP_RECORD_SRC_DIGITAL;;
  cec_set_digital_service_id 3 digital.

Definition cec_msg_record_on_analog (ana_bcast_type ana_freq bcast_system : Z) : C unit :=
  set_len 7;;
  put 1 CEC_MSG_RECORD_ON;;
  put 2 CEC_OP_RECORD_SRC_ANALOG;;
  put 3 ana_bcast_type;;
  put 4 (Z.shiftr ana_freq 8);;
  put 5 (Z.land ana_freq 0xff);;
  put 6 bcast_system.

Definition cec_msg_record_on_plug (plug : Z) : C unit :=
  set_len 4;;
  put 1 CEC_MSG_RECORD_ON;;
  put 2 CEC_OP_RECORD_SRC_EXT_PLUG;;
  put 3 plug.

Definition cec_msg_record_on_phys_addr (phys_addr : Z) : C unit :=
  set_len 5;;
  put 1 CEC_MSG_RECORD_ON;;
  put 2 CEC_OP_RECORD_SRC_EXT_PHYS_ADDR;;
  put 3 (Z.shiftr phys_addr 8);;
  put 4 (Z.land phys_addr 0xff).

Definition cec_msg_record_on (reply : Z) (rec_src : cec_op_record_src) : C unit :=
  (if src_type rec_src =? CEC_OP_RECORD_SRC_OWN then cec_msg_record_on_own
   else if src_type rec_src =? CEC_OP_RECORD_SRC_DIGITAL then
     cec_msg_record_on_digital (src_digital rec_src)
   else if src_type rec_src =? CEC_OP_RECORD_SRC_ANALOG then
     cec_msg_record_on_analog (an_ana_bcast_type (src_analog rec_src))
       (an_ana_freq (src_analog rec_src)) (an_bcast_system (src_analog rec_src))
   else if src_type rec_src =? CEC_OP_RECORD_SRC_EXT_PLUG then
     cec_msg_record_on_plug (src_plug rec_src)
   else if src_type rec_src =? CEC_OP_RECORD_SRC_EXT_PHYS_ADDR then
     cec_msg_record_on_phys_addr (src_phys_addr rec_src)
   else ret tt);;
  set_reply (if reply =? 0 then 0 else CEC_MSG_RECORD_STATUS).

Definition cec_ops_record_on (rec_src : cec_op_record_src) : C cec_op_record_src :=
  let* type := get 2 in
  if type =? CEC_OP_RECORD_SRC_OWN then
    ret (RecordSrc type (src_digital rec_src) (src_analog rec_src) (src_plug rec_src)
           (src_phys_addr rec_src))
  else if type =? CEC_OP_RECORD_SRC_DIGITAL then
    let* digital := cec_get_digital_service_id 3 (src_digital rec_src) in
    ret (RecordSrc type digital (src_analog rec_src) (src_plug rec_src) (src_phys_addr rec_src))
  else if type =? CEC_OP_RECORD_SRC_ANALOG then
    let* b3 := get 3 in
    let* b4 := get 4 in
    let* b5 := get 5 in
    let* b6 := get 6 in
    ret (RecordSrc type (src_digital rec_src)
           (AnalogService b3 (u16 (Z.lor (Z.shiftl b4 8) b5)) b6)
           (src_plug rec_src) (src_phys_addr rec_src))
  else if type =? CEC_OP_RECORD_SRC_EXT_PLUG then
    let* b3 := get 3 in
    ret (RecordSrc type (src_digital rec_src) (src_analog rec_src) b3 (src_phys_addr rec_src))
  else if type =? CEC_OP_RECORD_SRC_EXT_PHYS_ADDR then
    let* b3 := get 3 in
    let* b4 := get 4 in
    ret (RecordSrc type (src_digital rec_src) (src_analog rec_src) (src_plug rec_src)
           (u16 (Z.lor (Z.shiftl b3 8) b4)))
  else
    ret (RecordSrc type (src_digital rec_src) (src_analog rec_src) (src_plug rec_src)
           (src_phys_addr rec_src)).

Definition cec_msg_record_status (rec_status : Z) : C unit :=
  set_len 3;;
  put 1 CEC_MSG_RECORD_STATUS;;
  put 2 rec_status.

Definition cec_ops_record_status : C Z :=
  let* b2 := get 2 in
  ret b2.

Definition cec_msg_record_tv_screen (reply : Z) : C unit :=
  set_len 2;;
  put 1 CEC_MSG_RECORD_TV_SCREEN;;
  set_reply (if reply =? 0 then 0 else CEC_MSG_RECORD_ON).

Definition cec_msg_timer_status (timer_overlap_warning media_info prog_info prog_error
    duration_hr duration_min : Z) : C unit :=
  set_len 3;;
  put 1 CEC_MSG_TIMER_STATUS;;
  put 2 (Z.lor (Z.lor (Z.lor (Z.shiftl timer_overlap_warning 7) (Z.shiftl media_info 5))
                      (if prog_info =? 0 then 0 else 0x10))
               (if prog_info =? 0 then prog_error else prog_info));;
  if (prog_info =? CEC_OP_PROG_INFO_NOT_ENOUGH_SPACE) ||
     (prog_info =? CEC_OP_PROG_INFO_MIGHT_NOT_BE_ENOUGH_SPACE) ||
     (prog_error =? CEC_OP_PROG_ERROR_DUPLICATE) then
    let* l := get_len in
    set_len (l + 2);;
    put 3 (Z.lor (Z.shiftl (duration_hr / 10) 4) (duration_hr mod 10));;
    put 4 (Z.lor (Z.shiftl (duration_min / 10) 4) (duration_min mod 10))
  else ret tt.

Definition cec_ops_timer_status : C (Z * Z * Z * Z * Z * Z) :=
  let* b2 := get 2 in
  let timer_overlap_warning := u8 (Z.shiftr b2 7) in
  let media_info := u8 (Z.land (Z.shiftr b2 5) 3) in
  let '(prog_info, prog_error) :=
    if Z.land b2 0x10 =? 0 then (0, u8 (Z.land b2 0xf)) else (u8 (Z.land b2 0xf), 0) in
  if (prog_info =? CEC_OP_PROG_INFO_NOT_ENOUGH_SPACE) ||
     (prog_info =? CEC_OP_PROG_INFO_MIGHT_NOT_BE_ENOUGH_SPACE) ||
     (prog_error =? CEC_OP_PROG_ERROR_DUPLICATE) then
    let* b3 := get 3 in
    let* b4 := get 4 in
    ret (timer_overlap_warning, media_info, prog_info, prog_error,
         u8 (Z.shiftr b3 4 * 10 + Z.land b3 0xf), u8 (Z.shiftr b4 4 * 10 + Z.land b4 0xf))
  else ret (timer_overlap_warning, media_info, prog_info, prog_error, 0, 0).

Definition cec_msg_timer_cleared_status (timer_cleared_status : Z) : C unit :=
  set_len 3;;
  put 1 CEC_MSG_TIMER_CLEARED_STATUS;;
  put 2 timer_cleared_status.

Definition cec_ops_timer_cleared_status : C Z :=
  let* b2 := get 2 in
  ret b2.

Definition cec_msg_clear_analogue_timer (reply day month start_hr start_min duration_hr
    duration_min recording_seq ana_bcast_type ana_freq bcast_system : Z) : C unit :=
  set_len 13;;
  put 1 CEC_MSG_CLEAR_ANALOGUE_TIMER;;
  put 2 day;;
  put 3 month;;
  put 4 (Z.lor (Z.shiftl (start_hr / 10) 4) (start_hr mod 10));;
  put 5 (Z.lor (Z.shiftl (start_min / 10) 4) (start_min mod 10));;
  put 6 (Z.lor (Z.shiftl (duration_hr / 10) 4) (duration_hr mod 10));;
  put 7 (Z.lor (Z.shiftl (duration_min / 10) 4) (duration_min mod 10));;
  put 8 recording_seq;;
  put 9 ana_bcast_type;;
  put 10 (Z.shiftr ana_freq 8);;
  put 11 (Z.land ana_freq 0xff);;
  put 12 bcast_system;;
  set_reply (if reply =? 0 then 0 else CEC_MSG_TIMER_CLEARED_STATUS).

Definition cec_ops_clear_analogue_timer : C (Z * Z * Z * Z * Z * Z * Z * Z * Z * Z) :=
  let* b2 := get 2 in
  let* b3 := get 3 in
  let* b4 := get 4 in
  let* b5 := get 5 in
  let* b6 := get 6 in
  let* b7 := get 7 in
  let* b8 := get 8 in
  let* b9 := get 9 in
  let* b10 := get 10 in
  let* b11 := get 11 in
  let* b12 := get 12 in
  let day := b2 in
  let month := b3 in
  let start_hr := u8 (Z.shiftr b4 4 * 10 + Z.land b4 0xf) in
  let start_min := u8 (Z.shiftr b5 4 * 10 + Z.land b5 0xf) in
  let duration_hr := u8 (Z.shiftr b6 4 * 10 + Z.land b6 0xf) in
  let duration_min := u8 (Z.shiftr b7 4 * 10 + Z.land b7 0xf) in
  let recording_seq := b8 in
  let ana_bcast_type := b9 in
  let ana_freq := u16 (Z.lor (Z.shiftl b10 8) b11) in
  let bcast_system := b12 in
  ret (day, month, start_hr, start_min, duration_hr, duration_min, recording_seq, ana_bcast_type,
      ana_freq, bcast_system).

Definition cec_msg_clear_digital_timer (reply day month start_hr start_min duration_hr
    duration_min recording_seq : Z) (digital : cec_op_digital_service_id) : C unit :=
  set_len 16;;
  set_reply (if reply =? 0 then 0 else CEC_MSG_TIMER_CLEARED_STATUS);;
  put 1 CEC_MSG_CLEAR_DIGITAL_TIMER;;
  put 2 day;;
  put 3 month;;
  put 4 (Z.lor (Z.shiftl (start_hr / 10) 4) (start_hr mod 10));;
  put 5 (Z.lor (Z.shiftl (start_min / 10) 4) (start_min mod 10));;
  put 6 (Z.lor (Z.shiftl (duration_hr / 10) 4) (duration_hr mod 10));;
  put 7 (Z.lor (Z.shiftl (duration_min / 10) 4) (duration_min mod 10));;
  put 8 recording_seq;;
  cec_set_digital_service_id 9 digital.

Definition cec_ops_clear_digital_timer (digital : cec_op_digital_service_id) :
    C (Z * Z * Z * Z * Z * Z * Z * cec_op_digital_service_id) :=
  let* b2 := get 2 in
  let* b3 := get 3 in
  let* b4 := get 4 in
  let* b5 := get 5 in
  let* b6 := get 6 in
  let* b7 := get 7 in
  let* b8 := get 8 in
  let* digital := cec_get_digital_service_id 9 digital in
  ret (b2, b3, u8 (Z.shiftr b4 4 * 10 + Z.land b4 0xf), u8 (Z.shiftr b5 4 * 10 + Z.land b5 0xf),
       u8 (Z.shiftr b6 4 * 10 + Z.land b6 0xf), u8 (Z.shiftr b7 4 * 10 + Z.land b7 0xf),
       b8, digital).

Definition cec_msg_clear_ext_timer (reply day month start_hr start_min duration_hr duration_min
    recording_seq ext_src_spec plug phys_addr : Z) : C unit :=
  set_len 13;;
  put 1 CEC_MSG_CLEAR_EXT_TIMER;;
  put 2 day;;
  put 3 month;;
  put 4 (Z.lor (Z.shiftl (start_hr / 10) 4) (start_hr mod 10));;
  put 5 (Z.lor (Z.shiftl (start_min / 10) 4) (start_min mod 10));;
  put 6 (Z.lor (Z.shiftl (duration_hr / 10) 4) (duration_hr mod 10));;
  put 7 (Z.lor (Z.shiftl (duration_min / 10) 4) (duration_min mod 10));;
  put 8 recording_seq;;
  put 9 ext_src_spec;;
  put 10 plug;;
  put 11 (Z.shiftr phys_addr 8);;
  put 12 (Z.land phys_addr 0xff);;
  set_reply (if reply =? 0 then 0 else CEC_MSG_TIMER_CLEARED_STATUS).

Definition cec_ops_clear_ext_timer : C (Z * Z * Z * Z * Z * Z * Z * Z * Z * Z) :=
  let* b2 := get 2 in
  let* b3 := get 3 in
  let* b4 := get 4 in
  let* b5 := get 5 in
  let* b6 := get 6 in
  let* b7 := get 7 in
  let* b8 := get 8 in
  let* b9 := get 9 in
  let* b10 := get 10 in
  let* b11 := get 11 in
  let* b12 := get 12 in
  let day := b2 in
  let month := b3 in
  let start_hr := u8 (Z.shiftr b4 4 * 10 + Z.land b4 0xf) in
  let start_min := u8 (Z.shiftr b5 4 * 10 + Z.land b5 0xf) in
  let duration_hr := u8 (Z.shiftr b6 4 * 10 + Z.land b6 0xf) in
  let duration_min := u8 (Z.shiftr b7 4 * 10 + Z.land b7 0xf) in
  let recording_seq := b8 in
  let ext_src_spec := b9 in
  let plug := b10 in
  let phys_addr := u16 (Z.lor (Z.shiftl b11 8) b12) in
  ret (day, month, start_hr, start_min, duration_hr, duration_min, recording_seq, ext_src_spec,
      plug, phys_addr).

Definition cec_msg_set_analogue_timer (reply day month start_hr start_min duration_hr duration_min
    recording_seq ana_bcast_type ana_freq bcast_system : Z) : C unit :=
  set_len 13;;
  put 1 CEC_MSG_SET_ANALOGUE_TIMER;;
  put 2 day;;
  put 3 month;;
  put 4 (Z.lor (Z.shiftl (start_hr / 10) 4) (start_hr mod 10));;
  put 5 (Z.lor (Z.shiftl (start_min / 10) 4) (start_min mod 10));;
  put 6 (Z.lor (Z.shiftl (duration_hr / 10) 4) (duration_hr mod 10));;
  put 7 (Z.lor (Z.shiftl (duration_min / 10) 4) (duration_min mod 10));;
  put 8 recording_seq;;
  put 9 ana_bcast_type;;
  put 10 (Z.shiftr ana_freq 8);;
  put 11 (Z.land ana_freq 0xff);;
  put 12 bcast_system;;
  set_reply (if reply =? 0 then 0 else CEC_MSG_TIMER_STATUS).

Definition cec_ops_set_analogue_timer : C (Z * Z * Z * Z * Z * Z * Z * Z * Z * Z) :=
  let* b2 := get 2 in
  let* b3 := get 3 in
  let* b4 := get 4 in
  let* b5 := get 5 in
  let* b6 := get 6 in
  let* b7 := get 7 in
  let* b8 := get 8 in
  let* b9 := get 9 in
  let* b10 := get 10 in
  let* b11 := get 11 in
  let* b12 := get 12 in
  let day := b2 in
  let month := b3 in
  let start_hr := u8 (Z.shiftr b4 4 * 10 + Z.land b4 0xf) in
  let start_min := u8 (Z.shiftr b5 4 * 10 + Z.land b5 0xf) in
  let duration_hr := u8 (Z.shiftr b6 4 * 10 + Z.land b6 0xf) in
  let duration_min := u8 (Z.shiftr b7 4 * 10 + Z.land b7 0xf) in
  let recording_seq := b8 in
  let ana_bcast_type := b9 in
  let ana_freq := u16 (Z.lor (Z.shiftl b10 8) b11) in
  let bcast_system := b12 in
  ret (day, month, start_hr, start_min, duration_hr, duration_min, recording_seq, ana_bcast_type,
      ana_freq, bcast_system).

Definition cec_msg_set_digital_timer (reply day month start_hr start_min duration_hr
    duration_min recording_seq : Z) (digital : cec_op_digital_service_id) : C unit :=
  set_len 16;;
  set_reply (if reply =? 0 then 0 else CEC_MSG_TIMER_STATUS);;
  put 1 CEC_MSG_SET_DIGITAL_TIMER;;
  put 2 day;;
  put 3 month;;
  put 4 (Z.lor (Z.shiftl (start_hr / 10) 4) (start_hr mod 10));;
  put 5 (Z.lor (Z.shiftl (start_min / 10) 4) (start_min mod 10));;
  put 6 (Z.lor (Z.shiftl (duration_hr / 10) 4) (duration_hr mod 10));;
  put 7 (Z.lor (Z.shiftl (duration_min / 10) 4) (duration_min mod 10));;
  put 8 recording_seq;;
  cec_set_digital_service_id 9 digital.

Definition cec_ops_set_digital_timer (digital : cec_op_digital_service_id) :
    C (Z * Z * Z * Z * Z * Z * Z * cec_op_digital_service_id) :=
  let* b2 := get 2 in
  let* b3 := get 3 in
  let* b4 := get 4 in
  let* b5 := get 5 in
  let* b6 := get 6 in
  let* b7 := get 7 in
  let* b8 := get 8 in
  let* digital := cec_get_digital_service_id 9 digital in
  ret (b2, b3, u8 (Z.shiftr b4 4 * 10 + Z.land b4 0xf), u8 (Z.shiftr b5 4 * 10 + Z.land b5 0xf),
       u8 (Z.shiftr b6 4 * 10 + Z.land b6 0xf), u8 (Z.shiftr b7 4 * 10 + Z.land b7 0xf),
       b8, digital).

Definition cec_msg_set_ext_timer (reply day month start_hr start_min duration_hr duration_min
    recording_seq ext_src_spec plug phys_addr : Z) : C unit :=
  set_len 13;;
  put 1 CEC_MSG_SET_EXT_TIMER;;
  put 2 day;;
  put 3 month;;
  put 4 (Z.lor (Z.shiftl (start_hr / 10) 4) (start_hr mod 10));;
  put 5 (Z.lor (Z.shiftl (start_min / 10) 4) (start_min mod 10));;
  put 6 (Z.lor (Z.shiftl (duration_hr / 10) 4) (duration_hr mod 10));;
  put 7 (Z.lor (Z.shiftl (duration_min / 10) 4) (duration_min mod 10));;
  put 8 recording_seq;;
  put 9 ext_src_spec;;
  put 10 plug;;
  put 11 (Z.shiftr phys_addr 8);;
  put 12 (Z.land phys_addr 0xff);;
  set_reply (if reply =? 0 then 0 else CEC_MSG_TIMER_STATUS).

Definition cec_ops_set_ext_timer : C (Z * Z * Z * Z * Z * Z * Z * Z * Z * Z) :=
  let* b2 := get 2 in
  let* b3 := get 3 in
  let* b4 := get 4 in
  let* b5 := get 5 in
  let* b6 := get 6 in
  let* b7 := get 7 in
  let* b8 := get 8 in
  let* b9 := get 9 in
  let* b10 := get 10 in
  let* b11 := get 11 in
  let* b12 := get 12 in
  let day := b2 in
  let month := b3 in
  let start_hr := u8 (Z.shiftr b4 4 * 10 + Z.land b4 0xf) in
  let start_min := u8 (Z.shiftr b5 4 * 10 + Z.land b5 0xf) in
  let duration_hr := u8 (Z.shiftr b6 4 * 10 + Z.land b6 0xf) in
  let duration_min := u8 (Z.shiftr b7 4 * 10 + Z.land b7 0xf) in
  let recording_seq := b8 in
  let ext_src_spec := b9 in
  let plug := b10 in
  let phys_addr := u16 (Z.lor (Z.shiftl b11 8) b12) in
  ret (day, month, start_hr, start_min, duration_hr, duration_min, recording_seq, ext_src_spec,
      plug, phys_addr).

(** A [char] pointer is the octets from it on; [strlen] needs a terminator
    among them. *)
Definition cec_msg_set_timer_program_title (prog_title : list Z) : C unit :=
  let* text := strlen prog_title in
  let n := Nat.min (length text) 14 in
  set_len (2 + Z.of_nat n);;
  put 1 CEC_MSG_SET_TIMER_PROGRAM_TITLE;;
  memcpy_in 2 prog_title n.

(** What the caller's buffer receives. *)
Definition cec_ops_set_timer_program_title : C (list Z) :=
  let* l := get_len in
  let n := Nat.min (Z.to_nat (if 2 <? l then l - 2 else 0)) 14 in
  let* text := memcpy_out 2 n in
  ret (text ++ [0]).

Definition cec_msg_cec_version (cec_version : Z) : C unit :=
  set_len 3;;
  put 1 CEC_MSG_CEC_VERSION;;
  put 2 cec_version.

Definition cec_ops_cec_version : C Z :=
  let* b2 := get 2 in
  ret b2.

Definition cec_msg_get_cec_version (reply : Z) : C unit :=
  set_len 2;;
  put 1 CEC_MSG_GET_CEC_VERSION;;
  set_reply (if reply =? 0 then 0 else CEC_MSG_CEC_VERSION).

Definition cec_msg_report_physical_addr (phys_addr prim_devtype : Z) : C unit :=
  set_len 5;;
  or_msg 0 0xf;;
  put 1 CEC_MSG_REPORT_PHYSICAL_ADDR;;
  put 2 (Z.shiftr phys_addr 8);;
  put 3 (Z.land phys_addr 0xff);;
  put 4 prim_devtype.

Definition cec_ops_report_physical_addr : C (Z * Z) :=
  let* b2 := get 2 in
  let* b3 := get 3 in
  let* b4 := get 4 in
  let phys_addr := u16 (Z.lor (Z.shiftl b2 8) b3) in
  let prim_devtype := b4 in
  ret (phys_addr, prim_devtype).

Definition cec_msg_give_physical_addr (reply : Z) : C unit :=
  set_len 2;;
  put 1 CEC_MSG_GIVE_PHYSICAL_ADDR;;
  set_reply (if reply =? 0 then 0 else CEC_MSG_REPORT_PHYSICAL_ADDR).

Definition cec_msg_set_menu_language (language : list Z) : C unit :=
  set_len 5;;
  or_msg 0 0xf;;
  put 1 CEC_MSG_SET_MENU_LANGUAGE;;
  memcpy_in 2 language 3.

Definition cec_ops_set_menu_language : C (list Z) :=
  let* text := memcpy_out 2 3 in
  ret (text ++ [0]).

Definition cec_msg_get_menu_language (reply : Z) : C unit :=
  set_len 2;;
  put 1 CEC_MSG_GET_MENU_LANGUAGE;;
  set_reply (if reply =? 0 then 0 else CEC_MSG_SET_MENU_LANGUAGE).

Definition cec_msg_report_features (cec_version all_device_types rc_profile dev_features : Z) : C
    unit :=
  set_len 6;;
  or_msg 0 0xf;;
  put 1 CEC_MSG_REPORT_FEATURES;;
  put 2 cec_version;;
  put 3 all_device_types;;
  put 4 rc_profile;;
  put 5 dev_features.

(** [while (p < &msg->msg[limit] && ( *p & CEC_OP_FEAT_EXT)) p++;] *)
Fixpoint skip_ext (fuel : nat) (p limit : nat) : C nat :=
  match fuel with
  | O => ret p
  | S fuel' =>
      if (p <? limit)%nat then
        let* b := get p in
        if Z.land b CEC_OP_FEAT_EXT =? 0 then ret p else skip_ext fuel' (S p) limit
      else ret p
  end.

(** The pointers [rc_profile] and [dev_features] are indices into the message,
    [None] for [NULL].  A loop makes at most 11 steps, from 4 to 15. *)
Definition cec_ops_report_features : C (Z * Z * option nat * option nat) :=
  let* b2 := get 2 in
  let* b3 := get 3 in
  let rc_profile := Some 4%nat in
  let* p := skip_ext 11 4 14 in
  let* b := get p in
  let* '(dev_features, p) :=
    (if Z.land b CEC_OP_FEAT_EXT =? 0 then
       let* p' := skip_ext 11 p 15 in ret (Some (S p), p')
     else ret (None, p)) in
  let* b := get p in
  if Z.land b CEC_OP_FEAT_EXT =? 0 then ret (b2, b3, rc_profile, dev_features)
  else ret (b2, b3, None, None).

Definition cec_msg_give_features (reply : Z) : C unit :=
  set_len 2;;
  put 1 CEC_MSG_GIVE_FEATURES;;
  set_reply (if reply =? 0 then 0 else CEC_MSG_REPORT_FEATURES).

Definition cec_msg_deck_control (deck_control_mode : Z) : C unit :=
  set_len 3;;
  put 1 CEC_MSG_DECK_CONTROL;;
  put 2 deck_control_mode.

Definition cec_ops_deck_control : C Z :=
  let* b2 := get 2 in
  ret b2.

Definition cec_msg_deck_status (deck_info : Z) : C unit :=
  set_len 3;;
  put 1 CEC_MSG_DECK_STATUS;;
  put 2 deck_info.

Definition cec_ops_deck_status : C Z :=
  let* b2 := get 2 in
  ret b2.

Definition cec_msg_give_deck_status (reply status_req : Z) : C unit :=
  set_len 3;;
  put 1 CEC_MSG_GIVE_DECK_STATUS;;
  put 2 status_req;;
  set_reply (if reply =? 0 then 0 else CEC_MSG_DECK_STATUS).

Definition cec_ops_give_deck_status : C Z :=
  let* b2 := get 2 in
  ret b2.

Definition cec_msg_play (play_mode : Z) : C unit :=
  set_len 3;;
  put 1 CEC_MSG_PLAY;;
  put 2 play_mode.

Definition cec_ops_play : C Z :=
  let* b2 := get 2 in
  ret b2.

Definition cec_msg_tuner_device_status_analog (rec_flag tuner_display_info ana_bcast_type ana_freq
    bcast_system : Z) : C unit :=
  set_len 7;;
  put 1 CEC_MSG_TUNER_DEVICE_STATUS;;
  put 2 (Z.lor (Z.shiftl rec_flag 7) tuner_display_info);;
  put 3 ana_bcast_type;;
  put 4 (Z.shiftr ana_freq 8);;
  put 5 (Z.land ana_freq 0xff);;
  put 6 bcast_system.

Record cec_op_tuner_device_info := TunerDeviceInfo {
  rec_flag : Z; tuner_display_info : Z; is_analog : Z;
  tun_digital : cec_op_digital_service_id; tun_analog : analog_service }.

Definition cec_msg_tuner_device_status_digital (rec_flag tuner_display_info : Z)
    (digital : cec_op_digital_service_id) : C unit :=
  set_len 10;;
  put 1 CEC_MSG_TUNER_DEVICE_STATUS;;
  put 2 (Z.lor (Z.shiftl rec_flag 7) tuner_display_info);;
  cec_set_digital_service_id 3 digital.

Definition cec_msg_tuner_device_status (info : cec_op_tuner_device_info) : C unit :=
  if is_analog info =? 0 then
    cec_msg_tuner_device_status_digital (rec_flag info) (tuner_display_info info) (tun_digital info)
  else
    cec_msg_tuner_device_status_analog (rec_flag info) (tuner_display_info info)
      (an_ana_bcast_type (tun_analog info)) (an_ana_freq (tun_analog info))
      (an_bcast_system (tun_analog info)).

Definition cec_ops_tuner_device_status (info : cec_op_tuner_device_info) :
    C cec_op_tuner_device_info :=
  let* l := get_len in
  let analog := if l <? 10 then 1 else 0 in
  let* b2 := get 2 in
  let rec_flag := u8 (Z.shiftr b2 7) in
  let display := u8 (Z.land b2 0x7f) in
  if analog =? 0 then
    let* digital := cec_get_digital_service_id 3 (tun_digital info) in
    ret (TunerDeviceInfo rec_flag display analog digital (tun_analog info))
  else
    let* b3 := get 3 in
    let* b4 := get 4 in
    let* b5 := get 5 in
    let* b6 := get 6 in
    ret (TunerDeviceInfo rec_flag display analog (tun_digital info)
           (AnalogService b3 (u16 (Z.lor (Z.shiftl b4 8) b5)) b6)).

Definition cec_msg_give_tuner_device_status (reply status_req : Z) : C unit :=
  set_len 3;;
  put 1 CEC_MSG_GIVE_TUNER_DEVICE_STATUS;;
  put 2 status_req;;
  set_reply (if reply =? 0 then 0 else CEC_MSG_TUNER_DEVICE_STATUS).

Definition cec_ops_give_tuner_device_status : C Z :=
  let* b2 := get 2 in
  ret b2.

Definition cec_msg_select_analogue_service (ana_bcast_type ana_freq bcast_system : Z) : C unit :=
  set_len 6;;
  put 1 CEC_MSG_SELECT_ANALOGUE_SERVICE;;
  put 2 ana_bcast_type;;
  put 3 (Z.shiftr ana_freq 8);;
  put 4 (Z.land ana_freq 0xff);;
  put 5 bcast_system.

Definition cec_ops_select_analogue_service : C (Z * Z * Z) :=
  let* b2 := get 2 in
  let* b3 := get 3 in
  let* b4 := get 4 in
  let* b5 := get 5 in
  let ana_bcast_type := b2 in
  let ana_freq := u16 (Z.lor (Z.shiftl b3 8) b4) in
  let bcast_system := b5 in
  ret (ana_bcast_type, ana_freq, bcast_system).

Definition cec_msg_select_digital_service (digital : cec_op_digital_service_id) : C unit :=
  set_len 9;;
  put 1 CEC_MSG_SELECT_DIGITAL_SERVICE;;
  cec_set_digital_service_id 2 digital.

Definition cec_ops_select_digital_service (digital : cec_op_digital_service_id) :
    C cec_op_digital_service_id :=
  cec_get_digital_service_id 2 digital.

Definition cec_msg_tuner_step_decrement : C unit :=
  set_len 2;;
  put 1 CEC_MSG_TUNER_STEP_DECREMENT.

Definition cec_msg_tuner_step_increment : C unit :=
  set_len 2;;
  put 1 CEC_MSG_TUNER_STEP_INCREMENT.

Definition cec_msg_device_vendor_id (vendor_id : Z) : C unit :=
  set_len 5;;
  or_msg 0 0xf;;
  put 1 CEC_MSG_DEVICE_VENDOR_ID;;
  put 2 (Z.shiftr vendor_id 16);;
  put 3 (Z.land (Z.shiftr vendor_id 8) 0xff);;
  put 4 (Z.land vendor_id 0xff).

Definition cec_ops_device_vendor_id : C Z :=
  let* b2 := get 2 in
  let* b3 := get 3 in
  let* b4 := get 4 in
  ret (u32 (Z.lor (Z.lor (Z.shiftl b2 16) (Z.shiftl b3 8)) b4)).

Definition cec_msg_give_device_vendor_id (reply : Z) : C unit :=
  set_len 2;;
  put 1 CEC_MSG_GIVE_DEVICE_VENDOR_ID;;
  set_reply (if reply =? 0 then 0 else CEC_MSG_DEVICE_VENDOR_ID).

Definition cec_msg_vendor_command (size : Z) (vendor_cmd : list Z) : C unit :=
  let size := if 14 <? size then 14 else size in
  set_len (2 + size);;
  put 1 CEC_MSG_VENDOR_COMMAND;;
  memcpy_in 2 vendor_cmd (Z.to_nat size).

(** The pointer handed out is [msg->msg + 2]. *)
Definition cec_ops_vendor_command : C (Z * nat) :=
  let* l := get_len in
  let size := u8 (u32 (l - 2)) in
  let size := if 14 <? size then 14 else size in
  ret (size, 2%nat).

Definition cec_msg_vendor_command_with_id (vendor_id size : Z) (vendor_cmd : list Z) : C unit :=
  let size := if 11 <? size then 11 else size in
  set_len (5 + size);;
  put 1 CEC_MSG_VENDOR_COMMAND_WITH_ID;;
  put 2 (Z.shiftr vendor_id 16);;
  put 3 (Z.land (Z.shiftr vendor_id 8) 0xff);;
  put 4 (Z.land vendor_id 0xff);;
  memcpy_in 5 vendor_cmd (Z.to_nat size).

Definition cec_ops_vendor_command_with_id : C (Z * Z * nat) :=
  let* l := get_len in
  let size := u8 (u32 (l - 5)) in
  let size := if 11 <? size then 11 else size in
  let* b2 := get 2 in
  let* b3 := get 3 in
  let* b4 := get 4 in
  ret (u32 (Z.lor (Z.lor (Z.shiftl b2 16) (Z.shiftl b3 8)) b4), size, 5%nat).

Definition cec_msg_vendor_remote_button_down (size : Z) (rc_code : list Z) : C unit :=
  let size := if 14 <? size then 14 else size in
  set_len (2 + size);;
  put 1 CEC_MSG_VENDOR_REMOTE_BUTTON_DOWN;;
  memcpy_in 2 rc_code (Z.to_nat size).

Definition cec_ops_vendor_remote_button_down : C (Z * nat) :=
  let* l := get_len in
  let size := u8 (u32 (l - 2)) in
  let size := if 14 <? size then 14 else size in
  ret (size, 2%nat).

Definition cec_msg_vendor_remote_button_up : C unit :=
  set_len 2;;
  put 1 CEC_MSG_VENDOR_REMOTE_BUTTON_UP.

Definition cec_msg_set_osd_string (disp_ctl : Z) (osd : list Z) : C unit :=
  let* text := strlen osd in
  let n := Nat.min (length text) 13 in
  set_len (3 + Z.of_nat n);;
  put 1 CEC_MSG_SET_OSD_STRING;;
  put 2 disp_ctl;;
  memcpy_in 3 osd n.

Definition cec_ops_set_osd_string : C (Z * list Z) :=
  let* l := get_len in
  let* b2 := get 2 in
  let n := Nat.min (Z.to_nat (if 3 <? l then l - 3 else 0)) 13 in
  let* text := memcpy_out 3 n in
  ret (b2, text ++ [0]).

Definition cec_msg_set_osd_name (name : list Z) : C unit :=
  let* text := strlen name in
  let n := Nat.min (length text) 14 in
  set_len (2 + Z.of_nat n);;
  put 1 CEC_MSG_SET_OSD_NAME;;
  memcpy_in 2 name n.

Definition cec_ops_set_osd_name : C (list Z) :=
  let* l := get_len in
  let n := Nat.min (Z.to_nat (if 2 <? l then l - 2 else 0)) 14 in
  let* text := memcpy_out 2 n in
  ret (text ++ [0]).

Definition cec_msg_give_osd_name (reply : Z) : C unit :=
  set_len 2;;
  put 1 CEC_MSG_GIVE_OSD_NAME;;
  set_reply (if reply =? 0 then 0 else CEC_MSG_SET_OSD_NAME).

Definition cec_msg_menu_status (menu_state : Z) : C unit :=
  set_len 3;;
  put 1 CEC_MSG_MENU_STATUS;;
  put 2 menu_state.

Definition cec_ops_menu_status : C Z :=
  let* b2 := get 2 in
  ret b2.

Definition cec_msg_menu_request (reply menu_req : Z) : C unit :=
  set_len 3;;
  put 1 CEC_MSG_MENU_REQUEST;;
  put 2 menu_req;;
  set_reply (if reply =? 0 then 0 else CEC_MSG_MENU_STATUS).

Definition cec_ops_menu_request : C Z :=
  let* b2 := get 2 in
  ret b2.

(** [struct cec_op_ui_command]; the one-octet members of the union share
    [play_mode]. *)
Record cec_op_ui_command := UiCommand {
  ui_cmd : Z; has_opt_arg : Z; channel_identifier : cec_op_channel_data; play_mode : Z }.

(** The commands whose optional operand is one octet. *)
Definition ui_one_byte (c : Z) : bool :=
  (c =? 0x56) || (c =? 0x57) || (c =? 0x60) || (c =? 0x68) || (c =? 0x69) || (c =? 0x6a).

Definition cec_msg_user_control_pressed (c : cec_op_ui_command) : C unit :=
  set_len 3;;
  put 1 CEC_MSG_USER_CONTROL_PRESSED;;
  put 2 (ui_cmd c);;
  if has_opt_arg c =? 0 then ret tt
  else if ui_one_byte (ui_cmd c) then
    let* l := get_len in
    set_len (l + 1);;
    put 3 (play_mode c)
  else if ui_cmd c =? 0x67 then
    let* l := get_len in
    set_len (l + 4);;
    put 3 (Z.lor (Z.shiftl (channel_number_fmt (channel_identifier c)) 2)
                 (Z.shiftr (major (channel_identifier c)) 8));;
    put 4 (Z.land (major (channel_identifier c)) 0xff);;
    put 5 (Z.shiftr (minor (channel_identifier c)) 8);;
    put 6 (Z.land (minor (channel_identifier c)) 0xff)
  else ret tt.

Definition cec_ops_user_control_pressed (c : cec_op_ui_command) : C cec_op_ui_command :=
  let* b2 := get 2 in
  let* l := get_len in
  if l =? 3 then ret (UiCommand b2 0 (channel_identifier c) (play_mode c))
  else if ui_one_byte b2 then
    let* b3 := get 3 in
    ret (UiCommand b2 1 (channel_identifier c) b3)
  else if b2 =? 0x67 then
    if l <? 7 then ret (UiCommand b2 0 (channel_identifier c) (play_mode c))
    else
      let* b3 := get 3 in
      let* b4 := get 4 in
      let* b5 := get 5 in
      let* b6 := get 6 in
      ret (UiCommand b2 1
             (ChannelData (u8 (Z.shiftr b3 2)) (u16 (Z.lor (Z.shiftl (Z.land b3 3) 6) b4))
                (u16 (Z.lor (Z.shiftl b5 8) b6))) (play_mode c))
  else ret (UiCommand b2 0 (channel_identifier c) (play_mode c)).

Definition cec_msg_user_control_released : C unit :=
  set_len 2;;
  put 1 CEC_MSG_USER_CONTROL_RELEASED.

Definition cec_msg_report_power_status (pwr_state : Z) : C unit :=
  set_len 3;;
  put 1 CEC_MSG_REPORT_POWER_STATUS;;
  put 2 pwr_state.

Definition cec_ops_report_power_status : C Z :=
  let* b2 := get 2 in
  ret b2.

Definition cec_msg_give_device_power_status (reply : Z) : C unit :=
  set_len 2;;
  put 1 CEC_MSG_GIVE_DEVICE_POWER_STATUS;;
  set_reply (if reply =? 0 then 0 else CEC_MSG_REPORT_POWER_STATUS).

Definition cec_msg_feature_abort (abort_msg reason : Z) : C unit :=
  set_len 4;;
  put 1 CEC_MSG_FEATURE_ABORT;;
  put 2 abort_msg;;
  put 3 reason.

Definition cec_ops_feature_abort : C (Z * Z) :=
  let* b2 := get 2 in
  let* b3 := get 3 in
  let abort_msg := b2 in
  let reason := b3 in
  ret (abort_msg, reason).

Definition cec_msg_reply_feature_abort (reason : Z) : C unit :=
  cec_msg_set_reply_to_self;;
  set_len 4;;
  let* b1 := get 1 in
  put 2 b1;;
  put 3 reason;;
  put 1 CEC_MSG_FEATURE_ABORT.

Definition cec_msg_abort : C unit :=
  set_len 2;;
  put 1 CEC_MSG_ABORT.

Definition cec_msg_report_audio_status (aud_mute_status aud_vol_status : Z) : C unit :=
  set_len 3;;
  put 1 CEC_MSG_REPORT_AUDIO_STATUS;;
  put 2 (Z.lor (Z.shiftl aud_mute_status 7) (Z.land aud_vol_status 0x7f)).

Definition cec_ops_report_audio_status : C (Z * Z) :=
  let* b2 := get 2 in
  let aud_mute_status := u8 (Z.shiftr b2 7) in
  let aud_vol_status := u8 (Z.land b2 0x7f) in
  ret (aud_mute_status, aud_vol_status).

Definition cec_msg_give_audio_status (reply : Z) : C unit :=
  set_len 2;;
  put 1 CEC_MSG_GIVE_AUDIO_STATUS;;
  set_reply (if reply =? 0 then 0 else CEC_MSG_REPORT_AUDIO_STATUS).

Definition cec_msg_set_system_audio_mode (sys_aud_status : Z) : C unit :=
  set_len 3;;
  put 1 CEC_MSG_SET_SYSTEM_AUDIO_MODE;;
  put 2 sys_aud_status.

Definition cec_ops_set_system_audio_mode : C Z :=
  let* b2 := get 2 in
  ret b2.

Definition cec_msg_system_audio_mode_request (reply phys_addr : Z) : C unit :=
  set_len (if phys_addr =? 0xffff then 2 else 4);;
  put 1 CEC_MSG_SYSTEM_AUDIO_MODE_REQUEST;;
  put 2 (Z.shiftr phys_addr 8);;
  put 3 (Z.land phys_addr 0xff);;
  set_reply (if reply =? 0 then 0 else CEC_MSG_SET_SYSTEM_AUDIO_MODE).

Definition cec_ops_system_audio_mode_request : C Z :=
  let* l := get_len in
  if l <? 4 then ret 0xffff
  else
    let* b2 := get 2 in
    let* b3 := get 3 in
    ret (u16 (Z.lor (Z.shiftl b2 8) b3)).

Definition cec_msg_system_audio_mode_status (sys_aud_status : Z) : C unit :=
  set_len 3;;
  put 1 CEC_MSG_SYSTEM_AUDIO_MODE_STATUS;;
  put 2 sys_aud_status.

Definition cec_ops_system_audio_mode_status : C Z :=
  let* b2 := get 2 in
  ret b2.

Definition cec_msg_give_system_audio_mode_status (reply : Z) : C unit :=
  set_len 2;;
  put 1 CEC_MSG_GIVE_SYSTEM_AUDIO_MODE_STATUS;;
  set_reply (if reply =? 0 then 0 else CEC_MSG_SYSTEM_AUDIO_MODE_STATUS).

(** The loop over the descriptors; [i] is the next, [ds] those left. *)
Fixpoint put_descriptors (i : nat) (ds : list Z) : C unit :=
  match ds with
  | [] => ret tt
  | d :: ds' =>
      put (2 + i * 3) (Z.land (Z.shiftr d 16) 0xff);;
      put (3 + i * 3) (Z.land (Z.shiftr d 8) 0xff);;
      put (4 + i * 3) (Z.land d 0xff);;
      put_descriptors (S i) ds'
  end.

Definition cec_msg_report_short_audio_descriptor (num_descriptors : Z) (descriptors : list Z) :
    C unit :=
  let num_descriptors := if 4 <? num_descriptors then 4 else num_descriptors in
  set_len (2 + num_descriptors * 3);;
  put 1 CEC_MSG_REPORT_SHORT_AUDIO_DESCRIPTOR;;
  let* ds := elements (Z.to_nat num_descriptors) descriptors in
  put_descriptors 0 ds.

Fixpoint get_descriptors (i n : nat) : C (list Z) :=
  match n with
  | O => ret []
  | S n' =>
      let* x := get (2 + i * 3) in
      let* y := get (3 + i * 3) in
      let* z := get (4 + i * 3) in
      let* ds := get_descriptors (S i) n' in
      ret (u32 (Z.lor (Z.lor (Z.shiftl x 16) (Z.shiftl y 8)) z) :: ds)
  end.

Definition cec_ops_report_short_audio_descriptor : C (Z * list Z) :=
  let* l := get_len in
  let num_descriptors := u8 (u32 (l - 2) / 3) in
  let num_descriptors := if 4 <? num_descriptors then 4 else num_descriptors in
  let* ds := get_descriptors 0 (Z.to_nat num_descriptors) in
  ret (num_descriptors, ds).

Fixpoint put_formats (i : nat) (fs : list (Z * Z)) : C unit :=
  match fs with
  | [] => ret tt
  | (audio_format_id, audio_format_code) :: fs' =>
      put (2 + i) (Z.lor (Z.shiftl audio_format_id 6) (Z.land audio_format_code 0x3f));;
      put_formats (S i) fs'
  end.

Definition cec_msg_request_short_audio_descriptor (reply num_descriptors : Z)
    (audio_format_id audio_format_code : list Z) : C unit :=
  let num_descriptors := if 4 <? num_descriptors then 4 else num_descriptors in
  set_len (2 + num_descriptors);;
  put 1 CEC_MSG_REQUEST_SHORT_AUDIO_DESCRIPTOR;;
  set_reply (if reply =? 0 then 0 else CEC_MSG_REPORT_SHORT_AUDIO_DESCRIPTOR);;
  let* ids := elements (Z.to_nat num_descriptors) audio_format_id in
  let* codes := elements (Z.to_nat num_descriptors) audio_format_code in
  put_formats 0 (zip ids codes).

Fixpoint get_formats (i n : nat) : C (list (Z * Z)) :=
  match n with
  | O => ret []
  | S n' =>
      let* b := get (2 + i) in
      let* fs := get_formats (S i) n' in
      ret ((u8 (Z.shiftr b 6), u8 (Z.land b 0x3f)) :: fs)
  end.

Definition cec_ops_request_short_audio_descriptor : C (Z * list Z * list Z) :=
  let* l := get_len in
  let num_descriptors := u8 (u32 (l - 2)) in
  let num_descriptors := if 4 <? num_descriptors then 4 else num_descriptors in
  let* fs := get_formats 0 (Z.to_nat num_descriptors) in
  ret (num_descriptors, fs.*1, fs.*2).

Definition cec_msg_set_audio_rate (audio_rate : Z) : C unit :=
  set_len 3;;
  put 1 CEC_MSG_SET_AUDIO_RATE;;
  put 2 audio_rate.

Definition cec_ops_set_audio_rate : C Z :=
  let* b2 := get 2 in
  ret b2.

Definition cec_msg_report_arc_initiated : C unit :=
  set_len 2;;
  put 1 CEC_MSG_REPORT_ARC_INITIATED.

Definition cec_msg_initiate_arc (reply : Z) : C unit :=
  set_len 2;;
  put 1 CEC_MSG_INITIATE_ARC;;
  set_reply (if reply =? 0 then 0 else CEC_MSG_REPORT_ARC_INITIATED).

Definition cec_msg_request_arc_initiation (reply : Z) : C unit :=
  set_len 2;;
  put 1 CEC_MSG_REQUEST_ARC_INITIATION;;
  set_reply (if reply =? 0 then 0 else CEC_MSG_INITIATE_ARC).

Definition cec_msg_report_arc_terminated : C unit :=
  set_len 2;;
  put 1 CEC_MSG_REPORT_ARC_TERMINATED.

Definition cec_msg_terminate_arc (reply : Z) : C unit :=
  set_len 2;;
  put 1 CEC_MSG_TERMINATE_ARC;;
  set_reply (if reply =? 0 then 0 else CEC_MSG_REPORT_ARC_TERMINATED).

Definition cec_msg_request_arc_termination (reply : Z) : C unit :=
  set_len 2;;
  put 1 CEC_MSG_REQUEST_ARC_TERMINATION;;
  set_reply (if reply =? 0 then 0 else CEC_MSG_TERMINATE_ARC).

Definition cec_msg_report_current_latency (phys_addr video_latency low_latency_mode
    audio_out_compensated audio_out_delay : Z) : C unit :=
  set_len 6;;
  or_msg 0 0xf;;
  put 1 CEC_MSG_REPORT_CURRENT_LATENCY;;
  put 2 (Z.shiftr phys_addr 8);;
  put 3 (Z.land phys_addr 0xff);;
  put 4 video_latency;;
  put 5 (Z.lor (Z.shiftl low_latency_mode 2) audio_out_compensated);;
  if audio_out_compensated =? 3 then append audio_out_delay else ret tt.

Definition cec_ops_report_current_latency : C (Z * Z * Z * Z * Z) :=
  let* b2 := get 2 in
  let* b3 := get 3 in
  let* b4 := get 4 in
  let* b5 := get 5 in
  let phys_addr := u16 (Z.lor (Z.shiftl b2 8) b3) in
  let low_latency_mode := u8 (Z.land (Z.shiftr b5 2) 1) in
  let audio_out_compensated := u8 (Z.land b5 3) in
  let* l := get_len in
  if (audio_out_compensated =? 3) && (7 <=? l) then
    let* b6 := get 6 in
    ret (phys_addr, b4, low_latency_mode, audio_out_compensated, b6)
  else ret (phys_addr, b4, low_latency_mode, audio_out_compensated, 0).

Definition cec_msg_request_current_latency (reply phys_addr : Z) : C unit :=
  set_len 4;;
  or_msg 0 0xf;;
  put 1 CEC_MSG_REQUEST_CURRENT_LATENCY;;
  put 2 (Z.shiftr phys_addr 8);;
  put 3 (Z.land phys_addr 0xff);;
  set_reply (if reply =? 0 then 0 else CEC_MSG_REPORT_CURRENT_LATENCY).

Definition cec_ops_request_current_latency : C Z :=
  let* b2 := get 2 in
  let* b3 := get 3 in
  ret (u16 (Z.lor (Z.shiftl b2 8) b3)).

Definition cec_msg_cdc_hec_inquire_state (phys_addr1 phys_addr2 : Z) : C unit :=
  set_len 9;;
  or_msg 0 0xf;;
  put 1 CEC_MSG_CDC_MESSAGE;;
  put 4 CEC_MSG_CDC_HEC_INQUIRE_STATE;;
  put 5 (Z.shiftr phys_addr1 8);;
  put 6 (Z.land phys_addr1 0xff);;
  put 7 (Z.shiftr phys_addr2 8);;
  put 8 (Z.land phys_addr2 0xff).

Definition cec_ops_cdc_hec_inquire_state : C (Z * Z * Z) :=
  let* b2 := get 2 in
  let* b3 := get 3 in
  let* b5 := get 5 in
  let* b6 := get 6 in
  let* b7 := get 7 in
  let* b8 := get 8 in
  let phys_addr := u16 (Z.lor (Z.shiftl b2 8) b3) in
  let phys_addr1 := u16 (Z.lor (Z.shiftl b5 8) b6) in
  let phys_addr2 := u16 (Z.lor (Z.shiftl b7 8) b8) in
  ret (phys_addr, phys_addr1, phys_addr2).

Definition cec_msg_cdc_hec_report_state (target_phys_addr hec_func_state host_func_state
    enc_func_state cdc_errcode has_field hec_field : Z) : C unit :=
  set_len (if has_field =? 0 then 8 else 10);;
  or_msg 0 0xf;;
  put 1 CEC_MSG_CDC_MESSAGE;;
  put 4 CEC_MSG_CDC_HEC_REPORT_STATE;;
  put 5 (Z.shiftr target_phys_addr 8);;
  put 6 (Z.land target_phys_addr 0xff);;
  put 7 (Z.lor (Z.lor (Z.lor (Z.shiftl hec_func_state 6) (Z.shiftl host_func_state 4))
                      (Z.shiftl enc_func_state 2)) cdc_errcode);;
  if has_field =? 0 then ret tt
  else
    put 8 (Z.shiftr hec_field 8);;
    put 9 (Z.land hec_field 0xff).

Definition cec_ops_cdc_hec_report_state : C (Z * Z * Z * Z * Z * Z * Z * Z) :=
  let* b2 := get 2 in
  let* b3 := get 3 in
  let* b5 := get 5 in
  let* b6 := get 6 in
  let* b7 := get 7 in
  let* l := get_len in
  let phys_addr := u16 (Z.lor (Z.shiftl b2 8) b3) in
  let target_phys_addr := u16 (Z.lor (Z.shiftl b5 8) b6) in
  let hec_func_state := u8 (Z.shiftr b7 6) in
  let host_func_state := u8 (Z.land (Z.shiftr b7 4) 3) in
  let enc_func_state := u8 (Z.land (Z.shiftr b7 4) 3) in
  let cdc_errcode := u8 (Z.land b7 3) in
  if 10 <=? l then
    let* b8 := get 8 in
    let* b9 := get 9 in
    ret (phys_addr, target_phys_addr, hec_func_state, host_func_state, enc_func_state,
         cdc_errcode, 1, u16 (Z.lor (Z.shiftl b8 8) b9))
  else
    ret (phys_addr, target_phys_addr, hec_func_state, host_func_state, enc_func_state,
         cdc_errcode, 0, 0).

Definition cec_msg_cdc_hec_set_state (phys_addr1 phys_addr2 hec_set_state phys_addr3
    phys_addr4 phys_addr5 : Z) : C unit :=
  set_len 10;;
  or_msg 0 0xf;;
  put 1 CEC_MSG_CDC_MESSAGE;;
  put 4 CEC_MSG_CDC_HEC_INQUIRE_STATE;;
  put 5 (Z.shiftr phys_addr1 8);;
  put 6 (Z.land phys_addr1 0xff);;
  put 7 (Z.shiftr phys_addr2 8);;
  put 8 (Z.land phys_addr2 0xff);;
  put 9 hec_set_state;;
  if phys_addr3 =? CEC_PHYS_ADDR_INVALID then ret tt
  else
    append (Z.shiftr phys_addr3 8);;
    append (Z.land phys_addr3 0xff);;
    if phys_addr4 =? CEC_PHYS_ADDR_INVALID then ret tt
    else
      append (Z.shiftr phys_addr4 8);;
      append (Z.land phys_addr4 0xff);;
      if phys_addr5 =? CEC_PHYS_ADDR_INVALID then ret tt
      else
        append (Z.shiftr phys_addr5 8);;
        append (Z.land phys_addr5 0xff).

Definition cec_ops_cdc_hec_set_state : C (Z * Z * Z * Z * Z * Z * Z) :=
  let* b2 := get 2 in
  let* b3 := get 3 in
  let* b5 := get 5 in
  let* b6 := get 6 in
  let* b7 := get 7 in
  let* b8 := get 8 in
  let* b9 := get 9 in
  let* l := get_len in
  let* phys_addr3 :=
    (if 12 <=? l then
       let* x := get 10 in let* y := get 11 in ret (u16 (Z.lor (Z.shiftl x 8) y))
     else ret CEC_PHYS_ADDR_INVALID) in
  let* phys_addr4 :=
    (if 14 <=? l then
       let* x := get 12 in let* y := get 13 in ret (u16 (Z.lor (Z.shiftl x 8) y))
     else ret CEC_PHYS_ADDR_INVALID) in
  let* phys_addr5 :=
    (if 16 <=? l then
       let* x := get 14 in let* y := get 15 in ret (u16 (Z.lor (Z.shiftl x 8) y))
     else ret CEC_PHYS_ADDR_INVALID) in
  ret (u16 (Z.lor (Z.shiftl b2 8) b3), u16 (Z.lor (Z.shiftl b5 8) b6),
       u16 (Z.lor (Z.shiftl b7 8) b8), b9, phys_addr3, phys_addr4, phys_addr5).

Definition cec_msg_cdc_hec_set_state_adjacent (phys_addr1 hec_set_state : Z) : C unit :=
  set_len 8;;
  or_msg 0 0xf;;
  put 1 CEC_MSG_CDC_MESSAGE;;
  put 4 CEC_MSG_CDC_HEC_SET_STATE_ADJACENT;;
  put 5 (Z.shiftr phys_addr1 8);;
  put 6 (Z.land phys_addr1 0xff);;
  put 7 hec_set_state.

Definition cec_ops_cdc_hec_set_state_adjacent : C (Z * Z * Z) :=
  let* b2 := get 2 in
  let* b3 := get 3 in
  let* b5 := get 5 in
  let* b6 := get 6 in
  let* b7 := get 7 in
  let phys_addr := u16 (Z.lor (Z.shiftl b2 8) b3) in
  let phys_addr1 := u16 (Z.lor (Z.shiftl b5 8) b6) in
  let hec_set_state := b7 in
  ret (phys_addr, phys_addr1, hec_set_state).

Definition cec_msg_cdc_hec_request_deactivation (phys_addr1 phys_addr2 phys_addr3 : Z) : C unit :=
  set_len 11;;
  or_msg 0 0xf;;
  put 1 CEC_MSG_CDC_MESSAGE;;
  put 4 CEC_MSG_CDC_HEC_REQUEST_DEACTIVATION;;
  put 5 (Z.shiftr phys_addr1 8);;
  put 6 (Z.land phys_addr1 0xff);;
  put 7 (Z.shiftr phys_addr2 8);;
  put 8 (Z.land phys_addr2 0xff);;
  put 9 (Z.shiftr phys_addr3 8);;
  put 10 (Z.land phys_addr3 0xff).

Definition cec_ops_cdc_hec_request_deactivation : C (Z * Z * Z * Z) :=
  let* b2 := get 2 in
  let* b3 := get 3 in
  let* b5 := get 5 in
  let* b6 := get 6 in
  let* b7 := get 7 in
  let* b8 := get 8 in
  let* b9 := get 9 in
  let* b10 := get 10 in
  let phys_addr := u16 (Z.lor (Z.shiftl b2 8) b3) in
  let phys_addr1 := u16 (Z.lor (Z.shiftl b5 8) b6) in
  let phys_addr2 := u16 (Z.lor (Z.shiftl b7 8) b8) in
  let phys_addr3 := u16 (Z.lor (Z.shiftl b9 8) b10) in
  ret (phys_addr, phys_addr1, phys_addr2, phys_addr3).

Definition cec_msg_cdc_hec_notify_alive : C unit :=
  set_len 5;;
  or_msg 0 0xf;;
  put 1 CEC_MSG_CDC_MESSAGE;;
  put 4 CEC_MSG_CDC_HEC_NOTIFY_ALIVE.

Definition cec_ops_cdc_hec_notify_alive : C Z :=
  let* b2 := get 2 in
  let* b3 := get 3 in
  ret (u16 (Z.lor (Z.shiftl b2 8) b3)).

Definition cec_msg_cdc_hec_discover : C unit :=
  set_len 5;;
  or_msg 0 0xf;;
  put 1 CEC_MSG_CDC_MESSAGE;;
  put 4 CEC_MSG_CDC_HEC_DISCOVER.

Definition cec_ops_cdc_hec_discover : C Z :=
  let* b2 := get 2 in
  let* b3 := get 3 in
  ret (u16 (Z.lor (Z.shiftl b2 8) b3)).

Definition cec_msg_cdc_hpd_set_state (input_port hpd_state : Z) : C unit :=
  set_len 6;;
  or_msg 0 0xf;;
  put 1 CEC_MSG_CDC_MESSAGE;;
  put 4 CEC_MSG_CDC_HPD_SET_STATE;;
  put 5 (Z.lor (Z.shiftl input_port 4) hpd_state).

Definition cec_ops_cdc_hpd_set_state : C (Z * Z * Z) :=
  let* b2 := get 2 in
  let* b3 := get 3 in
  let* b5 := get 5 in
  let phys_addr := u16 (Z.lor (Z.shiftl b2 8) b3) in
  let input_port := u8 (Z.shiftr b5 4) in
  let hpd_state := u8 (Z.land b5 0xf) in
  ret (phys_addr, input_port, hpd_state).

Definition cec_msg_cdc_hpd_report_state (hpd_state hpd_error : Z) : C unit :=
  set_len 6;;
  or_msg 0 0xf;;
  put 1 CEC_MSG_CDC_MESSAGE;;
  put 4 CEC_MSG_CDC_HPD_REPORT_STATE;;
  put 5 (Z.lor (Z.shiftl hpd_state 4) hpd_error).

Definition cec_ops_cdc_hpd_report_state : C (Z * Z * Z) :=
  let* b2 := get 2 in
  let* b3 := get 3 in
  let* b5 := get 5 in
  let phys_addr := u16 (Z.lor (Z.shiftl b2 8) b3) in
  let hpd_state := u8 (Z.shiftr b5 4) in
  let hpd_error := u8 (Z.land b5 0xf) in
  ret (phys_addr, hpd_state, hpd_error).

