(* ===== verification/CecCodec.v ===== *)
(** * CEC codecs

    Every message of [linux/cec-funcs.h] as a codec: its opcode, its builder
    with what it promises about the frame, its reader, and the operands that
    fit the fields of the frame.  The table [codecs] lists them all. *)
From S2P Require Import Prelude CecConst Cec CecFuncs.

Record codec := Codec {
  cargs : Type;
  cop : Z;                        (** the opcode *)
  csub : option Z;                (** the CDC opcode *)
  cbroadcast : bool;              (** sent to everyone, whatever the header said *)
  creply : option Z;              (** the opcode to wait for when a reply is asked for *)
  cenc : Z -> cargs -> C unit;    (** the builder; the first argument asks for a reply *)
  cdec : C cargs;                 (** the reader *)
  cwf : cargs -> Prop }.          (** operands the fields can hold *)

(** An operand of [n] bits, a two-digit number, an octet string. *)
Definition bits (n x : Z) : Prop := 0 <= x < 2 ^ n.
Definition bcd (x : Z) : Prop := 0 <= x < 100.
Definition text (n : nat) (s : list Z) : Prop :=
  Forall is_byte s /\ (length s <= n)%nat.
Definition chars (n : nat) (s : list Z) : Prop :=
  text n s /\ Forall (fun c => c <> 0) s.

(** A structure a reader fills in starts out zeroed. *)
Definition no_digital : cec_op_digital_service_id := DigitalServiceId 0 0 0 0 0.
Definition no_analog : analog_service := AnalogService 0 0 0.
Definition no_channel : cec_op_channel_data := ChannelData 0 0 0.

(** The service identifications a frame can carry: by channel number, by an
    ATSC identification (no original network), by another. *)
Definition atsc_system (s : Z) : bool :=
  (s =? CEC_OP_DIG_SERVICE_BCAST_SYSTEM_ATSC_GEN) ||
  (s =? CEC_OP_DIG_SERVICE_BCAST_SYSTEM_ATSC_CABLE) ||
  (s =? CEC_OP_DIG_SERVICE_BCAST_SYSTEM_ATSC_SAT) ||
  (s =? CEC_OP_DIG_SERVICE_BCAST_SYSTEM_ATSC_T).

Definition digital_wf (d : cec_op_digital_service_id) : Prop :=
  bits 1 (service_id_method d) /\ bits 7 (dig_bcast_system d) /\
  if service_id_method d =? CEC_OP_SERVICE_ID_METHOD_BY_CHANNEL then
    bits 6 (w0 d) /\ bits 10 (w1 d) /\ bits 16 (w2 d)
  else if atsc_system (dig_bcast_system d) then bits 16 (w0 d) /\ bits 16 (w1 d) /\ w2 d = 0
  else bits 16 (w0 d) /\ bits 16 (w1 d) /\ bits 16 (w2 d).

Definition analog_wf (a : analog_service) : Prop :=
  bits 8 (an_ana_bcast_type a) /\ bits 16 (an_ana_freq a) /\ bits 8 (an_bcast_system a).

(** ** Messages whose operands are plain fields *)

Definition active_source_codec : codec :=
  Codec Z CEC_MSG_ACTIVE_SOURCE None true None
    (fun r phys_addr => cec_msg_active_source phys_addr)
    cec_ops_active_source
    (fun phys_addr => bits 16 phys_addr).

Definition image_view_on_codec : codec :=
  Codec unit CEC_MSG_IMAGE_VIEW_ON None false None (fun r _ => cec_msg_image_view_on) (ret tt)
       (fun _ => True).

Definition text_view_on_codec : codec :=
  Codec unit CEC_MSG_TEXT_VIEW_ON None false None (fun r _ => cec_msg_text_view_on) (ret tt)
       (fun _ => True).

Definition inactive_source_codec : codec :=
  Codec Z CEC_MSG_INACTIVE_SOURCE None false None
    (fun r phys_addr => cec_msg_inactive_source phys_addr)
    cec_ops_inactive_source
    (fun phys_addr => bits 16 phys_addr).

Definition request_active_source_codec : codec :=
  Codec unit CEC_MSG_REQUEST_ACTIVE_SOURCE None true (Some CEC_MSG_ACTIVE_SOURCE) (fun r _ =>
       cec_msg_request_active_source r) (ret tt) (fun _ => True).

Definition routing_information_codec : codec :=
  Codec Z CEC_MSG_ROUTING_INFORMATION None true None
    (fun r phys_addr => cec_msg_routing_information phys_addr)
    cec_ops_routing_information
    (fun phys_addr => bits 16 phys_addr).

Definition routing_change_codec : codec :=
  Codec (Z * Z) CEC_MSG_ROUTING_CHANGE None true (Some CEC_MSG_ROUTING_INFORMATION)
    (fun r '(orig_phys_addr, new_phys_addr) => cec_msg_routing_change r orig_phys_addr
       new_phys_addr)
    cec_ops_routing_change
    (fun '(orig_phys_addr, new_phys_addr) => bits 16 orig_phys_addr /\ bits 16 new_phys_addr).

Definition set_stream_path_codec : codec :=
  Codec Z CEC_MSG_SET_STREAM_PATH None true None
    (fun r phys_addr => cec_msg_set_stream_path phys_addr)
    cec_ops_set_stream_path
    (fun phys_addr => bits 16 phys_addr).

Definition standby_codec : codec :=
  Codec unit CEC_MSG_STANDBY None false None (fun r _ => cec_msg_standby) (ret tt) (fun _ =>
       True).

Definition record_off_codec : codec :=
  Codec unit CEC_MSG_RECORD_OFF None false (Some CEC_MSG_RECORD_STATUS) (fun r _ =>
       cec_msg_record_off r) (ret tt) (fun _ => True).

Definition record_status_codec : codec :=
  Codec Z CEC_MSG_RECORD_STATUS None false None
    (fun r rec_status => cec_msg_record_status rec_status)
    cec_ops_record_status
    (fun rec_status => bits 8 rec_status).

Definition record_tv_screen_codec : codec :=
  Codec unit CEC_MSG_RECORD_TV_SCREEN None false (Some CEC_MSG_RECORD_ON) (fun r _ =>
       cec_msg_record_tv_screen r) (ret tt) (fun _ => True).

Definition timer_cleared_status_codec : codec :=
  Codec Z CEC_MSG_TIMER_CLEARED_STATUS None false None
    (fun r timer_cleared_status => cec_msg_timer_cleared_status timer_cleared_status)
    cec_ops_timer_cleared_status
    (fun timer_cleared_status => bits 8 timer_cleared_status).

Definition clear_analogue_timer_codec : codec :=
  Codec (Z * Z * Z * Z * Z * Z * Z * Z * Z * Z) CEC_MSG_CLEAR_ANALOGUE_TIMER None false (Some
       CEC_MSG_TIMER_CLEARED_STATUS)
    (fun r '(day, month, start_hr, start_min, duration_hr, duration_min, recording_seq,
       ana_bcast_type, ana_freq, bcast_system) => cec_msg_clear_analogue_timer r day month
       start_hr start_min duration_hr duration_min recording_seq ana_bcast_type ana_freq
       bcast_system)
    cec_ops_clear_analogue_timer
    (fun '(day, month, start_hr, start_min, duration_hr, duration_min, recording_seq,
       ana_bcast_type, ana_freq, bcast_system) => bits 8 day /\ bits 8 month /\ bcd start_hr /\
       bcd start_min /\ bcd duration_hr /\ bcd duration_min /\ bits 8 recording_seq /\ bits 8
       ana_bcast_type /\ bits 16 ana_freq /\ bits 8 bcast_system).

Definition clear_ext_timer_codec : codec :=
  Codec (Z * Z * Z * Z * Z * Z * Z * Z * Z * Z) CEC_MSG_CLEAR_EXT_TIMER None false (Some
       CEC_MSG_TIMER_CLEARED_STATUS)
    (fun r '(day, month, start_hr, start_min, duration_hr, duration_min, recording_seq,
       ext_src_spec, plug, phys_addr) => cec_msg_clear_ext_timer r day month start_hr start_min
       duration_hr duration_min recording_seq ext_src_spec plug phys_addr)
    cec_ops_clear_ext_timer
    (fun '(day, month, start_hr, start_min, duration_hr, duration_min, recording_seq,
       ext_src_spec, plug, phys_addr) => bits 8 day /\ bits 8 month /\ bcd start_hr /\ bcd
       start_min /\ bcd duration_hr /\ bcd duration_min /\ bits 8 recording_seq /\ bits 8
       ext_src_spec /\ bits 8 plug /\ bits 16 phys_addr).

Definition set_analogue_timer_codec : codec :=
  Codec (Z * Z * Z * Z * Z * Z * Z * Z * Z * Z) CEC_MSG_SET_ANALOGUE_TIMER None false (Some
       CEC_MSG_TIMER_STATUS)
    (fun r '(day, month, start_hr, start_min, duration_hr, duration_min, recording_seq,
       ana_bcast_type, ana_freq, bcast_system) => cec_msg_set_analogue_timer r day month
       start_hr start_min duration_hr duration_min recording_seq ana_bcast_type ana_freq
       bcast_system)
    cec_ops_set_analogue_timer
    (fun '(day, month, start_hr, start_min, duration_hr, duration_min, recording_seq,
       ana_bcast_type, ana_freq, bcast_system) => bits 8 day /\ bits 8 month /\ bcd start_hr /\
       bcd start_min /\ bcd duration_hr /\ bcd duration_min /\ bits 8 recording_seq /\ bits 8
       ana_bcast_type /\ bits 16 ana_freq /\ bits 8 bcast_system).

Definition set_ext_timer_codec : codec :=
  Codec (Z * Z * Z * Z * Z * Z * Z * Z * Z * Z) CEC_MSG_SET_EXT_TIMER None false (Some
       CEC_MSG_TIMER_STATUS)
    (fun r '(day, month, start_hr, start_min, duration_hr, duration_min, recording_seq,
       ext_src_spec, plug, phys_addr) => cec_msg_set_ext_timer r day month start_hr start_min
       duration_hr duration_min recording_seq ext_src_spec plug phys_addr)
    cec_ops_set_ext_timer
    (fun '(day, month, start_hr, start_min, duration_hr, duration_min, recording_seq,
       ext_src_spec, plug, phys_addr) => bits 8 day /\ bits 8 month /\ bcd start_hr /\ bcd
       start_min /\ bcd duration_hr /\ bcd duration_min /\ bits 8 recording_seq /\ bits 8
       ext_src_spec /\ bits 8 plug /\ bits 16 phys_addr).

Definition cec_version_codec : codec :=
  Codec Z CEC_MSG_CEC_VERSION None false None
    (fun r cec_version => cec_msg_cec_version cec_version)
    cec_ops_cec_version
    (fun cec_version => bits 8 cec_version).

Definition get_cec_version_codec : codec :=
  Codec unit CEC_MSG_GET_CEC_VERSION None false (Some CEC_MSG_CEC_VERSION) (fun r _ =>
       cec_msg_get_cec_version r) (ret tt) (fun _ => True).

Definition report_physical_addr_codec : codec :=
  Codec (Z * Z) CEC_MSG_REPORT_PHYSICAL_ADDR None true None
    (fun r '(phys_addr, prim_devtype) => cec_msg_report_physical_addr phys_addr prim_devtype)
    cec_ops_report_physical_addr
    (fun '(phys_addr, prim_devtype) => bits 16 phys_addr /\ bits 8 prim_devtype).

Definition give_physical_addr_codec : codec :=
  Codec unit CEC_MSG_GIVE_PHYSICAL_ADDR None false (Some CEC_MSG_REPORT_PHYSICAL_ADDR) (fun r _
       => cec_msg_give_physical_addr r) (ret tt) (fun _ => True).

Definition get_menu_language_codec : codec :=
  Codec unit CEC_MSG_GET_MENU_LANGUAGE None false (Some CEC_MSG_SET_MENU_LANGUAGE) (fun r _ =>
       cec_msg_get_menu_language r) (ret tt) (fun _ => True).

Definition give_features_codec : codec :=
  Codec unit CEC_MSG_GIVE_FEATURES None false (Some CEC_MSG_REPORT_FEATURES) (fun r _ =>
       cec_msg_give_features r) (ret tt) (fun _ => True).

Definition deck_control_codec : codec :=
  Codec Z CEC_MSG_DECK_CONTROL None false None
    (fun r deck_control_mode => cec_msg_deck_control deck_control_mode)
    cec_ops_deck_control
    (fun deck_control_mode => bits 8 deck_control_mode).

Definition deck_status_codec : codec :=
  Codec Z CEC_MSG_DECK_STATUS None false None
    (fun r deck_info => cec_msg_deck_status deck_info)
    cec_ops_deck_status
    (fun deck_info => bits 8 deck_info).

Definition give_deck_status_codec : codec :=
  Codec Z CEC_MSG_GIVE_DECK_STATUS None false (Some CEC_MSG_DECK_STATUS)
    (fun r status_req => cec_msg_give_deck_status r status_req)
    cec_ops_give_deck_status
    (fun status_req => bits 8 status_req).

Definition play_codec : codec :=
  Codec Z CEC_MSG_PLAY None false None
    (fun r play_mode => cec_msg_play play_mode)
    cec_ops_play
    (fun play_mode => bits 8 play_mode).

Definition give_tuner_device_status_codec : codec :=
  Codec Z CEC_MSG_GIVE_TUNER_DEVICE_STATUS None false (Some CEC_MSG_TUNER_DEVICE_STATUS)
    (fun r status_req => cec_msg_give_tuner_device_status r status_req)
    cec_ops_give_tuner_device_status
    (fun status_req => bits 8 status_req).

Definition select_analogue_service_codec : codec :=
  Codec (Z * Z * Z) CEC_MSG_SELECT_ANALOGUE_SERVICE None false None
    (fun r '(ana_bcast_type, ana_freq, bcast_system) => cec_msg_select_analogue_service
       ana_bcast_type ana_freq bcast_system)
    cec_ops_select_analogue_service
    (fun '(ana_bcast_type, ana_freq, bcast_system) => bits 8 ana_bcast_type /\ bits 16 ana_freq
       /\ bits 8 bcast_system).

Definition tuner_step_decrement_codec : codec :=
  Codec unit CEC_MSG_TUNER_STEP_DECREMENT None false None (fun r _ =>
       cec_msg_tuner_step_decrement) (ret tt) (fun _ => True).

Definition tuner_step_increment_codec : codec :=
  Codec unit CEC_MSG_TUNER_STEP_INCREMENT None false None (fun r _ =>
       cec_msg_tuner_step_increment) (ret tt) (fun _ => True).

Definition device_vendor_id_codec : codec :=
  Codec Z CEC_MSG_DEVICE_VENDOR_ID None true None
    (fun r vendor_id => cec_msg_device_vendor_id vendor_id)
    cec_ops_device_vendor_id
    (fun vendor_id => bits 24 vendor_id).

Definition give_device_vendor_id_codec : codec :=
  Codec unit CEC_MSG_GIVE_DEVICE_VENDOR_ID None false (Some CEC_MSG_DEVICE_VENDOR_ID) (fun r _
       => cec_msg_give_device_vendor_id r) (ret tt) (fun _ => True).

Definition vendor_remote_button_up_codec : codec :=
  Codec unit CEC_MSG_VENDOR_REMOTE_BUTTON_UP None false None (fun r _ =>
       cec_msg_vendor_remote_button_up) (ret tt) (fun _ => True).

Definition give_osd_name_codec : codec :=
  Codec unit CEC_MSG_GIVE_OSD_NAME None false (Some CEC_MSG_SET_OSD_NAME) (fun r _ =>
       cec_msg_give_osd_name r) (ret tt) (fun _ => True).

Definition menu_status_codec : codec :=
  Codec Z CEC_MSG_MENU_STATUS None false None
    (fun r menu_state => cec_msg_menu_status menu_state)
    cec_ops_menu_status
    (fun menu_state => bits 8 menu_state).

Definition menu_request_codec : codec :=
  Codec Z CEC_MSG_MENU_REQUEST None false (Some CEC_MSG_MENU_STATUS)
    (fun r menu_req => cec_msg_menu_request r menu_req)
    cec_ops_menu_request
    (fun menu_req => bits 8 menu_req).

Definition user_control_released_codec : codec :=
  Codec unit CEC_MSG_USER_CONTROL_RELEASED None false None (fun r _ =>
       cec_msg_user_control_released) (ret tt) (fun _ => True).

Definition report_power_status_codec : codec :=
  Codec Z CEC_MSG_REPORT_POWER_STATUS None false None
    (fun r pwr_state => cec_msg_report_power_status pwr_state)
    cec_ops_report_power_status
    (fun pwr_state => bits 8 pwr_state).

Definition give_device_power_status_codec : codec :=
  Codec unit CEC_MSG_GIVE_DEVICE_POWER_STATUS None false (Some CEC_MSG_REPORT_POWER_STATUS) (fun
       r _ => cec_msg_give_device_power_status r) (ret tt) (fun _ => True).

Definition feature_abort_codec : codec :=
  Codec (Z * Z) CEC_MSG_FEATURE_ABORT None false None
    (fun r '(abort_msg, reason) => cec_msg_feature_abort abort_msg reason)
    cec_ops_feature_abort
    (fun '(abort_msg, reason) => bits 8 abort_msg /\ bits 8 reason).

Definition abort_codec : codec :=
  Codec unit CEC_MSG_ABORT None false None (fun r _ => cec_msg_abort) (ret tt) (fun _ => True).

Definition report_audio_status_codec : codec :=
  Codec (Z * Z) CEC_MSG_REPORT_AUDIO_STATUS None false None
    (fun r '(aud_mute_status, aud_vol_status) => cec_msg_report_audio_status aud_mute_status
       aud_vol_status)
    cec_ops_report_audio_status
    (fun '(aud_mute_status, aud_vol_status) => bits 1 aud_mute_status /\ bits 7 aud_vol_status).

Definition give_audio_status_codec : codec :=
  Codec unit CEC_MSG_GIVE_AUDIO_STATUS None false (Some CEC_MSG_REPORT_AUDIO_STATUS) (fun r _ =>
       cec_msg_give_audio_status r) (ret tt) (fun _ => True).

Definition set_system_audio_mode_codec : codec :=
  Codec Z CEC_MSG_SET_SYSTEM_AUDIO_MODE None false None
    (fun r sys_aud_status => cec_msg_set_system_audio_mode sys_aud_status)
    cec_ops_set_system_audio_mode
    (fun sys_aud_status => bits 8 sys_aud_status).

Definition system_audio_mode_status_codec : codec :=
  Codec Z CEC_MSG_SYSTEM_AUDIO_MODE_STATUS None false None
    (fun r sys_aud_status => cec_msg_system_audio_mode_status sys_aud_status)
    cec_ops_system_audio_mode_status
    (fun sys_aud_status => bits 8 sys_aud_status).

Definition give_system_audio_mode_status_codec : codec :=
  Codec unit CEC_MSG_GIVE_SYSTEM_AUDIO_MODE_STATUS None false (Some
       CEC_MSG_SYSTEM_AUDIO_MODE_STATUS) (fun r _ => cec_msg_give_system_audio_mode_status r)
       (ret tt) (fun _ => True).

Definition set_audio_rate_codec : codec :=
  Codec Z CEC_MSG_SET_AUDIO_RATE None false None
    (fun r audio_rate => cec_msg_set_audio_rate audio_rate)
    cec_ops_set_audio_rate
    (fun audio_rate => bits 8 audio_rate).

Definition report_arc_initiated_codec : codec :=
  Codec unit CEC_MSG_REPORT_ARC_INITIATED None false None (fun r _ =>
       cec_msg_report_arc_initiated) (ret tt) (fun _ => True).

Definition initiate_arc_codec : codec :=
  Codec unit CEC_MSG_INITIATE_ARC None false (Some CEC_MSG_REPORT_ARC_INITIATED) (fun r _ =>
       cec_msg_initiate_arc r) (ret tt) (fun _ => True).

Definition request_arc_initiation_codec : codec :=
  Codec unit CEC_MSG_REQUEST_ARC_INITIATION None false (Some CEC_MSG_INITIATE_ARC) (fun r _ =>
       cec_msg_request_arc_initiation r) (ret tt) (fun _ => True).

Definition report_arc_terminated_codec : codec :=
  Codec unit CEC_MSG_REPORT_ARC_TERMINATED None false None (fun r _ =>
       cec_msg_report_arc_terminated) (ret tt) (fun _ => True).

Definition terminate_arc_codec : codec :=
  Codec unit CEC_MSG_TERMINATE_ARC None false (Some CEC_MSG_REPORT_ARC_TERMINATED) (fun r _ =>
       cec_msg_terminate_arc r) (ret tt) (fun _ => True).

Definition request_arc_termination_codec : codec :=
  Codec unit CEC_MSG_REQUEST_ARC_TERMINATION None false (Some CEC_MSG_TERMINATE_ARC) (fun r _ =>
       cec_msg_request_arc_termination r) (ret tt) (fun _ => True).

Definition request_current_latency_codec : codec :=
  Codec Z CEC_MSG_REQUEST_CURRENT_LATENCY None true (Some CEC_MSG_REPORT_CURRENT_LATENCY)
    (fun r phys_addr => cec_msg_request_current_latency r phys_addr)
    cec_ops_request_current_latency
    (fun phys_addr => bits 16 phys_addr).

Definition cdc_hec_inquire_state_codec : codec :=
  Codec (Z * Z) CEC_MSG_CDC_MESSAGE (Some CEC_MSG_CDC_HEC_INQUIRE_STATE) true None
    (fun r '(phys_addr1, phys_addr2) => cec_msg_cdc_hec_inquire_state phys_addr1 phys_addr2)
    (let* '(_, phys_addr1, phys_addr2) := cec_ops_cdc_hec_inquire_state in ret (phys_addr1,
       phys_addr2))
    (fun '(phys_addr1, phys_addr2) => bits 16 phys_addr1 /\ bits 16 phys_addr2).

Definition cdc_hec_set_state_adjacent_codec : codec :=
  Codec (Z * Z) CEC_MSG_CDC_MESSAGE (Some CEC_MSG_CDC_HEC_SET_STATE_ADJACENT) true None
    (fun r '(phys_addr1, hec_set_state) => cec_msg_cdc_hec_set_state_adjacent phys_addr1
       hec_set_state)
    (let* '(_, phys_addr1, hec_set_state) := cec_ops_cdc_hec_set_state_adjacent in ret
       (phys_addr1, hec_set_state))
    (fun '(phys_addr1, hec_set_state) => bits 16 phys_addr1 /\ bits 8 hec_set_state).

Definition cdc_hec_request_deactivation_codec : codec :=
  Codec (Z * Z * Z) CEC_MSG_CDC_MESSAGE (Some CEC_MSG_CDC_HEC_REQUEST_DEACTIVATION) true None
    (fun r '(phys_addr1, phys_addr2, phys_addr3) => cec_msg_cdc_hec_request_deactivation
       phys_addr1 phys_addr2 phys_addr3)
    (let* '(_, phys_addr1, phys_addr2, phys_addr3) := cec_ops_cdc_hec_request_deactivation in
       ret (phys_addr1, phys_addr2, phys_addr3))
    (fun '(phys_addr1, phys_addr2, phys_addr3) => bits 16 phys_addr1 /\ bits 16 phys_addr2 /\
       bits 16 phys_addr3).

Definition cdc_hec_notify_alive_codec : codec :=
  Codec unit CEC_MSG_CDC_MESSAGE (Some CEC_MSG_CDC_HEC_NOTIFY_ALIVE) true None
    (fun r _ => cec_msg_cdc_hec_notify_alive)
    (let* _ := cec_ops_cdc_hec_notify_alive in ret tt)
    (fun _ => True).

Definition cdc_hec_discover_codec : codec :=
  Codec unit CEC_MSG_CDC_MESSAGE (Some CEC_MSG_CDC_HEC_DISCOVER) true None
    (fun r _ => cec_msg_cdc_hec_discover)
    (let* _ := cec_ops_cdc_hec_discover in ret tt)
    (fun _ => True).

Definition cdc_hpd_set_state_codec : codec :=
  Codec (Z * Z) CEC_MSG_CDC_MESSAGE (Some CEC_MSG_CDC_HPD_SET_STATE) true None
    (fun r '(input_port, hpd_state) => cec_msg_cdc_hpd_set_state input_port hpd_state)
    (let* '(_, input_port, hpd_state) := cec_ops_cdc_hpd_set_state in ret (input_port, hpd_state))
    (fun '(input_port, hpd_state) => bits 4 input_port /\ bits 4 hpd_state).

Definition cdc_hpd_report_state_codec : codec :=
  Codec (Z * Z) CEC_MSG_CDC_MESSAGE (Some CEC_MSG_CDC_HPD_REPORT_STATE) true None
    (fun r '(hpd_state, hpd_error) => cec_msg_cdc_hpd_report_state hpd_state hpd_error)
    (let* '(_, hpd_state, hpd_error) := cec_ops_cdc_hpd_report_state in ret (hpd_state,
       hpd_error))
    (fun '(hpd_state, hpd_error) => bits 4 hpd_state /\ bits 4 hpd_error).

(** ** Messages with alternatives, texts and lists *)

(** The record source, with the members its type does not select zeroed. *)
Definition record_src_wf (s : cec_op_record_src) : Prop :=
  match s with
  | RecordSrc ty dg an pl pa =>
      (ty = CEC_OP_RECORD_SRC_OWN /\ dg = no_digital /\ an = no_analog /\ pl = 0 /\ pa = 0) \/
      (ty = CEC_OP_RECORD_SRC_DIGITAL /\ digital_wf dg /\ an = no_analog /\ pl = 0 /\ pa = 0) \/
      (ty = CEC_OP_RECORD_SRC_ANALOG /\ dg = no_digital /\ analog_wf an /\ pl = 0 /\ pa = 0) \/
      (ty = CEC_OP_RECORD_SRC_EXT_PLUG /\ dg = no_digital /\ an = no_analog /\ bits 8 pl /\
       pa = 0) \/
      (ty = CEC_OP_RECORD_SRC_EXT_PHYS_ADDR /\ dg = no_digital /\ an = no_analog /\ pl = 0 /\
       bits 16 pa)
  end.

Definition record_on_codec : codec :=
  Codec cec_op_record_src CEC_MSG_RECORD_ON None false (Some CEC_MSG_RECORD_STATUS)
    cec_msg_record_on (cec_ops_record_on (RecordSrc 0 no_digital no_analog 0 0)) record_src_wf.

(** Durations travel with three of the program infos and errors only. *)
Definition timer_durations (prog_info prog_error : Z) : bool :=
  (prog_info =? CEC_OP_PROG_INFO_NOT_ENOUGH_SPACE) ||
  (prog_info =? CEC_OP_PROG_INFO_MIGHT_NOT_BE_ENOUGH_SPACE) ||
  (prog_error =? CEC_OP_PROG_ERROR_DUPLICATE).

Definition timer_status_codec : codec :=
  Codec (Z * Z * Z * Z * Z * Z) CEC_MSG_TIMER_STATUS None false None
    (fun _ '(warning, media, info, error, hr, mn) =>
       cec_msg_timer_status warning media info error hr mn)
    cec_ops_timer_status
    (fun '(warning, media, info, error, hr, mn) =>
       bits 1 warning /\ bits 2 media /\ bits 4 info /\ bits 4 error /\
       (info = 0 \/ error = 0) /\
       if timer_durations info error then bcd hr /\ bcd mn else hr = 0 /\ mn = 0).

Definition digital_timer_wf
    (x : Z * Z * Z * Z * Z * Z * Z * cec_op_digital_service_id) : Prop :=
  let '(day, month, start_hr, start_min, duration_hr, duration_min, seq, digital) := x in
  bits 8 day /\ bits 8 month /\ bcd start_hr /\ bcd start_min /\ bcd duration_hr /\
  bcd duration_min /\ bits 8 seq /\ digital_wf digital.

Definition clear_digital_timer_codec : codec :=
  Codec (Z * Z * Z * Z * Z * Z * Z * cec_op_digital_service_id)
    CEC_MSG_CLEAR_DIGITAL_TIMER None false (Some CEC_MSG_TIMER_CLEARED_STATUS)
    (fun r '(day, month, start_hr, start_min, duration_hr, duration_min, seq, digital) =>
       cec_msg_clear_digital_timer r day month start_hr start_min duration_hr duration_min seq
         digital)
    (cec_ops_clear_digital_timer no_digital) digital_timer_wf.

Definition set_digital_timer_codec : codec :=
  Codec (Z * Z * Z * Z * Z * Z * Z * cec_op_digital_service_id)
    CEC_MSG_SET_DIGITAL_TIMER None false (Some CEC_MSG_TIMER_STATUS)
    (fun r '(day, month, start_hr, start_min, duration_hr, duration_min, seq, digital) =>
       cec_msg_set_digital_timer r day month start_hr start_min duration_hr duration_min seq
         digital)
    (cec_ops_set_digital_timer no_digital) digital_timer_wf.

(** The texts: the builder takes a terminated string, the reader terminates
    what it hands out. *)
Definition unterminated (s : list Z) : list Z := take (length s - 1) s.

Definition set_timer_program_title_codec : codec :=
  Codec (list Z) CEC_MSG_SET_TIMER_PROGRAM_TITLE None false None
    (fun _ s => cec_msg_set_timer_program_title (s ++ [0]))
    (let* s := cec_ops_set_timer_program_title in ret (unterminated s)) (chars 14).

Definition set_osd_name_codec : codec :=
  Codec (list Z) CEC_MSG_SET_OSD_NAME None false None
    (fun _ s => cec_msg_set_osd_name (s ++ [0]))
    (let* s := cec_ops_set_osd_name in ret (unterminated s)) (chars 14).

Definition set_osd_string_codec : codec :=
  Codec (Z * list Z) CEC_MSG_SET_OSD_STRING None false None
    (fun _ '(disp_ctl, s) => cec_msg_set_osd_string disp_ctl (s ++ [0]))
    (let* '(disp_ctl, s) := cec_ops_set_osd_string in ret (disp_ctl, unterminated s))
    (fun '(disp_ctl, s) => bits 8 disp_ctl /\ chars 13 s).

Definition set_menu_language_codec : codec :=
  Codec (Z * Z * Z) CEC_MSG_SET_MENU_LANGUAGE None true None
    (fun _ '(x, y, z) => cec_msg_set_menu_language [x; y; z; 0])
    (let* s := cec_ops_set_menu_language in
     match s with [x; y; z; _] => ret (x, y, z) | _ => fun _ => None end)
    (fun '(x, y, z) => bits 8 x /\ bits 8 y /\ bits 8 z).

(** The features: one octet each, so the extension bit of the profile is
    clear. *)
Definition report_features_codec : codec :=
  Codec (Z * Z * Z * Z) CEC_MSG_REPORT_FEATURES None true None
    (fun _ '(version, types, rc, dev) => cec_msg_report_features version types rc dev)
    (let* '(version, types, rc, dev) := cec_ops_report_features in
     match rc, dev with
     | Some i, Some j => let* x := get i in let* y := get j in ret (version, types, x, y)
     | _, _ => fun _ => None
     end)
    (fun '(version, types, rc, dev) => bits 8 version /\ bits 8 types /\ bits 7 rc /\ bits 8 dev).

Definition tuner_device_status_codec : codec :=
  Codec cec_op_tuner_device_info CEC_MSG_TUNER_DEVICE_STATUS None false None
    (fun _ info => cec_msg_tuner_device_status info)
    (cec_ops_tuner_device_status (TunerDeviceInfo 0 0 0 no_digital no_analog))
    (fun info =>
       match info with
       | TunerDeviceInfo rec disp ana dg an =>
           bits 1 rec /\ bits 7 disp /\
           ((ana = 0 /\ digital_wf dg /\ an = no_analog) \/
            (ana = 1 /\ dg = no_digital /\ analog_wf an))
       end).

Definition select_digital_service_codec : codec :=
  Codec cec_op_digital_service_id CEC_MSG_SELECT_DIGITAL_SERVICE None false None
    (fun _ => cec_msg_select_digital_service)
    (cec_ops_select_digital_service no_digital) digital_wf.

(** The vendor messages: the reader hands out a size and a pointer into the
    message. *)
Definition vendor_command_codec : codec :=
  Codec (list Z) CEC_MSG_VENDOR_COMMAND None false None
    (fun _ s => cec_msg_vendor_command (Z.of_nat (length s)) s)
    (let* '(size, p) := cec_ops_vendor_command in memcpy_out p (Z.to_nat size)) (text 14).

Definition vendor_command_with_id_codec : codec :=
  Codec (Z * list Z) CEC_MSG_VENDOR_COMMAND_WITH_ID None false None
    (fun _ '(id, s) => cec_msg_vendor_command_with_id id (Z.of_nat (length s)) s)
    (let* '(id, size, p) := cec_ops_vendor_command_with_id in
     let* s := memcpy_out p (Z.to_nat size) in ret (id, s))
    (fun '(id, s) => bits 24 id /\ text 11 s).

Definition vendor_remote_button_down_codec : codec :=
  Codec (list Z) CEC_MSG_VENDOR_REMOTE_BUTTON_DOWN None false None
    (fun _ s => cec_msg_vendor_remote_button_down (Z.of_nat (length s)) s)
    (let* '(size, p) := cec_ops_vendor_remote_button_down in memcpy_out p (Z.to_nat size))
    (text 14).

(** The remote control buttons, with the operand the button takes. *)
Definition user_control_pressed_codec : codec :=
  Codec cec_op_ui_command CEC_MSG_USER_CONTROL_PRESSED None false None
    (fun _ => cec_msg_user_control_pressed)
    (cec_ops_user_control_pressed (UiCommand 0 0 no_channel 0))
    (fun c =>
       match c with
       | UiCommand cmd arg (ChannelData fmt maj min) pm =>
           bits 8 cmd /\
           ((arg = 0 /\ fmt = 0 /\ maj = 0 /\ min = 0 /\ pm = 0) \/
            (arg = 1 /\ ui_one_byte cmd = true /\ fmt = 0 /\ maj = 0 /\ min = 0 /\ bits 8 pm) \/
            (arg = 1 /\ cmd = 0x67 /\ bits 6 fmt /\ bits 10 maj /\ bits 16 min /\ pm = 0))
       end).

Definition system_audio_mode_request_codec : codec :=
  Codec Z CEC_MSG_SYSTEM_AUDIO_MODE_REQUEST None false (Some CEC_MSG_SET_SYSTEM_AUDIO_MODE)
    cec_msg_system_audio_mode_request cec_ops_system_audio_mode_request (bits 16).

Definition report_short_audio_descriptor_codec : codec :=
  Codec (list Z) CEC_MSG_REPORT_SHORT_AUDIO_DESCRIPTOR None false None
    (fun _ ds => cec_msg_report_short_audio_descriptor (Z.of_nat (length ds)) ds)
    (let* '(n, ds) := cec_ops_report_short_audio_descriptor in ret ds)
    (fun ds => Forall (bits 24) ds /\ (length ds <= 4)%nat).

Definition request_short_audio_descriptor_codec : codec :=
  Codec (list (Z * Z)) CEC_MSG_REQUEST_SHORT_AUDIO_DESCRIPTOR None false
    (Some CEC_MSG_REPORT_SHORT_AUDIO_DESCRIPTOR)
    (fun r fs => cec_msg_request_short_audio_descriptor r (Z.of_nat (length fs)) fs.*1 fs.*2)
    (let* '(n, ids, codes) := cec_ops_request_short_audio_descriptor in ret (zip ids codes))
    (fun fs => Forall (fun f => bits 2 f.1 /\ bits 6 f.2) fs /\ (length fs <= 4)%nat).

Definition report_current_latency_codec : codec :=
  Codec (Z * Z * Z * Z * Z) CEC_MSG_REPORT_CURRENT_LATENCY None true None
    (fun _ '(pa, video, low, comp, delay) =>
       cec_msg_report_current_latency pa video low comp delay)
    cec_ops_report_current_latency
    (fun '(pa, video, low, comp, delay) =>
       bits 16 pa /\ bits 8 video /\ bits 1 low /\ bits 2 comp /\
       (if comp =? 3 then bits 8 delay else delay = 0)).

Definition cdc_hec_report_state_codec : codec :=
  Codec (Z * Z * Z * Z * Z * Z * Z) CEC_MSG_CDC_MESSAGE (Some CEC_MSG_CDC_HEC_REPORT_STATE) true
    None
    (fun _ '(target, hec, host, enc, err, has_field, field) =>
       cec_msg_cdc_hec_report_state target hec host enc err has_field field)
    (let* '(_, target, hec, host, enc, err, has_field, field) := cec_ops_cdc_hec_report_state in
     ret (target, hec, host, enc, err, has_field, field))
    (fun '(target, hec, host, enc, err, has_field, field) =>
       bits 16 target /\ bits 2 hec /\ bits 2 host /\ bits 2 enc /\ bits 2 err /\
       ((has_field = 0 /\ field = 0) \/ (has_field = 1 /\ bits 16 field))).

Definition cdc_hec_set_state_codec : codec :=
  Codec (Z * Z * Z * Z * Z * Z) CEC_MSG_CDC_MESSAGE (Some CEC_MSG_CDC_HEC_SET_STATE) true None
    (fun _ '(pa1, pa2, state, pa3, pa4, pa5) => cec_msg_cdc_hec_set_state pa1 pa2 state pa3 pa4 pa5)
    (let* '(_, pa1, pa2, state, pa3, pa4, pa5) := cec_ops_cdc_hec_set_state in
     ret (pa1, pa2, state, pa3, pa4, pa5))
    (fun '(pa1, pa2, state, pa3, pa4, pa5) =>
       bits 16 pa1 /\ bits 16 pa2 /\ bits 8 state /\ bits 16 pa3 /\ bits 16 pa4 /\ bits 16 pa5 /\
       (pa3 = CEC_PHYS_ADDR_INVALID -> pa4 = CEC_PHYS_ADDR_INVALID) /\
       (pa4 = CEC_PHYS_ADDR_INVALID -> pa5 = CEC_PHYS_ADDR_INVALID)).

(** ** The table *)
Definition plain_codecs : list codec :=
  [active_source_codec; image_view_on_codec; text_view_on_codec; inactive_source_codec;
   request_active_source_codec; routing_information_codec; routing_change_codec;
   set_stream_path_codec; standby_codec; record_off_codec; record_status_codec;
   record_tv_screen_codec; timer_cleared_status_codec; clear_analogue_timer_codec;
   clear_ext_timer_codec; set_analogue_timer_codec; set_ext_timer_codec; cec_version_codec;
   get_cec_version_codec; report_physical_addr_codec; give_physical_addr_codec;
   get_menu_language_codec; give_features_codec; deck_control_codec; deck_status_codec;
   give_deck_status_codec; play_codec; give_tuner_device_status_codec;
   select_analogue_service_codec; tuner_step_decrement_codec; tuner_step_increment_codec;
   device_vendor_id_codec; give_device_vendor_id_codec; vendor_remote_button_up_codec;
   give_osd_name_codec; menu_status_codec; menu_request_codec; user_control_released_codec;
   report_power_status_codec; give_device_power_status_codec; feature_abort_codec; abort_codec;
   report_audio_status_codec; give_audio_status_codec; set_system_audio_mode_codec;
   system_audio_mode_status_codec; give_system_audio_mode_status_codec; set_audio_rate_codec;
   report_arc_initiated_codec; initiate_arc_codec; request_arc_initiation_codec;
   report_arc_terminated_codec; terminate_arc_codec; request_arc_termination_codec;
   request_current_latency_codec; cdc_hec_inquire_state_codec; cdc_hec_set_state_adjacent_codec;
   cdc_hec_request_deactivation_codec; cdc_hec_notify_alive_codec; cdc_hec_discover_codec;
   cdc_hpd_set_state_codec; cdc_hpd_report_state_codec].

Definition compound_codecs : list codec :=
  [record_on_codec; timer_status_codec; clear_digital_timer_codec; set_digital_timer_codec;
   set_timer_program_title_codec; set_osd_name_codec; set_osd_string_codec;
   set_menu_language_codec; report_features_codec; tuner_device_status_codec;
   select_digital_service_codec; vendor_command_codec; vendor_command_with_id_codec;
   vendor_remote_button_down_codec; user_control_pressed_codec; system_audio_mode_request_codec;
   report_short_audio_descriptor_codec; request_short_audio_descriptor_codec;
   report_current_latency_codec; cdc_hec_report_state_codec; cdc_hec_set_state_codec].

Definition codecs : list codec := plain_codecs ++ compound_codecs.

(** ** Where the header falls short

    A service identified by a channel whose major number needs more than
    eight of its ten bits. *)
Definition wide_service (d : cec_op_digital_service_id) : Prop :=
  service_id_method d = CEC_OP_SERVICE_ID_METHOD_BY_CHANNEL /\ 256 <= w1 d.

(** The messages, with operands that fit, that the header does not handle as
    documented: the state setting message goes out under the CDC opcode of the
    state inquiry, the ENC state of a report is read from the field of the host
    state, and the readers of a channel misplace the upper bits of the major
    number.  [CecProps] shows what becomes of them. *)
Inductive mishandled : forall c : codec, cargs c -> Prop :=
  | state_set a : mishandled cdc_hec_set_state_codec a
  | states_differ target hec host enc err has_field field : host <> enc ->
      mishandled cdc_hec_report_state_codec (target, hec, host, enc, err, has_field, field)
  | wide_selected d : wide_service d -> mishandled select_digital_service_codec d
  | wide_timer_cleared x d : wide_service d -> mishandled clear_digital_timer_codec (x, d)
  | wide_timer_set x d : wide_service d -> mishandled set_digital_timer_codec (x, d)
  | wide_recorded ty d an pl pa : wide_service d ->
      mishandled record_on_codec (RecordSrc ty d an pl pa)
  | wide_tuned rec disp ana d an : wide_service d ->
      mishandled tuner_device_status_codec (TunerDeviceInfo rec disp ana d an)
  | wide_pressed cmd arg fmt maj mn pm : 256 <= maj ->
      mishandled user_control_pressed_codec (UiCommand cmd arg (ChannelData fmt maj mn) pm).
