(* ===== verification/CecRun.v ===== *)
(** * CEC codecs: how a round trip is proved

    A well-formed frame, the round trip of a codec, the arithmetic of operands
    packed into octets, and the tactics that run a builder and a reader on a
    frame of sixteen named octets. *)
From S2P Require Import Prelude CecConst Cec CecFuncs CecCodec.

(** ** The round trip of a codec *)

(** Sixteen octets, and an octet for the reply. *)
Definition frame (m : cec_msg) : Prop :=
  length (msg m) = 16%nat /\ Forall is_byte (msg m) /\ is_byte (reply m).

(** The initiator and the destination. *)
Definition header (m : cec_msg) : option (Z * Z) :=
  match cec_msg_initiator m, cec_msg_destination m with
  | Some (i, _), Some (d, _) => Some (i, d)
  | _, _ => None
  end.

(** The message comes back: the builder succeeds; the reader gets the operands
    back; the opcode is the message's, the CDC opcode is [sub]; the length, the
    addresses and the awaited reply are the ones the message is documented
    with. *)
Definition comes_back (c : codec) (sub : option Z) (r : Z) (a : cargs c) (m : cec_msg) (i d : Z)
    : Prop :=
  exists m', cenc c r a m = Some (tt, m') /\
    cdec c m' = Some (a, m') /\
    cec_msg_opcode m' = Some (cop c, m') /\
    match sub with Some s => msg m' !! 4%nat = Some s | None => True end /\
    2 <= len m' <= CEC_MAX_MSG_SIZE /\
    header m' = Some (i, if cbroadcast c then CEC_LOG_ADDR_BROADCAST else d) /\
    reply m' = match creply c with Some o => if r =? 0 then 0 else o | None => reply m end /\
    frame m'.

(** So it does on every frame and every operand that fits, but where the
    header falls short. *)
Definition roundtrips (c : codec) : Prop := forall (r : Z) (a : cargs c) (m : cec_msg) i d,
  frame m -> cwf c a -> ~ mishandled c a -> header m = Some (i, d) ->
  comes_back c (csub c) r a m i d.

(** ** Operands packed into octets *)

Lemma lor_add n x b : 0 <= n -> x mod 2 ^ n = 0 -> 0 <= b < 2 ^ n -> Z.lor x b = x + b.
Proof.
  intros Hn Hx Hb. symmetry.
  rewrite <-Z.lxor_lor; [apply Z.add_nocarry_lxor|];
  (apply Z.bits_inj'; intros k Hk; rewrite Z.land_spec, Z.bits_0;
   destruct (Z.ltb_spec k n) as [Hlt|Hge];
   [replace (Z.testbit x k) with false; [done|];
    rewrite <-(Z.mod_pow2_bits_low x n k), Hx by lia; by rewrite Z.bits_0
   |rewrite (testbit_above n b) by lia; apply andb_false_r]).
Qed.

Lemma land_mask k x : 0 <= k -> Z.land x (2 ^ k - 1) = x mod 2 ^ k.
Proof. intros. rewrite <-(Z.land_ones x k) by lia. by rewrite Z.ones_equiv, Z.sub_1_r. Qed.

(** [lia] with quotients and remainders. *)
Ltac divlia := Z.to_euclidean_division_equations; lia.

Lemma join16 p : bits 16 p ->
  u16 (Z.lor (Z.shiftl (u8 (Z.shiftr p 8)) 8) (u8 (Z.land p 255))) = p.
Proof.
  unfold bits, u16, u8, wrap. intros Hp.
  rewrite (land_mask 8), !Z.shiftr_div_pow2, Z.shiftl_mul_pow2 by lia.
  rewrite (lor_add 8) by divlia. divlia.
Qed.

Lemma join24 p : bits 24 p ->
  u32 (Z.lor (Z.lor (Z.shiftl (u8 (Z.shiftr p 16)) 16)
                    (Z.shiftl (u8 (Z.land (Z.shiftr p 8) 255)) 8)) (u8 (Z.land p 255))) = p.
Proof.
  unfold bits, u32, u8, wrap. intros Hp.
  rewrite !(land_mask 8), !Z.shiftr_div_pow2, !Z.shiftl_mul_pow2 by lia.
  rewrite (lor_add 16 (_ * 2 ^ 16)) by divlia. rewrite (lor_add 8) by divlia. divlia.
Qed.

Lemma join24_masked p : bits 24 p ->
  u32 (Z.lor (Z.lor (Z.shiftl (u8 (Z.land (Z.shiftr p 16) 255)) 16)
                    (Z.shiftl (u8 (Z.land (Z.shiftr p 8) 255)) 8)) (u8 (Z.land p 255))) = p.
Proof.
  intros Hp. rewrite <-(join24 p Hp) at 4. do 4 f_equal.
  unfold bits in Hp. rewrite (land_mask 8), Z.shiftr_div_pow2 by lia. f_equal. divlia.
Qed.

Lemma join_bcd h : bcd h ->
  u8 (Z.shiftr (u8 (Z.lor (Z.shiftl (h / 10) 4) (h mod 10))) 4 * 10 +
      Z.land (u8 (Z.lor (Z.shiftl (h / 10) 4) (h mod 10))) 15) = h.
Proof.
  unfold bcd, u8, wrap. intros Hh.
  rewrite (land_mask 4), !Z.shiftr_div_pow2, !Z.shiftl_mul_pow2 by lia.
  rewrite (lor_add 4) by divlia. divlia.
Qed.

Lemma field_hi k a b : 0 <= k <= 8 -> bits (8 - k) a -> bits k b ->
  u8 (Z.shiftr (u8 (Z.lor (Z.shiftl a k) b)) k) = a.
Proof.
  unfold bits, u8, wrap. intros Hk Ha Hb.
  rewrite !Z.shiftr_div_pow2, !Z.shiftl_mul_pow2 by lia.
  rewrite (lor_add k) by (try apply Z_mod_mult; lia).
  assert (2 ^ 8 = 2 ^ (8 - k) * 2 ^ k) as E by (rewrite <-Z.pow_add_r by lia; f_equal; lia).
  assert (0 < 2 ^ k) by (apply Z.pow_pos_nonneg; lia).
  rewrite (Z.mod_small (_ + _)) by nia.
  rewrite Z.div_add_l, Z.div_small, Z.add_0_r by lia. apply Z.mod_small. nia.
Qed.

Lemma field_lo k a b : 0 <= k <= 8 -> bits (8 - k) a -> bits k b ->
  u8 (Z.land (u8 (Z.lor (Z.shiftl a k) b)) (2 ^ k - 1)) = b.
Proof.
  unfold bits, u8, wrap. intros Hk Ha Hb.
  rewrite land_mask, !Z.shiftl_mul_pow2 by lia.
  rewrite (lor_add k) by (try apply Z_mod_mult; lia).
  assert (2 ^ 8 = 2 ^ (8 - k) * 2 ^ k) as E by (rewrite <-Z.pow_add_r by lia; f_equal; lia).
  assert (0 < 2 ^ k) by (apply Z.pow_pos_nonneg; lia).
  rewrite (Z.mod_small (_ + _)) by nia.
  rewrite (Z.add_comm (a * _)), Z.mod_add, (Z.mod_small b (2 ^ k)) by lia.
  apply Z.mod_small. nia.
Qed.

(** ** Running a codec *)

Lemma frame_elim (P : cec_msg -> Prop) :
  (forall ts rs l t s f b0 b1 b2 b3 b4 b5 b6 b7 b8 b9 b10 b11 b12 b13 b14 b15 rp rx tx c1 c2 c3 c4,
     Forall is_byte [b0; b1; b2; b3; b4; b5; b6; b7; b8; b9; b10; b11; b12; b13; b14; b15] ->
     is_byte rp ->
     P (CecMsg ts rs l t s f
          [b0; b1; b2; b3; b4; b5; b6; b7; b8; b9; b10; b11; b12; b13; b14; b15]
          rp rx tx c1 c2 c3 c4)) ->
  forall m, frame m -> P m.
Proof.
  intros H m (Hl & Hb & Hr). destruct m as [???????? ??????]; simpl in *.
  repeat match goal with
  | H : length ?l = S _ |- _ => destruct l as [|? ?]; simpl in H; [done|apply (f_equal pred) in H; simpl in H]
  | H : length ?l = 0%nat |- _ => apply nil_length_inv in H; subst l
  end. by apply H.
Qed.

Lemma broadcast_header b : is_byte b ->
  u8 (Z.shiftr (u8 (Z.lor b 15)) 4) = u8 (Z.shiftr b 4) /\
  u8 (Z.land (u8 (Z.lor b 15)) 15) = 15.
Proof.
  intros Hb. split; apply Z.eqb_eq;
    revert b Hb; refine (forallb_seqZ _ 0 256 _); vm_compute; reflexivity.
Qed.


Lemma mask_small k x : 0 <= k -> bits k x -> Z.land x (2 ^ k - 1) = x.
Proof. intros Hk Hx. rewrite land_mask by lia. by apply Z.mod_small. Qed.

(** Runs the builder and the reader on the explicit frame; arithmetic on the
    octets stays as it is. *)
Ltac run_cec :=
  cbv -[u8 u16 u32 Z.lor Z.land Z.shiftl Z.shiftr Z.div Z.modulo Z.mul Z.add Z.sub Z.eqb Z.leb
        Z.ltb is_byte Z.le Z.lt bits bcd Z.of_nat Z.to_nat cstring].

(** Computes the closed words, comparisons and conversions of the goal. *)
Ltac const_words :=
  repeat match goal with
  | |- context [u8 (Zpos ?p)] => closed (u8 (Zpos p))
  | |- context [u8 0] => closed (u8 0)
  | |- context [u32 (Zpos ?p)] => closed (u32 (Zpos p))
  | |- context [Zpos ?p + Zpos ?q] => closed (Zpos p + Zpos q)
  | |- context [Zpos ?p - Zpos ?q] => closed (Zpos p - Zpos q)
  | |- context [0 =? Zpos ?q] => closed (0 =? Zpos q)
  | |- context [Zpos ?p =? 0] => closed (Zpos p =? 0)
  | |- context [0 =? 0] => closed (0 =? 0)
  | |- context [Zpos ?p =? Zpos ?q] => closed (Zpos p =? Zpos q)
  | |- context [Zpos ?p <? Zpos ?q] => closed (Zpos p <? Zpos q)
  | |- context [Zpos ?p <=? Zpos ?q] => closed (Zpos p <=? Zpos q)
  | |- context [Z.to_nat (Zpos ?p)] => closed (Z.to_nat (Zpos p))
  | |- context [Z.to_nat 0] => closed (Z.to_nat 0)
  | |- context [Zpos ?p + 0] => closed (Zpos p + 0)
  | |- context [Zpos ?p * Zpos ?q] => closed (Zpos p * Zpos q)
  | |- context [0 * Zpos ?q] => closed (0 * Zpos q)
  | |- context [Zpos ?p / Zpos ?q] => closed (Zpos p / Zpos q)
  | |- context [0 / Zpos ?q] => closed (0 / Zpos q)
  | |- context [Zpos ?p <? 0] => closed (Zpos p <? 0)
  | |- context [0 <? Zpos ?q] => closed (0 <? Zpos q)
  | |- context [Z.of_nat ?n] =>
      let v := eval cbv in (Z.of_nat n) in
      lazymatch v with Z0 => closed (Z.of_nat n) | Zpos _ => closed (Z.of_nat n) end
  end.

(** Evaluates as far as it goes with the help of the rewriting [tac]. *)
Ltac eval_cec tac := run_cec; repeat (progress (const_words; tac); run_cec).

(** An operand read back from the octets it was stored in. *)
Ltac fitting := first [assumption | unfold bits in *; lia].
Ltac operand :=
  lazymatch goal with
  | |- ?x = ?x => reflexivity
  | |- u16 _ = _ => apply join16; fitting
  | |- u32 (Z.lor (Z.lor (Z.shiftl (u8 (Z.shiftr _ _)) _) _) _) = _ => apply join24; fitting
  | |- u32 _ = _ => apply join24_masked; assumption
  | |- u8 (_ + _) = _ => apply join_bcd; assumption
  | |- u8 (Z.shiftr _ 7) = _ => apply (field_hi 7); [lia|fitting..]
  | |- u8 (Z.land _ 127) = _ => apply (field_lo 7); [lia|fitting..]
  | |- u8 (Z.shiftr _ 6) = _ => apply (field_hi 6); [lia|fitting..]
  | |- u8 (Z.land _ 63) = _ => apply (field_lo 6); [lia|fitting..]
  | |- u8 (Z.shiftr _ 4) = _ => apply (field_hi 4); [lia|fitting..]
  | |- u8 (Z.land _ 15) = _ => apply (field_lo 4); [lia|fitting..]
  | |- u8 _ = _ => apply u8_small; first [assumption | unfold bits in *; lia]
  end.

Ltac cec_frame :=
  repeat match goal with
  | |- Forall is_byte (_ :: _) => apply Forall_cons_2
  | |- Forall is_byte [] => apply Forall_nil_2
  | |- is_byte (u8 _) => apply u8_bound
  | |- is_byte _ => first [assumption | split; lia]
  end.

(** Takes the frame apart, and the operands. *)
Ltac codec_start :=
  let rr := fresh "r" in
  intros rr a m i d Hf Hw Hn; revert m Hf i d; refine (frame_elim _ _);
  intros ts rs l t s f b0 b1 b2 b3 b4 b5 b6 b7 b8 b9 b10 b11 b12 b13 b14 b15 rp
         rx tx c1 c2 c3 c4 Hbs Hrp i d Hh;
  pose proof (broadcast_header b0 (Forall_inv Hbs)) as [Hhi Hlo];
  repeat (match type of Hbs with
          | Forall _ (_ :: _) => apply Forall_cons_1 in Hbs as [?Hb Hbs] end);
  cbv -[u8 Z.shiftr Z.land] in Hh; injection Hh as <- <-;
  unfold comes_back; destruct (rr =? 0) eqn:Er;
  cbv in a;
  cbv -[bits bcd text chars digital_wf analog_wf record_src_wf timer_durations ui_one_byte
        length Z.eqb] in Hw.

Ltac operands :=
  repeat match goal with x : _ * _ |- _ => destruct x | x : unit |- _ => destruct x end;
  repeat match goal with H : _ /\ _ |- _ => destruct H as [? ?] end.

(** Runs the builder, then states what is left of the round trip. *)
Ltac encode tac :=
  match goal with
  | |- exists _, ?e = _ /\ _ =>
      let He := fresh in
      eassert (e = _) as He; [eval_cec tac; reflexivity|];
      eexists; split; [exact He|]; clear He
  end.

Ltac codec_finish tac :=
  match goal with
  | Er : (_ =? 0) = _, Hhi : u8 (Z.shiftr (u8 (Z.lor _ 15)) 4) = _, Hlo : _ = 15 |- _ =>
      let facts := (rewrite ?Er, ?Hhi, ?Hlo; tac) in
      encode facts; eval_cec facts
  end;
  splits;
  lazymatch goal with
  | |- _ <= _ => lia
  | |- Forall _ _ => cec_frame
  | |- is_byte _ => cec_frame
  | |- _ => idtac
  end;
  repeat f_equal; try operand.

(** No more facts than the frame gives. *)
Ltac none := idtac.

Ltac plain_codec :=
  codec_start; operands;
  codec_finish ltac:(rewrite ?(mask_small 7) by first [lia | assumption]).

(** Splits a small operand into its values. *)
Lemma bits_seqZ n x : bits n x -> x ∈ seqZ 0 (2 ^ n).
Proof. unfold bits. intros. apply elem_of_seqZ. lia. Qed.

Ltac enumerate H :=
  apply bits_seqZ in H; cbv in H;
  repeat (apply elem_of_cons in H as [->|H]); [..|by apply elem_of_nil in H].

Ltac explicit_octets :=
  repeat match goal with H : Forall _ (_ :: _) |- _ => apply Forall_cons_1 in H as [? H] end.

(** Runs a codec on an octet string, one length after the other. *)
Ltac text_codec s tac :=
  repeat (destruct s as [|? s];
    [cbn [app length] in *; explicit_octets; codec_finish tac
    |try (exfalso; cbn [length] in *; lia)]).
