(* ===== verification/CecProps.v ===== *)
(** * CEC: every message comes back as it was sent

    The builders and readers of [linux/cec-funcs.h] are inverse to each other
    on operands that fit, the opcodes tell the messages apart, and a message
    that cannot be handled is answered to its sender.  Where the header falls
    short of that is stated at the end. *)
From S2P Require Import Prelude CecConst Cec CecFuncs CecCodec CecRun.

(** ** Messages whose operands are plain fields *)
Lemma plain_roundtrips : Forall roundtrips plain_codecs.
Proof. repeat (apply Forall_cons_2; [solve [plain_codec]|]). apply Forall_nil_2. Qed.

(** ** Texts and lists *)
Lemma chars_terminated n s : chars n s -> cstring (s ++ [0]) = Some s.
Proof. intros [_ Hz]. by apply cstring_app. Qed.

Ltac chars_codec :=
  codec_start; operands;
  match goal with Hw : chars _ ?s |- _ =>
    let Hs := fresh "Hs" in
    pose proof (chars_terminated _ _ Hw) as Hs; destruct Hw as [[? ?] _];
    text_codec s ltac:(rewrite ?Hs)
  end.

Lemma set_timer_program_title_ok : roundtrips set_timer_program_title_codec.
Proof. chars_codec. Qed.
Lemma set_osd_name_ok : roundtrips set_osd_name_codec.
Proof. chars_codec. Qed.
Lemma set_osd_string_ok : roundtrips set_osd_string_codec.
Proof. chars_codec. Qed.

Lemma set_menu_language_ok : roundtrips set_menu_language_codec.
Proof. codec_start; operands; codec_finish none. Qed.

Ltac octets_codec :=
  codec_start; operands;
  match goal with Hw : text _ ?s |- _ => destruct Hw as [? ?]; text_codec s none end.

Lemma vendor_command_ok : roundtrips vendor_command_codec.
Proof. octets_codec. Qed.
Lemma vendor_command_with_id_ok : roundtrips vendor_command_with_id_codec.
Proof. octets_codec. Qed.
Lemma vendor_remote_button_down_ok : roundtrips vendor_remote_button_down_codec.
Proof. octets_codec. Qed.

Lemma report_short_audio_descriptor_ok : roundtrips report_short_audio_descriptor_codec.
Proof. codec_start; destruct Hw as [Hd Hl]; text_codec a none. Qed.

Lemma request_short_audio_descriptor_ok : roundtrips request_short_audio_descriptor_codec.
Proof.
  codec_start; destruct Hw as [Hd Hl];
    repeat (destruct a as [|[? ?] a];
      [cbn [length] in *; explicit_octets; cbn [fst snd] in *; operands;
       codec_finish ltac:(rewrite ?(mask_small 6) by first [lia | assumption])
      |try (exfalso; cbn [length] in *; lia)]).
Qed.

(** ** Messages with optional parts *)
Lemma system_audio_mode_request_ok : roundtrips system_audio_mode_request_codec.
Proof.
  codec_start; (destruct (a =? 65535) eqn:Ea; [apply Z.eqb_eq in Ea; subst a|]);
    codec_finish ltac:(rewrite ?Ea).
Qed.

Lemma ext_clear rc : bits 7 rc -> Z.land (u8 rc) 128 = 0.
Proof.
  intros Hrc. apply Z.eqb_eq. revert rc Hrc. refine (forallb_seqZ _ 0 128 _). vm_compute. done.
Qed.

Lemma report_features_ok : roundtrips report_features_codec.
Proof. codec_start; operands; codec_finish ltac:(rewrite ?ext_clear by assumption). Qed.

Lemma latency_fields low comp : bits 1 low -> bits 2 comp ->
  let b := u8 (Z.lor (Z.shiftl low 2) comp) in
  Z.land (Z.shiftr b 2) 1 = low /\ Z.land b 3 = comp.
Proof. intros Hl Hc. enumerate Hl; enumerate Hc; by vm_compute. Qed.

Lemma report_current_latency_ok : roundtrips report_current_latency_codec.
Proof.
  codec_start; operands;
    match goal with Hl : bits 1 ?l, Hc : bits 2 ?c |- _ =>
      destruct (latency_fields l c Hl Hc) as [El Em];
      assert (u8 c = c) as Eu by (apply u8_small; unfold bits in *; lia);
      destruct (c =? 3) eqn:Ec; operands; subst;
      codec_finish ltac:(rewrite ?Em, ?El, ?Eu, ?Ec)
    end.
Qed.

Lemma hec_fields h s e : bits 2 h -> bits 2 s -> bits 2 e ->
  let b := u8 (Z.lor (Z.lor (Z.lor (Z.shiftl h 6) (Z.shiftl s 4)) (Z.shiftl s 2)) e) in
  u8 (Z.shiftr b 6) = h /\ u8 (Z.land (Z.shiftr b 4) 3) = s /\ u8 (Z.land b 3) = e.
Proof. intros Hh Hs He. enumerate Hh; enumerate Hs; enumerate He; by vm_compute. Qed.

Lemma cdc_hec_report_state_ok : roundtrips cdc_hec_report_state_codec.
Proof.
  codec_start; destruct a as [[[[[[tg h] s'] e'] e] hf] fd];
    destruct (Z.eq_dec s' e') as [<-|Hse]; try (by destruct Hn; constructor);
    destruct Hw as (Ht & Hh & Hs & _ & He & Hf);
    destruct (hec_fields h s' e Hh Hs He) as (E1 & E2 & E3);
    destruct Hf as [[-> ->]|[-> Hf]]; codec_finish ltac:(rewrite ?E1, ?E2, ?E3).
Qed.

(** How many of the optional addresses there are. *)
Lemma optional_addresses x y z :
  (x = 65535 -> y = 65535) -> (y = 65535 -> z = 65535) ->
  (x = 65535 /\ y = 65535 /\ z = 65535) \/
  ((x =? 65535) = false /\ y = 65535 /\ z = 65535) \/
  ((x =? 65535) = false /\ (y =? 65535) = false /\ z = 65535) \/
  ((x =? 65535) = false /\ (y =? 65535) = false /\ (z =? 65535) = false).
Proof. rewrite !Z.eqb_neq. lia. Qed.

(** What [cec_msg_cdc_hec_set_state] sends is read back by its own reader, but
    names the state inquiry. *)
Lemma cdc_hec_set_state_sent r a m i d :
  frame m -> cwf cdc_hec_set_state_codec a -> header m = Some (i, d) ->
  comes_back cdc_hec_set_state_codec (Some CEC_MSG_CDC_HEC_INQUIRE_STATE) r a m i d.
Proof.
  intros Hf Hw. generalize I. revert r a m i d Hf Hw.
  codec_start; operands;
    match goal with H1 : ?x = 65535 -> ?y = 65535, H2 : ?y = 65535 -> ?z = 65535 |- _ =>
      destruct (optional_addresses x y z H1 H2) as [C|[C|[C|C]]]; clear H1 H2;
      destruct C as (Ex & Ey & Ez); subst; codec_finish ltac:(rewrite ?Ex, ?Ey, ?Ez)
    end.
Qed.

Lemma cdc_hec_set_state_ok : roundtrips cdc_hec_set_state_codec.
Proof. intros r a m i d _ _ []. constructor. Qed.

Lemma timer_fields w m x flag : bits 1 w -> bits 2 m -> bits 4 x -> flag = 0 \/ flag = 16 ->
  let b := u8 (Z.lor (Z.lor (Z.lor (Z.shiftl w 7) (Z.shiftl m 5)) flag) x) in
  u8 (Z.shiftr b 7) = w /\ u8 (Z.land (Z.shiftr b 5) 3) = m /\
  Z.land b 16 = flag /\ u8 (Z.land b 15) = x.
Proof.
  intros Hw Hm Hx [-> | ->]; enumerate Hw; enumerate Hm; enumerate Hx; by vm_compute.
Qed.

(** The program infos and errors, with and without durations. *)
Lemma timer_cases info err (P Q : Prop) :
  info = 0 \/ err = 0 -> (if timer_durations info err then P else Q) ->
  (info = 0 /\ err = 14 /\ P) \/ (info = 0 /\ (err =? 14) = false /\ Q) \/
  (err = 0 /\ (info = 9 \/ info = 11) /\ P) \/
  (err = 0 /\ (info =? 0) = false /\ (info =? 9) = false /\ (info =? 11) = false /\ Q).
Proof.
  unfold timer_durations, CEC_OP_PROG_INFO_NOT_ENOUGH_SPACE,
    CEC_OP_PROG_INFO_MIGHT_NOT_BE_ENOUGH_SPACE, CEC_OP_PROG_ERROR_DUPLICATE.
  destruct (Z.eqb_spec info 0), (Z.eqb_spec info 9), (Z.eqb_spec info 11), (Z.eqb_spec err 14);
    simpl; intros [?|?] ?; subst; intuition lia.
Qed.

Lemma timer_status_ok : roundtrips timer_status_codec.
Proof.
  codec_start; destruct a as [[[[[w me] info] err] hr] mn];
    destruct Hw as (H1 & H2 & H3 & H4 & Hz & Hd);
    destruct (timer_fields w me err 0 H1 H2 H4 (or_introl eq_refl)) as (E1 & E2 & E3 & E4);
    destruct (timer_fields w me info 16 H1 H2 H3 (or_intror eq_refl)) as (F1 & F2 & F3 & F4);
    apply (timer_cases _ _ _ _ Hz) in Hd as
      [(-> & -> & ?)|[(-> & E5 & ?)|[(-> & [-> | ->] & ?)|(-> & E5 & E6 & E7 & ?)]]];
    operands; subst;
    codec_finish ltac:(rewrite ?E1, ?E2, ?E3, ?E4, ?F1, ?F2, ?F3, ?F4;
                       rewrite ?E5; try rewrite E6; try rewrite E7).
Qed.

(** ** Services and remote control buttons *)
Lemma channel_fields fmt maj : bits 6 fmt -> bits 8 maj ->
  let b := u8 (Z.lor (Z.shiftl fmt 2) (Z.shiftr maj 8)) in
  u8 (Z.shiftr b 2) = fmt /\
  u16 (Z.lor (Z.shiftl (Z.land b 3) 6) (u8 (Z.land maj 255))) = maj /\
  Z.land fmt 255 = fmt.
Proof.
  intros Hf Hm b. unfold b.
  assert (Z.shiftr maj 8 = 0) as ->.
  { unfold bits in Hm. rewrite Z.shiftr_div_pow2 by lia. divlia. }
  split; [by apply (field_hi 2)|]. split; [|apply (mask_small 8); unfold bits in *; lia].
  unfold bits in *.
  assert (Z.land (u8 (Z.lor (Z.shiftl fmt 2) 0)) 3 = 0) as ->.
  { rewrite (land_mask 2), Z.lor_0_r, Z.shiftl_mul_pow2 by lia. unfold u8, wrap. divlia. }
  rewrite (mask_small 8) by (unfold bits; lia). rewrite u8_small by lia.
  apply u16_small. simpl. lia.
Qed.

(** The three forms of a service identification. *)
Lemma digital_cases d : digital_wf d -> ~ wide_service d ->
  (exists sys fmt maj min, d = DigitalServiceId 1 sys fmt maj min /\
     bits 7 sys /\ bits 6 fmt /\ bits 8 maj /\ bits 16 min) \/
  (exists sys x y, d = DigitalServiceId 0 sys x y 0 /\ atsc_system sys = true /\
     bits 7 sys /\ bits 16 x /\ bits 16 y) \/
  (exists sys x y z, d = DigitalServiceId 0 sys x y z /\ atsc_system sys = false /\
     bits 7 sys /\ bits 16 x /\ bits 16 y /\ bits 16 z).
Proof.
  destruct d as [md sys x y z].
  unfold digital_wf, wide_service, CEC_OP_SERVICE_ID_METHOD_BY_CHANNEL. cbn.
  intros (Hm & Hs & H) Hn. assert (md = 0 \/ md = 1) as [-> | ->] by (unfold bits in Hm; lia); cbn in H.
  - right. destruct (atsc_system sys) eqn:E; destruct H as (Hx & Hy & Hz).
    + left. subst. exists sys, x, y. auto.
    + right. exists sys, x, y, z. auto 7.
  - left. exists sys, x, y, z. unfold bits in *. intuition lia.
Qed.

(** Runs a codec that carries a digital service the readers can handle, one
    that carries one kind of service or none. *)
Ltac digital_codec Hd :=
  let Hwide := fresh "Hwide" in
  match goal with Hn : ~ mishandled _ _ |- _ =>
    match type of Hd with digital_wf ?dg =>
      assert (~ wide_service dg) as Hwide by (intros ?; apply Hn; constructor; assumption)
    end
  end;
  let E1 := fresh "E1" in let E2 := fresh "E2" in let E3 := fresh "E3" in let E4 := fresh "E4" in
  apply digital_cases in Hd; [|exact Hwide]; destruct Hd as
    [(sys & fmt & maj & ? & -> & Hs & Hf & Hm & ?)|
     [(sys & ? & ? & -> & Ha & Hs & ? & ?)|
      (sys & ? & ? & ? & -> & Ha & Hs & ? & ? & ?)]];
  [ destruct (channel_fields fmt maj Hf Hm) as (E1 & E2 & E3);
    pose proof (field_hi 7 1 sys ltac:(lia) ltac:(done) Hs) as E4
  | pose proof (eq_refl 0) as E1; pose proof (eq_refl 0) as E2;
    cbv -[Z.eqb] in Ha; rename Ha into E3;
    pose proof (field_hi 7 0 sys ltac:(lia) ltac:(done) Hs) as E4 ..];
  codec_finish ltac:(try rewrite E1; try rewrite E2; try rewrite E3; try rewrite E4;
                     try match goal with |- context [Z.lor (Z.land 0 65280) ?v] =>
                           change (Z.lor (Z.land 0 65280) v) with v end).

Ltac service_codec :=
  lazymatch goal with
  | H : digital_wf _ |- _ => digital_codec H
  | H : analog_wf ?an |- _ =>
      destruct an; unfold analog_wf in H; cbn in H; operands; codec_finish none
  | _ => codec_finish none
  end.

Lemma select_digital_service_ok : roundtrips select_digital_service_codec.
Proof. codec_start; service_codec. Qed.
Lemma clear_digital_timer_ok : roundtrips clear_digital_timer_codec.
Proof. codec_start; operands; service_codec. Qed.
Lemma set_digital_timer_ok : roundtrips set_digital_timer_codec.
Proof. codec_start; operands; service_codec. Qed.

Lemma tuner_device_status_ok : roundtrips tuner_device_status_codec.
Proof.
  codec_start; destruct a as [rec disp ana dg an];
    destruct Hw as (Hr & Hdp & [(-> & Hd & ->)|(-> & -> & Hd)]); service_codec.
Qed.

Lemma record_on_ok : roundtrips record_on_codec.
Proof.
  codec_start; destruct a as [ty dg an pl pa]; unfold record_src_wf in Hw;
    decompose [or] Hw; clear Hw; operands; subst; service_codec.
Qed.

Lemma one_byte_cases c : ui_one_byte c = true ->
  c = 0x56 \/ c = 0x57 \/ c = 0x60 \/ c = 0x68 \/ c = 0x69 \/ c = 0x6a.
Proof. unfold ui_one_byte. lia. Qed.

Lemma user_control_pressed_ok : roundtrips user_control_pressed_codec.
Proof.
  codec_start; destruct a as [cmd arg [fmt maj mn] pm];
    destruct Hw as (Hc & [Hw|[Hw|Hw]]); operands; subst;
    lazymatch goal with
    | H : ui_one_byte _ = true |- _ =>
        decompose [or] (one_byte_cases _ H); subst; codec_finish none
    | H1 : bits 6 ?fmt, H2 : bits 10 ?maj |- _ =>
        destruct (Z.lt_ge_cases maj 256) as [Hlt|Hge]; [|by destruct Hn; constructor];
        assert (bits 8 maj) as H8 by (unfold bits in *; lia); clear H2;
        destruct (channel_fields fmt maj H1 H8) as (E1 & E2 & E3);
        codec_finish ltac:(try rewrite E1; try rewrite E2)
    | _ => codec_finish none
    end.
Qed.

#[local] Hint Resolve set_timer_program_title_ok set_osd_name_ok set_osd_string_ok
  set_menu_language_ok vendor_command_ok vendor_command_with_id_ok vendor_remote_button_down_ok
  report_short_audio_descriptor_ok request_short_audio_descriptor_ok
  system_audio_mode_request_ok report_features_ok report_current_latency_ok
  cdc_hec_report_state_ok cdc_hec_set_state_ok timer_status_ok select_digital_service_ok
  clear_digital_timer_ok set_digital_timer_ok tuner_device_status_ok record_on_ok
  user_control_pressed_ok : core.

Lemma compound_roundtrips : Forall roundtrips compound_codecs.
Proof. repeat (apply Forall_cons_2; [auto 1|]). apply Forall_nil_2. Qed.

(** ** The properties *)

(** C39. Every message of the header comes back, whatever the operands its
    fields can hold, those that are [mishandled] excepted: the message
    [cec_msg_cdc_hec_set_state], an HEC state report whose host and ENC states
    differ, and a message that names a channel with a major number of 256 or
    more.  The builder succeeds on any frame, the reader returns the operands,
    the opcode (and the CDC opcode) are the message's, the length is between 2
    and 16, the initiator is kept, a broadcast message goes to address 15 and
    any other to the destination it had, and the awaited reply is the one of
    the message.  (Members that the message does not carry are zero, texts are
    no longer than the frame holds, and the features of a features report are
    one octet each.) *)
Theorem cec_messages_roundtrip (c : codec) (r : Z) (a : cargs c) (m : cec_msg) (i d : Z) :
  c ∈ codecs -> frame m -> cwf c a -> ~ mishandled c a -> header m = Some (i, d) ->
  exists m', cenc c r a m = Some (tt, m') /\
    cdec c m' = Some (a, m') /\
    cec_msg_opcode m' = Some (cop c, m') /\
    match csub c with Some s => msg m' !! 4%nat = Some s | None => True end /\
    2 <= len m' <= CEC_MAX_MSG_SIZE /\
    header m' = Some (i, if cbroadcast c then CEC_LOG_ADDR_BROADCAST else d) /\
    reply m' = match creply c with Some o => if r =? 0 then 0 else o | None => reply m end /\
    frame m'.
Proof.
  intros Hc. revert r a m i d. change (roundtrips c). revert c Hc. apply Forall_forall.
  apply Forall_app. split; [apply plain_roundtrips|apply compound_roundtrips].
Qed.

Lemma init_frame i d : frame (cec_msg_init i d).
Proof.
  split; [done|]. split; [|split; simpl; lia].
  apply Forall_cons_2; [apply u8_bound|]. apply Forall_replicate. split; lia.
Qed.

(** The messages with a case that is mishandled. *)
Lemma mishandled_ops c a : mishandled c a ->
  cop c ∈ [CEC_MSG_CDC_MESSAGE; CEC_MSG_SELECT_DIGITAL_SERVICE; CEC_MSG_CLEAR_DIGITAL_TIMER;
           CEC_MSG_SET_DIGITAL_TIMER; CEC_MSG_RECORD_ON; CEC_MSG_TUNER_DEVICE_STATUS;
           CEC_MSG_USER_CONTROL_PRESSED].
Proof. intros []; apply (bool_decide_unpack _); vm_compute; exact I. Qed.

Lemma cec_messages_roundtrip_witness :
  exists m', cec_msg_active_source 0x1000 (cec_msg_init 4 0) = Some (tt, m') /\
    cec_ops_active_source m' = Some (0x1000, m') /\ header m' = Some (4, 15).
Proof.
  destruct (cec_messages_roundtrip active_source_codec 0 0x1000 (cec_msg_init 4 0) 4 0)
    as (m' & H1 & H2 & _ & _ & _ & H3 & _).
  - apply elem_of_cons. left. reflexivity.
  - apply init_frame.
  - split; simpl; lia.
  - intros H. apply mishandled_ops in H. revert H. apply (bool_decide_unpack _). exact I.
  - vm_compute. reflexivity.
  - exists m'. split; [exact H1|]. split; [exact H2|exact H3].
Defined.

(** The opcodes a receiver tells the messages apart by. *)
Definition opcodes (c : codec) : Z * option Z := (cop c, csub c).

(** The opcodes identify the message: no two messages of the table share
    theirs.  But [cec_msg_cdc_hec_set_state] sends the CDC opcode of the state
    inquiry in place of its own. *)
Theorem cec_opcodes_identify :
  NoDup (opcodes <$> codecs) /\
  forall r a m i d, frame m -> cwf cdc_hec_set_state_codec a -> header m = Some (i, d) ->
    comes_back cdc_hec_set_state_codec (csub cdc_hec_inquire_state_codec) r a m i d /\
    csub cdc_hec_set_state_codec <> csub cdc_hec_inquire_state_codec.
Proof.
  split; [apply (bool_decide_unpack _); vm_compute; exact I|].
  intros r a m i d Hf Hw Hh. split; [by apply cdc_hec_set_state_sent|done].
Qed.

(** Swapping the two halves of the header octet. *)
Lemma swapped_header b : is_byte b ->
  let h := u8 (Z.lor (Z.shiftl (u8 (Z.land b 15)) 4) (u8 (Z.shiftr b 4))) in
  u8 (Z.shiftr h 4) = u8 (Z.land b 15) /\ u8 (Z.land h 15) = u8 (Z.shiftr b 4).
Proof.
  intros Hb. split; apply Z.eqb_eq;
    revert b Hb; refine (forallb_seqZ _ 0 256 _); vm_compute; reflexivity.
Qed.

(** [cec_msg_reply_feature_abort] answers the message it is given: the
    answer goes from the destination back to the initiator, is a Feature Abort
    that names the opcode of the message and the reason, and waits for nothing. *)
Theorem cec_feature_abort_answers (m : cec_msg) (i d op reason : Z) :
  frame m -> is_byte reason -> header m = Some (i, d) -> cec_msg_opcode m = Some (op, m) ->
  op <> -1 ->
  exists m', cec_msg_reply_feature_abort reason m = Some (tt, m') /\
    header m' = Some (d, i) /\
    cec_msg_opcode m' = Some (CEC_MSG_FEATURE_ABORT, m') /\
    cec_ops_feature_abort m' = Some ((op, reason), m') /\
    reply m' = 0 /\ timeout m' = 0 /\ frame m'.
Proof.
  intros Hf Hre. revert m Hf.
  refine (frame_elim _ _).
  intros ts rs l t s f b0 b1 b2 b3 b4 b5 b6 b7 b8 b9 b10 b11 b12 b13 b14 b15 rp
         rx tx c1 c2 c3 c4 Hbs Hrp Hh Hop Hne.
  destruct (swapped_header b0 (Forall_inv Hbs)) as [E1 E2]. explicit_octets.
  cbv -[u8 Z.shiftr Z.land] in Hh. injection Hh as <- <-.
  assert (b1 = op) as ->.
  { revert Hop Hne. unfold cec_msg_opcode. cbv -[Z.ltb]. destruct (1 <? l); congruence. }
  assert (u8 op = op) as E3 by by apply u8_small.
  encode none. eval_cec ltac:(rewrite ?E1, ?E2, ?E3).
  splits; try reflexivity; try solve [cec_frame]. repeat f_equal. by apply u8_small.
Qed.

Lemma cec_feature_abort_answers_witness :
  exists m', cec_msg_reply_feature_abort CEC_OP_ABORT_UNRECOGNIZED_OP
      (with_len 2 (with_msg (0x40 :: 0x36 :: replicate 14 0) (cec_msg_init 4 0))) = Some (tt, m') /\
    header m' = Some (0, 4) /\ cec_ops_feature_abort m' = Some ((0x36, 0), m').
Proof.
  destruct (cec_feature_abort_answers
    (with_len 2 (with_msg (0x40 :: 0x36 :: replicate 14 0) (cec_msg_init 4 0))) 4 0 0x36 0)
    as (m' & H1 & H2 & _ & H3 & _).
  - split; [reflexivity|]. split; [|split; simpl; lia].
    simpl. repeat (apply Forall_cons_2; [split; lia|]). apply Forall_nil_2.
  - split; lia.
  - vm_compute. reflexivity.
  - vm_compute. reflexivity.
  - lia.
  - exists m'. split; [exact H1|]. split; [exact H2|exact H3].
Defined.

(** What the reader makes of the upper bits of a major channel number. *)
Definition shifted_major (maj : Z) : Z := Z.lor (Z.shiftl (Z.shiftr maj 8) 6) (Z.land maj 255).

Lemma shifted_major_fields fmt maj : bits 6 fmt -> 256 <= maj < 1024 ->
  let b := u8 (Z.lor (Z.shiftl fmt 2) (Z.shiftr maj 8)) in
  u16 (Z.lor (Z.shiftl (Z.land b 3) 6) (u8 (Z.land maj 255))) = shifted_major maj /\
  shifted_major maj <> maj.
Proof.
  intros Hf Hm b. subst b.
  assert (bits 2 (Z.shiftr maj 8)) as H2.
  { unfold bits. rewrite Z.shiftr_div_pow2 by lia. divlia. }
  pose proof (field_lo 2 fmt (Z.shiftr maj 8) ltac:(lia) Hf H2) as E.
  rewrite u8_small in E by (rewrite (land_mask 2) by lia; divlia).
  change (2 ^ 2 - 1) with 3 in E. rewrite E.
  assert (forall x, 256 <= x < 256 + 768 ->
    (u16 (Z.lor (Z.shiftl (Z.shiftr x 8) 6) (u8 (Z.land x 255))) =? shifted_major x) &&
    negb (shifted_major x =? x) = true) as H.
  { refine (forallb_seqZ _ 256 768 _). vm_compute. reflexivity. }
  specialize (H maj ltac:(lia)). apply andb_prop in H as [H1 H3].
  split; [by apply Z.eqb_eq|]. apply Z.eqb_neq. by apply negb_true_iff.
Qed.

(** Two readers lose operands.  A major channel number of 256 or more
    ([major] has ten bits in the frame) comes back with its upper bits in the
    wrong place, because they are shifted by 6 and not by 8; and the ENC state
    of an HEC state report is read from the field of the host state, so that
    the two always agree. *)
Theorem cec_operands_lost (m : cec_msg) (sys fmt maj mn : Z) :
  frame m -> bits 7 sys -> bits 6 fmt -> 256 <= maj < 1024 -> bits 16 mn ->
  (exists m' d, cec_msg_select_digital_service (DigitalServiceId 1 sys fmt maj mn) m =
      Some (tt, m') /\
    cec_ops_select_digital_service no_digital m' = Some (d, m') /\
    major (channel d) = shifted_major maj /\ shifted_major maj <> maj) /\
  (forall pa target hec host enc err has_field field m',
    cec_ops_cdc_hec_report_state m =
      Some ((pa, target, hec, host, enc, err, has_field, field), m') -> enc = host).
Proof.
  intros Hfr Hs Hf Hm Hn. revert m Hfr. refine (frame_elim _ _).
  intros ts rs l t s f b0 b1 b2 b3 b4 b5 b6 b7 b8 b9 b10 b11 b12 b13 b14 b15 rp
         rx tx c1 c2 c3 c4 Hbs Hrp. split.
  - destruct (shifted_major_fields fmt maj Hf Hm) as [E1 E2].
    pose proof (field_hi 7 1 sys ltac:(lia) ltac:(done) Hs) as E4.
    assert (Z.land fmt 255 = fmt) as E3.
    { apply (mask_small 8); [lia|]. unfold bits in *. lia. }
    eexists _, _. split; [eval_cec ltac:(rewrite ?E3); reflexivity|].
    split; [eval_cec ltac:(rewrite ?E4, ?E1); reflexivity|].
    split; [reflexivity|exact E2].
  - intros pa target hec host enc err has_field field m'.
    cbv -[u8 u16 Z.lor Z.land Z.shiftl Z.shiftr Z.leb].
    destruct (10 <=? l); intros [= <-]; congruence.
Qed.

Lemma cec_operands_lost_witness :
  exists m' d, cec_msg_select_digital_service (DigitalServiceId 1 0 1 300 2) (cec_msg_init 4 0) =
      Some (tt, m') /\
    cec_ops_select_digital_service no_digital m' = Some (d, m') /\ major (channel d) = 108.
Proof.
  destruct (cec_operands_lost (cec_msg_init 4 0) 0 1 300 2) as [(m' & d & H1 & H2 & H3 & _) _].
  - apply init_frame.
  - split; simpl; lia.
  - split; simpl; lia.
  - lia.
  - split; simpl; lia.
  - exists m', d. split; [exact H1|]. split; [exact H2|exact H3].
Defined.
