(* ===== verification/Endian.v ===== *)
(** * Byte order

    The byte swapping of the sysroot: [linux/swab.h] with the ARM routine of
    [asm/swab.h], and the byte stream encoders and decoders of
    [bsd/sys/endian.h].  A function that takes a pointer to a word takes the
    word; one that swaps in place returns the new word.  A stream is a list of
    octets, and an access past its end is [None]. *)
From S2P Require Import Prelude.

Definition u64 (z : Z) : Z := wrap 64 z.
#[global] Arguments u64 : simpl never.

(** ** linux/swab.h *)
Definition ___constant_swab16 (x : Z) : Z :=
  u16 (Z.lor (Z.shiftl (Z.land (u16 x) 0x00ff) 8) (Z.shiftr (Z.land (u16 x) 0xff00) 8)).

Definition ___constant_swab32 (x : Z) : Z :=
  u32 (Z.lor (Z.lor (Z.lor
    (Z.shiftl (Z.land (u32 x) 0x000000ff) 24)
    (Z.shiftl (Z.land (u32 x) 0x0000ff00) 8))
    (Z.shiftr (Z.land (u32 x) 0x00ff0000) 8))
    (Z.shiftr (Z.land (u32 x) 0xff000000) 24)).

Definition ___constant_swab64 (x : Z) : Z :=
  u64 (Z.lor (Z.lor (Z.lor (Z.lor (Z.lor (Z.lor (Z.lor
    (Z.shiftl (Z.land (u64 x) 0x00000000000000ff) 56)
    (Z.shiftl (Z.land (u64 x) 0x000000000000ff00) 40))
    (Z.shiftl (Z.land (u64 x) 0x0000000000ff0000) 24))
    (Z.shiftl (Z.land (u64 x) 0x00000000ff000000) 8))
    (Z.shiftr (Z.land (u64 x) 0x000000ff00000000) 8))
    (Z.shiftr (Z.land (u64 x) 0x0000ff0000000000) 24))
    (Z.shiftr (Z.land (u64 x) 0x00ff000000000000) 40))
    (Z.shiftr (Z.land (u64 x) 0xff00000000000000) 56)).

Definition ___constant_swahw32 (x : Z) : Z :=
  u32 (Z.lor (Z.shiftl (Z.land (u32 x) 0x0000ffff) 16) (Z.shiftr (Z.land (u32 x) 0xffff0000) 16)).

Definition ___constant_swahb32 (x : Z) : Z :=
  u32 (Z.lor (Z.shiftl (Z.land (u32 x) 0x00ff00ff) 8) (Z.shiftr (Z.land (u32 x) 0xff00ff00) 8)).

(** asm/swab.h: the exclusive-or trick of the ARM ([t] is [x] xor [x] rotated
    by 16, by the assembly or by the expression). *)
Definition __arch_swab32 (x : Z) : Z :=
  let t := Z.lxor x (u32 (Z.lor (Z.shiftl x 16) (Z.shiftr x 16))) in
  let x := u32 (Z.lor (Z.shiftl x 24) (Z.shiftr x 8)) in
  let t := Z.ldiff t 0x00ff0000 in
  Z.lxor x (Z.shiftr t 8).

Definition __fswab16 (val : Z) : Z := ___constant_swab16 val.
Definition __fswab32 (val : Z) : Z := __arch_swab32 val.
Definition __fswahw32 (val : Z) : Z := ___constant_swahw32 val.
Definition __fswahb32 (val : Z) : Z := ___constant_swahb32 val.

Section swab.
  (** Which arguments the compiler folds, and whether [__SWAB_64_THRU_32__] is
      defined (it is unless the compiler is in strict mode). *)
  Context (builtin_constant_p : Z -> bool) (swab_64_thru_32 : bool).

Definition __fswab64 (val : Z) : Z :=
  if swab_64_thru_32 then
    let h := u32 (Z.shiftr val 32) in
    let l := u32 (Z.land val (2 ^ 32 - 1)) in
    Z.lor (u64 (Z.shiftl (__fswab32 l) 32)) (__fswab32 h)
  else ___constant_swab64 val.

Definition __swab16 (x : Z) : Z :=
  if builtin_constant_p (u16 x) then ___constant_swab16 x else __fswab16 (u16 x).
Definition __swab32 (x : Z) : Z :=
  if builtin_constant_p (u32 x) then ___constant_swab32 x else __fswab32 (u32 x).
Definition __swab64 (x : Z) : Z :=
  if builtin_constant_p (u64 x) then ___constant_swab64 x else __fswab64 (u64 x).
Definition __swahw32 (x : Z) : Z :=
  if builtin_constant_p (u32 x) then ___constant_swahw32 x else __fswahw32 (u32 x).
Definition __swahb32 (x : Z) : Z :=
  if builtin_constant_p (u32 x) then ___constant_swahb32 x else __fswahb32 (u32 x).

Definition __swab16p (p : Z) : Z := __swab16 p.
Definition __swab32p (p : Z) : Z := __swab32 p.
Definition __swab64p (p : Z) : Z := __swab64 p.
Definition __swahw32p (p : Z) : Z := __swahw32 p.
Definition __swahb32p (p : Z) : Z := __swahb32 p.

Definition __swab16s (p : Z) : Z := __swab16p p.
Definition __swab32s (p : Z) : Z := __swab32p p.
Definition __swab64s (p : Z) : Z := __swab64p p.
Definition __swahw32s (p : Z) : Z := __swahw32p p.
Definition __swahb32s (p : Z) : Z := __swahb32p p.

End swab.

(** ** bsd/sys/endian.h *)
Definition be16dec (pp : list Z) : option Z :=
  match pp with
  | p0 :: p1 :: _ => Some (u16 (Z.lor (Z.shiftl p0 8) p1))
  | _ => None
  end.
Definition be32dec (pp : list Z) : option Z :=
  match pp with
  | p0 :: p1 :: p2 :: p3 :: _ =>
      Some (u32 (Z.lor (Z.lor (Z.lor (Z.shiftl p0 24) (Z.shiftl p1 16)) (Z.shiftl p2 8)) p3))
  | _ => None
  end.
Definition be64dec (pp : list Z) : option Z :=
  hi ← be32dec pp; lo ← be32dec (drop 4 pp); Some (Z.lor (u64 (Z.shiftl hi 32)) lo).

Definition le16dec (pp : list Z) : option Z :=
  match pp with
  | p0 :: p1 :: _ => Some (u16 (Z.lor (Z.shiftl p1 8) p0))
  | _ => None
  end.
Definition le32dec (pp : list Z) : option Z :=
  match pp with
  | p0 :: p1 :: p2 :: p3 :: _ =>
      Some (u32 (Z.lor (Z.lor (Z.lor (Z.shiftl p3 24) (Z.shiftl p2 16)) (Z.shiftl p1 8)) p0))
  | _ => None
  end.
Definition le64dec (pp : list Z) : option Z :=
  hi ← le32dec (drop 4 pp); lo ← le32dec pp; Some (Z.lor (u64 (Z.shiftl hi 32)) lo).

Definition be16enc (pp : list Z) (u : Z) : option (list Z) :=
  match pp with
  | _ :: _ :: r => Some (Z.land (Z.shiftr u 8) 0xff :: Z.land u 0xff :: r)
  | _ => None
  end.
Definition be32enc (pp : list Z) (u : Z) : option (list Z) :=
  match pp with
  | _ :: _ :: _ :: _ :: r =>
      Some (Z.land (Z.shiftr u 24) 0xff :: Z.land (Z.shiftr u 16) 0xff ::
            Z.land (Z.shiftr u 8) 0xff :: Z.land u 0xff :: r)
  | _ => None
  end.
(** The second call writes from the fourth octet on. *)
Definition be64enc (pp : list Z) (u : Z) : option (list Z) :=
  pp ← be32enc pp (u32 (Z.shiftr u 32));
  r ← be32enc (drop 4 pp) (u32 (Z.land u 0xffffffff)); Some (take 4 pp ++ r).

Definition le16enc (pp : list Z) (u : Z) : option (list Z) :=
  match pp with
  | _ :: _ :: r => Some (Z.land u 0xff :: Z.land (Z.shiftr u 8) 0xff :: r)
  | _ => None
  end.
Definition le32enc (pp : list Z) (u : Z) : option (list Z) :=
  match pp with
  | _ :: _ :: _ :: _ :: r =>
      Some (Z.land u 0xff :: Z.land (Z.shiftr u 8) 0xff ::
            Z.land (Z.shiftr u 16) 0xff :: Z.land (Z.shiftr u 24) 0xff :: r)
  | _ => None
  end.
Definition le64enc (pp : list Z) (u : Z) : option (list Z) :=
  pp ← le32enc pp (u32 (Z.land u 0xffffffff));
  r ← le32enc (drop 4 pp) (u32 (Z.shiftr u 32)); Some (take 4 pp ++ r).
