(* ===== verification/LittleEndian.v ===== *)
(** * linux/byteorder/little_endian.h

    The conversions of a little-endian processor.  Those to and from little
    endian are casts; a function that takes a pointer takes the word, and one
    that converts in place returns the new word. *)
From S2P Require Import Prelude Endian.

Section conversions.
  Context (builtin_constant_p : Z -> bool) (swab_64_thru_32 : bool).

Definition __constant_htonl (x : Z) : Z := ___constant_swab32 x.
Definition __constant_ntohl (x : Z) : Z := ___constant_swab32 x.
Definition __constant_htons (x : Z) : Z := ___constant_swab16 x.
Definition __constant_ntohs (x : Z) : Z := ___constant_swab16 x.
Definition __constant_cpu_to_le64 (x : Z) : Z := u64 x.
Definition __constant_le64_to_cpu (x : Z) : Z := u64 x.
Definition __constant_cpu_to_le32 (x : Z) : Z := u32 x.
Definition __constant_le32_to_cpu (x : Z) : Z := u32 x.
Definition __constant_cpu_to_le16 (x : Z) : Z := u16 x.
Definition __constant_le16_to_cpu (x : Z) : Z := u16 x.
Definition __constant_cpu_to_be64 (x : Z) : Z := ___constant_swab64 x.
Definition __constant_be64_to_cpu (x : Z) : Z := ___constant_swab64 x.
Definition __constant_cpu_to_be32 (x : Z) : Z := ___constant_swab32 x.
Definition __constant_be32_to_cpu (x : Z) : Z := ___constant_swab32 x.
Definition __constant_cpu_to_be16 (x : Z) : Z := ___constant_swab16 x.
Definition __constant_be16_to_cpu (x : Z) : Z := ___constant_swab16 x.
Definition __cpu_to_le64 (x : Z) : Z := u64 x.
Definition __le64_to_cpu (x : Z) : Z := u64 x.
Definition __cpu_to_le32 (x : Z) : Z := u32 x.
Definition __le32_to_cpu (x : Z) : Z := u32 x.
Definition __cpu_to_le16 (x : Z) : Z := u16 x.
Definition __le16_to_cpu (x : Z) : Z := u16 x.
Definition __cpu_to_be64 (x : Z) : Z := __swab64 builtin_constant_p swab_64_thru_32 x.
Definition __be64_to_cpu (x : Z) : Z := __swab64 builtin_constant_p swab_64_thru_32 x.
Definition __cpu_to_be32 (x : Z) : Z := __swab32 builtin_constant_p x.
Definition __be32_to_cpu (x : Z) : Z := __swab32 builtin_constant_p x.
Definition __cpu_to_be16 (x : Z) : Z := __swab16 builtin_constant_p x.
Definition __be16_to_cpu (x : Z) : Z := __swab16 builtin_constant_p x.
Definition __cpu_to_le64p (p : Z) : Z := u64 p.
Definition __le64_to_cpup (p : Z) : Z := u64 p.
Definition __cpu_to_le32p (p : Z) : Z := u32 p.
Definition __le32_to_cpup (p : Z) : Z := u32 p.
Definition __cpu_to_le16p (p : Z) : Z := u16 p.
Definition __le16_to_cpup (p : Z) : Z := u16 p.
Definition __cpu_to_be64p (p : Z) : Z := __swab64p builtin_constant_p swab_64_thru_32 p.
Definition __be64_to_cpup (p : Z) : Z := __swab64p builtin_constant_p swab_64_thru_32 p.
Definition __cpu_to_be32p (p : Z) : Z := __swab32p builtin_constant_p p.
Definition __be32_to_cpup (p : Z) : Z := __swab32p builtin_constant_p p.
Definition __cpu_to_be16p (p : Z) : Z := __swab16p builtin_constant_p p.
Definition __be16_to_cpup (p : Z) : Z := __swab16p builtin_constant_p p.
Definition __cpu_to_le64s (x : Z) : Z := x.
Definition __le64_to_cpus (x : Z) : Z := x.
Definition __cpu_to_le32s (x : Z) : Z := x.
Definition __le32_to_cpus (x : Z) : Z := x.
Definition __cpu_to_le16s (x : Z) : Z := x.
Definition __le16_to_cpus (x : Z) : Z := x.
Definition __cpu_to_be64s (x : Z) : Z := __swab64s builtin_constant_p swab_64_thru_32 x.
Definition __be64_to_cpus (x : Z) : Z := __swab64s builtin_constant_p swab_64_thru_32 x.
Definition __cpu_to_be32s (x : Z) : Z := __swab32s builtin_constant_p x.
Definition __be32_to_cpus (x : Z) : Z := __swab32s builtin_constant_p x.
Definition __cpu_to_be16s (x : Z) : Z := __swab16s builtin_constant_p x.
Definition __be16_to_cpus (x : Z) : Z := __swab16s builtin_constant_p x.
End conversions.
