(* ===== verification/EndianProps.v ===== *)
(** * Byte order: the octets of words, streams and conversions

    Words are compared octet by octet: [octet i x] commutes with the bitwise
    operators and with shifts by whole octets, so that an expression of masks
    and shifts is evaluated at a constant index. *)
From S2P Require Import Prelude Endian LittleEndian BigEndian.

(** ** Octets of a word *)
Definition octet (i x : Z) : Z := Z.land (Z.shiftr x (8 * i)) 255.

Lemma testbit_octet i x k : 0 <= i -> 0 <= k -> 
  Z.testbit (octet i x) k = (k <? 8) && Z.testbit x (8 * i + k).
Proof.
  intros. unfold octet. change 255 with (Z.ones 8).
  rewrite Z.land_spec, Z.shiftr_spec, Z.testbit_ones_nonneg by lia.
  rewrite andb_comm. do 2 f_equal. lia.
Qed.

Lemma octet_bound i x : is_byte (octet i x).
Proof.
  unfold octet, is_byte. change 255 with (Z.ones 8). rewrite Z.land_ones by lia.
  apply Z.mod_pos_bound. lia.
Qed.

Lemma octets_ext n x y : 0 <= x < 2 ^ (8 * n) -> 0 <= y < 2 ^ (8 * n) -> 0 <= n ->
  (forall i, 0 <= i < n -> octet i x = octet i y) -> x = y.
Proof.
  intros Hx Hy Hn H. apply Z.bits_inj'. intros k Hk.
  destruct (Z.ltb_spec k (8 * n)) as [Hlt|Hge];
    [|by rewrite !(testbit_above (8 * n)) by lia].
  assert (0 <= k / 8 < n) as Hi by (Z.to_euclidean_division_equations; lia).
  pose proof (Z.mod_pos_bound k 8 ltac:(lia)) as Hm.
  pose proof (f_equal (fun z => Z.testbit z (k mod 8)) (H _ Hi)) as E. simpl in E.
  rewrite !testbit_octet in E by lia. rewrite <-(Z.div_mod k 8) in E by lia.
  replace (k mod 8 <? 8) with true in E by lia. exact E.
Qed.

(** The octets of the operators on words. *)
Ltac octet_bits :=
  apply Z.bits_inj'; intros ?k ?Hk;
  rewrite ?Z.land_spec, ?Z.lor_spec, ?Z.lxor_spec, ?Z.ldiff_spec, ?testbit_octet by lia;
  rewrite ?Z.land_spec, ?Z.lor_spec, ?Z.lxor_spec, ?Z.ldiff_spec by lia.

Lemma octet_lor i x y : 0 <= i -> octet i (Z.lor x y) = Z.lor (octet i x) (octet i y).
Proof. intros. octet_bits. by destruct (k <? 8). Qed.
Lemma octet_land i x y : 0 <= i -> octet i (Z.land x y) = Z.land (octet i x) (octet i y).
Proof. intros. octet_bits. by destruct (k <? 8). Qed.
Lemma octet_lxor i x y : 0 <= i -> octet i (Z.lxor x y) = Z.lxor (octet i x) (octet i y).
Proof. intros. octet_bits. by destruct (k <? 8). Qed.
Lemma octet_ldiff i x y : 0 <= i -> octet i (Z.ldiff x y) = Z.ldiff (octet i x) (octet i y).
Proof. intros. octet_bits. by destruct (k <? 8). Qed.

Lemma octet_shiftr i x s : 0 <= i -> 0 <= s -> s mod 8 = 0 ->
  octet i (Z.shiftr x s) = octet (i + s / 8) x.
Proof.
  intros. pose proof (Z.div_mod s 8 ltac:(lia)). pose proof (Z.div_pos s 8 ltac:(lia) ltac:(lia)).
  octet_bits.
  rewrite Z.shiftr_spec by lia. do 2 f_equal. lia.
Qed.

Lemma octet_shiftl i x s : 0 <= i -> 0 <= s -> s mod 8 = 0 ->
  octet i (Z.shiftl x s) = if i <? s / 8 then 0 else octet (i - s / 8) x.
Proof.
  intros. pose proof (Z.div_mod s 8 ltac:(lia)). destruct (Z.ltb_spec i (s / 8)).
  - apply Z.bits_inj'. intros k Hk. rewrite testbit_octet, Z.bits_0 by lia.
    destruct (Z.ltb_spec k 8); [|done]. rewrite Z.shiftl_spec_low; [done|lia].
  - octet_bits. destruct (Z.ltb_spec k 8); [|done].
    rewrite Z.shiftl_spec by lia. apply (f_equal (Z.testbit x)). lia.
Qed.

Lemma octet_wrap i w x : 0 <= i -> 0 <= w -> w mod 8 = 0 ->
  octet i (wrap w x) = if i <? w / 8 then octet i x else 0.
Proof.
  intros. pose proof (Z.div_mod w 8 ltac:(lia)). destruct (Z.ltb_spec i (w / 8)).
  - octet_bits. rewrite testbit_wrap by lia. destruct (Z.ltb_spec k 8); [|done].
    by replace (8 * i + k <? w) with true by lia.
  - apply Z.bits_inj'. intros k Hk. rewrite testbit_octet, testbit_wrap, Z.bits_0 by lia.
    replace (8 * i + k <? w) with false by lia. by rewrite andb_false_r.
Qed.

Lemma octet_above n i x : 0 <= x < 2 ^ (8 * n) -> 0 <= n <= i -> octet i x = 0.
Proof.
  intros Hx Hi. rewrite <-(wrap_small (8 * n) x Hx), octet_wrap by
    (try apply Z.mod_mul; try (rewrite Z.mul_comm; apply Z.mod_mul); lia).
  replace (8 * n / 8) with n by (rewrite Z.mul_comm, Z.div_mul; lia).
  by replace (i <? n) with false by lia.
Qed.

Lemma octet_octet i x : octet 0 (octet i x) = octet i x.
Proof.
  pose proof (octet_bound i x). unfold octet at 1. rewrite Z.shiftr_0_r.
  change 255 with (Z.ones 8). rewrite Z.land_ones by lia. by apply Z.mod_small.
Qed.

Lemma octet_mask i x : Z.land (octet i x) 255 = octet i x.
Proof. unfold octet. by rewrite <-Z.land_assoc. Qed.

(** Evaluates an octet, with a constant index, of an expression of operators
    and constant shifts and masks. *)
Ltac numeral t := lazymatch t with Z0 => idtac | Zpos _ => idtac | Zneg _ => idtac end.
Ltac octet_step :=
  match goal with
  | |- context [octet ?i ?c] => numeral i; numeral c; closed (octet i c)
  | |- context [?a + ?b] => numeral a; numeral b; closed (a + b)
  | |- context [?a - ?b] => numeral a; numeral b; closed (a - b)
  | |- context [?a / ?b] => numeral a; numeral b; closed (a / b)
  | |- context [?a <? ?b] => numeral a; numeral b; closed (a <? b); cbv iota
  end.
Ltac octet_eval :=
  unfold u8, u16, u32, u64;
  repeat first
    [ progress rewrite ?octet_lor, ?octet_land, ?octet_lxor, ?octet_ldiff by done
    | rewrite octet_wrap by done
    | rewrite octet_shiftl by done
    | rewrite octet_shiftr by done
    | octet_step ];
  rewrite ?octet_mask, ?Z.land_0_r, ?Z.land_0_l, ?Z.lor_0_r, ?Z.lor_0_l, ?Z.lxor_0_r, ?Z.lxor_0_l.

(** [y] has the [n] octets of [x] in the reverse order. *)
Definition reverses (n x y : Z) : Prop :=
  0 <= y < 2 ^ (8 * n) /\ forall i, 0 <= i < n -> octet i y = octet (n - 1 - i) x.

Lemma reverses_unique n x y z : 0 <= n -> reverses n x y -> reverses n x z -> y = z.
Proof.
  intros Hn [Hy Ey] [Hz Ez]. apply (octets_ext n); [done..|].
  intros i Hi. by rewrite Ey, Ez.
Qed.

(** Checks [reverses] octet by octet. *)
Ltac each_octet :=
  let i := fresh "i" in let Hi := fresh "Hi" in let H := fresh "H" in
  intros i Hi; assert (i ∈ seqZ 0 8) as H by (apply elem_of_seqZ; lia); cbv in H;
  repeat (apply elem_of_cons in H as [->|H]); [..|by apply elem_of_nil in H];
  try (exfalso; lia); octet_eval; try reflexivity.

Lemma constant_swab16_reverses x : reverses 2 x (___constant_swab16 x).
Proof. split; [apply u16_bound|]. unfold ___constant_swab16. each_octet. Qed.
Lemma constant_swab32_reverses x : reverses 4 x (___constant_swab32 x).
Proof. split; [apply u32_bound|]. unfold ___constant_swab32. each_octet. Qed.
Lemma constant_swab64_reverses x : reverses 8 x (___constant_swab64 x).
Proof. split; [exact (wrap_bound 64 _ ltac:(lia))|]. unfold ___constant_swab64. each_octet. Qed.

Lemma ldiff_mask i j x y : 0 <= i -> 0 <= j ->
  Z.ldiff (Z.lxor (octet i x) (octet j y)) 255 = 0.
Proof.
  intros. apply Z.bits_inj'. intros k Hk. change 255 with (Z.ones 8).
  rewrite Z.ldiff_spec, Z.lxor_spec, !testbit_octet, Z.testbit_ones_nonneg, Z.bits_0 by lia.
  destruct (k <? 8); simpl; [apply andb_false_r|done].
Qed.

Lemma lxor_cancel a b : Z.lxor a (Z.lxor a b) = b.
Proof. by rewrite <-Z.lxor_assoc, Z.lxor_nilpotent, Z.lxor_0_l. Qed.

Lemma lxor_bound w a b : 0 <= w -> 0 <= a < 2 ^ w -> 0 <= b < 2 ^ w ->
  0 <= Z.lxor a b < 2 ^ w.
Proof.
  intros Hw Ha Hb. assert (0 <= Z.lxor a b) by (apply Z.lxor_nonneg; lia).
  split; [done|]. apply below_pow2; [lia..|]. intros n Hn.
  rewrite Z.lxor_spec, (testbit_above w a), (testbit_above w b) by lia. done.
Qed.

Lemma arch_swab32_bound x : 0 <= x < 2 ^ 32 -> 0 <= __arch_swab32 x < 2 ^ 32.
Proof.
  intros Hx. unfold __arch_swab32.
  set (t := Z.lxor x (u32 _)).
  assert (0 <= t < 2 ^ 32) as Ht by (apply lxor_bound; [lia|lia|apply u32_bound]).
  apply lxor_bound; [lia|apply u32_bound|].
  assert (0 <= Z.ldiff t 16711680) by (apply Z.ldiff_nonneg; lia).
  assert (0 <= Z.shiftr (Z.ldiff t 16711680) 8) by by apply Z.shiftr_nonneg.
  split; [done|]. apply below_pow2; [lia..|]. intros n Hn.
  rewrite Z.shiftr_spec, Z.ldiff_spec, (testbit_above 32 t) by lia. done.
Qed.

Lemma arch_swab32_reverses x : 0 <= x < 2 ^ 32 -> reverses 4 x (__arch_swab32 x).
Proof.
  intros Hx. split; [by apply arch_swab32_bound|].
  unfold __arch_swab32. each_octet;
    rewrite ?(octet_above 4 4 x), ?(octet_above 4 5 x) by lia;
    rewrite ?Z.lor_0_r, ?ldiff_mask, ?Z.ldiff_0_r, ?Z.lxor_0_r, ?lxor_cancel by lia; reflexivity.
Qed.

Lemma fswab32_constant x : 0 <= x < 2 ^ 32 -> __fswab32 x = ___constant_swab32 x.
Proof.
  intros Hx. apply (reverses_unique 4 x); [lia|by apply arch_swab32_reverses|].
  apply constant_swab32_reverses.
Qed.

Lemma fswab64_reverses thru x : 0 <= x < 2 ^ 64 -> reverses 8 x (__fswab64 thru x).
Proof.
  intros Hx. unfold __fswab64. destruct thru; [|apply constant_swab64_reverses].
  rewrite !fswab32_constant by apply u32_bound.
  set (hi := Z.shiftl _ 32). split.
  - split; [apply Z.lor_nonneg; split; [apply (wrap_bound 64)|apply u32_bound]; lia|].
    apply below_pow2; [lia|apply Z.lor_nonneg; split; [apply (wrap_bound 64)|apply u32_bound]; lia|].
    intros n Hn. rewrite Z.lor_spec. unfold u64. rewrite testbit_wrap by lia.
    rewrite (testbit_above 32 (___constant_swab32 _)) by (try apply u32_bound; lia).
    by replace (n <? 64) with false by lia.
  - subst hi. unfold ___constant_swab32. change (2 ^ 32 - 1) with 0xffffffff. each_octet.
Qed.

(** ** Swapping words *)

(** The compiler may fold an argument or not, and split a double word or not:
    the result is the same. *)
Section any_compiler.
  Context (builtin_constant_p : Z -> bool) (thru : bool).

Lemma swab16_constant x : __swab16 builtin_constant_p x = ___constant_swab16 x.
Proof.
  unfold __swab16, __fswab16, ___constant_swab16. destruct (builtin_constant_p _); [done|].
  by rewrite (u16_small (u16 x)) by apply u16_bound.
Qed.

Lemma swab32_constant x : __swab32 builtin_constant_p x = ___constant_swab32 x.
Proof.
  unfold __swab32. destruct (builtin_constant_p _); [done|].
  rewrite fswab32_constant by apply u32_bound. unfold ___constant_swab32. by rewrite u32_u32.
Qed.

Lemma swab64_constant x : __swab64 builtin_constant_p thru x = ___constant_swab64 x.
Proof.
  unfold __swab64. destruct (builtin_constant_p _); [done|].
  pose proof (wrap_bound 64 x ltac:(lia)).
  apply (reverses_unique 8 (u64 x)); [lia|by apply fswab64_reverses|].
  replace (___constant_swab64 x) with (___constant_swab64 (u64 x)); [apply constant_swab64_reverses|].
  unfold ___constant_swab64, u64. by rewrite (wrap_wrap 64 x) by lia.
Qed.

End any_compiler.

(** Swapping reverses the octets of a word, whichever branch of the
    macros the compiler takes: the exclusive-or routine of ARM, the split of a
    double word into words and the masks and shifts all give the one word with
    the octets reversed. *)
Theorem swab_reverses_octets (builtin_constant_p : Z -> bool) (thru : bool) (x : Z) :
  reverses 2 x (__swab16 builtin_constant_p x) /\
  reverses 4 x (__swab32 builtin_constant_p x) /\
  reverses 8 x (__swab64 builtin_constant_p thru x).
Proof.
  rewrite swab16_constant, swab32_constant, swab64_constant.
  split; [apply constant_swab16_reverses|].
  split; [apply constant_swab32_reverses|apply constant_swab64_reverses].
Qed.

(** ** Streams *)

(** An encoder writes the [n] octets at the front of the stream and no other,
    and the decoder reads the word back from them, whatever follows. *)
Definition stream_codec (n : nat) (enc : list Z -> Z -> option (list Z))
    (dec : list Z -> option Z) : Prop :=
  forall pp u, (n <= length pp)%nat -> 0 <= u < 2 ^ (8 * Z.of_nat n) ->
  exists q, enc pp u = Some (q ++ drop n pp) /\ length q = n /\ Forall is_byte q /\
    forall r, dec (q ++ r) = Some u.

Lemma low_octet u : is_byte (Z.land u 0xff).
Proof. apply (octet_bound 0 u). Qed.

Ltac codec_word n :=
  split; [done|]; split;
  [repeat (apply Forall_cons_2; [apply low_octet|]); apply Forall_nil_2|];
  intros r; cbn; f_equal;
  apply (octets_ext n); [first [apply u16_bound|apply u32_bound]|done|lia|]; each_octet.

Lemma be16_codec : stream_codec 2 be16enc be16dec.
Proof.
  intros [|? [|? pp]] u Hl Hu; [simpl in Hl; lia..|].
  exists [Z.land (Z.shiftr u 8) 0xff; Z.land u 0xff]. split; [done|]. codec_word 2.
Qed.
Lemma le16_codec : stream_codec 2 le16enc le16dec.
Proof.
  intros [|? [|? pp]] u Hl Hu; [simpl in Hl; lia..|].
  exists [Z.land u 0xff; Z.land (Z.shiftr u 8) 0xff]. split; [done|]. codec_word 2.
Qed.
Lemma be32_codec : stream_codec 4 be32enc be32dec.
Proof.
  intros [|? [|? [|? [|? pp]]]] u Hl Hu; [simpl in Hl; lia..|].
  exists [Z.land (Z.shiftr u 24) 0xff; Z.land (Z.shiftr u 16) 0xff;
          Z.land (Z.shiftr u 8) 0xff; Z.land u 0xff]. split; [done|]. codec_word 4.
Qed.
Lemma le32_codec : stream_codec 4 le32enc le32dec.
Proof.
  intros [|? [|? [|? [|? pp]]]] u Hl Hu; [simpl in Hl; lia..|].
  exists [Z.land u 0xff; Z.land (Z.shiftr u 8) 0xff;
          Z.land (Z.shiftr u 16) 0xff; Z.land (Z.shiftr u 24) 0xff]. split; [done|]. codec_word 4.
Qed.

(** Two words, one after the other. *)
Lemma two_words enc dec pp a b :
  stream_codec 4 enc dec -> (8 <= length pp)%nat -> 0 <= a < 2 ^ 32 -> 0 <= b < 2 ^ 32 ->
  exists q, (pp1 ← enc pp a; r ← enc (drop 4 pp1) b; Some (take 4 pp1 ++ r)) =
      Some (q ++ drop 8 pp) /\ length q = 8%nat /\ Forall is_byte q /\
    forall r, dec (q ++ r) = Some a /\ dec (drop 4 (q ++ r)) = Some b.
Proof.
  intros Hc Hl Ha Hb.
  destruct (Hc pp a ltac:(lia) Ha) as (q1 & E1 & L1 & B1 & D1).
  destruct (Hc (drop 4 pp) b ltac:(rewrite length_drop; lia) Hb) as (q2 & E2 & L2 & B2 & D2).
  exists (q1 ++ q2). rewrite E1. cbn [mbind option_bind].
  rewrite drop_app_length', take_app_length' by done. rewrite E2. cbn [mbind option_bind].
  rewrite drop_drop, <-app_assoc. split; [done|]. rewrite length_app, L1, L2.
  split; [done|]. split; [by apply Forall_app|]. intros r.
  rewrite <-app_assoc, drop_app_length' by done. auto.
Qed.

(** A double word from its halves. *)
Lemma join64 u : 0 <= u < 2 ^ 64 ->
  Z.lor (u64 (Z.shiftl (u32 (Z.shiftr u 32)) 32)) (u32 (Z.land u 0xffffffff)) = u.
Proof.
  intros Hu. apply (octets_ext 8); [|done|lia|each_octet].
  split; [apply Z.lor_nonneg; split; [apply (wrap_bound 64)|apply u32_bound]; lia|].
  apply below_pow2; [lia|apply Z.lor_nonneg; split; [apply (wrap_bound 64)|apply u32_bound]; lia|].
  intros n Hn. rewrite Z.lor_spec. unfold u64. rewrite testbit_wrap by lia.
  rewrite (testbit_above 32 (u32 _)) by (try apply u32_bound; lia).
  by replace (n <? 64) with false by lia.
Qed.

Lemma be64_codec : stream_codec 8 be64enc be64dec.
Proof.
  intros pp u Hl Hu.
  destruct (two_words be32enc be32dec pp (u32 (Z.shiftr u 32)) (u32 (Z.land u 0xffffffff))
    be32_codec Hl (u32_bound _) (u32_bound _)) as (q & E & L & B & D).
  exists q. split; [exact E|]. split; [done|]. split; [done|]. intros r.
  destruct (D r) as [D1 D2]. unfold be64dec. rewrite D1. cbn [mbind option_bind].
  rewrite D2. cbn [mbind option_bind]. by rewrite join64.
Qed.

Lemma le64_codec : stream_codec 8 le64enc le64dec.
Proof.
  intros pp u Hl Hu.
  destruct (two_words le32enc le32dec pp (u32 (Z.land u 0xffffffff)) (u32 (Z.shiftr u 32))
    le32_codec Hl (u32_bound _) (u32_bound _)) as (q & E & L & B & D).
  exists q. split; [exact E|]. split; [done|]. split; [done|]. intros r.
  destruct (D r) as [D1 D2]. unfold le64dec. rewrite D2. cbn [mbind option_bind].
  rewrite D1. cbn [mbind option_bind]. by rewrite join64.
Qed.

(** The byte stream encoders of [bsd/sys/endian.h] write exactly the
    octets of the word at the front of the stream, and the decoders read the
    word back from there. *)
Theorem endian_streams_roundtrip :
  stream_codec 2 be16enc be16dec /\ stream_codec 4 be32enc be32dec /\
  stream_codec 8 be64enc be64dec /\ stream_codec 2 le16enc le16dec /\
  stream_codec 4 le32enc le32dec /\ stream_codec 8 le64enc le64dec.
Proof.
  split; [exact be16_codec|]. split; [exact be32_codec|]. split; [exact be64_codec|].
  split; [exact le16_codec|]. split; [exact le32_codec|exact le64_codec].
Qed.

(** The octets of an octet. *)
Lemma octet_of_byte p : is_byte p -> octet 0 p = p /\ forall i, 1 <= i -> octet i p = 0.
Proof.
  intros Hp. split.
  - unfold octet. change 255 with (Z.ones 8). rewrite Z.shiftr_0_r, Z.land_ones by lia.
    by apply Z.mod_small.
  - intros i Hi. apply (octet_above 1); [exact Hp|lia].
Qed.

Ltac known_octets :=
  repeat match goal with
  | H : is_byte ?p |- context [octet 0 ?p] => rewrite (proj1 (octet_of_byte p H))
  | H : is_byte ?p |- context [octet (Zpos ?i) ?p] =>
      rewrite (proj2 (octet_of_byte p H) (Zpos i) ltac:(lia))
  end.

(** The two ways to read a big-endian word agree: the decoder of the
    stream gives what a little-endian load followed by the conversion of
    [linux/byteorder/little_endian.h] gives; and on a big-endian processor the
    little-endian words are converted in the same way. *)
Theorem endian_loads_agree (builtin_constant_p : Z -> bool) (pp : list Z) :
  Forall is_byte pp ->
  be16dec pp = LittleEndian.__be16_to_cpu builtin_constant_p <$> le16dec pp /\
  be32dec pp = LittleEndian.__be32_to_cpu builtin_constant_p <$> le32dec pp /\
  le16dec pp = BigEndian.__le16_to_cpu builtin_constant_p <$> be16dec pp /\
  le32dec pp = BigEndian.__le32_to_cpu builtin_constant_p <$> be32dec pp.
Proof.
  intros Hpp.
  unfold LittleEndian.__be16_to_cpu, LittleEndian.__be32_to_cpu, BigEndian.__le16_to_cpu,
    BigEndian.__le32_to_cpu.
  destruct pp as [|p0 [|p1 pp]]; [done..|].
  apply Forall_cons in Hpp as [H0 Hpp]. apply Forall_cons in Hpp as [H1 Hpp].
  assert (forall a b : Z, is_byte a -> is_byte b ->
    u16 (Z.lor (Z.shiftl a 8) b) = __swab16 builtin_constant_p (u16 (Z.lor (Z.shiftl b 8) a))) as E2.
  { intros a b Ha Hb. rewrite swab16_constant.
    apply (reverses_unique 2 (u16 (Z.lor (Z.shiftl b 8) a))); [lia| |apply constant_swab16_reverses].
    split; [apply u16_bound|]. each_octet; known_octets; rewrite ?Z.lor_0_r; reflexivity. }
  assert (forall a b c d : Z, is_byte a -> is_byte b -> is_byte c -> is_byte d ->
    u32 (Z.lor (Z.lor (Z.lor (Z.shiftl a 24) (Z.shiftl b 16)) (Z.shiftl c 8)) d) =
    __swab32 builtin_constant_p
      (u32 (Z.lor (Z.lor (Z.lor (Z.shiftl d 24) (Z.shiftl c 16)) (Z.shiftl b 8)) a))) as E4.
  { intros a b c d Ha Hb Hc Hd. rewrite swab32_constant.
    eapply (reverses_unique 4); [lia| |apply constant_swab32_reverses].
    split; [apply u32_bound|].
    each_octet; known_octets; rewrite ?Z.lor_0_r, ?Z.lor_0_l; reflexivity. }
  split; [cbn; by rewrite <-E2|]. destruct pp as [|p2 [|p3 pp]].
  1-2: by split; [|split; [cbn; by rewrite <-E2|]].
  apply Forall_cons in Hpp as [H2 Hpp]. apply Forall_cons in Hpp as [H3 Hpp].
  cbn. rewrite <-!E2, <-!E4 by done. done.
Qed.

Lemma endian_loads_agree_witness :
  Forall is_byte [1; 2; 3; 4] /\
  be32dec [1; 2; 3; 4] = LittleEndian.__be32_to_cpu (fun _ => false) <$> le32dec [1; 2; 3; 4].
Proof.
  assert (Forall is_byte [1; 2; 3; 4]) as H by (repeat constructor; lia).
  split; [exact H|]. exact (proj1 (proj2 (endian_loads_agree (fun _ => false) [1; 2; 3; 4] H))).
Defined.
