(* ===== verification/Tipc.v ===== *)
(** * TIPC configuration messages: [linux/tipc_config.h]

    Type-length-value records in network byte order, lists of them, and the
    header of a configuration message.  Memory is a list of octets and a
    pointer an offset in it; an access outside is [None]. *)
From S2P Require Import Prelude Endian.

(** [ntohs] of the half-word at [p], [htons] into it, and the word. *)
Definition load16 (mem : list Z) (p : nat) : option Z := be16dec (drop p mem).
Definition store16 (mem : list Z) (p : nat) (v : Z) : option (list Z) :=
  r ← be16enc (drop p mem) (u16 v); Some (take p mem ++ r).
Definition store32 (mem : list Z) (p : nat) (v : Z) : option (list Z) :=
  r ← be32enc (drop p mem) (u32 v); Some (take p mem ++ r).

(** [memcpy(mem + p, data, n)]: both objects must have the octets. *)
Definition memcpy (mem : list Z) (p : nat) (data : list Z) (n : nat) : option (list Z) :=
  if decide (n <= length data /\ p + n <= length mem)%nat
  then Some (take p mem ++ take n data ++ drop (p + n) mem) else None.

(** ** Records *)
Definition TLV_ALIGNTO : Z := 4.
Definition TLV_ALIGN (datalen : Z) : Z :=
  Z.land (datalen + (TLV_ALIGNTO - 1)) (Z.lnot (TLV_ALIGNTO - 1)).
Definition TLV_LENGTH (datalen : Z) : Z := 4 + datalen.
Definition TLV_SPACE (datalen : Z) : Z := TLV_ALIGN (TLV_LENGTH datalen).
Definition TLV_DATA (tlv : nat) : nat := tlv + Z.to_nat (TLV_LENGTH 0).

(** [struct tlv_desc]: the length at offset 0, the type at offset 2. *)
Definition tlv_len (mem : list Z) (tlv : nat) : option Z := load16 mem tlv.
Definition tlv_type (mem : list Z) (tlv : nat) : option Z := load16 mem (tlv + 2).

Definition TLV_OK (mem : list Z) (tlv : nat) (space : Z) : option bool :=
  if TLV_SPACE 0 <=? space then l ← tlv_len mem tlv; Some (l <=? space) else Some false.

Definition TLV_CHECK (mem : list Z) (tlv : nat) (space exp_type : Z) : option bool :=
  ok ← TLV_OK mem tlv space;
  if ok : bool then t ← tlv_type mem tlv; Some (t =? exp_type) else Some false.

Definition TLV_GET_LEN (mem : list Z) (tlv : nat) : option Z := tlv_len mem tlv.
Definition TLV_SET_LEN (mem : list Z) (tlv : nat) (len : Z) : option (list Z) :=
  store16 mem tlv len.
Definition TLV_CHECK_TYPE (mem : list Z) (tlv : nat) (type : Z) : option bool :=
  t ← tlv_type mem tlv; Some (t =? type).
Definition TLV_SET_TYPE (mem : list Z) (tlv : nat) (type : Z) : option (list Z) :=
  store16 mem (tlv + 2) type.

(** [data] is the object the pointer points into, from the pointer on; [None]
    is the null pointer. *)
Definition TLV_SET (mem : list Z) (tlv : nat) (type : Z) (data : option (list Z)) (len : Z) :
    option (Z * list Z) :=
  let tlv_len := TLV_LENGTH len in
  mem ← store16 mem (tlv + 2) type;
  mem ← store16 mem tlv tlv_len;
  mem ← match data with
        | Some d => if len =? 0 then Some mem else memcpy mem (TLV_DATA tlv) d (Z.to_nat tlv_len)
        | None => Some mem
        end;
  Some (TLV_SPACE len, mem).

(** ** Lists of records *)
Record tlv_list_desc := TlvListDesc { tlv_ptr : nat; tlv_space : Z }.

Definition TLV_LIST_INIT (data : nat) (space : Z) : tlv_list_desc := TlvListDesc data space.
Definition TLV_LIST_EMPTY (list : tlv_list_desc) : bool := tlv_space list =? 0.
(** The space becomes a [__u16] parameter. *)
Definition TLV_LIST_CHECK (mem : list Z) (list : tlv_list_desc) (exp_type : Z) : option bool :=
  TLV_CHECK mem (tlv_ptr list) (u16 (tlv_space list)) exp_type.
Definition TLV_LIST_DATA (list : tlv_list_desc) : nat := TLV_DATA (tlv_ptr list).
Definition TLV_LIST_STEP (mem : list Z) (list : tlv_list_desc) : option tlv_list_desc :=
  l ← tlv_len mem (tlv_ptr list);
  let space := u16 (TLV_ALIGN l) in
  Some (TlvListDesc (tlv_ptr list + Z.to_nat space) (u32 (tlv_space list - space))).

(** ** The message header

    [struct tipc_cfg_msg_hdr]: length (4 octets), type (2), flags (2), eight
    reserved octets. *)
Definition TCM_ALIGN (datalen : Z) : Z := Z.land (datalen + 3) (Z.lnot 3).
Definition TCM_LENGTH (datalen : Z) : Z := 16 + datalen.
Definition TCM_SPACE (datalen : Z) : Z := TCM_ALIGN (TCM_LENGTH datalen).
Definition TCM_DATA (tcm_hdr : nat) : nat := tcm_hdr + Z.to_nat (TCM_LENGTH 0).

Definition TCM_SET (mem : list Z) (msg : nat) (cmd flags : Z) (data : option (list Z))
    (data_len : Z) : option (Z * list Z) :=
  let msg_len := TCM_LENGTH data_len in
  mem ← store32 mem msg msg_len;
  mem ← store16 mem (msg + 4) cmd;
  mem ← store16 mem (msg + 6) flags;
  mem ← match data with
        | Some d => if data_len =? 0 then Some mem
                    else memcpy mem (TCM_DATA msg) d (Z.to_nat data_len)
        | None => Some mem
        end;
  Some (TCM_SPACE data_len, mem).
