(* ===== verification/TipcProps.v ===== *)
(** * TIPC records: a list that is built is read back

    Records written one after the other with [TLV_SET] are the records a walk
    with [TLV_LIST_CHECK], [TLV_LIST_DATA] and [TLV_LIST_STEP] finds; what goes
    wrong with exact buffers and with short lengths is stated at the end. *)
From S2P Require Import Prelude Endian EndianProps Tipc.

(** ** Half-words in memory *)
Definition be16 (v : Z) : list Z := [Z.land (Z.shiftr v 8) 0xff; Z.land v 0xff].

Lemma length_be16 v : length (be16 v) = 2%nat.
Proof. done. Qed.

Lemma load16_app pre v r : 0 <= v < 65536 ->
  load16 (pre ++ be16 v ++ r) (length pre) = Some v.
Proof.
  intros Hv. unfold load16. rewrite drop_app_length.
  destruct (be16_codec [0; 0] v ltac:(simpl; lia) Hv) as (q & E & _ & _ & D).
  cbn in E. rewrite app_nil_r in E. injection E as <-. apply D.
Qed.

Lemma store16_app pre a b r v :
  store16 (pre ++ a :: b :: r) (length pre) v = Some (pre ++ be16 (u16 v) ++ r).
Proof. unfold store16. rewrite drop_app_length, take_app_length. done. Qed.

(** ** Alignment *)
Lemma align_spec d : 0 <= d ->
  TLV_ALIGN d mod 4 = 0 /\ d <= TLV_ALIGN d < d + 4.
Proof.
  intros Hd. unfold TLV_ALIGN, TLV_ALIGNTO. change (4 - 1) with 3.
  assert (Z.land (d + 3) (Z.lnot 3) = (d + 3) / 4 * 4) as ->.
  { rewrite <-Z.ldiff_land. change 3 with (Z.ones 2) at 2.
    rewrite Z.ldiff_ones_r, Z.shiftr_div_pow2, Z.shiftl_mul_pow2 by lia. done. }
  split; [apply Z.mod_mul; lia|].
  pose proof (Z.div_mod (d + 3) 4 ltac:(lia)). pose proof (Z.mod_pos_bound (d + 3) 4 ltac:(lia)). lia.
Qed.

(** ** One record *)
Record record := Rec { r_type : Z; r_data : list Z; r_len : nat }.

Definition space (r : record) : nat := Z.to_nat (TLV_SPACE (Z.of_nat (r_len r))).
Definition value (r : record) : list Z := take (r_len r) (r_data r).

(** The object behind [data] has four octets more than the value (see
    [tlv_set_overreads]), and the aligned length fits in sixteen bits. *)
Definition record_wf (r : record) : Prop :=
  0 <= r_type r < 65536 /\ (r_len r + 4 <= length (r_data r))%nat /\ Z.of_nat (space r) < 65536.

Definition octets (r : record) : list Z :=
  be16 (4 + Z.of_nat (r_len r)) ++ be16 (r_type r) ++ value r.

Lemma space_spec r : (4 + r_len r <= space r < 8 + r_len r)%nat.
Proof.
  unfold space, TLV_SPACE. pose proof (align_spec (TLV_LENGTH (Z.of_nat (r_len r)))) as H.
  unfold TLV_LENGTH in *. lia.
Qed.

Lemma length_octets r : record_wf r -> length (octets r) = (4 + r_len r)%nat.
Proof.
  intros (_ & Hd & _). unfold octets, value. rewrite !length_app, length_take. simpl. lia.
Qed.

Lemma tlv_set_writes pre area r :
  record_wf r -> (8 + r_len r <= length area)%nat ->
  exists rest, TLV_SET (pre ++ area) (length pre) (r_type r) (Some (r_data r)) (Z.of_nat (r_len r)) =
      Some (Z.of_nat (space r), pre ++ octets r ++ rest) /\
    length rest = (length area - (4 + r_len r))%nat.
Proof.
  intros Hr Hl. destruct area as [|a0 [|a1 [|a2 [|a3 area]]]]; [simpl in Hl; lia..|].
  pose proof (space_spec r) as Hs. destruct Hr as (Ht & Hd & H16).
  unfold TLV_SET.
  replace (length pre + 2)%nat with (length (pre ++ [a0; a1])) by (rewrite length_app; simpl; lia).
  rewrite (app_assoc pre [a0; a1] (a2 :: a3 :: area) : pre ++ a0 :: a1 :: a2 :: a3 :: area = _).
  rewrite store16_app. cbn [mbind option_bind].
  rewrite <-app_assoc. cbn [app]. rewrite store16_app. cbn [mbind option_bind].
  assert (u16 (TLV_LENGTH (Z.of_nat (r_len r))) = 4 + Z.of_nat (r_len r)) as ->.
  { unfold TLV_LENGTH. apply u16_small. lia. }
  rewrite (u16_small (r_type r)) by done.
  assert (TLV_SPACE (Z.of_nat (r_len r)) = Z.of_nat (space r)) as ->.
  { unfold space. rewrite Z2Nat.id; [done|]. unfold TLV_SPACE, TLV_LENGTH.
    pose proof (align_spec (4 + Z.of_nat (r_len r)) ltac:(lia)). lia. }
  cbn [length] in Hl. destruct (Z.eqb_spec (Z.of_nat (r_len r)) 0) as [E|E].
  - exists area. cbn [mbind option_bind]. split; [|cbn [length]; lia].
    unfold octets, value. replace (r_len r) with 0%nat by lia. cbn [take].
    by rewrite app_nil_r, <-app_assoc.
  - unfold memcpy. rewrite decide_True.
    2: { unfold TLV_DATA, TLV_LENGTH. rewrite !length_app, !length_be16. lia. }
    cbn [mbind option_bind].
    set (n := Z.to_nat (TLV_LENGTH (Z.of_nat (r_len r)))).
    assert (n = (4 + r_len r)%nat) as En by (unfold n, TLV_LENGTH; lia).
    exists (take 4 (drop (r_len r) (r_data r)) ++ drop n area). split.
    + do 2 f_equal. unfold TLV_DATA.
      rewrite (app_assoc (be16 _) (be16 _)), (app_assoc pre).
      rewrite take_app_length', drop_app_add' by (rewrite !length_app; done).
      unfold octets, value. rewrite <-!app_assoc. do 3 f_equal.
      rewrite (app_assoc (take _ _) (take _ _)). f_equal.
      rewrite En, Nat.add_comm, <-take_take_drop. done.
    + rewrite length_app, length_take, !length_drop. cbn [length]. lia.
Qed.

(** ** Lists of records *)

(** Each record is written where the last one returned it may be. *)
Fixpoint build (mem : list Z) (p : nat) (rs : list record) : option (nat * list Z) :=
  match rs with
  | [] => Some (p, mem)
  | r :: rs' =>
      '(n, mem) ← TLV_SET mem p (r_type r) (Some (r_data r)) (Z.of_nat (r_len r));
      build mem (p + Z.to_nat n) rs'
  end.

(** The types and values a receiver sees, at most [fuel] of them. *)
Fixpoint walk (fuel : nat) (mem : list Z) (l : tlv_list_desc) : option (list (Z * list Z)) :=
  if TLV_LIST_EMPTY l then Some []
  else match fuel with
       | O => None
       | S fuel' =>
           t ← tlv_type mem (tlv_ptr l);
           n ← TLV_GET_LEN mem (tlv_ptr l);
           ok ← TLV_LIST_CHECK mem l t;
           if ok : bool then
             l' ← TLV_LIST_STEP mem l;
             rest ← walk fuel' mem l';
             Some ((t, take (Z.to_nat (n - TLV_LENGTH 0)) (drop (TLV_LIST_DATA l) mem)) :: rest)
           else None
       end.

(** Records with their padding. *)
Inductive laid : list record -> list Z -> Prop :=
| laid_nil : laid [] []
| laid_cons r rs pad o :
    length (octets r ++ pad) = space r -> laid rs o -> laid (r :: rs) (octets r ++ pad ++ o).

Definition total (rs : list record) : nat := sum_list_with space rs.

Lemma laid_length rs o : laid rs o -> length o = total rs.
Proof.
  induction 1 as [|r rs pad o Hp _ IH]; [done|].
  rewrite app_assoc, length_app, Hp, IH. done.
Qed.

Lemma build_lays rs : forall pre area,
  Forall record_wf rs -> (total rs + 4 <= length area)%nat ->
  exists o rest, build (pre ++ area) (length pre) rs =
      Some ((length pre + total rs)%nat, pre ++ o ++ rest) /\
    laid rs o /\ length (o ++ rest) = length area.
Proof.
  induction rs as [|r rs IH]; intros pre area Hwf Hl.
  { exists [], area. cbn. rewrite Nat.add_0_r. repeat split. constructor. }
  apply Forall_cons in Hwf as [Hr Hwf]. pose proof (space_spec r) as Hs.
  unfold total in *. cbn [sum_list_with] in *.
  destruct (tlv_set_writes pre area r Hr ltac:(lia)) as (rest & E & Lr).
  cbn [build]. rewrite E. cbn [mbind option_bind]. rewrite Nat2Z.id.
  set (pad := take (space r - (4 + r_len r)) rest).
  pose proof (length_octets r Hr) as Lo.
  assert (length (octets r ++ pad) = space r) as Lp.
  { unfold pad. rewrite length_app, length_take. lia. }
  destruct (IH (pre ++ octets r ++ pad) (drop (space r - (4 + r_len r)) rest) Hwf)
    as (o & rest' & E' & Hlaid & Ll).
  { rewrite length_drop. lia. }
  exists (octets r ++ pad ++ o), rest'. split.
  - replace (pre ++ octets r ++ rest) with
      ((pre ++ octets r ++ pad) ++ drop (space r - (4 + r_len r)) rest).
    2: { unfold pad. by rewrite <-!app_assoc, take_drop. }
    replace (length pre + space r)%nat with (length (pre ++ octets r ++ pad)).
    2: { rewrite (length_app pre), Lp. done. }
    rewrite E'. do 2 f_equal; [rewrite (length_app pre), Lp; lia|by rewrite <-!app_assoc].
  - split; [by constructor|].
    rewrite <-!app_assoc, app_assoc, length_app, Lp, Ll, length_drop. lia.
Qed.

(** What a receiver reads at the front of a list. *)
Lemma read_record pre r pad post sp :
  record_wf r -> length (octets r ++ pad) = space r ->
  let mem := pre ++ octets r ++ pad ++ post in
  let l := TlvListDesc (length pre) sp in
  Z.of_nat (space r) <= sp < 65536 ->
  tlv_type mem (length pre) = Some (r_type r) /\
  TLV_GET_LEN mem (length pre) = Some (4 + Z.of_nat (r_len r)) /\
  TLV_LIST_CHECK mem l (r_type r) = Some true /\
  take (r_len r) (drop (TLV_LIST_DATA l) mem) = value r /\
  TLV_LIST_STEP mem l =
    Some (TlvListDesc (length (pre ++ octets r ++ pad)) (sp - Z.of_nat (space r))).
Proof.
  intros Hr Lp mem l Hsp. pose proof (space_spec r) as Hs. destruct Hr as (Ht & Hd & H16).
  assert (tlv_len mem (length pre) = Some (4 + Z.of_nat (r_len r))) as El.
  { unfold tlv_len, mem, octets. rewrite <-app_assoc. apply load16_app. lia. }
  assert (tlv_type mem (length pre) = Some (r_type r)) as Et.
  { unfold tlv_type, mem, octets.
    replace (length pre + 2)%nat with (length (pre ++ be16 (4 + Z.of_nat (r_len r))))
      by (rewrite length_app, length_be16; done).
    rewrite <-!app_assoc, (app_assoc pre). apply load16_app. done. }
  split; [done|]. split; [exact El|]. split; [|split].
  - unfold TLV_LIST_CHECK, TLV_CHECK, TLV_OK, l. cbn [tlv_ptr tlv_space].
    rewrite u16_small by lia. change (TLV_SPACE 0) with 4.
    replace (4 <=? sp) with true by lia. rewrite El. cbn [mbind option_bind].
    replace (4 + Z.of_nat (r_len r) <=? sp) with true by lia.
    rewrite Et. cbn [mbind option_bind]. by rewrite Z.eqb_refl.
  - unfold TLV_LIST_DATA, TLV_DATA, l, mem, octets. cbn [tlv_ptr].
    change (Z.to_nat (TLV_LENGTH 0)) with 4%nat.
    rewrite <-!app_assoc, (app_assoc (be16 _) (be16 _)), (app_assoc pre).
    rewrite drop_app_length' by (rewrite !length_app, !length_be16; lia).
    apply take_app_length'. unfold value. rewrite length_take. lia.
  - unfold TLV_LIST_STEP, l. cbn [tlv_ptr tlv_space]. rewrite El. cbn [mbind option_bind].
    assert (TLV_ALIGN (4 + Z.of_nat (r_len r)) = Z.of_nat (space r)) as ->.
    { unfold space, TLV_SPACE, TLV_LENGTH. rewrite Z2Nat.id; [done|].
      pose proof (align_spec (4 + Z.of_nat (r_len r)) ltac:(lia)). lia. }
    rewrite (u16_small (Z.of_nat (space r))), u32_small, Nat2Z.id by lia.
    by rewrite (length_app pre), Lp.
Qed.

Lemma walk_laid rs o : laid rs o -> forall pre post,
  Forall record_wf rs -> Z.of_nat (total rs) < 65536 ->
  walk (length rs) (pre ++ o ++ post) (TLV_LIST_INIT (length pre) (Z.of_nat (total rs))) =
    Some ((fun r => (r_type r, value r)) <$> rs).
Proof.
  induction 1 as [|r rs pad o Hp Hl IH]; intros pre post Hwf Ht; [done|].
  apply Forall_cons in Hwf as [Hr Hwf]. pose proof (space_spec r) as Hs.
  unfold total, TLV_LIST_INIT in *. cbn [sum_list_with length walk] in *.
  unfold TLV_LIST_EMPTY at 1. cbn [tlv_space tlv_ptr].
  destruct (Z.eqb_spec (Z.of_nat (space r + sum_list_with space rs)) 0) as [E0|_]; [exfalso; clear - E0 Hs; lia|].
  destruct (read_record pre r pad (o ++ post) (Z.of_nat (space r + sum_list_with space rs)) Hr Hp
    ltac:(lia)) as (E1 & E2 & E3 & E4 & E5).
  rewrite <-!app_assoc. rewrite E1. cbn [mbind option_bind]. rewrite E2. cbn [mbind option_bind].
  rewrite E3. cbn [mbind option_bind]. rewrite E5. cbn [mbind option_bind].
  replace (Z.of_nat (space r + sum_list_with space rs) - Z.of_nat (space r)) with
    (Z.of_nat (sum_list_with space rs)) by lia.
  specialize (IH (pre ++ octets r ++ pad) post Hwf ltac:(lia)).
  rewrite <-!app_assoc in IH. rewrite IH. cbn [mbind option_bind fmap list_fmap].
  replace (Z.to_nat (4 + Z.of_nat (r_len r) - TLV_LENGTH 0)) with (r_len r)
    by (unfold TLV_LENGTH; lia).
  by rewrite E4.
Qed.

(** Records written with [TLV_SET] one after the other, into an area with
    room for them, are the records a receiver finds when it walks the list: no
    access leaves the area, the walk ends after as many steps as there are
    records, each check accepts, and the types and values are those written.
    What precedes the area is untouched. *)
Theorem tlv_list_roundtrip (pre area : list Z) (rs : list record) :
  Forall record_wf rs -> (total rs + 4 <= length area)%nat -> Z.of_nat (total rs) < 65536 ->
  exists mem, build (pre ++ area) (length pre) rs = Some ((length pre + total rs)%nat, mem) /\
    take (length pre) mem = pre /\ length mem = length (pre ++ area) /\
    walk (length rs) mem (TLV_LIST_INIT (length pre) (Z.of_nat (total rs))) =
      Some ((fun r => (r_type r, value r)) <$> rs).
Proof.
  intros Hwf Hl Ht. destruct (build_lays rs pre area Hwf Hl) as (o & rest & E & Hlaid & Lr).
  exists (pre ++ o ++ rest). split; [exact E|]. split; [apply take_app_length|].
  split; [rewrite !(length_app pre), Lr; done|]. by apply walk_laid.
Qed.

Definition sample_records : list record :=
  [Rec 5 [1; 2; 3; 4; 5; 6; 7] 3; Rec 9 [10; 20; 0; 0; 0; 0] 2].

Lemma tlv_list_roundtrip_witness :
  exists mem, build (replicate 24 7) 0 sample_records = Some (16%nat, mem) /\
    walk 2 mem (TLV_LIST_INIT 0 16) = Some [(5, [1; 2; 3]); (9, [10; 20])].
Proof.
  destruct (tlv_list_roundtrip [] (replicate 24 7) sample_records) as (mem & H1 & _ & _ & H2).
  - repeat apply Forall_cons_2; try apply Forall_nil_2; (split; [simpl; lia|]);
      (split; [simpl; lia|]); vm_compute; reflexivity.
  - vm_compute. lia.
  - vm_compute. reflexivity.
  - exists mem. split; [exact H1|exact H2].
Defined.

(** ** Where the header is wrong *)

(** [TLV_SET] copies the length of the whole record from [data]: with an object
    of exactly [len] octets it reads past its end. *)
Theorem tlv_set_overreads (mem d : list Z) (p : nat) (type : Z) :
  (0 < length d)%nat -> TLV_SET mem p type (Some d) (Z.of_nat (length d)) = None.
Proof.
  intros Hd. unfold TLV_SET.
  destruct (store16 mem (p + 2) type) as [m1|]; [|done]. cbn [mbind option_bind].
  destruct (store16 m1 p _) as [m2|]; [|done]. cbn [mbind option_bind].
  replace (Z.of_nat (length d) =? 0) with false by lia.
  unfold memcpy. rewrite decide_False; [done|]. unfold TLV_LENGTH. lia.
Qed.

(** [TLV_LIST_CHECK] accepts a record whose length is zero, and
    [TLV_LIST_STEP] stays on it: a walk over such a list does not end. *)
Theorem tlv_list_stuck (pre post : list Z) (type sp : Z) :
  0 <= type < 65536 -> 4 <= sp < 65536 ->
  let mem := pre ++ be16 0 ++ be16 type ++ post in
  let l := TLV_LIST_INIT (length pre) sp in
  TLV_LIST_CHECK mem l type = Some true /\ TLV_LIST_STEP mem l = Some l.
Proof.
  intros Ht Hsp mem l.
  assert (tlv_len mem (length pre) = Some 0) as El by (apply load16_app; lia).
  assert (tlv_type mem (length pre) = Some type) as Et.
  { unfold tlv_type, mem.
    replace (length pre + 2)%nat with (length (pre ++ be16 0)) by (rewrite length_app; done).
    rewrite (app_assoc pre). by apply load16_app. }
  unfold TLV_LIST_CHECK, TLV_CHECK, TLV_OK, TLV_LIST_STEP, l, TLV_LIST_INIT.
  cbn [tlv_ptr tlv_space]. rewrite (u16_small sp) by lia. change (TLV_SPACE 0) with 4.
  replace (4 <=? sp) with true by lia. rewrite El. cbn [mbind option_bind].
  replace (0 <=? sp) with true by lia. rewrite Et. cbn [mbind option_bind].
  rewrite Z.eqb_refl. split; [done|].
  change (u16 (TLV_ALIGN 0)) with 0. rewrite Nat.add_0_r, Z.sub_0_r, u32_small by lia. done.
Qed.
