(* ===== verification/Heap.v ===== *)
(** * Heaps of the C++ library: [bits/stl_heap.h]

    A range is a list with the number of its elements that belong to it; an
    access outside the list is [None].  The values are copied where the code
    moves them: a moved-from element is overwritten before it is read.  The
    comparison is a parameter; the overloads without one use [operator<]. *)
From S2P Require Import Prelude.

Section Heap.
Context {A : Type}.
Implicit Types l : list A.

Definition store (i : nat) (x : A) l : option (list A) :=
  if decide (i < length l)%nat then Some (<[i := x]> l) else None.

(** [(i - 1) / 2] of a signed index. *)
Definition parent (i : nat) : nat := (i - 1) / 2.

(** ** Working functions, with the comparison *)
Section compare.
  Context (comp : A -> A -> bool).

Fixpoint is_heap_until_loop (fuel : nat) (l : list A) (n par child : nat) : option nat :=
  match fuel with
  | O => None
  | S fuel' =>
      if (child <? n)%nat then
        x ← l !! par; y ← l !! child;
        if comp x y then Some child
        else is_heap_until_loop fuel' l n (if Nat.even child then S par else par) (S child)
      else Some n
  end.

(** The loop makes at most [n] steps. *)
Definition __is_heap_until (l : list A) (n : nat) : option nat :=
  is_heap_until_loop (S n) l n 0 1.

Fixpoint push_loop (fuel : nat) (l : list A) (hole top : nat) (value : A) : option (list A) :=
  match fuel with
  | O => None
  | S fuel' =>
      if (top <? hole)%nat then
        x ← l !! parent hole;
        if comp x value then
          l ← store hole x l; push_loop fuel' l (parent hole) top value
        else store hole value l
      else store hole value l
  end.

(** The hole moves to its parent, so its index bounds the number of steps. *)
Definition __push_heap (l : list A) (hole top : nat) (value : A) : option (list A) :=
  push_loop (S hole) l hole top value.

(** The first loop: the larger child moves into the hole. *)
Fixpoint sift_loop (fuel : nat) (l : list A) (hole len : nat) : option (list A * nat) :=
  match fuel with
  | O => None
  | S fuel' =>
      if (hole <? (len - 1) / 2)%nat then
        let second := (2 * (hole + 1))%nat in
        x ← l !! second; y ← l !! (second - 1)%nat;
        let '(second, x) := if comp x y then ((second - 1)%nat, y) else (second, x) in
        l ← store hole x l; sift_loop fuel' l second len
      else Some (l, hole)
  end.

(** [second == (len - 2) / 2] of signed numbers, for an even [len]. *)
Definition __adjust_heap (l : list A) (hole len : nat) (value : A) : option (list A) :=
  '(l, second) ← sift_loop (S len) l hole len;
  if Nat.even len && (second + 1 =? len / 2)%nat then
    let second' := (2 * (second + 1))%nat in
    x ← l !! (second' - 1)%nat;
    l ← store second x l; __push_heap l (second' - 1) hole value
  else __push_heap l second hole value.

(** [last] is the index of [__last], [result] that of [__result]. *)
Definition __pop_heap (l : list A) (last result : nat) : option (list A) :=
  value ← l !! result;
  x ← l !! 0%nat;
  l ← store result x l; __adjust_heap l 0 last value.

Fixpoint make_loop (l : list A) (len par : nat) : option (list A) :=
  value ← l !! par;
  l ← __adjust_heap l par len value;
  match par with O => Some l | S par' => make_loop l len par' end.

Definition __make_heap (l : list A) (len : nat) : option (list A) :=
  if (len <? 2)%nat then Some l else make_loop l len ((len - 2) / 2).

Fixpoint __sort_heap (l : list A) (last : nat) : option (list A) :=
  match last with
  | S (S _ as last') => l ← __pop_heap l last' last'; __sort_heap l last'
  | _ => Some l
  end.

(** ** The interface with a comparison functor *)
Definition push_heap_comp (l : list A) (last : nat) : option (list A) :=
  value ← l !! (last - 1)%nat; __push_heap l (last - 1) 0 value.
Definition pop_heap_comp (l : list A) (last : nat) : option (list A) :=
  if (1 <? last)%nat then __pop_heap l (last - 1) (last - 1) else Some l.
Definition make_heap_comp (l : list A) (last : nat) : option (list A) := __make_heap l last.
Definition sort_heap_comp (l : list A) (last : nat) : option (list A) := __sort_heap l last.
Definition is_heap_until_comp (l : list A) (last : nat) : option nat := __is_heap_until l last.
Definition is_heap_comp (l : list A) (last : nat) : option bool :=
  n ← __is_heap_until l last; Some (n =? last)%nat.
End compare.

(** ** The interface with [operator<] *)
Section less.
  Context (less : A -> A -> bool).

Definition push_heap (l : list A) (last : nat) : option (list A) :=
  value ← l !! (last - 1)%nat; __push_heap less l (last - 1) 0 value.
Definition pop_heap (l : list A) (last : nat) : option (list A) :=
  if (1 <? last)%nat then __pop_heap less l (last - 1) (last - 1) else Some l.
Definition make_heap (l : list A) (last : nat) : option (list A) := __make_heap less l last.
Definition sort_heap (l : list A) (last : nat) : option (list A) := __sort_heap less l last.
Definition is_heap_until (l : list A) (last : nat) : option nat := __is_heap_until less l last.
Definition is_heap (l : list A) (last : nat) : option bool :=
  n ← is_heap_until l last; Some (n =? last)%nat.
End less.
End Heap.
