(* ===== verification/HeapProps.v ===== *)
(** * Heaps: the algorithms of [bits/stl_heap.h] are correct

    For a strict weak order, [push_heap], [pop_heap] and [make_heap] establish
    the heap order on a permutation of the range, and [sort_heap] sorts it. *)
From Stdlib Require Import Sorted.
From S2P Require Import Prelude Heap.

(** What the library requires of the comparison. *)
Class StrictWeakOrder {A} (comp : A -> A -> bool) := {
  swo_asym x y : comp x y = true -> comp y x = false;
  swo_trans x y z : comp x y = false -> comp y z = false -> comp x z = false }.

#[export] Instance Zltb_swo : StrictWeakOrder Z.ltb.
Proof. split; lia. Qed.

(** ** Indices *)
Lemma parent_lt i : (0 < i)%nat -> (parent i < i)%nat.
Proof. intros. unfold parent. apply Nat.Div0.div_lt_upper_bound; lia. Qed.

Lemma parent_children i h : (0 < i)%nat ->
  parent i = h <-> i = (2 * h + 1)%nat \/ i = (2 * h + 2)%nat.
Proof.
  intros Hi. unfold parent.
  pose proof (Nat.div_mod (i - 1) 2 ltac:(lia)).
  pose proof (Nat.mod_upper_bound (i - 1) 2 ltac:(lia)). lia.
Qed.

(** [below top i]: the path from [i] to the root passes through [top]. *)
Inductive below (top : nat) : nat -> Prop :=
| below_refl : below top top
| below_child i : (0 < i)%nat -> below top (parent i) -> below top i.

Lemma below_le top i : below top i -> (top <= i)%nat.
Proof. induction 1 as [|i Hi _ IH]; [done|]. pose proof (parent_lt i Hi). lia. Qed.

Lemma below_parent top i : below top i -> (top < i)%nat -> below top (parent i).
Proof. intros [|j Hj Hb] Hlt; [lia|done]. Qed.

#[local] Set Default Proof Using "Type*".

Section Props.
Context {A : Type} (comp : A -> A -> bool) `{!StrictWeakOrder comp}.
Implicit Types l : list A.

(** The order of the elements: [y] is not before [x]. *)
Definition le (x y : A) : Prop := comp y x = false.

Lemma le_trans x y z : le x y -> le y z -> le x z.
Proof. unfold le. intros. by apply (swo_trans z y x). Qed.
Lemma le_total x y : comp x y = true -> le x y.
Proof. apply swo_asym. Qed.
Lemma le_refl x : le x x.
Proof. unfold le. destruct (comp x x) eqn:E; [|done]. by rewrite (swo_asym x x E) in E. Qed.

Lemma lookup_upd l i j x : (i < length l)%nat ->
  <[i:=x]> l !! j = if decide (i = j) then Some x else l !! j.
Proof.
  intros Hi. case_decide as E; [subst; by apply list_lookup_insert_eq|by apply list_lookup_insert_ne].
Qed.

Lemma upd_swap l i j x w : (j < length l)%nat -> l !! i = Some w -> i <> j ->
  <[i:=x]> (<[j:=w]> l) ≡ₚ <[j:=x]> l.
Proof.
  intros Hj Hi Hne.
  pose proof (Permutation_insert_swap (<[j:=x]> l) i j w x) as E.
  rewrite <-E; [|by rewrite list_lookup_insert_ne|by apply list_lookup_insert_eq].
  by rewrite (list_insert_insert_ne _ j i), (list_insert_insert_eq l j) by done.
Qed.

(** ** Orders on a range

    The heap order for parents from [top] on; the same with [hole] out of
    order with its parent; and with the element at [hole] not counted. *)
Definition heap_from (top n : nat) l : Prop :=
  forall i x y, (0 < i < n)%nat -> (top <= parent i)%nat ->
    l !! i = Some x -> l !! parent i = Some y -> le x y.

Definition bridged (top n hole : nat) l : Prop :=
  (top < hole)%nat -> forall i x z, (0 < i < n)%nat -> parent i = hole ->
    l !! i = Some x -> l !! parent hole = Some z -> le x z.

Definition except (top n hole : nat) l : Prop :=
  (forall i x y, (0 < i < n)%nat -> (top <= parent i)%nat -> i <> hole ->
    l !! i = Some x -> l !! parent i = Some y -> le x y) /\ bridged top n hole l.

Definition hollow (top n hole : nat) l : Prop :=
  (forall i x y, (0 < i < n)%nat -> (top <= parent i)%nat -> i <> hole -> parent i <> hole ->
    l !! i = Some x -> l !! parent i = Some y -> le x y) /\ bridged top n hole l.

(** ** push *)
Lemma except_up top n hole l v x :
  below top hole -> (top < hole < n)%nat -> (n <= length l)%nat ->
  l !! parent hole = Some x -> comp x v = true ->
  except top n hole (<[hole:=v]> l) ->
  except top n (parent hole) (<[parent hole:=v]> (<[hole:=x]> l)).
Proof.
  intros Hb Hh Hn Hx Hc [He Hg]. set (p := parent hole) in *.
  pose proof (parent_lt hole ltac:(lia)) as Hp. fold p in Hp.
  pose proof (below_le _ _ (below_parent _ _ Hb ltac:(lia))) as Htp. fold p in Htp.
  assert (forall j, <[p:=v]> (<[hole:=x]> l) !! j =
    if decide (p = j) then Some v else if decide (hole = j) then Some x else l !! j) as Hl.
  { intros j. rewrite lookup_upd by (rewrite length_insert; lia). by rewrite lookup_upd by lia. }
  assert (forall j, <[hole:=v]> l !! j = if decide (hole = j) then Some v else l !! j) as Hl0.
  { intros j. by rewrite lookup_upd by lia. }
  assert (forall i y, (0 < i < n)%nat -> parent i = p -> i <> hole -> l !! i = Some y -> le y x) as Hsib.
  { intros i y Hi Hpi Hne Hy. apply (He i y x); [done|lia|done|..]; rewrite Hl0.
    - by rewrite decide_False by done.
    - rewrite Hpi, decide_False by lia. done. }
  split.
  - intros i a b Hi Ht Hne. rewrite !Hl.
    rewrite (decide_False (P := p = i)) by done.
    destruct (decide (hole = i)) as [<-|Hih].
    + fold p. rewrite decide_True by done. intros [= <-] [= <-]. by apply le_total.
    + destruct (decide (p = parent i)) as [Hpp|Hpp].
      * intros Ha [= <-]. apply (le_trans _ x); [by apply (Hsib i)|by apply le_total].
      * destruct (decide (hole = parent i)) as [Hhp|Hhp].
        -- intros Ha [= <-]. apply (Hg ltac:(lia) i a x); [done|done|..]; rewrite Hl0.
           ++ by rewrite decide_False by done.
           ++ fold p. by rewrite decide_False by lia.
        -- intros Ha Hb'. apply (He i a b); [done|done|by intros ->|..]; rewrite Hl0;
             by rewrite decide_False by done.
  - intros Htop i a z Hi Hpi. rewrite !Hl.
    pose proof (parent_lt p ltac:(lia)).
    rewrite (decide_False (P := p = i)), (decide_False (P := p = parent p)),
      (decide_False (P := hole = parent p)) by (try (intros ->; pose proof (parent_lt i)); lia).
    intros Ha Hz. assert (le x z) as Hxz.
    { pose proof (below_le _ _ (below_parent _ _ (below_parent _ _ Hb ltac:(lia)) Htop)).
      apply (He p x z); [lia|done|lia|..]; rewrite Hl0; by rewrite decide_False by lia. }
    destruct (decide (hole = i)) as [<-|Hih]; [by injection Ha as <-|].
    apply (le_trans _ x); [|done]. by apply (Hsib i).
Qed.

Lemma push_loop_spec fuel : forall l hole top v n,
  (hole < fuel)%nat -> below top hole -> (hole < n <= length l)%nat ->
  except top n hole (<[hole:=v]> l) ->
  exists l', push_loop comp fuel l hole top v = Some l' /\ heap_from top n l' /\
    l' ≡ₚ <[hole:=v]> l /\ forall i, (n <= i)%nat -> l' !! i = l !! i.
Proof.
  assert (forall l hole top v n, (hole < n <= length l)%nat -> except top n hole (<[hole:=v]> l) ->
    (top < hole -> forall x, l !! parent hole = Some x -> le v x)%nat -> (top <= hole)%nat ->
    exists l', store hole v l = Some l' /\ heap_from top n l' /\
      l' ≡ₚ <[hole:=v]> l /\ forall i, (n <= i)%nat -> l' !! i = l !! i) as Hdone.
  { intros l hole top v n Hn [He _] Hp Hle. exists (<[hole:=v]> l). unfold store.
    rewrite decide_True by lia. split; [done|]. split; [|split; [done|]].
    - intros i a b Hi Ht Ha Hb. destruct (decide (i = hole)) as [->|Hne]; [|by apply (He i)].
      pose proof (parent_lt hole ltac:(lia)). rewrite lookup_upd in Ha, Hb by lia.
      rewrite decide_True in Ha by done. rewrite decide_False in Hb by lia.
      injection Ha as <-. apply Hp; [lia|done].
    - intros i Hi. rewrite lookup_upd, decide_False by lia. done. }
  induction fuel as [|fuel IH]; intros l hole top v n Hf Hb Hn He; [lia|].
  pose proof (below_le _ _ Hb) as Hle. cbn [push_loop].
  destruct (Nat.ltb_spec top hole) as [Hlt|Hge]; [|apply Hdone; [done|done|lia|done]].
  pose proof (parent_lt hole ltac:(lia)) as Hp.
  destruct (lookup_lt_is_Some_2 l (parent hole)) as [x Hx]; [lia|].
  rewrite Hx. cbn [mbind option_bind].
  destruct (comp x v) eqn:Hc.
  2: { apply Hdone; [done|done| |done]. intros _ y [= <-]%(eq_trans (eq_sym Hx)). done. }
  unfold store. rewrite decide_True by lia. cbn [mbind option_bind].
  destruct (IH (<[hole:=x]> l) (parent hole) top v n) as (l' & E & H1 & H2 & H3).
  - lia.
  - by apply below_parent.
  - rewrite length_insert. lia.
  - apply except_up; [done|lia|lia|done..].
  - exists l'. split; [done|]. split; [done|]. split.
    + rewrite H2. by apply upd_swap; [lia| |lia].
    + intros i Hi. rewrite H3, lookup_upd, decide_False by lia. done.
Qed.

(** ** adjust *)
Lemma hollow_step top n hole s l w :
  below top hole -> (hole < n <= length l)%nat -> (0 < s < n)%nat -> parent s = hole ->
  l !! s = Some w ->
  (forall o x, (0 < o < n)%nat -> parent o = hole -> o <> s -> l !! o = Some x -> le x w) ->
  hollow top n hole l -> hollow top n s (<[hole:=w]> l).
Proof.
  intros Hb Hn Hs Hp Hw Ho [Ha Hg]. pose proof (below_le _ _ Hb) as Hle.
  pose proof (parent_lt s ltac:(lia)) as Hlt. rewrite Hp in Hlt. split.
  - intros i x y Hi Ht Hne Hpne. rewrite !lookup_upd by lia.
    destruct (decide (hole = i)) as [<-|Hih].
    + intros [= <-]. pose proof (parent_lt hole ltac:(lia)).
      rewrite decide_False by lia. intros Hy. by apply (Hg ltac:(lia) s w y).
    + destruct (decide (hole = parent i)) as [Hhp|Hhp].
      * intros Hx [= <-]. by apply (Ho i).
      * intros Hx Hy. by apply (Ha i).
  - intros _ i x z Hi Hpi. rewrite Hp, !lookup_upd by lia.
    pose proof (parent_lt i ltac:(lia)).
    rewrite (decide_False (P := hole = i)), (decide_True (P := hole = hole)) by (done || lia).
    intros Hx [= <-]. apply (Ha i x w); [done|lia|lia|lia|done|by rewrite Hpi].
Qed.

(** The hole reaches a node with at most one child, and the element it leaves
    behind is the one of the node it reaches. *)
Lemma sift_loop_spec fuel : forall l hole top n,
  (n - hole < fuel)%nat -> below top hole -> (hole < n <= length l)%nat ->
  hollow top n hole l ->
  exists l' h, sift_loop comp fuel l hole n = Some (l', h) /\ below top h /\ (h < n)%nat /\
    ((n - 1) / 2 <= h)%nat /\ hollow top n h l' /\ length l' = length l /\
    (forall v, <[h:=v]> l' ≡ₚ <[hole:=v]> l) /\ forall i, (n <= i)%nat -> l' !! i = l !! i.
Proof.
  induction fuel as [|fuel IH]; intros l hole top n Hf Hb Hn Hh; [lia|].
  cbn [sift_loop]. destruct (Nat.ltb_spec hole ((n - 1) / 2)) as [Hlt|Hge].
  2: { exists l, hole. split; [done|]. repeat split; try done; try lia; apply Hh. }
  pose proof (Nat.div_mod (n - 1) 2 ltac:(lia)).
  destruct (lookup_lt_is_Some_2 l (2 * (hole + 1))) as [x Hx]; [lia|].
  destruct (lookup_lt_is_Some_2 l (2 * (hole + 1) - 1)) as [y Hy]; [lia|].
  rewrite Hx, Hy. cbn [mbind option_bind].
  set (ch := if comp x y then ((2 * (hole + 1) - 1)%nat, y) else ((2 * (hole + 1))%nat, x)).
  assert (exists s w, ch = (s, w) /\ (0 < s < n)%nat /\ parent s = hole /\ l !! s = Some w /\
    forall o z, (0 < o < n)%nat -> parent o = hole -> o <> s -> l !! o = Some z -> le z w)
    as (s & w & -> & Hs & Hp & Hw & Ho).
  { unfold ch. destruct (comp x y) eqn:Hc; eexists _, _; (split; [done|]).
    - split; [lia|]. split; [apply parent_children; lia|]. split; [done|].
      intros o z Hoi Hpo Hne Hz. apply parent_children in Hpo; [|lia].
      replace o with (2 * (hole + 1))%nat in Hz by lia. rewrite Hx in Hz. injection Hz as <-.
      by apply le_total.
    - split; [lia|]. split; [apply parent_children; lia|]. split; [done|].
      intros o z Hoi Hpo Hne Hz. apply parent_children in Hpo; [|lia].
      replace o with (2 * (hole + 1) - 1)%nat in Hz by lia. rewrite Hy in Hz. by injection Hz as <-. }
  unfold store. rewrite decide_True by lia. cbn [mbind option_bind].
  pose proof (parent_lt s ltac:(lia)) as Hsl. rewrite Hp in Hsl.
  destruct (IH (<[hole:=w]> l) s top n) as (l' & h & E & H1 & H2 & H3 & H4 & H5 & H6 & H7).
  - lia.
  - apply below_child; [lia|by rewrite Hp].
  - rewrite length_insert. lia.
  - by apply hollow_step.
  - exists l', h. split; [done|]. split; [done|]. split; [done|]. split; [done|].
    split; [done|]. split; [by rewrite H5, length_insert|]. split.
    + intros v. rewrite H6. apply upd_swap; [lia|done|lia].
    + intros i Hi. rewrite H7, lookup_upd, decide_False by lia. done.
Qed.

(** A leaf can be filled with any element. *)
Lemma hollow_leaf top n h l v :
  (h < n <= length l)%nat -> (n <= 2 * h + 1)%nat -> hollow top n h l ->
  except top n h (<[h:=v]> l).
Proof.
  intros Hn Hleaf [Ha _]. split.
  - intros i x y Hi Ht Hne. rewrite !lookup_upd by lia. rewrite decide_False by done.
    destruct (decide (h = parent i)) as [Hp|Hp].
    + symmetry in Hp. apply parent_children in Hp; lia.
    + intros Hx Hy. by apply (Ha i).
  - intros _ i x z Hi Hp. apply parent_children in Hp; lia.
Qed.

Lemma adjust_heap_spec l top n v :
  (top < n <= length l)%nat -> hollow top n top l ->
  exists l', __adjust_heap comp l top n v = Some l' /\ heap_from top n l' /\
    l' ≡ₚ <[top:=v]> l /\ forall i, (n <= i)%nat -> l' !! i = l !! i.
Proof.
  intros Hn Hh. unfold __adjust_heap.
  destruct (sift_loop_spec (S n) l top top n) as (l1 & h & E & Hb & Hhn & Hge & Hhol & Hlen & Hperm & Htl);
    [lia|constructor|done|done|].
  rewrite E. cbn [mbind option_bind].
  pose proof (Nat.div_mod n 2 ltac:(lia)) as D1.
  pose proof (Nat.div_mod (n - 1) 2 ltac:(lia)) as D2.
  pose proof (Nat.mod_upper_bound n 2 ltac:(lia)) as D3.
  pose proof (Nat.mod_upper_bound (n - 1) 2 ltac:(lia)) as D4.
  destruct (Nat.even n && (h + 1 =? n / 2)%nat) eqn:Ec.
  - apply andb_prop in Ec as [Hev Eh]. apply Nat.eqb_eq in Eh.
    apply Nat.even_spec in Hev as [k Hk].
    set (c := (2 * (h + 1) - 1)%nat). assert (c = n - 1)%nat as Hc by lia.
    destruct (lookup_lt_is_Some_2 l1 c) as [x Hx]; [lia|].
    rewrite Hx. cbn [mbind option_bind]. unfold store. rewrite decide_True by lia.
    cbn [mbind option_bind]. assert (parent c = h) as Hpc by (apply parent_children; lia).
    destruct (push_loop_spec (S c) (<[h:=x]> l1) c top v n) as (l' & E' & H1 & H2 & H3).
    + lia.
    + apply below_child; [lia|by rewrite Hpc].
    + rewrite length_insert. lia.
    + apply hollow_leaf; [rewrite length_insert; lia|lia|].
      apply hollow_step; try done; try lia.
      intros o z Ho Hpo Hne. apply parent_children in Hpo; lia.
    + exists l'. split; [exact E'|]. split; [done|]. split.
      * rewrite H2, <-Hperm. apply upd_swap; [lia|done|lia].
      * intros i Hi. rewrite H3, lookup_upd, decide_False by lia. by apply Htl.
  - assert (n <= 2 * h + 1)%nat as Hleaf.
    { apply andb_false_iff in Ec as [Ec|Ec].
      - assert (Nat.odd n = true) as Ho by (unfold Nat.odd; by rewrite Ec).
        apply Nat.odd_spec in Ho as [k Hk]. lia.
      - apply Nat.eqb_neq in Ec. lia. }
    destruct (push_loop_spec (S h) l1 h top v n) as (l' & E' & H1 & H2 & H3).
    + lia.
    + done.
    + lia.
    + apply hollow_leaf; [lia|done|done].
    + exists l'. split; [exact E'|]. split; [done|]. split; [by rewrite H2, <-Hperm|].
      intros i Hi. rewrite H3 by done. by apply Htl.
Qed.

(** ** make, push, pop and sort *)
Lemma make_step par l n :
  (par < n <= length l)%nat -> heap_from (S par) n l ->
  exists v l1, l !! par = Some v /\ __adjust_heap comp l par n v = Some l1 /\
    heap_from par n l1 /\ l1 ≡ₚ l /\ forall i, (n <= i)%nat -> l1 !! i = l !! i.
Proof.
  intros Hn Hh. destruct (lookup_lt_is_Some_2 l par) as [v Hv]; [lia|].
  destruct (adjust_heap_spec l par n v) as (l1 & E & H1 & H2 & H3); [done| |].
  { split; [|intros ?; lia]. intros i x y Hi Ht Hne Hpne. apply Hh; [done|lia]. }
  exists v, l1. rewrite list_insert_id in H2 by done. auto.
Qed.

Lemma make_loop_spec par : forall l n,
  (par < n <= length l)%nat -> heap_from (S par) n l ->
  exists l', make_loop comp l n par = Some l' /\ heap_from 0 n l' /\ l' ≡ₚ l /\
    forall i, (n <= i)%nat -> l' !! i = l !! i.
Proof.
  induction par as [|par IH]; intros l n Hn Hh; cbn [make_loop];
    destruct (make_step _ l n Hn Hh) as (v & l1 & Hv & E & H1 & H2 & H3);
    rewrite Hv; cbn [mbind option_bind]; rewrite E; cbn [mbind option_bind].
  - exists l1. done.
  - pose proof (Permutation_length H2).
    destruct (IH l1 n ltac:(lia) H1) as (l2 & E2 & H4 & H5 & H6).
    exists l2. split; [done|]. split; [done|]. split; [by rewrite H5|].
    intros i Hi. by rewrite H6, H3.
Qed.

Lemma make_heap_spec l n : (n <= length l)%nat ->
  exists l', __make_heap comp l n = Some l' /\ heap_from 0 n l' /\ l' ≡ₚ l /\
    forall i, (n <= i)%nat -> l' !! i = l !! i.
Proof.
  intros Hn. unfold __make_heap. destruct (Nat.ltb_spec n 2) as [Hlt|Hge].
  { exists l. split; [done|]. split; [|done]. intros i x y Hi. lia. }
  pose proof (Nat.div_mod (n - 2) 2 ltac:(lia)). pose proof (Nat.mod_upper_bound (n - 2) 2 ltac:(lia)).
  apply make_loop_spec; [lia|]. intros i x y Hi Ht.
  pose proof (proj1 (parent_children i _ ltac:(lia)) eq_refl). lia.
Qed.

Lemma push_heap_spec l n v :
  (n < length l)%nat -> l !! n = Some v -> heap_from 0 n l ->
  exists l', __push_heap comp l n 0 v = Some l' /\ heap_from 0 (S n) l' /\ l' ≡ₚ l /\
    forall i, (n < i)%nat -> l' !! i = l !! i.
Proof.
  intros Hn Hv Hh.
  assert (below 0 n) as Hb.
  { clear. induction (lt_wf n) as [n _ IH]. destruct (decide (n = 0%nat)) as [->|]; [constructor|].
    apply below_child; [lia|]. apply IH, parent_lt. lia. }
  destruct (push_loop_spec (S n) l n 0 v (S n)) as (l' & E & H1 & H2 & H3); [lia|done|lia| |].
  { rewrite list_insert_id by done. split.
    - intros i x y Hi _ Hne. apply Hh; lia.
    - intros _ i x z Hi Hp. apply parent_children in Hp; lia. }
  exists l'. split; [done|]. split; [done|]. rewrite list_insert_id in H2 by done.
  split; [done|]. intros i Hi. apply H3. lia.
Qed.

Lemma heap_top n l x0 : heap_from 0 n l -> l !! 0%nat = Some x0 -> (n <= length l)%nat ->
  forall i x, (i < n)%nat -> l !! i = Some x -> le x x0.
Proof.
  intros Hh H0 Hn i. induction (lt_wf i) as [i _ IH]. intros x Hi Hx.
  destruct (decide (i = 0%nat)) as [->|Hne].
  { rewrite H0 in Hx. injection Hx as <-. apply le_refl. }
  pose proof (parent_lt i ltac:(lia)) as Hp.
  destruct (lookup_lt_is_Some_2 l (parent i)) as [y Hy]; [lia|].
  apply (le_trans _ y); [apply (Hh i); [lia|lia|done|done]|]. apply (IH (parent i)); [done|lia|done].
Qed.

(** The largest element ends at the back, the others are a heap. *)
(** The element at [r], behind the heap, and the top change places; then the
    heap is rearranged. *)
Lemma pop_heap_swap l n r :
  (0 < n <= r)%nat -> (r < length l)%nat -> heap_from 0 n l ->
  exists l' v x0, __pop_heap comp l n r = Some l' /\ heap_from 0 n l' /\
    l !! r = Some v /\ l !! 0%nat = Some x0 /\ l' ≡ₚ <[0%nat:=v]> (<[r:=x0]> l) /\
    forall i, (n <= i)%nat -> l' !! i = <[r:=x0]> l !! i.
Proof.
  intros Hn Hr Hh. unfold __pop_heap.
  destruct (lookup_lt_is_Some_2 l r) as [v Hv]; [lia|].
  destruct (lookup_lt_is_Some_2 l 0) as [x0 Hx]; [lia|].
  rewrite Hv, Hx. cbn [mbind option_bind]. unfold store. rewrite decide_True by lia.
  cbn [mbind option_bind].
  destruct (adjust_heap_spec (<[r:=x0]> l) 0 n v) as (l' & E & H1 & H2 & H3).
  - rewrite length_insert. lia.
  - split; [|intros ?; lia]. intros i x y Hi _ _ _. pose proof (parent_lt i ltac:(lia)).
    rewrite !lookup_upd, !decide_False by lia. apply Hh; lia.
  - by exists l', v, x0.
Qed.

Lemma pop_heap_at l n r :
  (0 < n <= r)%nat -> (r < length l)%nat -> heap_from 0 n l ->
  exists l' x0, __pop_heap comp l n r = Some l' /\ heap_from 0 n l' /\ l' ≡ₚ l /\
    l !! 0%nat = Some x0 /\ l' !! r = Some x0 /\
    forall i, (n <= i)%nat -> i <> r -> l' !! i = l !! i.
Proof.
  intros Hn Hr Hh. destruct (pop_heap_swap l n r Hn Hr Hh) as (l' & v & x0 & E & H1 & Hv & Hx & H2 & H3).
  exists l', x0. splits; try done.
  - rewrite H2. rewrite list_insert_insert_ne by lia. by apply Permutation_insert_swap.
  - rewrite H3 by lia. by apply list_lookup_insert_eq.
  - intros i Hi Hne. rewrite H3 by lia. by apply list_lookup_insert_ne.
Qed.

Lemma pop_heap_spec l n :
  (0 < n < length l)%nat -> heap_from 0 (S n) l ->
  exists l' x0, __pop_heap comp l n n = Some l' /\ heap_from 0 n l' /\ l' ≡ₚ l /\
    l !! 0%nat = Some x0 /\ l' !! n = Some x0 /\
    forall i, (n < i)%nat -> l' !! i = l !! i.
Proof.
  intros Hn Hh. destruct (pop_heap_at l n n) as (l' & x0 & E & H1 & H2 & H3 & H4 & H5);
    [lia|lia|intros i x y Hi; apply Hh; lia|].
  exists l', x0. splits; try done. intros i Hi. apply H5; lia.
Qed.

Lemma sorted_snoc s y : StronglySorted le s -> Forall (fun x => le x y) s ->
  StronglySorted le (s ++ [y]).
Proof.
  induction 1 as [|x s Hs IH Hx]; intros Hy; simpl; [by repeat constructor|].
  apply Forall_cons in Hy as [Hxy Hy]. constructor; [by apply IH|].
  apply Forall_app. split; [done|by constructor].
Qed.

(** The parts of a list whose tail is kept. *)
Lemma tail_kept l l' n : l' ≡ₚ l -> (forall i, (n <= i)%nat -> l' !! i = l !! i) ->
  drop n l' = drop n l /\ take n l' ≡ₚ take n l.
Proof.
  intros Hp Ht. assert (drop n l' = drop n l) as Hd.
  { apply list_eq. intros i. rewrite !lookup_drop. apply Ht. lia. }
  split; [done|]. apply (Permutation_app_inv_r (drop n l)). rewrite <-Hd at 1.
  by rewrite !take_drop.
Qed.

Lemma sort_heap_spec n : forall l, (n <= length l)%nat -> heap_from 0 n l ->
  exists s, __sort_heap comp l n = Some (s ++ drop n l) /\ s ≡ₚ take n l /\ StronglySorted le s.
Proof.
  induction n as [|n IH]; intros l Hn Hh.
  { exists []. rewrite drop_0. repeat split; constructor. }
  destruct n as [|n].
  { exists (take 1 l). rewrite take_drop. split; [done|]. split; [done|].
    destruct l; [simpl in Hn; lia|]. repeat constructor. }
  change (__sort_heap comp l (S (S n))) with
    (l ← __pop_heap comp l (S n) (S n); __sort_heap comp l (S n)).
  destruct (pop_heap_spec l (S n) ltac:(lia) Hh) as (l1 & x0 & E & H1 & H2 & Hx & Hl & H3).
  rewrite E. cbn [mbind option_bind]. pose proof (Permutation_length H2) as Hlen.
  destruct (IH l1 ltac:(lia) H1) as (s & E' & Hs & Hso). rewrite E'.
  destruct (tail_kept l l1 (S (S n)) H2 ltac:(intros; apply H3; lia)) as [Hd Ht].
  rewrite (drop_S l1 x0 (S n) Hl), Hd. exists (s ++ [x0]).
  rewrite <-app_assoc. split; [done|].
  assert (s ++ [x0] ≡ₚ take (S (S n)) l) as Hperm.
  { rewrite <-Ht, (take_S_r l1 (S n) x0 Hl). by rewrite Hs. }
  split; [done|]. apply sorted_snoc; [done|]. apply Forall_forall. intros x Hxs.
  assert (x ∈ take (S (S n)) l) as Hin by (rewrite <-Hperm; set_solver).
  apply list_elem_of_lookup in Hin as [i Hi]. apply lookup_take_Some in Hi as [Hi Hlt].
  by apply (heap_top (S (S n)) l x0 Hh Hx Hn i).
Qed.

(** Heap sort.  For every strict weak order, [make_heap] followed by
    [sort_heap] sorts the range: both return, without an access outside it,
    the result is a permutation of the range in which no element is before an
    earlier one, and what lies behind the range is untouched. *)
Theorem heap_sort_sorts l (n : nat) : (n <= length l)%nat ->
  exists h s, make_heap_comp comp l n = Some h /\ sort_heap_comp comp h n = Some (s ++ drop n l) /\
    s ≡ₚ take n l /\ StronglySorted le s.
Proof.
  intros Hn. destruct (make_heap_spec l n Hn) as (h & E & H1 & H2 & H3).
  destruct (tail_kept l h n H2 H3) as [Hd Ht].
  pose proof (Permutation_length H2) as Hl.
  destruct (sort_heap_spec n h ltac:(lia) H1) as (s & E' & Hs & Hso).
  exists h, s. rewrite Hd in E'. split; [exact E|]. split; [exact E'|].
  split; [by rewrite Hs|done].
Qed.

(** Pushing and popping keep the heap; the popped element is no smaller than
    any that stays. *)
Theorem priority_queue_operations l (n : nat) : (S n <= length l)%nat ->
  (heap_from 0 n l -> exists l', push_heap_comp comp l (S n) = Some l' /\
     heap_from 0 (S n) l' /\ l' ≡ₚ l) /\
  (heap_from 0 (S n) l -> exists l', pop_heap_comp comp l (S n) = Some l' /\
     heap_from 0 n l' /\ l' ≡ₚ l /\
     forall x y i, l' !! n = Some x -> (i < n)%nat -> l' !! i = Some y -> le y x).
Proof.
  intros Hn. split; intros Hh.
  - destruct (lookup_lt_is_Some_2 l n) as [v Hv]; [lia|].
    destruct (push_heap_spec l n v Hn Hv Hh) as (l' & E & H1 & H2 & _).
    exists l'. unfold push_heap_comp. rewrite Nat.sub_succ, Nat.sub_0_r, Hv. auto.
  - unfold pop_heap_comp. destruct n as [|n].
    { exists l. split; [done|]. split; [intros i x y Hi; lia|]. split; [done|]. intros; lia. }
    destruct (pop_heap_spec l (S n) ltac:(lia) Hh) as (l' & x0 & E & H1 & H2 & Hx & Hl & H3).
    exists l'. rewrite Nat.sub_succ, Nat.sub_0_r. split; [exact E|]. split; [done|].
    split; [done|]. intros x y i [= <-]%(eq_trans (eq_sym Hl)) Hi Hy.
    destruct (tail_kept l l' (S (S n)) H2 ltac:(intros; apply H3; lia)) as [_ Ht].
    assert (y ∈ take (S (S n)) l) as Hin.
    { rewrite <-Ht. apply list_elem_of_lookup. exists i. apply lookup_take_Some. split; [done|lia]. }
    apply list_elem_of_lookup in Hin as [j Hj]. apply lookup_take_Some in Hj as [Hj Hlt].
    by apply (heap_top (S (S n)) l x0 Hh Hx Hn j).
Qed.

(** [is_heap_until] finds the first element that is out of order with its
    parent, or the end of the range. *)
Theorem is_heap_until_spec l (n : nat) : (n <= length l)%nat ->
  exists m, is_heap_until_comp comp l n = Some m /\ heap_from 0 (m `min` n) l /\
    ((1 <= m < n)%nat /\ ~ heap_from 0 (S m) l \/ m = n).
Proof.
  intros Hn. unfold is_heap_until_comp, __is_heap_until.
  assert (forall fuel child, (n < fuel + child)%nat -> (1 <= fuel)%nat -> (1 <= child)%nat ->
    heap_from 0 (child `min` n) l ->
    exists m, is_heap_until_loop comp fuel l n (parent child) child = Some m /\
      heap_from 0 (m `min` n) l /\ ((1 <= m < n)%nat /\ ~ heap_from 0 (S m) l \/ m = n)) as Hloop.
  2: { apply (Hloop (S n) 1%nat); [lia|lia|lia|]. intros i x y Hi. lia. }
  induction fuel as [|fuel IH]; intros child Hf H1f Hc Hh; cbn [is_heap_until_loop]; [lia|].
  destruct (Nat.ltb_spec child n) as [Hlt|Hge].
  2: { exists n. split; [done|]. rewrite Nat.min_r in Hh by done. rewrite Nat.min_id. auto. }
  pose proof (parent_lt child ltac:(lia)) as Hp. rewrite Nat.min_l in Hh by lia.
  destruct (lookup_lt_is_Some_2 l (parent child)) as [x Hx]; [lia|].
  destruct (lookup_lt_is_Some_2 l child) as [y Hy]; [lia|].
  rewrite Hx, Hy. cbn [mbind option_bind]. destruct (comp x y) eqn:Ec.
  - exists child. split; [done|]. rewrite Nat.min_l by lia. split; [done|]. left. split; [lia|].
    intros Hbad. specialize (Hbad child y x ltac:(lia) ltac:(lia) Hy Hx). unfold le in Hbad. congruence.
  - replace (if Nat.even child then S (parent child) else parent child) with (parent (S child)).
    2: { destruct (Nat.even child) eqn:Ev.
         - apply Nat.even_spec in Ev as [k ->]. symmetry.
           pose proof (proj2 (parent_children (2 * k) (k - 1) ltac:(lia)) ltac:(lia)) as ->.
           symmetry. apply parent_children; lia.
         - assert (Nat.odd child = true) as Ho by (unfold Nat.odd; by rewrite Ev).
           apply Nat.odd_spec in Ho as [k ->].
           pose proof (proj2 (parent_children (2 * k + 1) k ltac:(lia)) ltac:(lia)) as ->.
           apply parent_children; lia. }
    apply IH; [lia|lia|lia|]. rewrite Nat.min_l by lia. intros i a b Hi _ Ha Hb.
    destruct (decide (i = child)) as [->|Hne]; [|apply (Hh i); [lia|lia|done|done]].
    rewrite Hy in Ha. rewrite Hx in Hb. injection Ha as <-. injection Hb as <-. exact Ec.
Qed.
End Props.

Lemma heap_sort_sorts_witness :
  exists h s, make_heap_comp Z.ltb [3; 1; 4; 1; 5; 9; 2; 6] 8 = Some h /\
    sort_heap_comp Z.ltb h 8 = Some (s ++ []) /\ s ≡ₚ [3; 1; 4; 1; 5; 9; 2; 6].
Proof.
  destruct (heap_sort_sorts Z.ltb [3; 1; 4; 1; 5; 9; 2; 6] 8) as (h & s & H1 & H2 & H3 & _).
  - simpl. lia.
  - exists h, s. split; [exact H1|]. split; [exact H2|exact H3].
Defined.
