(* ===== verification/AlgoBase.v ===== *)
(** * The basic algorithms of the C++ library: [bits/stl_algobase.h]

    All iterators of an algorithm point into one memory, a list, and are
    indices in it: ranges that overlap are modelled as the code sees them.  An
    access outside the memory is [None].  The random-access versions are the
    ones modelled where the library chooses by iterator category.  A value is
    copied where the code moves it.  [eqb] and [less] stand for the operators
    of the element type, [comp] and [pred] for a functor. *)
From S2P Require Import Prelude Heap.

Section AlgoBase.
Context {A : Type}.
Implicit Types m : list A.

(** [comp] applied to two iterators, to an iterator and a value. *)
Definition comp_at (comp : A -> A -> bool) m (i j : nat) : option bool :=
  x ← m !! i; y ← m !! j; Some (comp x y).
Definition comp_val (comp : A -> A -> bool) m (i : nat) (val : A) : option bool :=
  x ← m !! i; Some (comp x val).
Definition val_comp (comp : A -> A -> bool) m (val : A) (i : nat) : option bool :=
  y ← m !! i; Some (comp val y).

(** ** Swapping *)
Definition iter_swap m (a b : nat) : option (list A) :=
  x ← m !! a; y ← m !! b; m ← store a y m; store b x m.

(** The ranges are given by the first one's length. *)
Fixpoint swap_ranges_loop (n : nat) m (first1 first2 : nat) : option (list A * nat) :=
  match n with
  | O => Some (m, first2)
  | S n' => m ← iter_swap m first1 first2; swap_ranges_loop n' m (S first1) (S first2)
  end.
Definition swap_ranges m (first1 last1 first2 : nat) : option (list A * nat) :=
  swap_ranges_loop (last1 - first1) m first1 first2.

(** ** Minimum and maximum of two values *)
Definition min_comp (comp : A -> A -> bool) (a b : A) : A := if comp b a then b else a.
Definition max_comp (comp : A -> A -> bool) (a b : A) : A := if comp a b then b else a.
Definition min (less : A -> A -> bool) (a b : A) : A := if less b a then b else a.
Definition max (less : A -> A -> bool) (a b : A) : A := if less a b then b else a.

(** ** Copying

    [__copy_m] of random-access iterators, and [memmove] of [_Num] elements,
    which it is replaced by for trivial types. *)
Fixpoint copy_m (n : nat) m (first result : nat) : option (list A * nat) :=
  match n with
  | O => Some (m, result)
  | S n' => x ← m !! first; m ← store result x m; copy_m n' m (S first) (S result)
  end.
Definition copy m (first last result : nat) : option (list A * nat) :=
  copy_m (last - first) m first result.

(** [last] and [result] move down before the access. *)
Fixpoint copy_move_b (n : nat) m (last result : nat) : option (list A * nat) :=
  match n with
  | O => Some (m, result)
  | S n' =>
      match last, result with
      | S last', S result' =>
          x ← m !! last'; m ← store result' x m; copy_move_b n' m last' result'
      | _, _ => None
      end
  end.
Definition copy_backward m (first last result : nat) : option (list A * nat) :=
  copy_move_b (last - first) m last result.
Definition move_backward m (first last result : nat) : option (list A * nat) :=
  copy_move_b (last - first) m last result.

Definition memmove m (result first num : nat) : option (list A) :=
  if decide (first + num <= length m /\ result + num <= length m)%nat
  then Some (take result m ++ take num (drop first m) ++ drop (result + num) m)
  else None.
Definition copy_trivial m (first last result : nat) : option (list A * nat) :=
  let num := (last - first)%nat in
  if (num =? 0)%nat then Some (m, result)
  else m ← memmove m result first num; Some (m, (result + num)%nat).
Definition copy_backward_trivial m (first last result : nat) : option (list A * nat) :=
  let num := (last - first)%nat in
  if (num =? 0)%nat then Some (m, result)
  else if (result <? num)%nat then None
  else m ← memmove m (result - num) first num; Some (m, (result - num)%nat).

(** ** Filling *)
Fixpoint fill_n_a (n : nat) m (first : nat) (value : A) : option (list A * nat) :=
  match n with
  | O => Some (m, first)
  | S n' => m ← store first value m; fill_n_a n' m (S first) value
  end.
Definition fill_n m (first n : nat) (value : A) : option (list A * nat) := fill_n_a n m first value.
Definition fill m (first last : nat) (value : A) : option (list A) :=
  '(m, _) ← fill_n_a (last - first) m first value; Some m.

(** ** Comparing ranges *)
Fixpoint equal_loop (pred : A -> A -> bool) (n : nat) m (first1 first2 : nat) : option bool :=
  match n with
  | O => Some true
  | S n' =>
      b ← comp_at pred m first1 first2;
      if (b : bool) then equal_loop pred n' m (S first1) (S first2) else Some false
  end.
Definition equal_pred (pred : A -> A -> bool) m (first1 last1 first2 : nat) : option bool :=
  equal_loop pred (last1 - first1) m first1 first2.
Definition equal (eqb : A -> A -> bool) m (first1 last1 first2 : nat) : option bool :=
  equal_loop eqb (last1 - first1) m first1 first2.

(** Four random-access iterators: the lengths are compared first. *)
Definition __equal4_pred (pred : A -> A -> bool) m (first1 last1 first2 last2 : nat) : option bool :=
  if negb (last1 - first1 =? last2 - first2)%nat then Some false
  else equal_pred pred m first1 last1 first2.
Definition __equal4 (eqb : A -> A -> bool) m (first1 last1 first2 last2 : nat) : option bool :=
  if negb (last1 - first1 =? last2 - first2)%nat then Some false
  else equal eqb m first1 last1 first2.

(** [__newlast1] cuts the first range to the length of the second. *)
Definition __newlast1 (first1 last1 first2 last2 : nat) : nat :=
  if (last2 - first2 <? last1 - first1)%nat then (first1 + (last2 - first2))%nat else last1.

Fixpoint lexicographical_loop (comp : A -> A -> bool) (n : nat) m (first1 last1 first2 last2 : nat) :
    option bool :=
  match n with
  | O => Some ((first1 =? last1)%nat && negb (first2 =? last2)%nat)
  | S n' =>
      b ← comp_at comp m first1 first2;
      if (b : bool) then Some true
      else
        b ← comp_at comp m first2 first1;
        if (b : bool) then Some false
        else lexicographical_loop comp n' m (S first1) last1 (S first2) last2
  end.
Definition __lexicographical_compare_impl (comp : A -> A -> bool) m
    (first1 last1 first2 last2 : nat) : option bool :=
  let last1 := __newlast1 first1 last1 first2 last2 in
  lexicographical_loop comp (last1 - first1) m first1 last1 first2 last2.
Definition lexicographical_compare (less : A -> A -> bool) m
    (first1 last1 first2 last2 : nat) : option bool :=
  __lexicographical_compare_impl less m first1 last1 first2 last2.
Definition lexicographical_compare_comp (comp : A -> A -> bool) m
    (first1 last1 first2 last2 : nat) : option bool :=
  __lexicographical_compare_impl comp m first1 last1 first2 last2.

Fixpoint mismatch_loop (pred : A -> A -> bool) (n : nat) m (first1 first2 : nat) :
    option (nat * nat) :=
  match n with
  | O => Some (first1, first2)
  | S n' =>
      b ← comp_at pred m first1 first2;
      if (b : bool) then mismatch_loop pred n' m (S first1) (S first2)
      else Some (first1, first2)
  end.
Definition __mismatch (pred : A -> A -> bool) m (first1 last1 first2 : nat) : option (nat * nat) :=
  mismatch_loop pred (last1 - first1) m first1 first2.
(** The loop ends with the shorter range. *)
Definition __mismatch4 (pred : A -> A -> bool) m (first1 last1 first2 last2 : nat) :
    option (nat * nat) :=
  mismatch_loop pred (Nat.min (last1 - first1) (last2 - first2)) m first1 first2.

(** ** Binary search for the first element that is not less *)
Fixpoint lower_bound_loop (fuel : nat) (comp : A -> A -> bool) m (first len : nat) (val : A) :
    option nat :=
  match fuel with
  | O => None
  | S fuel' =>
      if (0 <? len)%nat then
        let half := (len / 2)%nat in
        let middle := (first + half)%nat in
        b ← comp_val comp m middle val;
        if (b : bool) then lower_bound_loop fuel' comp m (S middle) (len - half - 1) val
        else lower_bound_loop fuel' comp m first half val
      else Some first
  end.
(** [len] at least halves: it bounds the number of steps. *)
Definition __lower_bound (comp : A -> A -> bool) m (first last : nat) (val : A) : option nat :=
  lower_bound_loop (S (last - first)) comp m first (last - first) val.
Definition lower_bound (less : A -> A -> bool) m (first last : nat) (val : A) : option nat :=
  __lower_bound less m first last val.
End AlgoBase.

(** [sizeof(n) * __CHAR_BIT__ - 1 - __builtin_clz(n)], for a positive [n]: the
    index of the highest bit. *)
Definition __lg (n : nat) : nat := Nat.log2 n.
