(* ===== verification/AlgoBaseProps.v ===== *)
(** * Ranges of a memory, and what the basic algorithms do to them

    An algorithm on [first, last) may only rearrange or overwrite that range;
    the lemmas on [slice], [rearranged] and [all_in] are shared by all the
    correctness proofs of the algorithms. *)
From Stdlib Require Import Sorted.
From S2P Require Import Prelude Heap HeapProps AlgoBase.

#[local] Set Default Proof Using "Type*".

Section Ranges.
Context {A : Type}.
Implicit Types m s : list A.

(** The elements of [first, last). *)
Definition slice (first last : nat) m : list A := take (last - first) (drop first m).

Lemma slice_split first last m : (first <= last)%nat ->
  m = take first m ++ slice first last m ++ drop last m.
Proof.
  intros Hf. unfold slice. rewrite <-(take_drop first m) at 1. f_equal.
  rewrite <-(take_drop (last - first) (drop first m)) at 1. f_equal.
  rewrite drop_drop. f_equal. lia.
Qed.

Lemma length_slice first last m : (first <= last <= length m)%nat ->
  length (slice first last m) = (last - first)%nat.
Proof. intros. unfold slice. rewrite length_take, length_drop. lia. Qed.

Lemma slice_app pre s post : slice (length pre) (length pre + length s) (pre ++ s ++ post) = s.
Proof.
  unfold slice. rewrite drop_app_length. apply take_app_length'. lia.
Qed.

Lemma lookup_slice first last m i :
  slice first last m !! i = if decide (i < last - first)%nat then m !! (first + i)%nat else None.
Proof.
  unfold slice. case_decide.
  - by rewrite lookup_take_lt, lookup_drop by lia.
  - by rewrite lookup_take_ge by lia.
Qed.

(** [P] holds of every element of the range. *)
Definition all_in (first last : nat) (P : A -> Prop) m : Prop :=
  forall i x, (first <= i < last)%nat -> m !! i = Some x -> P x.

Lemma all_in_slice first last P m : all_in first last P m <-> Forall P (slice first last m).
Proof.
  rewrite Forall_lookup. split.
  - intros Ha i x Hx. rewrite lookup_slice in Hx. case_decide; [|done].
    apply (Ha (first + i)%nat); [lia|done].
  - intros Hs i x Hi Hx. apply (Hs (i - first)%nat). rewrite lookup_slice, decide_True by lia.
    rewrite <-Hx. f_equal; lia.
Qed.

(** Only the order of the elements in the range has changed. *)
Record rearranged (first last : nat) m m' : Prop := Rearranged {
  re_perm : m' ≡ₚ m;
  re_frame : forall i, (i < first \/ last <= i)%nat -> m' !! i = m !! i }.

Lemma rearranged_refl first last m : rearranged first last m m.
Proof. by split. Qed.

Lemma rearranged_trans first last m1 m2 m3 :
  rearranged first last m1 m2 -> rearranged first last m2 m3 -> rearranged first last m1 m3.
Proof.
  intros [P1 F1] [P2 F2]. split; [by rewrite P2|]. intros i Hi. by rewrite F2, F1.
Qed.

Lemma rearranged_weaken first last first' last' m m' :
  rearranged first last m m' -> (first' <= first)%nat -> (last <= last')%nat ->
  rearranged first' last' m m'.
Proof. intros [P1 F1] Hf Hl. split; [done|]. intros i Hi. apply F1. lia. Qed.

Lemma rearranged_length first last m m' : rearranged first last m m' -> length m' = length m.
Proof. intros [Hp _]. by apply Permutation_length. Qed.

Lemma rearranged_drop first last m m' : rearranged first last m m' -> drop last m' = drop last m.
Proof. intros [_ Hf]. apply list_eq. intros i. rewrite !lookup_drop. apply Hf. lia. Qed.

Lemma rearranged_take first last m m' : rearranged first last m m' -> take first m' = take first m.
Proof.
  intros Hr. apply list_eq. intros i. destruct (decide (i < first)%nat) as [Hi|Hi].
  - rewrite !lookup_take_lt by done. apply Hr. lia.
  - by rewrite !lookup_take_ge by lia.
Qed.

Lemma rearranged_slice first last m m' : (first <= last)%nat ->
  rearranged first last m m' -> slice first last m' ≡ₚ slice first last m.
Proof.
  intros Hf Hr. apply (Permutation_app_inv_r (drop last m)).
  apply (Permutation_app_inv_l (take first m)).
  rewrite <-(rearranged_take _ _ _ _ Hr) at 1. rewrite <-(rearranged_drop _ _ _ _ Hr) at 1.
  rewrite <-!slice_split by done. apply Hr.
Qed.

Lemma rearranged_split first last m m' : (first <= last)%nat -> rearranged first last m m' ->
  m' = take first m ++ slice first last m' ++ drop last m.
Proof.
  intros Hf Hr. rewrite <-(rearranged_take _ _ _ _ Hr), <-(rearranged_drop _ _ _ _ Hr).
  by apply slice_split.
Qed.

Lemma rearranged_app pre s s' post : s' ≡ₚ s ->
  rearranged (length pre) (length pre + length s) (pre ++ s ++ post) (pre ++ s' ++ post).
Proof.
  intros Hp. pose proof (Permutation_length Hp) as Hl. split; [by rewrite Hp|].
  intros i [Hi|Hi].
  - by rewrite !lookup_app_l by lia.
  - rewrite !lookup_app_r by lia. by rewrite Hl.
Qed.

(** Facts about a range survive a rearrangement of it, or of a range apart. *)
Lemma rearranged_all first last P m m' :
  rearranged first last m m' -> all_in first last P m -> all_in first last P m'.
Proof.
  destruct (decide (first <= last)%nat) as [Hle|?]; [|by intros _ _ i x Hi; lia].
  intros Hr. rewrite !all_in_slice. by rewrite (rearranged_slice _ _ _ _ Hle Hr).
Qed.

Lemma rearranged_all_sub first last first' last' P m m' :
  rearranged first last m m' -> (first' <= first)%nat -> (last <= last')%nat ->
  all_in first' last' P m -> all_in first' last' P m'.
Proof. intros Hr Hf Hl. apply rearranged_all. by eapply rearranged_weaken. Qed.

Lemma rearranged_all_apart first last first' last' P m m' :
  rearranged first last m m' -> (last' <= first \/ last <= first')%nat ->
  all_in first' last' P m -> all_in first' last' P m'.
Proof.
  intros Hr Ha Hall i x Hi Hx. apply (Hall i x Hi). rewrite <-Hx. symmetry. apply Hr. lia.
Qed.

Lemma all_in_weaken first last first' last' P m :
  (first <= first')%nat -> (last' <= last)%nat -> all_in first last P m -> all_in first' last' P m.
Proof. intros Hf Hl Ha i x Hi. apply Ha. lia. Qed.

Lemma all_in_impl first last (P Q : A -> Prop) m :
  (forall x, P x -> Q x) -> all_in first last P m -> all_in first last Q m.
Proof. intros Hi Ha i x Hx E. by apply Hi, (Ha i). Qed.

Lemma all_in_app first mid last P m :
  all_in first mid P m -> all_in mid last P m -> all_in first last P m.
Proof.
  intros H1 H2 i x Hi. destruct (decide (i < mid)%nat); [apply H1|apply H2]; lia.
Qed.

Lemma all_in_empty first last P m : (last <= first)%nat -> all_in first last P m.
Proof. intros Hf i x Hi. lia. Qed.

(** ** Swapping and storing *)
Lemma store_Some i x m : (i < length m)%nat -> store i x m = Some (<[i:=x]> m).
Proof. intros. unfold store. by rewrite decide_True. Qed.

Lemma iter_swap_spec m a b x y : m !! a = Some x -> m !! b = Some y ->
  exists m', iter_swap m a b = Some m' /\ m' = <[b:=x]> (<[a:=y]> m) /\ m' ≡ₚ m /\
    m' !! a = Some y /\ m' !! b = Some x /\ forall i, i <> a -> i <> b -> m' !! i = m !! i.
Proof.
  intros Ha Hb. pose proof (lookup_lt_Some _ _ _ Ha). pose proof (lookup_lt_Some _ _ _ Hb).
  exists (<[b:=x]> (<[a:=y]> m)). unfold iter_swap. rewrite Ha, Hb. cbn [mbind option_bind].
  rewrite store_Some by done. cbn [mbind option_bind].
  rewrite store_Some by (by rewrite length_insert). splits; try done.
  - destruct (decide (a = b)) as [->|Hne].
    + rewrite Ha in Hb. injection Hb as ->. by rewrite list_insert_insert_eq, list_insert_id.
    + by apply Permutation_insert_swap.
  - destruct (decide (a = b)) as [->|Hne].
    + rewrite Ha in Hb. injection Hb as ->. apply list_lookup_insert_eq. by rewrite length_insert.
    + rewrite list_lookup_insert_ne by done. by apply list_lookup_insert_eq.
  - apply list_lookup_insert_eq. by rewrite length_insert.
  - intros i Hia Hib. by rewrite !list_lookup_insert_ne by done.
Qed.

Lemma iter_swap_rearranged m a b first last : (first <= a < last)%nat -> (first <= b < last)%nat ->
  (last <= length m)%nat ->
  exists m', iter_swap m a b = Some m' /\ rearranged first last m m' /\
    m' !! a = m !! b /\ m' !! b = m !! a /\ forall i, i <> a -> i <> b -> m' !! i = m !! i.
Proof.
  intros Ha Hb Hl. destruct (lookup_lt_is_Some_2 m a) as [x Hx]; [lia|].
  destruct (lookup_lt_is_Some_2 m b) as [y Hy]; [lia|].
  destruct (iter_swap_spec m a b x y Hx Hy) as (m' & E & _ & Hp & H1 & H2 & H3).
  exists m'. split; [done|]. split; [split; [done|]|].
  - intros i Hi. apply H3; lia.
  - by rewrite Hx, Hy.
Qed.

(** ** Copying *)

(** [m'] is [m] with the [n] elements from [first] on written to [result]. *)
Definition copied (n first result : nat) m m' : Prop :=
  length m' = length m /\ forall i, m' !! i =
    if decide (result <= i < result + n)%nat then m !! (first + (i - result))%nat else m !! i.

Lemma copied_memmove n first result m m' :
  (first + n <= length m)%nat -> (result + n <= length m)%nat -> copied n first result m m' ->
  m' = take result m ++ take n (drop first m) ++ drop (result + n) m.
Proof.
  intros Hf Hr [_ Hl]. apply list_eq. intros i. rewrite Hl. case_decide as Hi.
  - rewrite lookup_app_r by (rewrite length_take; lia).
    rewrite lookup_app_l by (rewrite length_take, length_take, length_drop; lia).
    rewrite lookup_take_lt, lookup_drop by (rewrite length_take; lia).
    f_equal. rewrite length_take. lia.
  - destruct (decide (i < result)%nat).
    + rewrite lookup_app_l, lookup_take_lt by (try rewrite length_take; lia). done.
    + rewrite lookup_app_r by (rewrite length_take; lia).
      rewrite lookup_app_r by (rewrite !length_take, length_drop; lia).
      rewrite lookup_drop. f_equal. rewrite !length_take, length_drop. lia.
Qed.

Lemma copy_m_spec n : forall m first result,
  (first + n <= length m)%nat -> (result + n <= length m)%nat ->
  (result <= first \/ first + n <= result)%nat ->
  exists m', copy_m n m first result = Some (m', (result + n)%nat) /\ copied n first result m m'.
Proof.
  induction n as [|n IH]; intros m first result Hf Hr Ho; cbn [copy_m].
  { exists m. rewrite Nat.add_0_r. split; [done|]. split; [done|]. intros i.
    by rewrite decide_False by lia. }
  destruct (lookup_lt_is_Some_2 m first) as [x Hx]; [lia|]. rewrite Hx. cbn [mbind option_bind].
  rewrite store_Some by lia. cbn [mbind option_bind].
  destruct (IH (<[result:=x]> m) (S first) (S result)) as (m' & E & Hlen & Hl);
    [rewrite length_insert; lia..|lia|].
  exists m'. rewrite E. split; [f_equal; f_equal; lia|]. split; [by rewrite Hlen, length_insert|].
  intros i. rewrite Hl. destruct (decide (i = result)) as [->|Hne].
  - rewrite decide_False, decide_True by lia. rewrite list_lookup_insert_eq by lia.
    rewrite <-Hx. f_equal; lia.
  - destruct (decide (S result <= i < S result + n)%nat) as [Hi|Hi].
    + rewrite list_lookup_insert_ne, decide_True by lia. f_equal; lia.
    + rewrite list_lookup_insert_ne, decide_False by lia. done.
Qed.

Lemma copy_move_b_spec n : forall m last result,
  (n <= last <= length m)%nat -> (n <= result <= length m)%nat ->
  (last <= result \/ result <= last - n)%nat ->
  exists m', copy_move_b n m last result = Some (m', (result - n)%nat) /\
    copied n (last - n) (result - n) m m'.
Proof.
  induction n as [|n IH]; intros m last result Hf Hr Ho; cbn [copy_move_b].
  { exists m. rewrite Nat.sub_0_r. split; [done|]. split; [done|]. intros i.
    by rewrite decide_False by lia. }
  destruct last as [|last]; [lia|]. destruct result as [|result]; [lia|].
  destruct (lookup_lt_is_Some_2 m last) as [x Hx]; [lia|]. rewrite Hx. cbn [mbind option_bind].
  rewrite store_Some by lia. cbn [mbind option_bind].
  destruct (IH (<[result:=x]> m) last result) as (m' & E & Hlen & Hl);
    [rewrite length_insert; lia..|lia|].
  exists m'. rewrite E. split; [done|]. split; [by rewrite Hlen, length_insert|].
  intros i. rewrite Hl. destruct (decide (i = result)) as [->|Hne].
  - rewrite decide_False, decide_True by lia. rewrite list_lookup_insert_eq by lia.
    rewrite <-Hx. f_equal; lia.
  - destruct (decide (result - n <= i < result - n + n)%nat) as [Hi|Hi].
    + rewrite list_lookup_insert_ne, decide_True by lia. f_equal; lia.
    + rewrite list_lookup_insert_ne, decide_False by lia. done.
Qed.

(** Replacing the loops by [memmove] is sound: on ranges for which the loops
    are specified, where [result] is not inside the range (for [copy]) or
    behind a part of it (for [copy_backward]), the two agree. *)
Theorem copy_is_memmove m (first last result : nat) :
  (first <= last <= length m)%nat ->
  ((result + (last - first) <= length m)%nat -> (result <= first \/ last <= result)%nat ->
     copy m first last result = copy_trivial m first last result) /\
  ((last - first <= result <= length m)%nat -> (last <= result \/ result <= first)%nat ->
     copy_backward m first last result = copy_backward_trivial m first last result).
Proof.
  intros Hl. unfold copy, copy_trivial, copy_backward, copy_backward_trivial, memmove. split.
  - intros Hr Ho. destruct (copy_m_spec (last - first) m first result) as (m' & -> & Hm); [lia..|].
    destruct (Nat.eqb_spec (last - first) 0) as [E|_].
    + rewrite E in *. f_equal. f_equal; [|lia]. rewrite (copied_memmove 0 first result m m') by (lia || done).
      rewrite Nat.add_0_r, take_0. cbn [app]. by rewrite take_drop.
    + rewrite decide_True by lia. cbn [mbind option_bind].
      by rewrite <-(copied_memmove (last - first) first result m m') by (lia || done).
  - intros Hr Ho. destruct (copy_move_b_spec (last - first) m last result) as (m' & -> & Hm); [lia..|].
    replace (last - (last - first))%nat with first in Hm by lia.
    destruct (Nat.eqb_spec (last - first) 0) as [E|_].
    + rewrite E in *. rewrite Nat.sub_0_r in *. f_equal. f_equal.
      rewrite (copied_memmove 0 first result m m') by (lia || done).
      rewrite Nat.add_0_r, take_0. cbn [app]. by rewrite take_drop.
    + destruct (Nat.ltb_spec result (last - first)); [lia|]. rewrite decide_True by lia.
      cbn [mbind option_bind].
      by rewrite <-(copied_memmove (last - first) first (result - (last - first)) m m') by (lia || done).
Qed.
End Ranges.
