(* ===== verification/Sort.v ===== *)
(** * Sorting and selection of the C++ library: [bits/stl_algo.h]

    [sort] (introsort: quicksort with a median of three, heapsort beyond a
    depth limit, insertion sort at the end), [partial_sort] and
    [nth_element].  As in [AlgoBase], iterators are indices into one memory.
    The heap routines of [Heap] work on a range that begins at the start of a
    list: they are called on the memory from [first] on. *)
From S2P Require Import Prelude Heap AlgoBase.

Section Sort.
Context {A : Type}.
Implicit Types m : list A.

Definition from (first : nat) (f : list A -> option (list A)) m : option (list A) :=
  r ← f (drop first m); Some (take first m ++ r).

Section compare.
  Context (comp : A -> A -> bool).

Definition __move_median_to_first m (result a b c : nat) : option (list A) :=
  ab ← comp_at comp m a b;
  if (ab : bool) then
    bc ← comp_at comp m b c;
    if (bc : bool) then iter_swap m result b
    else
      ac ← comp_at comp m a c;
      if (ac : bool) then iter_swap m result c else iter_swap m result a
  else
    ac ← comp_at comp m a c;
    if (ac : bool) then iter_swap m result a
    else
      bc ← comp_at comp m b c;
      if (bc : bool) then iter_swap m result c else iter_swap m result b.

(** ** Insertion sort *)

(** [next] is the predecessor of [last]; it may not leave the memory. *)
Fixpoint unguarded_insert_loop m (last : nat) (val : A) : option (list A) :=
  match last with
  | O => None
  | S next =>
      x ← m !! next;
      if comp val x then m ← store last x m; unguarded_insert_loop m next val
      else store last val m
  end.
Definition __unguarded_linear_insert m (last : nat) : option (list A) :=
  val ← m !! last; unguarded_insert_loop m last val.

(** One pass of the loop of [__insertion_sort]. *)
Definition insert_one m (first i : nat) : option (list A) :=
  b ← comp_at comp m i first;
  if (b : bool) then
    val ← m !! i;
    '(m, _) ← move_backward m first i (S i);
    store first val m
  else __unguarded_linear_insert m i.

Fixpoint insertion_loop (n : nat) m (first i : nat) : option (list A) :=
  match n with
  | O => Some m
  | S n' => m ← insert_one m first i; insertion_loop n' m first (S i)
  end.
Definition __insertion_sort m (first last : nat) : option (list A) :=
  if (first =? last)%nat then Some m
  else insertion_loop (last - S first) m first (S first).

Fixpoint unguarded_insertion_loop (n : nat) m (i : nat) : option (list A) :=
  match n with
  | O => Some m
  | S n' => m ← __unguarded_linear_insert m i; unguarded_insertion_loop n' m (S i)
  end.
Definition __unguarded_insertion_sort m (first last : nat) : option (list A) :=
  unguarded_insertion_loop (last - first) m first.

Definition _S_threshold : nat := 16.

Definition __final_insertion_sort m (first last : nat) : option (list A) :=
  if (_S_threshold <? last - first)%nat then
    m ← __insertion_sort m first (first + _S_threshold);
    __unguarded_insertion_sort m (first + _S_threshold) last
  else __insertion_sort m first last.

(** ** Partitioning *)

(** [while (comp(first, pivot)) ++first;] reads beyond the memory at the
    latest when [fuel] is its length. *)
Fixpoint scan_up (fuel : nat) m (first pivot : nat) : option nat :=
  match fuel with
  | O => None
  | S fuel' =>
      b ← comp_at comp m first pivot;
      if (b : bool) then scan_up fuel' m (S first) pivot else Some first
  end.
(** [--last; while (comp(pivot, last)) --last;] *)
Fixpoint scan_down m (last pivot : nat) : option nat :=
  match last with
  | O => None
  | S last' =>
      b ← comp_at comp m pivot last';
      if (b : bool) then scan_down m last' pivot else Some last'
  end.

Fixpoint partition_loop (fuel : nat) m (first last pivot : nat) : option (list A * nat) :=
  match fuel with
  | O => None
  | S fuel' =>
      first ← scan_up (S (length m)) m first pivot;
      last ← scan_down m last pivot;
      if (first <? last)%nat then
        m ← iter_swap m first last; partition_loop fuel' m (S first) last pivot
      else Some (m, first)
  end.
(** Every pass moves [first] up. *)
Definition __unguarded_partition m (first last pivot : nat) : option (list A * nat) :=
  partition_loop (S (last - first)) m first last pivot.

Definition __unguarded_partition_pivot m (first last : nat) : option (list A * nat) :=
  let mid := (first + (last - first) / 2)%nat in
  m ← __move_median_to_first m first (S first) mid (last - 1);
  __unguarded_partition m (S first) last first.

(** ** Selection with a heap *)
Fixpoint heap_select_loop (n : nat) m (first middle i : nat) : option (list A) :=
  match n with
  | O => Some m
  | S n' =>
      b ← comp_at comp m i first;
      m ← (if (b : bool)
           then from first (fun r => __pop_heap comp r (middle - first) (i - first)) m
           else Some m);
      heap_select_loop n' m first middle (S i)
  end.
Definition __heap_select m (first middle last : nat) : option (list A) :=
  m ← from first (fun r => __make_heap comp r (middle - first)) m;
  heap_select_loop (last - middle) m first middle middle.

Definition __partial_sort m (first middle last : nat) : option (list A) :=
  m ← __heap_select m first middle last;
  from first (fun r => __sort_heap comp r (middle - first)) m.

(** ** Introsort *)
Fixpoint __introsort_loop (depth_limit : nat) m (first last : nat) : option (list A) :=
  if (_S_threshold <? last - first)%nat then
    match depth_limit with
    | O => __partial_sort m first last last
    | S depth_limit' =>
        '(m, cut) ← __unguarded_partition_pivot m first last;
        m ← __introsort_loop depth_limit' m cut last;
        __introsort_loop depth_limit' m first cut
    end
  else Some m.

Definition __sort m (first last : nat) : option (list A) :=
  if (first =? last)%nat then Some m
  else
    m ← __introsort_loop (__lg (last - first) * 2) m first last;
    __final_insertion_sort m first last.

(** ** Introselect *)
Fixpoint __introselect (depth_limit : nat) m (first nth last : nat) : option (list A) :=
  if (3 <? last - first)%nat then
    match depth_limit with
    | O => m ← __heap_select m first (S nth) last; iter_swap m first nth
    | S depth_limit' =>
        '(m, cut) ← __unguarded_partition_pivot m first last;
        if (cut <=? nth)%nat then __introselect depth_limit' m cut nth last
        else __introselect depth_limit' m first nth cut
    end
  else __insertion_sort m first last.

(** ** The interface with a comparison functor *)
Definition sort_comp m (first last : nat) : option (list A) := __sort m first last.
Definition partial_sort_comp m (first middle last : nat) : option (list A) :=
  __partial_sort m first middle last.
Definition nth_element_comp m (first nth last : nat) : option (list A) :=
  if (first =? last)%nat || (nth =? last)%nat then Some m
  else __introselect (__lg (last - first) * 2) m first nth last.
End compare.

(** ** The interface with [operator<] *)
Definition sort (less : A -> A -> bool) m (first last : nat) : option (list A) :=
  __sort less m first last.
Definition partial_sort (less : A -> A -> bool) m (first middle last : nat) : option (list A) :=
  __partial_sort less m first middle last.
Definition nth_element (less : A -> A -> bool) m (first nth last : nat) : option (list A) :=
  if (first =? last)%nat || (nth =? last)%nat then Some m
  else __introselect less (__lg (last - first) * 2) m first nth last.
End Sort.
