(* ===== verification/SortProps.v ===== *)
(** * The parts of the sorting algorithms

    Insertion sort equals a reference; a partition cuts its range around a
    pivot; heap selection moves the smallest elements to the front.  The
    unguarded loops stop inside their range. *)
From Stdlib Require Import Sorted.
From S2P Require Import Prelude Heap HeapProps AlgoBase AlgoBaseProps Sort.

#[local] Set Default Proof Using "Type*".

(** ** The reference: insertion from the right

    [insert y s] puts [y] behind the last element of [s] that is not greater. *)
Section Reference.
Context {A : Type} (comp : A -> A -> bool).

Fixpoint insert (y : A) (s : list A) : list A :=
  match s with
  | [] => [y]
  | x :: s' => if comp y x then y :: s else x :: insert y s'
  end.

Definition insert_all (s r : list A) : list A := fold_left (fun s y => insert y s) r s.
Definition isort (s : list A) : list A := insert_all [] s.
End Reference.

Section SortProps.
Context {A : Type} (comp : A -> A -> bool) `{!StrictWeakOrder comp}.
Implicit Types m s pre r post : list A.
#[local] Abbreviation le := (HeapProps.le comp).
#[local] Abbreviation sorted := (StronglySorted le).
#[local] Abbreviation insert := (insert comp).
#[local] Abbreviation insert_all := (insert_all comp).
#[local] Abbreviation isort := (isort comp).

Lemma insert_perm y s : insert y s ≡ₚ y :: s.
Proof.
  induction s as [|x s IH]; simpl; [done|]. destruct (comp y x); [done|].
  rewrite IH. constructor.
Qed.

Lemma insert_all_perm r : forall s, insert_all s r ≡ₚ s ++ r.
Proof.
  unfold SortProps.insert_all. induction r as [|y r IH]; intros s; simpl; [by rewrite app_nil_r|].
  rewrite IH, insert_perm. simpl. by rewrite Permutation_middle.
Qed.

Lemma isort_perm s : isort s ≡ₚ s.
Proof. apply insert_all_perm. Qed.

(** The elements before the inserted one are not greater, the ones behind
    are. *)
Lemma insert_split y s : sorted s ->
  exists s1 s2, s = s1 ++ s2 /\ insert y s = s1 ++ y :: s2 /\
    Forall (fun x => le x y) s1 /\ Forall (fun x => comp y x = true) s2.
Proof.
  induction 1 as [|x s Hs IH Hx]; [by exists [], []|]. cbn [SortProps.insert].
  destruct (comp y x) eqn:Hc.
  - exists [], (x :: s). splits; [done..|]. constructor; [done|].
    apply (Forall_impl _ _ _ Hx). intros z Hz. destruct (comp y z) eqn:E; [done|].
    exfalso. assert (le z y) as Hzy by done.
    pose proof (le_trans comp x z y Hz Hzy) as Hxy. unfold HeapProps.le in Hxy. congruence.
  - destruct IH as (s1 & s2 & -> & E & H1 & H2). exists (x :: s1), s2. rewrite E.
    splits; try done. by constructor.
Qed.

Lemma insert_sorted y s : sorted s -> sorted (insert y s).
Proof.
  induction 1 as [|x s Hs IH Hx]; simpl; [by repeat constructor|].
  destruct (comp y x) eqn:Hc.
  - constructor; [by constructor|]. constructor; [by apply le_total|].
    apply (Forall_impl _ _ _ Hx). intros z Hz. apply (le_trans comp _ x); [by apply le_total|done].
  - constructor; [done|]. rewrite insert_perm. by constructor.
Qed.

Lemma insert_all_sorted r : forall s, sorted s -> sorted (insert_all s r).
Proof.
  induction r as [|y r IH]; intros s Hs; [done|]. apply IH. by apply insert_sorted.
Qed.

Lemma isort_sorted s : sorted (isort s).
Proof. apply insert_all_sorted. constructor. Qed.

(** ** Insertion sort *)
Lemma insert_loop_app val s : forall pre g post y,
  le g val -> Forall (fun x => comp val x = true) s ->
  unguarded_insert_loop comp (pre ++ g :: s ++ y :: post) (length pre + S (length s)) val =
    Some (pre ++ g :: val :: s ++ post).
Proof.
  induction s as [|z s IH] using rev_ind; intros pre g post y Hg Hs.
  - cbn [length app]. rewrite Nat.add_1_r. cbn [unguarded_insert_loop].
    rewrite list_lookup_middle by done. cbn [mbind option_bind]. unfold HeapProps.le in Hg. rewrite Hg.
    rewrite store_Some by (rewrite length_app; simpl; lia).
    rewrite insert_app_r_alt by lia. rewrite Nat.sub_succ_l, Nat.sub_diag by lia. done.
  - apply Forall_app in Hs as [Hs Hz]. apply Forall_cons in Hz as [Hz _].
    rewrite length_app. cbn [length]. rewrite <-plus_n_Sm, Nat.add_1_r. cbn [unguarded_insert_loop].
    assert ((pre ++ g :: (s ++ [z]) ++ y :: post) !! (length pre + S (length s))%nat = Some z) as ->.
    { rewrite lookup_app_r by lia.
      replace (length pre + S (length s) - length pre)%nat with (S (length s)) by lia.
      rewrite <-app_assoc. by apply list_lookup_middle. }
    cbn [mbind option_bind]. rewrite Hz.
    rewrite store_Some by (rewrite !length_app; simpl; rewrite !length_app; simpl; lia).
    cbn [mbind option_bind].
    assert (<[S (length pre + S (length s)):=z]> (pre ++ g :: (s ++ [z]) ++ y :: post) =
      pre ++ g :: s ++ z :: z :: post) as ->.
    { rewrite insert_app_r_alt by lia.
      replace (S (length pre + S (length s)) - length pre)%nat with (S (length s + 1)) by lia.
      simpl. rewrite <-app_assoc. rewrite insert_app_r_alt by lia. by rewrite Nat.add_comm, Nat.add_sub. }
    rewrite IH by done. by rewrite <-app_assoc.
Qed.

Lemma lookup_app_at pre y post n : n = length pre -> (pre ++ y :: post) !! n = Some y.
Proof. apply list_lookup_middle. Qed.

Lemma linear_insert_app pre s y post : sorted s -> (exists g, g ∈ s /\ le g y) ->
  __unguarded_linear_insert comp (pre ++ s ++ y :: post) (length pre + length s) =
    Some (pre ++ insert y s ++ post).
Proof.
  intros Hs (g & Hg & Hle). unfold __unguarded_linear_insert.
  rewrite app_assoc, lookup_app_at by (by rewrite length_app). cbn [mbind option_bind].
  destruct (insert_split y s Hs) as (s1 & s2 & -> & -> & H1 & H2).
  destruct s1 as [|g' s1 _] using rev_ind.
  { exfalso. rewrite Forall_forall in H2. specialize (H2 g Hg). unfold HeapProps.le in Hle. congruence. }
  apply Forall_app in H1 as [_ H1]. apply Forall_cons in H1 as [H1 _].
  rewrite <-!app_assoc, !length_app. cbn [app length].
  pose proof (insert_loop_app y s2 (pre ++ s1) g' post y H1 H2) as E.
  rewrite <-!app_assoc, length_app in E.
  replace (length pre + (length s1 + (1 + length s2)))%nat with (length pre + length s1 + S (length s2))%nat by lia.
  exact E.
Qed.

Lemma insert_one_app pre s y post : sorted s -> s <> [] ->
  insert_one comp (pre ++ s ++ y :: post) (length pre) (length pre + length s) =
    Some (pre ++ insert y s ++ post).
Proof.
  intros Hs Hne. destruct s as [|x s]; [done|]. unfold insert_one, comp_at.
  rewrite app_assoc, lookup_app_at by (by rewrite length_app). rewrite <-app_assoc.
  cbn [mbind option_bind app]. rewrite lookup_app_at by done. cbn [mbind option_bind].
  destruct (comp y x) eqn:Hc.
  - unfold move_backward.
    destruct (copy_move_b_spec (S (length s)) (pre ++ x :: s ++ y :: post)
      (length pre + S (length s)) (S (length pre + S (length s)))) as (m' & E & Hm).
    { rewrite !length_app. simpl. rewrite length_app. simpl. lia. }
    { rewrite !length_app. simpl. rewrite length_app. simpl. lia. }
    { lia. }
    cbn [length]. replace (length pre + S (length s) - length pre)%nat with (S (length s)) by lia.
    rewrite E. cbn [mbind option_bind].
    apply copied_memmove in Hm; [|rewrite !length_app; simpl; rewrite length_app; simpl; lia..].
    replace (length pre + S (length s) - S (length s))%nat with (length pre) in Hm by lia.
    replace (S (length pre + S (length s)) - S (length s))%nat with (S (length pre)) in Hm by lia.
    rewrite drop_app_length in Hm.
    replace (take (S (length pre)) (pre ++ x :: s ++ y :: post)) with (pre ++ [x]) in Hm.
    2: { rewrite take_app_ge by lia. by replace (S (length pre) - length pre)%nat with 1%nat by lia. }
    replace (drop (S (length pre) + S (length s)) (pre ++ x :: s ++ y :: post)) with post in Hm.
    2: { rewrite drop_app_ge by lia.
         replace (S (length pre) + S (length s) - length pre)%nat with (S (S (length s))) by lia.
         cbn [drop]. rewrite drop_app_ge by lia. by rewrite Nat.sub_succ_l, Nat.sub_diag by lia. }
    cbn [take] in Hm. rewrite take_app_length in Hm. subst m'.
    rewrite store_Some by (rewrite !length_app; simpl; lia).
    rewrite <-app_assoc. rewrite insert_app_r_alt by lia. rewrite Nat.sub_diag.
    cbn [SortProps.insert app]. by rewrite Hc.
  - apply (linear_insert_app pre (x :: s)); [done|]. exists x. split; [by left|done].
Qed.

Lemma insertion_loop_app r : forall pre s post, sorted s -> s <> [] ->
  insertion_loop comp (length r) (pre ++ s ++ r ++ post) (length pre) (length pre + length s) =
    Some (pre ++ insert_all s r ++ post).
Proof.
  induction r as [|y r IH]; intros pre s post Hs Hne; cbn [length insertion_loop]; [done|].
  change ((y :: r) ++ post) with (y :: r ++ post). rewrite insert_one_app by done. cbn [mbind option_bind].
  replace (S (length pre + length s)) with (length pre + length (insert y s))%nat.
  - apply IH; [by apply insert_sorted|]. intros E. pose proof (insert_perm y s) as Hp.
    rewrite E in Hp. by apply Permutation_nil_cons in Hp.
  - rewrite (Permutation_length (insert_perm y s)). simpl. lia.
Qed.

(** Insertion sort is the reference. *)
Lemma insertion_sort_app pre s post :
  __insertion_sort comp (pre ++ s ++ post) (length pre) (length pre + length s) =
    Some (pre ++ isort s ++ post).
Proof.
  unfold __insertion_sort. destruct s as [|x s].
  { by rewrite Nat.add_0_r, Nat.eqb_refl. }
  replace (length pre =? length pre + length (x :: s))%nat with false by (symmetry; apply Nat.eqb_neq; simpl; lia).
  replace (length pre + length (x :: s) - S (length pre))%nat with (length s) by (simpl; lia).
  pose proof (insertion_loop_app s pre [x] post) as E. cbn [length app] in E.
  rewrite Nat.add_1_r in E. apply E; [by repeat constructor|done].
Qed.

(** The unguarded one relies on an element in front that is not greater than
    any that follows. *)
Lemma unguarded_insertion_app r : forall pre s post, sorted s ->
  (exists g, g ∈ s /\ Forall (le g) r) ->
  unguarded_insertion_loop comp (length r) (pre ++ s ++ r ++ post) (length pre + length s) =
    Some (pre ++ insert_all s r ++ post).
Proof.
  induction r as [|y r IH]; intros pre s post Hs (g & Hg & Hr); cbn [length unguarded_insertion_loop];
    [done|]. apply Forall_cons in Hr as [Hy Hr].
  change ((y :: r) ++ post) with (y :: r ++ post).
  rewrite linear_insert_app by (done || by exists g). cbn [mbind option_bind].
  replace (S (length pre + length s)) with (length pre + length (insert y s))%nat.
  - apply IH; [by apply insert_sorted|]. exists g. split; [|done]. rewrite insert_perm. by right.
  - rewrite (Permutation_length (insert_perm y s)). simpl. lia.
Qed.

(** ** Partitioning *)
Lemma comp_at_Some c m i j (x y : A) : m !! i = Some x -> m !! j = Some y ->
  comp_at c m i j = Some (c x y).
Proof. intros Hi Hj. unfold comp_at. by rewrite Hi, Hj. Qed.

(** Scanning up ends at the first element not less than the pivot. *)
Lemma scan_up_spec m p pv i x : m !! p = Some pv -> m !! i = Some x -> comp x pv = false ->
  forall fuel f, (f <= i)%nat -> (i - f < fuel)%nat ->
  exists j y, scan_up comp fuel m f p = Some j /\ (f <= j <= i)%nat /\ m !! j = Some y /\
    comp y pv = false /\ all_in f j (fun z => comp z pv = true) m.
Proof.
  intros Hp Hi Hx. induction fuel as [|fuel IH]; intros f Hf Hfuel; [lia|]. cbn [scan_up].
  pose proof (lookup_lt_Some _ _ _ Hi).
  destruct (lookup_lt_is_Some_2 m f) as [y Hy]; [lia|].
  rewrite (comp_at_Some comp m f p y pv) by done. cbn [mbind option_bind].
  destruct (comp y pv) eqn:Hc.
  - assert (f <> i) by (intros ->; rewrite Hi in Hy; injection Hy as <-; congruence).
    destruct (IH (S f)) as (j & z & E & Hj & Hz & Hcz & Hall); [lia|lia|].
    exists j, z. split; [done|]. split; [lia|]. split; [done|]. split; [done|].
    intros k w Hk Hw. destruct (decide (k = f)) as [->|?].
    + rewrite Hy in Hw. by injection Hw as <-.
    + apply (Hall k w); [lia|done].
  - exists f, y. splits; try done; try lia. by apply all_in_empty.
Qed.

Lemma scan_down_spec m p pv i x : m !! p = Some pv -> m !! i = Some x -> comp pv x = false ->
  forall l, (i < l <= length m)%nat ->
  exists j y, scan_down comp m l p = Some j /\ (i <= j < l)%nat /\ m !! j = Some y /\
    comp pv y = false /\ all_in (S j) l (fun z => comp pv z = true) m.
Proof.
  intros Hp Hi Hx. induction l as [|l IH]; intros Hl; [lia|]. cbn [scan_down].
  destruct (lookup_lt_is_Some_2 m l) as [y Hy]; [lia|].
  rewrite (comp_at_Some comp m p l pv y) by done. cbn [mbind option_bind].
  destruct (comp pv y) eqn:Hc.
  - assert (l <> i) by (intros ->; rewrite Hi in Hy; injection Hy as <-; congruence).
    destruct (IH ltac:(lia)) as (j & z & E & Hj & Hz & Hcz & Hall).
    exists j, z. split; [done|]. split; [lia|]. split; [done|]. split; [done|].
    intros k w Hk Hw. destruct (decide (k = l)) as [->|?].
    + rewrite Hy in Hw. by injection Hw as <-.
    + apply (Hall k w); [lia|done].
  - exists l, y. splits; try done; try lia. by apply all_in_empty.
Qed.

(** What one pass of the loop relies on: a prefix of elements not above the
    pivot, a suffix of elements not below it, and an element for each scan to
    stop at. *)
Record partitioning (f0 l0 f l : nat) (pv : A) m : Prop := Partitioning {
  pt_below : all_in f0 f (fun x => le x pv) m;
  pt_above : all_in l l0 (fun x => le pv x) m;
  pt_up : exists i x, (f <= i < l0)%nat /\ m !! i = Some x /\ comp x pv = false;
  pt_down : exists j x, (f0 <= j < l)%nat /\ m !! j = Some x /\ comp pv x = false }.

Lemma partition_loop_spec fuel : forall m f l f0 l0 p pv,
  (p < f0 <= f)%nat -> (l <= l0 <= length m)%nat -> (l - f < fuel)%nat -> m !! p = Some pv ->
  partitioning f0 l0 f l pv m ->
  exists m' cut, partition_loop comp fuel m f l p = Some (m', cut) /\ rearranged f0 l0 m m' /\
    (f <= cut < l0)%nat /\ all_in f0 cut (fun x => le x pv) m' /\
    all_in cut l0 (fun x => le pv x) m'.
Proof.
  induction fuel as [|fuel IH]; intros m f l f0 l0 p pv Hf Hl Hfuel Hp
    [Hbelow Habove (u & x & Hu & Hux & Hxc) (w & y & Hw & Hwy & Hyc)]; [lia|].
  cbn [partition_loop].
  destruct (scan_up_spec m p pv u x Hp Hux Hxc (S (length m)) f)
    as (i & x' & -> & Hi & Hix & Hix' & Hup); [lia|lia|]. cbn [mbind option_bind].
  destruct (scan_down_spec m p pv w y Hp Hwy Hyc l)
    as (j & y' & -> & Hj & Hjy & Hjy' & Hdown); [lia|]. cbn [mbind option_bind].
  assert (all_in f0 i (fun z => le z pv) m) as Hbelow'.
  { apply (all_in_app _ f); [done|]. eapply all_in_impl, Hup. intros z. apply (le_total comp). }
  assert (all_in (S j) l0 (fun z => le pv z) m) as Habove'.
  { apply (all_in_app _ l); [|done]. eapply all_in_impl, Hdown. intros z. apply (le_total comp). }
  destruct (Nat.ltb_spec i j) as [Hij|Hij].
  - destruct (iter_swap_rearranged m i j f0 l0) as (m1 & -> & Hr & Hi1 & Hj1 & Hk); [lia..|].
    cbn [mbind option_bind]. rewrite Hjy in Hi1. rewrite Hix in Hj1.
    pose proof (rearranged_length _ _ _ _ Hr).
    destruct (IH m1 (S i) j f0 l0 p pv) as (m' & cut & E & Hr' & Hc & H1 & H2); [lia|lia|lia| | |].
    + rewrite Hk by lia. done.
    + split.
      * intros k z Hk' Hz. destruct (decide (k = i)) as [->|?].
        { rewrite Hi1 in Hz. by injection Hz as <-. }
        rewrite Hk in Hz by lia. apply (Hbelow' k); [lia|done].
      * intros k z Hk' Hz. destruct (decide (k = j)) as [->|?].
        { rewrite Hj1 in Hz. by injection Hz as <-. }
        rewrite Hk in Hz by lia. apply (Habove' k); [lia|done].
      * exists j, x'. split; [lia|done].
      * exists i, y'. split; [lia|done].
    + exists m', cut. split; [done|]. split; [by eapply rearranged_trans|]. split; [lia|done].
  - exists m, i. split; [done|]. split; [apply rearranged_refl|]. split; [lia|]. split; [done|].
    intros k z Hk Hz. destruct (decide (k = i)) as [->|?].
    + rewrite Hix in Hz. by injection Hz as <-.
    + apply (Habove' k); [lia|done].
Qed.

Ltac among := solve [rewrite !elem_of_cons; auto].

(** The median of three and the two others. *)
Lemma median_spec m (r a b c first last : nat) :
  (first <= r < last)%nat -> (first <= a < last)%nat -> (first <= b < last)%nat ->
  (first <= c < last)%nat -> (last <= length m)%nat ->
  r <> a -> r <> b -> r <> c -> a <> b -> b <> c -> a <> c ->
  exists m' pv i j x y, __move_median_to_first comp m r a b c = Some m' /\
    rearranged first last m m' /\ m' !! r = Some pv /\
    (i ∈ [a; b; c]) /\ (j ∈ [a; b; c]) /\ m' !! i = Some x /\ m' !! j = Some y /\
    comp x pv = false /\ comp pv y = false.
Proof.
  intros Hr Ha Hb Hc Hl Nra Nrb Nrc Nab Nbc Nac.
  destruct (lookup_lt_is_Some_2 m a) as [xa Ea]; [lia|].
  destruct (lookup_lt_is_Some_2 m b) as [xb Eb]; [lia|].
  destruct (lookup_lt_is_Some_2 m c) as [xc Ec]; [lia|].
  assert (forall k q i j x y, (first <= k < last)%nat -> m !! k = Some q ->
    r <> i -> r <> j -> k <> i -> k <> j -> i ∈ [a; b; c] -> j ∈ [a; b; c] ->
    m !! i = Some x -> m !! j = Some y -> comp x q = false -> comp q y = false ->
    exists m' pv i j x y, iter_swap m r k = Some m' /\
      rearranged first last m m' /\ m' !! r = Some pv /\
      (i ∈ [a; b; c]) /\ (j ∈ [a; b; c]) /\ m' !! i = Some x /\ m' !! j = Some y /\
      comp x pv = false /\ comp pv y = false) as Hswap.
  { intros k q i j x y Hk Ek Nri Nrj Nki Nkj Hi Hj Ei Ej Hx Hy.
    destruct (iter_swap_rearranged m r k first last Hr Hk Hl) as (m' & E & Hre & E1 & E2 & Ho).
    exists m', q, i, j, x, y. rewrite (Ho i), (Ho j) by congruence. rewrite Ek in E1. by splits. }
  unfold __move_median_to_first. rewrite !(comp_at_Some comp m _ _ _ _ Ea Eb).
  cbn [mbind option_bind]. destruct (comp xa xb) eqn:Hab.
  - rewrite (comp_at_Some comp m _ _ _ _ Eb Ec). cbn [mbind option_bind]. destruct (comp xb xc) eqn:Hbc.
    + apply (Hswap b xb c a xc xa); try done; try among; by apply le_total.
    + rewrite (comp_at_Some comp m _ _ _ _ Ea Ec). cbn [mbind option_bind]. destruct (comp xa xc) eqn:Hac.
      * apply (Hswap c xc b a xb xa); try done; try among; by apply le_total.
      * apply (Hswap a xa b c xb xc); try done; try among; by apply le_total.
  - rewrite (comp_at_Some comp m _ _ _ _ Ea Ec). cbn [mbind option_bind]. destruct (comp xa xc) eqn:Hac.
    + apply (Hswap a xa c b xc xb); try done; try among; by apply le_total.
    + rewrite (comp_at_Some comp m _ _ _ _ Eb Ec). cbn [mbind option_bind]. destruct (comp xb xc) eqn:Hbc.
      * apply (Hswap c xc a b xa xb); try done; try among; by apply le_total.
      * apply (Hswap b xb a c xa xc); try done; try among; by apply le_total.
Qed.

(** The range is cut in two: no element of the first part is above the pivot,
    none of the second below it. *)
Lemma partition_pivot_spec m first last :
  (3 < last - first)%nat -> (last <= length m)%nat ->
  exists m' cut pv, __unguarded_partition_pivot comp m first last = Some (m', cut) /\
    rearranged first last m m' /\ (first < cut < last)%nat /\
    all_in first cut (fun x => le x pv) m' /\ all_in cut last (fun x => le pv x) m'.
Proof.
  intros Hn Hl. unfold __unguarded_partition_pivot.
  pose proof (Nat.div_mod (last - first) 2 ltac:(lia)).
  pose proof (Nat.mod_upper_bound (last - first) 2 ltac:(lia)).
  destruct (median_spec m first (S first) (first + (last - first) / 2) (last - 1) first last)
    as (m1 & pv & i & j & x & y & -> & Hr & Hpv & Hi & Hj & Hx & Hy & Hxc & Hyc); [lia..|].
  cbn [mbind option_bind]. unfold __unguarded_partition.
  pose proof (rearranged_length _ _ _ _ Hr).
  assert (S first <= i < last /\ S first <= j < last)%nat as [Hi' Hj'].
  { rewrite !elem_of_cons, elem_of_nil in Hi, Hj. lia. }
  destruct (partition_loop_spec (S (last - S first)) m1 (S first) last (S first) last first pv)
    as (m' & cut & E & Hr' & Hc & Hlo & Hhi); [lia|lia|lia|done| |].
  { split; [by apply all_in_empty|by apply all_in_empty|by exists i, x|by exists j, y]. }
  exists m', cut, pv. split; [done|]. split.
  { eapply rearranged_trans; [done|]. by eapply rearranged_weaken; [done|lia|]. }
  split; [lia|]. split; [|done].
  intros k z Hk Hz. destruct (decide (k = first)) as [->|?].
  - rewrite (re_frame _ _ _ _ Hr' first) in Hz by lia. rewrite Hpv in Hz. injection Hz as <-.
    apply (le_refl comp).
  - apply (Hlo k); [lia|done].
Qed.

(** ** Selection with a heap

    On a memory that begins with the range; the general case follows by
    putting something in front. *)
Lemma from_app pre r f : from (length pre) f (pre ++ r) = app pre <$> f r.
Proof.
  unfold from. rewrite drop_app_length, take_app_length. by destruct (f r).
Qed.

Lemma from_0 f r : from 0 f r = f r.
Proof. unfold from. rewrite drop_0, take_0. by destruct (f r). Qed.

Lemma comp_at_app pre r i j :
  comp_at comp (pre ++ r) (length pre + i) (length pre + j) = comp_at comp r i j.
Proof.
  unfold comp_at. rewrite !lookup_app_r by lia.
  by replace (length pre + i - length pre)%nat with i by lia;
    replace (length pre + j - length pre)%nat with j by lia.
Qed.

Lemma heap_select_loop_app n : forall pre r mid i,
  heap_select_loop comp n (pre ++ r) (length pre) (length pre + mid) (length pre + i) =
    app pre <$> heap_select_loop comp n r 0 mid i.
Proof.
  induction n as [|n IH]; intros pre r mid i; cbn [heap_select_loop]; [done|].
  pose proof (comp_at_app pre r i 0) as E. rewrite Nat.add_0_r in E. rewrite E.
  destruct (comp_at comp r i 0) as [b|]; [|done]. cbn [mbind option_bind]. destruct b.
  - rewrite from_app, from_0, !Nat.sub_0_r.
    replace (length pre + mid - length pre)%nat with mid by lia.
    replace (length pre + i - length pre)%nat with i by lia.
    destruct (__pop_heap comp r mid i) as [r'|]; [|done]. cbn [fmap option_fmap option_map mbind option_bind].
    rewrite plus_n_Sm. apply IH.
  - cbn [mbind option_bind]. rewrite plus_n_Sm. apply IH.
Qed.

Lemma heap_select_app pre r mid last :
  __heap_select comp (pre ++ r) (length pre) (length pre + mid) (length pre + last) =
    app pre <$> __heap_select comp r 0 mid last.
Proof.
  unfold __heap_select. rewrite from_app, from_0, Nat.sub_0_r.
  replace (length pre + mid - length pre)%nat with mid by lia.
  replace (length pre + last - (length pre + mid))%nat with (last - mid)%nat by lia.
  destruct (__make_heap comp r mid) as [r'|]; [|done].
  cbn [fmap option_fmap option_map mbind option_bind]. apply heap_select_loop_app.
Qed.

(** The first [n] elements are a heap and none is above one of the others up
    to [i]. *)
Definition selected (n i : nat) (r : list A) : Prop :=
  heap_from comp 0 n r /\ all_in 0 n (fun x => all_in n i (fun y => le x y) r) r.

Lemma heap_select_step r n i (x0 xi : A) : (0 < n <= i)%nat -> (i < length r)%nat ->
  selected n i r -> r !! 0%nat = Some x0 -> r !! i = Some xi -> comp xi x0 = true ->
  exists r', __pop_heap comp r n i = Some r' /\ rearranged 0 (S i) r r' /\ selected n (S i) r'.
Proof.
  intros Hn Hi [Hh Hs] H0 Hxi Hc.
  destruct (pop_heap_swap comp r n i Hn Hi Hh) as (r' & v & x & E & Hh' & Hv & Hx & Hp & Hf).
  rewrite Hxi in Hv. injection Hv as <-. rewrite H0 in Hx. injection Hx as <-.
  assert (rearranged 0 n (<[0%nat:=xi]> (<[i:=x0]> r)) r') as Hr.
  { split; [done|]. intros k [Hk|Hk]; [lia|]. rewrite Hf by done.
    symmetry. apply list_lookup_insert_ne. lia. }
  exists r'. split; [done|]. split; [|split; [done|]].
  - split.
    + rewrite Hp, list_insert_insert_ne by lia. by apply Permutation_insert_swap.
    + intros k [Hk|Hk]; [lia|]. rewrite Hf by lia. apply list_lookup_insert_ne. lia.
  - assert (all_in 0 n (fun x => le x x0) r') as Hle.
    { apply (rearranged_all _ _ _ _ _ Hr). intros k z Hk Hz.
      destruct (decide (k = 0%nat)) as [->|?].
      - rewrite list_lookup_insert_eq in Hz by (rewrite length_insert; lia). injection Hz as <-.
        by apply (le_total comp).
      - rewrite !list_lookup_insert_ne in Hz by lia.
        apply (heap_top comp n r x0 Hh H0 ltac:(lia) k); [lia|done]. }
    intros k z Hk Hz j y Hj Hy. apply (le_trans comp _ x0); [by apply (Hle k)|].
    rewrite Hf in Hy by lia. destruct (decide (j = i)) as [->|?].
    + rewrite list_lookup_insert_eq in Hy by lia. injection Hy as <-. apply (le_refl comp).
    + rewrite list_lookup_insert_ne in Hy by done. apply (Hs 0%nat x0 ltac:(lia) H0 j); [lia|done].
Qed.

Lemma heap_select_loop_spec k : forall r n i, (0 < n <= i)%nat -> (i + k <= length r)%nat ->
  selected n i r ->
  exists r', heap_select_loop comp k r 0 n i = Some r' /\ rearranged 0 (i + k) r r' /\
    selected n (i + k) r'.
Proof.
  induction k as [|k IH]; intros r n i Hn Hi Hs; cbn [heap_select_loop].
  { exists r. rewrite Nat.add_0_r. split; [done|]. split; [apply rearranged_refl|done]. }
  destruct (lookup_lt_is_Some_2 r 0) as [x0 H0]; [lia|].
  destruct (lookup_lt_is_Some_2 r i) as [xi Hxi]; [lia|].
  rewrite (comp_at_Some comp r i 0 xi x0) by done. cbn [mbind option_bind].
  assert (exists r1, (if comp xi x0 then from 0 (fun r => __pop_heap comp r (n - 0) (i - 0)) r
    else Some r) = Some r1 /\ rearranged 0 (S i) r r1 /\ selected n (S i) r1) as (r1 & E & Hr1 & Hs1).
  { destruct (comp xi x0) eqn:Hc.
    - rewrite from_0, !Nat.sub_0_r. apply (heap_select_step r n i x0 xi); try done; lia.
    - exists r. split; [done|]. split; [apply rearranged_refl|].
      destruct Hs as [Hh Hs]. split; [done|]. intros j x Hj Hx k' y Hk Hy.
      destruct (decide (k' = i)) as [->|?]; [|apply (Hs j x Hj Hx k' y); [lia|done]].
      rewrite Hxi in Hy. injection Hy as <-. apply (le_trans comp _ x0); [|done].
      apply (heap_top comp n r x0 Hh H0 ltac:(lia) j); [lia|done]. }
  rewrite E. cbn [mbind option_bind]. pose proof (rearranged_length _ _ _ _ Hr1).
  destruct (IH r1 n (S i)) as (r' & E' & Hr' & Hs'); [lia|lia|done|].
  exists r'. replace (i + S k)%nat with (S i + k)%nat by lia.
  split; [done|]. split; [|done].
  eapply rearranged_trans; [|done]. eapply rearranged_weaken; [done|lia|lia].
Qed.

Lemma heap_select_0 r n last : (0 < n <= last)%nat -> (last <= length r)%nat ->
  exists r', __heap_select comp r 0 n last = Some r' /\ rearranged 0 last r r' /\ selected n last r'.
Proof.
  intros Hn Hl. unfold __heap_select. rewrite from_0, Nat.sub_0_r.
  destruct (make_heap_spec comp r n ltac:(lia)) as (r1 & -> & Hh & Hp & Hf). cbn [mbind option_bind].
  pose proof (Permutation_length Hp).
  destruct (heap_select_loop_spec (last - n) r1 n n) as (r' & E & Hr & Hs);
    [lia|lia|split; [done|by intros ??????; lia]|].
  replace (n + (last - n))%nat with last in * by lia.
  exists r'. split; [done|]. split; [|done]. eapply rearranged_trans; [|done].
  split; [done|]. intros i Hi. apply Hf. lia.
Qed.
End SortProps.
