(* ===== verification/SortCorrect.v ===== *)
(** * Sorting and selection are correct

    For a strict weak order [sort] sorts its range in place, [partial_sort]
    sorts the smallest elements into its front, and [nth_element] puts the
    element of a rank in its place, between those before and those after it.
    None reads or writes outside of its range. *)
From stdpp Require Import sorting.
From S2P Require Import Prelude Heap HeapProps AlgoBase AlgoBaseProps Sort SortProps.

#[local] Set Default Proof Using "Type*".

Section SortCorrect.
Context {A : Type} (comp : A -> A -> bool) `{!StrictWeakOrder comp}.
Implicit Types m s t pre r post : list A.
#[local] Abbreviation le := (HeapProps.le comp).
#[local] Abbreviation sorted := (StronglySorted le).

Lemma sorted_lookup s : sorted s -> forall i j x y, (i < j)%nat ->
  s !! i = Some x -> s !! j = Some y -> le x y.
Proof.
  induction 1 as [|z s Hs IH Hz]; intros i j x y Hij Hi Hj; [done|].
  destruct j as [|j]; [lia|]. destruct i as [|i]; simpl in Hi, Hj.
  - injection Hi as <-. rewrite Forall_lookup in Hz. by apply (Hz j).
  - apply (IH i j); [lia|done..].
Qed.

(** ** Something in front of the range *)
Lemma rearranged_front pre k r r' : rearranged 0 k r r' ->
  rearranged (length pre) (length pre + k) (pre ++ r) (pre ++ r').
Proof.
  intros [Hp Hf]. split; [by rewrite Hp|]. intros i Hi.
  destruct (decide (i < length pre)%nat); [by rewrite !lookup_app_l by lia|].
  rewrite !lookup_app_r by lia. apply Hf. lia.
Qed.

Lemma all_in_front pre i j P r :
  all_in i j P r <-> all_in (length pre + i) (length pre + j) P (pre ++ r).
Proof.
  split; intros Ha k x Hk Hx.
  - rewrite lookup_app_r in Hx by lia. apply (Ha (k - length pre)%nat); [lia|done].
  - apply (Ha (length pre + k)%nat); [lia|]. rewrite lookup_app_r by lia.
    rewrite <-Hx. f_equal. lia.
Qed.

Lemma memory_split m first : (first <= length m)%nat ->
  exists pre r, m = pre ++ r /\ length pre = first.
Proof.
  intros Hf. exists (take first m), (drop first m). rewrite take_drop, length_take. split; [done|lia].
Qed.

(** ** Selecting with a heap *)
Lemma heap_select_spec m first mid last : (first < mid <= last)%nat -> (last <= length m)%nat ->
  exists m', __heap_select comp m first mid last = Some m' /\ rearranged first last m m' /\
    heap_from comp 0 (mid - first) (drop first m') /\
    all_in first mid (fun x => all_in mid last (fun y => le x y) m') m'.
Proof.
  intros Hf Hl. destruct (memory_split m first) as (pre & r & -> & Hpre); [lia|].
  rewrite length_app in Hl.
  destruct (heap_select_0 comp r (mid - first) (last - first)) as (r' & E & Hr & Hh & Hs); [lia|lia|].
  pose proof (heap_select_app comp pre r (mid - first) (last - first)) as Ea. rewrite E in Ea.
  replace (length pre + (mid - first))%nat with mid in Ea by lia.
  replace (length pre + (last - first))%nat with last in Ea by lia. rewrite Hpre in Ea.
  exists (pre ++ r'). split; [exact Ea|]. split.
  { apply (rearranged_front pre) in Hr. rewrite Hpre in Hr.
    by replace (first + (last - first))%nat with last in Hr by lia. }
  split; [by rewrite (drop_app_length' pre r' first) by done|].
  intros i x Hi Hx j y Hj Hy. rewrite lookup_app_r in Hx, Hy by lia.
  apply (Hs (i - length pre)%nat x ltac:(lia) Hx (j - length pre)%nat y); [lia|done].
Qed.

(** ** partial_sort *)
Lemma partial_sort_spec m first mid last : (first < mid <= last)%nat -> (last <= length m)%nat ->
  exists s t, __partial_sort comp m first mid last = Some (take first m ++ s ++ t ++ drop last m) /\
    length s = (mid - first)%nat /\ s ++ t ≡ₚ slice first last m /\ sorted s /\
    Forall (fun x => Forall (le x) t) s.
Proof.
  intros Hf Hl. unfold __partial_sort.
  destruct (heap_select_spec m first mid last Hf Hl) as (m' & -> & Hr & Hh & Hs).
  cbn [mbind option_bind]. pose proof (rearranged_length _ _ _ _ Hr) as Hlen. unfold from.
  destruct (sort_heap_spec comp (mid - first) (drop first m')) as (s & -> & Hp & Hso);
    [rewrite length_drop; lia|done|].
  cbn [mbind option_bind]. exists s, (slice mid last m').
  pose proof (Permutation_length Hp) as Hls. rewrite length_take, length_drop in Hls.
  assert (s ≡ₚ slice first mid m') as Hp' by done.
  split; [|split; [lia|split; [|split; [done|]]]].
  - f_equal. rewrite (rearranged_take _ _ _ _ Hr). f_equal. f_equal.
    rewrite drop_drop. replace (first + (mid - first))%nat with mid by lia.
    rewrite <-(rearranged_drop _ _ _ _ Hr). unfold slice.
    rewrite <-(take_drop (last - mid) (drop mid m')) at 1. f_equal. rewrite drop_drop. f_equal. lia.
  - rewrite <-(rearranged_slice first last m m') by (done || lia). rewrite Hp'.
    unfold slice. rewrite <-(take_drop (mid - first) (take (last - first) (drop first m'))).
    rewrite take_take, skipn_firstn_comm, drop_drop.
    replace (Nat.min (mid - first) (last - first)) with (mid - first)%nat by lia.
    replace (first + (mid - first))%nat with mid by lia.
    by replace (last - first - (mid - first))%nat with (last - mid)%nat by lia.
  - rewrite Hp'. apply all_in_slice. eapply all_in_impl, Hs. intros x Hx. by apply all_in_slice.
Qed.

(** ** Introsort

    Quicksort leaves a minimum of the range among the first sixteen elements:
    that is what the unguarded insertions rely on. *)
Definition min_in_front first last m : Prop :=
  exists i x, (first <= i < first + _S_threshold)%nat /\ (i < last)%nat /\ m !! i = Some x /\
    all_in first last (fun y => le x y) m.

(** Every small range has a minimum. *)
Lemma range_min m first n : (0 < n)%nat -> (first + n <= length m)%nat ->
  exists i x, (first <= i < first + n)%nat /\ m !! i = Some x /\
    all_in first (first + n) (fun y => le x y) m.
Proof.
  induction n as [|n IH]; intros Hn Hl; [lia|].
  destruct (lookup_lt_is_Some_2 m (first + n)) as [z Hz]; [lia|].
  assert (forall x, le x z -> all_in first (first + n) (fun y => le x y) m ->
    all_in first (first + S n) (fun y => le x y) m) as Hext.
  { intros x Hx Ha j y Hj Hy. destruct (decide (j = first + n)%nat) as [->|?].
    - rewrite Hz in Hy. by injection Hy as <-.
    - apply (Ha j); [lia|done]. }
  destruct (decide (n = 0%nat)) as [->|Hne].
  { exists (first + 0)%nat, z. split; [lia|]. split; [done|]. apply Hext; [apply (le_refl comp)|].
    apply all_in_empty. lia. }
  destruct IH as (i & x & Hi & Hx & Ha); [lia|lia|].
  destruct (comp z x) eqn:Hc.
  - exists (first + n)%nat, z. split; [lia|]. split; [done|]. apply Hext; [apply (le_refl comp)|].
    eapply all_in_impl, Ha. intros y Hy. apply (le_trans comp _ x); [by apply (le_total comp)|done].
  - exists i, x. split; [lia|]. split; [done|]. by apply Hext.
Qed.

Lemma partial_sort_whole m first last : (first < last <= length m)%nat ->
  exists m', __partial_sort comp m first last last = Some m' /\ rearranged first last m m' /\
    min_in_front first last m'.
Proof.
  intros Hf. destruct (partial_sort_spec m first last last) as (s & t & E & Hl & Hp & Hs & _); [lia|lia|].
  assert (t = []) as ->.
  { apply Permutation_length in Hp. rewrite length_app, length_slice in Hp by lia.
    apply length_zero_iff_nil. lia. }
  rewrite app_nil_r in Hp. eexists. split; [exact E|]. cbn [app].
  destruct s as [|x s]; [simpl in Hl; lia|]. split.
  - rewrite (slice_split first last m) at 1 by lia.
    pose proof (rearranged_app (take first m) _ _ (drop last m) Hp) as Hr.
    rewrite length_take, length_slice in Hr by lia.
    replace (first `min` length m)%nat with first in Hr by lia.
    by replace (first + (last - first))%nat with last in Hr by lia.
  - exists first, x. unfold _S_threshold. split; [lia|]. split; [lia|].
    assert (length (take first m) = first) as Ht by (rewrite length_take; lia).
    split; [by apply list_lookup_middle|].
    intros j y Hj Hy. apply StronglySorted_inv in Hs as [_ Hs].
    rewrite lookup_app_r in Hy by lia. rewrite Ht in Hy.
    destruct (decide (j = first)) as [->|?].
    { rewrite Nat.sub_diag in Hy. injection Hy as <-. apply (le_refl comp). }
    replace (j - first)%nat with (S (j - S first)) in Hy by lia. simpl in Hy, Hl.
    rewrite lookup_app_l in Hy by lia. rewrite Forall_lookup in Hs. by apply (Hs (j - S first)%nat).
Qed.

Lemma introsort_loop_spec depth : forall m first last, (first < last <= length m)%nat ->
  exists m', __introsort_loop comp depth m first last = Some m' /\ rearranged first last m m' /\
    min_in_front first last m'.
Proof.
  induction depth as [|depth IH]; intros m first last Hf;
    cbn [__introsort_loop]; destruct (Nat.ltb_spec _S_threshold (last - first)) as [Hlt|Hge].
  - by apply partial_sort_whole.
  - exists m. split; [done|]. split; [apply rearranged_refl|].
    destruct (range_min m first (last - first)) as (i & x & Hi & Hx & Ha); [lia|lia|].
    exists i, x. replace (first + (last - first))%nat with last in * by lia.
    split; [lia|]. split; [lia|]. by split.
  - unfold _S_threshold in Hlt.
    destruct (partition_pivot_spec comp m first last) as (m1 & cut & pv & -> & Hr1 & Hc & Hlo & Hhi); [lia|lia|].
    cbn [mbind option_bind]. pose proof (rearranged_length _ _ _ _ Hr1).
    destruct (IH m1 cut last ltac:(lia)) as (m2 & -> & Hr2 & _). cbn [mbind option_bind].
    pose proof (rearranged_length _ _ _ _ Hr2).
    destruct (IH m2 first cut ltac:(lia)) as (m3 & -> & Hr3 & (i & x & Hi & Hil & Hx & Ha)).
    exists m3. split; [done|]. split.
    { eapply rearranged_trans; [done|]. eapply rearranged_trans;
        (eapply rearranged_weaken; [done|lia|lia]). }
    exists i, x. split; [done|]. split; [lia|]. split; [done|]. apply (all_in_app _ cut); [done|].
    assert (le x pv) as Hxp.
    { apply (rearranged_all_apart _ _ _ _ _ _ _ Hr2) in Hlo; [|lia].
      apply (rearranged_all _ _ _ _ _ Hr3) in Hlo. apply (Hlo i); [lia|done]. }
    apply (rearranged_all _ _ _ _ _ Hr2) in Hhi.
    apply (rearranged_all_apart _ _ _ _ _ _ _ Hr3) in Hhi; [|lia].
    eapply all_in_impl, Hhi. intros y Hy. by apply (le_trans comp _ pv).
  - exists m. split; [done|]. split; [apply rearranged_refl|].
    destruct (range_min m first (last - first)) as (i & x & Hi & Hx & Ha); [lia|lia|].
    exists i, x. replace (first + (last - first))%nat with last in * by lia.
    split; [lia|]. split; [lia|]. by split.
Qed.

Lemma final_insertion_sort_spec m first last : (first < last <= length m)%nat ->
  min_in_front first last m ->
  exists s, __final_insertion_sort comp m first last = Some (take first m ++ s ++ drop last m) /\
    s ≡ₚ slice first last m /\ sorted s.
Proof.
  intros Hf Hmin. unfold __final_insertion_sort.
  assert (length (take first m) = first) as Hp by (rewrite length_take; lia).
  pose proof (length_slice first last m ltac:(lia)) as Hsl.
  pose proof (slice_split first last m ltac:(lia)) as Hm.
  destruct (Nat.ltb_spec _S_threshold (last - first)) as [Hlt|Hge].
  - set (s1 := take _S_threshold (slice first last m)).
    set (s2 := drop _S_threshold (slice first last m)).
    assert (slice first last m = s1 ++ s2) as Hs12 by (symmetry; apply take_drop).
    assert (length s1 = _S_threshold) as Hl1 by (unfold s1; rewrite length_take; lia).
    assert (length s2 = last - first - _S_threshold)%nat as Hl2 by (unfold s2; rewrite length_drop; lia).
    pose proof (insertion_sort_app comp (take first m) s1 (s2 ++ drop last m)) as E1.
    rewrite Hp, Hl1, (app_assoc s1), <-Hs12, <-Hm in E1. rewrite E1. cbn [mbind option_bind].
    pose proof (unguarded_insertion_app comp s2 (take first m) (isort comp s1) (drop last m)) as E2.
    rewrite (Permutation_length (isort_perm comp s1)), Hp, Hl1, Hl2 in E2.
    unfold __unguarded_insertion_sort.
    replace (last - (first + _S_threshold))%nat with (last - first - _S_threshold)%nat by lia.
    rewrite E2; [|apply (isort_sorted comp)|].
    + eexists. split; [reflexivity|]. split; [|by apply (insert_all_sorted comp), (isort_sorted comp)].
      by rewrite (insert_all_perm comp), (isort_perm comp), Hs12.
    + destruct Hmin as (i & x & Hi & Hil & Hx & Ha). exists x. split.
      * rewrite (isort_perm comp). apply list_elem_of_lookup. exists (i - first)%nat.
        unfold s1. rewrite lookup_take_lt by lia. rewrite lookup_slice, decide_True by lia.
        rewrite <-Hx. f_equal. lia.
      * apply all_in_slice in Ha. rewrite Hs12 in Ha. by apply Forall_app in Ha as [_ Ha].
  - pose proof (insertion_sort_app comp (take first m) (slice first last m) (drop last m)) as E.
    rewrite <-Hm, Hp, Hsl in E. replace (first + (last - first))%nat with last in E by lia.
    eexists. split; [exact E|]. split; [apply (isort_perm comp)|apply (isort_sorted comp)].
Qed.

(** C40. Sorting.  For every strict weak order, [sort] sorts the range in
    place: it returns, without an access outside the memory, the range becomes
    a permutation of itself in which no element is before an earlier one, and
    the rest of the memory is untouched. *)
Theorem sort_sorts m (first last : nat) : (first <= last <= length m)%nat ->
  exists s, sort_comp comp m first last = Some (take first m ++ s ++ drop last m) /\
    s ≡ₚ slice first last m /\ sorted s.
Proof.
  intros Hf. unfold sort_comp, __sort. destruct (Nat.eqb_spec first last) as [->|Hne].
  { exists []. unfold slice. rewrite Nat.sub_diag, take_0. cbn [app].
    split; [by rewrite take_drop|]. split; [done|constructor]. }
  destruct (introsort_loop_spec (__lg (last - first) * 2) m first last ltac:(lia))
    as (m1 & -> & Hr & Hmin). cbn [mbind option_bind].
  pose proof (rearranged_length _ _ _ _ Hr).
  destruct (final_insertion_sort_spec m1 first last ltac:(lia) Hmin) as (s & -> & Hp & Hs).
  exists s. rewrite (rearranged_take _ _ _ _ Hr), (rearranged_drop _ _ _ _ Hr).
  split; [done|]. split; [|done]. rewrite Hp. apply rearranged_slice; [lia|done].
Qed.

(** Partial sorting.  [partial_sort] puts the smallest elements of the
    range, sorted, before [middle]; the others follow in some order. *)
Theorem partial_sort_selects m (first mid last : nat) :
  (first < mid <= last)%nat -> (last <= length m)%nat ->
  exists s t, partial_sort_comp comp m first mid last = Some (take first m ++ s ++ t ++ drop last m) /\
    length s = (mid - first)%nat /\ s ++ t ≡ₚ slice first last m /\ sorted s /\
    Forall (fun x => Forall (le x) t) s.
Proof. apply partial_sort_spec. Qed.

(** ** nth_element *)
Definition nth_in_place first nth last m : Prop :=
  exists v, m !! nth = Some v /\ all_in first nth (fun x => le x v) m /\
    all_in nth last (fun y => le v y) m.

Lemma insertion_sort_nth m first nth last : (first <= nth < last)%nat -> (last <= length m)%nat ->
  exists m', __insertion_sort comp m first last = Some m' /\ rearranged first last m m' /\
    nth_in_place first nth last m'.
Proof.
  intros Hn Hl.
  assert (length (take first m) = first) as Hp by (rewrite length_take; lia).
  pose proof (length_slice first last m ltac:(lia)) as Hsl.
  pose proof (insertion_sort_app comp (take first m) (slice first last m) (drop last m)) as E.
  rewrite <-slice_split, Hp, Hsl in E by lia.
  replace (first + (last - first))%nat with last in E by lia.
  set (s := slice first last m) in *.
  pose proof (isort_perm comp s) as Hperm. pose proof (isort_sorted comp s) as Hs.
  pose proof (rearranged_app (take first m) s (isort comp s) (drop last m) Hperm) as Hr.
  replace (take first m ++ s ++ drop last m) with m in Hr by (apply slice_split; lia).
  rewrite Hp, Hsl in Hr.
  replace (first + (last - first))%nat with last in Hr by lia.
  eexists. split; [exact E|]. split; [exact Hr|].
  assert (forall i, (first <= i < last)%nat ->
    (take first m ++ isort comp s ++ drop last m) !! i = isort comp s !! (i - first)%nat) as Hlk.
  { intros i Hi. rewrite lookup_app_r by lia. rewrite Hp, lookup_app_l; [done|].
    rewrite (Permutation_length Hperm). lia. }
  destruct (lookup_lt_is_Some_2 (isort comp s) (nth - first)) as [v Hv];
    [rewrite (Permutation_length Hperm); lia|].
  exists v. rewrite Hlk by lia. split; [done|].
  split; intros i x Hi Hx; rewrite Hlk in Hx by lia.
  - apply (sorted_lookup _ Hs (i - first) (nth - first)); [lia|done..].
  - destruct (decide (i = nth)) as [->|?].
    + rewrite Hv in Hx. injection Hx as <-. apply (le_refl comp).
    + apply (sorted_lookup _ Hs (nth - first) (i - first)); [lia|done..].
Qed.

Lemma heap_select_nth m first nth last : (first <= nth < last)%nat -> (last <= length m)%nat ->
  exists m', (m1 ← __heap_select comp m first (S nth) last; iter_swap m1 first nth) = Some m' /\
    rearranged first last m m' /\ nth_in_place first nth last m'.
Proof.
  intros Hn Hl. destruct (heap_select_spec m first (S nth) last) as (m1 & -> & Hr & Hh & Hs); [lia|lia|].
  cbn [mbind option_bind]. pose proof (rearranged_length _ _ _ _ Hr).
  destruct (iter_swap_rearranged m1 first nth first last) as (m2 & -> & Hr2 & E1 & E2 & Hk); [lia..|].
  exists m2. split; [done|]. split; [by eapply rearranged_trans|].
  destruct (lookup_lt_is_Some_2 m1 first) as [v Hv]; [lia|]. rewrite Hv in E2.
  assert (all_in first (S nth) (fun x => le x v) m1) as Htop.
  { intros i x Hi Hx. apply (heap_top comp (S nth - first) (drop first m1) v Hh) with (i - first)%nat.
    - by rewrite lookup_drop, Nat.add_0_r.
    - rewrite length_drop. lia.
    - lia.
    - rewrite lookup_drop, <-Hx. f_equal. lia. }
  exists v. split; [done|]. split.
  - intros i x Hi Hx. destruct (decide (i = first)) as [->|?].
    + rewrite E1 in Hx. apply (Htop nth); [lia|done].
    + rewrite Hk in Hx by lia. apply (Htop i); [lia|done].
  - intros i x Hi Hx. destruct (decide (i = nth)) as [->|?].
    + rewrite E2 in Hx. injection Hx as <-. apply (le_refl comp).
    + rewrite Hk in Hx by lia. apply (Hs first v ltac:(lia) Hv i); [lia|done].
Qed.

Lemma introselect_spec depth : forall m first nth last,
  (first <= nth < last)%nat -> (last <= length m)%nat ->
  exists m', __introselect comp depth m first nth last = Some m' /\ rearranged first last m m' /\
    nth_in_place first nth last m'.
Proof.
  induction depth as [|depth IH]; intros m first nth last Hn Hl;
    cbn [__introselect]; destruct (Nat.ltb_spec 3 (last - first)) as [Hlt|Hge];
    [by apply heap_select_nth|by apply insertion_sort_nth| |by apply insertion_sort_nth].
  destruct (partition_pivot_spec comp m first last) as (m1 & cut & pv & -> & Hr1 & Hc & Hlo & Hhi); [lia|lia|].
  cbn [mbind option_bind]. pose proof (rearranged_length _ _ _ _ Hr1).
  destruct (Nat.leb_spec cut nth) as [Hcn|Hcn].
  - destruct (IH m1 cut nth last) as (m' & -> & Hr & (v & Hv & Ha & Hb)); [lia|lia|].
    exists m'. split; [done|]. split.
    { eapply rearranged_trans; [done|]. eapply rearranged_weaken; [done|lia|lia]. }
    exists v. split; [done|]. split; [|done]. apply (all_in_app _ cut); [|done].
    apply (rearranged_all_apart _ _ _ _ _ _ _ Hr) in Hlo; [|lia].
    apply (rearranged_all _ _ _ _ _ Hr) in Hhi.
    eapply all_in_impl, Hlo. intros x Hx. apply (le_trans comp _ pv); [done|].
    apply (Hhi nth); [lia|done].
  - destruct (IH m1 first nth cut) as (m' & -> & Hr & (v & Hv & Ha & Hb)); [lia|lia|].
    exists m'. split; [done|]. split.
    { eapply rearranged_trans; [done|]. eapply rearranged_weaken; [done|lia|lia]. }
    exists v. split; [done|]. split; [done|]. apply (all_in_app _ cut); [done|].
    apply (rearranged_all_apart _ _ _ _ _ _ _ Hr) in Hhi; [|lia].
    apply (rearranged_all _ _ _ _ _ Hr) in Hlo.
    eapply all_in_impl, Hhi. intros x Hx. apply (le_trans comp _ pv); [|done].
    apply (Hlo nth); [lia|done].
Qed.

(** Selection.  [nth_element] puts at [nth] an element such that none
    before it is greater and none behind it is smaller, on a permutation of
    the range, and leaves the rest of the memory alone. *)
Theorem nth_element_selects m (first nth last : nat) :
  (first <= nth < last)%nat -> (last <= length m)%nat ->
  exists m' v, nth_element_comp comp m first nth last = Some m' /\
    slice first last m' ≡ₚ slice first last m /\
    (forall i, (i < first \/ last <= i)%nat -> m' !! i = m !! i) /\
    m' !! nth = Some v /\
    (forall i x, (first <= i < nth)%nat -> m' !! i = Some x -> comp v x = false) /\
    (forall i x, (nth < i < last)%nat -> m' !! i = Some x -> comp x v = false).
Proof.
  intros Hn Hl. unfold nth_element_comp.
  destruct (Nat.eqb_spec first last) as [|_]; [lia|]. destruct (Nat.eqb_spec nth last) as [|_]; [lia|].
  destruct (introselect_spec (__lg (last - first) * 2) m first nth last Hn Hl)
    as (m' & E & Hr & (v & Hv & Ha & Hb)).
  exists m', v. split; [exact E|]. split; [by apply rearranged_slice; [lia|]|].
  split; [apply Hr|]. split; [done|]. split; [exact Ha|].
  intros i x Hi. apply Hb. lia.
Qed.
End SortCorrect.

(** ** Witnesses *)
Section SortWitnesses.

(** A pseudo-random memory, with more than sixteen elements in the range. *)
Definition sample_memory : list Z := (fun i => (i * 7919 + 13) mod 101) <$> seqZ 0 60.

Lemma sort_sorts_witness :
  exists s, sort_comp Z.ltb sample_memory 2 58 = Some (take 2 sample_memory ++ s ++ drop 58 sample_memory) /\
    StronglySorted (HeapProps.le Z.ltb) s.
Proof.
  destruct (sort_sorts Z.ltb sample_memory 2 58) as (s & E & _ & Hs); [vm_compute; lia|].
  exists s. split; [exact E|exact Hs].
Defined.

Lemma partial_sort_selects_witness :
  exists s t, partial_sort_comp Z.ltb sample_memory 2 12 58 =
      Some (take 2 sample_memory ++ s ++ t ++ drop 58 sample_memory) /\
    Forall (fun x => Forall (HeapProps.le Z.ltb x) t) s.
Proof.
  destruct (partial_sort_selects Z.ltb sample_memory 2 12 58) as (s & t & E & _ & _ & _ & Hs);
    [lia|vm_compute; lia|].
  exists s, t. split; [exact E|exact Hs].
Defined.

Lemma nth_element_selects_witness :
  exists m' v, nth_element_comp Z.ltb sample_memory 2 30 58 = Some m' /\ m' !! 30%nat = Some v /\
    (forall i x, (2 <= i < 30)%nat -> m' !! i = Some x -> (v <? x) = false).
Proof.
  destruct (nth_element_selects Z.ltb sample_memory 2 30 58) as (m' & v & E & _ & _ & Hv & Ha & _);
    [lia|vm_compute; lia|].
  exists m', v. split; [exact E|]. split; [exact Hv|exact Ha].
Defined.
End SortWitnesses.
