(* ===== verification/CxxMemory.v ===== *)
(** * Memory, pointers and characters below [std::string]

    A program state holds the string objects and the blocks of the free store.
    A cell is a character or indeterminate; a pointer names a region (the
    local buffer of an object or a block) and an offset in it.  A computation
    returns, throws, or has undefined behaviour; an exception carries the state
    in which it leaves.  Characters are octets.  The functions on characters
    are those of [char_traits<char>] (bits/char_traits.h), allocation is that
    of ext/new_allocator.h. *)
From S2P Require Import Prelude.

(** ** State *)
Abbreviation cell := (option Z).

Inductive region := Local (o : nat) | Block (b : nat).
#[export] Instance region_eq_dec : EqDecision region.
Proof. solve_decision. Defined.

Record pointer := Pointer { in_region : region; offset : Z }.
#[export] Instance pointer_eq_dec : EqDecision pointer.
Proof. solve_decision. Defined.

Definition padd (p : pointer) (n : Z) : pointer := Pointer (in_region p) (offset p + n).

(** The anonymous union of the class and the object itself. *)
Inductive union := _M_local_buf (cs : list cell) | _M_allocated_capacity (n : Z).

Record basic_string := BasicString { _M_p : pointer; _M_string_length : Z; _M_union : union }.

Record memory := Memory { objects : gmap nat basic_string; blocks : gmap nat (list cell) }.

Definition _S_local_capacity : Z := 15.

(** ** Computations *)
Inductive std_exn := length_error | out_of_range | logic_error | bad_alloc.

Inductive result (A : Type) := Val (x : A) (m : memory) | Exn (e : std_exn) (m : memory) | Ub.
Arguments Val {A}.
Arguments Exn {A}.
Arguments Ub {A}.

Definition M (A : Type) : Type := memory -> result A.

#[export] Instance M_ret : MRet M := fun A x m => Val x m.
#[export] Instance M_bind : MBind M := fun A B f c m =>
  match c m with Val x m' => f x m' | Exn e m' => Exn e m' | Ub => Ub end.

Definition throw {A} (e : std_exn) : M A := fun m => Exn e m.
Definition ub {A} : M A := fun _ => Ub.
Definition when (b : bool) (c : M unit) : M unit := if b then c else mret tt.

(** ** Access to cells *)
Definition in_range (i n : Z) (cs : list cell) : bool :=
  (0 <=? i) && (0 <=? n) && (i + n <=? Z.of_nat (length cs)).
Definition cells_get (i n : Z) (cs : list cell) : list cell :=
  take (Z.to_nat n) (drop (Z.to_nat i) cs).
Definition cells_put (i : Z) (ds cs : list cell) : list cell :=
  take (Z.to_nat i) cs ++ ds ++ drop (Z.to_nat i + length ds) cs.

(** While the union holds the capacity the characters of the local buffer are
    indeterminate. *)
Definition union_cells (u : union) : list cell :=
  match u with _M_local_buf cs => cs | _M_allocated_capacity _ => replicate 16 None end.

Definition region_cells (r : region) (m : memory) : option (list cell) :=
  match r with
  | Local o => s ← objects m !! o; Some (union_cells (_M_union s))
  | Block b => blocks m !! b
  end.
Definition set_region (r : region) (cs : list cell) (m : memory) : memory :=
  match r with
  | Local o =>
      Memory (alter (fun s => BasicString (_M_p s) (_M_string_length s) (_M_local_buf cs)) o
                (objects m)) (blocks m)
  | Block b => Memory (objects m) (<[b := cs]> (blocks m))
  end.

Definition get_cells (p : pointer) (n : Z) : M (list cell) := fun m =>
  match region_cells (in_region p) m with
  | Some cs => if in_range (offset p) n cs then Val (cells_get (offset p) n cs) m else Ub
  | None => Ub
  end.
Definition put_cells (p : pointer) (ds : list cell) : M unit := fun m =>
  match region_cells (in_region p) m with
  | Some cs =>
      if in_range (offset p) (Z.of_nat (length ds)) cs
      then Val tt (set_region (in_region p) (cells_put (offset p) ds cs) m) else Ub
  | None => Ub
  end.

(** The value of cells that hold characters. *)
Fixpoint chars (cs : list cell) : option (list Z) :=
  match cs with
  | [] => Some []
  | None :: _ => None
  | Some c :: cs' => xs ← chars cs'; Some (c :: xs)
  end.
Definition get_chars (p : pointer) (n : Z) : M (list Z) :=
  cs ← get_cells p n; match chars cs with Some xs => mret xs | None => ub end.

(** ** [char_traits<char>] *)
Module traits.
Definition assign (p : pointer) (c : Z) : M unit := put_cells p [Some c].

(** [memcpy] requires that the ranges do not overlap. *)
Definition disjoint (p q : pointer) (n : Z) : bool :=
  negb (bool_decide (in_region p = in_region q)) ||
  (offset p + n <=? offset q) || (offset q + n <=? offset p).
Definition copy (d s : pointer) (n : Z) : M unit :=
  if n =? 0 then mret tt
  else if disjoint d s n then ds ← get_cells s n; put_cells d ds else ub.
Definition move (d s : pointer) (n : Z) : M unit :=
  if n =? 0 then mret tt else ds ← get_cells s n; put_cells d ds.
Definition assign_n (d : pointer) (n : Z) (c : Z) : M unit :=
  if n =? 0 then mret tt else put_cells d (replicate (Z.to_nat n) (Some c)).

(** [strlen] runs up to the first NUL of the region. *)
Fixpoint strlen (cs : list cell) : option Z :=
  match cs with
  | [] | None :: _ => None
  | Some c :: cs' => if c =? 0 then Some 0 else n ← strlen cs'; Some (n + 1)
  end.
Definition length (s : pointer) : M Z := fun m =>
  match region_cells (in_region s) m with
  | Some cs =>
      if in_range (offset s) 0 cs then
        match strlen (drop (Z.to_nat (offset s)) cs) with Some n => Val n m | None => Ub end
      else Ub
  | None => Ub
  end.

(** [memcmp] returns some number with the sign of the first difference. *)
Class MemCmp := memcmp : list Z -> list Z -> Z.
Definition compare `{MemCmp} (p q : pointer) (n : Z) : M Z :=
  if n =? 0 then mret 0
  else xs ← get_chars p n; ys ← get_chars q n; mret (memcmp xs ys).

(** [memchr] *)
Fixpoint index_of (c : Z) (xs : list Z) : option Z :=
  match xs with
  | [] => None
  | x :: xs' => if x =? c then Some 0 else n ← index_of c xs'; Some (n + 1)
  end.
Definition find (s : pointer) (n : Z) (c : Z) : M (option pointer) :=
  if n =? 0 then mret None
  else xs ← get_chars s n; mret (padd s <$> index_of c xs).
End traits.

Fixpoint first_difference (xs ys : list Z) : Z :=
  match xs, ys with
  | x :: xs', y :: ys' => if x =? y then first_difference xs' ys' else x - y
  | _, _ => 0
  end.
Class MemCmpLaws `{traits.MemCmp} : Prop := memcmp_sign : forall xs ys : list Z,
  length xs = length ys -> Z.sgn (traits.memcmp xs ys) = Z.sgn (first_difference xs ys).

(** ** The allocator

    [size_type] has 32 bits.  [operator new] may fail; otherwise the block is
    new and its cells are indeterminate. *)
Class OperatorNew := new_succeeds : memory -> Z -> bool.

Definition npos : Z := u32 (-1).
Definition allocator_max_size : Z := npos / 1.

Definition allocate `{OperatorNew} (n : Z) : M pointer := fun m =>
  if allocator_max_size <? n then Exn bad_alloc m
  else if new_succeeds m n then
    let b := fresh (dom (blocks m)) in
    Val (Pointer (Block b) 0)
      (Memory (objects m) (<[b := replicate (Z.to_nat n) None]> (blocks m)))
  else Exn bad_alloc m.

(** Only the start of a block that is still allocated may be freed. *)
Definition deallocate (p : pointer) : M unit := fun m =>
  match p with
  | Pointer (Block b) 0 =>
      match blocks m !! b with
      | Some _ => Val tt (Memory (objects m) (delete b (blocks m)))
      | None => Ub
      end
  | _ => Ub
  end.

(** ** Objects *)
Definition get_object (o : nat) : M basic_string := fun m =>
  match objects m !! o with Some s => Val s m | None => Ub end.
Definition update_object (f : basic_string -> basic_string) (o : nat) : M unit := fun m =>
  match objects m !! o with
  | Some s => Val tt (Memory (<[o := f s]> (objects m)) (blocks m))
  | None => Ub
  end.
Definition end_object (o : nat) : M unit := fun m =>
  Val tt (Memory (delete o (objects m)) (blocks m)).

(** A constructor body runs on an object with indeterminate members; if it
    throws there is no object. *)
Definition new_object (o : nat) (body : M unit) : M unit := fun m =>
  match objects m !! o with
  | Some _ => Ub
  | None =>
      let s := BasicString (Pointer (Local o) 0) 0 (_M_local_buf (replicate 16 None)) in
      match body (Memory (<[o := s]> (objects m)) (blocks m)) with
      | Exn e m' => Exn e (Memory (delete o (objects m')) (blocks m'))
      | r => r
      end
  end.

(** An automatic variable: its destructor runs on an exception, too. *)
Definition scoped {A} (dtor : nat -> M unit) (o : nat) (body : M A) : M A := fun m =>
  match body m with
  | Val x m' => (_ ← dtor o; mret x) m'
  | Exn e m' => (_ ← dtor o; throw e) m'
  | Ub => Ub
  end.
