(* ===== verification/CxxString.v ===== *)
(** * [std::string]: bits/basic_string.h and basic_string.tcc

    The class with the small-buffer layout ([_GLIBCXX_USE_CXX11_ABI]) for
    [char] and [std::allocator], as computations on the memory of [CxxMemory].
    [this] and [str] are object numbers, an iterator is a pointer.  Functions
    that are overloaded carry a suffix: [_str] for a string, [_substr] for a
    part of one, [_cstr] for a C string, [_fill] for copies of a character,
    [_at] for positions given by iterators, [_char] for one character. *)
From S2P Require Import Prelude CxxMemory.

Module string.
Section basic_string.
Context `{OperatorNew}.

(** ** Members *)
Definition _M_data (this : nat) : M pointer := s ← get_object this; mret (_M_p s).
Definition _M_data_set (this : nat) (p : pointer) : M unit :=
  update_object (fun s => BasicString p (_M_string_length s) (_M_union s)) this.
Definition length (this : nat) : M Z := s ← get_object this; mret (_M_string_length s).
Definition size (this : nat) : M Z := s ← get_object this; mret (_M_string_length s).
Definition _M_length (this : nat) (n : Z) : M unit :=
  update_object (fun s => BasicString (_M_p s) n (_M_union s)) this.
Definition _M_local_data (this : nat) : pointer := Pointer (Local this) 0.
Definition _M_capacity (this : nat) (n : Z) : M unit :=
  update_object (fun s => BasicString (_M_p s) (_M_string_length s) (CxxMemory._M_allocated_capacity n)) this.
(** Reading the capacity while the union holds characters is undefined. *)
Definition _M_allocated_capacity (this : nat) : M Z :=
  s ← get_object this;
  match _M_union s with CxxMemory._M_allocated_capacity n => mret n | _M_local_buf _ => ub end.

Definition max_size : Z := (allocator_max_size - 1) / 2.

Definition _M_set_length (this : nat) (n : Z) : M unit :=
  _ ← _M_length this n;
  p ← _M_data this;
  traits.assign (padd p n) 0.

Definition _M_is_local (this : nat) : M bool :=
  p ← _M_data this; mret (bool_decide (p = _M_local_data this)).

Definition capacity (this : nat) : M Z :=
  l ← _M_is_local this;
  if (l : bool) then mret _S_local_capacity else _M_allocated_capacity this.

Definition _M_create (capacity old_capacity : Z) : M (pointer * Z) :=
  if max_size <? capacity then throw length_error
  else
    let capacity :=
      if (old_capacity <? capacity) && (capacity <? u32 (2 * old_capacity))
      then if max_size <? u32 (2 * old_capacity) then max_size else u32 (2 * old_capacity)
      else capacity in
    p ← allocate (u32 (capacity + 1));
    mret (p, capacity).

Definition _M_destroy (this : nat) : M unit := p ← _M_data this; deallocate p.
Definition _M_dispose (this : nat) : M unit :=
  l ← _M_is_local this;
  if (l : bool) then mret tt else _ ← _M_allocated_capacity this; _M_destroy this.

(** ** Checks *)
Definition _M_check (this : nat) (pos : Z) : M Z :=
  n ← size this; if n <? pos then throw out_of_range else mret pos.
Definition _M_check_length (this : nat) (n1 n2 : Z) : M unit :=
  n ← size this; when (u32 (max_size - u32 (n - n1)) <? n2) (throw length_error).
Definition _M_limit (this : nat) (pos off : Z) : M Z :=
  n ← size this; mret (if off <? u32 (n - pos) then off else u32 (n - pos)).
(** Pointers into another region are below or above the whole string. *)
Definition _M_disjunct (this : nat) (s : pointer) : M bool :=
  p ← _M_data this; n ← size this;
  mret (negb (bool_decide (in_region s = in_region p)) ||
        (offset s <? offset p) || (offset p + n <? offset s)).

(** ** Copying characters *)
Definition _S_copy (d s : pointer) (n : Z) : M unit :=
  if n =? 1 then c ← get_cells s 1; put_cells d c else traits.copy d s n.
Definition _S_move (d s : pointer) (n : Z) : M unit :=
  if n =? 1 then c ← get_cells s 1; put_cells d c else traits.move d s n.
Definition _S_assign (d : pointer) (n : Z) (c : Z) : M unit :=
  if n =? 1 then traits.assign d c else traits.assign_n d n c.
Definition _S_compare (n1 n2 : Z) : Z :=
  let d := i32 (u32 (n1 - n2)) in
  if 2147483647 <? d then 2147483647 else if d <? -2147483648 then -2147483648 else d.

(** ** Construction *)

(** From a pointer range; [None] is the null pointer. *)
Definition _M_construct (this : nat) (beg : option pointer) (n : Z) : M unit :=
  if negb (bool_decide (is_Some beg)) && negb (n =? 0) then throw logic_error
  else
    _ ← when (_S_local_capacity <? n)
          ('(p, c) ← _M_create n 0; _ ← _M_data_set this p; _M_capacity this c);
    p ← _M_data this;
    _ ← match beg with Some s => _S_copy p s n | None => mret tt end;
    _M_set_length this n.

(** From input iterators, which deliver the characters [cs]. *)
Fixpoint construct_local (this : nat) (cs : list Z) (len : Z) : M (list Z * Z) :=
  match cs with
  | c :: cs' =>
      if len <? _S_local_capacity then
        p ← _M_data this;
        _ ← put_cells (padd p len) [Some c];
        construct_local this cs' (len + 1)
      else mret (cs, len)
  | [] => mret ([], len)
  end.
Fixpoint construct_more (this : nat) (cs : list Z) (len cap : Z) : M Z :=
  match cs with
  | c :: cs' =>
      cap ← (if len =? cap then
               '(another, cap) ← _M_create (u32 (len + 1)) len;
               p ← _M_data this;
               _ ← _S_copy another p len;
               _ ← _M_dispose this;
               _ ← _M_data_set this another;
               _ ← _M_capacity this cap;
               mret cap
             else mret cap);
      p ← _M_data this;
      _ ← put_cells (padd p len) [Some c];
      construct_more this cs' (u32 (len + 1)) cap
  | [] => mret len
  end.
(** An exception frees what was allocated and goes on. *)
Definition catch {A} (c : M A) (handler : M unit) : M A := fun m =>
  match c m with Exn e m' => (_ ← handler; throw e) m' | r => r end.
Definition _M_construct_input (this : nat) (cs : list Z) : M unit :=
  '(rest, len) ← construct_local this cs 0;
  len ← catch (construct_more this rest len _S_local_capacity) (_M_dispose this);
  _M_set_length this len.

Definition _M_construct_fill (this : nat) (n : Z) (c : Z) : M unit :=
  _ ← when (_S_local_capacity <? n)
        ('(p, cap) ← _M_create n 0; _ ← _M_data_set this p; _M_capacity this cap);
  _ ← when (negb (n =? 0)) (p ← _M_data this; _S_assign p n c);
  _M_set_length this n.

Definition new_default (this : nat) : M unit :=
  new_object this (_M_set_length this 0).
Definition new_copy (this str : nat) : M unit :=
  new_object this (p ← _M_data str; n ← length str; _M_construct this (Some p) n).
Definition new_substr (this str : nat) (pos n : Z) : M unit :=
  new_object this
    (p ← _M_data str; pos ← _M_check str pos; n ← _M_limit str pos n;
     _M_construct this (Some (padd p pos)) n).
Definition new_chars (this : nat) (s : pointer) (n : Z) : M unit :=
  new_object this (_M_construct this (Some s) n).
Definition new_cstr (this : nat) (s : option pointer) : M unit :=
  new_object this
    (match s with
     | Some p => n ← traits.length p; _M_construct this s n
     | None => _M_construct this None npos
     end).
Definition new_fill (this : nat) (n c : Z) : M unit :=
  new_object this (_M_construct_fill this n c).
Definition new_input (this : nat) (cs : list Z) : M unit :=
  new_object this (_M_construct_input this cs).
Definition new_move (this str : nat) : M unit :=
  new_object this
    (l ← _M_is_local str;
     _ ← (if (l : bool)
          then traits.copy (_M_local_data this) (_M_local_data str) (_S_local_capacity + 1)
          else
            p ← _M_data str; _ ← _M_data_set this p;
            c ← _M_allocated_capacity str; _M_capacity this c);
     n ← length str;
     _ ← _M_length this n;
     _ ← _M_data_set str (_M_local_data str);
     _M_set_length str 0).

Definition destroy (this : nat) : M unit := _ ← _M_dispose this; end_object this.

(** ** Changing the contents *)
Definition _M_assign (this str : nat) : M unit :=
  if (this =? str)%nat then mret tt
  else
    rsize ← length str;
    cap ← capacity this;
    _ ← when (cap <? rsize)
          ('(tmp, new_capacity) ← _M_create rsize cap;
           _ ← _M_dispose this;
           _ ← _M_data_set this tmp;
           _M_capacity this new_capacity);
    _ ← when (negb (rsize =? 0))
          (p ← _M_data this; q ← _M_data str; _S_copy p q rsize);
    _M_set_length this rsize.

Definition reserve (this : nat) (res : Z) : M unit :=
  len ← length this;
  let res := if res <? len then len else res in
  cap ← capacity this;
  when (negb (res =? cap))
    (if (cap <? res) || (_S_local_capacity <? res) then
       '(tmp, res) ← _M_create res cap;
       p ← _M_data this;
       _ ← _S_copy tmp p (u32 (len + 1));
       _ ← _M_dispose this;
       _ ← _M_data_set this tmp;
       _M_capacity this res
     else
       l ← _M_is_local this;
       when (negb l)
         (p ← _M_data this;
          _ ← _S_copy (_M_local_data this) p (u32 (len + 1));
          _ ← _M_destroy this;
          _M_data_set this (_M_local_data this))).

(** [s] is null where the new characters are written afterwards. *)
Definition _M_mutate (this : nat) (pos len1 : Z) (s : option pointer) (len2 : Z) : M unit :=
  len ← length this;
  let how_much := u32 (len - pos - len1) in
  cap ← capacity this;
  '(r, new_capacity) ← _M_create (u32 (len + len2 - len1)) cap;
  _ ← when (negb (pos =? 0)) (p ← _M_data this; _S_copy r p pos);
  _ ← match s with
      | Some s => when (negb (len2 =? 0)) (_S_copy (padd r pos) s len2)
      | None => mret tt
      end;
  _ ← when (negb (how_much =? 0))
        (p ← _M_data this; _S_copy (padd r (pos + len2)) (padd p (pos + len1)) how_much);
  _ ← _M_dispose this;
  _ ← _M_data_set this r;
  _M_capacity this new_capacity.

Definition _M_erase (this : nat) (pos n : Z) : M unit :=
  len ← length this;
  let how_much := u32 (len - pos - n) in
  _ ← when (negb (how_much =? 0) && negb (n =? 0))
        (p ← _M_data this; _S_move (padd p pos) (padd p (pos + n)) how_much);
  _M_set_length this (u32 (len - n)).

Definition _M_append (this : nat) (s : pointer) (n : Z) : M unit :=
  sz ← size this;
  let len := u32 (n + sz) in
  cap ← capacity this;
  _ ← (if len <=? cap
       then when (negb (n =? 0)) (p ← _M_data this; _S_copy (padd p sz) s n)
       else _M_mutate this sz 0 (Some s) n);
  _M_set_length this len.

Definition _M_replace_aux (this : nat) (pos1 n1 n2 c : Z) : M unit :=
  _ ← _M_check_length this n1 n2;
  old_size ← size this;
  let new_size := u32 (old_size + n2 - n1) in
  cap ← capacity this;
  _ ← (if new_size <=? cap then
         p ← _M_data this;
         let p := padd p pos1 in
         let how_much := u32 (old_size - pos1 - n1) in
         when (negb (how_much =? 0) && negb (n1 =? n2)) (_S_move (padd p n2) (padd p n1) how_much)
       else _M_mutate this pos1 n1 None n2);
  _ ← when (negb (n2 =? 0)) (p ← _M_data this; _S_assign (padd p pos1) n2 c);
  _M_set_length this new_size.

(** The characters [s] are outside of the string's. *)
Definition replace_disjunct (p s : pointer) (len1 len2 how_much : Z) : M unit :=
  _ ← when (negb (how_much =? 0) && negb (len1 =? len2))
        (_S_move (padd p len2) (padd p len1) how_much);
  when (negb (len2 =? 0)) (_S_copy p s len2).

(** They are part of the string: work in place.  All pointers are into the
    string's region. *)
Definition replace_in_place (p s : pointer) (len1 len2 how_much : Z) : M unit :=
  _ ← when (negb (len2 =? 0) && (len2 <=? len1)) (_S_move p s len2);
  _ ← when (negb (how_much =? 0) && negb (len1 =? len2))
        (_S_move (padd p len2) (padd p len1) how_much);
  when (len1 <? len2)
    (if offset s + len2 <=? offset p + len1 then _S_move p s len2
     else if offset p + len1 <=? offset s then _S_copy p (padd s (len2 - len1)) len2
     else
       let nleft := offset p + len1 - offset s in
       _ ← _S_move p s nleft;
       _S_copy (padd p nleft) (padd p len2) (u32 (len2 - nleft))).

Definition _M_replace (this : nat) (pos len1 : Z) (s : pointer) (len2 : Z) : M unit :=
  _ ← _M_check_length this len1 len2;
  old_size ← size this;
  let new_size := u32 (old_size + len2 - len1) in
  cap ← capacity this;
  _ ← (if new_size <=? cap then
         p ← _M_data this;
         let p := padd p pos in
         let how_much := u32 (old_size - pos - len1) in
         disjunct ← _M_disjunct this s;
         if (disjunct : bool) then replace_disjunct p s len1 len2 how_much
         else replace_in_place p s len1 len2 how_much
       else _M_mutate this pos len1 (Some s) len2);
  _M_set_length this new_size.

(** ** The interface *)
Definition clear (this : nat) : M unit := _M_set_length this 0.
Definition empty (this : nat) : M bool := n ← size this; mret (n =? 0).

(** *** append *)
Definition append_str (this str : nat) : M unit :=
  p ← _M_data str; n ← size str; _M_append this p n.
Definition append_substr (this str : nat) (pos n : Z) : M unit :=
  p ← _M_data str; pos ← _M_check str pos; n ← _M_limit str pos n; _M_append this (padd p pos) n.
Definition append (this : nat) (s : pointer) (n : Z) : M unit :=
  _ ← _M_check_length this 0 n; _M_append this s n.
Definition append_cstr (this : nat) (s : pointer) : M unit :=
  n ← traits.length s; _ ← _M_check_length this 0 n; _M_append this s n.
Definition append_fill (this : nat) (n c : Z) : M unit :=
  sz ← size this; _M_replace_aux this sz 0 n c.

Definition push_back (this : nat) (c : Z) : M unit :=
  sz ← size this;
  cap ← capacity this;
  _ ← when (cap <? u32 (sz + 1)) (_M_mutate this sz 0 None 1);
  p ← _M_data this;
  _ ← traits.assign (padd p sz) c;
  _M_set_length this (u32 (sz + 1)).

Definition resize (this : nat) (n c : Z) : M unit :=
  sz ← size this;
  if sz <? n then append_fill this (u32 (n - sz)) c
  else when (n <? sz) (_M_set_length this n).
Definition shrink_to_fit (this : nat) : M unit :=
  cap ← capacity this; sz ← size this;
  when (sz <? cap)
    (fun m => match reserve this 0 m with Exn _ m' => Val tt m' | r => r end).

(** *** assign *)
Definition assign_str (this str : nat) : M unit := _M_assign this str.
Definition assign_substr (this str : nat) (pos n : Z) : M unit :=
  sz ← size this; p ← _M_data str; pos ← _M_check str pos; n ← _M_limit str pos n;
  _M_replace this 0 sz (padd p pos) n.
Definition assign (this : nat) (s : pointer) (n : Z) : M unit :=
  sz ← size this; _M_replace this 0 sz s n.
Definition assign_cstr (this : nat) (s : pointer) : M unit :=
  sz ← size this; n ← traits.length s; _M_replace this 0 sz s n.
Definition assign_fill (this : nat) (n c : Z) : M unit :=
  sz ← size this; _M_replace_aux this 0 sz n c.

(** [operator=] of an rvalue: [std::allocator] objects are all equal. *)
Definition assign_move (this str : nat) : M unit :=
  l ← _M_is_local str;
  _ ← (if (l : bool) then
         n ← size str;
         _ ← when (negb (n =? 0)) (p ← _M_data this; q ← _M_data str; _S_copy p q n);
         _M_set_length this n
       else
         l ← _M_is_local this;
         old ← (if (l : bool) then mret None
                else p ← _M_data this; c ← _M_allocated_capacity this; mret (Some (p, c)));
         q ← _M_data str; _ ← _M_data_set this q;
         n ← length str; _ ← _M_length this n;
         c ← _M_allocated_capacity str; _ ← _M_capacity this c;
         match old with
         | Some (p, c) => _ ← _M_data_set str p; _M_capacity str c
         | None => _M_data_set str (_M_local_data str)
         end);
  clear str.

(** *** replace *)
Definition replace (this : nat) (pos n1 : Z) (s : pointer) (n2 : Z) : M unit :=
  pos ← _M_check this pos; n1 ← _M_limit this pos n1; _M_replace this pos n1 s n2.
Definition replace_cstr (this : nat) (pos n1 : Z) (s : pointer) : M unit :=
  n2 ← traits.length s; replace this pos n1 s n2.
Definition replace_str (this : nat) (pos n : Z) (str : nat) : M unit :=
  p ← _M_data str; sz ← size str; replace this pos n p sz.
Definition replace_substr (this : nat) (pos1 n1 : Z) (str : nat) (pos2 n2 : Z) : M unit :=
  p ← _M_data str; pos2 ← _M_check str pos2; n2 ← _M_limit str pos2 n2;
  replace this pos1 n1 (padd p pos2) n2.
Definition replace_fill (this : nat) (pos n1 n2 c : Z) : M unit :=
  pos ← _M_check this pos; n1 ← _M_limit this pos n1; _M_replace_aux this pos n1 n2 c.

(** Iterators into the string: the difference of two pointers needs one
    region. *)
Definition begin (this : nat) : M pointer := _M_data this.
Definition end_ (this : nat) : M pointer := p ← _M_data this; n ← size this; mret (padd p n).
Definition pointer_diff (p q : pointer) : M Z :=
  if bool_decide (in_region p = in_region q) then mret (offset p - offset q) else ub.
Definition replace_at (this : nat) (i1 i2 : pointer) (s : pointer) (n : Z) : M unit :=
  b ← begin this; pos ← pointer_diff i1 b; n1 ← pointer_diff i2 i1;
  replace this (u32 pos) (u32 n1) s n.
Definition replace_fill_at (this : nat) (i1 i2 : pointer) (n c : Z) : M unit :=
  b ← begin this; pos ← pointer_diff i1 b; n1 ← pointer_diff i2 i1;
  _M_replace_aux this (u32 pos) (u32 n1) n c.
(** Input iterators are read into a string first, the object [tmp]. *)
Definition _M_replace_dispatch (tmp this : nat) (i1 i2 : pointer) (cs : list Z) : M unit :=
  _ ← new_input tmp cs;
  scoped destroy tmp
    (n1 ← pointer_diff i2 i1;
     b ← begin this; pos ← pointer_diff i1 b;
     p ← _M_data tmp; n ← size tmp;
     _M_replace this (u32 pos) (u32 n1) p n).

(** *** insert *)
Definition insert_str (this : nat) (pos1 : Z) (str : nat) : M unit :=
  p ← _M_data str; n ← size str; replace this pos1 0 p n.
Definition insert_substr (this : nat) (pos1 : Z) (str : nat) (pos2 n : Z) : M unit :=
  p ← _M_data str; pos2 ← _M_check str pos2; n ← _M_limit str pos2 n;
  replace this pos1 0 (padd p pos2) n.
Definition insert (this : nat) (pos : Z) (s : pointer) (n : Z) : M unit := replace this pos 0 s n.
Definition insert_cstr (this : nat) (pos : Z) (s : pointer) : M unit :=
  n ← traits.length s; replace this pos 0 s n.
Definition insert_fill (this : nat) (pos n c : Z) : M unit :=
  pos ← _M_check this pos; _M_replace_aux this pos 0 n c.
Definition insert_fill_at (this : nat) (i : pointer) (n c : Z) : M pointer :=
  b ← begin this; pos ← pointer_diff i b;
  _ ← replace_fill_at this i i n c;
  p ← _M_data this; mret (padd p pos).
Definition insert_char_at (this : nat) (i : pointer) (c : Z) : M pointer :=
  b ← begin this; pos ← pointer_diff i b;
  _ ← _M_replace_aux this (u32 pos) 0 1 c;
  p ← _M_data this; mret (padd p pos).

(** *** erase *)
Definition erase (this : nat) (pos n : Z) : M unit :=
  _ ← _M_check this pos;
  if n =? npos then _M_set_length this pos
  else when (negb (n =? 0)) (k ← _M_limit this pos n; _M_erase this pos k).
Definition erase_at (this : nat) (i : pointer) : M pointer :=
  b ← begin this; pos ← pointer_diff i b;
  _ ← _M_erase this (u32 pos) 1;
  p ← _M_data this; mret (padd p pos).
Definition erase_range (this : nat) (first last : pointer) : M pointer :=
  b ← begin this; pos ← pointer_diff first b;
  e ← end_ this;
  _ ← (if bool_decide (last = e) then _M_set_length this (u32 pos)
       else n ← pointer_diff last first; _M_erase this (u32 pos) (u32 n));
  p ← _M_data this; mret (padd p pos).
Definition pop_back (this : nat) : M unit :=
  n ← size this; _M_erase this (u32 (n - 1)) 1.

(** *** Access *)
Definition operator_index (this : nat) (pos : Z) : M Z :=
  p ← _M_data this; cs ← get_chars (padd p pos) 1;
  match cs with [c] => mret c | _ => ub end.
Definition at_ (this : nat) (n : Z) : M Z :=
  sz ← size this; if sz <=? n then throw out_of_range else operator_index this n.
Definition front (this : nat) : M Z := operator_index this 0.
Definition back (this : nat) : M Z := n ← size this; operator_index this (u32 (n - 1)).
Definition copy_to (this : nat) (s : pointer) (n pos : Z) : M Z :=
  _ ← _M_check this pos; n ← _M_limit this pos n;
  _ ← when (negb (n =? 0)) (p ← _M_data this; _S_copy s (padd p pos) n);
  mret n.
Definition substr (result this : nat) (pos n : Z) : M unit :=
  pos ← _M_check this pos; new_substr result this pos n.

(** *** swap *)
Definition copy_local (d s : nat) : M unit :=
  traits.copy (_M_local_data d) (_M_local_data s) (_S_local_capacity + 1).
Definition swap_lengths (this s : nat) : M unit :=
  tmp_length ← length this;
  n ← length s; _ ← _M_length this n;
  _M_length s tmp_length.
Definition swap (this s : nat) : M unit :=
  if (this =? s)%nat then mret tt
  else
    l1 ← _M_is_local this;
    l2 ← _M_is_local s;
    n1 ← length this;
    n2 ← length s;
    match (l1 : bool), (l2 : bool) with
    | true, true =>
        if negb (n1 =? 0) && negb (n2 =? 0) then
          tmp_data ← get_cells (_M_local_data s) (_S_local_capacity + 1);
          _ ← copy_local s this;
          _ ← put_cells (_M_local_data this) tmp_data;
          swap_lengths this s
        else if negb (n2 =? 0) then
          _ ← copy_local this s;
          _ ← _M_length this n2;
          _M_set_length s 0
        else if negb (n1 =? 0) then
          _ ← copy_local s this;
          _ ← _M_length s n1;
          _M_set_length this 0
        else swap_lengths this s
    | true, false =>
        tmp_capacity ← _M_allocated_capacity s;
        _ ← copy_local s this;
        p ← _M_data s; _ ← _M_data_set this p;
        _ ← _M_data_set s (_M_local_data s);
        _ ← _M_capacity this tmp_capacity;
        swap_lengths this s
    | false, true =>
        tmp_capacity ← _M_allocated_capacity this;
        _ ← copy_local this s;
        p ← _M_data this; _ ← _M_data_set s p;
        _ ← _M_data_set this (_M_local_data this);
        _ ← _M_capacity s tmp_capacity;
        swap_lengths this s
    | false, false =>
        tmp_capacity ← _M_allocated_capacity this;
        tmp_ptr ← _M_data this;
        p ← _M_data s; _ ← _M_data_set this p;
        _ ← _M_data_set s tmp_ptr;
        c ← _M_allocated_capacity s; _ ← _M_capacity this c;
        _ ← _M_capacity s tmp_capacity;
        swap_lengths this s
    end.

(** *** Concatenation; the result is the object [str] *)
Definition plus (str lhs rhs : nat) : M unit :=
  _ ← new_copy str lhs; catch (append_str str rhs) (destroy str).
Definition plus_cstr_left (str : nat) (lhs : pointer) (rhs : nat) : M unit :=
  len ← traits.length lhs;
  _ ← new_default str;
  catch (n ← size rhs;
         _ ← reserve str (u32 (len + n));
         _ ← append str lhs len;
         append_str str rhs) (destroy str).
Definition plus_char_left (str : nat) (lhs : Z) (rhs : nat) : M unit :=
  _ ← new_default str;
  catch (len ← size rhs;
         _ ← reserve str (u32 (len + 1));
         _ ← append_fill str 1 lhs;
         append_str str rhs) (destroy str).
Definition plus_cstr (str lhs : nat) (rhs : pointer) : M unit :=
  _ ← new_copy str lhs; catch (append_cstr str rhs) (destroy str).
Definition plus_char (str lhs : nat) (rhs : Z) : M unit :=
  _ ← new_copy str lhs; catch (append_fill str 1 rhs) (destroy str).
(** Both operands rvalues: the one with room enough is used. *)
Definition plus_move (str lhs rhs : nat) : M unit :=
  n1 ← size lhs; n2 ← size rhs;
  let sz := u32 (n1 + n2) in
  c1 ← capacity lhs; c2 ← capacity rhs;
  if (c1 <? sz) && (sz <=? c2)
  then _ ← insert_str rhs 0 lhs; new_move str rhs
  else _ ← append_str lhs rhs; new_move str lhs.
End basic_string.
End string.
