(* ===== verification/CxxStringProps.v ===== *)
(** * [std::string] in memory: the representation and the primitive steps

    [view o r n cs m]: the object [o] keeps its characters in the region [r],
    whose cells are [cs], and has length [n].  [local_step o m m'] says that a
    computation touched nothing but [o] and the block it owns.  A computation
    is specified with [wp]: what holds of its result, what holds of the state
    in which it throws, and that its behaviour is defined. *)
From S2P Require Import Prelude CxxMemory CxxString.

#[local] Set Default Proof Using "Type*".

(** ** Characters in cells *)
Definition holds (cs : list cell) (k : Z) (xs : list Z) : Prop :=
  forall i x, xs !! i = Some x -> cs !! (Z.to_nat k + i)%nat = Some (Some x).

Lemma length_put i ds cs : (Z.to_nat i + length ds <= length cs)%nat ->
  length (cells_put i ds cs) = length cs.
Proof. intros. unfold cells_put. rewrite !length_app, length_take, length_drop. lia. Qed.

Lemma lookup_put i ds cs k : (Z.to_nat i + length ds <= length cs)%nat ->
  cells_put i ds cs !! k =
    if decide (Z.to_nat i <= k < Z.to_nat i + length ds)%nat
    then ds !! (k - Z.to_nat i)%nat else cs !! k.
Proof.
  intros Hl. unfold cells_put. destruct (decide (k < Z.to_nat i)%nat).
  { rewrite lookup_app_l, lookup_take_lt, decide_False by (rewrite ?length_take; lia). done. }
  rewrite lookup_app_r by (rewrite length_take; lia). rewrite length_take.
  replace (Z.to_nat i `min` length cs)%nat with (Z.to_nat i) by lia. case_decide.
  - by rewrite lookup_app_l by lia.
  - rewrite lookup_app_r by lia. rewrite lookup_drop. f_equal. lia.
Qed.

Lemma lookup_get i n cs k : (k < Z.to_nat n)%nat ->
  cells_get i n cs !! k = cs !! (Z.to_nat i + k)%nat.
Proof. intros. unfold cells_get. by rewrite lookup_take_lt, lookup_drop by lia. Qed.

Lemma length_get i n cs : (Z.to_nat i + Z.to_nat n <= length cs)%nat ->
  length (cells_get i n cs) = Z.to_nat n.
Proof. intros. unfold cells_get. rewrite length_take, length_drop. lia. Qed.

Lemma put_nil i cs : cells_put i [] cs = cs.
Proof. unfold cells_put. cbn [length app]. by rewrite Nat.add_0_r, take_drop. Qed.

Lemma holds_nil cs k : holds cs k [].
Proof. intros i x Hx. by rewrite lookup_nil in Hx. Qed.

Lemma holds_app cs k xs ys : 0 <= k ->
  holds cs k (xs ++ ys) <-> holds cs k xs /\ holds cs (k + Z.of_nat (length xs)) ys.
Proof.
  intros Hk. split.
  - intros Hh. split; intros i x Hx.
    + apply Hh. by apply lookup_app_l_Some.
    + replace (Z.to_nat (k + Z.of_nat (length xs)) + i)%nat
        with (Z.to_nat k + (length xs + i))%nat by lia.
      apply Hh. rewrite lookup_app_r by lia. rewrite <-Hx. f_equal. lia.
  - intros [H1 H2] i x [Hx|[Hl Hx]]%lookup_app_Some; [by apply H1|].
    apply H2 in Hx. rewrite <-Hx. f_equal. lia.
Qed.

Lemma holds_fmap xs : holds (Some <$> xs) 0 xs.
Proof. intros i x Hx. change (Z.to_nat 0 + i)%nat with i. by rewrite list_lookup_fmap, Hx. Qed.

Lemma holds_length cs k xs : 0 <= k -> holds cs k xs -> xs <> [] ->
  k + Z.of_nat (length xs) <= Z.of_nat (length cs).
Proof.
  intros Hk Hh Hne. assert (0 < length xs)%nat by (destruct xs; [done|simpl; lia]).
  destruct (lookup_lt_is_Some_2 xs (length xs - 1)) as [x Hx]; [lia|].
  apply Hh, lookup_lt_Some in Hx. lia.
Qed.

Lemma holds_put i k ds cs xs : 0 <= i -> 0 <= k ->
  (Z.to_nat i + length ds <= length cs)%nat -> k + Z.of_nat (length xs) <= Z.of_nat (length ds) ->
  holds ds k xs -> holds (cells_put i ds cs) (i + k) xs.
Proof.
  intros Hi Hk Hl Hx Hh j x Hj. pose proof (lookup_lt_Some _ _ _ Hj).
  rewrite lookup_put, decide_True by lia. apply Hh in Hj. rewrite <-Hj. f_equal. lia.
Qed.

Lemma holds_put_ne i k ds cs xs : 0 <= i -> 0 <= k -> (Z.to_nat i + length ds <= length cs)%nat ->
  k + Z.of_nat (length xs) <= i \/ i + Z.of_nat (length ds) <= k ->
  holds cs k xs -> holds (cells_put i ds cs) k xs.
Proof.
  intros Hi Hk Hl Ho Hh j x Hj. pose proof (lookup_lt_Some _ _ _ Hj).
  rewrite lookup_put, decide_False by lia. by apply Hh.
Qed.

Lemma holds_get i k n cs xs : 0 <= i -> 0 <= k -> k + Z.of_nat (length xs) <= n ->
  holds cs (i + k) xs -> holds (cells_get i n cs) k xs.
Proof.
  intros Hi Hk Hn Hh j x Hj. pose proof (lookup_lt_Some _ _ _ Hj).
  rewrite lookup_get by lia. apply Hh in Hj. rewrite <-Hj. f_equal. lia.
Qed.

(** Moving [n] cells from [j] to [i]. *)
Lemma holds_moved i j k n cs ds xs : 0 <= i -> 0 <= j -> 0 <= k -> 0 <= n ->
  k + Z.of_nat (length xs) <= n -> i + n <= Z.of_nat (length ds) -> j + n <= Z.of_nat (length cs) ->
  holds cs (j + k) xs -> holds (cells_put i (cells_get j n cs) ds) (i + k) xs.
Proof.
  intros. apply holds_put; rewrite ?length_get by lia; try lia. by apply holds_get.
Qed.

Lemma holds_put_here i ds cs xs : 0 <= i -> (Z.to_nat i + length ds <= length cs)%nat ->
  Z.of_nat (length xs) <= Z.of_nat (length ds) -> holds ds 0 xs -> holds (cells_put i ds cs) i xs.
Proof. intros. rewrite <-(Z.add_0_r i) at 2. apply holds_put; try done; lia. Qed.

Lemma holds_moved_here i j n cs ds xs : 0 <= i -> 0 <= j -> 0 <= n ->
  Z.of_nat (length xs) <= n -> i + n <= Z.of_nat (length ds) -> j + n <= Z.of_nat (length cs) ->
  holds cs j xs -> holds (cells_put i (cells_get j n cs) ds) i xs.
Proof.
  intros. rewrite <-(Z.add_0_r i) at 2. apply holds_moved; try lia. by rewrite Z.add_0_r.
Qed.

(** The contents of a string and its terminator. *)
Definition content (x : list Z) (cs : list cell) : Prop := holds cs 0 (x ++ [0]).

Lemma chars_fmap xs : chars (Some <$> xs) = Some xs.
Proof. induction xs as [|x xs IH]; [done|]. cbn in *. by rewrite IH. Qed.

Lemma get_holds cs k xs : 0 <= k -> holds cs k xs ->
  cells_get k (Z.of_nat (length xs)) cs = Some <$> xs.
Proof.
  intros Hk Hh. apply list_eq. intros i. rewrite list_lookup_fmap.
  destruct (xs !! i) as [x|] eqn:E; cbn.
  - pose proof (lookup_lt_Some _ _ _ E). rewrite lookup_get by lia. by apply Hh.
  - apply lookup_ge_None in E. apply lookup_ge_None_2.
    unfold cells_get. rewrite length_take. lia.
Qed.

(** ** Reasoning about computations *)
Definition wp {A} (c : M A) (m : memory) (Q : A -> memory -> Prop)
    (E : std_exn -> memory -> Prop) : Prop :=
  match c m with Val x m' => Q x m' | Exn e m' => E e m' | Ub => False end.

Lemma wp_bind {A B} (c : M A) (f : A -> M B) m Q E :
  wp c m (fun x m' => wp (f x) m' Q E) E -> wp (x ← c; f x) m Q E.
Proof. unfold wp, mbind, M_bind. destruct (c m); auto. Qed.

Lemma wp_bind_inv {A B} (c : M A) (f : A -> M B) m Q E :
  wp (x ← c; f x) m Q E -> wp c m (fun x m' => wp (f x) m' Q E) E.
Proof. unfold wp, mbind, M_bind. destruct (c m); auto. Qed.

Lemma wp_ret {A} (x : A) m (Q : A -> memory -> Prop) E : Q x m -> wp (mret x) m Q E.
Proof. done. Qed.

Lemma wp_throw {A} e m (Q : A -> memory -> Prop) (E : std_exn -> memory -> Prop) :
  E e m -> wp (throw e) m Q E.
Proof. done. Qed.

Lemma wp_mono {A} (c : M A) m (Q Q' : A -> memory -> Prop) (E E' : std_exn -> memory -> Prop) :
  (forall x m', Q x m' -> Q' x m') -> (forall e m', E e m' -> E' e m') ->
  wp c m Q E -> wp c m Q' E'.
Proof. unfold wp. intros HQ HE. destruct (c m); [apply HQ|apply HE|done]. Qed.

Lemma wp_value {A} (c : M A) x m m' (Q : A -> memory -> Prop) E :
  c m = Val x m' -> Q x m' -> wp c m Q E.
Proof. unfold wp. by intros ->. Qed.

Lemma wp_when (b : bool) (c : M unit) m (Q : unit -> memory -> Prop) E :
  (b = true -> wp c m Q E) -> (b = false -> Q tt m) -> wp (when b c) m Q E.
Proof. destruct b; unfold when; intros Ht Hf; [by apply Ht|by apply wp_ret, Hf]. Qed.

(** Re-association of a sequence. *)
Lemma wp_seq {A B} (c : M A) (f : A -> M unit) (k : M B) m Q E :
  wp (x ← c; f x) m (fun _ m' => wp k m' Q E) E -> wp (x ← c; _ ← f x; k) m Q E.
Proof.
  intros Hw. apply wp_bind_inv in Hw. apply wp_bind. revert Hw.
  apply wp_mono; [|done]. intros x m' Hf. by apply wp_bind.
Qed.

Lemma wp_seq_3 {A B C D} (a : M A) (b : M B) (c : M C) (k : M D) m Q E :
  wp (_ ← a; _ ← b; c) m (fun _ m' => wp k m' Q E) E -> wp (_ ← a; _ ← b; _ ← c; k) m Q E.
Proof.
  intros Hw. apply wp_bind_inv in Hw. apply wp_bind. revert Hw. apply wp_mono; [|done].
  intros _ m1 Hw. apply wp_bind_inv in Hw. apply wp_bind. revert Hw. apply wp_mono; [|done].
  intros _ m2 Hw. by apply wp_bind.
Qed.

(** ** The representation of a string *)
Definition view (o : nat) (r : region) (n : Z) (cs : list cell) (m : memory) : Prop :=
  exists u, objects m !! o = Some (BasicString (Pointer r 0) n u) /\
    match r with
    | Local o' => o' = o /\ u = _M_local_buf cs /\ length cs = 16%nat
    | Block b => u = _M_allocated_capacity (Z.of_nat (length cs) - 1) /\
        blocks m !! b = Some cs /\ 16 < Z.of_nat (length cs) <= string.max_size + 1
    end.

Definition owns (o b : nat) (m : memory) : Prop :=
  exists s, objects m !! o = Some s /\ in_region (_M_p s) = Block b.

(** Nothing but [o] and the block it owns has changed; a block it acquires was
    free, a block it gives up is freed. *)
Record local_step (o : nat) (m m' : memory) : Prop := LocalStep {
  step_objects : forall o', o' <> o -> objects m' !! o' = objects m !! o';
  step_blocks : forall b, ~ owns o b m -> ~ owns o b m' -> blocks m' !! b = blocks m !! b;
  step_new : forall b, owns o b m' -> owns o b m \/ blocks m !! b = None;
  step_free : forall b, owns o b m -> owns o b m' \/ blocks m' !! b = None }.

Lemma local_step_refl o m : local_step o m m.
Proof. split; auto. Qed.

Lemma owns_dec o b m : {owns o b m} + {~ owns o b m}.
Proof.
  destruct (objects m !! o) as [s|] eqn:E.
  - destruct (decide (in_region (_M_p s) = Block b)); [left; by exists s|right].
    intros (s' & E' & ?). congruence.
  - right. intros (s' & E' & ?). congruence.
Qed.

Lemma local_step_trans o m1 m2 m3 :
  local_step o m1 m2 -> local_step o m2 m3 -> local_step o m1 m3.
Proof.
  intros [O1 B1 N1 F1] [O2 B2 N2 F2]. split.
  - intros o' Ho. by rewrite O2, O1.
  - intros b H1 H3. destruct (owns_dec o b m2) as [H2|H2]; [|by rewrite B2, B1].
    destruct (F2 b H2) as [|E]; [done|]. destruct (N1 b H2) as [|E']; [done|]. by rewrite E, E'.
  - intros b H3. destruct (N2 b H3) as [H2|E]; [by apply N1|].
    destruct (owns_dec o b m1); [by left|]. destruct (owns_dec o b m2) as [H2|H2]; [by apply N1|].
    right. by rewrite <-B1.
  - intros b H1. destruct (F1 b H1) as [H2|E]; [by apply F2|].
    destruct (owns_dec o b m3); [by left|]. destruct (owns_dec o b m2) as [H2|H2]; [by apply F2|].
    right. by rewrite B2.
Qed.

Lemma view_owns o r n cs m b : view o r n cs m -> owns o b m <-> r = Block b.
Proof.
  intros (u & E & _). split.
  - intros (s & Es & Hs). rewrite E in Es. by injection Es as <-.
  - intros ->. eexists. by split.
Qed.

Lemma view_region o r n cs m : view o r n cs m -> region_cells r m = Some cs.
Proof.
  intros (u & E & Hr). destruct r as [o'|b]; cbn [region_cells].
  - destruct Hr as (-> & -> & _). by rewrite E.
  - apply Hr.
Qed.

Lemma view_size o r n cs m : view o r n cs m -> 16 <= Z.of_nat (length cs) <= string.max_size + 1.
Proof.
  intros (u & E & Hr). destruct r as [o'|b].
  - destruct Hr as (_ & _ & ->). split; [lia|]. by vm_compute.
  - destruct Hr as (_ & _ & Hl). lia.
Qed.

Lemma view_local_length o r n cs m : view o r n cs m -> r = Local o -> length cs = 16%nat.
Proof. intros (u & E & Hr) ->. apply Hr. Qed.

Lemma view_not_local o r n cs m : view o r n cs m -> r <> Local o -> exists b, r = Block b.
Proof.
  intros (u & E & Hr) Hne. destruct r as [o'|b]; [|by exists b]. by destruct Hr as (-> & _).
Qed.

(** The state after the cells of the region have been replaced. *)
Lemma view_set_region o r n cs ds m : view o r n cs m -> length ds = length cs ->
  view o r n ds (set_region r ds m) /\ local_step o m (set_region r ds m).
Proof.
  intros (u & E & Hr) Hl. destruct r as [o'|b]; cbn [set_region].
  - destruct Hr as (-> & -> & Hc). split.
    + eexists. cbn [objects]. rewrite lookup_alter_eq, E. split; [reflexivity|]. by rewrite Hl.
    + split; cbn [objects blocks]; auto.
      * intros o' Ho. by rewrite lookup_alter_ne.
      * intros b (s & Es & Hs). cbn [objects] in Es. rewrite lookup_alter_eq, E in Es. by injection Es as <-.
      * intros b (s & Es & Hs). rewrite E in Es. by injection Es as <-.
  - destruct Hr as (-> & Hb & Hc). split.
    + eexists. cbn [objects blocks]. rewrite E, lookup_insert_eq, Hl. by split.
    + split; cbn [objects blocks]; auto. intros b' Hb' _. rewrite lookup_insert_ne; [done|].
      intros <-. apply Hb'. eexists. by split.
Qed.

Lemma view_set_length o r n n' cs m : view o r n cs m ->
  exists m', string._M_length o n' m = Val tt m' /\ view o r n' cs m' /\ local_step o m m'.
Proof.
  intros (u & E & Hr). eexists. unfold string._M_length, update_object. rewrite E.
  split; [reflexivity|]. split.
  - exists u. cbn [objects]. rewrite lookup_insert_eq. by split.
  - split; cbn [objects blocks]; auto.
    + intros o' Ho. by rewrite lookup_insert_ne.
    + intros b (s & Es & Hs). cbn [objects] in Es. rewrite lookup_insert_eq in Es. injection Es as <-.
      left. eexists. by split.
    + intros b (s & Es & Hs). left. rewrite E in Es. injection Es as <-.
      eexists. split; [cbn [objects]; by rewrite lookup_insert_eq|done].
Qed.

(** ** Reading the members *)
Section Reading.
Context (o : nat) (r : region) (n : Z) (cs : list cell) (m : memory) (Hv : view o r n cs m).

Lemma get_view : exists u, get_object o m = Val (BasicString (Pointer r 0) n u) m.
Proof. destruct Hv as (u & E & _). exists u. unfold get_object. by rewrite E. Qed.

Lemma wp_data Q E : Q (Pointer r 0) m -> wp (string._M_data o) m Q E.
Proof.
  intros HQ. destruct get_view as [u Eu]. apply wp_bind.
  eapply wp_value; [exact Eu|]. by apply wp_ret.
Qed.
Lemma wp_length Q E : Q n m -> wp (string.length o) m Q E.
Proof.
  intros HQ. destruct get_view as [u Eu]. apply wp_bind.
  eapply wp_value; [exact Eu|]. by apply wp_ret.
Qed.
Lemma wp_size Q E : Q n m -> wp (string.size o) m Q E.
Proof. exact (wp_length Q E). Qed.

Lemma wp_is_local (Q : bool -> memory -> Prop) E :
  Q (bool_decide (r = Local o)) m -> wp (string._M_is_local o) m Q E.
Proof.
  intros HQ. apply wp_bind. apply wp_data. apply wp_ret.
  unfold string._M_local_data. erewrite bool_decide_ext; [exact HQ|].
  split; [by intros [= ->]|by intros ->].
Qed.

Lemma wp_allocated_capacity Q E b : r = Block b ->
  Q (Z.of_nat (length cs) - 1) m -> wp (string._M_allocated_capacity o) m Q E.
Proof.
  intros -> HQ. destruct Hv as (u & Eo & -> & _). apply wp_bind.
  eapply wp_value; [unfold get_object; by rewrite Eo|]. by apply wp_ret.
Qed.

Lemma wp_capacity Q E : Q (Z.of_nat (length cs) - 1) m -> wp (string.capacity o) m Q E.
Proof.
  intros HQ. apply wp_bind. apply wp_is_local. case_bool_decide as Hr.
  - apply wp_ret. rewrite (view_local_length _ _ _ _ _ Hv Hr) in HQ. exact HQ.
  - destruct (view_not_local _ _ _ _ _ Hv Hr) as [b Hb]. by apply (wp_allocated_capacity _ _ b).
Qed.
End Reading.

(** ** Access to the cells of the string *)
Lemma in_range_true i n (cs : list cell) :
  0 <= i -> 0 <= n -> i + n <= Z.of_nat (length cs) -> in_range i n cs = true.
Proof. unfold in_range. lia. Qed.

Lemma get_cells_run p n cs m : region_cells (in_region p) m = Some cs ->
  0 <= offset p -> 0 <= n -> offset p + n <= Z.of_nat (length cs) ->
  get_cells p n m = Val (cells_get (offset p) n cs) m.
Proof. intros E Hp Hn Hl. unfold get_cells. by rewrite E, in_range_true. Qed.

Lemma put_cells_run p ds cs m : region_cells (in_region p) m = Some cs ->
  0 <= offset p -> offset p + Z.of_nat (length ds) <= Z.of_nat (length cs) ->
  put_cells p ds m = Val tt (set_region (in_region p) (cells_put (offset p) ds cs) m).
Proof. intros E Hp Hl. unfold put_cells. by rewrite E, in_range_true by lia. Qed.

(** Readable characters. *)
Definition chars_at (s : pointer) (xs : list Z) (m : memory) : Prop :=
  0 <= offset s /\
  forall i x, xs !! i = Some x -> exists cs, region_cells (in_region s) m = Some cs /\
    cs !! (Z.to_nat (offset s) + i)%nat = Some (Some x).

Lemma chars_at_cells s xs m : chars_at s xs m -> xs <> [] ->
  exists cs, region_cells (in_region s) m = Some cs /\ holds cs (offset s) xs.
Proof.
  intros [Hs Hx] Hne. destruct xs as [|x xs]; [done|].
  destruct (Hx 0%nat x eq_refl) as (cs & Ec & _). exists cs. split; [done|].
  intros i y Hi. destruct (Hx i y Hi) as (cs' & Ec' & Hy). congruence.
Qed.

Lemma get_cells_chars s xs m : chars_at s xs m -> xs <> [] ->
  get_cells s (Z.of_nat (length xs)) m = Val (Some <$> xs) m.
Proof.
  intros Hc Hne. destruct (chars_at_cells s xs m Hc Hne) as (cs & Ec & Hh).
  destruct Hc as [Hs _]. rewrite (get_cells_run _ _ cs) by (done || lia || by apply holds_length).
  by rewrite get_holds.
Qed.

Section Cells.
Context (o : nat) (r : region) (n : Z) (cs : list cell) (m : memory) (Hv : view o r n cs m).
Context (Q : unit -> memory -> Prop) (E : std_exn -> memory -> Prop).

Lemma wp_put p ds : in_region p = r -> 0 <= offset p ->
  offset p + Z.of_nat (length ds) <= Z.of_nat (length cs) ->
  (forall m', view o r n (cells_put (offset p) ds cs) m' -> local_step o m m' -> Q tt m') ->
  wp (put_cells p ds) m Q E.
Proof.
  intros Hp Hi Hl HQ. eapply wp_value.
  - apply put_cells_run; [rewrite Hp; by apply (view_region _ _ _ _ _ Hv)|done|done].
  - rewrite Hp. destruct (view_set_region o r n cs (cells_put (offset p) ds cs) m Hv) as [Hv' Hs].
    + apply length_put. lia.
    + by apply HQ.
Qed.

(** Both moves within the string; the second requires disjoint ranges. *)
Lemma wp_own_move p q k : in_region p = r -> in_region q = r -> 0 <= offset p -> 0 <= offset q ->
  0 <= k -> offset p + k <= Z.of_nat (length cs) -> offset q + k <= Z.of_nat (length cs) ->
  (forall m', view o r n (cells_put (offset p) (cells_get (offset q) k cs) cs) m' ->
     local_step o m m' -> Q tt m') ->
  wp (string._S_move p q k) m Q E.
Proof.
  intros Hp Hq Hi Hj Hk Hl Hl' HQ. unfold string._S_move, traits.move.
  assert (length (cells_get (offset q) k cs) = Z.to_nat k) as Hlen by (apply length_get; lia).
  pose proof (view_region _ _ _ _ _ Hv) as Hr. rewrite <-Hq in Hr.
  assert (0 <= k -> wp (ds ← get_cells q k; put_cells p ds) m Q E) as Hw.
  { intros _. apply wp_bind. eapply wp_value; [by apply (get_cells_run _ _ cs)|].
    apply wp_put; [done|done|lia|done]. }
  destruct (Z.eqb_spec k 1) as [->|_]; [by apply Hw|].
  destruct (Z.eqb_spec k 0) as [->|_]; [|by apply Hw].
  apply wp_ret. apply HQ; [|apply local_step_refl].
  replace (cells_get (offset q) 0 cs) with (@nil cell).
  - by rewrite put_nil.
  - symmetry. apply nil_length_inv. by rewrite Hlen.
Qed.

Lemma wp_own_copy p q k : in_region p = r -> in_region q = r -> 0 <= offset p -> 0 <= offset q ->
  0 <= k -> offset p + k <= Z.of_nat (length cs) -> offset q + k <= Z.of_nat (length cs) ->
  offset p + k <= offset q \/ offset q + k <= offset p ->
  (forall m', view o r n (cells_put (offset p) (cells_get (offset q) k cs) cs) m' ->
     local_step o m m' -> Q tt m') ->
  wp (string._S_copy p q k) m Q E.
Proof.
  intros Hp Hq Hi Hj Hk Hl Hl' Ho HQ.
  pose proof (wp_own_move p q k Hp Hq Hi Hj Hk Hl Hl' HQ) as Hw.
  unfold string._S_move, traits.move, string._S_copy, traits.copy in *.
  assert (traits.disjoint p q k = true) as -> by (unfold traits.disjoint; lia). exact Hw.
Qed.

(** Copying from another region. *)
Lemma wp_copy_from p s xs : in_region p = r -> in_region s <> r -> chars_at s xs m -> 0 <= offset p ->
  offset p + Z.of_nat (length xs) <= Z.of_nat (length cs) ->
  (forall m', view o r n (cells_put (offset p) (Some <$> xs) cs) m' -> local_step o m m' -> Q tt m') ->
  wp (string._S_copy p s (Z.of_nat (length xs))) m Q E.
Proof.
  intros Hp Hs Hc Hi Hl HQ. unfold string._S_copy, traits.copy.
  assert (traits.disjoint p s (Z.of_nat (length xs)) = true) as ->.
  { unfold traits.disjoint. rewrite bool_decide_false by congruence. done. }
  destruct (decide (xs = [])) as [->|Hne].
  { apply HQ; [by rewrite put_nil|apply local_step_refl]. }
  assert (wp (ds ← get_cells s (Z.of_nat (length xs)); put_cells p ds) m Q E) as Hw.
  { apply wp_bind. eapply wp_value; [by apply get_cells_chars|].
    apply wp_put; [done|done|by rewrite length_fmap|done]. }
  destruct (Z.eqb_spec (Z.of_nat (length xs)) 1) as [E1|_]; [by rewrite E1 in Hw|].
  destruct (Z.eqb_spec (Z.of_nat (length xs)) 0) as [E0|_]; [|done].
  destruct xs; [done|simpl in E0; lia].
Qed.

Lemma wp_assign_n p k c : in_region p = r -> 0 <= offset p -> 0 <= k ->
  offset p + k <= Z.of_nat (length cs) ->
  (forall m', view o r n (cells_put (offset p) (Some <$> replicate (Z.to_nat k) c) cs) m' ->
     local_step o m m' -> Q tt m') ->
  wp (string._S_assign p k c) m Q E.
Proof.
  intros Hp Hi Hk Hl HQ. unfold string._S_assign, traits.assign_n, traits.assign.
  rewrite fmap_replicate in HQ. destruct (Z.eqb_spec k 1) as [->|_].
  { apply wp_put; [done|done|simpl; lia|exact HQ]. }
  destruct (Z.eqb_spec k 0) as [->|_].
  - apply wp_ret. apply HQ; [by rewrite put_nil|apply local_step_refl].
  - apply wp_put; [done|done|rewrite length_replicate; lia|exact HQ].
Qed.

Lemma wp_set_length n' : 0 <= n' < Z.of_nat (length cs) ->
  (forall m', view o r n' (cells_put n' [Some 0] cs) m' -> local_step o m m' -> Q tt m') ->
  wp (string._M_set_length o n') m Q E.
Proof.
  intros Hn HQ. unfold string._M_set_length. apply wp_bind.
  destruct (view_set_length o r n n' cs m Hv) as (m1 & E1 & Hv1 & Hs1).
  eapply wp_value; [exact E1|]. apply wp_bind. eapply wp_data; [exact Hv1|].
  unfold traits.assign. eapply wp_value.
  - apply put_cells_run; [by apply (view_region _ _ _ _ _ Hv1)|cbn; lia|cbn; lia].
  - cbn [padd in_region offset]. rewrite Z.add_0_l.
    destruct (view_set_region o r n' cs (cells_put n' [Some 0] cs) m1 Hv1) as [Hv' Hs].
    + apply length_put. simpl. lia.
    + apply HQ; [done|by eapply local_step_trans].
Qed.
End Cells.

(** ** A new block beside the string *)
Definition with_block (b : nat) (ds : list cell) (m : memory) : memory :=
  Memory (objects m) (<[b := ds]> (blocks m)).

Lemma with_block_put b ds m p xs : in_region p = Block b -> 0 <= offset p ->
  offset p + Z.of_nat (length xs) <= Z.of_nat (length ds) ->
  put_cells p xs (with_block b ds m) = Val tt (with_block b (cells_put (offset p) xs ds) m).
Proof.
  intros Hp Hi Hl. rewrite (put_cells_run p xs ds) by (done || (rewrite Hp; apply lookup_insert_eq)).
  rewrite Hp. unfold with_block. cbn [set_region objects blocks]. by rewrite insert_insert_eq.
Qed.

Lemma with_block_chars b ds m s xs : blocks m !! b = None ->
  chars_at s xs m -> chars_at s xs (with_block b ds m).
Proof.
  intros Hb [Hs Hx]. split; [done|]. intros i x Hi. destruct (Hx i x Hi) as (cs & Ec & Hl).
  exists cs. split; [|done]. destruct (in_region s) as [o|b']; cbn in *; [done|].
  rewrite lookup_insert_ne; [done|]. intros ->. congruence.
Qed.

Lemma view_chars o r n cs m k xs : view o r n cs m -> 0 <= k -> holds cs k xs ->
  chars_at (padd (Pointer r 0) k) xs m.
Proof.
  intros Hv Hk Hh. split; cbn [padd offset in_region]; [lia|]. intros i x Hi. exists cs.
  split; [by apply (view_region _ _ _ _ _ Hv)|]. by apply Hh.
Qed.

Lemma wp_copy_new b ds m p s xs (Q : unit -> memory -> Prop) E :
  blocks m !! b = None -> in_region p = Block b -> 0 <= offset p ->
  offset p + Z.of_nat (length xs) <= Z.of_nat (length ds) -> chars_at s xs m ->
  Q tt (with_block b (cells_put (offset p) (Some <$> xs) ds) m) ->
  wp (string._S_copy p s (Z.of_nat (length xs))) (with_block b ds m) Q E.
Proof.
  intros Hb Hp Hi Hl Hc HQ. unfold string._S_copy, traits.copy.
  destruct (decide (xs = [])) as [->|Hne]; [apply wp_ret; by rewrite put_nil in HQ|].
  assert (traits.disjoint p s (Z.of_nat (length xs)) = true) as ->.
  { unfold traits.disjoint. rewrite bool_decide_false; [done|]. rewrite Hp. intros E'.
    destruct (chars_at_cells s xs m Hc Hne) as (cs & Ec & _). rewrite <-E' in Ec. cbn in Ec. congruence. }
  assert (wp (ds ← get_cells s (Z.of_nat (length xs)); put_cells p ds) (with_block b ds m) Q E) as Hw.
  { apply wp_bind. eapply wp_value; [apply get_cells_chars; [by apply with_block_chars|done]|].
    eapply wp_value; [apply with_block_put; [done|done|by rewrite length_fmap]|done]. }
  destruct (Z.eqb_spec (Z.of_nat (length xs)) 1) as [E1|_]; [by rewrite E1 in Hw|].
  destruct (Z.eqb_spec (Z.of_nat (length xs)) 0) as [E0|_]; [|done].
  destruct xs; [done|simpl in E0; lia].
Qed.

Lemma max_size_value : string.max_size = 2147483647.
Proof. reflexivity. Qed.

(** In what follows sizes are compared with the value of [max_size]. *)
Ltac sizes := rewrite ?max_size_value in *.

Section Allocation.
Context `{OperatorNew}.

Definition new_may_fail : Prop := exists m k, new_succeeds m k = false.

Lemma wp_create cap old m Q (E : std_exn -> memory -> Prop) :
  0 <= cap -> 0 <= old <= string.max_size ->
  (string.max_size < cap -> E length_error m) ->
  (new_may_fail -> E bad_alloc m) ->
  (forall b c, blocks m !! b = None -> cap <= c <= string.max_size ->
     Q (Pointer (Block b) 0, c) (with_block b (replicate (Z.to_nat (c + 1)) None) m)) ->
  wp (string._M_create cap old) m Q E.
Proof.
  intros Hc Ho HE Hm HQ. sizes. unfold string._M_create. sizes.
  destruct (Z.ltb_spec 2147483647 cap) as [Hlt|Hge]; [by apply HE|].
  rewrite (u32_small (2 * old)) by lia.
  set (c := if (old <? cap) && (cap <? 2 * old) then _ else _).
  assert (cap <= c <= 2147483647) as Hcap.
  { unfold c. destruct (Z.ltb_spec old cap), (Z.ltb_spec cap (2 * old)); cbn [andb]; try lia.
    destruct (Z.ltb_spec 2147483647 (2 * old)); lia. }
  clearbody c. apply wp_bind. rewrite (u32_small (c + 1)) by lia. unfold wp, allocate.
  change allocator_max_size with 4294967295.
  destruct (Z.ltb_spec 4294967295 (c + 1)); [lia|].
  destruct (new_succeeds m (c + 1)) eqn:En; [|apply Hm; by exists m, (c + 1)].
  apply HQ; [|done]. apply not_elem_of_dom. apply is_fresh.
Qed.


(** Freeing the old block and taking the new one. *)
Definition disposed (r : region) (m : memory) : memory :=
  match r with Block b => Memory (objects m) (delete b (blocks m)) | Local _ => m end.

Lemma wp_dispose o r n cs m (Q : unit -> memory -> Prop) E :
  view o r n cs m -> Q tt (disposed r m) -> wp (string._M_dispose o) m Q E.
Proof.
  intros Hv HQ. unfold string._M_dispose. apply wp_bind. eapply wp_is_local; [exact Hv|].
  case_bool_decide as Hr; [rewrite Hr in HQ; by apply wp_ret|].
  destruct (view_not_local _ _ _ _ _ Hv Hr) as [b Hb]. apply wp_bind.
  eapply wp_allocated_capacity; [exact Hv|exact Hb|]. unfold string._M_destroy.
  apply wp_bind. eapply wp_data; [exact Hv|]. destruct Hv as (u & Eo & Hu). subst r.
  destruct Hu as (_ & Hb & _). unfold wp, deallocate. by rewrite Hb.
Qed.

Lemma with_block_view o r n cs m b ds : view o r n cs m -> blocks m !! b = None ->
  view o r n cs (with_block b ds m).
Proof.
  intros (u & Eo & Hu) Hb. exists u. split; [done|]. destruct r as [|b']; [done|].
  destruct Hu as (-> & Hb' & Hl). split; [done|]. split; [|done]. cbn.
  rewrite lookup_insert_ne; [done|]. intros ->. congruence.
Qed.

Lemma update_object_run f o m s : objects m !! o = Some s ->
  update_object f o m = Val tt (Memory (<[o := f s]> (objects m)) (blocks m)).
Proof. unfold update_object. by intros ->. Qed.

(** The old block is the string's, the new one was free. *)
Lemma install_step o r n cs m b ds c : view o r n cs m -> blocks m !! b = None ->
  Z.of_nat (length ds) = c + 1 -> 16 <= c <= string.max_size ->
  let m' := Memory (<[o := BasicString (Pointer (Block b) 0) n (_M_allocated_capacity c)]> (objects m))
    (blocks (disposed r (with_block b ds m))) in
  view o (Block b) n ds m' /\ local_step o m m'.
Proof.
  intros Hv Hb Hl Hc m'. pose proof (fun b' => view_owns _ _ _ _ _ b' Hv) as Ho.
  assert (r <> Block b) as Hne.
  { intros ->. destruct Hv as (u & _ & _ & E' & _). congruence. }
  assert (forall b', b' <> b -> r <> Block b' -> blocks m' !! b' = blocks m !! b') as Hbl.
  { intros b' H1 H2. unfold m'. destruct r as [|b1]; cbn.
    - by rewrite lookup_insert_ne.
    - rewrite lookup_delete_ne, lookup_insert_ne; congruence. }
  assert (view o (Block b) n ds m') as Hv'.
  { eexists. unfold m'. cbn [objects]. rewrite lookup_insert_eq. split; [reflexivity|].
    split; [f_equal; lia|]. split; [|lia]. destruct r as [|b1]; cbn.
    - by rewrite lookup_insert_eq.
    - rewrite lookup_delete_ne, lookup_insert_eq; [done|congruence]. }
  split; [done|]. split.
  - intros o' Hoo. unfold m'. cbn [objects]. by rewrite lookup_insert_ne.
  - intros b' H1 H2. rewrite (view_owns _ _ _ _ _ b' Hv') in H2. rewrite Ho in H1.
    apply Hbl; [congruence|done].
  - intros b' H1%(view_owns _ _ _ _ _ b' Hv'). injection H1 as <-. by right.
  - intros b' H1%Ho. right. subst r. unfold m'. cbn. by rewrite lookup_delete_eq.
Qed.

Lemma wp_install o r n cs m b ds c (Q : unit -> memory -> Prop) E :
  view o r n cs m -> blocks m !! b = None -> Z.of_nat (length ds) = c + 1 ->
  16 <= c <= string.max_size ->
  (forall m', view o (Block b) n ds m' -> local_step o m m' -> Q tt m') ->
  wp (_ ← string._M_dispose o; _ ← string._M_data_set o (Pointer (Block b) 0); string._M_capacity o c)
    (with_block b ds m) Q E.
Proof.
  intros Hv Hb Hl Hc HQ. destruct (install_step o r n cs m b ds c Hv Hb Hl Hc) as [Hv' Hs].
  apply wp_bind. eapply wp_dispose; [by apply with_block_view|]. apply wp_bind.
  destruct Hv as (u & Eo & _).
  assert (objects (disposed r (with_block b ds m)) = objects m) as Eobj by (by destruct r).
  eapply wp_value; [apply update_object_run; by rewrite Eobj|].
  eapply wp_value; [apply update_object_run; cbn [objects]; apply lookup_insert_eq|].
  cbn [objects blocks _M_p _M_string_length _M_union]. rewrite Eobj, insert_insert_eq. by apply HQ.
Qed.
End Allocation.
