(* ===== verification/CxxStringOps.v ===== *)
(** * What the operations of [std::string] do

    Each function of [CxxString] that changes a string, on a string that holds
    [x]: the new contents, the conditions under which it throws, and that an
    exception leaves the memory as it was.  The characters that are inserted
    may be part of the string itself. *)
From S2P Require Import Prelude CxxMemory CxxString CxxStringProps.

#[local] Set Default Proof Using "Type*".

Abbreviation len xs := (Z.of_nat (length xs)).

Section Ops.
Context `{OperatorNew}.

(** The exceptions of an operation whose result needs [n] characters. *)
Definition fails (n : Z) (m : memory) (e : std_exn) (m' : memory) : Prop :=
  m' = m /\ (e = length_error /\ string.max_size < n \/ e = bad_alloc /\ new_may_fail).

Ltac words := rewrite ?u32_small by (sizes; rewrite ?length_app in *; lia).

(** ** A string in a new block *)
Lemma wp_copy_part o r n cs m b ds d (src : pointer -> pointer) i xs (Q : unit -> memory -> Prop) E :
  view o r n cs m -> blocks m !! b = None -> 0 <= i -> holds cs i xs ->
  src (Pointer r 0) = Pointer r i ->
  in_region d = Block b -> 0 <= offset d -> offset d + len xs <= len ds ->
  Q tt (with_block b (cells_put (offset d) (Some <$> xs) ds) m) ->
  wp (when (negb (len xs =? 0)) (p ← string._M_data o; string._S_copy d (src p) (len xs)))
    (with_block b ds m) Q E.
Proof.
  intros Hv Hb Hi Hh Hsrc Hd Ho Hl HQ. apply wp_when.
  - intros _. apply wp_bind. eapply wp_data; [by eapply with_block_view|].
    rewrite Hsrc. apply wp_copy_new; try done. rewrite <-(Z.add_0_l i).
    by apply (view_chars o r n cs m i xs).
  - intros E0. destruct xs; [by rewrite put_nil in HQ|simpl in E0; lia].
Qed.

Lemma wp_mutate o r cs m x1 x2 x3 s ys k (Q : unit -> memory -> Prop) :
  view o r (len (x1 ++ x2 ++ x3)) cs m -> holds cs 0 (x1 ++ x2 ++ x3) ->
  match s with Some s => chars_at s ys m /\ k = len ys | None => ys = [] end ->
  0 <= k -> len x1 + k + len x3 < 4294967296 -> len cs - 1 < len x1 + k + len x3 ->
  (forall b ds m', view o (Block b) (len (x1 ++ x2 ++ x3)) ds m' -> local_step o m m' ->
     len x1 + k + len x3 < len ds ->
     holds ds 0 x1 -> holds ds (len x1) ys -> holds ds (len x1 + k) x3 -> Q tt m') ->
  wp (string._M_mutate o (len x1) (len x2) s k) m Q (fails (len x1 + k + len x3) m).
Proof.
  intros Hv Hh Hsrc Hk Hmax Hcap HQ. pose proof (view_size _ _ _ _ _ Hv) as Hsz. sizes.
  rewrite !length_app in *. unfold string._M_mutate.
  apply holds_app in Hh as [H1 Hh]; [|lia]. apply holds_app in Hh as [_ H3]; [|lia].
  apply wp_bind. eapply wp_length; [exact Hv|].
  apply wp_bind. eapply wp_capacity; [exact Hv|]. words.
  replace (Z.of_nat (length x1 + (length x2 + length x3)) + k - len x2) with (len x1 + k + len x3) by lia.
  replace (Z.of_nat (length x1 + (length x2 + length x3)) - len x1 - len x2) with (len x3) by lia.
  apply wp_bind. apply wp_create; [lia|sizes; lia|intros; split; [done|left; by sizes]|by split; [|right]|].
  intros b c Hb Hc. sizes. cbn beta iota. set (ds := replicate _ None).
  assert (len ds = c + 1) as Hds by (unfold ds; rewrite length_replicate; lia). clearbody ds.
  assert (match s with Some _ => len ys = k | None => len ys = 0 end) as Hys.
  { destruct s; [by destruct Hsrc|by rewrite Hsrc]. }
  assert (len ys <= k) as Hyk by (destruct s; lia).
  apply wp_bind. eapply (wp_copy_part _ _ _ _ _ _ _ _ _ 0); try done; [cbn; lia|].
  cbn [offset]. set (ds1 := cells_put 0 (Some <$> x1) ds).
  assert (length ds1 = length ds) as L1 by (apply length_put; rewrite length_fmap; lia).
  apply wp_bind. set (ds2 := cells_put (len x1) (Some <$> ys) ds1).
  assert (length ds2 = length ds) as L2 by (unfold ds2; rewrite length_put; rewrite ?length_fmap; lia).
  assert (wp (match s with
    | Some s0 => when (negb (k =? 0)) (string._S_copy (padd (Pointer (Block b) 0) (len x1)) s0 k)
    | None => mret tt end) (with_block b ds1 m) (fun _ m' => m' = with_block b ds2 m)
    (fails (len x1 + k + len x3) m)) as Hmid.
  { destruct s as [s|]; cbn beta iota in Hys |- *.
    - destruct Hsrc as [Hc' ->]. apply wp_when.
      + intros _. apply wp_copy_new; try done; cbn; lia.
      + intros E0. unfold ds2. destruct ys; [by rewrite put_nil|simpl in E0; lia].
    - apply wp_ret. unfold ds2. rewrite Hsrc. cbn. by rewrite put_nil. }
  revert Hmid. apply wp_mono; [|done]. intros _ m' ->. clear Hsrc.
  apply wp_bind. eapply (wp_copy_part _ _ _ _ _ _ _ _ _ (len x1 + len x2)); try done; [lia|cbn; lia|cbn; lia|].
  change (offset (padd (Pointer (Block b) 0) (len x1 + k))) with (len x1 + k).
  eapply wp_install; [exact Hv|done| |sizes; lia|].
  { rewrite length_put; rewrite ?length_fmap; lia. }
  intros m' Hv' Hs'. apply (HQ b _ m' Hv' Hs').
  - rewrite length_put; rewrite ?length_fmap; lia.
  - apply holds_put_ne; rewrite ?length_fmap; try lia. apply holds_put_ne; rewrite ?length_fmap; try lia.
    apply holds_put_here; rewrite ?length_fmap; try lia. apply holds_fmap.
  - apply holds_put_ne; rewrite ?length_fmap; try lia.
    apply holds_put_here; rewrite ?length_fmap; try lia. apply holds_fmap.
  - apply holds_put_here; rewrite ?length_fmap; try lia. apply holds_fmap.
Qed.

(** ** Strings and their changes *)
Definition string_at (o : nat) (x : list Z) (m : memory) : Prop :=
  exists r cs, view o r (len x) cs m /\ content x cs.

Definition becomes (o : nat) (x : list Z) (m : memory) (_ : unit) (m' : memory) : Prop :=
  string_at o x m' /\ local_step o m m'.

(** The characters [ys] from [s]: anywhere in the memory, but if they are in
    the string [o] then before its terminator. *)
Definition source (o : nat) (s : pointer) (ys : list Z) (m : memory) : Prop :=
  chars_at s ys m /\ len ys < 4294967296 /\
  forall st, objects m !! o = Some st -> in_region (_M_p st) = in_region s ->
    offset s + len ys <= _M_string_length st.

Lemma string_at_room o r x cs m : view o r (len x) cs m -> content x cs ->
  len x + 1 <= len cs /\ len x <= string.max_size.
Proof.
  intros Hv Hc. pose proof (view_size _ _ _ _ _ Hv) as Hs. sizes.
  apply holds_length in Hc; [|lia|by destruct x]. rewrite length_app in Hc. simpl in Hc. lia.
Qed.

Lemma wp_finish o r n cs m m1 x (E : std_exn -> memory -> Prop) :
  view o r n cs m1 -> local_step o m m1 -> holds cs 0 x -> len x < len cs ->
  wp (string._M_set_length o (len x)) m1 (becomes o x m) E.
Proof.
  intros Hv Hs Hh Hl. eapply wp_set_length; [exact Hv|lia|]. intros m' Hv' Hs'.
  split; [|by eapply local_step_trans]. exists r. eexists. split; [exact Hv'|].
  apply holds_app; [lia|]. split.
  - apply holds_put_ne; simpl; try lia. done.
  - apply (holds_put_here (len x)); simpl; try lia. apply (holds_fmap [0]).
Qed.

Lemma foreign_chars o r r' n cs n' cs' m m' s xs :
  view o r n cs m -> view o r' n' cs' m' -> local_step o m m' ->
  in_region s <> r -> in_region s <> r' -> chars_at s xs m -> chars_at s xs m'.
Proof.
  intros Hv Hv' Hst Hne Hne' [Hs Hx]. split; [done|]. intros i x Hi.
  destruct (Hx i x Hi) as (ds & Ec & Hl). exists ds. split; [|done].
  destruct (in_region s) as [o'|b]; cbn [region_cells] in *.
  - destruct (decide (o' = o)) as [->|Hno].
    + exfalso. destruct (view_not_local _ _ _ _ _ Hv) as [b ->]; [congruence|].
      destruct Hv as (u & Eo & -> & _). rewrite Eo in Ec. injection Ec as <-.
      apply (lookup_replicate 16) in Hl as [E' _]. done.
    + by rewrite (step_objects _ _ _ Hst).
  - rewrite (step_blocks _ _ _ Hst); [done| |].
    + rewrite (view_owns _ _ _ _ _ b Hv). congruence.
    + rewrite (view_owns _ _ _ _ _ b Hv'). congruence.
Qed.

(** ** Replacing in place *)

(** The characters behind the replaced ones move; those before their new
    place stay. *)
Lemma wp_tail o r n cs m p len1 len2 hm (Q : unit -> memory -> Prop) E :
  view o r n cs m -> in_region p = r -> 0 <= offset p -> 0 <= len1 -> 0 <= len2 -> 0 <= hm ->
  offset p + len1 + hm <= len cs -> offset p + len2 + hm <= len cs ->
  (forall cs' m', view o r n cs' m' -> local_step o m m' -> length cs' = length cs ->
     (forall k ys, 0 <= k -> k + len ys <= offset p + len2 -> holds cs k ys -> holds cs' k ys) ->
     (forall k ys, 0 <= k -> k + len ys <= hm -> holds cs (offset p + len1 + k) ys ->
        holds cs' (offset p + len2 + k) ys) ->
     (forall ys, len ys <= hm -> holds cs (offset p + len1) ys -> holds cs' (offset p + len2) ys) ->
     Q tt m') ->
  wp (when (negb (hm =? 0) && negb (len1 =? len2))
        (string._S_move (padd p len2) (padd p len1) hm)) m Q E.
Proof.
  intros Hv Hp H0 H1 H2 H3 Hl1 Hl2 HQ. apply wp_when.
  - intros _. eapply wp_own_move; [exact Hv|try done; cbn; lia..|]. cbn [padd offset].
    intros m' Hv' Hs'. apply (HQ _ m' Hv' Hs').
    + apply length_put. rewrite length_get by lia. lia.
    + intros k ys Hk Hy Hh. apply holds_put_ne; try lia; rewrite ?length_get by lia; try lia. done.
    + intros k ys Hk Hy Hh. apply holds_moved; try lia. done.
    + intros ys Hy Hh. apply holds_moved_here; try lia. done.
  - intros Hf.
    assert (forall k ys, 0 <= k -> k + len ys <= hm -> holds cs (offset p + len1 + k) ys ->
      holds cs (offset p + len2 + k) ys) as Hm.
    { intros k ys Hk Hy Hh. destruct (Z.eqb_spec len1 len2) as [->|_]; [done|].
      destruct (Z.eqb_spec hm 0) as [->|_]; [|done].
      destruct ys; [apply holds_nil|simpl in Hy; lia]. }
    apply (HQ cs m Hv (local_step_refl o m) eq_refl); [done|done|].
    intros ys Hy Hh. specialize (Hm 0 ys). rewrite !Z.add_0_r in Hm. apply Hm; [lia..|done].
Qed.

(** What the in-place functions achieve: the new characters are where they
    belong, the rest has moved. *)
Definition replaced (o : nat) (r : region) (n : Z) (cs : list cell) (m : memory) (pos len1 hm : Z)
    (ys : list Z) (_ : unit) (m' : memory) : Prop :=
  exists cs', view o r n cs' m' /\ local_step o m m' /\ length cs' = length cs /\
    (forall xs, len xs <= pos -> holds cs 0 xs -> holds cs' 0 xs) /\
    holds cs' pos ys /\
    (forall xs, len xs <= hm -> holds cs (pos + len1) xs -> holds cs' (pos + len ys) xs).

Lemma wp_replace_disjunct o r n cs m p s len1 hm ys E :
  view o r n cs m -> in_region p = r -> in_region s <> r -> chars_at s ys m ->
  0 <= offset p -> 0 <= len1 -> 0 <= hm ->
  offset p + len1 + hm <= len cs -> offset p + len ys + hm <= len cs ->
  wp (string.replace_disjunct p s len1 (len ys) hm) m (replaced o r n cs m (offset p) len1 hm ys) E.
Proof.
  intros Hv Hp Hs Hc H0 H1 H2 Hl1 Hl2. apply wp_bind.
  eapply wp_tail; [exact Hv|done|lia..|]. intros cs1 m1 Hv1 Hs1 Hlen Hkeep Hmove Hmove0.
  assert (chars_at s ys m1) as Hc1 by (by apply (foreign_chars o r r n cs n cs1 m)).
  assert (forall m' cs', view o r n cs' m' -> local_step o m1 m' ->
    cs' = cells_put (offset p) (Some <$> ys) cs1 ->
    replaced o r n cs m (offset p) len1 hm ys tt m') as Hdone.
  { intros m' cs' Hv' Hs' ->. eexists. split; [exact Hv'|]. split; [by eapply local_step_trans|].
    split; [rewrite length_put by (rewrite length_fmap; lia); done|]. splits.
    - intros xs Hx Hh. apply holds_put_ne; rewrite ?length_fmap; try lia. apply Hkeep; [lia..|done].
    - apply holds_put_here; rewrite ?length_fmap; try lia. apply holds_fmap.
    - intros xs Hx Hh. apply holds_put_ne; rewrite ?length_fmap; try lia.
      apply Hmove0; [lia|done]. }
  apply wp_when.
  - intros _. eapply wp_copy_from; [exact Hv1|done|done|done|done|lia|].
    intros m' Hv' Hs'. by eapply Hdone.
  - intros E0. eapply Hdone; [exact Hv1|apply local_step_refl|].
    destruct ys; [by rewrite put_nil|simpl in E0; lia].
Qed.

Lemma wp_replace_shrink o r n cs m p s len1 hm ys E :
  view o r n cs m -> in_region p = r -> in_region s = r -> holds cs (offset s) ys ->
  0 <= offset p -> 0 <= offset s -> 0 <= hm -> len ys <= len1 ->
  offset p + len1 + hm <= len cs -> offset s + len ys <= len cs ->
  wp (string.replace_in_place p s len1 (len ys) hm) m (replaced o r n cs m (offset p) len1 hm ys) E.
Proof.
  intros Hv Hp Hs Hy H0 H1 H2 Hle Hl1 Hl2. apply wp_bind.
  assert (forall cs1 m1, view o r n cs1 m1 -> local_step o m m1 -> length cs1 = length cs ->
    (forall xs, len xs <= offset p -> holds cs 0 xs -> holds cs1 0 xs) -> holds cs1 (offset p) ys ->
    (forall xs, len xs <= hm -> holds cs (offset p + len1) xs -> holds cs1 (offset p + len1) xs) ->
    wp (_ ← when (negb (hm =? 0) && negb (len1 =? len ys))
          (string._S_move (padd p (len ys)) (padd p len1) hm);
        when (len1 <? len ys) (if offset s + len ys <=? offset p + len1 then string._S_move p s (len ys)
          else if offset p + len1 <=? offset s then string._S_copy p (padd s (len ys - len1)) (len ys)
          else _ ← string._S_move p s (offset p + len1 - offset s);
            string._S_copy (padd p (offset p + len1 - offset s)) (padd p (len ys))
              (u32 (len ys - (offset p + len1 - offset s))))) m1
      (replaced o r n cs m (offset p) len1 hm ys) E) as Hrest.
  { intros cs1 m1 Hv1 Hs1 Hlen Hlow Hys Hhigh. apply wp_bind.
    eapply wp_tail; [exact Hv1|done|lia..|]. intros cs2 m2 Hv2 Hs2 Hlen2 Hkeep Hmove Hmove0.
    replace (len1 <? len ys) with false by lia. apply wp_ret. exists cs2.
    split; [done|]. split; [by eapply local_step_trans|]. split; [congruence|]. splits.
    - intros xs Hx Hh. apply Hkeep; [lia..|]. by apply Hlow.
    - apply Hkeep; [lia..|done].
    - intros xs Hx Hh. apply Hmove0; [lia|]. by apply Hhigh. }
  destruct (Z.eqb_spec (len ys) 0) as [Ez|Hne]; cbn [negb andb].
  - apply wp_ret. apply (Hrest cs m Hv (local_step_refl o m) eq_refl); try done.
    destruct ys; [apply holds_nil|simpl in Ez; lia].
  - replace (len ys <=? len1) with true by lia. cbn [when].
    eapply wp_own_move; [exact Hv|done|done|lia..|]. intros m1 Hv1 Hs1.
    apply (Hrest _ m1 Hv1 Hs1).
    + apply length_put. rewrite length_get by lia. lia.
    + intros xs Hx Hh. apply holds_put_ne; try lia; rewrite ?length_get by lia; try lia. done.
    + by apply holds_moved_here; try lia.
    + intros xs Hx Hh. apply holds_put_ne; try lia; rewrite ?length_get by lia; try lia. done.
Qed.

Lemma wp_replace_grow o r n cs m p s len1 hm ys E :
  view o r n cs m -> in_region p = r -> in_region s = r -> holds cs (offset s) ys ->
  0 <= offset p -> 0 <= offset s -> 0 <= hm -> 0 <= len1 < len ys -> len ys < 4294967296 ->
  offset p + len ys + hm <= len cs -> offset s + len ys <= offset p + len1 + hm ->
  wp (string.replace_in_place p s len1 (len ys) hm) m (replaced o r n cs m (offset p) len1 hm ys) E.
Proof.
  intros Hv Hp Hs Hy H0 H1 H2 Hle Hw Hl1 Hl2. apply wp_bind.
  replace (len ys <=? len1) with false by lia. rewrite andb_false_r. apply wp_ret. apply wp_bind.
  eapply wp_tail; [exact Hv|done|lia..|]. intros cs1 m1 Hv1 Hs1 Hlen Hkeep Hmove Hmove0.
  replace (len1 <? len ys) with true by lia. cbn [when].
  assert (forall ds cs' m', view o r n cs' m' -> local_step o m1 m' ->
    cs' = cells_put (offset p) ds cs1 -> len ds = len ys -> holds ds 0 ys ->
    replaced o r n cs m (offset p) len1 hm ys tt m') as Hdone.
  { intros ds cs' m' Hv' Hs' -> Hds Hh. eexists. split; [exact Hv'|].
    split; [by eapply local_step_trans|]. split; [rewrite length_put by lia; done|]. splits.
    - intros xs Hx Hx'. apply holds_put_ne; try lia. apply Hkeep; [lia..|done].
    - by apply holds_put_here; try lia.
    - intros xs Hx Hx'. apply holds_put_ne; try lia.
      apply Hmove0; [lia|done]. }
  destruct (Z.leb_spec (offset s + len ys) (offset p + len1)) as [Hc1|Hc1].
  { eapply wp_own_move; [exact Hv1|done|done|lia..|]. intros m' Hv' Hs'.
    eapply Hdone; [exact Hv'|done|reflexivity|rewrite length_get; lia|].
    apply holds_get; [lia..|]. rewrite Z.add_0_r. apply Hkeep; [lia..|done]. }
  destruct (Z.leb_spec (offset p + len1) (offset s)) as [Hc2|Hc2].
  { eapply wp_own_copy; [exact Hv1|try done; cbn; lia..|]. intros m' Hv' Hs'.
    eapply Hdone; [exact Hv'|done|reflexivity|rewrite length_get; cbn; lia|].
    apply holds_get; [cbn; lia..|]. cbn [padd offset].
    replace (offset s + (len ys - len1) + 0) with (offset p + len ys + (offset s - (offset p + len1))) by lia.
    apply Hmove; [lia..|]. by replace (offset p + len1 + (offset s - (offset p + len1))) with (offset s) by lia. }
  set (nleft := offset p + len1 - offset s). assert (0 < nleft < len ys) as Hn by lia.
  rewrite u32_small by lia.
  rewrite <-(take_drop (Z.to_nat nleft) ys) in Hy. apply holds_app in Hy as [Hy1 Hy2]; [|lia].
  rewrite length_take in Hy2. replace (offset s + Z.of_nat (Z.to_nat nleft `min` length ys)) with (offset p + len1) in Hy2 by lia.
  apply wp_bind. eapply wp_own_move; [exact Hv1|done|done|lia..|]. intros m2 Hv2 Hs2.
  eapply wp_own_copy; [exact Hv2|try done; cbn; try lia..|].
  { rewrite length_put; rewrite ?length_get; lia. }
  { rewrite length_put; rewrite ?length_get; lia. }
  intros m' Hv' Hs'. cbn [padd offset] in Hv'. eexists. split; [exact Hv'|].
  split; [eapply local_step_trans; [exact Hs1|]; by eapply local_step_trans|].
  assert (length (cells_get (offset s) nleft cs1) = Z.to_nat nleft) as G1 by (apply length_get; lia).
  set (cs2 := cells_put (offset p) (cells_get (offset s) nleft cs1) cs1) in *.
  assert (length cs2 = length cs1) as L2 by (apply length_put; lia).
  assert (length (cells_get (offset p + len ys) (len ys - nleft) cs2) = Z.to_nat (len ys - nleft)) as G2
    by (apply length_get; lia).
  split; [rewrite length_put by lia; lia|]. splits.
  - intros xs Hx Hh. apply holds_put_ne; try lia. apply holds_put_ne; try lia. apply Hkeep; [lia..|done].
  - match goal with |- holds ?c ?k ys =>
      cut (holds c k (take (Z.to_nat nleft) ys ++ drop (Z.to_nat nleft) ys)); [by rewrite take_drop|] end.
    apply holds_app; [lia|].
    rewrite length_take. replace (Z.of_nat (Z.to_nat nleft `min` length ys)) with nleft by lia. split.
    + apply holds_put_ne; rewrite ?length_take; try lia. 
      apply holds_moved_here; rewrite ?length_take; try lia.
      apply Hkeep; rewrite ?length_take; [lia..|done].
    + apply holds_moved_here; rewrite ?length_drop; try lia.
      apply holds_put_ne; rewrite ?length_drop; try lia. apply Hmove0; rewrite ?length_drop; [lia|done].
  - intros xs Hx Hh. apply holds_put_ne; try lia. apply holds_put_ne; try lia.
    apply Hmove0; [lia|done].
Qed.

(** ** The operations below the interface *)
Lemma holds_3 cs x1 ys x3 : holds cs 0 x1 -> holds cs (len x1) ys -> holds cs (len x1 + len ys) x3 ->
  holds cs 0 (x1 ++ ys ++ x3).
Proof. intros. apply holds_app; [lia|]. split; [done|]. by apply holds_app; [lia|]. Qed.

Lemma wp_check_length o r (x : list Z) cs m n1 n2 (Q : unit -> memory -> Prop) (E : std_exn -> memory -> Prop) :
  view o r (len x) cs m -> 0 <= n1 <= len x -> len x <= string.max_size -> 0 <= n2 < 4294967296 ->
  (string.max_size < len x - n1 + n2 -> E length_error m) ->
  (len x - n1 + n2 <= string.max_size -> Q tt m) -> wp (string._M_check_length o n1 n2) m Q E.
Proof.
  intros Hv Hn Hx H2 HE HQ. sizes. unfold string._M_check_length. apply wp_bind.
  eapply wp_size; [exact Hv|]. sizes. rewrite (u32_small (len x - n1)), u32_small by lia. apply wp_when.
  - intros Hlt. apply wp_throw, HE. lia.
  - intros Hge. apply HQ. lia.
Qed.

Lemma string_at_split o x1 x2 x3 m : string_at o (x1 ++ x2 ++ x3) m ->
  exists r cs, view o r (len (x1 ++ x2 ++ x3)) cs m /\ holds cs 0 (x1 ++ x2 ++ x3) /\
    holds cs 0 x1 /\ holds cs (len x1 + len x2) x3 /\
    len (x1 ++ x2 ++ x3) + 1 <= len cs /\ len (x1 ++ x2 ++ x3) <= string.max_size.
Proof.
  intros (r & cs & Hv & Hc). destruct (string_at_room _ _ _ _ _ Hv Hc) as [Hl Hm].
  exists r, cs. unfold content in Hc. apply holds_app in Hc as [Hc _]; [|lia].
  split; [done|]. split; [done|].
  apply holds_app in Hc as [H1 Hc]; [|lia]. apply holds_app in Hc as [_ H3]; [|lia]. done.
Qed.

(** In both cases the cells hold the new contents before the length is set. *)
Definition filled (o : nat) (n : Z) (x : list Z) (m : memory) (_ : unit) (m' : memory) : Prop :=
  exists r cs, view o r n cs m' /\ local_step o m m' /\ len x < len cs /\ holds cs 0 x.

Lemma wp_filled o n x m m1 (c : M unit) (E : std_exn -> memory -> Prop) :
  wp c m1 (filled o n x m) E ->
  wp (_ ← c; string._M_set_length o (len x)) m1 (becomes o x m) E.
Proof.
  intros Hc. apply wp_bind. revert Hc. apply wp_mono; [|done].
  intros u m' (r & cs & Hv & Hs & Hl & Hh). by eapply wp_finish.
Qed.

Lemma source_inside o r n cs s ys m : view o r n cs m -> source o s ys m -> in_region s = r ->
  0 <= offset s /\ offset s + len ys <= n /\ holds cs (offset s) ys.
Proof.
  intros Hv ([Hs Hc] & _ & Ho) Hr. split; [done|]. split.
  - destruct Hv as (u & Eo & _). by apply (Ho _ Eo).
  - intros i y Hi. destruct (Hc i y Hi) as (cs' & Ec & Hy). rewrite Hr in Ec.
    rewrite (view_region _ _ _ _ _ Hv) in Ec. by injection Ec as <-.
Qed.

Lemma wp_replace_fits o r cs (x1 x2 x3 : list Z) s ys m E :
  view o r (len (x1 ++ x2 ++ x3)) cs m -> holds cs 0 x1 -> holds cs (len x1 + len x2) x3 ->
  len (x1 ++ x2 ++ x3) + 1 <= len cs -> len (x1 ++ ys ++ x3) <= len cs - 1 -> source o s ys m ->
  wp (p ← string._M_data o;
      disjunct ← string._M_disjunct o s;
      if (disjunct : bool) then string.replace_disjunct (padd p (len x1)) s (len x2) (len ys) (len x3)
      else string.replace_in_place (padd p (len x1)) s (len x2) (len ys) (len x3)) m
    (filled o (len (x1 ++ x2 ++ x3)) (x1 ++ ys ++ x3) m) E.
Proof.
  intros Hv H1 H3 Hl Hfit Hsrc. apply wp_bind. eapply wp_data; [exact Hv|].
  unfold string._M_disjunct. apply wp_bind. apply wp_bind. eapply wp_data; [exact Hv|].
  apply wp_bind. eapply wp_size; [exact Hv|]. apply wp_ret. cbn [in_region offset].
  set (n := len (x1 ++ x2 ++ x3)) in *. assert (n = len x1 + len x2 + len x3) as En
    by (unfold n; rewrite !length_app; lia). rewrite !length_app in Hfit.
  apply (wp_mono _ _ (replaced o r n cs m (len x1) (len x2) (len x3) ys) _ E); [|done|].
  { intros u m' (cs' & Hv' & Hs' & Hl' & Ha & Hb & Hd). exists r, cs'.
    split; [done|]. split; [done|]. split; [rewrite !length_app; lia|].
    apply holds_3; [by apply Ha|done|by apply Hd]. }
  destruct (decide (in_region s = r)) as [Hsr|Hsr].
  - destruct (source_inside _ _ _ _ _ _ _ Hv Hsrc Hsr) as (Hs0 & Hin & Hys).
    destruct Hsrc as (_ & Hw & _). rewrite bool_decide_true by done.
    replace (offset s <? 0) with false by lia. replace (0 + n <? offset s) with false by lia.
    cbn [negb orb]. destruct (Z.le_gt_cases (len ys) (len x2)) as [Hle|Hgt].
    + apply wp_replace_shrink; try done; cbn; lia.
    + apply wp_replace_grow; try done; cbn; lia.
  - destruct Hsrc as (Hc & _). rewrite bool_decide_false by done. cbn [negb orb].
    apply wp_replace_disjunct; try done; cbn; lia.
Qed.

Lemma wp_mutate_filled o r cs (x1 x2 x3 : list Z) s ys m :
  view o r (len (x1 ++ x2 ++ x3)) cs m -> holds cs 0 (x1 ++ x2 ++ x3) -> chars_at s ys m ->
  len (x1 ++ ys ++ x3) < 4294967296 -> len cs - 1 < len (x1 ++ ys ++ x3) ->
  wp (string._M_mutate o (len x1) (len x2) (Some s) (len ys)) m
    (filled o (len (x1 ++ x2 ++ x3)) (x1 ++ ys ++ x3) m) (fails (len (x1 ++ ys ++ x3)) m).
Proof.
  intros Hv Hh Hc Hw Hbig. assert (len (x1 ++ ys ++ x3) = len x1 + len ys + len x3) as En
    by (rewrite !length_app; lia). rewrite En in *.
  eapply wp_mutate; [exact Hv|done|done|lia|done|done|].
  intros b ds m' Hv' Hs' Hlt Ha Hb Hd. exists (Block b), ds. splits; [done..|lia|]. by apply holds_3.
Qed.

Lemma wp_M_replace o x1 x2 x3 s ys m : string_at o (x1 ++ x2 ++ x3) m -> source o s ys m ->
  wp (string._M_replace o (len x1) (len x2) s (len ys)) m (becomes o (x1 ++ ys ++ x3) m)
    (fails (len (x1 ++ ys ++ x3)) m).
Proof.
  intros Hx Hsrc. destruct (string_at_split _ _ _ _ _ Hx) as (r & cs & Hv & Hh & H1 & H3 & Hl & Hm).
  pose proof Hsrc as (Hc & Hw & _).
  assert (len (x1 ++ x2 ++ x3) - len x2 + len ys = len (x1 ++ ys ++ x3)) as En
    by (rewrite !length_app; lia).
  unfold string._M_replace. apply wp_bind.
  eapply wp_check_length; [exact Hv|rewrite !length_app; lia|done|lia| |];
    rewrite En; [by intros; split; [|left]|].
  intros Hok. apply wp_bind. eapply wp_size; [exact Hv|]. sizes.
  replace (len (x1 ++ x2 ++ x3) + len ys - len x2) with (len (x1 ++ ys ++ x3)) by lia.
  assert (len (x1 ++ x2 ++ x3) - len x1 - len x2 = len x3) as -> by (rewrite !length_app; lia).
  rewrite !u32_small by (rewrite ?length_app in *; lia).
  apply wp_bind. eapply wp_capacity; [exact Hv|]. eapply wp_filled.
  destruct (Z.leb_spec (len (x1 ++ ys ++ x3)) (len cs - 1)) as [Hfit|Hbig].
  - by apply (wp_replace_fits o r cs).
  - apply (wp_mutate_filled o r cs); try done. lia.
Qed.

(** Room for [k] characters between the first and the last part. *)
Definition gap (o : nat) (n : Z) (x1 x3 : list Z) (k : Z) (m : memory) (_ : unit) (m' : memory) : Prop :=
  exists r cs, view o r n cs m' /\ local_step o m m' /\ len x1 + k + len x3 < len cs /\
    holds cs 0 x1 /\ holds cs (len x1 + k) x3.

Lemma wp_gap_mutate o r cs (x1 x2 x3 : list Z) k m :
  view o r (len (x1 ++ x2 ++ x3)) cs m -> holds cs 0 (x1 ++ x2 ++ x3) -> 0 <= k ->
  len x1 + k + len x3 < 4294967296 -> len cs - 1 < len x1 + k + len x3 ->
  wp (string._M_mutate o (len x1) (len x2) None k) m
    (gap o (len (x1 ++ x2 ++ x3)) x1 x3 k m) (fails (len x1 + k + len x3) m).
Proof.
  intros Hv Hh Hk Hw Hbig.
  eapply (wp_mutate _ _ _ _ _ _ _ _ []); [exact Hv|done|done|done|done|done|].
  intros b ds m' Hv' Hs' Hlt Ha _ Hd. by exists (Block b), ds.
Qed.

Lemma wp_gap_fill o (x1 x3 : list Z) n k c m m1 (E : std_exn -> memory -> Prop) :
  gap o n x1 x3 k m tt m1 -> 0 <= k ->
  wp (_ ← when (negb (k =? 0)) (p ← string._M_data o; string._S_assign (padd p (len x1)) k c);
      string._M_set_length o (len x1 + k + len x3)) m1
    (becomes o (x1 ++ replicate (Z.to_nat k) c ++ x3) m) E.
Proof.
  intros (r & cs & Hv & Hs & Hl & H1 & H3) Hk.
  replace (len x1 + k + len x3) with (len (x1 ++ replicate (Z.to_nat k) c ++ x3))
    by (rewrite !length_app, length_replicate; lia).
  assert (len (replicate (Z.to_nat k) c) = k) as Hlr by (rewrite length_replicate; lia).
  apply wp_filled with (n := n). apply wp_when.
  - intros _. apply wp_bind. eapply wp_data; [exact Hv|].
    eapply wp_assign_n; [exact Hv|done|cbn; lia|done|cbn; lia|]. cbn [padd offset]. intros m' Hv' Hs'.
    eexists r, _. split; [exact Hv'|]. split; [by eapply local_step_trans|].
    split; [rewrite length_put, !length_app, length_replicate; rewrite ?length_fmap, ?length_replicate; lia|].
    apply holds_3.
    + apply holds_put_ne; rewrite ?length_fmap; try lia. done.
    + apply (holds_put_here (len x1)); rewrite ?length_fmap; try lia. apply holds_fmap.
    + rewrite Hlr. apply holds_put_ne; rewrite ?length_fmap; try lia. done.
  - intros Ez. assert (k = 0) as -> by lia. exists r, cs. split; [done|]. split; [done|].
    split; [rewrite !length_app; lia|]. apply holds_3; [done|apply holds_nil|done].
Qed.

Lemma wp_M_replace_aux o x1 x2 x3 k c m : string_at o (x1 ++ x2 ++ x3) m -> 0 <= k < 4294967296 ->
  wp (string._M_replace_aux o (len x1) (len x2) k c) m
    (becomes o (x1 ++ replicate (Z.to_nat k) c ++ x3) m) (fails (len x1 + k + len x3) m).
Proof.
  intros Hx Hk. destruct (string_at_split _ _ _ _ _ Hx) as (r & cs & Hv & Hh & H1 & H3 & Hl & Hm).
  assert (len (x1 ++ x2 ++ x3) - len x2 + k = len x1 + k + len x3) as En
    by (rewrite !length_app; lia).
  unfold string._M_replace_aux. apply wp_bind.
  eapply wp_check_length; [exact Hv|rewrite !length_app; lia|done|lia| |];
    rewrite En; [by intros; split; [|left]|].
  intros Hok. apply wp_bind. eapply wp_size; [exact Hv|]. sizes.
  replace (len (x1 ++ x2 ++ x3) + k - len x2) with (len x1 + k + len x3) by lia.
  assert (len (x1 ++ x2 ++ x3) - len x1 - len x2 = len x3) as -> by (rewrite !length_app; lia).
  rewrite !u32_small by lia. apply wp_bind. eapply wp_capacity; [exact Hv|].
  apply wp_bind. eapply wp_mono with (Q := gap o (len (x1 ++ x2 ++ x3)) x1 x3 k m);
    [intros [] m' Hg; eapply wp_gap_fill; [exact Hg|lia]|done|].
  destruct (Z.leb_spec (len x1 + k + len x3) (len cs - 1)) as [Hfit|Hbig].
  - apply wp_bind. eapply wp_data; [exact Hv|].
    eapply wp_tail; [exact Hv|done|cbn; lia..|cbn; rewrite !length_app in *; lia|cbn; lia|].
    cbn [padd offset]. intros cs' m' Hv' Hs' Hlen Hkeep _ Hmove. exists r, cs'.
    split; [done|]. split; [done|]. split; [lia|]. split; [apply Hkeep; [lia..|done]|].
    apply Hmove; [lia|done].
  - apply (wp_gap_mutate o r cs); try done; lia.
Qed.

(** ** Appending and erasing *)
Lemma wp_M_append o x s ys m : string_at o x m -> source o s ys m -> len x + len ys < 4294967296 ->
  wp (string._M_append o s (len ys)) m (becomes o (x ++ ys) m) (fails (len (x ++ ys)) m).
Proof.
  intros Hx Hsrc Hw. rewrite <-(app_nil_r x), <-(app_nil_l []) in Hx.
  destruct (string_at_split _ _ _ _ _ Hx) as (r & cs & Hv & Hh & H1 & _ & Hl & Hm).
  assert (x ++ [] ++ [] = x) as Ex by apply app_nil_r. rewrite Ex in *.
  pose proof Hsrc as (Hc & _ & _). unfold string._M_append. apply wp_bind. eapply wp_size; [exact Hv|].
  assert (len ys + len x = len (x ++ ys)) as En by (rewrite length_app; lia).
  rewrite En, u32_small by lia. apply wp_bind. eapply wp_capacity; [exact Hv|].
  apply wp_filled with (n := len x). destruct (Z.leb_spec (len (x ++ ys)) (len cs - 1)) as [Hfit|Hbig].
  - assert (forall m' cs', view o r (len x) cs' m' -> local_step o m m' ->
      cs' = cells_put (len x) (Some <$> ys) cs -> filled o (len x) (x ++ ys) m tt m') as Hdone.
    { intros m' cs' Hv' Hs' ->. eexists r, _. split; [exact Hv'|]. split; [done|].
      split; [rewrite length_put; rewrite ?length_fmap; lia|]. apply holds_app; [lia|]. split.
      - apply holds_put_ne; rewrite ?length_fmap; try lia. done.
      - apply (holds_put_here (len x)); rewrite ?length_fmap; try lia. apply holds_fmap. }
    apply wp_when.
    + intros _. apply wp_bind. eapply wp_data; [exact Hv|].
      destruct (decide (in_region s = r)) as [Hsr|Hsr].
      * destruct (source_inside _ _ _ _ _ _ _ Hv Hsrc Hsr) as (Hs0 & Hin & Hys).
        eapply wp_own_copy; [exact Hv|try done; cbn; lia..|]. intros m' Hv' Hs'.
        eapply Hdone; [exact Hv'|done|]. cbn [padd offset]. by rewrite get_holds.
      * eapply wp_copy_from; [exact Hv|done|done|done|cbn; lia|cbn; lia|]. intros m' Hv' Hs'.
        by eapply Hdone.
    + intros Ez. apply (Hdone m cs Hv (local_step_refl o m)).
      destruct ys; [by rewrite put_nil|simpl in Ez; lia].
  - pose proof (wp_mutate_filled o r cs x [] [] s ys m) as Hmut.
    cbn [length] in Hmut. rewrite Ex, app_nil_r in Hmut. apply Hmut; try done; lia.
Qed.

Lemma wp_M_erase o (x1 x2 x3 : list Z) m E : string_at o (x1 ++ x2 ++ x3) m ->
  wp (string._M_erase o (len x1) (len x2)) m (becomes o (x1 ++ x3) m) E.
Proof.
  intros Hx. destruct (string_at_split _ _ _ _ _ Hx) as (r & cs & Hv & Hh & H1 & H3 & Hl & Hm).
  unfold string._M_erase. apply wp_bind. eapply wp_length; [exact Hv|]. sizes.
  assert (len (x1 ++ x2 ++ x3) = len x1 + len x2 + len x3) as En by (rewrite !length_app; lia).
  rewrite !u32_small by lia.
  replace (len (x1 ++ x2 ++ x3) - len x1 - len x2) with (len x3) by lia.
  replace (len (x1 ++ x2 ++ x3) - len x2) with (len (x1 ++ x3)) by (rewrite length_app; lia).
  apply wp_filled with (n := len (x1 ++ x2 ++ x3)). apply wp_when.
  - intros _. apply wp_bind. eapply wp_data; [exact Hv|].
    eapply wp_own_move; [exact Hv|try done; cbn; lia..|]. cbn [padd offset]. intros m' Hv' Hs'.
    eexists r, _. split; [exact Hv'|]. split; [done|].
    assert (len (cells_get (0 + (len x1 + len x2)) (len x3) cs) = len x3) as G
      by (rewrite length_get; lia).
    split; [rewrite length_put, length_app; lia|]. apply holds_app; [lia|]. split.
    + apply holds_put_ne; try lia. done.
    + apply (holds_moved_here (len x1)); try lia. done.
  - intros Hz. exists r, cs. split; [done|]. split; [apply local_step_refl|].
    split; [rewrite length_app; lia|]. apply holds_app; [lia|]. split; [done|].
    destruct (Z.eqb_spec (len x3) 0) as [E0|_]; cbn [negb andb] in Hz.
    + destruct x3; [apply holds_nil|simpl in E0; lia].
    + assert (len x2 = 0) as E0 by lia. rewrite E0, Z.add_0_r in H3. exact H3.
Qed.

Lemma wp_truncate o (x1 x2 : list Z) m E : string_at o (x1 ++ x2) m ->
  wp (string._M_set_length o (len x1)) m (becomes o x1 m) E.
Proof.
  intros (r & cs & Hv & Hc). destruct (string_at_room _ _ _ _ _ Hv Hc) as [Hl _].
  unfold content in Hc. apply holds_app in Hc as [Hc _]; [|lia]. apply holds_app in Hc as [Hc _]; [|lia].
  eapply wp_finish; [exact Hv|apply local_step_refl|done|rewrite length_app in Hl; lia].
Qed.

Lemma wp_push_back o x c m : string_at o x m ->
  wp (string.push_back o c) m (becomes o (x ++ [c]) m) (fails (len x + 1) m).
Proof.
  intros Hx. rewrite <-(app_nil_r x), <-(app_nil_l []) in Hx.
  destruct (string_at_split _ _ _ _ _ Hx) as (r & cs & Hv & Hh & H1 & _ & Hl & Hm). sizes.
  pose proof (wp_gap_mutate o r cs x [] [] 1 m Hv Hh) as Hmut.
  assert (x ++ [] ++ [] = x) as Ex by apply app_nil_r. rewrite Ex in *. cbn [length] in Hmut.
  rewrite Z.add_0_r in Hmut.
  unfold string.push_back. apply wp_bind. eapply wp_size; [exact Hv|]. rewrite u32_small by lia.
  apply wp_bind. eapply wp_capacity; [exact Hv|]. apply wp_bind.
  apply wp_mono with (Q := gap o (len x) x [] 1 m) (E := fails (len x + 1) m); [|done|].
  - intros _ m1 (r1 & cs1 & Hv1 & Hs1 & Hl1 & Hh1 & _). cbn [length] in Hl1.
    apply wp_bind. eapply wp_data; [exact Hv1|].
    replace (len x + 1) with (len (x ++ [c])) by (rewrite length_app; simpl; lia).
    apply wp_filled with (n := len x). unfold traits.assign.
    eapply wp_put; [exact Hv1|done|cbn; lia|cbn; lia|]. cbn [padd offset]. intros m' Hv' Hs'.
    eexists r1, _. split; [exact Hv'|]. split; [by eapply local_step_trans|].
    split; [rewrite length_put, length_app; simpl; lia|]. apply holds_app; [lia|]. split.
    + apply holds_put_ne; simpl; try lia. done.
    + apply (holds_put_here (len x)); simpl; try lia. apply (holds_fmap [c]).
  - apply wp_when.
    + intros Hlt. apply Hmut; lia.
    + intros Hge. exists r, cs. split; [done|]. split; [apply local_step_refl|]. cbn [length].
      split; [lia|]. split; [done|]. apply holds_nil.
Qed.
End Ops.
