(* ===== verification/CxxStringLife.v ===== *)
(** * Construction, destruction, assignment and exchange of strings

    What they do to the objects and to the blocks they own: each lemma gives
    the new contents and that nothing else was touched.  A constructor that
    throws leaves no object and no block behind. *)
From S2P Require Import Prelude CxxMemory CxxString CxxStringProps CxxStringOps.

#[local] Set Default Proof Using "Type*".

Section Life.
Context `{OperatorNew}.

(** ** reserve *)

(** From a block back into the local buffer. *)
Lemma wp_to_local o b cs (x : list Z) m (Q : unit -> memory -> Prop) E :
  view o (Block b) (len x) cs m -> content x cs -> len x <= 15 ->
  (forall cs' m', view o (Local o) (len x) cs' m' -> content x cs' -> local_step o m m' -> Q tt m') ->
  wp (p ← string._M_data o;
      _ ← string._S_copy (string._M_local_data o) p (len (x ++ [0]));
      _ ← string._M_destroy o;
      string._M_data_set o (string._M_local_data o)) m Q E.
Proof.
  intros Hv Hc Hl HQ. apply wp_bind. eapply wp_data; [exact Hv|].
  pose proof (view_chars o _ _ _ _ 0 (x ++ [0]) Hv ltac:(lia) Hc) as Hch. cbn in Hch.
  assert (x ++ [0] <> []) as Hne by (by destruct x).
  assert (len (x ++ [0]) = len x + 1) as Hlen by (rewrite length_app; simpl; lia).
  destruct Hv as (u & Eo & -> & Hb & Hcs). set (new := cells_put 0 (Some <$> (x ++ [0])) (replicate 16 None)).
  assert (length new = 16%nat) as Hnew.
  { unfold new. rewrite length_put; [done|]. rewrite length_fmap, length_replicate. lia. }
  set (m1 := Memory (<[o := BasicString (Pointer (Block b) 0) (len x) (_M_local_buf new)]> (objects m)) (blocks m)).
  assert (wp (string._S_copy (string._M_local_data o) (Pointer (Block b) 0) (len (x ++ [0]))) m
    (fun _ m' => m' = m1) E) as Hcopy.
  { assert (wp (ds ← get_cells (Pointer (Block b) 0) (len (x ++ [0]));
      put_cells (string._M_local_data o) ds) m (fun _ m' => m' = m1) E) as Hw.
    { apply wp_bind. eapply wp_value; [by apply get_cells_chars|]. eapply wp_value.
      - apply (put_cells_run _ _ (replicate 16 None)); [cbn; by rewrite Eo|cbn; lia|].
        rewrite length_fmap, length_replicate. cbn [offset string._M_local_data]. lia.
      - cbn [string._M_local_data in_region offset set_region]. unfold m1. f_equal.
        apply map_eq. intros o'. destruct (decide (o' = o)) as [->|Ho].
        + by rewrite lookup_alter_eq, Eo, lookup_insert_eq.
        + by rewrite lookup_alter_ne, lookup_insert_ne by congruence. }
    unfold string._S_copy, traits.copy. destruct (Z.eqb_spec (len (x ++ [0])) 1) as [E1|_].
    - by rewrite E1 in Hw.
    - by replace (len (x ++ [0]) =? 0) with false by lia. }
  apply wp_bind. revert Hcopy. apply wp_mono; [|done]. intros _ m' ->. apply wp_bind.
  apply (wp_bind (string._M_data o)). apply (wp_bind (get_object o)).
  eapply wp_value; [unfold get_object, m1; cbn [objects]; by rewrite lookup_insert_eq|].
  apply wp_ret. cbn [_M_p]. eapply wp_value; [unfold deallocate, m1; cbn [blocks]; by rewrite Hb|].
  eapply wp_value; [apply update_object_run; unfold m1; cbn [objects]; apply lookup_insert_eq|].
  unfold m1. cbn [objects blocks _M_string_length _M_union]. rewrite insert_insert_eq.
  apply (HQ new).
  - eexists. cbn [objects]. rewrite lookup_insert_eq. split; [reflexivity|]. done.
  - apply holds_put_here; rewrite ?length_fmap, ?length_replicate; try lia. apply holds_fmap.
  - split; cbn [objects blocks].
    + intros o' Ho. by rewrite lookup_insert_ne.
    + intros b' Hb' _. rewrite lookup_delete_ne; [done|]. intros <-. apply Hb'. eexists. by split.
    + intros b' (st & Es & Hs). cbn [objects] in Es. rewrite lookup_insert_eq in Es. by injection Es as <-.
    + intros b' (st & Es & Hs). rewrite Eo in Es. injection Es as <-. cbn in Hs. injection Hs as <-.
      right. by rewrite lookup_delete_eq.
Qed.

(** A new block that takes over the contents. *)
Lemma wp_to_block o r cs x b ds c m (Q : unit -> memory -> Prop) E :
  view o r (len x) cs m -> content x cs -> blocks m !! b = None -> len ds = c + 1 ->
  len x <= c -> 16 <= c <= string.max_size ->
  (forall cs' m', view o (Block b) (len x) cs' m' -> content x cs' -> len cs' = c + 1 ->
     local_step o m m' -> Q tt m') ->
  wp (p ← string._M_data o;
      _ ← string._S_copy (Pointer (Block b) 0) p (len (x ++ [0]));
      _ ← string._M_dispose o;
      _ ← string._M_data_set o (Pointer (Block b) 0);
      string._M_capacity o c) (with_block b ds m) Q E.
Proof.
  intros Hv Hc Hb Hds Hl Hcap HQ. pose proof (length_app x [0]) as Hlen. cbn [length] in Hlen.
  apply wp_bind. eapply wp_data; [by apply with_block_view|]. apply wp_bind.
  apply wp_copy_new; [done|done|cbn; lia|cbn; lia| |].
  { by apply (view_chars o _ _ _ _ 0 (x ++ [0]) Hv ltac:(lia) Hc). }
  cbn [offset]. set (ds' := cells_put 0 (Some <$> (x ++ [0])) ds).
  assert (len ds' = c + 1) as Hds' by (unfold ds'; rewrite length_put; rewrite ?length_fmap; lia).
  eapply wp_install; [exact Hv|done|done|done|].
  intros m' Hv' Hs'. apply (HQ ds' m' Hv'); [|done|done].
  apply holds_put_here; rewrite ?length_fmap; try lia. apply holds_fmap.
Qed.

(** Contents as before, room for [res] characters. *)
Definition reserved (o : nat) (x : list Z) (res : Z) (m : memory) (_ : unit) (m' : memory) : Prop :=
  local_step o m m' /\ exists r cs, view o r (len x) cs m' /\ content x cs /\ res <= len cs - 1.

Lemma wp_reserve o x res m : string_at o x m -> 0 <= res ->
  wp (string.reserve o res) m (reserved o x res m) (fails (Z.max res (len x)) m).
Proof.
  intros (r & cs & Hv & Hc) Hr. destruct (string_at_room _ _ _ _ _ Hv Hc) as [Hl Hm].
  pose proof (view_size _ _ _ _ _ Hv) as Hsz. sizes.
  unfold string.reserve. apply wp_bind. eapply wp_length; [exact Hv|].
  set (res' := if res <? len x then len x else res).
  assert (res' = Z.max res (len x)) as Hres by (unfold res'; destruct (Z.ltb_spec res (len x)); lia).
  rewrite <-Hres. clearbody res'. apply wp_bind. eapply wp_capacity; [exact Hv|].
  rewrite u32_small by lia. replace (len x + 1) with (len (x ++ [0])) by (rewrite length_app; simpl; lia).
  apply wp_when.
  2: { intros Heq. split; [apply local_step_refl|]. exists r, cs. split; [done|]. split; [done|lia]. }
  intros Hne. unfold _S_local_capacity.
  destruct (Z.ltb_spec (len cs - 1) res') as [Hgt|Hle]; cbn [orb];
    [|destruct (Z.ltb_spec 15 res') as [Hbig|Hsmall]].
  3: { apply wp_bind. eapply wp_is_local; [exact Hv|]. case_bool_decide as Hloc; cbn [negb when].
    - apply wp_ret. split; [apply local_step_refl|]. exists r, cs.
      pose proof (view_local_length _ _ _ _ _ Hv Hloc). split; [done|]. split; [done|lia].
    - destruct (view_not_local _ _ _ _ _ Hv Hloc) as [b ->]. eapply wp_to_local; [exact Hv|done|lia|].
      intros cs' m' Hv' Hc' Hs'. split; [done|]. exists (Local o), cs'.
      pose proof (view_local_length _ _ _ _ _ Hv' eq_refl). split; [done|]. split; [done|lia]. }
  all: apply wp_bind; apply wp_create; [lia|sizes; lia|by intros; split; [|left]|by intros; split; [|right]|].
  all: intros b c Hb Hcap; cbn beta iota; sizes.
  all: eapply wp_to_block; [exact Hv|done|done|rewrite length_replicate; lia|lia|sizes; lia|].
  all: intros cs' m' Hv' Hc' Hl' Hs'; split; [done|]; exists (Block b), cs'; split; [done|split; [done|lia]].
Qed.

Lemma reserved_becomes o x res m u m' : reserved o x res m u m' -> becomes o x m u m'.
Proof. intros (Hs & r & cs & Hv & Hc & _). split; [by exists r, cs|done]. Qed.

(** ** Copy assignment *)

(** Another string is not affected. *)
Lemma view_other o o2 r r' n n' cs cs' r2 n2 cs2 m m' :
  view o r n cs m -> view o r' n' cs' m' -> local_step o m m' -> o2 <> o ->
  view o2 r2 n2 cs2 m -> r2 <> r -> view o2 r2 n2 cs2 m' /\ r2 <> r'.
Proof.
  intros Hv Hv' Hs Hne Hv2 Hr. assert (r2 <> r') as Hr'.
  { intros <-. destruct r2 as [o2'|b].
    - destruct Hv2 as (_ & _ & -> & _). destruct Hv' as (_ & _ & -> & _). done.
    - destruct (step_new _ _ _ Hs b) as [Ho|Hb].
      + by rewrite (view_owns _ _ _ _ _ b Hv').
      + apply (view_owns _ _ _ _ _ b Hv) in Ho. congruence.
      + destruct Hv2 as (_ & _ & _ & Hb2 & _). congruence. }
  split; [|done]. destruct Hv2 as (u & Eo & H2). exists u.
  rewrite (step_objects _ _ _ Hs) by congruence. split; [done|]. destruct r2 as [|b2]; [done|].
  destruct H2 as (Hu & Hb2 & Hl). split; [done|]. split; [|done]. rewrite (step_blocks _ _ _ Hs); [done| |].
  - rewrite (view_owns _ _ _ _ _ b2 Hv). congruence.
  - rewrite (view_owns _ _ _ _ _ b2 Hv'). congruence.
Qed.

(** The end of an assignment: the characters of [o2] go to the front. *)
Lemma wp_take_chars o o2 r r2 n cs cs2 (y : list Z) m m1 (E : std_exn -> memory -> Prop) :
  view o r n cs m1 -> local_step o m m1 -> len y < len cs ->
  view o2 r2 (len y) cs2 m1 -> content y cs2 -> r2 <> r ->
  wp (_ ← when (negb (len y =? 0))
        (p ← string._M_data o; q ← string._M_data o2; string._S_copy p q (len y));
      string._M_set_length o (len y)) m1 (becomes o y m) E.
Proof.
  intros Hv Hs Hl Hv2 Hc2 Hr. unfold content in Hc2. apply holds_app in Hc2 as [Hc2 _]; [|lia].
  apply wp_filled with (n := n). apply wp_when.
  - intros _. apply wp_bind. eapply wp_data; [exact Hv|]. apply wp_bind. eapply wp_data; [exact Hv2|].
    eapply wp_copy_from; [exact Hv|done|done| |cbn; lia|cbn; lia|].
    + by apply (view_chars o2 _ _ _ _ 0 y Hv2 ltac:(lia) Hc2).
    + cbn [offset]. intros m' Hv' Hs'. eexists r, _. split; [exact Hv'|].
      split; [by eapply local_step_trans|]. split; [rewrite length_put; rewrite ?length_fmap; lia|].
      apply holds_put_here; rewrite ?length_fmap; try lia. apply holds_fmap.
  - intros Ez. exists r, cs. split; [done|]. split; [done|]. split; [done|].
    destruct y; [apply holds_nil|simpl in Ez; lia].
Qed.

(** [o] and [o2] are different strings that do not share a block. *)
Lemma wp_M_assign o o2 r2 cs2 x y m : string_at o x m -> o2 <> o ->
  view o2 r2 (len y) cs2 m -> content y cs2 -> ~ (exists b, owns o b m /\ owns o2 b m) ->
  wp (string._M_assign o o2) m (becomes o y m) (fails (len y) m).
Proof.
  intros (r & cs & Hv & Hc) Hne Hv2 Hc2 Huniq.
  destruct (string_at_room _ _ _ _ _ Hv2 Hc2) as [Hl2 Hm2].
  assert (r2 <> r) as Hr.
  { intros ->. destruct r as [o'|b].
    - destruct Hv as (_ & _ & -> & _). destruct Hv2 as (_ & _ & -> & _). done.
    - apply Huniq. exists b. by rewrite (view_owns _ _ _ _ _ b Hv), (view_owns _ _ _ _ _ b Hv2). }
  unfold string._M_assign. destruct (Nat.eqb_spec o o2) as [->|_]; [done|].
  apply wp_bind. eapply wp_length; [exact Hv2|]. apply wp_bind. eapply wp_capacity; [exact Hv|].
  pose proof (view_size _ _ _ _ _ Hv) as Hsz. apply wp_bind. apply wp_when.
  - intros Hgt. apply wp_bind. apply wp_create;
      [lia|lia|by intros; split; [|left]|by intros; split; [|right]|].
    intros b c Hb Hcap. cbn beta iota. sizes.
    eapply wp_install; [exact Hv|done|rewrite length_replicate; lia|sizes; lia|].
    intros m' Hv' Hs'. destruct (view_other _ _ _ _ _ _ _ _ _ _ _ _ _ Hv Hv' Hs' Hne Hv2 Hr) as [Hv2' Hr'].
    eapply wp_take_chars; [exact Hv'|exact Hs'|rewrite length_replicate; lia|exact Hv2'|done|done].
  - intros Hle. eapply wp_take_chars; [exact Hv|apply local_step_refl|lia|exact Hv2|done|done].
Qed.

(** ** Construction *)
Definition born (o : nat) (m : memory) : memory :=
  Memory (<[o := BasicString (Pointer (Local o) 0) 0 (_M_local_buf (replicate 16 None))]> (objects m))
    (blocks m).

Lemma born_view o m : view o (Local o) 0 (replicate 16 None) (born o m).
Proof. eexists. cbn [objects born]. rewrite lookup_insert_eq. by split. Qed.

Lemma born_step o m : objects m !! o = None -> local_step o m (born o m).
Proof.
  intros Hn. assert (forall b, ~ owns o b (born o m)) as Hno.
  { intros b Ho. by apply (view_owns _ _ _ _ _ b (born_view o m)) in Ho. }
  split; [|done| |].
  - intros o' Ho. cbn. by rewrite lookup_insert_ne.
  - intros b Ho. by destruct (Hno b).
  - intros b (s & E & _). congruence.
Qed.

(** An object that has not come to life leaves the memory as it was. *)
Lemma local_step_none o m m' : local_step o m m' -> objects m !! o = None -> objects m' !! o = None ->
  m' = m.
Proof.
  intros [Hob Hbl _ _] Hn Hn'. destruct m as [os bs], m' as [os' bs']. cbn in *. f_equal; apply map_eq.
  - intros o'. destruct (decide (o' = o)) as [->|Hne]; [congruence|by apply Hob].
  - intros b. apply Hbl; intros (s & E & _); cbn in E; congruence.
Qed.

Lemma unborn o m m' : objects m !! o = None -> m' = born o m ->
  Memory (delete o (objects m')) (blocks m') = m.
Proof.
  intros Hn ->. destruct m as [os bs]. cbn in *. f_equal.
  rewrite delete_insert_eq. by apply delete_id.
Qed.

Lemma wp_new_object o body m (Q : unit -> memory -> Prop) (E : std_exn -> memory -> Prop) :
  objects m !! o = None ->
  wp body (born o m) Q (fun e m' => E e (Memory (delete o (objects m')) (blocks m'))) ->
  wp (new_object o body) m Q E.
Proof.
  intros Hn Hw. unfold wp, new_object in *. rewrite Hn. fold (born o m).
  destruct (body (born o m)); done.
Qed.

(** A constructor whose body works on the new object. *)
Lemma wp_constructor o body x n m : objects m !! o = None ->
  wp body (born o m) (becomes o x (born o m)) (fails n (born o m)) ->
  wp (new_object o body) m (becomes o x m) (fails n m).
Proof.
  intros Hn Hw. apply wp_new_object; [done|]. revert Hw. apply wp_mono.
  - intros u m' [Hx Hs]. split; [done|]. eapply local_step_trans; [by apply born_step|done].
  - intros e m' [Hm He]. split; [by apply unborn|done].
Qed.

Lemma wp_install_local o n cs m b ds c (Q : unit -> memory -> Prop) E :
  view o (Local o) n cs m -> blocks m !! b = None -> len ds = c + 1 -> 16 <= c <= string.max_size ->
  (forall m', view o (Block b) n ds m' -> local_step o m m' -> Q tt m') ->
  wp (_ ← string._M_data_set o (Pointer (Block b) 0); string._M_capacity o c) (with_block b ds m) Q E.
Proof.
  intros Hv Hb Hl Hc HQ. pose proof (wp_install o (Local o) n cs m b ds c Q E Hv Hb Hl Hc HQ) as Hw.
  apply wp_bind_inv in Hw. unfold string._M_dispose in Hw. apply wp_bind_inv in Hw.
  pose proof (with_block_view _ _ _ _ _ b ds Hv Hb) as Hv'. destruct Hv' as (u & Eo & _).
  revert Hw. unfold string._M_is_local, string._M_data, wp, mbind, M_bind, get_object. cbn [objects with_block] in Eo |- *.
  rewrite Eo. cbn [mret M_ret _M_p]. unfold string._M_local_data. by rewrite bool_decide_true.
Qed.

(** Room in a new object. *)
Lemma wp_room o n cs k m (Q : unit -> memory -> Prop) :
  view o (Local o) n cs m -> 0 <= k ->
  (forall r cs' m', view o r n cs' m' -> local_step o m m' -> k < len cs' ->
     (forall b, r = Block b -> blocks m !! b = None) -> Q tt m') ->
  wp (when (_S_local_capacity <? k)
        ('(p, c) ← string._M_create k 0; _ ← string._M_data_set o p; string._M_capacity o c)) m Q
    (fails k m).
Proof.
  intros Hv Hk HQ. pose proof (view_local_length _ _ _ _ _ Hv eq_refl) as Hl.
  apply wp_when; unfold _S_local_capacity.
  - intros Hgt. apply wp_bind. apply wp_create;
      [lia|sizes; lia|by intros; split; [|left]|by intros; split; [|right]|].
    intros b c Hb Hc. cbn beta iota. sizes.
    eapply wp_install_local; [exact Hv|done|rewrite length_replicate; lia|sizes; lia|].
    intros m' Hv' Hs'. eapply HQ; [exact Hv'|done|rewrite length_replicate; lia|]. by intros b' [= <-].
  - intros Hle. eapply HQ; [exact Hv|apply local_step_refl|lia|done].
Qed.

Lemma wp_M_construct o n cs s ys m : view o (Local o) n cs m -> chars_at s ys m ->
  in_region s <> Local o -> wp (string._M_construct o (Some s) (len ys)) m (becomes o ys m) (fails (len ys) m).
Proof.
  intros Hv Hc Hs. unfold string._M_construct. rewrite bool_decide_true by done. cbn [negb andb].
  apply wp_bind. eapply wp_room; [exact Hv|lia|]. intros r cs' m' Hv' Hs' Hl Hr.
  apply wp_bind. eapply wp_data; [exact Hv'|]. apply wp_filled with (n := n).
  assert (ys = [] \/ in_region s <> r) as [->|Hsr].
  { destruct ys as [|y ys]; [by left|right]. intros <-.
    destruct (chars_at_cells s (y :: ys) m Hc) as (cs0 & Ec & _); [done|].
    destruct (in_region s) as [o'|b]; cbn in Ec.
    - destruct Hv' as (_ & _ & -> & _). congruence.
    - rewrite (Hr b eq_refl) in Ec. done. }
  - apply wp_value with (x := tt) (m' := m'); [done|]. exists r, cs'.
    split; [done|]. split; [done|]. split; [done|apply holds_nil].
  - eapply wp_copy_from; [exact Hv'|done|done| |cbn; lia|cbn; lia|].
    + by apply (foreign_chars o (Local o) r n cs n cs' m m').
    + cbn [offset]. intros m2 Hv2 Hs2. eexists r, _. split; [exact Hv2|].
      split; [by eapply local_step_trans|]. split; [rewrite length_put; rewrite ?length_fmap; lia|].
      apply holds_put_here; rewrite ?length_fmap; try lia. apply holds_fmap.
Qed.

Lemma wp_M_construct_fill o n cs k c m : view o (Local o) n cs m -> 0 <= k ->
  wp (string._M_construct_fill o k c) m (becomes o (replicate (Z.to_nat k) c) m) (fails k m).
Proof.
  intros Hv Hk. unfold string._M_construct_fill. apply wp_bind. eapply wp_room; [exact Hv|lia|].
  intros r cs' m' Hv' Hs' Hl _. assert (len (replicate (Z.to_nat k) c) = k) as Hlr
    by (rewrite length_replicate; lia).
  replace (string._M_set_length o k) with (string._M_set_length o (len (replicate (Z.to_nat k) c)))
    by (by rewrite Hlr).
  apply wp_filled with (n := n). apply wp_when.
  - intros _. apply wp_bind. eapply wp_data; [exact Hv'|].
    eapply wp_assign_n; [exact Hv'|done|cbn; lia|done|cbn; lia|]. cbn [offset]. intros m2 Hv2 Hs2.
    eexists r, _. split; [exact Hv2|]. split; [by eapply local_step_trans|].
    split; [rewrite length_put; rewrite ?length_fmap; lia|].
    apply holds_put_here; rewrite ?length_fmap; try lia. apply holds_fmap.
  - intros Ez. exists r, cs'. split; [done|]. split; [done|]. split; [lia|].
    assert (k = 0) as -> by lia. apply holds_nil.
Qed.

(** *** Input iterators *)
Lemma wp_construct_local o n ys : forall (xs : list Z) cs m (Q : list Z * Z -> memory -> Prop) E,
  view o (Local o) n cs m -> holds cs 0 xs -> len xs <= 15 ->
  (forall zs rest cs' m', ys = zs ++ rest -> view o (Local o) n cs' m' -> local_step o m m' ->
     holds cs' 0 (xs ++ zs) -> len (xs ++ zs) <= 15 -> Q (rest, len (xs ++ zs)) m') ->
  wp (string.construct_local o ys (len xs)) m Q E.
Proof.
  induction ys as [|y ys IH]; intros xs cs m Q E Hv Hx Hl HQ; cbn [string.construct_local].
  { apply wp_ret. specialize (HQ [] [] cs m eq_refl Hv (local_step_refl o m)).
    rewrite app_nil_r in HQ. by apply HQ. }
  pose proof (view_local_length _ _ _ _ _ Hv eq_refl) as Hcs. unfold _S_local_capacity.
  destruct (Z.ltb_spec (len xs) 15) as [Hlt|Hge].
  - apply wp_bind. eapply wp_data; [exact Hv|]. apply wp_bind.
    eapply wp_put; [exact Hv|done|cbn; lia|cbn; lia|]. cbn [padd offset]. intros m1 Hv1 Hs1.
    replace (len xs + 1) with (len (xs ++ [y])) by (rewrite length_app; simpl; lia).
    eapply IH; [exact Hv1| |rewrite length_app; simpl; lia|].
    + apply holds_app; [lia|]. split.
      * apply holds_put_ne; simpl; try lia. done.
      * apply (holds_put_here (len xs)); simpl; try lia. apply (holds_fmap [y]).
    + intros zs rest cs' m' -> Hv' Hs' Hh Hl'. rewrite <-app_assoc in *.
      eapply (HQ (y :: zs)); [done|exact Hv'|by eapply local_step_trans|done|done].
  - apply wp_ret. specialize (HQ [] (y :: ys) cs m eq_refl Hv (local_step_refl o m)).
    rewrite app_nil_r in HQ. by apply HQ.
Qed.

(** The string under construction when an exception leaves it. *)
Definition abandoned (o : nat) (k : Z) (m : memory) (e : std_exn) (m' : memory) : Prop :=
  (exists r n cs, view o r n cs m') /\ local_step o m m' /\
  (e = length_error /\ string.max_size < k \/ e = bad_alloc /\ new_may_fail).

Lemma wp_enlarge o r n cs (xs : list Z) m (Q : Z -> memory -> Prop) E :
  view o r n cs m -> holds cs 0 xs -> len xs = len cs - 1 ->
  (string.max_size < len xs + 1 -> E length_error m) -> (new_may_fail -> E bad_alloc m) ->
  (forall b cs' m', view o (Block b) n cs' m' -> local_step o m m' -> holds cs' 0 xs ->
     len xs < len cs' - 1 -> Q (len cs' - 1) m') ->
  wp ('(another, cap) ← string._M_create (u32 (len xs + 1)) (len xs);
      p ← string._M_data o;
      _ ← string._S_copy another p (len xs);
      _ ← string._M_dispose o;
      _ ← string._M_data_set o another;
      _ ← string._M_capacity o cap;
      mret cap) m Q E.
Proof.
  intros Hv Hh Hl HE Hm HQ. pose proof (view_size _ _ _ _ _ Hv) as Hsz. sizes.
  rewrite u32_small by lia. apply wp_bind. apply wp_create; [lia|sizes; lia|by sizes|done|].
  intros b c Hb Hc. cbn beta iota. sizes.
  apply wp_bind. eapply wp_data; [by apply with_block_view|]. apply wp_bind.
  apply wp_copy_new; [done|done|cbn; lia|cbn; rewrite length_replicate; lia| |].
  { by apply (view_chars o _ _ _ _ 0 xs Hv ltac:(lia) Hh). }
  cbn [offset]. set (ds := cells_put 0 _ _).
  assert (len ds = c + 1) as Hds.
  { unfold ds. rewrite length_put; rewrite ?length_fmap, length_replicate; lia. }
  apply wp_seq_3. eapply wp_install; [exact Hv|done|done|sizes; lia|]. intros m' Hv' Hs'.
  apply wp_ret. replace c with (len ds - 1) by lia. eapply HQ; [exact Hv'|done| |lia].
  apply holds_put_here; rewrite ?length_fmap, ?length_replicate; try lia. apply holds_fmap.
Qed.

Lemma wp_construct_more o n ys : forall r cs (xs : list Z) m m0,
  view o r n cs m -> local_step o m0 m -> holds cs 0 xs -> len xs <= len cs - 1 ->
  wp (string.construct_more o ys (len xs) (len cs - 1)) m
    (fun k m' => k = len (xs ++ ys) /\ exists r' cs', view o r' n cs' m' /\ local_step o m0 m' /\
       holds cs' 0 (xs ++ ys) /\ len (xs ++ ys) < len cs')
    (abandoned o (len (xs ++ ys)) m0).
Proof.
  induction ys as [|y ys IH]; intros r cs xs m m0 Hv Hs Hh Hl; cbn [string.construct_more].
  { apply wp_ret. rewrite app_nil_r. split; [done|]. exists r, cs. split; [done|]. split; [done|].
    split; [done|lia]. }
  pose proof (view_size _ _ _ _ _ Hv) as Hsz. sizes.
  assert (forall r1 cs1 m1, view o r1 n cs1 m1 -> local_step o m0 m1 -> holds cs1 0 xs ->
    len xs < len cs1 - 1 ->
    wp (p ← string._M_data o; _ ← put_cells (padd p (len xs)) [Some y];
        string.construct_more o ys (u32 (len xs + 1)) (len cs1 - 1)) m1
      (fun k m' => k = len (xs ++ y :: ys) /\ exists r' cs', view o r' n cs' m' /\ local_step o m0 m' /\
         holds cs' 0 (xs ++ y :: ys) /\ len (xs ++ y :: ys) < len cs')
      (abandoned o (len (xs ++ y :: ys)) m0)) as Hput.
  { intros r1 cs1 m1 Hv1 Hs1 Hh1 Hl1. apply wp_bind. eapply wp_data; [exact Hv1|]. apply wp_bind.
    eapply wp_put; [exact Hv1|done|cbn; lia|cbn; lia|]. cbn [padd offset]. intros m2 Hv2 Hs2.
    rewrite u32_small by lia.
    replace (len xs + 1) with (len (xs ++ [y])) by (rewrite length_app; simpl; lia).
    change (y :: ys) with ([y] ++ ys). rewrite app_assoc.
    set (cs2 := cells_put _ _ _) in *.
    assert (length cs2 = length cs1) as L by (apply length_put; simpl; lia). rewrite <-L.
    eapply IH; [exact Hv2|by eapply local_step_trans| |rewrite length_app; simpl; lia].
    apply holds_app; [lia|]. split.
    - apply holds_put_ne; simpl; try lia. done.
    - apply (holds_put_here (len xs)); simpl; try lia. apply (holds_fmap [y]). }
  apply wp_bind. destruct (Z.eqb_spec (len xs) (len cs - 1)) as [Heq|Hne].
  - eapply wp_enlarge; [exact Hv|done|done|..].
    + intros Hlt. split; [by exists r, n, cs|]. split; [done|]. left. split; [done|].
      rewrite length_app. simpl. sizes. lia.
    + intros Hf. split; [by exists r, n, cs|]. split; [done|]. by right.
    + intros b cs1 m1 Hv1 Hs1 Hh1 Hl1. apply (Hput (Block b) cs1); try done. by eapply local_step_trans.
  - apply wp_ret. apply (Hput r cs m); try done. lia.
Qed.

(** ** Destruction *)
Definition destroyed (o : nat) (r : region) (m : memory) : memory :=
  Memory (delete o (objects m)) (blocks (disposed r m)).

Lemma destroyed_step o r n cs m : view o r n cs m ->
  local_step o m (destroyed o r m) /\ objects (destroyed o r m) !! o = None.
Proof.
  intros Hv. assert (objects (destroyed o r m) !! o = None) as Hn by apply lookup_delete_eq.
  split; [|done]. assert (forall b, ~ owns o b (destroyed o r m)) as Hno.
  { intros b (s & E & _). congruence. }
  split.
  - intros o' Ho. cbn. by rewrite lookup_delete_ne.
  - intros b Hb _. rewrite (view_owns _ _ _ _ _ b Hv) in Hb. destruct r as [|b']; [done|].
    cbn. rewrite lookup_delete_ne; [done|congruence].
  - intros b Hb. by destruct (Hno b).
  - intros b Hb. right. apply (view_owns _ _ _ _ _ b Hv) in Hb. subst r. apply lookup_delete_eq.
Qed.

Lemma wp_destroy o r n cs m (Q : unit -> memory -> Prop) E : view o r n cs m ->
  Q tt (destroyed o r m) -> wp (string.destroy o) m Q E.
Proof.
  intros Hv HQ. apply wp_bind. eapply wp_dispose; [exact Hv|].
  assert (objects (disposed r m) = objects m) as Eo by (by destruct r).
  unfold wp, end_object. by rewrite Eo.
Qed.

Lemma wp_new_input o ys m : objects m !! o = None ->
  wp (string.new_input o ys) m (becomes o ys m) (fails (len ys) m).
Proof.
  intros Hn. pose proof (born_view o m) as Hv. pose proof (born_step o m Hn) as Hs.
  apply wp_new_object; [done|]. unfold string._M_construct_input. apply wp_bind.
  eapply (wp_construct_local o 0 ys []); [exact Hv|apply holds_nil|simpl; lia|].
  intros zs rest cs1 m1 -> Hv1 Hs1 Hh1 Hl1. cbn beta iota. cbn [app] in *.
  pose proof (view_local_length _ _ _ _ _ Hv1 eq_refl) as L1.
  apply wp_bind. unfold string.catch.
  pose proof (wp_construct_more o 0 rest (Local o) cs1 zs m1 m Hv1) as Hmore.
  assert (local_step o m m1) as Hs1' by (by eapply local_step_trans).
  specialize (Hmore Hs1' Hh1). rewrite L1 in Hmore. specialize (Hmore ltac:(lia)).
  change (Z.of_nat 16 - 1) with _S_local_capacity in Hmore. unfold wp in Hmore |- *.
  destruct (string.construct_more _ _ _ _ m1) as [k m2|e m2|]; [| |done].
  - destruct Hmore as (-> & r & cs' & Hv' & Hs' & Hh' & Hl'). by apply (wp_finish o r 0 cs').
  - destruct Hmore as ((r & n & cs' & Hv') & Hs' & He).
    apply (wp_bind (string._M_dispose o)). eapply wp_dispose; [exact Hv'|]. apply wp_throw.
    destruct (destroyed_step o r n cs' m2 Hv') as [Hd Hnone]. split; [|done].
    apply (local_step_none o).
    + eapply local_step_trans; [exact Hs'|]. destruct r; exact Hd.
    + done.
    + by destruct r.
Qed.
End Life.
