(* ===== verification/CxxStringWorld.v ===== *)
(** * All strings of a program

    [world α β m]: the live string objects are those of [α] with the contents
    it gives, no two share a block, every block of the free store is owned by
    one of them or is one of the blocks [β] of somebody else.  Each operation
    keeps the world: it changes the contents it is meant to change, the other
    strings and the foreign blocks stay, and no block is leaked or freed
    twice. *)
From S2P Require Import Prelude CxxMemory CxxString CxxStringProps CxxStringOps CxxStringLife.

#[local] Set Default Proof Using "Type*".

Record world (α : gmap nat (list Z)) (β : gmap nat (list cell)) (m : memory) : Prop := World {
  world_objects : forall o, is_Some (objects m !! o) -> is_Some (α !! o);
  world_strings : forall o x, α !! o = Some x -> string_at o x m;
  world_unique : forall o1 o2 b, owns o1 b m -> owns o2 b m -> o1 = o2;
  world_foreign : forall b cs, β !! b = Some cs -> blocks m !! b = Some cs /\ forall o, ~ owns o b m;
  world_blocks : forall b cs, blocks m !! b = Some cs -> β !! b = Some cs \/ exists o, owns o b m }.

(** The objects [os] and the blocks they own have changed. *)
Record group_step (os : list nat) (m m' : memory) : Prop := GroupStep {
  group_objects : forall o, o ∉ os -> objects m' !! o = objects m !! o;
  group_blocks : forall b, (forall o, o ∈ os -> ~ owns o b m) -> (forall o, o ∈ os -> ~ owns o b m') ->
    blocks m' !! b = blocks m !! b;
  group_new : forall o b, o ∈ os -> owns o b m' -> (exists o', o' ∈ os /\ owns o' b m) \/ blocks m !! b = None;
  group_free : forall o b, o ∈ os -> owns o b m -> (exists o', o' ∈ os /\ owns o' b m') \/ blocks m' !! b = None;
  group_unique : forall o1 o2 b, o1 ∈ os -> o2 ∈ os -> owns o1 b m' -> owns o2 b m' -> o1 = o2 }.

Lemma local_group o m m' : local_step o m m' -> group_step [o] m m'.
Proof.
  intros [Ho Hb Hn Hf]. split.
  - intros o' Hne. apply Ho. intros ->. apply Hne. by constructor.
  - intros b H1 H2. apply Hb; [apply H1|apply H2]; by constructor.
  - intros o' b ->%list_elem_of_singleton Hown. destruct (Hn b Hown); [left|by right].
    exists o. split; [by constructor|done].
  - intros o' b ->%list_elem_of_singleton Hown. destruct (Hf b Hown); [left|by right].
    exists o. split; [by constructor|done].
  - intros o1 o2 b ->%list_elem_of_singleton ->%list_elem_of_singleton. done.
Qed.

Lemma owns_same o b m m' : objects m' !! o = objects m !! o -> owns o b m' <-> owns o b m.
Proof. intros E. unfold owns. by rewrite E. Qed.

Lemma string_owned o x b m : string_at o x m -> owns o b m -> exists cs, blocks m !! b = Some cs.
Proof.
  intros (r & cs & Hv & _) Ho. apply (view_owns _ _ _ _ _ b Hv) in Ho as ->.
  destruct Hv as (_ & _ & _ & Hb & _). by exists cs.
Qed.

Section WorldStep.
Context (α α' : gmap nat (list Z)) (β : gmap nat (list cell)) (os : list nat) (m m' : memory).
Context (Hw : world α β m) (Hs : group_step os m m').
Context (Ho : forall o, o ∉ os -> α' !! o = α !! o).
Context (Hc : forall o, o ∈ os ->
  match α' !! o with Some x => string_at o x m' | None => objects m' !! o = None end).

Lemma owner_exists o b : owns o b m -> exists cs, blocks m !! b = Some cs.
Proof.
  intros Hown. destruct (world_objects _ _ _ Hw o) as [x Hx].
  { destruct Hown as (s & E & _). by exists s. }
  by apply (string_owned o x); [apply (world_strings _ _ _ Hw)|].
Qed.

(** A block of an object outside of the group is not touched. *)
Lemma outside_block o b : o ∉ os -> owns o b m -> forall o', o' ∈ os -> ~ owns o' b m /\ ~ owns o' b m'.
Proof.
  intros Hno Hown o' Hin. assert (forall o2, o2 ∈ os -> ~ owns o2 b m) as Hn.
  { intros o2 H2 Hown2. apply Hno. by rewrite (world_unique _ _ _ Hw o o2 b Hown Hown2). }
  split; [by apply Hn|]. intros Hown'. destruct (group_new _ _ _ Hs o' b Hin Hown') as [(o2 & H2 & H3)|E].
  - by apply (Hn o2).
  - destruct (owner_exists o b Hown) as [cs Hcs]. congruence.
Qed.

Lemma outside_string o x : o ∉ os -> string_at o x m -> string_at o x m'.
Proof.
  intros Hno (r & cs & Hv & Hx). exists r, cs. split; [|done]. pose proof Hv as (u & E & Hr).
  exists u. rewrite (group_objects _ _ _ Hs) by done. split; [done|]. destruct r as [|b]; [done|].
  destruct Hr as (Hu & Hb & Hl). split; [done|]. split; [|done].
  assert (owns o b m) as Hown by (by apply (view_owns _ _ _ _ _ b Hv)).
  rewrite (group_blocks _ _ _ Hs); [done| |]; intros o' Hin; by apply (outside_block o b Hno Hown o').
Qed.

Lemma world_step : world α' β m'.
Proof.
  split.
  - intros o [s E]. destruct (decide (o ∈ os)) as [Hin|Hno].
    + specialize (Hc o Hin). destruct (α' !! o); [done|congruence].
    + rewrite Ho by done. apply (world_objects _ _ _ Hw). exists s.
      by rewrite <-(group_objects _ _ _ Hs).
  - intros o x Hx. destruct (decide (o ∈ os)) as [Hin|Hno].
    + specialize (Hc o Hin). by rewrite Hx in Hc.
    + apply outside_string; [done|]. apply (world_strings _ _ _ Hw). by rewrite <-Ho.
  - assert (forall o1 o2 b, o1 ∉ os -> owns o1 b m' -> owns o2 b m' -> o1 = o2) as Hout.
    { intros o1 o2 b Hno H1 H2. rewrite (owns_same _ _ m m') in H1 by (by apply (group_objects _ _ _ Hs)).
      destruct (decide (o2 ∈ os)) as [Hin|Hno2].
      - by destruct (outside_block o1 b Hno H1 o2 Hin) as [_ Hn].
      - rewrite (owns_same _ _ m m') in H2 by (by apply (group_objects _ _ _ Hs)).
        by apply (world_unique _ _ _ Hw o1 o2 b). }
    intros o1 o2 b H1 H2. destruct (decide (o1 ∈ os)) as [Hin1|Hno1]; [|by apply (Hout o1 o2 b)].
    destruct (decide (o2 ∈ os)) as [Hin2|Hno2]; [|symmetry; by apply (Hout o2 o1 b)].
    by apply (group_unique _ _ _ Hs o1 o2 b).
  - intros b cs Hb. destruct (world_foreign _ _ _ Hw b cs Hb) as [Hm Hno].
    assert (forall o, o ∈ os -> ~ owns o b m') as Hno'.
    { intros o Hin Hown. destruct (group_new _ _ _ Hs o b Hin Hown) as [(o2 & _ & H2)|E].
      - by apply (Hno o2).
      - congruence. }
    split; [by rewrite (group_blocks _ _ _ Hs) by auto|]. intros o Hown.
    destruct (decide (o ∈ os)) as [Hin|Hno2]; [by apply (Hno' o)|].
    rewrite (owns_same _ _ m m') in Hown by (by apply (group_objects _ _ _ Hs)). by apply (Hno o).
  - intros b cs Hb. assert ({o | o ∈ os /\ owns o b m'} + {forall o, o ∈ os -> ~ owns o b m'}) as [[o [_ ?]]|Hn'].
    { clear. induction os as [|o l IH]; [right; intros o Ho; by apply not_elem_of_nil in Ho|].
      destruct (owns_dec o b m') as [Hown|Hn]; [left; exists o; split; [by constructor|done]|].
      destruct IH as [[o2 [Hin Hown]]|Hall]; [left; exists o2; split; [by constructor|done]|].
      right. intros o2 [->|Hin]%elem_of_cons; [done|by apply Hall]. }
    { right. by exists o. }
    assert (forall o, o ∈ os -> ~ owns o b m) as Hn.
    { intros o Hin Hown. destruct (group_free _ _ _ Hs o b Hin Hown) as [(o2 & H2 & H3)|E].
      - by apply (Hn' o2).
      - congruence. }
    rewrite (group_blocks _ _ _ Hs) in Hb by done.
    destruct (world_blocks _ _ _ Hw b cs Hb) as [Hf|[o Hown]]; [by left|right]. exists o.
    assert (o ∉ os) as Hno by (intros Hin; by apply (Hn o)).
    by rewrite (owns_same _ _ m m') by (by apply (group_objects _ _ _ Hs)).
Qed.
End WorldStep.
