(* ===== verification/CxxStringMove.v ===== *)
(** * Exchanging and moving strings

    [swap], the move constructor and the move assignment hand blocks from one
    object to another; in between two objects point to the same block.  They
    are followed step by step on the two objects. *)
From S2P Require Import Prelude CxxMemory CxxString CxxStringProps CxxStringOps CxxStringLife.
From S2P Require Import CxxStringWorld.

#[local] Set Default Proof Using "Type*".

(** The memory in which the objects [o1] and [o2] are [a] and [b]. *)
Definition pair_at (o1 o2 : nat) (a b : basic_string) (m : memory) : memory :=
  Memory (<[o1 := a]> (<[o2 := b]> (objects m))) (blocks m).

Lemma pair_at_id o1 o2 a b m : objects m !! o1 = Some a -> objects m !! o2 = Some b ->
  pair_at o1 o2 a b m = m.
Proof.
  intros H1 H2. destruct m as [os bs]. unfold pair_at. cbn in *. f_equal.
  rewrite (insert_id os o2) by done. by apply insert_id.
Qed.

Lemma get_whole cs p m' : region_cells (in_region p) m' = Some cs -> length cs = 16%nat -> offset p = 0 ->
  get_cells p 16 m' = Val cs m'.
Proof.
  intros Hr Hl Hp. rewrite (get_cells_run _ _ cs) by (done || lia). rewrite Hp. f_equal.
  unfold cells_get. cbn [Z.to_nat drop]. apply take_ge. rewrite Hl. vm_compute. lia.
Qed.

Lemma put_whole ds cs : length ds = 16%nat -> length cs = 16%nat -> cells_put 0 ds cs = ds.
Proof.
  intros H1 H2. unfold cells_put. cbn [Z.to_nat take app]. rewrite drop_ge by lia. apply app_nil_r.
Qed.
Section Pair.
Context (o1 o2 : nat) (m : memory) (Hne : o1 <> o2).
Implicit Types a b : basic_string.

Lemma pair_1 a b : objects (pair_at o1 o2 a b m) !! o1 = Some a.
Proof. apply lookup_insert_eq. Qed.
Lemma pair_2 a b : objects (pair_at o1 o2 a b m) !! o2 = Some b.
Proof. cbn. rewrite lookup_insert_ne by done. apply lookup_insert_eq. Qed.

Lemma pair_get_1 a b : get_object o1 (pair_at o1 o2 a b m) = Val a (pair_at o1 o2 a b m).
Proof. unfold get_object. by rewrite pair_1. Qed.
Lemma pair_get_2 a b : get_object o2 (pair_at o1 o2 a b m) = Val b (pair_at o1 o2 a b m).
Proof. unfold get_object. by rewrite pair_2. Qed.

Lemma pair_update_1 f a b :
  update_object f o1 (pair_at o1 o2 a b m) = Val tt (pair_at o1 o2 (f a) b m).
Proof.
  unfold update_object. rewrite pair_1. unfold pair_at. cbn [objects blocks].
  by rewrite insert_insert_eq.
Qed.
Lemma pair_update_2 f a b :
  update_object f o2 (pair_at o1 o2 a b m) = Val tt (pair_at o1 o2 a (f b) m).
Proof.
  unfold update_object. rewrite pair_2. unfold pair_at. cbn [objects blocks]. do 2 f_equal.
  rewrite (insert_insert_ne _ o2 o1) by done. by rewrite insert_insert_eq.
Qed.

Definition local (cs : list cell) (s : basic_string) : basic_string :=
  BasicString (_M_p s) (_M_string_length s) (_M_local_buf cs).

Lemma pair_cells_1 a b : region_cells (Local o1) (pair_at o1 o2 a b m) = Some (union_cells (_M_union a)).
Proof. cbn [region_cells]. by rewrite pair_1. Qed.
Lemma pair_cells_2 a b : region_cells (Local o2) (pair_at o1 o2 a b m) = Some (union_cells (_M_union b)).
Proof. cbn [region_cells]. by rewrite pair_2. Qed.

Lemma pair_set_1 cs a b : set_region (Local o1) cs (pair_at o1 o2 a b m) = pair_at o1 o2 (local cs a) b m.
Proof. unfold pair_at. cbn [set_region objects blocks]. f_equal. by rewrite alter_insert_eq. Qed.
Lemma pair_set_2 cs a b : set_region (Local o2) cs (pair_at o1 o2 a b m) = pair_at o1 o2 a (local cs b) m.
Proof.
  unfold pair_at. cbn [set_region objects blocks]. f_equal.
  rewrite alter_insert_ne by done. by rewrite alter_insert_eq.
Qed.

(** Writing the local buffers. *)
Lemma pair_put_1 i ds a b : 0 <= i -> i + len ds <= len (union_cells (_M_union a)) ->
  put_cells (Pointer (Local o1) i) ds (pair_at o1 o2 a b m) =
    Val tt (pair_at o1 o2 (local (cells_put i ds (union_cells (_M_union a))) a) b m).
Proof.
  intros Hi Hl. rewrite (put_cells_run _ _ (union_cells (_M_union a))) by (done || apply pair_cells_1).
  cbn [in_region offset]. by rewrite pair_set_1.
Qed.
Lemma pair_put_2 i ds a b : 0 <= i -> i + len ds <= len (union_cells (_M_union b)) ->
  put_cells (Pointer (Local o2) i) ds (pair_at o1 o2 a b m) =
    Val tt (pair_at o1 o2 a (local (cells_put i ds (union_cells (_M_union b))) b) m).
Proof.
  intros Hi Hl. rewrite (put_cells_run _ _ (union_cells (_M_union b))) by (done || apply pair_cells_2).
  cbn [in_region offset]. by rewrite pair_set_2.
Qed.

End Pair.

Lemma content_nil cs (x : list Z) : (0 < length cs)%nat -> len x = 0 -> content x (cells_put 0 [Some 0] cs).
Proof.
  intros Hl Hx. assert (x = []) as -> by (destruct x; [done|simpl in Hx; lia]).
  apply holds_put_here; simpl; try lia. apply (holds_fmap [0]).
Qed.

Definition shape (o : nat) (r : region) (u : union) (cs : list cell) (m : memory) : Prop :=
  match r with
  | Local o' => o' = o /\ u = _M_local_buf cs /\ length cs = 16%nat
  | Block b => u = _M_allocated_capacity (len cs - 1) /\
      blocks m !! b = Some cs /\ 16 < len cs <= string.max_size + 1
  end.

Lemma view_shape o r n cs m : view o r n cs m <->
  exists u, objects m !! o = Some (BasicString (Pointer r 0) n u) /\ shape o r u cs m.
Proof. done. Qed.

(** The same blocks in the hands of the two objects. *)
Lemma pair_group o1 o2 r1 r2 n1 n2 cs1 cs2 ra rb na nb ua ub m m' : o1 <> o2 ->
  view o1 r1 n1 cs1 m -> view o2 r2 n2 cs2 m ->
  objects m' = objects (pair_at o1 o2 (BasicString (Pointer ra 0) na ua) (BasicString (Pointer rb 0) nb ub) m) ->
  (forall b, r1 <> Block b -> r2 <> Block b -> blocks m' !! b = blocks m !! b) ->
  (forall b, ra = Block b \/ rb = Block b <-> r1 = Block b \/ r2 = Block b) ->
  (forall b, ra = Block b -> rb <> Block b) ->
  group_step [o1; o2] m m'.
Proof.
  intros Hne H1 H2 Eo Hb Hr Hd.
  assert (forall b, owns o1 b m' <-> ra = Block b) as Ow1.
  { intros b. unfold owns. rewrite Eo, pair_1 by done. split; [intros (s & Es & E); by injection Es as <-|].
    intros ->. by eexists. }
  assert (forall b, owns o2 b m' <-> rb = Block b) as Ow2.
  { intros b. unfold owns. rewrite Eo, pair_2 by done. split; [intros (s & Es & E); by injection Es as <-|].
    intros ->. by eexists. }
  pose proof (fun b => view_owns _ _ _ _ _ b H1) as Ov1.
  pose proof (fun b => view_owns _ _ _ _ _ b H2) as Ov2.
  assert (o1 ∈ [o1; o2]) as I1 by constructor. assert (o2 ∈ [o1; o2]) as I2 by (by repeat constructor).
  split.
  - intros o [Hn1 Hn]%not_elem_of_cons. apply not_elem_of_cons in Hn as [Hn2 _].
    rewrite Eo. cbn. by rewrite !lookup_insert_ne by congruence.
  - intros b Hn _. apply Hb; [rewrite <-Ov1|rewrite <-Ov2]; by apply Hn.
  - intros o b Hin Hown. left.
    assert (ra = Block b \/ rb = Block b) as HE.
    { apply elem_of_cons in Hin as [-> | ->%list_elem_of_singleton]; [left; by apply Ow1|right; by apply Ow2]. }
    apply Hr in HE as [E|E].
    + exists o1. split; [done|by apply Ov1].
    + exists o2. split; [done|by apply Ov2].
  - intros o b Hin Hown. left.
    assert (r1 = Block b \/ r2 = Block b) as HE.
    { apply elem_of_cons in Hin as [-> | ->%list_elem_of_singleton]; [left; by apply Ov1|right; by apply Ov2]. }
    apply Hr in HE as [E|E].
    + exists o1. split; [done|by apply Ow1].
    + exists o2. split; [done|by apply Ow2].
  - intros p q b Hp Hq Op Oq.
    apply elem_of_cons in Hp as [-> | ->%list_elem_of_singleton];
      apply elem_of_cons in Hq as [-> | ->%list_elem_of_singleton]; try done;
      apply Ow1 in Op || apply Ow2 in Op; apply Ow1 in Oq || apply Ow2 in Oq; by destruct (Hd b).
Qed.

Ltac pair_step :=
  lazymatch goal with
  | |- wp (mret _) _ _ _ => apply wp_ret
  | |- wp (mbind _ _) _ _ _ => apply wp_bind
  | |- wp (get_object _) _ _ _ =>
      eapply wp_value; [first [apply pair_get_1 | apply pair_get_2]; assumption|]
  | |- wp (update_object _ _) _ _ _ =>
      eapply wp_value; [first [apply pair_update_1 | apply pair_update_2]; assumption|]
  end; cbn [_M_p _M_string_length _M_union local].

Section Swap.
Context `{OperatorNew} (o1 o2 : nat) (m : memory) (Hne : o1 <> o2).

Lemma wp_copy_local_12 a b (Q : unit -> memory -> Prop) E :
  length (union_cells (_M_union a)) = 16%nat -> length (union_cells (_M_union b)) = 16%nat ->
  Q tt (pair_at o1 o2 (local (union_cells (_M_union b)) a) b m) ->
  wp (string.copy_local o1 o2) (pair_at o1 o2 a b m) Q E.
Proof.
  intros La Lb HQ. unfold string.copy_local, traits.copy, string._M_local_data.
  change (_S_local_capacity + 1 =? 0) with false. cbn iota.
  assert (traits.disjoint (Pointer (Local o1) 0) (Pointer (Local o2) 0) (_S_local_capacity + 1) = true) as ->.
  { unfold traits.disjoint. cbn [in_region]. rewrite bool_decide_false by congruence. done. }
  apply wp_bind. eapply wp_value; [by apply get_whole; [apply pair_cells_2| |]|].
  eapply wp_value; [apply pair_put_1; [done|lia|lia]|]. by rewrite put_whole.
Qed.

Lemma wp_copy_local_21 a b (Q : unit -> memory -> Prop) E :
  length (union_cells (_M_union a)) = 16%nat -> length (union_cells (_M_union b)) = 16%nat ->
  Q tt (pair_at o1 o2 a (local (union_cells (_M_union a)) b) m) ->
  wp (string.copy_local o2 o1) (pair_at o1 o2 a b m) Q E.
Proof.
  intros La Lb HQ. unfold string.copy_local, traits.copy, string._M_local_data.
  change (_S_local_capacity + 1 =? 0) with false. cbn iota.
  assert (traits.disjoint (Pointer (Local o2) 0) (Pointer (Local o1) 0) (_S_local_capacity + 1) = true) as ->.
  { unfold traits.disjoint. cbn [in_region]. rewrite bool_decide_false by congruence. done. }
  apply wp_bind. eapply wp_value; [by apply get_whole; [apply pair_cells_1| |]|].
  eapply wp_value; [apply pair_put_2; [done|lia|lia]|]. by rewrite put_whole.
Qed.

(** What [swap] leads to: the two representations have changed places. *)
Definition swapped (r1 r2 : region) (x1 x2 : list Z) (_ : unit) (m' : memory) : Prop :=
  exists ra rb ua ub cs1 cs2,
    m' = pair_at o1 o2 (BasicString (Pointer ra 0) (len x2) ua) (BasicString (Pointer rb 0) (len x1) ub) m /\
    shape o1 ra ua cs2 m /\ shape o2 rb ub cs1 m /\ content x1 cs1 /\ content x2 cs2 /\
    (forall b, ra = Block b <-> r2 = Block b) /\ (forall b, rb = Block b <-> r1 = Block b).

#[local] Ltac enter :=
  unfold string.swap; destruct (Nat.eqb_spec o1 o2) as [|_]; [done|];
  unfold string.swap_lengths, string._M_set_length, string._M_is_local, string._M_data, string.length,
    string._M_allocated_capacity, string._M_length, string._M_data_set, string._M_capacity,
    string._M_local_data, traits.assign;
  repeat pair_step; repeat first [rewrite bool_decide_true by done | rewrite bool_decide_false by congruence]; cbn iota.

Lemma wp_swap_local (x1 x2 : list Z) cs1 cs2 E :
  length cs1 = 16%nat -> length cs2 = 16%nat -> content x1 cs1 -> content x2 cs2 ->
  wp (string.swap o1 o2)
    (pair_at o1 o2 (BasicString (Pointer (Local o1) 0) (len x1) (_M_local_buf cs1))
       (BasicString (Pointer (Local o2) 0) (len x2) (_M_local_buf cs2)) m)
    (swapped (Local o1) (Local o2) x1 x2) E.
Proof.
  intros L1 L2 C1 C2. enter.
  destruct (Z.eqb_spec (len x1) 0) as [E1|N1], (Z.eqb_spec (len x2) 0) as [E2|N2]; cbn [negb andb].
  - repeat pair_step.
    assert (x1 = [] /\ x2 = []) as [-> ->] by (destruct x1, x2; simpl in *; try lia; done).
    exists (Local o1), (Local o2), (_M_local_buf cs1), (_M_local_buf cs2), cs2, cs1. by splits.
  - apply wp_bind. apply wp_copy_local_12; [done|done|]. cbn [union_cells _M_union local].
    repeat pair_step. eapply wp_value; [apply pair_put_2; [done|cbn; lia|cbn; rewrite L2; cbn; lia]|].
    eexists (Local o1), (Local o2), _, _, _, _. split; [rewrite E1; reflexivity|].
    split; [by splits|]. split; [split; [done|]; split; [reflexivity|]; by rewrite length_put by (simpl; lia)|].
    split; [apply content_nil; [cbn; lia|done]|]. by split.
  - apply wp_bind. apply wp_copy_local_21; [done|done|]. cbn [union_cells _M_union local].
    repeat pair_step. eapply wp_value; [apply pair_put_1; [done|cbn; lia|cbn; rewrite L1; cbn; lia]|].
    eexists (Local o1), (Local o2), _, _, _, _. split; [rewrite E2; reflexivity|].
    split; [split; [done|]; split; [reflexivity|]; by rewrite length_put by (simpl; lia)|].
    split; [by splits|]. split; [done|]. split; [apply content_nil; [cbn; lia|done]|]. done.
  - apply wp_bind. eapply wp_value; [apply get_whole; [by apply pair_cells_2|done|done]|].
    apply wp_bind. apply wp_copy_local_21; [done|done|]. cbn [union_cells _M_union local].
    apply wp_bind. eapply wp_value; [apply pair_put_1; [done|cbn; lia|cbn; lia]|].
    cbn [union_cells _M_union local]. rewrite put_whole by done. repeat pair_step.
    by eexists (Local o1), (Local o2), _, _, cs1, cs2.
Qed.

Lemma wp_swap_12 (x1 x2 : list Z) b2 cs1 cs2 E :
  length cs1 = 16%nat -> shape o2 (Block b2) (_M_allocated_capacity (len cs2 - 1)) cs2 m ->
  content x1 cs1 -> content x2 cs2 ->
  wp (string.swap o1 o2)
    (pair_at o1 o2 (BasicString (Pointer (Local o1) 0) (len x1) (_M_local_buf cs1))
       (BasicString (Pointer (Block b2) 0) (len x2) (_M_allocated_capacity (len cs2 - 1))) m)
    (swapped (Local o1) (Block b2) x1 x2) E.
Proof.
  intros L1 H2 C1 C2. enter. do 4 pair_step. apply wp_bind. apply wp_copy_local_21; [done|done|].
  cbn [union_cells _M_union local]. repeat pair_step.
  eexists (Block b2), (Local o2), _, _, cs1, cs2. split; [reflexivity|]. by splits.
Qed.

Lemma wp_swap_21 (x1 x2 : list Z) b1 cs1 cs2 E :
  shape o1 (Block b1) (_M_allocated_capacity (len cs1 - 1)) cs1 m -> length cs2 = 16%nat ->
  content x1 cs1 -> content x2 cs2 ->
  wp (string.swap o1 o2)
    (pair_at o1 o2 (BasicString (Pointer (Block b1) 0) (len x1) (_M_allocated_capacity (len cs1 - 1)))
       (BasicString (Pointer (Local o2) 0) (len x2) (_M_local_buf cs2)) m)
    (swapped (Block b1) (Local o2) x1 x2) E.
Proof.
  intros H1 L2 C1 C2. enter. do 4 pair_step. apply wp_bind. apply wp_copy_local_12; [done|done|].
  cbn [union_cells _M_union local]. repeat pair_step.
  eexists (Local o1), (Block b1), _, _, cs1, cs2. split; [reflexivity|]. by splits.
Qed.

Lemma wp_swap_blocks (x1 x2 : list Z) b1 b2 cs1 cs2 E :
  shape o1 (Block b1) (_M_allocated_capacity (len cs1 - 1)) cs1 m ->
  shape o2 (Block b2) (_M_allocated_capacity (len cs2 - 1)) cs2 m -> content x1 cs1 -> content x2 cs2 ->
  wp (string.swap o1 o2)
    (pair_at o1 o2 (BasicString (Pointer (Block b1) 0) (len x1) (_M_allocated_capacity (len cs1 - 1)))
       (BasicString (Pointer (Block b2) 0) (len x2) (_M_allocated_capacity (len cs2 - 1))) m)
    (swapped (Block b1) (Block b2) x1 x2) E.
Proof.
  intros H1 H2 C1 C2. enter. repeat pair_step.
  eexists (Block b2), (Block b1), _, _, cs1, cs2. split; [reflexivity|]. by splits.
Qed.

Lemma wp_swap r1 r2 (x1 x2 : list Z) cs1 cs2 E :
  view o1 r1 (len x1) cs1 m -> view o2 r2 (len x2) cs2 m -> content x1 cs1 -> content x2 cs2 ->
  wp (string.swap o1 o2) m (swapped r1 r2 x1 x2) E.
Proof.
  intros (u1 & E1 & H1) (u2 & E2 & H2) C1 C2.
  rewrite <-(pair_at_id o1 o2 _ _ m E1 E2) at 1.
  destruct r1 as [o1'|b1], r2 as [o2'|b2]; cbn iota in H1, H2; destruct H1 as (-> & H1), H2 as (-> & H2);
    try destruct H1 as (-> & L1); try destruct H2 as (-> & L2).
  - by apply wp_swap_local.
  - by apply wp_swap_12.
  - by apply wp_swap_21.
  - by apply wp_swap_blocks.
Qed.
End Swap.

(** ** Moving *)

(** [o1] has the characters [y], [o2] is empty; nothing else has changed. *)
Definition moved (o1 o2 : nat) (y : list Z) (m m' : memory) : Prop :=
  group_step [o1; o2] m m' /\ string_at o1 y m' /\ string_at o2 [] m'.

Lemma shape_string o r u cs (x : list Z) m : objects m !! o = Some (BasicString (Pointer r 0) (len x) u) ->
  shape o r u cs m -> content x cs -> string_at o x m.
Proof. intros E Hs Hc. exists r, cs. split; [|done]. by exists u. Qed.

Lemma shape_objects o r u cs m m' : blocks m' = blocks m -> shape o r u cs m -> shape o r u cs m'.
Proof. intros E. destruct r; cbn [shape]; [done|]. by rewrite E. Qed.

(** Emptying the second object, whatever length it claims. *)
Lemma wp_pair_clear o1 o2 a r n u cs m (Q : unit -> memory -> Prop) E : o1 <> o2 ->
  match r with Local o => o = o2 /\ union_cells u = cs /\ length cs = 16%nat
  | Block b => u = _M_allocated_capacity (len cs - 1) /\ blocks m !! b = Some cs /\
      16 < len cs <= string.max_size + 1 end ->
  (forall u' m', objects m' = objects m -> shape o2 r u' (cells_put 0 [Some 0] cs) m' ->
     (forall b, r <> Block b -> blocks m' !! b = blocks m !! b) ->
     Q tt (pair_at o1 o2 a (BasicString (Pointer r 0) 0 u') m')) ->
  wp (string._M_set_length o2 0) (pair_at o1 o2 a (BasicString (Pointer r 0) n u) m) Q E.
Proof.
  intros Hne Hr HQ. unfold string._M_set_length, string._M_length, string._M_data, traits.assign.
  repeat pair_step. unfold padd. cbn [in_region offset]. rewrite Z.add_0_r.
  destruct r as [o|b].
  - destruct Hr as (-> & Hu & Hl).
    eapply wp_value; [apply pair_put_2; [done|lia|cbn [_M_union]; rewrite Hu, Hl; cbn; lia]|].
    unfold local. cbn [_M_p _M_string_length _M_union]. apply HQ; [done| |done].
    rewrite Hu. split; [done|]. split; [done|]. rewrite length_put; [done|simpl; lia].
  - destruct Hr as (-> & Hb & Hl). eapply wp_value; [apply put_cells_run; [exact Hb|cbn; lia|cbn; lia]|].
    cbn [set_region in_region offset]. set (m' := Memory (objects m) (<[b := cells_put 0 [Some 0] cs]> (blocks m))).
    change (Q tt (pair_at o1 o2 a (BasicString (Pointer (Block b) 0) 0 (_M_allocated_capacity (len cs - 1))) m')).
    assert (length (cells_put 0 [Some 0] cs) = length cs) as L by (apply length_put; simpl; lia).
    apply HQ; [done| |].
    + cbn [shape]. rewrite L. split; [done|]. unfold m'. cbn [blocks]. by rewrite lookup_insert_eq.
    + intros b' Hb'. unfold m'. cbn [blocks]. rewrite lookup_insert_ne; congruence.
Qed.

Lemma pair_moved o1 o2 r1 n1 cs1 r2 n2 cs2 (y : list Z) ra ua csy rb ub cse m m1 : o1 <> o2 ->
  view o1 r1 n1 cs1 m -> view o2 r2 n2 cs2 m -> objects m1 = objects m ->
  shape o1 ra ua csy m1 -> content y csy -> shape o2 rb ub cse m1 -> content [] cse ->
  (forall b, r1 <> Block b -> r2 <> Block b -> blocks m1 !! b = blocks m !! b) ->
  (forall b, ra = Block b \/ rb = Block b <-> r1 = Block b \/ r2 = Block b) ->
  (forall b, ra = Block b -> rb <> Block b) ->
  moved o1 o2 y m
    (pair_at o1 o2 (BasicString (Pointer ra 0) (len y) ua) (BasicString (Pointer rb 0) 0 ub) m1).
Proof.
  intros Hne H1 H2 Eo Sy Cy Se Ce Hb Hr Hd. split; [|split].
  - eapply (pair_group o1 o2 r1 r2); [done|exact H1|exact H2| |done|done|done].
    cbn [objects pair_at]. by rewrite Eo.
  - eapply (shape_string _ ra ua csy); [by apply pair_1|by apply (shape_objects _ _ _ _ m1)|done].
  - eapply (shape_string _ rb ub cse); [by apply pair_2|by apply (shape_objects _ _ _ _ m1)|done].
Qed.

Lemma content_cleared (cs : list cell) : (0 < length cs)%nat -> content [] (cells_put 0 [Some 0] cs).
Proof. intros. by apply content_nil. Qed.

Section Move.
Context `{OperatorNew} (o1 o2 : nat) (m : memory) (Hne : o1 <> o2).

#[local] Ltac enter :=
  unfold string._M_is_local, string._M_data, string.length,
    string._M_allocated_capacity, string._M_length, string._M_data_set, string._M_capacity,
    string._M_local_data;
  repeat pair_step; repeat first [rewrite bool_decide_true by done | rewrite bool_decide_false by congruence]; cbn iota.

(** A string with a block hands it over and gets the old one, if any. *)
Lemma wp_assign_move b r1 n1 cs1 (y : list Z) cs2 E :
  view o1 r1 n1 cs1 m -> view o2 (Block b) (len y) cs2 m -> content y cs2 -> r1 <> Block b ->
  wp (string.assign_move o1 o2) m (fun _ => moved o1 o2 y m) E.
Proof.
  intros V1 V2 Cy Hr. pose proof V1 as (u1 & E1 & H1). pose proof V2 as (u2 & E2 & H2).
  rewrite <-(pair_at_id o1 o2 _ _ m E1 E2) at 1. cbn iota in H2.
  unfold string.assign_move, string.clear. destruct H2 as (-> & H2). enter. repeat pair_step.
  destruct r1 as [o'|b1]; cbn iota in H1.
  - destruct H1 as (-> & -> & L1). rewrite bool_decide_true by done. repeat pair_step.
    eapply (wp_pair_clear _ _ _ (Local o2) _ _ (replicate 16 None)); [done|by splits|].
    intros u' m' Eo Hs Hb. eapply (pair_moved o1 o2 (Local o1) n1 cs1 (Block b) (len y) cs2 y
      (Block b) _ cs2 (Local o2) u' _ m m'); try done.
    + cbn [shape]. split; [done|]. by rewrite Hb.
    + apply content_cleared. rewrite length_replicate. lia.
    + intros b' _ _. by apply Hb.
    + intros b'. split; intros [?|?]; by auto.
  - destruct H1 as (-> & H1). rewrite bool_decide_false by congruence. repeat pair_step.
    eapply (wp_pair_clear _ _ _ (Block b1) _ _ cs1); [done|done|].
    intros u' m' Eo Hs Hb. eapply (pair_moved o1 o2 (Block b1) n1 cs1 (Block b) (len y) cs2 y
      (Block b) _ cs2 (Block b1) u' _ m m'); try done.
    + cbn [shape]. split; [done|]. by rewrite Hb.
    + apply content_cleared. lia.
    + intros b' ? _. by apply Hb.
    + intros b'. split; intros [?|?]; by auto.
    + intros b' [= <-] [= <-]. done.
Qed.

(** The new object [o1] is in the state its constructor starts from. *)
Lemma wp_new_move r2 (y : list Z) cs2 (Q : unit -> memory -> Prop) (E : std_exn -> memory -> Prop) :
  objects m !! o1 = None -> view o2 r2 (len y) cs2 m -> content y cs2 ->
  (forall m', moved o1 o2 y (born o1 m) m' -> Q tt m') ->
  wp (string.new_move o1 o2) m Q E.
Proof.
  intros Hn V2' Cy HQ. apply wp_new_object; [done|].
  apply wp_mono with (Q := fun _ => moved o1 o2 y (born o1 m)) (E := fun _ _ => False);
    [intros []; apply HQ|done|]. clear HQ.
  pose proof (born_view o1 m) as V1. set (m0 := born o1 m) in *.
  assert (view o2 r2 (len y) cs2 m0) as V2.
  { destruct V2' as (u2 & E2 & H2). exists u2. cbn. by rewrite lookup_insert_ne. }
  clearbody m0. clear V2' Hn. pose proof V1 as (u1 & E1 & H1). pose proof V2 as (u2 & E2 & H2).
  rewrite <-(pair_at_id o1 o2 _ _ m0 E1 E2) at 1. destruct H1 as (_ & -> & L1).
  destruct r2 as [o'|b]; cbn iota in H2.
  - destruct H2 as (-> & -> & L2). enter.
    apply (wp_copy_local_12 o1 o2 m0 Hne); [done|done|]. cbn [union_cells _M_union local].
    repeat pair_step. eapply (wp_pair_clear _ _ _ (Local o2) _ _ cs2); [done|done|].
    intros u' m' Eo Hs Hb. eapply (pair_moved o1 o2 (Local o1) 0 _ (Local o2) (len y) cs2 y
      (Local o1) _ cs2 (Local o2) u' _ m0 m'); try done.
    + apply content_cleared. lia.
    + intros b' _ _. by apply Hb.
  - destruct H2 as (-> & H2). enter. repeat pair_step.
    eapply (wp_pair_clear _ _ _ (Local o2) _ _ (replicate 16 None)); [done|by splits|].
    intros u' m' Eo Hs Hb. eapply (pair_moved o1 o2 (Local o1) 0 _ (Block b) (len y) cs2 y
      (Block b) _ cs2 (Local o2) u' _ m0 m'); try done.
    + cbn [shape]. split; [done|]. by rewrite Hb.
    + apply content_cleared. rewrite length_replicate. lia.
    + intros b' _ _. by apply Hb.
    + intros b'. split; intros [?|?]; by auto.
Qed.
End Move.
