(* ===== verification/CxxStringSpec.v ===== *)
(** * What [std::string] promises

    A program works on a number of strings by commands.  [run] executes a
    command with the functions of [CxxString]; [spec] says what it means on
    the contents alone, without memory: which contents the strings have
    afterwards, when an exception is thrown, and which calls the library does
    not define.  Characters given by a pointer lie in a string, which may be
    the one that is changed, or in a block of somebody else. *)
From S2P Require Import Prelude CxxMemory CxxString.

Section Commands.
Context `{OperatorNew}.

(** ** Commands *)
Inductive place := InString (s : nat) (k : Z) | InBlock (b : nat) (k : Z).
Inductive argument :=
  | Str (s : nat) | Substr (s : nat) (pos n : Z) | Chars (p : place) (n : Z)
  | Cstr (p : place) | Fill (n c : Z).

Inductive command :=
  | NewDefault (o : nat) | New (o : nat) (a : argument) | NewInput (o : nat) (cs : list Z)
  | NewMove (o s : nat) | Destroy (o : nat)
  | Assign (o : nat) (a : argument) | AssignMove (o s : nat)
  | Append (o : nat) (a : argument) | PushBack (o : nat) (c : Z)
  | Insert (o : nat) (pos : Z) (a : argument)
  | InsertFillAt (o : nat) (i n c : Z) | InsertCharAt (o : nat) (i c : Z)
  | Replace (o : nat) (pos n : Z) (a : argument)
  | ReplaceAt (o : nat) (i1 i2 : Z) (p : place) (n : Z) | ReplaceFillAt (o : nat) (i1 i2 n c : Z)
  | ReplaceInput (tmp o : nat) (i1 i2 : Z) (cs : list Z)
  | Erase (o : nat) (pos n : Z) | EraseAt (o : nat) (i : Z) | EraseRange (o : nat) (i1 i2 : Z)
  | PopBack (o : nat) | Clear (o : nat)
  | Resize (o : nat) (n c : Z) | Reserve (o : nat) (n : Z) | ShrinkToFit (o : nat)
  | Swap (o s : nat) | SubstrOf (r o : nat) (pos n : Z)
  | Plus (r a b : nat) | PlusChar (r a : nat) (c : Z) | PlusCstr (r a : nat) (p : place)
  | PlusCharLeft (r : nat) (c : Z) (b : nat) | PlusCstrLeft (r : nat) (p : place) (b : nat).

(** ** Execution *)
Definition eval (p : place) : M pointer :=
  match p with
  | InString s k => q ← string._M_data s; mret (padd q k)
  | InBlock b k => mret (Pointer (Block b) k)
  end.
Definition iter (o : nat) (i : Z) : M pointer := p ← string.begin o; mret (padd p i).
(** The iterator a function returns is checked. *)
Definition at_iter (o : nat) (i : Z) (c : M pointer) : M unit :=
  p ← c; q ← iter o i; if bool_decide (p = q) then mret tt else ub.

Definition run_new (o : nat) (a : argument) : M unit :=
  match a with
  | Str s => string.new_copy o s
  | Substr s pos n => string.new_substr o s pos n
  | Chars p n => q ← eval p; string.new_chars o q n
  | Cstr p => q ← eval p; string.new_cstr o (Some q)
  | Fill n c => string.new_fill o n c
  end.
Definition run_assign (o : nat) (a : argument) : M unit :=
  match a with
  | Str s => string.assign_str o s
  | Substr s pos n => string.assign_substr o s pos n
  | Chars p n => q ← eval p; string.assign o q n
  | Cstr p => q ← eval p; string.assign_cstr o q
  | Fill n c => string.assign_fill o n c
  end.
Definition run_append (o : nat) (a : argument) : M unit :=
  match a with
  | Str s => string.append_str o s
  | Substr s pos n => string.append_substr o s pos n
  | Chars p n => q ← eval p; string.append o q n
  | Cstr p => q ← eval p; string.append_cstr o q
  | Fill n c => string.append_fill o n c
  end.
Definition run_insert (o : nat) (pos : Z) (a : argument) : M unit :=
  match a with
  | Str s => string.insert_str o pos s
  | Substr s pos2 n => string.insert_substr o pos s pos2 n
  | Chars p n => q ← eval p; string.insert o pos q n
  | Cstr p => q ← eval p; string.insert_cstr o pos q
  | Fill n c => string.insert_fill o pos n c
  end.
Definition run_replace (o : nat) (pos n1 : Z) (a : argument) : M unit :=
  match a with
  | Str s => string.replace_str o pos n1 s
  | Substr s pos2 n => string.replace_substr o pos n1 s pos2 n
  | Chars p n => q ← eval p; string.replace o pos n1 q n
  | Cstr p => q ← eval p; string.replace_cstr o pos n1 q
  | Fill n c => string.replace_fill o pos n1 n c
  end.

Definition run (c : command) : M unit :=
  match c with
  | NewDefault o => string.new_default o
  | New o a => run_new o a
  | NewInput o cs => string.new_input o cs
  | NewMove o s => string.new_move o s
  | Destroy o => string.destroy o
  | Assign o a => run_assign o a
  | AssignMove o s => string.assign_move o s
  | Append o a => run_append o a
  | PushBack o c => string.push_back o c
  | Insert o pos a => run_insert o pos a
  | InsertFillAt o i n c => p ← iter o i; at_iter o i (string.insert_fill_at o p n c)
  | InsertCharAt o i c => p ← iter o i; at_iter o i (string.insert_char_at o p c)
  | Replace o pos n a => run_replace o pos n a
  | ReplaceAt o i1 i2 p n =>
      p1 ← iter o i1; p2 ← iter o i2; q ← eval p; string.replace_at o p1 p2 q n
  | ReplaceFillAt o i1 i2 n c => p1 ← iter o i1; p2 ← iter o i2; string.replace_fill_at o p1 p2 n c
  | ReplaceInput tmp o i1 i2 cs =>
      p1 ← iter o i1; p2 ← iter o i2; string._M_replace_dispatch tmp o p1 p2 cs
  | Erase o pos n => string.erase o pos n
  | EraseAt o i => p ← iter o i; at_iter o i (string.erase_at o p)
  | EraseRange o i1 i2 => p1 ← iter o i1; p2 ← iter o i2; at_iter o i1 (string.erase_range o p1 p2)
  | PopBack o => string.pop_back o
  | Clear o => string.clear o
  | Resize o n c => string.resize o n c
  | Reserve o n => string.reserve o n
  | ShrinkToFit o => string.shrink_to_fit o
  | Swap o s => string.swap o s
  | SubstrOf r o pos n => string.substr r o pos n
  | Plus r a b => string.plus r a b
  | PlusChar r a c => string.plus_char r a c
  | PlusCstr r a p => q ← eval p; string.plus_cstr r a q
  | PlusCharLeft r c b => string.plus_char_left r c b
  | PlusCstrLeft r p b => q ← eval p; string.plus_cstr_left r q b
  end.
End Commands.

(** ** Meaning *)
Abbreviation len xs := (Z.of_nat (length xs)).

Abbreviation contents := (gmap nat (list Z)).
Abbreviation foreign := (gmap nat (list cell)).

(** A result, or an exception; [needs] is the length of the string that is
    built: if it exceeds [max_size] or memory runs out the command may throw
    [length_error] or [bad_alloc] instead and then changes nothing. *)
Inductive outcome (A : Type) := Throws (e : std_exn) | Done (x : A).
Arguments Throws {A}.
Arguments Done {A}.

Definition word (n : Z) : bool := (0 <=? n) && (n <? 4294967296).
Definition assume {A} (b : bool) (r : option A) : option A := if b then r else None.

Definition slice {A} (pos n : Z) (x : list A) : list A := take (Z.to_nat n) (drop (Z.to_nat pos) x).
Definition splice (pos n : Z) (ys x : list Z) : list Z :=
  take (Z.to_nat pos) x ++ ys ++ drop (Z.to_nat (pos + n)) x.
Definition limit (pos n : Z) (x : list Z) : Z := Z.min n (len x - pos).

(** The characters up to the first NUL. *)
Fixpoint until_nul (cs : list cell) : option (list Z) :=
  match cs with
  | [] | None :: _ => None
  | Some c :: cs' => if c =? 0 then Some [] else xs ← until_nul cs'; Some (c :: xs)
  end.

Section Spec.
Context (β : foreign).

Definition chars_in (α : contents) (p : place) (n : Z) : option (list Z) :=
  match p with
  | InString s k => x ← α !! s; assume ((0 <=? k) && (0 <=? n) && (k + n <=? len x)) (Some (slice k n x))
  | InBlock b k => cs ← β !! b; assume (in_range k n cs) (chars (slice k n cs))
  end.
Definition cstr_in (α : contents) (p : place) : option (list Z) :=
  match p with
  | InString s k => x ← α !! s; assume ((0 <=? k) && (k <=? len x)) (until_nul (Some <$> slice k (len x) x ++ [0]))
  | InBlock b k => cs ← β !! b; assume (in_range k 0 cs) (until_nul (drop (Z.to_nat k) cs))
  end.

Definition value (α : contents) (a : argument) : option (outcome (list Z)) :=
  match a with
  | Str s => y ← α !! s; Some (Done y)
  | Substr s pos n =>
      y ← α !! s;
      assume (word pos && word n)
        (Some (if len y <? pos then Throws out_of_range else Done (slice pos (limit pos n y) y)))
  | Chars p n => ys ← chars_in α p n; assume (word n) (Some (Done ys))
  | Cstr p => ys ← cstr_in α p; assume (word (len ys)) (Some (Done ys))
  | Fill n c => assume (word n) (Some (Done (replicate (Z.to_nat n) c)))
  end.

Definition effect : Type := outcome (contents * option Z).
(** [o] becomes [x], which takes memory for [n] characters. *)
Definition set_to (α : contents) (o : nat) (x : list Z) (n : Z) : option effect :=
  Some (Done (<[o := x]> α, Some n)).
Definition set_noexcept (α : contents) (o : nat) (x : list Z) : option effect :=
  Some (Done (<[o := x]> α, None)).

Definition with_value (α : contents) (a : argument) (f : list Z -> option effect) : option effect :=
  r ← value α a; match r with Throws e => Some (Throws e) | Done ys => f ys end.
Definition splice_at (α : contents) (o : nat) (x : list Z) (pos n : Z) (ys : list Z) : option effect :=
  if len x <? pos then Some (Throws out_of_range)
  else set_to α o (splice pos (limit pos n x) ys x) (len (splice pos (limit pos n x) ys x)).
Definition iters (i1 i2 : Z) (x : list Z) : bool := (0 <=? i1) && (i1 <=? i2) && (i2 <=? len x).
Definition unused (α : contents) (o : nat) : bool := bool_decide (α !! o = None).

Definition spec (α : contents) (c : command) : option effect :=
  match c with
  | NewDefault o => assume (unused α o) (set_noexcept α o [])
  | New o a => assume (unused α o) (with_value α a (fun ys => set_to α o ys (len ys)))
  | NewInput o cs => assume (unused α o) (set_to α o cs (len cs))
  | NewMove o s => y ← α !! s; assume (unused α o) (set_noexcept (<[s := []]> α) o y)
  | Destroy o => _ ← α !! o; Some (Done (delete o α, None))
  | Assign o a => _ ← α !! o; with_value α a (fun ys => set_to α o ys (len ys))
  | AssignMove o s =>
      _ ← α !! o; y ← α !! s; assume (negb (o =? s)%nat) (set_noexcept (<[s := []]> α) o y)
  | Append o a => x ← α !! o; with_value α a (fun ys => set_to α o (x ++ ys) (len (x ++ ys)))
  | PushBack o c => x ← α !! o; set_to α o (x ++ [c]) (len x + 1)
  | Insert o pos a =>
      x ← α !! o; assume (word pos) (with_value α a (splice_at α o x pos 0))
  | InsertFillAt o i n c =>
      x ← α !! o; assume (iters i i x && word n) (splice_at α o x i 0 (replicate (Z.to_nat n) c))
  | InsertCharAt o i c => x ← α !! o; assume (iters i i x) (splice_at α o x i 0 [c])
  | Replace o pos n a =>
      x ← α !! o; assume (word pos && word n) (with_value α a (splice_at α o x pos n))
  | ReplaceAt o i1 i2 p n =>
      x ← α !! o; ys ← chars_in α p n;
      assume (iters i1 i2 x && word n) (splice_at α o x i1 (i2 - i1) ys)
  | ReplaceFillAt o i1 i2 n c =>
      x ← α !! o; assume (iters i1 i2 x && word n) (splice_at α o x i1 (i2 - i1) (replicate (Z.to_nat n) c))
  | ReplaceInput tmp o i1 i2 cs =>
      x ← α !! o; assume (unused α tmp && iters i1 i2 x && word (len cs)) (splice_at α o x i1 (i2 - i1) cs)
  | Erase o pos n =>
      x ← α !! o; assume (word pos && word n)
        (if len x <? pos then Some (Throws out_of_range)
         else set_noexcept α o (splice pos (limit pos n x) [] x))
  | EraseAt o i => x ← α !! o; assume ((0 <=? i) && (i <? len x)) (set_noexcept α o (splice i 1 [] x))
  | EraseRange o i1 i2 => x ← α !! o; assume (iters i1 i2 x) (set_noexcept α o (splice i1 (i2 - i1) [] x))
  | PopBack o => x ← α !! o; assume (0 <? len x) (set_noexcept α o (slice 0 (len x - 1) x))
  | Clear o => _ ← α !! o; set_noexcept α o []
  | Resize o n c =>
      x ← α !! o; assume (word n)
        (if len x <? n then set_to α o (x ++ replicate (Z.to_nat (n - len x)) c) n
         else set_noexcept α o (slice 0 n x))
  | Reserve o n => x ← α !! o; assume (word n) (set_to α o x (Z.max n (len x)))
  | ShrinkToFit o => x ← α !! o; set_noexcept α o x
  | Swap o s => x ← α !! o; y ← α !! s; set_noexcept (<[s := x]> α) o y
  | SubstrOf r o pos n => assume (unused α r) (with_value α (Substr o pos n) (fun ys => set_to α r ys (len ys)))
  | Plus r a b => x ← α !! a; y ← α !! b; assume (unused α r) (set_to α r (x ++ y) (len (x ++ y)))
  | PlusChar r a c => x ← α !! a; assume (unused α r) (set_to α r (x ++ [c]) (len (x ++ [c])))
  | PlusCstr r a p =>
      x ← α !! a; ys ← cstr_in α p;
      assume (unused α r && word (len ys)) (set_to α r (x ++ ys) (len (x ++ ys)))
  | PlusCharLeft r c b => y ← α !! b; assume (unused α r) (set_to α r ([c] ++ y) (len ([c] ++ y)))
  | PlusCstrLeft r p b =>
      y ← α !! b; ys ← cstr_in α p;
      assume (unused α r && word (len ys)) (set_to α r (ys ++ y) (len (ys ++ y)))
  end.
End Spec.
