(* ===== verification/CxxStringRefine.v ===== *)
(** * The commands keep their promises

    In a world with the contents [α] each command does what [spec] says,
    whatever the addresses, capacities and the aliasing of its arguments: its
    behaviour is defined, the world afterwards has the contents of the
    specification, and an exception leaves the memory as it was. *)
From S2P Require Import Prelude CxxMemory CxxString CxxStringProps CxxStringOps CxxStringLife.
From S2P Require Import CxxStringWorld CxxStringMove CxxStringSpec.

#[local] Set Default Proof Using "Type*".

(** ** Worlds after a step *)
Section WorldSteps.
Context (α : contents) (β : foreign) (m : memory) (Hw : world α β m).

Lemma world_view o x : α !! o = Some x ->
  exists r cs, view o r (len x) cs m /\ content x cs.
Proof. apply (world_strings _ _ _ Hw). Qed.

Lemma world_none o : α !! o = None -> objects m !! o = None.
Proof.
  intros E. destruct (objects m !! o) as [s|] eqn:Es; [|done].
  destruct (world_objects _ _ _ Hw o) as [x Hx]; [by exists s|]. congruence.
Qed.

Lemma world_becomes o x u m' : becomes o x m u m' -> world (<[o := x]> α) β m'.
Proof.
  intros [Hx Hs]. apply (world_step α _ β [o] m m' Hw); [by apply local_group|..].
  - intros o' Hn. rewrite lookup_insert_ne; [done|]. intros ->. apply Hn. by constructor.
  - intros o' ->%list_elem_of_singleton. by rewrite lookup_insert_eq.
Qed.

Lemma world_unchanged o x m' : α !! o = Some x -> string_at o x m' -> local_step o m m' -> world α β m'.
Proof. intros E Hx Hs. rewrite <-(insert_id α o x E). by apply (world_becomes o x tt). Qed.

Lemma world_pair o1 o2 x1 x2 m' : o1 <> o2 -> group_step [o1; o2] m m' ->
  string_at o1 x1 m' -> string_at o2 x2 m' -> world (<[o1 := x1]> (<[o2 := x2]> α)) β m'.
Proof.
  intros Hne Hs H1 H2. apply (world_step α _ β [o1; o2] m m' Hw Hs).
  - intros o [N1 [N2 _]%not_elem_of_cons]%not_elem_of_cons. by rewrite !lookup_insert_ne by congruence.
  - intros o [-> | ->%list_elem_of_singleton]%elem_of_cons.
    + by rewrite lookup_insert_eq.
    + rewrite lookup_insert_ne by done. by rewrite lookup_insert_eq.
Qed.

Lemma world_moved o1 o2 y m' : o1 <> o2 -> moved o1 o2 y m m' ->
  world (<[o1 := y]> (<[o2 := []]> α)) β m'.
Proof. intros Hne (Hs & H1 & H2). by apply world_pair. Qed.

Lemma world_destroyed o r n cs : view o r n cs m -> world (delete o α) β (destroyed o r m).
Proof.
  intros Hv. destruct (destroyed_step o r n cs m Hv) as [Hs Hn].
  apply (world_step α _ β [o] m _ Hw); [by apply local_group|..].
  - intros o' Hne. rewrite lookup_delete_ne; [done|]. intros ->. apply Hne. by constructor.
  - intros o' ->%list_elem_of_singleton. by rewrite lookup_delete_eq.
Qed.

(** No block belongs to two strings. *)
Lemma world_apart o1 o2 : o1 <> o2 -> ~ (exists b, owns o1 b m /\ owns o2 b m).
Proof. intros Hne (b & H1 & H2). apply Hne. by apply (world_unique _ _ _ Hw o1 o2 b). Qed.
End WorldSteps.

(** A new object owns nothing yet. *)
Lemma group_born o os m m' : objects m !! o = None -> o ∈ os -> group_step os (born o m) m' ->
  group_step os m m'.
Proof.
  intros Hn Hin [Go Gb Gn Gf Gu].
  assert (forall o' b, owns o' b m <-> owns o' b (born o m)) as Hown.
  { intros o' b. destruct (decide (o' = o)) as [->|Hne].
    - split; [intros (s & E & _); congruence|].
      by intros ?%(view_owns _ _ _ _ _ b (born_view o m)).
    - symmetry. apply owns_same. cbn. by rewrite lookup_insert_ne. }
  split; [| | | |done].
  - intros o' Ho. rewrite Go by done. cbn. rewrite lookup_insert_ne; [done|]. by intros ->.
  - intros b H1 H2. rewrite (Gb b); [done| |done]. intros o' Ho. rewrite <-Hown. by apply H1.
  - intros o' b Ho Ho'. destruct (Gn o' b Ho Ho') as [(o2 & H2 & H3)|E]; [|by right].
    rewrite <-Hown in H3. left. by exists o2.
  - intros o' b Ho Ho'. rewrite Hown in Ho'. by apply (Gf o' b).
Qed.

(** ** Characters that are given by a pointer *)

(** The value of a place in the memory [m]. *)
Definition points (p : place) (q : pointer) (m : memory) : Prop :=
  match p with
  | InString s k => exists st, objects m !! s = Some st /\ q = padd (_M_p st) k
  | InBlock b k => q = Pointer (Block b) k
  end.

(** The characters [ys] from [q] may be read and given to any string. *)
Definition readable (q : pointer) (ys : list Z) (m : memory) : Prop :=
  (forall o, source o q ys m) /\ forall o, in_region q = Local o -> is_Some (objects m !! o).

Lemma holds_slice cs (x : list Z) k n : 0 <= k -> holds cs 0 x -> holds cs k (slice k n x).
Proof.
  intros Hk Hh i y Hy. unfold slice in Hy. apply lookup_take_Some in Hy as [Hy _].
  rewrite lookup_drop in Hy. apply Hh in Hy. rewrite <-Hy. done.
Qed.

Lemma slice_length {A} k n (x : list A) : 0 <= k -> 0 <= n -> k + n <= len x -> len (slice k n x) = n.
Proof. intros. unfold slice. rewrite length_take, length_drop. lia. Qed.

Lemma chars_holds cs ys : chars cs = Some ys -> cs = Some <$> ys.
Proof.
  revert ys. induction cs as [|[c|] cs IH]; intros ys E; cbn in E; [by injection E as <-| |done].
  destruct (chars cs) as [xs|] eqn:Ec; [|done]. injection E as <-. cbn. f_equal. by apply IH.
Qed.

Lemma holds_slice_cells cs k n ys : 0 <= k -> chars (slice k n cs) = Some ys -> holds cs k ys.
Proof.
  intros Hk E%chars_holds i y Hy. assert (slice k n cs !! i = Some (Some y)) as Hs.
  { by rewrite E, list_lookup_fmap, Hy. }
  unfold slice in Hs. apply lookup_take_Some in Hs as [Hs _]. by rewrite lookup_drop in Hs.
Qed.

Section Readable.
Context (α : contents) (β : foreign) (m : memory) (Hw : world α β m).

(** A part of the string [s], which does not reach its terminator. *)
Lemma readable_string s x q k ys : α !! s = Some x -> points (InString s k) q m ->
  0 <= k -> k + len ys <= len x -> (forall cs, holds cs 0 x -> holds cs k ys) -> readable q ys m.
Proof.
  intros Hx (st & Es & ->) Hk Hl Hin. destruct (world_view _ _ _ Hw s x Hx) as (r & cs & Hv & Hc).
  destruct (string_at_room _ _ _ _ _ Hv Hc) as [_ Hm]. sizes.
  unfold content in Hc. apply holds_app in Hc as [Hc _]; [|lia]. pose proof (Hin cs Hc) as Hys.
  pose proof (view_chars _ _ _ _ _ k ys Hv Hk Hys) as Hch.
  pose proof Hv as (u & Eo & Hr). rewrite Eo in Es. injection Es as <-. cbn [_M_p] in *.
  assert (forall o, r = Local o -> o = s) as Hloc by (intros o ->; by destruct Hr).
  split.
  - intros o. split; [done|]. split; [lia|]. intros st2 E2 Hreg. cbn [padd in_region offset] in *.
    assert (o = s) as ->.
    { destruct r as [o'|b].
      - rewrite (Hloc o' eq_refl) in Hreg. destruct (world_objects _ _ _ Hw o) as [x2 Hx2]; [by exists st2|].
        destruct (world_view _ _ _ Hw o x2 Hx2) as (r2 & cs2 & (u2 & E2' & Hr2) & _).
        rewrite E2 in E2'. injection E2' as ->. cbn in Hreg. subst r2. by destruct Hr2.
      - apply (world_unique _ _ _ Hw o s b); [by exists st2|]. by apply (view_owns _ _ _ _ _ b Hv). }
    rewrite Eo in E2. injection E2 as <-. cbn. lia.
  - cbn [padd in_region]. intros o Ho. rewrite (Hloc o Ho), Eo. by eexists.
Qed.

Lemma readable_block b cs k ys : β !! b = Some cs -> 0 <= k -> holds cs k ys -> len ys < 4294967296 ->
  readable (Pointer (Block b) k) ys m.
Proof.
  intros Hb Hk Hh Hl. destruct (world_foreign _ _ _ Hw b cs Hb) as [Hm Hno]. split.
  - intros o. split; [|split; [done|]].
    + split; [done|]. intros i y Hy. exists cs. split; [done|]. by apply Hh.
    + intros st E Hreg. destruct (Hno o). by exists st.
  - done.
Qed.

Lemma readable_chars p n q ys : chars_in β α p n = Some ys -> word n = true -> points p q m ->
  readable q ys m /\ len ys = n.
Proof.
  intros E Hn Hp. unfold word in Hn. destruct p as [s k|b k]; cbn [chars_in] in E.
  - destruct (α !! s) as [x|] eqn:Hx; [|done]. cbn in E. unfold assume in E.
    destruct (_ && _ && _) eqn:Hb; [|done]. injection E as <-.
    assert (len (slice k n x) = n) as Hl by (apply slice_length; lia). split; [|done].
    eapply (readable_string s x _ k); [done|done|lia|lia|]. intros cs Hh. apply holds_slice; [lia|done].
  - destruct (β !! b) as [cs|] eqn:Hb; [|done]. cbn in E. unfold assume in E.
    destruct (in_range k n cs) eqn:Hr; [|done]. unfold in_range in Hr. cbn in Hp. subst q.
    assert (len ys = n) as Hl.
    { apply chars_holds in E. apply (f_equal length) in E. rewrite length_fmap in E.
      rewrite <-E. apply slice_length; lia. }
    split; [|done]. eapply readable_block; [exact Hb|lia| |lia]. apply (holds_slice_cells cs k n); [lia|done].
Qed.
End Readable.

(** *** C strings *)
Lemma strlen_until cs : traits.strlen cs = (fun ys => len ys) <$> until_nul cs.
Proof.
  induction cs as [|[c|] cs IH]; [done| |done]. cbn. destruct (c =? 0); [done|].
  rewrite IH. destruct (until_nul cs); [|done]. cbn. f_equal. lia.
Qed.

Lemma until_nul_app cs ds ys : until_nul cs = Some ys -> until_nul (cs ++ ds) = Some ys.
Proof.
  revert ys. induction cs as [|[c|] cs IH]; intros ys E; cbn in *; [done| |done].
  destruct (c =? 0); [done|]. destruct (until_nul cs) as [zs|]; [|done]. by rewrite (IH zs).
Qed.

Lemma until_nul_holds cs ys : until_nul cs = Some ys -> holds cs 0 ys.
Proof.
  revert ys. induction cs as [|[c|] cs IH]; intros ys E; cbn in *; [done| |done].
  destruct (c =? 0); [injection E as <-; apply holds_nil|].
  destruct (until_nul cs) as [zs|]; [|done]. injection E as <-.
  intros [|i] y Hy; [by injection Hy as ->|]. by apply (IH zs eq_refl).
Qed.

Lemma holds_drop cs k ys : 0 <= k -> holds (drop (Z.to_nat k) cs) 0 ys <-> holds cs k ys.
Proof.
  intros Hk. split; intros Hh i y Hy; specialize (Hh i y Hy).
  - by rewrite lookup_drop in Hh.
  - by rewrite lookup_drop.
Qed.

Lemma holds_prefix cs ys : holds cs 0 ys -> exists rest, cs = (Some <$> ys) ++ rest.
Proof.
  intros Hh. exists (drop (length ys) cs). rewrite <-(get_holds cs 0 ys) by done. unfold cells_get.
  rewrite Nat2Z.id. cbn [Z.to_nat drop]. by rewrite take_drop.
Qed.

Lemma until_nul_length xs ys : until_nul (Some <$> (xs ++ [0])) = Some ys -> len ys <= len xs.
Proof.
  revert ys. induction xs as [|x xs IH]; intros ys E; cbn in E; [by injection E as <-|].
  destruct (x =? 0); [injection E as <-; cbn; lia|].
  destruct (until_nul _) as [zs|] eqn:Ez; [|done]. injection E as <-. specialize (IH zs eq_refl). cbn. lia.
Qed.

Lemma traits_length_run q cs ys m : region_cells (in_region q) m = Some cs -> 0 <= offset q ->
  offset q <= len cs -> until_nul (drop (Z.to_nat (offset q)) cs) = Some ys ->
  traits.length q m = Val (len ys) m.
Proof.
  intros Ec Hq Hl Hu. unfold traits.length. rewrite Ec, in_range_true by lia.
  by rewrite strlen_until, Hu.
Qed.

Lemma slice_rest k (x : list Z) : 0 <= k -> slice k (len x) x = drop (Z.to_nat k) x.
Proof. intros. unfold slice. apply take_ge. rewrite length_drop. lia. Qed.

Lemma readable_cstr α β m p q ys : world α β m -> cstr_in β α p = Some ys -> word (len ys) = true ->
  points p q m -> readable q ys m /\ traits.length q m = Val (len ys) m.
Proof.
  intros Hw E Hn Hp. unfold word in Hn. destruct p as [s k|b k]; cbn [cstr_in] in E.
  - destruct (α !! s) as [x|] eqn:Hx; [|done]. cbn [mbind option_bind] in E. unfold assume in E.
    destruct (_ && _) eqn:Hb; [|done]. rewrite slice_rest in E by lia.
    assert (forall cs, holds cs 0 (x ++ [0]) -> until_nul (drop (Z.to_nat k) cs) = Some ys) as Hall.
    { intros cs Hh. rewrite <-(take_drop (Z.to_nat k) x), <-app_assoc in Hh.
      apply holds_app in Hh as [_ Hh]; [|lia]. rewrite length_take in Hh.
      replace (0 + Z.of_nat (Z.to_nat k `min` length x)) with k in Hh by lia.
      apply holds_drop, holds_prefix in Hh as [rest ->]; [|lia]. by apply until_nul_app. }
    pose proof (until_nul_length (drop (Z.to_nat k) x) ys E) as Hlen. rewrite length_drop in Hlen.
    split.
    + eapply (readable_string α β m Hw s x _ k); [done|done|lia|lia|]. intros cs Hh.
      apply until_nul_holds in E. intros i y Hy. pose proof (lookup_lt_Some _ _ _ Hy) as Hi.
      apply E in Hy. cbn [Z.to_nat Nat.add] in Hy.
      rewrite list_lookup_fmap, lookup_app_l, lookup_drop in Hy by (rewrite length_drop; lia).
      apply fmap_Some in Hy as (z & Ez & [= <-]). apply Hh in Ez. exact Ez.
    + destruct Hp as (st & Es & ->). destruct (world_view _ _ _ Hw s x Hx) as (r & cs & Hv & Hc).
      destruct (string_at_room _ _ _ _ _ Hv Hc) as [Hroom _].
      pose proof (view_region _ _ _ _ _ Hv) as Hreg. destruct Hv as (u & Eo & _).
      rewrite Eo in Es. injection Es as <-. apply (traits_length_run _ cs); cbn; [done|lia|lia|].
      by apply Hall.
  - destruct (β !! b) as [cs|] eqn:Hb; [|done]. cbn [mbind option_bind] in E. unfold assume in E.
    destruct (in_range k 0 cs) eqn:Hr; [|done]. unfold in_range in Hr. cbn in Hp. subst q. split.
    + eapply readable_block; [done|exact Hb|lia| |lia]. apply holds_drop; [lia|]. by apply until_nul_holds.
    + destruct (world_foreign _ _ _ Hw b cs Hb) as [Hm _]. by apply (traits_length_run _ cs); cbn; try lia.
Qed.

(** The pointer the program computes. *)
Lemma wp_eval α β m p (Q : pointer -> memory -> Prop) E : world α β m ->
  match p with InString s _ => is_Some (α !! s) | InBlock _ _ => True end ->
  (forall q, points p q m -> Q q m) -> wp (eval p) m Q E.
Proof.
  intros Hw Hp HQ. destruct p as [s k|b k]; cbn [eval].
  - destruct Hp as [x Hx]. destruct (world_view _ _ _ Hw s x Hx) as (r & cs & Hv & _). apply wp_bind.
    eapply wp_data; [exact Hv|]. apply wp_ret. apply HQ. destruct Hv as (u & Eo & _).
    eexists. split; [exact Eo|done].
  - apply wp_ret. by apply HQ.
Qed.
