(* ===== verification/CxxStringCommands.v ===== *)
(** * The commands, one by one

    [keeps r c m]: in the memory [m] the computation [c] does what the effect
    [r] of the specification says. *)
From S2P Require Import Prelude CxxMemory CxxString CxxStringProps CxxStringOps CxxStringLife.
From S2P Require Import CxxStringWorld CxxStringMove CxxStringSpec CxxStringRefine.

#[local] Set Default Proof Using "Type*".

Section Commands.
Context `{OperatorNew} (α : contents) (β : foreign) (m : memory) (Hw : world α β m).

Definition may_fail (needs : option Z) (e : std_exn) (m' : memory) : Prop :=
  match needs with Some n => fails n m e m' | None => False end.

Definition keeps (r : effect) (c : M unit) : Prop :=
  match r with
  | Throws e => wp c m (fun _ _ => False) (fun e' m' => e' = e /\ m' = m)
  | Done (α', needs) => wp c m (fun _ m' => world α' β m') (may_fail needs)
  end.

(** ** Reading first *)
Lemma keeps_bind {A} (c : M A) x f r : c m = Val x m -> keeps r (f x) -> keeps r (y ← c; f y).
Proof.
  intros E. destruct r as [e|[α' needs]]; cbn [keeps]; intros Hk; apply wp_bind; by eapply wp_value.
Qed.

Lemma keeps_set o x n c : wp c m (becomes o x m) (fails n m) -> keeps (Done (<[o := x]> α, Some n)) c.
Proof. apply wp_mono; [|done]. intros u m' Hb. by apply (world_becomes α β m Hw o x u). Qed.

Lemma keeps_set_noexcept o x c : (forall E, wp c m (becomes o x m) E) ->
  keeps (Done (<[o := x]> α, None)) c.
Proof.
  intros Hc. generalize (Hc (may_fail None)). apply wp_mono; [|done].
  intros u m' Hb. by apply (world_becomes α β m Hw o x u).
Qed.

Section OneString.
Context (o : nat) (x : list Z) (Hx : α !! o = Some x).

Lemma at_world : string_at o x m.
Proof. by apply (world_strings _ _ _ Hw). Qed.

Lemma world_size : len x <= 2147483647.
Proof. destruct at_world as (r & cs & Hv & Hc). by apply (string_at_room _ _ _ _ _ Hv) in Hc as [_ ?]. Qed.

Lemma size_run : string.size o m = Val (len x) m.
Proof.
  destruct at_world as (r & cs & (u & E & _) & _). unfold string.size, mbind, M_bind, get_object. by rewrite E.
Qed.
Lemma length_run : string.length o m = Val (len x) m.
Proof. exact size_run. Qed.

Lemma data_run : exists q, string._M_data o m = Val q m /\ points (InString o 0) q m.
Proof.
  destruct at_world as (r & cs & (u & E & _) & _). exists (Pointer r 0).
  unfold string._M_data, mbind, M_bind, get_object. rewrite E. split; [done|]. by eexists.
Qed.

Lemma check_run pos : string._M_check o pos m = if len x <? pos then Exn out_of_range m else Val pos m.
Proof.
  unfold string._M_check, mbind, M_bind. rewrite size_run. by destruct (len x <? pos).
Qed.

Lemma limit_run pos n : 0 <= pos <= len x -> string._M_limit o pos n m = Val (limit pos n x) m.
Proof.
  intros Hp. pose proof world_size. unfold string._M_limit, mbind, M_bind. rewrite size_run.
  rewrite u32_small by lia. unfold limit. cbn. f_equal. destruct (Z.ltb_spec n (len x - pos)); lia.
Qed.

(** A range of the string. *)
Lemma split_range pos n : 0 <= pos -> 0 <= n -> pos + n <= len x ->
  exists x1 x2 x3, x = x1 ++ x2 ++ x3 /\ len x1 = pos /\ len x2 = n /\
    forall ys, splice pos n ys x = x1 ++ ys ++ x3.
Proof.
  intros Hp Hn Hl. exists (take (Z.to_nat pos) x), (slice pos n x), (drop (Z.to_nat (pos + n)) x).
  split; [|split; [|split; [|done]]].
  - unfold slice. replace (Z.to_nat (pos + n)) with (Z.to_nat pos + Z.to_nat n)%nat by lia.
    by rewrite <-drop_drop, take_drop, take_drop.
  - rewrite length_take. lia.
  - by apply slice_length.
Qed.

Lemma wp_M_replace_at pos n q ys : 0 <= pos -> 0 <= n -> pos + n <= len x -> source o q ys m ->
  wp (string._M_replace o pos n q (len ys)) m (becomes o (splice pos n ys x) m)
    (fails (len (splice pos n ys x)) m).
Proof.
  intros Hp Hn Hl Hs. pose proof at_world as Hat.
  destruct (split_range pos n Hp Hn Hl) as (x1 & x2 & x3 & E & <- & <- & ->).
  rewrite E in Hat. by apply (wp_M_replace o x1 x2 x3).
Qed.

Lemma wp_M_replace_aux_at pos n k c : 0 <= pos -> 0 <= n -> pos + n <= len x -> word k = true ->
  wp (string._M_replace_aux o pos n k c) m (becomes o (splice pos n (replicate (Z.to_nat k) c) x) m)
    (fails (len (splice pos n (replicate (Z.to_nat k) c) x)) m).
Proof.
  intros Hp Hn Hl Hk. unfold word in Hk. pose proof at_world as Hat.
  destruct (split_range pos n Hp Hn Hl) as (x1 & x2 & x3 & E & <- & <- & ->). rewrite E in Hat.
  replace (len (x1 ++ replicate (Z.to_nat k) c ++ x3)) with (len x1 + k + len x3)
    by (rewrite !length_app, length_replicate; lia).
  apply wp_M_replace_aux; [done|lia].
Qed.

Lemma wp_M_erase_at pos n E : 0 <= pos -> 0 <= n -> pos + n <= len x ->
  wp (string._M_erase o pos n) m (becomes o (splice pos n [] x) m) E.
Proof.
  intros Hp Hn Hl. pose proof at_world as Hat.
  destruct (split_range pos n Hp Hn Hl) as (x1 & x2 & x3 & Ex & <- & <- & ->). rewrite Ex in Hat.
  by apply wp_M_erase.
Qed.

Lemma wp_truncate_at n E : 0 <= n <= len x ->
  wp (string._M_set_length o n) m (becomes o (slice 0 n x) m) E.
Proof.
  intros Hn. pose proof at_world as Hat. rewrite <-(take_drop (Z.to_nat n) x) in Hat.
  pose proof (wp_truncate o _ _ m E Hat) as Ht.
  by replace (len (take (Z.to_nat n) x)) with n in Ht by (rewrite length_take; lia).
Qed.

(** Position and count of a range are checked and limited. *)
Lemma keeps_checked pos n ys r (body : Z -> Z -> M unit) : word pos = true -> word n = true ->
  splice_at α o x pos n ys = Some r ->
  (forall k, 0 <= pos -> 0 <= k -> pos + k <= len x -> wp (body pos k) m (becomes o (splice pos k ys x) m)
     (fails (len (splice pos k ys x)) m)) ->
  keeps r (pos ← string._M_check o pos; n ← string._M_limit o pos n; body pos n).
Proof.
  unfold word, splice_at. intros Hp Hn E Hb. pose proof (check_run pos) as Hc.
  destruct (Z.ltb_spec (len x) pos) as [Hgt|Hle].
  - injection E as <-. cbn [keeps]. apply wp_bind. unfold wp. by rewrite Hc.
  - injection E as <-. eapply keeps_bind; [exact Hc|].
    eapply keeps_bind; [apply limit_run; lia|]. apply keeps_set. apply Hb; unfold limit; lia.
Qed.
End OneString.

(** ** Arguments *)

(** The characters of an argument, as the functions pass them on. *)
Definition feed (a : argument) (f : pointer -> Z -> M unit) : M unit :=
  match a with
  | Str s => p ← string._M_data s; n ← string.size s; f p n
  | Substr s pos n =>
      p ← string._M_data s; pos ← string._M_check s pos; n ← string._M_limit s pos n; f (padd p pos) n
  | Chars p n => q ← eval p; f q n
  | Cstr p => q ← eval p; n ← traits.length q; f q n
  | Fill _ _ => mret tt
  end.

Lemma eval_run p : match p with InString s _ => is_Some (α !! s) | InBlock _ _ => True end ->
  exists q, eval p m = Val q m /\ points p q m.
Proof.
  destruct p as [s k|b k]; cbn [eval].
  - intros [x Hx]. destruct (data_run s x Hx) as (q & Eq & st & Es & ->). eexists.
    unfold mbind, M_bind. rewrite Eq. split; [reflexivity|]. exists st. split; [done|].
    unfold padd. cbn. f_equal. lia.
  - intros _. by eexists.
Qed.

Lemma points_shift s k q : points (InString s 0) q m -> points (InString s k) (padd q k) m.
Proof. intros (st & E & ->). exists st. split; [done|]. unfold padd. cbn. f_equal. lia. Qed.

Lemma chars_in_string p n ys : chars_in β α p n = Some ys ->
  match p with InString s _ => is_Some (α !! s) | InBlock _ _ => True end.
Proof. destruct p as [s k|]; [|done]. cbn. destruct (α !! s); [by eexists|done]. Qed.
Lemma cstr_in_string p ys : cstr_in β α p = Some ys ->
  match p with InString s _ => is_Some (α !! s) | InBlock _ _ => True end.
Proof. destruct p as [s k|]; [|done]. cbn. destruct (α !! s); [by eexists|done]. Qed.

Lemma readable_whole s y q : α !! s = Some y -> points (InString s 0) q m -> readable q y m.
Proof. intros Hy Hp. by apply (readable_string α β m Hw s y q 0); [| |lia|lia|]. Qed.

Lemma readable_part s y q pos n : α !! s = Some y -> points (InString s 0) q m -> word n = true ->
  0 <= pos <= len y -> readable (padd q pos) (slice pos (limit pos n y) y) m /\
    len (slice pos (limit pos n y) y) = limit pos n y.
Proof.
  unfold word. intros Hy Hp Hn Hpos.
  assert (len (slice pos (limit pos n y) y) = limit pos n y) as Hl by (apply slice_length; unfold limit; lia).
  split; [|done]. apply (readable_string α β m Hw s y _ pos); [done|by apply points_shift|lia|unfold limit in *; lia|].
  intros cs. apply holds_slice. lia.
Qed.

Lemma chars_run p n ys : chars_in β α p n = Some ys -> word n = true ->
  exists q, eval p m = Val q m /\ points p q m /\ readable q ys m /\ len ys = n.
Proof.
  intros Hy Hn. destruct (eval_run p) as (q & Eq & Hp); [by apply (chars_in_string p n ys)|].
  exists q. split; [done|]. split; [done|]. by apply (readable_chars α β m Hw p).
Qed.

Lemma cstr_run p ys : cstr_in β α p = Some ys -> word (len ys) = true ->
  exists q, eval p m = Val q m /\ points p q m /\ readable q ys m /\ traits.length q m = Val (len ys) m.
Proof.
  intros Hy Hn. destruct (eval_run p) as (q & Eq & Hp); [by apply (cstr_in_string p ys)|].
  exists q. split; [done|]. split; [done|]. by apply (readable_cstr α β m p).
Qed.

Lemma with_chars p n k r : with_value β α (Chars p n) k = Some r ->
  exists ys, chars_in β α p n = Some ys /\ word n = true /\ k ys = Some r.
Proof.
  unfold with_value, value, assume. destruct (chars_in β α p n) as [ys|] eqn:E; [|done]. cbn.
  destruct (word n) eqn:Hn; [|done]. cbn. intros Hk. by exists ys.
Qed.

Lemma with_cstr p k r : with_value β α (Cstr p) k = Some r ->
  exists ys, cstr_in β α p = Some ys /\ word (len ys) = true /\ k ys = Some r.
Proof.
  unfold with_value, value, assume. destruct (cstr_in β α p) as [ys|] eqn:E; [|done]. cbn.
  destruct (word (len ys)) eqn:Hn; [|done]. cbn. intros Hk. by exists ys.
Qed.

Lemma keeps_feed a f k r : match a with Fill _ _ => False | _ => True end ->
  with_value β α a k = Some r ->
  (forall q ys r', value β α a = Some (Done ys) -> k ys = Some r' -> readable q ys m ->
     keeps r' (f q (len ys))) ->
  keeps r (feed a f).
Proof.
  unfold with_value, feed. intros Ha E Hf.
  assert (forall q ys, value β α a = Some (Done ys) -> k ys = Some r -> readable q ys m ->
    keeps r (f q (len ys))) as Hf' by (intros q ys; apply Hf). clear Hf.
  unfold value, assume in E, Hf'. destruct a as [s|s pos n|p n|p|n c]; [..|done].
  - destruct (α !! s) as [y|] eqn:Hy; [|done]. cbn in E, Hf'. destruct (data_run s y Hy) as (q & Eq & Hp).
    eapply keeps_bind; [exact Eq|]. eapply keeps_bind; [by apply size_run|].
    apply (Hf' q y); [done..|]. by apply (readable_whole s).
  - destruct (α !! s) as [y|] eqn:Hy; [|done]. cbn in E, Hf'. destruct (word pos && word n) eqn:Hword; [|done].
    apply andb_prop in Hword as [Hpos Hn]. unfold word in Hpos. cbn in E, Hf'.
    destruct (data_run s y Hy) as (q & Eq & Hp). eapply keeps_bind; [exact Eq|].
    pose proof (check_run s y Hy pos) as Hc. destruct (Z.ltb_spec (len y) pos) as [Hgt|Hle].
    + injection E as <-. cbn [keeps]. apply wp_bind. unfold wp. by rewrite Hc.
    + eapply keeps_bind; [exact Hc|]. eapply keeps_bind; [apply (limit_run s y Hy); lia|].
      destruct (readable_part s y q pos n Hy Hp Hn ltac:(lia)) as [Hr <-]. by apply Hf'.
  - destruct (chars_in β α p n) as [ys|] eqn:Hy; [|done]. cbn in E, Hf'. destruct (word n) eqn:Hn; [|done]. cbn in E, Hf'.
    destruct (chars_run p n ys Hy Hn) as (q & Eq & _ & Hr & <-).
    eapply keeps_bind; [exact Eq|]. by apply Hf'.
  - destruct (cstr_in β α p) as [ys|] eqn:Hy; [|done]. cbn in E, Hf'. destruct (word (len ys)) eqn:Hn; [|done]. cbn in E, Hf'.
    destruct (cstr_run p ys Hy Hn) as (q & Eq & _ & Hr & Hrun). eapply keeps_bind; [exact Eq|].
    eapply keeps_bind; [exact Hrun|]. by apply Hf'.
Qed.

Lemma value_string_length a ys : match a with Str _ | Substr _ _ _ => True | _ => False end ->
  value β α a = Some (Done ys) -> len ys <= 2147483647.
Proof.
  unfold value, assume. intros Ha E. destruct a as [s|s pos n|p n|p|n c]; try done.
  - destruct (α !! s) as [y|] eqn:Hy; [|done]. cbn in E. injection E as <-. by apply (world_size s).
  - destruct (α !! s) as [y|] eqn:Hy; [|done]. cbn in E. pose proof (world_size s y Hy) as Hl.
    destruct (word pos && word n); [|done]. destruct (len y <? pos); [done|]. injection E as <-.
    unfold slice. rewrite length_take, length_drop. lia.
Qed.

Ltac feeding E f :=
  match type of E with with_value _ _ ?a _ = Some ?r => eapply (keeps_feed a f _ r); [done|exact E|] end.

(** ** Changing one string *)
Section Changes.
Context (o : nat) (x : list Z) (Hx : α !! o = Some x).

Lemma keeps_replace_chars pos n q ys r : word pos = true -> word n = true ->
  splice_at α o x pos n ys = Some r -> readable q ys m -> keeps r (string.replace o pos n q (len ys)).
Proof.
  intros Hp Hn E [Hq _]. apply (keeps_checked o x Hx pos n ys); [done..|].
  intros k H0 Hk Hl. apply wp_M_replace_at; done.
Qed.

Lemma keeps_replace pos n a r : word pos = true -> word n = true ->
  with_value β α a (splice_at α o x pos n) = Some r -> keeps r (run_replace o pos n a).
Proof.
  intros Hp Hn E. destruct a as [s|s pos2 n2|p n2|p|k c].
  5: { unfold with_value, value, assume in E. destruct (word k) eqn:Hk; [|done]. cbn in E.
    apply (keeps_checked o x Hx pos n (replicate (Z.to_nat k) c)); [done..|].
    intros k' H0 Hk' Hl. by apply wp_M_replace_aux_at. }
  all: feeding E (string.replace o pos n); intros q ys r' _ E' Hr;
    by apply keeps_replace_chars.
Qed.

Lemma keeps_insert pos a r : word pos = true ->
  with_value β α a (splice_at α o x pos 0) = Some r -> keeps r (run_insert o pos a).
Proof.
  intros Hp E. destruct a as [s|s pos2 n2|p n2|p|k c].
  5: { unfold with_value, value, assume in E. destruct (word k) eqn:Hk; [|done]. cbn in E.
    unfold splice_at in E. unfold word in Hp. cbn [run_insert]. unfold string.insert_fill.
    pose proof (check_run o x Hx pos) as Hc. destruct (Z.ltb_spec (len x) pos) as [Hgt|Hle].
    - injection E as <-. cbn [keeps]. apply wp_bind. unfold wp. by rewrite Hc.
    - injection E as <-. eapply keeps_bind; [exact Hc|]. apply keeps_set.
      replace (limit pos 0 x) with 0 by (unfold limit; lia). apply wp_M_replace_aux_at; [done|lia..|done]. }
  all: feeding E (string.replace o pos 0); intros q ys r' _ E' Hr;
    by apply keeps_replace_chars.
Qed.

Lemma keeps_M_append q ys : readable q ys m -> len x + len ys < 4294967296 ->
  keeps (Done (<[o := x ++ ys]> α, Some (len (x ++ ys)))) (string._M_append o q (len ys)).
Proof. intros [Hq _] Hl. apply keeps_set. apply wp_M_append; [by apply at_world|done|done]. Qed.

Lemma keeps_append_chars q ys : readable q ys m ->
  keeps (Done (<[o := x ++ ys]> α, Some (len (x ++ ys)))) (string.append o q (len ys)).
Proof.
  intros Hr. pose proof (world_size o x Hx) as Hs. destruct (at_world o x Hx) as (r & cs & Hv & _).
  pose proof Hr as [Hq _]. destruct (Hq o) as (_ & Hw' & _). cbn [keeps]. apply wp_bind.
  eapply wp_check_length; [exact Hv|lia|exact Hs|lia| |].
  - intros Hlt. split; [done|]. left. split; [done|]. rewrite length_app. lia.
  - sizes. intros Hle. apply (keeps_M_append q ys Hr). lia.
Qed.

Lemma replicate_app_nil {A} (ys : list A) (y : list A) : ys ++ y ++ [] = ys ++ y.
Proof. by rewrite app_nil_r. Qed.

Lemma wp_append_fill n c : word n = true ->
  wp (string.append_fill o n c) m (becomes o (x ++ replicate (Z.to_nat n) c) m)
    (fails (len (x ++ replicate (Z.to_nat n) c)) m).
Proof.
  intros Hn. apply wp_bind. eapply wp_value; [by apply size_run|].
  pose proof (wp_M_replace_aux_at o x Hx (len x) 0 n c ltac:(lia) ltac:(lia) ltac:(lia) Hn) as Hwp.
  unfold splice in Hwp. rewrite take_ge, drop_ge, app_nil_r in Hwp by lia. exact Hwp.
Qed.

Lemma keeps_append a r : with_value β α a (fun ys => set_to α o (x ++ ys) (len (x ++ ys))) = Some r ->
  keeps r (run_append o a).
Proof.
  intros E. pose proof (world_size o x Hx) as Hs. destruct a as [s|s pos2 n2|p n2|p|k c].
  5: { unfold with_value, value, assume in E. destruct (word k) eqn:Hk; [|done]. injection E as <-.
    apply keeps_set. by apply wp_append_fill. }
  1, 2: feeding E (string._M_append o); intros q ys r' Hv E' Hr; injection E' as <-;
    apply value_string_length in Hv; [|done]; apply keeps_M_append; [done|lia].
  all: feeding E (string.append o); intros q ys r' _ E' Hr; injection E' as <-;
    by apply keeps_append_chars.
Qed.

Lemma wp_assign_chars q ys : source o q ys m ->
  wp (string._M_replace o 0 (len x) q (len ys)) m (becomes o ys m) (fails (len ys) m).
Proof.
  intros Hq. pose proof (wp_M_replace_at o x Hx 0 (len x) q ys ltac:(lia) ltac:(lia) ltac:(lia) Hq) as Hwp.
  unfold splice in Hwp. rewrite drop_ge, app_nil_r in Hwp by lia. exact Hwp.
Qed.

Lemma keeps_assign a r : with_value β α a (fun ys => set_to α o ys (len ys)) = Some r ->
  keeps r (run_assign o a).
Proof.
  intros E. destruct a as [s|s pos2 n2|p n2|p|k c]; cbn [run_assign].
  - unfold with_value, value in E. destruct (α !! s) as [y|] eqn:Hy; [|done]. injection E as <-.
    unfold string.assign_str. destruct (decide (s = o)) as [->|Hne].
    + unfold string._M_assign. rewrite Nat.eqb_refl. apply keeps_set. apply wp_ret.
      rewrite Hx in Hy. injection Hy as <-. split; [by apply at_world|apply local_step_refl].
    + apply keeps_set. destruct (world_view _ _ _ Hw s y Hy) as (r2 & cs2 & Hv2 & Hc2).
      eapply (wp_M_assign o s); [by apply at_world|done|exact Hv2|done|].
      apply (world_apart _ _ _ Hw). congruence.
  - eapply keeps_bind; [by apply size_run|].
    feeding E (string._M_replace o 0 (len x)).
    intros q ys r' _ [= <-] [Hq _]. by apply keeps_set, wp_assign_chars.
  - feeding E (string.assign o).
    intros q ys r' _ [= <-] [Hq _]. eapply keeps_bind; [by apply size_run|]. by apply keeps_set, wp_assign_chars.
  - apply with_cstr in E as (ys & Hy & Hn & [= <-]).
    destruct (cstr_run p ys Hy Hn) as (q & Eq & _ & [Hq _] & Hrun).
    eapply keeps_bind; [exact Eq|]. eapply keeps_bind; [by apply size_run|].
    eapply keeps_bind; [exact Hrun|]. by apply keeps_set, wp_assign_chars.
  - unfold with_value, value, assume in E. destruct (word k) eqn:Hk; [|done]. injection E as <-.
    eapply keeps_bind; [by apply size_run|]. apply keeps_set.
    pose proof (wp_M_replace_aux_at o x Hx 0 (len x) k c ltac:(lia) ltac:(lia) ltac:(lia) Hk) as Hwp.
    unfold splice in Hwp. rewrite drop_ge, app_nil_r in Hwp by lia. exact Hwp.
Qed.

(** *** Iterators *)
Lemma iter_run : exists r, (forall i, iter o i m = Val (Pointer r i) m) /\
  string.begin o m = Val (Pointer r 0) m /\ string.end_ o m = Val (Pointer r (len x)) m /\
  forall i j, string.pointer_diff (Pointer r i) (Pointer r j) m = Val (i - j) m.
Proof.
  destruct (at_world o x Hx) as (r & cs & (u & E & _) & _). exists r.
  assert (string._M_data o m = Val (Pointer r 0) m) as Ed.
  { unfold string._M_data, mbind, M_bind, get_object. by rewrite E. }
  split; [|split; [done|split]].
  - intros i. unfold iter, string.begin, mbind, M_bind. by rewrite Ed.
  - unfold string.end_, mbind, M_bind. by rewrite Ed, size_run with (x := x).
  - intros i j. unfold string.pointer_diff. by rewrite bool_decide_true.
Qed.

Lemma wp_at_iter_bind {A} i (c : M A) y (f : A -> M pointer) (Q : unit -> memory -> Prop) E :
  c m = Val y m -> wp (at_iter o i (f y)) m Q E -> wp (at_iter o i (z ← c; f z)) m Q E.
Proof. intros Ec. unfold at_iter, wp, mbind, M_bind. by rewrite Ec. Qed.

Lemma wp_at_iter i (c : M unit) y E : wp c m (becomes o y m) E ->
  wp (at_iter o i (_ ← c; p ← string._M_data o; mret (padd p i))) m (becomes o y m) E.
Proof.
  intros Hc. apply (wp_bind (_ ← c; _)). apply wp_bind. revert Hc. apply wp_mono; [|done].
  intros [] m' Hb. pose proof Hb as ((r & cs & Hv & _) & _). apply wp_bind. eapply wp_data; [exact Hv|].
  apply wp_ret. apply wp_bind. unfold iter, string.begin. apply wp_bind. eapply wp_data; [exact Hv|].
  apply wp_ret. by rewrite bool_decide_true.
Qed.

Lemma splice_at_in pos n ys r : 0 <= pos -> 0 <= n -> pos + n <= len x -> splice_at α o x pos n ys = Some r ->
  r = Done (<[o := splice pos n ys x]> α, Some (len (splice pos n ys x))).
Proof.
  unfold splice_at. intros Hp Hn Hl. destruct (Z.ltb_spec (len x) pos); [lia|].
  replace (limit pos n x) with n by (unfold limit; lia). by intros [= <-].
Qed.

Lemma keeps_insert_fill_at i n c r : iters i i x = true -> word n = true ->
  splice_at α o x i 0 (replicate (Z.to_nat n) c) = Some r -> keeps r (run (InsertFillAt o i n c)).
Proof.
  unfold iters. intros Hi Hn E. apply splice_at_in in E as ->; [|lia..].
  pose proof (world_size o x Hx). destruct iter_run as (rg & Hit & Hb & _ & Hd). cbn [run].
  eapply keeps_bind; [apply Hit|]. apply keeps_set. unfold string.insert_fill_at.
  eapply wp_at_iter_bind; [exact Hb|]. eapply wp_at_iter_bind; [apply Hd|]. rewrite Z.sub_0_r.
  apply wp_at_iter. unfold string.replace_fill_at. apply wp_bind. eapply wp_value; [exact Hb|].
  apply wp_bind. eapply wp_value; [apply Hd|]. apply wp_bind. eapply wp_value; [apply Hd|].
  rewrite Z.sub_0_r, Z.sub_diag, !u32_small by lia. apply wp_M_replace_aux_at; [done|lia..|done].
Qed.

Lemma keeps_insert_char_at i c r : iters i i x = true ->
  splice_at α o x i 0 [c] = Some r -> keeps r (run (InsertCharAt o i c)).
Proof.
  unfold iters. intros Hi E. apply splice_at_in in E as ->; [|lia..].
  pose proof (world_size o x Hx). destruct iter_run as (rg & Hit & Hb & _ & Hd). cbn [run].
  eapply keeps_bind; [apply Hit|]. apply keeps_set. unfold string.insert_char_at.
  eapply wp_at_iter_bind; [exact Hb|]. eapply wp_at_iter_bind; [apply Hd|]. rewrite Z.sub_0_r, u32_small by lia.
  apply wp_at_iter. apply (wp_M_replace_aux_at o x Hx i 0 1 c); [lia..|done].
Qed.

Lemma keeps_replace_at i1 i2 p n ys r : iters i1 i2 x = true -> word n = true ->
  chars_in β α p n = Some ys -> splice_at α o x i1 (i2 - i1) ys = Some r ->
  keeps r (run (ReplaceAt o i1 i2 p n)).
Proof.
  unfold iters. intros Hi Hn Hy E. pose proof (world_size o x Hx).
  destruct iter_run as (rg & Hit & Hb & _ & Hd). cbn [run].
  eapply keeps_bind; [apply Hit|]. eapply keeps_bind; [apply Hit|].
  destruct (chars_run p n ys Hy Hn) as (q & Eq & _ & Hr & <-). eapply keeps_bind; [exact Eq|].
  eapply keeps_bind; [exact Hb|]. eapply keeps_bind; [apply Hd|]. eapply keeps_bind; [apply Hd|].
  rewrite Z.sub_0_r, !u32_small by lia. apply keeps_replace_chars; try done; unfold word; lia.
Qed.

Lemma keeps_replace_fill_at i1 i2 n c r : iters i1 i2 x = true -> word n = true ->
  splice_at α o x i1 (i2 - i1) (replicate (Z.to_nat n) c) = Some r ->
  keeps r (run (ReplaceFillAt o i1 i2 n c)).
Proof.
  unfold iters. intros Hi Hn E. apply splice_at_in in E as ->; [|lia..].
  pose proof (world_size o x Hx). destruct iter_run as (rg & Hit & Hb & _ & Hd). cbn [run].
  eapply keeps_bind; [apply Hit|]. eapply keeps_bind; [apply Hit|].
  eapply keeps_bind; [exact Hb|]. eapply keeps_bind; [apply Hd|]. eapply keeps_bind; [apply Hd|].
  rewrite Z.sub_0_r, !u32_small by lia. apply keeps_set. apply wp_M_replace_aux_at; [done|lia..|done].
Qed.

(** *** Erasing and the size *)
Lemma slice_splice pos n : 0 <= pos -> len x <= pos + n -> slice 0 pos x = splice pos n [] x.
Proof. intros Hp Hl. unfold slice, splice. change (Z.to_nat 0) with 0%nat.
  by rewrite drop_0, (drop_ge x), !app_nil_r by lia. Qed.

Lemma splice_nothing pos : 0 <= pos -> splice pos 0 [] x = x.
Proof. intros Hp. unfold splice. rewrite Z.add_0_r. apply take_drop. Qed.

Lemma wp_nothing c E : c = x -> wp (mret tt) m (becomes o c m) E.
Proof. intros ->. apply wp_ret. split; [by apply at_world|apply local_step_refl]. Qed.

Lemma keeps_erase pos n r : word pos = true -> word n = true ->
  (if len x <? pos then Some (Throws out_of_range)
   else set_noexcept α o (splice pos (limit pos n x) [] x)) = Some r ->
  keeps r (string.erase o pos n).
Proof.
  unfold word. intros Hp Hn E. pose proof (world_size o x Hx) as Hs. pose proof (check_run o x Hx pos) as Hc.
  destruct (Z.ltb_spec (len x) pos) as [Hgt|Hle]; injection E as <-.
  - cbn [keeps]. apply wp_bind. unfold wp. by rewrite Hc.
  - unfold string.erase. eapply keeps_bind; [exact Hc|]. apply keeps_set_noexcept. intros E.
    change npos with 4294967295. destruct (Z.eqb_spec n 4294967295) as [->|_].
    + rewrite <-(slice_splice pos) by (unfold limit; lia). apply wp_truncate_at; [done|lia].
    + apply wp_when.
      * intros _. apply wp_bind. eapply wp_value; [apply (limit_run o x Hx); lia|].
        apply wp_M_erase_at; unfold limit; try lia. done.
      * intros E0. replace (limit pos n x) with 0 by (unfold limit; lia).
        rewrite splice_nothing by lia. split; [by apply at_world|apply local_step_refl].
Qed.

Lemma keeps_erase_at i : 0 <= i < len x ->
  keeps (Done (<[o := splice i 1 [] x]> α, None)) (run (EraseAt o i)).
Proof.
  intros Hi. pose proof (world_size o x Hx). destruct iter_run as (rg & Hit & Hb & _ & Hd). cbn [run].
  eapply keeps_bind; [apply Hit|]. apply keeps_set_noexcept. intros E. unfold string.erase_at.
  eapply wp_at_iter_bind; [exact Hb|]. eapply wp_at_iter_bind; [apply Hd|]. rewrite Z.sub_0_r, u32_small by lia.
  apply wp_at_iter. apply wp_M_erase_at; [done|lia..].
Qed.

Lemma keeps_erase_range i1 i2 : iters i1 i2 x = true ->
  keeps (Done (<[o := splice i1 (i2 - i1) [] x]> α, None)) (run (EraseRange o i1 i2)).
Proof.
  unfold iters. intros Hi. pose proof (world_size o x Hx).
  destruct iter_run as (rg & Hit & Hb & He & Hd). cbn [run].
  eapply keeps_bind; [apply Hit|]. eapply keeps_bind; [apply Hit|]. apply keeps_set_noexcept. intros E.
  unfold string.erase_range. eapply wp_at_iter_bind; [exact Hb|]. eapply wp_at_iter_bind; [apply Hd|].
  eapply wp_at_iter_bind; [exact He|]. rewrite Z.sub_0_r, u32_small by lia. apply wp_at_iter.
  case_bool_decide as Heq.
  - injection Heq as ->. rewrite <-slice_splice by lia. apply wp_truncate_at; [done|lia].
  - apply wp_bind. eapply wp_value; [apply Hd|]. rewrite u32_small by lia. apply wp_M_erase_at; [done|lia..].
Qed.

Lemma keeps_pop_back : 0 < len x -> keeps (Done (<[o := slice 0 (len x - 1) x]> α, None)) (string.pop_back o).
Proof.
  intros Hl. pose proof (world_size o x Hx). unfold string.pop_back.
  eapply keeps_bind; [by apply size_run|]. rewrite u32_small by lia. apply keeps_set_noexcept. intros E.
  rewrite (slice_splice _ 1) by lia. apply wp_M_erase_at; [done|lia..].
Qed.

Lemma keeps_clear : keeps (Done (<[o := []]> α, None)) (string.clear o).
Proof. apply keeps_set_noexcept. intros E. apply (wp_truncate_at o x Hx 0). lia. Qed.

Lemma keeps_resize n c r : word n = true ->
  (if len x <? n then set_to α o (x ++ replicate (Z.to_nat (n - len x)) c) n
   else set_noexcept α o (slice 0 n x)) = Some r ->
  keeps r (string.resize o n c).
Proof.
  unfold word. intros Hn E. pose proof (world_size o x Hx). unfold string.resize.
  eapply keeps_bind; [by apply size_run|]. destruct (Z.ltb_spec (len x) n) as [Hlt|Hge]; injection E as <-.
  - rewrite u32_small by lia. apply keeps_set.
    pose proof (wp_append_fill (n - len x) c) as Hwp. unfold word in Hwp.
    replace (len (x ++ replicate (Z.to_nat (n - len x)) c)) with n in Hwp
      by (rewrite length_app, length_replicate; lia). apply Hwp. lia.
  - apply keeps_set_noexcept. intros E. apply wp_when.
    + intros _. apply wp_truncate_at; [done|lia].
    + intros E0. unfold slice. change (Z.to_nat 0) with 0%nat. rewrite drop_0, take_ge by lia.
      split; [by apply at_world|apply local_step_refl].
Qed.

Lemma keeps_reserve n : word n = true ->
  keeps (Done (<[o := x]> α, Some (Z.max n (len x)))) (string.reserve o n).
Proof.
  unfold word. intros Hn. apply keeps_set. generalize (wp_reserve o x n m (at_world o x Hx) ltac:(lia)).
  apply wp_mono; [|done]. apply reserved_becomes.
Qed.

Lemma keeps_shrink_to_fit : keeps (Done (<[o := x]> α, None)) (string.shrink_to_fit o).
Proof.
  apply keeps_set_noexcept. intros E. destruct (at_world o x Hx) as (r & cs & Hv & Hc).
  unfold string.shrink_to_fit. apply wp_bind. eapply wp_capacity; [exact Hv|].
  apply wp_bind. eapply wp_size; [exact Hv|]. apply wp_when; [intros _|intros _; by apply (wp_nothing x E)].
  pose proof (wp_reserve o x 0 m (at_world o x Hx) ltac:(lia)) as Hr. unfold wp in Hr |- *.
  destruct (string.reserve o 0 m) as [[] m'|e m'|]; [by apply reserved_becomes in Hr| |done].
  destruct Hr as [-> _]. by apply (wp_nothing x E).
Qed.

Lemma keeps_push_back c : keeps (Done (<[o := x ++ [c]]> α, Some (len x + 1))) (string.push_back o c).
Proof. apply keeps_set. apply wp_push_back. by apply at_world. Qed.
End Changes.
End Commands.
