(* ===== verification/CxxStringObjects.v ===== *)
(** * The commands that make and destroy strings or change two of them *)
From S2P Require Import Prelude CxxMemory CxxString CxxStringProps CxxStringOps CxxStringLife.
From S2P Require Import CxxStringWorld CxxStringMove CxxStringSpec CxxStringRefine.
From S2P Require Import CxxStringCommands.

#[local] Set Default Proof Using "Type*".

Section Objects.
Context `{OperatorNew} (α : contents) (β : foreign) (m : memory) (Hw : world α β m).

Lemma unused_none o : unused α o = true -> α !! o = None /\ objects m !! o = None.
Proof.
  unfold unused. case_bool_decide as E; [|done]. intros _. split; [done|]. by apply (world_none α β m Hw).
Qed.

Lemma used_other o s y : α !! o = None -> α !! s = Some y -> s <> o.
Proof. congruence. Qed.

(** ** The memory in which a constructor starts *)
Lemma born_other o s r n cs : s <> o -> view s r n cs m -> view s r n cs (born o m).
Proof. intros Hne (u & E & Hr). exists u. cbn. by rewrite lookup_insert_ne. Qed.

Lemma born_readable o q ys : objects m !! o = None -> readable q ys m ->
  chars_at q ys (born o m) /\ in_region q <> Local o.
Proof.
  intros Hn [Hq Hloc]. destruct (Hq o) as ([Hs Hc] & _).
  assert (in_region q <> Local o) as Hne by (intros E; destruct (Hloc o E) as [? ?]; congruence).
  split; [|done]. split; [done|]. intros i y Hy. destruct (Hc i y Hy) as (cs & Ec & Hl).
  exists cs. split; [|done]. destruct (in_region q) as [o'|b]; cbn in *; [|done].
  rewrite lookup_insert_ne; [done|congruence].
Qed.

Lemma wp_construct_chars o q ys : objects m !! o = None -> readable q ys m ->
  wp (string._M_construct o (Some q) (len ys)) (born o m) (becomes o ys (born o m)) (fails (len ys) (born o m)).
Proof.
  intros Hn Hr. destruct (born_readable o q ys Hn Hr) as [Hc Hne].
  eapply wp_M_construct; [apply born_view|done|done].
Qed.

Lemma born_exn o (c : M unit) e : objects m !! o = None -> c (born o m) = Exn e (born o m) ->
  wp (new_object o c) m (fun _ _ => False) (fun e' m' => e' = e /\ m' = m).
Proof.
  intros Hn Hc. apply wp_new_object; [done|]. unfold wp. rewrite Hc. split; [done|]. by apply unborn.
Qed.

Lemma wp_new_copy o s y : objects m !! o = None -> α !! s = Some y -> s <> o ->
  wp (string.new_copy o s) m (becomes o y m) (fails (len y) m).
Proof.
  intros Hn Hy Hne. destruct (world_view _ _ _ Hw s y Hy) as (r & cs & Hv & _).
  destruct (data_run α β m Hw s y Hy) as (q & Eq & Hp).
  pose proof (readable_whole α β m Hw s y q Hy Hp) as Hr. apply wp_constructor; [done|].
  pose proof (born_other o s r _ cs Hne Hv) as Hv'. apply wp_bind. eapply wp_data; [exact Hv'|].
  apply wp_bind. eapply wp_length; [exact Hv'|].
  assert (Pointer r 0 = q) as ->; [|by apply wp_construct_chars].
  destruct Hv as (u & E & _). destruct Hp as (st & Es & ->). rewrite E in Es. by injection Es as <-.
Qed.

Lemma keeps_new_substr o s pos n r : objects m !! o = None -> α !! o = None ->
  with_value β α (Substr s pos n) (fun ys => set_to α o ys (len ys)) = Some r ->
  keeps β m r (string.new_substr o s pos n).
Proof.
  intros Hn Ho E. unfold with_value, value, assume in E. destruct (α !! s) as [y|] eqn:Hy; [|done].
  cbn in E. destruct (word pos && word n) eqn:Hword; [|done]. apply andb_prop in Hword as [Hpos Hnw].
  unfold word in Hpos. cbn in E. assert (s <> o) as Hne by congruence.
  destruct (world_view _ _ _ Hw s y Hy) as (rg & cs & Hv & _).
  destruct (data_run α β m Hw s y Hy) as (q & Eq & Hp).
  pose proof (born_other o s rg _ cs Hne Hv) as Hv'.
  pose proof (world_size α β m Hw s y Hy) as Hs.
  assert (string.size s (born o m) = Val (len y) (born o m)) as Esz.
  { destruct Hv' as (u & Eo & _). unfold string.size, mbind, M_bind, get_object. by rewrite Eo. }
  assert (string._M_data s (born o m) = Val q (born o m)) as Ed.
  { destruct Hv' as (u & Eo & _). unfold string._M_data, mbind, M_bind, get_object. rewrite Eo.
    destruct Hv as (u' & E' & _), Hp as (st & Es & ->). rewrite E' in Es. by injection Es as <-. }
  destruct (Z.ltb_spec (len y) pos) as [Hgt|Hle]; injection E as <-.
  - apply born_exn; [done|]. unfold string._M_check, mbind, M_bind. rewrite Ed, Esz.
    by replace (len y <? pos) with true by lia.
  - eapply keeps_set; [exact Hw|]. apply wp_constructor; [done|]. apply wp_bind. eapply wp_value; [exact Ed|].
    apply wp_bind. eapply (wp_value _ pos); [unfold string._M_check, mbind, M_bind; rewrite Esz;
      by replace (len y <? pos) with false by lia|].
    destruct (readable_part α β m Hw s y q pos n Hy Hp Hnw ltac:(lia)) as [Hr Hl].
    apply wp_bind. eapply (wp_value _ (limit pos n y)).
    { unfold string._M_limit, mbind, M_bind. rewrite Esz, u32_small by lia. unfold limit. cbn. f_equal.
      destruct (Z.ltb_spec n (len y - pos)); lia. }
    pose proof (wp_construct_chars o _ _ Hn Hr) as Hwp. rewrite Hl in Hwp |- *. exact Hwp.
Qed.

Lemma keeps_new o a r : unused α o = true ->
  with_value β α a (fun ys => set_to α o ys (len ys)) = Some r -> keeps β m r (run_new o a).
Proof.
  intros Hu E. destruct (unused_none o Hu) as [Ho Hn]. destruct a as [s|s pos n|p n|p|n c]; cbn [run_new].
  - unfold with_value, value in E. destruct (α !! s) as [y|] eqn:Hy; [|done]. injection E as <-.
    eapply keeps_set; [exact Hw|]. apply wp_new_copy; [done|done|congruence].
  - by apply keeps_new_substr.
  - apply (with_chars α β m Hw) in E as (ys & Hy & Hword & [= <-]).
    destruct (chars_run α β m Hw p n ys Hy Hword) as (q & Eq & _ & Hr & <-).
    eapply keeps_bind; [exact Hw|exact Eq|]. eapply keeps_set; [exact Hw|]. apply wp_constructor; [done|]. by apply wp_construct_chars.
  - apply (with_cstr α β m Hw) in E as (ys & Hy & Hword & [= <-]).
    destruct (cstr_run α β m Hw p ys Hy Hword) as (q & Eq & Hp & Hr & Hrun).
    eapply keeps_bind; [exact Hw|exact Eq|]. eapply keeps_set; [exact Hw|]. apply wp_constructor; [done|].
    apply wp_bind. eapply (wp_value _ (len ys)); [|by apply wp_construct_chars].
    destruct Hr as [_ Hloc]. revert Hrun. unfold traits.length.
    assert (region_cells (in_region q) (born o m) = region_cells (in_region q) m) as ->.
    { destruct (in_region q) as [o'|b] eqn:Eq'; [|done]. cbn. rewrite lookup_insert_ne; [done|].
      intros <-. destruct (Hloc o eq_refl) as [? ?]. congruence. }
    destruct (region_cells _ _); [|done]. destruct (in_range _ _ _); [|done].
    destruct (traits.strlen _); [|done]. by intros [= <-].
  - unfold with_value, value, assume in E. destruct (word n) eqn:Hword; [|done]. injection E as <-.
    unfold word in Hword. rewrite length_replicate, Z2Nat.id by lia.
    eapply keeps_set; [exact Hw|]. apply wp_constructor; [done|].
    eapply wp_M_construct_fill; [apply born_view|lia].
Qed.

Lemma wp_new_default o (E : std_exn -> memory -> Prop) : objects m !! o = None ->
  wp (string.new_default o) m (becomes o [] m) E.
Proof.
  intros Hn. apply wp_new_object; [done|]. apply (wp_finish o (Local o) 0 (replicate 16 None) m (born o m) []).
  - apply born_view.
  - by apply born_step.
  - apply holds_nil.
  - cbn. lia.
Qed.

Lemma keeps_new_default o : unused α o = true ->
  keeps β m (Done (<[o := []]> α, None)) (string.new_default o).
Proof.
  intros Hu. destruct (unused_none o Hu) as [Ho Hn]. eapply keeps_set_noexcept; [exact Hw|].
  intros E. by apply wp_new_default.
Qed.

Lemma keeps_new_input o cs : unused α o = true ->
  keeps β m (Done (<[o := cs]> α, Some (len cs))) (string.new_input o cs).
Proof.
  intros Hu. destruct (unused_none o Hu) as [Ho Hn]. eapply keeps_set; [exact Hw|]. by apply wp_new_input.
Qed.

Lemma keeps_destroy o x : α !! o = Some x -> keeps β m (Done (delete o α, None)) (string.destroy o).
Proof.
  intros Hx. destruct (world_view _ _ _ Hw o x Hx) as (r & cs & Hv & _).
  eapply wp_destroy; [exact Hv|]. by apply (world_destroyed α β m Hw o r (len x) cs).
Qed.

(** ** Two strings *)
Lemma keeps_new_move o s y : unused α o = true -> α !! s = Some y ->
  keeps β m (Done (<[o := y]> (<[s := []]> α), None)) (string.new_move o s).
Proof.
  intros Hu Hy. destruct (unused_none o Hu) as [Ho Hn]. assert (o <> s) as Hne by congruence.
  destruct (world_view _ _ _ Hw s y Hy) as (r & cs & Hv & Hc).
  eapply wp_new_move; [done|done|exact Hv|done|]. intros m' (Hs & H1 & H2).
  apply (world_pair α β m Hw o s y [] m' Hne); [|done|done].
  apply (group_born o); [done|by constructor|done].
Qed.

Lemma keeps_assign_move o s x y : α !! o = Some x -> α !! s = Some y -> o <> s ->
  keeps β m (Done (<[o := y]> (<[s := []]> α), None)) (string.assign_move o s).
Proof.
  intros Hx Hy Hne. destruct (world_view _ _ _ Hw o x Hx) as (r1 & cs1 & Hv1 & Hc1).
  destruct (world_view _ _ _ Hw s y Hy) as (r2 & cs2 & Hv2 & Hc2).
  assert (forall b, r2 = Block b -> r1 <> Block b) as Hap.
  { intros b -> ->. apply (world_apart _ _ _ Hw o s Hne). exists b.
    by rewrite (view_owns _ _ _ _ _ b Hv1), (view_owns _ _ _ _ _ b Hv2). }
  destruct (decide (r2 = Local s)) as [->|Hnl].
  - unfold string.assign_move. cbn [keeps]. apply wp_bind. eapply wp_is_local; [exact Hv2|].
    rewrite bool_decide_true by done. apply wp_bind. apply wp_bind. eapply wp_size; [exact Hv2|].
    apply wp_mono with (Q := becomes o y m) (E := may_fail m None); [|done|].
    + intros u m1 Hb. pose proof (world_becomes α β m Hw o y u m1 Hb) as Hw1.
      pose proof (keeps_clear (<[o := y]> α) β m1 Hw1 s y) as Hk.
      rewrite lookup_insert_ne in Hk by done. specialize (Hk Hy). rewrite insert_insert_ne by done.
      exact Hk.
    + pose proof (view_size _ _ _ _ _ Hv1). pose proof (view_local_length _ _ _ _ _ Hv2 eq_refl) as L2.
      destruct (string_at_room _ _ _ _ _ Hv2 Hc2) as [Hl2 _].
      eapply wp_take_chars; [exact Hv1|apply local_step_refl|lia|exact Hv2|done|].
      intros <-. destruct Hv1 as (_ & _ & E & _). done.
  - destruct (view_not_local _ _ _ _ _ Hv2 Hnl) as [b ->].
    generalize (wp_assign_move o s m Hne b r1 _ cs1 y cs2 (may_fail m None) Hv1 Hv2 Hc2 (Hap b eq_refl)).
    apply wp_mono; [|done]. intros _ m' Hm. by apply (world_moved α β m Hw).
Qed.

(** A short string that is assigned to itself: [memcpy] onto its own source. *)
Lemma self_move_overlaps o (x : list Z) cs : view o (Local o) (len x) cs m -> 2 <= len x ->
  string.assign_move o o m = Ub.
Proof.
  intros (u & E & _ & -> & Hl) Hx. unfold string.assign_move, string._M_is_local, string._M_data,
    string.size, get_object, mbind, M_bind. rewrite E. cbn [mret M_ret _M_p _M_string_length].
  rewrite bool_decide_true by done. cbn iota. rewrite E. cbn [mret M_ret _M_p _M_string_length].
  replace (len x =? 0) with false by lia. cbn [negb when]. rewrite E. cbn [mret M_ret _M_p].
  unfold string._S_copy, traits.copy. replace (len x =? 1) with false by lia.
  replace (len x =? 0) with false by lia. rewrite E. cbn [mret M_ret _M_p].
  assert (traits.disjoint (Pointer (Local o) 0) (Pointer (Local o) 0) (len x) = false) as ->; [|done].
  unfold traits.disjoint. rewrite bool_decide_true by done. cbn [offset negb orb].
  by replace (0 + len x <=? 0) with false by lia.
Qed.

Lemma keeps_swap o s x y : α !! o = Some x -> α !! s = Some y ->
  keeps β m (Done (<[o := y]> (<[s := x]> α), None)) (string.swap o s).
Proof.
  intros Hx Hy. destruct (decide (o = s)) as [<-|Hne].
  { rewrite Hx in Hy. injection Hy as <-. unfold string.swap. rewrite Nat.eqb_refl.
    cbn [keeps]. apply wp_ret. by rewrite !(insert_id α o x Hx). }
  destruct (world_view _ _ _ Hw o x Hx) as (r1 & cs1 & Hv1 & Hc1).
  destruct (world_view _ _ _ Hw s y Hy) as (r2 & cs2 & Hv2 & Hc2).
  cbn [keeps]. generalize (wp_swap o s m Hne r1 r2 x y cs1 cs2 (may_fail m None) Hv1 Hv2 Hc1 Hc2).
  apply wp_mono; [|done]. intros _ m' (ra & rb & ua & ub & d1 & d2 & -> & S1 & S2 & C1 & C2 & R1 & R2).
  apply (world_pair α β m Hw o s y x); [done| | |].
  - eapply (pair_group o s r1 r2 _ _ cs1 cs2 ra rb); [done|exact Hv1|exact Hv2|reflexivity|done| |].
    + intros b. rewrite R1, R2. tauto.
    + intros b Ha%R1 Hb%R2. apply (world_apart _ _ _ Hw o s Hne). exists b.
      by rewrite (view_owns _ _ _ _ _ b Hv1), (view_owns _ _ _ _ _ b Hv2).
  - eapply (shape_string _ ra ua d2); [by apply pair_1|by apply (shape_objects _ _ _ _ m)|done].
  - eapply (shape_string _ rb ub d1); [by apply pair_2|by apply (shape_objects _ _ _ _ m)|done].
Qed.
End Objects.
