(* ===== verification/CxxStringPlus.v ===== *)
(** * Functions that build a string and free it when they fail

    The concatenations and the replacement from input iterators work on a new
    string; an exception in between destroys it. *)
From S2P Require Import Prelude CxxMemory CxxString CxxStringProps CxxStringOps CxxStringLife.
From S2P Require Import CxxStringWorld CxxStringMove CxxStringSpec CxxStringRefine.
From S2P Require Import CxxStringCommands CxxStringObjects.

#[local] Set Default Proof Using "Type*".

Section Building.
Context `{OperatorNew} (β : foreign).

(** [r] has been made in the memory [m]; what fails on the way to [n]
    characters leaves it alive. *)
Lemma fails_abandoned r (x : list Z) n n' m m1 e m2 : string_at r x m1 -> local_step r m m1 -> n <= n' ->
  fails n m1 e m2 -> abandoned r n' m e m2.
Proof.
  intros (rg & cs & Hv & _) Hs Hn [-> He]. split; [by exists rg, (len x), cs|]. split; [done|].
  destruct He as [[-> Hl]|[-> Hf]]; [left; split; [done|lia]|by right].
Qed.

Lemma abandoned_destroyed r n m e m1 : objects m !! r = None -> abandoned r n m e m1 ->
  wp (string.destroy r) m1 (fun _ m2 => fails n m e m2) (fun _ _ => False).
Proof.
  intros Hn ((rg & k & cs & Hv) & Hs & He). eapply wp_destroy; [exact Hv|].
  destruct (destroyed_step r rg k cs m1 Hv) as [Hd Hnone]. split; [|done].
  apply (local_step_none r); [by eapply local_step_trans|done|done].
Qed.

Lemma wp_catch_destroy r n m m1 (body : M unit) Q : objects m !! r = None ->
  wp body m1 Q (abandoned r n m) -> wp (string.catch body (string.destroy r)) m1 Q (fails n m).
Proof.
  intros Hn Hb. unfold string.catch, wp in *. destruct (body m1) as [u m2|e m2|]; [done| |done].
  apply (wp_bind (string.destroy r)). eapply wp_mono; [| |by apply (abandoned_destroyed r n m e)]; [|done].
  intros [] m3 Hf. by apply wp_throw.
Qed.

Lemma world_grows α r x m m1 u : world α β m -> α !! r = None -> becomes r x m u m1 ->
  world (<[r := x]> α) β m1.
Proof. intros Hw _ Hb. by apply (world_becomes α β m Hw r x u). Qed.

(** A string that is not [r]. *)
Lemma lookup_beside (α : contents) r (x y : list Z) s : α !! r = None -> α !! s = Some y ->
  (<[r := x]> α) !! s = Some y.
Proof. intros Hr Hs. rewrite lookup_insert_ne; [done|congruence]. Qed.

Lemma wp_append_str α m o s x y : world α β m -> α !! o = Some x -> α !! s = Some y ->
  wp (string.append_str o s) m (becomes o (x ++ y) m) (fails (len (x ++ y)) m).
Proof.
  intros Hw Hx Hy. destruct (data_run α β m Hw s y Hy) as (q & Eq & Hp). apply wp_bind.
  eapply wp_value; [exact Eq|]. apply wp_bind. eapply wp_value; [by apply (size_run α β m Hw s y)|].
  pose proof (world_size α β m Hw o x Hx). pose proof (world_size α β m Hw s y Hy).
  destruct (readable_whole α β m Hw s y q Hy Hp) as [Hq _].
  apply wp_M_append; [by apply (at_world α β m Hw)|done|lia].
Qed.

Lemma wp_append_chars α m o q x ys : world α β m -> α !! o = Some x -> readable q ys m ->
  wp (string.append o q (len ys)) m (becomes o (x ++ ys) m) (fails (len (x ++ ys)) m).
Proof.
  intros Hw Hx [Hq _]. pose proof (world_size α β m Hw o x Hx) as Hs.
  pose proof (at_world α β m Hw o x Hx) as Hat. pose proof Hat as (r & cs & Hv & _).
  destruct (Hq o) as (_ & Hl & _). apply wp_bind. eapply wp_check_length; [exact Hv|lia|exact Hs|lia| |].
  - intros Hlt. split; [done|]. left. split; [done|]. rewrite length_app. lia.
  - sizes. intros Hle. apply wp_M_append; [done|done|lia].
Qed.

(** A pointer outside of [r] stays good while [r] is worked on. *)
Lemma readable_kept α r x p q ys m m1 : world α β m -> objects m !! r = None -> becomes r x m tt m1 ->
  points p q m -> readable q ys m -> points p q m1.
Proof.
  intros Hw Hn [_ Hs] Hp _. destruct p as [s k|b k]; [|done]. destruct Hp as (st & Es & ->).
  exists st. split; [|done]. rewrite (step_objects _ _ _ Hs); [done|]. intros ->. congruence.
Qed.

Lemma becomes_trans r x y m m1 m2 u v : becomes r x m u m1 -> becomes r y m1 v m2 -> becomes r y m v m2.
Proof. intros [_ H1] [Hy H2]. split; [done|]. by eapply local_step_trans. Qed.

Section Plus.
Context (α : contents) (m : memory) (Hw : world α β m) (r : nat) (Hr : unused α r = true).

Lemma building_none : α !! r = None /\ objects m !! r = None.
Proof. by apply (unused_none α β m Hw). Qed.

(** The string [r] under construction, with the contents [z]; [n] characters
    are wanted. *)
Definition building (n : Z) (x : list Z) (c : M unit) (m1 : memory) : Prop :=
  wp c m1 (becomes r x m) (abandoned r n m).

Lemma building_last n x z (c : M unit) m1 k : becomes r z m tt m1 -> k <= n ->
  wp c m1 (becomes r x m1) (fails k m1) -> building n x c m1.
Proof.
  intros Hb Hk. apply wp_mono.
  - intros u m2 Hb2. by eapply becomes_trans.
  - intros e m2. destruct Hb as [Hz Hs]. by apply (fails_abandoned r z).
Qed.

Lemma building_step n x z z' (c : M unit) (k : M unit) m1 j : becomes r z m tt m1 -> j <= n ->
  wp c m1 (becomes r z' m1) (fails j m1) ->
  (forall m2, becomes r z' m tt m2 -> building n x k m2) -> building n x (_ ← c; k) m1.
Proof.
  intros Hb Hj Hc Hk. apply wp_bind. revert Hc. apply wp_mono.
  - intros [] m2 Hb2. apply Hk. by eapply becomes_trans.
  - intros e m2. destruct Hb as [Hz Hs]. by apply (fails_abandoned r z).
Qed.

Lemma keeps_building n x z (c : M unit) body j : j <= n ->
  wp c m (becomes r z m) (fails j m) -> (forall m1, becomes r z m tt m1 -> building n x body m1) ->
  keeps β m (Done (<[r := x]> α, Some n)) (_ ← c; string.catch body (string.destroy r)).
Proof.
  intros Hj Hc Hb. eapply keeps_set; [exact Hw|]. apply wp_bind. revert Hc. apply wp_mono.
  - intros [] m1 H1. apply wp_catch_destroy; [apply building_none|]. by apply Hb.
  - intros e m1 [-> He]. split; [done|]. destruct He as [[-> Hl]|[-> Hf]]; [left; split; [done|lia]|by right].
Qed.

Lemma building_world z m1 : becomes r z m tt m1 -> world (<[r := z]> α) β m1.
Proof. intros Hb. by apply (world_becomes α β m Hw r z tt). Qed.

Lemma keeps_plus a b x y : α !! a = Some x -> α !! b = Some y ->
  keeps β m (Done (<[r := x ++ y]> α, Some (len (x ++ y)))) (string.plus r a b).
Proof.
  intros Ha Hb. destruct building_none as [Hn Ho]. rewrite length_app.
  apply (keeps_building _ _ x _ _ (len x)); [lia|apply (wp_new_copy α β m Hw); [done|done|congruence]|].
  intros m1 H1. eapply (building_last _ _ x _ _ (len (x ++ y))); [done|rewrite length_app; lia|].
  eapply wp_append_str; [by apply building_world|apply lookup_insert_eq|by apply lookup_beside].
Qed.

Lemma keeps_plus_char a x c : α !! a = Some x ->
  keeps β m (Done (<[r := x ++ [c]]> α, Some (len (x ++ [c])))) (string.plus_char r a c).
Proof.
  intros Ha. destruct building_none as [Hn Ho].
  apply (keeps_building _ _ x _ _ (len x));
    [rewrite length_app; lia|apply (wp_new_copy α β m Hw); [done|done|congruence]|].
  intros m1 H1. eapply (building_last _ _ x _ _ (len (x ++ [c]))); [done|lia|].
  pose proof (wp_append_fill _ β m1 (building_world x m1 H1) r x (lookup_insert_eq _ _ _) 1 c) as Hf.
  by apply Hf.
Qed.

Lemma keeps_plus_cstr a x p ys : α !! a = Some x -> cstr_in β α p = Some ys -> word (len ys) = true ->
  keeps β m (Done (<[r := x ++ ys]> α, Some (len (x ++ ys)))) (run (PlusCstr r a p)).
Proof.
  intros Ha Hy Hword. destruct building_none as [Hn Ho].
  destruct (cstr_run α β m Hw p ys Hy Hword) as (q & Eq & Hp & Hq & _). cbn [run].
  eapply keeps_bind; [exact Hw|exact Eq|].
  apply (keeps_building _ _ x _ _ (len x));
    [rewrite length_app; lia|apply (wp_new_copy α β m Hw); [done|done|congruence]|].
  intros m1 H1. eapply (building_last _ _ x _ _ (len (x ++ ys))); [done|lia|].
  pose proof (building_world x m1 H1) as Hw1.
  assert (cstr_in β (<[r := x]> α) p = Some ys) as Hy1.
  { revert Hy. destruct p as [s k|b k]; [|done]. cbn. destruct (α !! s) as [z|] eqn:Hs; [|done].
    by rewrite (lookup_beside α r x z s Hn Hs). }
  destruct (readable_cstr _ β m1 p q ys Hw1 Hy1 Hword) as [Hr1 Hrun1].
  { by apply (readable_kept α r x p q ys m m1). }
  unfold string.append_cstr. apply wp_bind. eapply wp_value; [exact Hrun1|].
  eapply wp_append_chars; [exact Hw1|apply lookup_insert_eq|done].
Qed.

Lemma keeps_substr_of o pos n f : with_value β α (Substr o pos n) (fun ys => set_to α r ys (len ys)) = Some f ->
  keeps β m f (string.substr r o pos n).
Proof.
  intros E. destruct building_none as [Hn Ho]. pose proof E as Ek.
  unfold with_value, value, assume in E. destruct (α !! o) as [y|] eqn:Hy; [|done]. cbn in E.
  destruct (word pos && word n) eqn:Hword; [|done]. cbn in E.
  pose proof (check_run α β m Hw o y Hy pos) as Hc. unfold string.substr.
  destruct (len y <? pos) eqn:Hl.
  - injection E as <-. cbn [keeps]. apply wp_bind. unfold wp. by rewrite Hc.
  - eapply keeps_bind; [exact Hw|exact Hc|]. by apply (keeps_new_substr α β m Hw).
Qed.

Lemma building_read {A} n x (c : M A) v k m1 : c m1 = Val v m1 -> building n x (k v) m1 ->
  building n x (y ← c; k y) m1.
Proof. intros E Hk. apply wp_bind. by eapply wp_value. Qed.

Lemma building_reserve n x z (k : M unit) m1 j : becomes r z m tt m1 -> 0 <= j -> Z.max j (len z) <= n ->
  (forall m2, becomes r z m tt m2 -> building n x k m2) ->
  building n x (_ ← string.reserve r j; k) m1.
Proof.
  intros Hb Hj Hn Hk. eapply (building_step n x z z _ _ _ (Z.max j (len z))); [done|done| |done].
  destruct Hb as [Hz _]. generalize (wp_reserve r z j m1 Hz Hj). apply wp_mono; [|done].
  intros u m2. by apply reserved_becomes.
Qed.

Lemma keeps_plus_char_left c b y : α !! b = Some y ->
  keeps β m (Done (<[r := [c] ++ y]> α, Some (len ([c] ++ y)))) (string.plus_char_left r c b).
Proof.
  intros Hb. destruct building_none as [Hn Ho]. pose proof (world_size α β m Hw b y Hb) as Hs.
  assert (len ([c] ++ y) = len y + 1) as El by (rewrite length_app; simpl; lia).
  apply (keeps_building _ _ [] _ _ 0); [lia|by apply (wp_new_default α β m Hw)|]. intros m1 H1.
  eapply building_read.
  { apply (size_run _ β m1 (building_world [] m1 H1) b y). by apply lookup_beside. }
  rewrite u32_small by lia. eapply (building_reserve _ _ []); [done|lia|cbn; lia|]. intros m2 H2.
  eapply (building_step _ _ [] [c] _ _ _ 1); [done|lia| |].
  { apply (wp_append_fill _ β m2 (building_world [] m2 H2) r []); [apply lookup_insert_eq|done]. }
  intros m3 H3. eapply (building_last _ _ [c] _ _ (len ([c] ++ y))); [done|lia|].
  eapply wp_append_str; [by apply building_world|apply lookup_insert_eq|by apply lookup_beside].
Qed.

Lemma keeps_plus_cstr_left p b ys y : α !! b = Some y -> cstr_in β α p = Some ys -> word (len ys) = true ->
  keeps β m (Done (<[r := ys ++ y]> α, Some (len (ys ++ y)))) (run (PlusCstrLeft r p b)).
Proof.
  intros Hb Hy Hword. destruct building_none as [Hn Ho]. pose proof (world_size α β m Hw b y Hb) as Hs.
  destruct (cstr_run α β m Hw p ys Hy Hword) as (q & Eq & Hp & Hq & Hrun). cbn [run].
  assert (len (ys ++ y) = len ys + len y) as El by (rewrite length_app; lia).
  eapply keeps_bind; [exact Hw|exact Eq|]. eapply keeps_bind; [exact Hw|exact Hrun|].
  apply (keeps_building _ _ [] _ _ 0); [lia|by apply (wp_new_default α β m Hw)|]. intros m1 H1.
  eapply building_read.
  { apply (size_run _ β m1 (building_world [] m1 H1) b y). by apply lookup_beside. }
  assert (0 <= u32 (len ys + len y) <= len ys + len y) as Hu.
  { unfold u32. split; [by apply Z.mod_pos_bound|apply Z.mod_le; lia]. }
  eapply (building_reserve _ _ []); [done|lia|cbn; lia|]. intros m2 H2.
  assert (cstr_in β (<[r := []]> α) p = Some ys) as Hy2.
  { revert Hy. destruct p as [s k|b' k]; [|done]. cbn. destruct (α !! s) as [z|] eqn:Hz; [|done].
    by rewrite (lookup_beside α r [] z s Hn Hz). }
  destruct (readable_cstr _ β m2 p q ys (building_world [] m2 H2) Hy2 Hword) as [Hr2 _].
  { by apply (readable_kept α r [] p q ys m m2). }
  eapply (building_step _ _ [] ys _ _ _ (len ys)); [done|lia| |].
  { apply (wp_append_chars _ m2 r q [] ys (building_world [] m2 H2)); [apply lookup_insert_eq|done]. }
  intros m3 H3. eapply (building_last _ _ ys _ _ (len (ys ++ y))); [done|lia|].
  eapply wp_append_str; [by apply building_world|apply lookup_insert_eq|by apply lookup_beside].
Qed.

(** ** Replacement from input iterators *)
Lemma wp_scoped_destroy n (body : M unit) m1 (x : list Z) (α' : contents) :
  wp body m1 (fun _ m2 => world (<[r := x]> α') β m2) (abandoned r n m) -> α' !! r = None ->
  wp (scoped string.destroy r body) m1 (fun _ m2 => world α' β m2) (fails n m).
Proof.
  intros Hb Hno. destruct building_none as [Hn Ho]. unfold scoped, wp in *.
  destruct (body m1) as [u m2|e m2|]; [| |done].
  - pose proof (keeps_destroy _ β m2 Hb r x (lookup_insert_eq _ _ _)) as Hd. cbn [keeps] in Hd.
    rewrite delete_insert_eq, delete_id in Hd by done.
    apply (wp_bind (string.destroy r)). revert Hd. apply wp_mono; [|done]. intros [] m3 Hw3. by apply wp_ret.
  - apply (wp_bind (string.destroy r)). eapply wp_mono; [| |by apply (abandoned_destroyed r n m e)]; [|done].
    intros [] m3 Hf. by apply wp_throw.
Qed.

Lemma keeps_replace_input o x i1 i2 cs f : α !! o = Some x -> iters i1 i2 x = true -> word (len cs) = true ->
  splice_at α o x i1 (i2 - i1) cs = Some f -> keeps β m f (run (ReplaceInput r o i1 i2 cs)).
Proof.
  unfold iters. intros Hx Hi Hword E. destruct building_none as [Hn Ho].
  assert (o <> r) as Hne by congruence. pose proof (world_size α β m Hw o x Hx) as Hs.
  apply (splice_at_in α β m Hw o x Hx) in E as ->; [|lia..].
  set (y := splice i1 (i2 - i1) cs x).
  assert (len cs <= len y) as Hl by (unfold y, splice; rewrite !length_app; lia).
  destruct (iter_run α β m Hw o x Hx) as (rg & Hit & Hb & _ & Hd). cbn [run keeps].
  apply wp_bind. eapply wp_value; [apply Hit|]. apply wp_bind. eapply wp_value; [apply Hit|].
  apply wp_bind. generalize (wp_new_input r cs m Ho). apply wp_mono.
  2: { intros e m1 [-> He]. split; [done|]. destruct He as [[-> ?]|[-> Hf]]; [left; split; [done|lia]|by right]. }
  intros [] m1 H1. pose proof (building_world cs m1 H1) as Hw1. destruct H1 as [Hc1 Hs1].
  assert ((<[r := cs]> α) !! o = Some x) as Hx1 by (by apply lookup_beside).
  destruct (iter_run _ β m1 Hw1 o x Hx1) as (rg1 & _ & Hb1 & _ & _).
  assert (rg1 = rg) as ->.
  { revert Hb Hb1. unfold string.begin, string._M_data, mbind, M_bind, get_object.
    rewrite (step_objects _ _ _ Hs1 o) by done. destruct (objects m !! o) as [st|]; [|done].
    intros [= E1] [= E2]. congruence. }
  assert (forall i j, string.pointer_diff (Pointer rg i) (Pointer rg j) m1 = Val (i - j) m1) as Hd1.
  { intros i j. unfold string.pointer_diff. by rewrite bool_decide_true. }
  apply (wp_scoped_destroy _ _ _ cs); [|by rewrite lookup_insert_ne].
  apply wp_bind. eapply wp_value; [apply Hd1|]. apply wp_bind. eapply wp_value; [exact Hb1|].
  apply wp_bind. eapply wp_value; [apply Hd1|].
  destruct (data_run _ β m1 Hw1 r cs (lookup_insert_eq _ _ _)) as (q & Eq & Hp).
  apply wp_bind. eapply wp_value; [exact Eq|]. apply wp_bind.
  eapply wp_value; [apply (size_run _ β m1 Hw1 r cs), lookup_insert_eq|].
  destruct (readable_whole _ β m1 Hw1 r cs q (lookup_insert_eq _ _ _) Hp) as [Hq _].
  rewrite Z.sub_0_r, !u32_small by lia.
  generalize (wp_M_replace_at _ β m1 Hw1 o x Hx1 i1 (i2 - i1) q cs ltac:(lia) ltac:(lia) ltac:(lia) (Hq o)).
  apply wp_mono.
  - intros u m2 Hb2. pose proof (world_becomes _ β m1 Hw1 o y u m2 Hb2) as Hw2.
    by rewrite insert_insert_ne in Hw2.
  - intros e m2. by apply (fails_abandoned r cs).
Qed.

(** ** Both operands rvalues *)

(** The result is the concatenation, the operand it was built in is empty and
    the other one unchanged. *)
Lemma wp_plus_move a b x y : α !! a = Some x -> α !! b = Some y ->
  wp (string.plus_move r a b) m
    (fun _ m' => world (<[r := x ++ y]> (<[a := []]> α)) β m' \/ world (<[r := x ++ y]> (<[b := []]> α)) β m')
    (fails (len (x ++ y)) m).
Proof.
  intros Ha Hb. destruct building_none as [Hn Ho]. assert (a <> r /\ b <> r) as [Na Nb] by (split; congruence).
  pose proof (world_size α β m Hw a x Ha). pose proof (world_size α β m Hw b y Hb).
  assert (forall o z m1 (E : std_exn -> memory -> Prop), o <> r -> world (<[o := z]> α) β m1 ->
    wp (string.new_move r o) m1 (fun _ m' => world (<[r := z]> (<[o := []]> α)) β m') E) as Hmove.
  { intros o z m1 E Hor Hw1. pose proof (keeps_new_move _ β m1 Hw1 r o z) as Hk.
    unfold unused in Hk. rewrite lookup_insert_ne, lookup_insert_eq, insert_insert_eq in Hk by done.
    rewrite bool_decide_true in Hk by done. specialize (Hk eq_refl eq_refl). revert Hk. by apply wp_mono. }
  unfold string.plus_move. apply wp_bind. eapply wp_value; [by apply (size_run α β m Hw a x)|].
  apply wp_bind. eapply wp_value; [by apply (size_run α β m Hw b y)|].
  destruct (world_view _ _ _ Hw a x Ha) as (ra & ca & Hva & _).
  destruct (world_view _ _ _ Hw b y Hb) as (rb & cb & Hvb & _).
  apply wp_bind. eapply wp_capacity; [exact Hva|]. apply wp_bind. eapply wp_capacity; [exact Hvb|].
  destruct (_ && _).
  - apply wp_bind. destruct (data_run α β m Hw a x Ha) as (q & Eq & Hp).
    destruct (readable_whole α β m Hw a x q Ha Hp) as [Hq _].
    assert (splice 0 0 x y = x ++ y) as Es by (unfold splice; done).
    apply wp_mono with (Q := becomes b (x ++ y) m) (E := fails (len (x ++ y)) m); [|done|].
    + intros u m1 Hb1. eapply wp_mono; [| |apply (Hmove b (x ++ y) m1 (fun _ _ => False) Nb)]; [by right|done|].
      by apply (world_becomes α β m Hw b (x ++ y) u).
    + unfold string.insert_str. apply wp_bind. eapply wp_value; [exact Eq|].
      apply wp_bind. eapply wp_value; [by apply (size_run α β m Hw a x)|].
      unfold string.replace. apply wp_bind.
      eapply (wp_value _ 0); [rewrite (check_run α β m Hw b y Hb); by replace (len y <? 0) with false by lia|].
      apply wp_bind. eapply wp_value; [apply (limit_run α β m Hw b y Hb); lia|].
      replace (limit 0 0 y) with 0 by (unfold limit; lia). rewrite <-Es.
      apply (wp_M_replace_at α β m Hw b y Hb 0 0 q x); [lia..|done].
  - apply wp_bind. generalize (wp_append_str α m a b x y Hw Ha Hb). apply wp_mono; [|done].
    intros u m1 Hb1. eapply wp_mono; [| |apply (Hmove a (x ++ y) m1 (fun _ _ => False) Na)]; [by left|done|].
    by apply (world_becomes α β m Hw a (x ++ y) u).
Qed.
End Plus.
End Building.
