(* ===== verification/CxxStringSearch.v ===== *)
(** * Searching and comparing strings: bits/basic_string.h and basic_string.tcc

    Overloads carry a suffix as in [CxxString]: the functions without one take
    a pointer and a length, [_char] one character.  A loop has as much fuel as
    it has positions to look at; without fuel it is undefined, so that what is
    proved of a loop contains that it ends. *)
From S2P Require Import Prelude CxxMemory CxxString.

Module search.
Import string.

(** [_M_data()[pos]] *)
Definition char_at (this : nat) (pos : Z) : M Z := operator_index this pos.
Definition elem (s : pointer) : M Z :=
  cs ← get_chars s 1; match cs with [c] => mret c | _ => ub end.

(** ** Loops *)

(** [for (; pos < size(); ++pos) if (test(pos)) return pos;] *)
Fixpoint scan_up (fuel : nat) (this : nat) (test : Z -> M bool) (pos : Z) : M Z :=
  match fuel with
  | O => ub
  | S fuel' =>
      n ← size this;
      if pos <? n then
        b ← test pos;
        if (b : bool) then mret pos else scan_up fuel' this test (u32 (pos + 1))
      else mret npos
  end.
(** [do if (test(pos)) return pos; while (pos-- != 0);] *)
Fixpoint scan_down (fuel : nat) (test : Z -> M bool) (pos : Z) : M Z :=
  match fuel with
  | O => ub
  | S fuel' =>
      b ← test pos;
      if (b : bool) then mret pos
      else if pos =? 0 then mret npos else scan_down fuel' test (u32 (pos - 1))
  end.
(** [for (; pos-- > 0; ) if (test(pos)) return pos;] *)
Fixpoint scan_below (fuel : nat) (test : Z -> M bool) (pos : Z) : M Z :=
  match fuel with
  | O => ub
  | S fuel' =>
      if 0 <? pos then
        b ← test (u32 (pos - 1));
        if (b : bool) then mret (u32 (pos - 1)) else scan_below fuel' test (u32 (pos - 1))
      else mret npos
  end.

(** [--size; if (size > pos) size = pos;] *)
Definition last_position (size pos : Z) : Z :=
  let size := u32 (size - 1) in if pos <? size then pos else size.
Definition enough (n : Z) : nat := S (Z.to_nat n).

(** Is the character at [pos] one of the [n] at [s]? *)
Definition is_one_of (this : nat) (s : pointer) (n : Z) (pos : Z) : M bool :=
  c ← char_at this pos; p ← traits.find s n c; mret (bool_decide (is_Some p)).
Definition is_none_of (this : nat) (s : pointer) (n : Z) (pos : Z) : M bool :=
  c ← char_at this pos; p ← traits.find s n c; mret (negb (bool_decide (is_Some p))).
Definition is_char (this : nat) (c : Z) (pos : Z) : M bool :=
  d ← char_at this pos; mret (d =? c).
Definition is_other (this : nat) (c : Z) (pos : Z) : M bool :=
  d ← char_at this pos; mret (negb (d =? c)).

Section Search.
Context `{traits.MemCmp}.

(** ** find and rfind *)
Fixpoint find_loop (fuel : nat) (s : pointer) (n elem0 : Z) (data last first : pointer) (len : Z) : M Z :=
  match fuel with
  | O => ub
  | S fuel' =>
      if n <=? len then
        p ← traits.find first (u32 (len - n + 1)) elem0;
        match p with
        | None => mret npos
        | Some first =>
            r ← traits.compare first s n;
            if r =? 0 then pointer_diff first data
            else
              let first := padd first 1 in
              len ← pointer_diff last first;
              find_loop fuel' s n elem0 data last first (u32 len)
        end
      else mret npos
  end.
Definition find (this : nat) (s : pointer) (pos n : Z) : M Z :=
  sz ← size this;
  if n =? 0 then mret (if pos <=? sz then pos else npos)
  else if sz <=? pos then mret npos
  else
    elem0 ← elem s;
    data ← _M_data this;
    find_loop (enough sz) s n elem0 data (padd data sz) (padd data pos) (u32 (sz - pos)).
Definition find_str (this str : nat) (pos : Z) : M Z :=
  p ← _M_data str; n ← size str; find this p pos n.
Definition find_cstr (this : nat) (s : pointer) (pos : Z) : M Z :=
  n ← traits.length s; find this s pos n.
Definition find_char (this : nat) (c pos : Z) : M Z :=
  sz ← size this;
  if pos <? sz then
    data ← _M_data this;
    p ← traits.find (padd data pos) (u32 (sz - pos)) c;
    match p with Some p => pointer_diff p data | None => mret npos end
  else mret npos.

Definition occurs_at (s : pointer) (n : Z) (data : pointer) (pos : Z) : M bool :=
  r ← traits.compare (padd data pos) s n; mret (r =? 0).
Definition rfind (this : nat) (s : pointer) (pos n : Z) : M Z :=
  sz ← size this;
  if n <=? sz then
    let pos := Z.min (u32 (sz - n)) pos in
    data ← _M_data this;
    scan_down (enough sz) (occurs_at s n data) pos
  else mret npos.
Definition rfind_str (this str : nat) (pos : Z) : M Z :=
  p ← _M_data str; n ← size str; rfind this p pos n.
Definition rfind_cstr (this : nat) (s : pointer) (pos : Z) : M Z :=
  n ← traits.length s; rfind this s pos n.
Definition rfind_char (this : nat) (c pos : Z) : M Z :=
  sz ← size this;
  if negb (sz =? 0)
  then scan_below (enough sz) (is_char this c) (u32 (last_position sz pos + 1))
  else mret npos.

(** ** Searching for characters of a set *)
Definition find_first_of (this : nat) (s : pointer) (pos n : Z) : M Z :=
  sz ← size this;
  if n =? 0 then mret npos else scan_up (enough sz) this (is_one_of this s n) pos.
Definition find_first_of_str (this str : nat) (pos : Z) : M Z :=
  p ← _M_data str; n ← size str; find_first_of this p pos n.
Definition find_first_of_cstr (this : nat) (s : pointer) (pos : Z) : M Z :=
  n ← traits.length s; find_first_of this s pos n.
Definition find_first_of_char (this : nat) (c pos : Z) : M Z := find_char this c pos.

Definition find_last_of (this : nat) (s : pointer) (pos n : Z) : M Z :=
  sz ← size this;
  if negb (sz =? 0) && negb (n =? 0)
  then scan_down (enough sz) (is_one_of this s n) (last_position sz pos)
  else mret npos.
Definition find_last_of_str (this str : nat) (pos : Z) : M Z :=
  p ← _M_data str; n ← size str; find_last_of this p pos n.
Definition find_last_of_cstr (this : nat) (s : pointer) (pos : Z) : M Z :=
  n ← traits.length s; find_last_of this s pos n.
Definition find_last_of_char (this : nat) (c pos : Z) : M Z := rfind_char this c pos.

Definition find_first_not_of (this : nat) (s : pointer) (pos n : Z) : M Z :=
  sz ← size this; scan_up (enough sz) this (is_none_of this s n) pos.
Definition find_first_not_of_str (this str : nat) (pos : Z) : M Z :=
  p ← _M_data str; n ← size str; find_first_not_of this p pos n.
Definition find_first_not_of_cstr (this : nat) (s : pointer) (pos : Z) : M Z :=
  n ← traits.length s; find_first_not_of this s pos n.
Definition find_first_not_of_char (this : nat) (c pos : Z) : M Z :=
  sz ← size this; scan_up (enough sz) this (is_other this c) pos.

Definition find_last_not_of (this : nat) (s : pointer) (pos n : Z) : M Z :=
  sz ← size this;
  if negb (sz =? 0)
  then scan_down (enough sz) (is_none_of this s n) (last_position sz pos)
  else mret npos.
Definition find_last_not_of_str (this str : nat) (pos : Z) : M Z :=
  p ← _M_data str; n ← size str; find_last_not_of this p pos n.
Definition find_last_not_of_cstr (this : nat) (s : pointer) (pos : Z) : M Z :=
  n ← traits.length s; find_last_not_of this s pos n.
Definition find_last_not_of_char (this : nat) (c pos : Z) : M Z :=
  sz ← size this;
  if negb (sz =? 0)
  then scan_down (enough sz) (is_other this c) (last_position sz pos)
  else mret npos.

(** ** compare *)
Definition compare_chars (p : pointer) (n1 : Z) (q : pointer) (n2 : Z) : M Z :=
  r ← traits.compare p q (Z.min n1 n2);
  mret (if r =? 0 then _S_compare n1 n2 else r).
Definition compare (this str : nat) : M Z :=
  n1 ← size this; n2 ← size str; p ← _M_data this; q ← _M_data str; compare_chars p n1 q n2.
Definition compare_substr (this : nat) (pos n : Z) (str : nat) : M Z :=
  _ ← _M_check this pos; n ← _M_limit this pos n;
  n2 ← size str; p ← _M_data this; q ← _M_data str; compare_chars (padd p pos) n q n2.
Definition compare_substrs (this : nat) (pos1 n1 : Z) (str : nat) (pos2 n2 : Z) : M Z :=
  _ ← _M_check this pos1; _ ← _M_check str pos2;
  n1 ← _M_limit this pos1 n1; n2 ← _M_limit str pos2 n2;
  p ← _M_data this; q ← _M_data str; compare_chars (padd p pos1) n1 (padd q pos2) n2.
Definition compare_cstr (this : nat) (s : pointer) : M Z :=
  n1 ← size this; n2 ← traits.length s; p ← _M_data this; compare_chars p n1 s n2.
Definition compare_substr_cstr (this : nat) (pos n1 : Z) (s : pointer) : M Z :=
  _ ← _M_check this pos; n1 ← _M_limit this pos n1;
  n2 ← traits.length s; p ← _M_data this; compare_chars (padd p pos) n1 s n2.
Definition compare_substr_chars (this : nat) (pos n1 : Z) (s : pointer) (n2 : Z) : M Z :=
  _ ← _M_check this pos; n1 ← _M_limit this pos n1;
  p ← _M_data this; compare_chars (padd p pos) n1 s n2.

(** ** Relational operators *)
Definition operator_eq (lhs rhs : nat) : M bool :=
  n1 ← size lhs; n2 ← size rhs;
  if n1 =? n2 then
    p ← _M_data lhs; q ← _M_data rhs; n ← size lhs; r ← traits.compare p q n; mret (r =? 0)
  else mret false.
Definition operator_ne (lhs rhs : nat) : M bool := b ← operator_eq lhs rhs; mret (negb b).
Definition operator_lt (lhs rhs : nat) : M bool := r ← compare lhs rhs; mret (r <? 0).
Definition operator_gt (lhs rhs : nat) : M bool := r ← compare lhs rhs; mret (0 <? r).
Definition operator_le (lhs rhs : nat) : M bool := r ← compare lhs rhs; mret (r <=? 0).
Definition operator_ge (lhs rhs : nat) : M bool := r ← compare lhs rhs; mret (0 <=? r).
Definition operator_eq_cstr (lhs : nat) (rhs : pointer) : M bool :=
  r ← compare_cstr lhs rhs; mret (r =? 0).
Definition operator_lt_cstr (lhs : nat) (rhs : pointer) : M bool :=
  r ← compare_cstr lhs rhs; mret (r <? 0).
Definition operator_cstr_lt (lhs : pointer) (rhs : nat) : M bool :=
  r ← compare_cstr rhs lhs; mret (0 <? r).
End Search.
End search.
