(* ===== verification/CxxStringSearchProps.v ===== *)
(** * Searching and comparing strings: what is found

    The searches against their definition on lists: the first (last) position
    that satisfies a predicate, [npos] if there is none.  Comparison gives the
    sign of the lexicographic order of the characters. *)
From S2P Require Import Prelude CxxMemory CxxString CxxStringProps CxxStringOps CxxStringLife.
From S2P Require Import CxxStringWorld CxxStringMove CxxStringSpec CxxStringRefine.
From S2P Require Import CxxStringCommands CxxStringSearch.

#[local] Set Default Proof Using "Type*".

(** ** Reference definitions *)
Definition occurs (ys x : list Z) (i : Z) : bool :=
  (i + len ys <=? len x) && bool_decide (slice i (len ys) x = ys).
Definition char_in (ys x : list Z) (i : Z) : bool :=
  match x !! Z.to_nat i with Some c => bool_decide (c ∈ ys) | None => false end.
Definition char_not_in (ys x : list Z) (i : Z) : bool :=
  match x !! Z.to_nat i with Some c => negb (bool_decide (c ∈ ys)) | None => false end.

Definition first_in (P : Z -> bool) (lo hi r : Z) : Prop :=
  r = npos /\ (forall i, lo <= i < hi -> P i = false) \/
  lo <= r < hi /\ P r = true /\ forall i, lo <= i < r -> P i = false.
Definition last_in (P : Z -> bool) (hi r : Z) : Prop :=
  r = npos /\ (forall i, 0 <= i <= hi -> P i = false) \/
  0 <= r <= hi /\ P r = true /\ forall i, r < i <= hi -> P i = false.

Fixpoint lexicographic (xs ys : list Z) : comparison :=
  match xs, ys with
  | [], [] => Eq
  | [], _ => Lt
  | _, [] => Gt
  | x :: xs', y :: ys' => match x ?= y with Eq => lexicographic xs' ys' | c => c end
  end.
Definition sign (c : comparison) : Z := match c with Eq => 0 | Lt => -1 | Gt => 1 end.

Lemma first_in_skip P lo hi r : P lo = false -> first_in P (lo + 1) hi r -> first_in P lo hi r.
Proof.
  intros H0 [[-> Hn]|(Hr & HP & Hn)]; [left|right].
  - split; [done|]. intros i Hi. destruct (decide (i = lo)) as [->|]; [done|]. apply Hn. lia.
  - split; [lia|]. split; [done|]. intros i Hi. destruct (decide (i = lo)) as [->|]; [done|]. apply Hn. lia.
Qed.

Lemma last_in_skip P hi r : P hi = false -> last_in P (hi - 1) r -> last_in P hi r.
Proof.
  intros H0 [[-> Hn]|(Hr & HP & Hn)]; [left|right].
  - split; [done|]. intros i Hi. destruct (decide (i = hi)) as [->|]; [done|]. apply Hn. lia.
  - split; [lia|]. split; [done|]. intros i Hi. destruct (decide (i = hi)) as [->|]; [done|]. apply Hn. lia.
Qed.

(** ** Lists *)
Lemma index_of_spec c xs : match traits.index_of c xs with
  | Some k => 0 <= k < len xs /\ xs !! Z.to_nat k = Some c /\ forall j, 0 <= j < k -> xs !! Z.to_nat j <> Some c
  | None => c ∉ xs
  end.
Proof.
  induction xs as [|x xs IH]; cbn [traits.index_of]; [apply not_elem_of_nil|].
  destruct (Z.eqb_spec x c) as [->|Hne].
  - cbn [length]. split; [lia|]. split; [done|]. intros j Hj. lia.
  - destruct (traits.index_of c xs) as [k|]; cbn.
    + destruct IH as (Hk & Hl & Hj). split; [lia|].
      replace (Z.to_nat (k + 1)) with (S (Z.to_nat k)) by lia. split; [done|]. intros j Hj'.
      destruct (Z.to_nat j) as [|n] eqn:En; [cbn; congruence|]. cbn.
      replace n with (Z.to_nat (j - 1)) by lia. apply Hj. lia.
    + by rewrite not_elem_of_cons.
Qed.

Lemma index_of_elem c xs : is_Some (traits.index_of c xs) <-> c ∈ xs.
Proof.
  pose proof (index_of_spec c xs) as Hs. destruct (traits.index_of c xs) as [k|].
  - split; [|by eexists]. intros _. destruct Hs as (_ & Hl & _). by eapply list_elem_of_lookup_2.
  - split; [by intros [? ?]|done].
Qed.

Lemma first_difference_eq xs ys : length xs = length ys -> first_difference xs ys = 0 <-> xs = ys.
Proof.
  revert ys. induction xs as [|x xs IH]; intros [|y ys] Hl; try done. cbn. injection Hl as Hl.
  destruct (Z.eqb_spec x y) as [->|Hne].
  - rewrite (IH ys Hl). split; [by intros ->|by intros [= ->]].
  - split; [lia|]. intros [= ? _]. done.
Qed.

Lemma slice_lookup {A} i n (x : list A) j : 0 <= i -> 0 <= j < n ->
  slice i n x !! Z.to_nat j = x !! Z.to_nat (i + j).
Proof.
  intros Hi Hj. unfold slice. rewrite lookup_take_lt, lookup_drop by lia. f_equal. lia.
Qed.

Lemma occurs_head ys x i y : occurs ys x i = true -> 0 <= i -> ys !! 0%nat = Some y ->
  x !! Z.to_nat i = Some y.
Proof.
  unfold occurs. intros [Hl Hs]%andb_prop Hi Hy. apply bool_decide_eq_true in Hs.
  assert (0 < len ys) by (apply lookup_lt_Some in Hy; lia).
  pose proof (slice_lookup i (len ys) x 0 Hi ltac:(lia)) as Hk. rewrite Hs, Z.add_0_r in Hk.
  by rewrite <-Hk.
Qed.

Lemma occurs_short ys (x : list Z) i : len x < i + len ys -> occurs ys x i = false.
Proof. intros Hl. unfold occurs. by replace (i + len ys <=? len x) with false by lia. Qed.

Lemma first_in_extend P lo hi r : P hi = false -> first_in P lo hi r -> first_in P lo (hi + 1) r.
Proof.
  intros HP0 [[-> Hn]|(Hr & HP & Hn)]; [left|right].
  - split; [done|]. intros i Hi. destruct (decide (i = hi)) as [->|]; [done|]. apply Hn. lia.
  - split; [lia|]. by split.
Qed.

Lemma last_in_extend P hi hi' r : (forall i, hi < i <= hi' -> P i = false) -> hi <= hi' ->
  last_in P hi r -> last_in P hi' r.
Proof.
  intros HP0 Hle [[-> Hn]|(Hr & HP & Hn)]; [left|right].
  - split; [done|]. intros i Hi. destruct (decide (hi < i)); [apply HP0; lia|apply Hn; lia].
  - split; [lia|]. split; [done|]. intros i Hi. destruct (decide (hi < i)); [apply HP0; lia|apply Hn; lia].
Qed.

Lemma first_in_ext P Q lo hi r : (forall i, lo <= i < hi -> P i = Q i) -> first_in P lo hi r ->
  first_in Q lo hi r.
Proof.
  intros He [[-> Hn]|(Hr & HP & Hn)]; [left|right].
  - split; [done|]. intros i Hi. rewrite <-He by lia. by apply Hn.
  - split; [lia|]. rewrite <-He by lia. split; [done|]. intros i Hi. rewrite <-He by lia. by apply Hn.
Qed.

Lemma last_in_ext P Q hi r : (forall i, 0 <= i <= hi -> P i = Q i) -> last_in P hi r -> last_in Q hi r.
Proof.
  intros He [[-> Hn]|(Hr & HP & Hn)]; [left|right].
  - split; [done|]. intros i Hi. rewrite <-He by lia. by apply Hn.
  - split; [lia|]. rewrite <-He by lia. split; [done|]. intros i Hi. rewrite <-He by lia. apply Hn. lia.
Qed.

Lemma occurs_char c (x : list Z) i : 0 <= i -> char_in [c] x i = occurs [c] x i.
Proof.
  intros Hi. unfold char_in, occurs. change (len [c]) with 1.
  destruct (x !! Z.to_nat i) as [d|] eqn:Ed.
  - pose proof (lookup_lt_Some _ _ _ Ed). replace (i + 1 <=? len x) with true by lia. cbn [andb].
    assert (slice i 1 x = [d]) as ->.
    { apply list_eq. intros [|j]; unfold slice.
      - rewrite lookup_take_lt, lookup_drop by lia. by rewrite Nat.add_0_r.
      - by rewrite lookup_take_ge by lia. }
    apply bool_decide_ext. rewrite list_elem_of_singleton. split; [by intros ->|by intros [= ->]].
  - apply lookup_ge_None in Ed. by replace (i + 1 <=? len x) with false by lia.
Qed.

Lemma last_in_none P hi : hi < 0 -> last_in P hi npos.
Proof. intros Hh. left. split; [done|]. intros i Hi. lia. Qed.

Lemma lexicographic_sign xs ys : let k := Nat.min (length xs) (length ys) in
  sign (lexicographic xs ys) =
    if first_difference (take k xs) (take k ys) =? 0 then Z.sgn (len xs - len ys)
    else Z.sgn (first_difference (take k xs) (take k ys)).
Proof.
  revert ys. induction xs as [|a xs IH]; intros [|b ys]; cbn [length Nat.min take first_difference lexicographic sign Z.eqb].
  - done.
  - by rewrite Z.sgn_neg by lia.
  - by rewrite Z.sgn_pos by lia.
  - destruct (Z.compare_spec a b) as [->|Hlt|Hgt].
    + rewrite Z.eqb_refl. specialize (IH ys). cbn in IH. rewrite IH.
      replace (Z.of_nat (S (length xs)) - Z.of_nat (S (length ys))) with (len xs - len ys) by lia. done.
    + replace (a =? b) with false by lia. replace (a - b =? 0) with false by lia.
      by rewrite Z.sgn_neg by lia.
    + replace (a =? b) with false by lia. replace (a - b =? 0) with false by lia.
      by rewrite Z.sgn_pos by lia.
Qed.

Lemma sgn_S_compare n1 n2 : 0 <= n1 <= 2147483647 -> 0 <= n2 <= 2147483647 ->
  Z.sgn (string._S_compare n1 n2) = Z.sgn (n1 - n2).
Proof.
  intros H1' H2'. unfold string._S_compare.
  assert (i32 (u32 (n1 - n2)) = n1 - n2) as ->.
  { rewrite <-(i32_small (n1 - n2)) at 2 by lia. unfold i32, u32, wrap.
    by rewrite Zplus_mod_idemp_l. }
  destruct (Z.ltb_spec 2147483647 (n1 - n2)); [lia|].
  destruct (Z.ltb_spec (n1 - n2) (-2147483648)); [lia|done].
Qed.

(** ** Loops *)
Section Search.
Context `{OperatorNew, MemCmpLaws} (α : contents) (β : foreign) (m : memory) (Hw : world α β m).
Context (o : nat) (x : list Z) (Hx : α !! o = Some x).

Lemma search_size : len x <= 2147483647.
Proof. by apply (world_size α β m Hw o). Qed.

Lemma scan_up_run (test : Z -> M bool) (P : Z -> bool) fuel pos : 0 <= pos ->
  (forall i, 0 <= i < len x -> test i m = Val (P i) m) -> (Z.to_nat (len x - pos) < fuel)%nat ->
  exists r, search.scan_up fuel o test pos m = Val r m /\ first_in P pos (len x) r.
Proof.
  pose proof search_size as Hs. intros Hp Ht. revert pos Hp.
  induction fuel as [|fuel IH]; intros pos Hp Hf; [lia|]. cbn [search.scan_up].
  unfold mbind, M_bind at 1. rewrite (size_run α β m Hw o x Hx).
  destruct (Z.ltb_spec pos (len x)) as [Hlt|Hge].
  - unfold M_bind at 1. rewrite Ht by lia. destruct (P pos) eqn:E.
    + exists pos. split; [done|]. right. split; [lia|]. split; [done|]. intros i Hi. lia.
    + rewrite u32_small by lia. destruct (IH (pos + 1)) as (r & Er & Hr); [lia|lia|].
      exists r. split; [done|]. by apply first_in_skip.
  - exists npos. split; [done|]. left. split; [done|]. intros i Hi. lia.
Qed.

Lemma scan_down_run (test : Z -> M bool) (P : Z -> bool) fuel pos : 0 <= pos < 4294967296 ->
  (forall i, 0 <= i <= pos -> test i m = Val (P i) m) -> (Z.to_nat pos < fuel)%nat ->
  exists r, search.scan_down fuel test pos m = Val r m /\ last_in P pos r.
Proof.
  revert pos. induction fuel as [|fuel IH]; intros pos Hp Ht Hf; [lia|]. cbn [search.scan_down].
  unfold mbind, M_bind at 1. rewrite Ht by lia. destruct (P pos) eqn:E.
  - exists pos. split; [done|]. right. split; [lia|]. split; [done|]. intros i Hi. lia.
  - destruct (Z.eqb_spec pos 0) as [->|Hne].
    + exists npos. split; [done|]. left. split; [done|]. intros i Hi. by replace i with 0 by lia.
    + rewrite u32_small by lia. destruct (IH (pos - 1)) as (r & Er & Hr); [lia| |lia|].
      { intros i Hi. apply Ht. lia. }
      exists r. split; [done|]. by apply last_in_skip.
Qed.

Lemma scan_below_run (test : Z -> M bool) (P : Z -> bool) fuel pos : 0 <= pos < 4294967296 ->
  (forall i, 0 <= i < pos -> test i m = Val (P i) m) -> (Z.to_nat pos < fuel)%nat ->
  exists r, search.scan_below fuel test pos m = Val r m /\ last_in P (pos - 1) r.
Proof.
  revert pos. induction fuel as [|fuel IH]; intros pos Hp Ht Hf; [lia|]. cbn [search.scan_below].
  destruct (Z.ltb_spec 0 pos) as [Hlt|Hge].
  - rewrite u32_small by lia. unfold mbind, M_bind at 1. rewrite Ht by lia. destruct (P (pos - 1)) eqn:E.
    + exists (pos - 1). split; [done|]. right. split; [lia|]. split; [done|]. intros i Hi. lia.
    + destruct (IH (pos - 1)) as (r & Er & Hr); [lia| |lia|].
      { intros i Hi. apply Ht. lia. }
      exists r. split; [done|]. by apply last_in_skip.
  - exists npos. split; [done|]. left. split; [done|]. intros i Hi. lia.
Qed.

(** ** Reading characters *)
Lemma get_chars_run q xs : chars_at q xs m -> xs <> [] -> get_chars q (len xs) m = Val xs m.
Proof.
  intros Hc Hne. unfold get_chars, mbind, M_bind. rewrite (get_cells_chars q xs m Hc Hne).
  by rewrite chars_fmap.
Qed.

Lemma find_run q xs c : chars_at q xs m ->
  traits.find q (len xs) c m = Val (padd q <$> traits.index_of c xs) m.
Proof.
  intros Hc. unfold traits.find. destruct (Z.eqb_spec (len xs) 0) as [E|E].
  - by destruct xs.
  - unfold mbind, M_bind. rewrite get_chars_run; [done|done|]. by intros ->.
Qed.

Lemma compare_run p q xs ys : chars_at p xs m -> chars_at q ys m -> length xs = length ys ->
  exists r, traits.compare p q (len xs) m = Val r m /\ Z.sgn r = Z.sgn (first_difference xs ys).
Proof.
  intros Hp Hq Hl. unfold traits.compare. destruct (Z.eqb_spec (len xs) 0) as [E|E].
  - exists 0. destruct xs; [|done]. by destruct ys.
  - exists (traits.memcmp xs ys). split; [|by apply memcmp_sign].
    unfold mbind, M_bind. rewrite (get_chars_run p xs Hp) by (by intros ->).
    rewrite Hl in E |- *. by rewrite (get_chars_run q ys Hq) by (by intros ->).
Qed.

Lemma compare_equal p q xs ys : chars_at p xs m -> chars_at q ys m -> length xs = length ys ->
  exists r, traits.compare p q (len xs) m = Val r m /\ (r =? 0) = bool_decide (xs = ys).
Proof.
  intros Hp Hq Hl. destruct (compare_run p q xs ys Hp Hq Hl) as (r & Er & Hs). exists r. split; [done|].
  pose proof (first_difference_eq xs ys Hl) as Hd. case_bool_decide as Heq.
  - apply Hd in Heq. rewrite Heq in Hs. apply Z.sgn_null_iff in Hs. lia.
  - apply Z.eqb_neq. intros ->. apply Heq, Hd. by apply Z.sgn_null_iff.
Qed.

(** The characters of [o]. *)
Lemma own_chars : exists r, string._M_data o m = Val (Pointer r 0) m /\
  forall k n, 0 <= k -> chars_at (Pointer r k) (slice k n x) m.
Proof.
  destruct (world_view _ _ _ Hw o x Hx) as (r & cs & Hv & Hc). exists r. split.
  - destruct Hv as (u & E & _). unfold string._M_data, mbind, M_bind, get_object. by rewrite E.
  - intros k n Hk. unfold content in Hc. apply holds_app in Hc as [Hc _]; [|lia].
    pose proof (view_chars o r _ cs m k (slice k n x) Hv Hk) as Hch. apply Hch. by apply holds_slice.
Qed.

Lemma own_char i : 0 <= i < len x -> exists c, x !! Z.to_nat i = Some c /\ search.char_at o i m = Val c m.
Proof.
  intros Hi. destruct own_chars as (r & Ed & Hc). destruct (lookup_lt_is_Some_2 x (Z.to_nat i)) as [c Ec]; [lia|].
  exists c. split; [done|]. unfold search.char_at, string.operator_index, mbind, M_bind. rewrite Ed.
  unfold padd. cbn [in_region offset]. rewrite Z.add_0_l. specialize (Hc i 1 ltac:(lia)).
  assert (slice i 1 x = [c]) as Es.
  { apply list_eq. intros [|j]; unfold slice.
    - rewrite lookup_take_lt, lookup_drop by lia. by rewrite Nat.add_0_r.
    - rewrite lookup_take_ge by lia. done. }
  rewrite Es in Hc. pose proof (get_chars_run (Pointer r i) [c] Hc ltac:(done)) as Eg.
  change (len [c]) with 1 in Eg. by rewrite Eg.
Qed.

(** ** The tests of the loops *)
Lemma is_one_of_run q ys i : chars_at q ys m -> 0 <= i < len x ->
  search.is_one_of o q (len ys) i m = Val (char_in ys x i) m.
Proof.
  intros Hq Hi. destruct (own_char i Hi) as (c & Ec & Er). unfold search.is_one_of, mbind, M_bind, char_in.
  rewrite Er, (find_run q ys c Hq), Ec. cbn. f_equal. apply bool_decide_ext.
  rewrite fmap_is_Some. apply index_of_elem.
Qed.

Lemma is_none_of_run q ys i : chars_at q ys m -> 0 <= i < len x ->
  search.is_none_of o q (len ys) i m = Val (char_not_in ys x i) m.
Proof.
  intros Hq Hi. destruct (own_char i Hi) as (c & Ec & Er). unfold search.is_none_of, mbind, M_bind, char_not_in.
  rewrite Er, (find_run q ys c Hq), Ec. cbn. do 2 f_equal. apply bool_decide_ext.
  rewrite fmap_is_Some. apply index_of_elem.
Qed.

Lemma is_char_run c i : 0 <= i < len x -> search.is_char o c i m = Val (char_in [c] x i) m.
Proof.
  intros Hi. destruct (own_char i Hi) as (d & Ed & Er). unfold search.is_char, mbind, M_bind, char_in.
  rewrite Er, Ed. cbn. f_equal. destruct (Z.eqb_spec d c) as [->|Hne]; symmetry.
  - apply bool_decide_eq_true. by apply list_elem_of_singleton.
  - apply bool_decide_eq_false. by rewrite list_elem_of_singleton.
Qed.

Lemma is_other_run c i : 0 <= i < len x -> search.is_other o c i m = Val (char_not_in [c] x i) m.
Proof.
  intros Hi. destruct (own_char i Hi) as (d & Ed & Er). unfold search.is_other, mbind, M_bind, char_not_in.
  rewrite Er, Ed. cbn. do 2 f_equal. destruct (Z.eqb_spec d c) as [->|Hne]; symmetry.
  - apply bool_decide_eq_true. by apply list_elem_of_singleton.
  - apply bool_decide_eq_false. by rewrite list_elem_of_singleton.
Qed.

Lemma occurs_at_run r q ys i : (forall k n, 0 <= k -> chars_at (Pointer r k) (slice k n x) m) ->
  chars_at q ys m -> 0 <= i -> i + len ys <= len x ->
  search.occurs_at q (len ys) (Pointer r 0) i m = Val (occurs ys x i) m.
Proof.
  intros Hown Hq Hi Hl. unfold search.occurs_at, mbind, M_bind, padd, occurs. cbn [in_region offset].
  assert (len (slice i (len ys) x) = len ys) as Hs by (apply slice_length; lia).
  destruct (compare_equal (Pointer r (0 + i)) q (slice i (len ys) x) ys) as (v & Ev & Hv);
    [apply Hown; lia|done|lia|].
  rewrite Hs in Ev. rewrite Ev, Hv. by replace (i + len ys <=? len x) with true by lia.
Qed.

Lemma last_position_run pos : 0 < len x -> 0 <= pos -> search.last_position (len x) pos = Z.min pos (len x - 1).
Proof.
  intros Hl Hp. pose proof search_size. unfold search.last_position. rewrite u32_small by lia.
  destruct (Z.ltb_spec pos (len x - 1)); lia.
Qed.

(** ** find *)
Section Find.
Context (r : region) (q : pointer) (y : Z) (ys : list Z) (pos : Z).
Context (Hown : forall k n, 0 <= k -> chars_at (Pointer r k) (slice k n x) m).
Context (Hq : chars_at q (y :: ys) m) (Hpos : 0 <= pos).

Lemma find_loop_run fuel i : pos <= i <= len x -> (Z.to_nat (len x - i) < fuel)%nat ->
  (forall j, pos <= j < i -> occurs (y :: ys) x j = false) ->
  exists v, search.find_loop fuel q (len (y :: ys)) y (Pointer r 0) (Pointer r (len x)) (Pointer r i) (len x - i) m
      = Val v m /\ first_in (occurs (y :: ys) x) pos (len x) v.
Proof.
  pose proof search_size as Hsz. set (zs := y :: ys) in *. assert (1 <= len zs) as Hz by (cbn; lia).
  revert i. induction fuel as [|fuel IH]; intros i Hi Hf Hno; [lia|]. cbn [search.find_loop].
  destruct (Z.leb_spec (len zs) (len x - i)) as [Hle|Hgt].
  2: { exists npos. split; [done|]. left. split; [done|]. intros j Hj.
    destruct (decide (j < i)); [apply Hno; lia|]. unfold occurs.
    by replace (j + len zs <=? len x) with false by lia. }
  set (k := len x - i - len zs + 1). rewrite u32_small by lia.
  assert (len (slice i k x) = k) as Hk by (apply slice_length; lia).
  pose proof (find_run (Pointer r i) (slice i k x) y (Hown i k ltac:(lia))) as Ef. rewrite Hk in Ef.
  unfold mbind, M_bind at 1. rewrite Ef. pose proof (index_of_spec y (slice i k x)) as Hidx.
  destruct (traits.index_of y (slice i k x)) as [d|]; cbn [fmap option_fmap option_map].
  2: { exists npos. split; [done|]. left. split; [done|]. intros j Hj.
    destruct (decide (j < i)); [apply Hno; lia|]. apply not_true_is_false. intros Ho.
    assert (j + len zs <= len x) by (unfold occurs in Ho; lia).
    apply (occurs_head _ _ _ y) in Ho; [|lia|done]. apply Hidx.
    apply (list_elem_of_lookup_2 _ (Z.to_nat (j - i))). rewrite slice_lookup by lia.
    by replace (i + (j - i)) with j by lia. }
  destruct Hidx as (Hd & Hyd & Hnd). rewrite Hk in Hd.
  assert (forall j, pos <= j < i + d -> occurs zs x j = false) as Hno'.
  { intros j Hj. destruct (decide (j < i)); [apply Hno; lia|]. apply not_true_is_false. intros Ho.
    apply (occurs_head _ _ _ y) in Ho; [|lia|done]. apply (Hnd (j - i) ltac:(lia)).
    rewrite slice_lookup by lia. by replace (i + (j - i)) with j by lia. }
  pose proof (occurs_at_run r q zs (i + d) Hown Hq ltac:(lia) ltac:(lia)) as Hocc.
  unfold search.occurs_at, mbind, M_bind, padd in Hocc. cbn [in_region offset] in Hocc.
  rewrite Z.add_0_l in Hocc. unfold M_bind at 1. unfold padd at 1. cbn [in_region offset].
  destruct (traits.compare (Pointer r (i + d)) q (len zs) m) as [v m'|e m'|] eqn:Ec; try done.
  injection Hocc as Hv ->. rewrite Hv. destruct (occurs zs x (i + d)) eqn:Ho.
  - exists (i + d). unfold string.pointer_diff, padd. cbn [in_region offset].
    rewrite bool_decide_true, Z.sub_0_r by done. split; [done|]. right. split; [lia|]. by split.
  - unfold string.pointer_diff, padd, M_bind at 1. cbn [in_region offset].
    rewrite bool_decide_true by done. cbn [mret M_ret]. rewrite u32_small by lia.
    replace (len x - (i + d + 1)) with (len x - (i + d + 1)) by lia. apply IH; [lia|lia|].
    intros j Hj. destruct (decide (j = i + d)) as [->|]; [done|]. apply Hno'. lia.
Qed.
End Find.

(** ** The searches *)
Section Pointer.
Context (q : pointer) (ys : list Z) (pos : Z) (Hq : chars_at q ys m).
Context (Hpos : 0 <= pos < 4294967296).

Lemma find_pointer : exists v, search.find o q pos (len ys) m = Val v m /\
  first_in (occurs ys x) pos (len x + 1) v.
Proof.
  destruct own_chars as (r & Ed & Hown). pose proof search_size as Hs.
  unfold search.find, mbind, M_bind at 1. rewrite (size_run α β m Hw o x Hx).
  destruct (Z.eqb_spec (len ys) 0) as [E0|Hne].
  - destruct ys; [|done]. eexists. split; [reflexivity|]. destruct (Z.leb_spec pos (len x)).
    + right. split; [lia|]. split; [|intros i Hi; lia]. unfold occurs. cbn [length].
      rewrite Z.add_0_r. apply andb_true_intro. split; [by apply Z.leb_le|by apply bool_decide_eq_true].
    + left. split; [done|]. intros i Hi. lia.
  - destruct ys as [|y zs]; [done|]. destruct (Z.leb_spec (len x) pos) as [Hge|Hlt].
    + exists npos. split; [done|]. left. split; [done|]. intros i Hi. apply occurs_short. cbn. lia.
    + assert (search.elem q m = Val y m) as Ee.
      { unfold search.elem, mbind, M_bind. assert (chars_at q [y] m) as Hy.
        { destruct Hq as [H0' Hc]. split; [done|]. intros [|i] z Hz; [|done].
          by apply (Hc 0%nat). }
        pose proof (get_chars_run q [y] Hy ltac:(done)) as Eg. change (len [y]) with 1 in Eg. by rewrite Eg. }
      unfold M_bind at 1. rewrite Ee. unfold M_bind at 1. rewrite Ed. unfold padd. cbn [in_region offset].
      rewrite !Z.add_0_l, u32_small by lia.
      destruct (find_loop_run r q y zs pos Hown Hq ltac:(lia) (search.enough (len x)) pos) as (v & Ev & Hv).
      * lia.
      * unfold search.enough. lia.
      * intros j Hj. lia.
      * exists v. split; [exact Ev|]. apply first_in_extend; [|done]. apply occurs_short. cbn. lia.
Qed.

Lemma rfind_pointer : exists v, search.rfind o q pos (len ys) m = Val v m /\
  last_in (occurs ys x) (Z.min pos (len x)) v.
Proof.
  destruct own_chars as (r & Ed & Hown). pose proof search_size as Hs.
  unfold search.rfind, mbind, M_bind at 1. rewrite (size_run α β m Hw o x Hx).
  destruct (Z.leb_spec (len ys) (len x)) as [Hle|Hgt].
  - unfold M_bind at 1. rewrite Ed, u32_small by lia.
    destruct (scan_down_run (search.occurs_at q (len ys) (Pointer r 0)) (occurs ys x) (search.enough (len x))
      (Z.min (len x - len ys) pos)) as (v & Ev & Hv).
    + lia.
    + intros i Hi. apply occurs_at_run; [done|done|lia|lia].
    + unfold search.enough. lia.
    + exists v. split; [exact Ev|]. revert Hv. apply last_in_extend; [|lia].
      intros i Hi. apply occurs_short. lia.
  - exists npos. split; [done|]. left. split; [done|]. intros i Hi. apply occurs_short. lia.
Qed.

Lemma find_first_of_pointer : exists v, search.find_first_of o q pos (len ys) m = Val v m /\
  first_in (char_in ys x) pos (len x) v.
Proof.
  unfold search.find_first_of, mbind, M_bind at 1. rewrite (size_run α β m Hw o x Hx).
  destruct (Z.eqb_spec (len ys) 0) as [E0|Hne].
  - destruct ys; [|done]. exists npos. split; [done|]. left. split; [done|]. intros i Hi.
    unfold char_in. by destruct (x !! _).
  - apply scan_up_run; [lia| |unfold search.enough; lia]. intros i Hi. by apply is_one_of_run.
Qed.

Lemma find_first_not_of_pointer : exists v, search.find_first_not_of o q pos (len ys) m = Val v m /\
  first_in (char_not_in ys x) pos (len x) v.
Proof.
  unfold search.find_first_not_of, mbind, M_bind at 1. rewrite (size_run α β m Hw o x Hx).
  apply scan_up_run; [lia| |unfold search.enough; lia]. intros i Hi. by apply is_none_of_run.
Qed.

Lemma scan_last (test : Z -> M bool) P : (forall i, 0 <= i < len x -> test i m = Val (P i) m) -> 0 < len x ->
  exists v, search.scan_down (search.enough (len x)) test (search.last_position (len x) pos) m = Val v m /\
    last_in P (Z.min pos (len x - 1)) v.
Proof.
  pose proof search_size. intros Ht Hl. rewrite last_position_run by lia.
  apply scan_down_run; [lia| |unfold search.enough; lia]. intros i Hi. apply Ht. lia.
Qed.

Lemma find_last_of_pointer : exists v, search.find_last_of o q pos (len ys) m = Val v m /\
  last_in (char_in ys x) (Z.min pos (len x - 1)) v.
Proof.
  unfold search.find_last_of, mbind, M_bind at 1. rewrite (size_run α β m Hw o x Hx).
  destruct (Z.eqb_spec (len x) 0) as [E0|Hne]; cbn [negb andb].
  - exists npos. split; [done|]. apply last_in_none. lia.
  - destruct (Z.eqb_spec (len ys) 0) as [E1|Hne1]; cbn [negb].
    + destruct ys; [|done]. exists npos. split; [done|]. left. split; [done|]. intros i Hi.
      unfold char_in. by destruct (x !! _).
    + apply scan_last; [|lia]. intros i Hi. by apply is_one_of_run.
Qed.

Lemma find_last_not_of_pointer : exists v, search.find_last_not_of o q pos (len ys) m = Val v m /\
  last_in (char_not_in ys x) (Z.min pos (len x - 1)) v.
Proof.
  unfold search.find_last_not_of, mbind, M_bind at 1. rewrite (size_run α β m Hw o x Hx).
  destruct (Z.eqb_spec (len x) 0) as [E0|Hne]; cbn [negb].
  - exists npos. split; [done|]. apply last_in_none. lia.
  - apply scan_last; [|lia]. intros i Hi. by apply is_none_of_run.
Qed.

(** *** One character *)
Lemma find_char_run c : exists v, search.find_char o c pos m = Val v m /\
  first_in (char_in [c] x) pos (len x) v.
Proof.
  destruct own_chars as (r & Ed & Hown). pose proof search_size as Hs.
  unfold search.find_char, mbind, M_bind at 1. rewrite (size_run α β m Hw o x Hx).
  destruct (Z.ltb_spec pos (len x)) as [Hlt|Hge].
  - unfold M_bind at 1. rewrite Ed, u32_small by lia. unfold padd. cbn [in_region offset]. rewrite Z.add_0_l.
    set (k := len x - pos). assert (len (slice pos k x) = k) as Hk by (apply slice_length; lia).
    pose proof (find_run (Pointer r pos) (slice pos k x) c (Hown pos k ltac:(lia))) as Ef. rewrite Hk in Ef.
    unfold M_bind at 1. rewrite Ef. pose proof (index_of_spec c (slice pos k x)) as Hi.
    destruct (traits.index_of c (slice pos k x)) as [d|]; cbn [fmap option_fmap option_map].
    + destruct Hi as (Hd & Hc & Hn). rewrite Hk in Hd. exists (pos + d). unfold string.pointer_diff, padd.
      cbn [in_region offset]. rewrite bool_decide_true, Z.sub_0_r by done. split; [done|]. right.
      split; [lia|]. rewrite slice_lookup in Hc by lia. unfold char_in. rewrite Hc. split; [|].
      * apply bool_decide_eq_true. by apply list_elem_of_singleton.
      * intros j Hj. specialize (Hn (j - pos) ltac:(lia)). rewrite slice_lookup in Hn by lia.
        replace (pos + (j - pos)) with j in Hn by lia. destruct (x !! Z.to_nat j); [|done].
        apply bool_decide_eq_false. rewrite list_elem_of_singleton. congruence.
    + exists npos. split; [done|]. left. split; [done|]. intros j Hj. unfold char_in.
      destruct (x !! Z.to_nat j) as [e|] eqn:Ee; [|done]. apply bool_decide_eq_false.
      rewrite list_elem_of_singleton. intros ->. apply Hi. apply (list_elem_of_lookup_2 _ (Z.to_nat (j - pos))).
      rewrite slice_lookup by lia. by replace (pos + (j - pos)) with j by lia.
  - exists npos. split; [done|]. left. split; [done|]. intros i Hi. lia.
Qed.

Lemma rfind_char_run c : exists v, search.rfind_char o c pos m = Val v m /\
  last_in (char_in [c] x) (Z.min pos (len x - 1)) v.
Proof.
  pose proof search_size as Hs. unfold search.rfind_char, mbind, M_bind at 1.
  rewrite (size_run α β m Hw o x Hx). destruct (Z.eqb_spec (len x) 0) as [E0|Hne]; cbn [negb].
  - exists npos. split; [done|]. apply last_in_none. lia.
  - rewrite last_position_run, u32_small by lia.
    destruct (scan_below_run (search.is_char o c) (char_in [c] x) (search.enough (len x))
      (Z.min pos (len x - 1) + 1)) as (v & Ev & Hv).
    + lia.
    + intros i Hi. apply is_char_run. lia.
    + unfold search.enough. lia.
    + exists v. split; [exact Ev|]. by rewrite Z.add_simpl_r in Hv.
Qed.

Lemma find_first_not_of_char_run c : exists v, search.find_first_not_of_char o c pos m = Val v m /\
  first_in (char_not_in [c] x) pos (len x) v.
Proof.
  unfold search.find_first_not_of_char, mbind, M_bind at 1. rewrite (size_run α β m Hw o x Hx).
  apply scan_up_run; [lia| |unfold search.enough; lia]. intros i Hi. by apply is_other_run.
Qed.

Lemma find_last_not_of_char_run c : exists v, search.find_last_not_of_char o c pos m = Val v m /\
  last_in (char_not_in [c] x) (Z.min pos (len x - 1)) v.
Proof.
  unfold search.find_last_not_of_char, mbind, M_bind at 1. rewrite (size_run α β m Hw o x Hx).
  destruct (Z.eqb_spec (len x) 0) as [E0|Hne]; cbn [negb].
  - exists npos. split; [done|]. apply last_in_none. lia.
  - apply scan_last; [|lia]. intros i Hi. by apply is_other_run.
Qed.
End Pointer.

(** ** Comparison *)
(** What the comparison functions return: a number with the sign of the
    lexicographic order. *)
Definition ordered (xs ys : list Z) (v : Z) : Prop := Z.sgn v = sign (lexicographic xs ys).

Lemma compare_chars_run p q xs ys : chars_at p xs m -> chars_at q ys m ->
  len xs <= 2147483647 -> len ys <= 2147483647 ->
  exists v, search.compare_chars p (len xs) q (len ys) m = Val v m /\ ordered xs ys v.
Proof.
  intros Hp Hq Lx Ly. set (k := Nat.min (length xs) (length ys)).
  assert (forall s zs, chars_at s zs m -> chars_at s (take k zs) m) as Htake.
  { intros s zs [Hs Hc]. split; [done|]. intros i c Hi. apply lookup_take_Some in Hi as [Hi _]. by apply Hc. }
  destruct (compare_run p q (take k xs) (take k ys)) as (r & Er & Hr); [by apply Htake..| |].
  { rewrite !length_take. unfold k. lia. }
  replace (len (take k xs)) with (Z.min (len xs) (len ys)) in Er by (rewrite length_take; unfold k; lia).
  unfold search.compare_chars, mbind, M_bind. rewrite Er. eexists. split; [reflexivity|].
  unfold ordered. rewrite (lexicographic_sign xs ys). fold k. rewrite <-Hr.
  destruct (Z.eqb_spec r 0) as [->|Hne].
  - assert (first_difference (take k xs) (take k ys) = 0) as -> by (apply Z.sgn_null_iff; by rewrite <-Hr).
    cbn. apply sgn_S_compare; lia.
  - destruct (Z.eqb_spec (first_difference (take k xs) (take k ys)) 0) as [E|_]; [|done].
    rewrite E in Hr. destruct Hne. by apply Z.sgn_null_iff.
Qed.
End Search.

Lemma lexicographic_eq xs ys : lexicographic xs ys = Eq <-> xs = ys.
Proof.
  revert ys. induction xs as [|x xs IH]; intros [|y ys]; cbn; try done.
  destruct (Z.compare_spec x y) as [->|Hlt|Hgt].
  - rewrite IH. split; [by intros ->|by intros [= ->]].
  - split; [done|]. intros [= -> _]. lia.
  - split; [done|]. intros [= -> _]. lia.
Qed.
