(* ===== verification/CxxStringQueries.v ===== *)
(** * What a program reads from its strings

    Access to characters, the searches and the comparisons of [CxxString] and
    [CxxStringSearch] in a world with the contents [α]: the results are those
    of the contents, and nothing changes. *)
From S2P Require Import Prelude CxxMemory CxxString CxxStringProps CxxStringOps CxxStringLife.
From S2P Require Import CxxStringWorld CxxStringMove CxxStringSpec CxxStringRefine.
From S2P Require Import CxxStringCommands CxxStringSearch CxxStringSearchProps.

#[local] Set Default Proof Using "Type*".

(** ** Queries *)
Inductive searching := Find | Rfind | FindFirstOf | FindLastOf | FindFirstNotOf | FindLastNotOf.

Section Queries.
Context `{traits.MemCmp}.

Definition run_search (k : searching) (o : nat) (a : argument) (pos : Z) : M Z :=
  match a with
  | Str s =>
      match k with
      | Find => search.find_str | Rfind => search.rfind_str
      | FindFirstOf => search.find_first_of_str | FindLastOf => search.find_last_of_str
      | FindFirstNotOf => search.find_first_not_of_str | FindLastNotOf => search.find_last_not_of_str
      end o s pos
  | Chars p n =>
      q ← eval p;
      match k with
      | Find => search.find | Rfind => search.rfind
      | FindFirstOf => search.find_first_of | FindLastOf => search.find_last_of
      | FindFirstNotOf => search.find_first_not_of | FindLastNotOf => search.find_last_not_of
      end o q pos n
  | Cstr p =>
      q ← eval p;
      match k with
      | Find => search.find_cstr | Rfind => search.rfind_cstr
      | FindFirstOf => search.find_first_of_cstr | FindLastOf => search.find_last_of_cstr
      | FindFirstNotOf => search.find_first_not_of_cstr | FindLastNotOf => search.find_last_not_of_cstr
      end o q pos
  | Fill _ c =>
      match k with
      | Find => search.find_char | Rfind => search.rfind_char
      | FindFirstOf => search.find_first_of_char | FindLastOf => search.find_last_of_char
      | FindFirstNotOf => search.find_first_not_of_char | FindLastNotOf => search.find_last_not_of_char
      end o c pos
  | Substr _ _ _ => ub
  end.

(** What is searched for: characters, or one character. *)
Definition pattern (β : foreign) (α : contents) (a : argument) : option (list Z) :=
  match a with
  | Substr _ _ _ => None
  | Fill n c => assume (n =? 1) (Some [c])
  | _ => r ← value β α a; match r with Done ys => Some ys | Throws _ => None end
  end.

Definition found (k : searching) (ys x : list Z) (pos v : Z) : Prop :=
  match k with
  | Find => first_in (occurs ys x) pos (len x + 1) v
  | Rfind => last_in (occurs ys x) (Z.min pos (len x)) v
  | FindFirstOf => first_in (char_in ys x) pos (len x) v
  | FindLastOf => last_in (char_in ys x) (Z.min pos (len x - 1)) v
  | FindFirstNotOf => first_in (char_not_in ys x) pos (len x) v
  | FindLastNotOf => last_in (char_not_in ys x) (Z.min pos (len x - 1)) v
  end.

(** [Whole] compares the whole string, [Part] a part of it. *)
Inductive extent := Whole | Part (pos n : Z).
Definition run_compare (o : nat) (e : extent) (a : argument) : M Z :=
  match e, a with
  | Whole, Str s => search.compare o s
  | Whole, Cstr p => q ← eval p; search.compare_cstr o q
  | Part pos n, Str s => search.compare_substr o pos n s
  | Part pos n, Substr s pos2 n2 => search.compare_substrs o pos n s pos2 n2
  | Part pos n, Chars p n2 => q ← eval p; search.compare_substr_chars o pos n q n2
  | Part pos n, Cstr p => q ← eval p; search.compare_substr_cstr o pos n q
  | _, _ => ub
  end.
Definition comparable (e : extent) (a : argument) : bool :=
  match e, a with
  | Whole, (Str _ | Cstr _) => true
  | Part pos n, (Str _ | Substr _ _ _ | Chars _ _ | Cstr _) => word pos && word n
  | _, _ => false
  end.
Definition extent_of (e : extent) (x : list Z) : outcome (list Z) :=
  match e with
  | Whole => Done x
  | Part pos n => if len x <? pos then Throws out_of_range else Done (slice pos (limit pos n x) x)
  end.
End Queries.

Section Answers.
Context `{OperatorNew, MemCmpLaws} (α : contents) (β : foreign) (m : memory) (Hw : world α β m).
Context (o : nat) (x : list Z) (Hx : α !! o = Some x).

(** *** Searches *)
Lemma search_pointer k q ys pos : chars_at q ys m -> word pos = true ->
  exists v, match k with
      | Find => search.find | Rfind => search.rfind
      | FindFirstOf => search.find_first_of | FindLastOf => search.find_last_of
      | FindFirstNotOf => search.find_first_not_of | FindLastNotOf => search.find_last_not_of
      end o q pos (len ys) m = Val v m /\ found k ys x pos v.
Proof.
  unfold word. intros Hq Hp. destruct k; cbn [found].
  - apply (find_pointer α β m Hw o x Hx); [done|lia].
  - apply (rfind_pointer α β m Hw o x Hx); [done|lia].
  - apply (find_first_of_pointer α β m Hw o x Hx); [done|lia].
  - apply (find_last_of_pointer α β m Hw o x Hx); [done|lia].
  - apply (find_first_not_of_pointer α β m Hw o x Hx); [done|lia].
  - apply (find_last_not_of_pointer α β m Hw o x Hx); [done|lia].
Qed.

Lemma search_char k c pos n : word pos = true ->
  exists v, run_search k o (Fill n c) pos m = Val v m /\ found k [c] x pos v.
Proof.
  unfold word. intros Hp. assert (chars_at (Pointer (Local o) 0) [] m) as Hnil by (split; [done|by intros ? ?]).
  destruct k; cbn [run_search found].
  - destruct (find_char_run α β m Hw o x Hx _ _ pos Hnil ltac:(lia) c) as (v & Ev & Hv).
    exists v. split; [done|]. apply first_in_extend; [by apply occurs_short; cbn; lia|].
    revert Hv. apply first_in_ext. intros i Hi. apply occurs_char. lia.
  - destruct (rfind_char_run α β m Hw o x Hx _ _ pos Hnil ltac:(lia) c) as (v & Ev & Hv).
    exists v. split; [done|].
    apply (last_in_extend _ (Z.min pos (len x - 1))); [|lia|].
    + intros i Hi. apply occurs_short. cbn. lia.
    + revert Hv. apply last_in_ext. intros i Hi. apply occurs_char. lia.
  - apply (find_char_run α β m Hw o x Hx _ _ pos Hnil); lia.
  - apply (rfind_char_run α β m Hw o x Hx _ _ pos Hnil); lia.
  - apply (find_first_not_of_char_run α β m Hw o x Hx _ _ pos Hnil); lia.
  - apply (find_last_not_of_char_run α β m Hw o x Hx _ _ pos Hnil); lia.
Qed.

Lemma val_bind {A B} (c : M A) (f : A -> M B) y r : c m = Val y m -> f y m = r -> (z ← c; f z) m = r.
Proof. intros Ec Ef. unfold mbind, M_bind. by rewrite Ec. Qed.

Lemma pattern_chars a ys : pattern β α a = Some ys -> match a with Fill _ _ => False | _ => True end ->
  value β α a = Some (Done ys).
Proof.
  unfold pattern. destruct a; try done; destruct (value _ _ _) as [[e|zs]|]; try done; by intros [= ->].
Qed.

Lemma search_run k a ys pos : pattern β α a = Some ys -> word pos = true ->
  exists v, run_search k o a pos m = Val v m /\ found k ys x pos v.
Proof.
  intros Hpat Hpos. destruct a as [s|s p n|p n|p|n c]; [| done | | |].
  4: { unfold pattern, assume in Hpat. destruct (n =? 1); [|done]. injection Hpat as <-.
    by apply search_char. }
  all: apply pattern_chars in Hpat; [|done]; unfold value in Hpat.
  - destruct (α !! s) as [y|] eqn:Hy; [|done]. injection Hpat as <-.
    destruct (data_run α β m Hw s y Hy) as (q & Eq & Hp).
    destruct (readable_whole α β m Hw s y q Hy Hp) as [Hq _]. destruct (Hq o) as [Hc _].
    destruct (search_pointer k q y pos Hc Hpos) as (v & Ev & Hv). exists v. split; [|done].
    pose proof (size_run α β m Hw s y Hy) as Es.
    destruct k; (eapply val_bind; [exact Eq|]; eapply val_bind; [exact Es|exact Ev]).
  - destruct (chars_in β α p n) as [zs|] eqn:Hy; [|done]. cbn in Hpat. unfold assume in Hpat.
    destruct (word n) eqn:Hn; [|done]. injection Hpat as ->.
    destruct (chars_run α β m Hw p n ys Hy Hn) as (q & Eq & _ & [Hq _] & <-). destruct (Hq o) as [Hc _].
    destruct (search_pointer k q ys pos Hc Hpos) as (v & Ev & Hv). exists v. split; [|done].
    eapply val_bind; [exact Eq|exact Ev].
  - destruct (cstr_in β α p) as [zs|] eqn:Hy; [|done]. cbn in Hpat. unfold assume in Hpat.
    destruct (word (len zs)) eqn:Hn; [|done]. injection Hpat as ->.
    destruct (cstr_run α β m Hw p ys Hy Hn) as (q & Eq & _ & [Hq _] & El). destruct (Hq o) as [Hc _].
    destruct (search_pointer k q ys pos Hc Hpos) as (v & Ev & Hv). exists v. split; [|done].
    eapply val_bind; [exact Eq|]. destruct k; (eapply val_bind; [exact El|exact Ev]).
Qed.

(** *** Comparisons *)
Lemma part_chars pos n : 0 <= pos <= len x -> word n = true ->
  exists p, string._M_data o m = Val p m /\ chars_at (padd p pos) (slice pos (limit pos n x) x) m /\
    len (slice pos (limit pos n x) x) = limit pos n x /\ limit pos n x <= 2147483647.
Proof.
  unfold word. intros Hp Hn. destruct (own_chars α β m Hw o x Hx) as (r & Ed & Hc). exists (Pointer r 0).
  split; [done|]. split; [apply Hc; lia|]. pose proof (search_size α β m Hw o x Hx).
  split; [apply slice_length|]; unfold limit; lia.
Qed.

Lemma whole_chars s y : α !! s = Some y -> exists q, string._M_data s m = Val q m /\ chars_at q y m /\
  len y <= 2147483647 /\ string.size s m = Val (len y) m.
Proof.
  intros Hy. destruct (data_run α β m Hw s y Hy) as (q & Eq & Hp). exists q. split; [done|].
  destruct (readable_whole α β m Hw s y q Hy Hp) as [Hq _]. split; [apply (Hq o)|].
  split; [by apply (world_size α β m Hw s)|by apply (size_run α β m Hw s)].
Qed.

Lemma compare_str_run s y : α !! s = Some y -> exists v, search.compare o s m = Val v m /\ ordered x y v.
Proof.
  intros Hy. destruct (whole_chars o x Hx) as (p & Ep & Hp & Lx & Sx).
  destruct (whole_chars s y Hy) as (q & Eq & Hq & Ly & Sy).
  destruct (compare_chars_run α β m Hw o x Hx p q x y Hp Hq Lx Ly) as (v & Ev & Hv). exists v.
  split; [|done]. eapply val_bind; [exact Sx|]. eapply val_bind; [exact Sy|].
  eapply val_bind; [exact Ep|]. by eapply val_bind; [exact Eq|].
Qed.

(** The part of [o] at [pos] against [ys] at [q]. *)
Lemma compare_part_run pos n q ys (k : Z -> M Z) :
  word pos = true -> word n = true -> chars_at q ys m -> len ys <= 2147483647 ->
  (forall p v, string._M_data o m = Val p m ->
     search.compare_chars (padd p pos) (limit pos n x) q (len ys) m = Val v m ->
     k (limit pos n x) m = Val v m) ->
  match extent_of (Part pos n) x with
  | Done xs => exists v, (_ ← string._M_check o pos; n ← string._M_limit o pos n; k n) m = Val v m /\ ordered xs ys v
  | Throws e => (_ ← string._M_check o pos; n ← string._M_limit o pos n; k n) m = Exn e m
  end.
Proof.
  intros Hp Hn Hq Ly Hk. pose proof (check_run α β m Hw o x Hx pos) as Hc. unfold word in Hp. cbn [extent_of].
  destruct (Z.ltb_spec (len x) pos) as [Hgt|Hle]; [unfold mbind, M_bind; by rewrite Hc|].
  destruct (part_chars pos n ltac:(lia) Hn) as (p & Ep & Hch & El & Hl).
  destruct (compare_chars_run α β m Hw o x Hx _ _ _ _ Hch Hq) as (v & Ev & Hv); [lia|done|].
  exists v. split; [|done]. eapply val_bind; [exact Hc|].
  eapply val_bind; [apply (limit_run α β m Hw o x Hx); lia|]. apply (Hk p); [done|]. by rewrite <-El at 1.
Qed.

(** What comparing yields: an order, or an exception. *)
Definition compares (r : result Z) (xs ys : outcome (list Z)) : Prop :=
  match xs, ys with
  | Done xs, Done ys => exists v, r = Val v m /\ ordered xs ys v
  | _, _ => r = Exn out_of_range m
  end.

Definition short (r : outcome (list Z)) : Prop :=
  match r with Done ys => len ys <= string.max_size | Throws _ => True end.

Lemma compare_cstr_run p ys : cstr_in β α p = Some ys -> word (len ys) = true -> len ys <= 2147483647 ->
  exists v, run_compare o Whole (Cstr p) m = Val v m /\ ordered x ys v.
Proof.
  intros Hy Hn Ly. destruct (cstr_run α β m Hw p ys Hy Hn) as (q & Eq & _ & [Hq _] & El).
  destruct (Hq o) as [Hc _]. destruct (whole_chars o x Hx) as (d & Ed & Hd & Lx & Sx).
  destruct (compare_chars_run α β m Hw o x Hx d q x ys Hd Hc Lx Ly) as (v & Ev & Hv). exists v.
  split; [|done]. eapply val_bind; [exact Eq|]. eapply val_bind; [exact Sx|]. eapply val_bind; [exact El|].
  by eapply val_bind; [exact Ed|].
Qed.

Lemma extent_throws e t : extent_of e x = Throws t -> t = out_of_range.
Proof. destruct e as [|pos n]; cbn; [done|]. destruct (len x <? pos); [by intros [= <-]|done]. Qed.

Lemma compares_intro r pos n ys :
  match extent_of (Part pos n) x with
  | Done xs => exists v, r = Val v m /\ ordered xs ys v
  | Throws e => r = Exn e m
  end -> compares r (extent_of (Part pos n) x) (Done ys).
Proof.
  unfold compares. destruct (extent_of (Part pos n) x) as [t|xs] eqn:E; [|done].
  by apply extent_throws in E as ->.
Qed.

Lemma compare_substrs_run pos n s y p2 n2 :
  word pos = true -> word n = true -> α !! s = Some y -> word p2 = true -> word n2 = true ->
  let r := if len y <? p2 then Throws out_of_range else Done (slice p2 (limit p2 n2 y) y) in
  short r -> compares (search.compare_substrs o pos n s p2 n2 m) (extent_of (Part pos n) x) r.
Proof.
  intros Hpos Hn Hy Hp2 Hn2 r Hs. subst r.
  pose proof (check_run α β m Hw s y Hy p2) as Hc. pose proof (check_run α β m Hw o x Hx pos) as Hc0.
  unfold search.compare_substrs. destruct (Z.ltb_spec (len y) p2) as [Hgt|Hle].
  + assert (forall (f : Z -> M Z), (_ ← string._M_check o pos; z ← string._M_check s p2; f z) m = Exn out_of_range m) as Hth.
    { intros f. unfold mbind, M_bind. rewrite Hc0. destruct (len x <? pos); [done|]. by rewrite Hc. }
    unfold compares. rewrite Hth. by destruct (extent_of _ _).
  + unfold word in Hp2. destruct (data_run α β m Hw s y Hy) as (q & Eq & Hp).
    destruct (readable_part α β m Hw s y q p2 n2 Hy Hp Hn2 ltac:(lia)) as [[Hq _] El].
    destruct (Hq o) as [Hch _]. pose proof (world_size α β m Hw s y Hy). apply compares_intro.
    pose proof (compare_part_run pos n (padd q p2) (slice p2 (limit p2 n2 y) y)
      (fun n1 => n2 ← string._M_limit s p2 n2; p ← string._M_data o; q ← string._M_data s;
        search.compare_chars (padd p pos) n1 (padd q p2) n2) Hpos Hn Hch) as Hpart.
    assert (forall (f : Z -> M Z), (_ ← string._M_check o pos; z ← string._M_check s p2; f z) m =
      (_ ← string._M_check o pos; f p2) m) as Hskip.
    { intros f. unfold mbind, M_bind. rewrite Hc0. destruct (len x <? pos); [done|]. by rewrite Hc. }
    rewrite Hskip. apply Hpart; [unfold limit in *; lia|].
    intros p v Ep Ev. eapply val_bind; [apply (limit_run α β m Hw s y Hy); lia|].
    eapply val_bind; [exact Ep|]. eapply val_bind; [exact Eq|]. by rewrite El in Ev.
Qed.

Lemma compare_run_all e a r : comparable e a = true -> value β α a = Some r -> short r ->
  compares (run_compare o e a m) (extent_of e x) r.
Proof.
  intros Hcmp Hv Hs. destruct e as [|pos n], a as [s|s p2 n2|p n2|p|k c]; try done; unfold value in Hv;
    cbn [comparable] in Hcmp; try apply andb_prop in Hcmp as [Hpos Hn].
  - destruct (α !! s) as [y|] eqn:Hy; [|done]. injection Hv as <-. by apply compare_str_run.
  - destruct (cstr_in β α p) as [ys|] eqn:Hy; [|done]. cbn in Hv. unfold assume in Hv.
    destruct (word (len ys)) eqn:Hw'; [|done]. injection Hv as <-. by apply compare_cstr_run.
  - destruct (α !! s) as [y|] eqn:Hy; [|done]. injection Hv as <-. apply compares_intro.
    destruct (whole_chars s y Hy) as (q & Eq & Hq & Ly & Sy). apply (compare_part_run pos n q y); try done.
    intros p v Ep Ev. eapply val_bind; [exact Sy|]. eapply val_bind; [exact Ep|]. by eapply val_bind; [exact Eq|].
  - destruct (α !! s) as [y|] eqn:Hy; [|done]. cbn in Hv. destruct (word p2 && word n2) eqn:Hword; [|done].
    apply andb_prop in Hword as [Hp2 Hn2]. cbn in Hv. injection Hv as <-.
    by apply compare_substrs_run.
  - destruct (chars_in β α p n2) as [ys|] eqn:Hy; [|done]. cbn in Hv. unfold assume in Hv.
    destruct (word n2) eqn:Hw'; [|done]. injection Hv as <-.
    destruct (chars_run α β m Hw p n2 ys Hy Hw') as (q & Eq & _ & [Hq _] & <-). destruct (Hq o) as [Hc _].
    apply compares_intro.
    replace (run_compare _ _ _ m) with (search.compare_substr_chars o pos n q (len ys) m)
      by (symmetry; by eapply val_bind).
    apply (compare_part_run pos n q ys (fun n1 => d ← string._M_data o;
      search.compare_chars (padd d pos) n1 q (len ys))); try done.
    intros d v Ed Ev. by eapply val_bind; [exact Ed|].
  - destruct (cstr_in β α p) as [ys|] eqn:Hy; [|done]. cbn in Hv. unfold assume in Hv.
    destruct (word (len ys)) eqn:Hw'; [|done]. injection Hv as <-.
    destruct (cstr_run α β m Hw p ys Hy Hw') as (q & Eq & _ & [Hq _] & El). destruct (Hq o) as [Hc _].
    apply compares_intro.
    replace (run_compare _ _ _ m) with (search.compare_substr_cstr o pos n q m)
      by (symmetry; by eapply val_bind).
    apply (compare_part_run pos n q ys (fun n1 => n2 ← traits.length q; d ← string._M_data o;
      search.compare_chars (padd d pos) n1 q n2)); try done.
    intros d v Ed Ev. eapply val_bind; [exact El|].
    by eapply val_bind; [exact Ed|].
Qed.

(** *** Relational operators *)
Definition less (c : comparison) : bool := match c with Lt => true | _ => false end.
Definition greater (c : comparison) : bool := match c with Gt => true | _ => false end.

Lemma ordered_signs xs ys v : ordered xs ys v ->
  (v =? 0) = bool_decide (xs = ys) /\ (v <? 0) = less (lexicographic xs ys) /\
  (0 <? v) = greater (lexicographic xs ys).
Proof.
  unfold ordered. intros Hv. pose proof (lexicographic_eq xs ys) as He.
  destruct (lexicographic xs ys); cbn [sign] in Hv; cbn [less greater].
  - apply Z.sgn_null_iff in Hv as ->. rewrite bool_decide_true by (by apply He). done.
  - apply Z.sgn_neg_iff in Hv. rewrite bool_decide_false by (intros E; by apply He in E).
    split; [lia|split; lia].
  - apply Z.sgn_pos_iff in Hv. rewrite bool_decide_false by (intros E; by apply He in E).
    split; [lia|split; lia].
Qed.

Lemma operator_eq_run s y : α !! s = Some y ->
  search.operator_eq o s m = Val (bool_decide (x = y)) m.
Proof.
  intros Hy. destruct (whole_chars o x Hx) as (p & Ep & Hp & Lx & Sx).
  destruct (whole_chars s y Hy) as (q & Eq & Hq & Ly & Sy).
  eapply val_bind; [exact Sx|]. eapply val_bind; [exact Sy|].
  destruct (Z.eqb_spec (len x) (len y)) as [El|Hne].
  - destruct (compare_equal α β m Hw o x Hx p q x y Hp Hq) as (r & Er & Hr); [lia|].
    eapply val_bind; [exact Ep|]. eapply val_bind; [exact Eq|]. eapply val_bind; [exact Sx|].
    eapply val_bind; [exact Er|]. by rewrite Hr.
  - rewrite bool_decide_false; [done|]. by intros ->.
Qed.

Lemma compare_test (f : Z -> bool) s y b : α !! s = Some y -> (forall v, ordered x y v -> f v = b) ->
  (r ← search.compare o s; mret (f r)) m = Val b m.
Proof.
  intros Hy Hf. destruct (compare_str_run s y Hy) as (v & Ev & Hv). eapply val_bind; [exact Ev|].
  by rewrite (Hf v Hv).
Qed.

Lemma operators_run s y : α !! s = Some y ->
  search.operator_eq o s m = Val (bool_decide (x = y)) m /\
  search.operator_ne o s m = Val (negb (bool_decide (x = y))) m /\
  search.operator_lt o s m = Val (less (lexicographic x y)) m /\
  search.operator_gt o s m = Val (greater (lexicographic x y)) m /\
  search.operator_le o s m = Val (negb (greater (lexicographic x y))) m /\
  search.operator_ge o s m = Val (negb (less (lexicographic x y))) m.
Proof.
  intros Hy. pose proof (operator_eq_run s y Hy) as He. splits.
  - done.
  - by eapply val_bind; [exact He|].
  - apply (compare_test (fun v => v <? 0) s y); [done|]. by intros v (_ & ? & _)%ordered_signs.
  - apply (compare_test (fun v => 0 <? v) s y); [done|]. by intros v (_ & _ & ?)%ordered_signs.
  - apply (compare_test (fun v => v <=? 0) s y); [done|]. intros v (_ & _ & <-)%ordered_signs. lia.
  - apply (compare_test (fun v => 0 <=? v) s y); [done|]. intros v (_ & <- & _)%ordered_signs. lia.
Qed.

(** *** Access *)
Lemma index_run i c : (x ++ [0]) !! i = Some c -> string.operator_index o (Z.of_nat i) m = Val c m.
Proof.
  intros Hc. destruct (world_view _ _ _ Hw o x Hx) as (r & cs & Hv & Hcs). apply Hcs in Hc.
  pose proof Hv as (u & E & _).
  assert (string._M_data o m = Val (Pointer r 0) m) as Ed.
  { unfold string._M_data, mbind, M_bind, get_object. by rewrite E. }
  eapply val_bind; [exact Ed|]. pose proof (view_chars o r _ cs m (Z.of_nat i) [c] Hv ltac:(lia)) as Hch.
  eapply (val_bind _ _ [c]); [|done]. apply (get_chars_run α β m Hw o x Hx _ [c]); [|done]. apply Hch.
  intros [|j] d Hd; [|done]. injection Hd as <-. rewrite <-Hc. f_equal. lia.
Qed.

Lemma at_run i : 0 <= i -> string.at_ o i m =
  match x !! Z.to_nat i with Some c => Val c m | None => Exn out_of_range m end.
Proof.
  intros Hi. unfold string.at_, mbind, M_bind. rewrite (size_run α β m Hw o x Hx).
  destruct (x !! Z.to_nat i) as [c|] eqn:Ec.
  - pose proof (lookup_lt_Some _ _ _ Ec). replace (len x <=? i) with false by lia.
    rewrite <-(Z2Nat.id i) by lia. apply index_run. rewrite lookup_app_l by lia. exact Ec.
  - apply lookup_ge_None in Ec. by replace (len x <=? i) with true by lia.
Qed.

Lemma back_run c y : x = y ++ [c] -> string.back o m = Val c m.
Proof.
  intros E. pose proof (world_size α β m Hw o x Hx) as Hs. rewrite E, length_app in Hs. simpl in Hs.
  eapply val_bind; [by apply (size_run α β m Hw o x)|]. rewrite u32_small by (rewrite E, length_app; simpl; lia).
  replace (len x - 1) with (len y) by (rewrite E, length_app; simpl; lia). apply index_run.
  rewrite E, <-app_assoc, lookup_app_r by lia. by rewrite Nat.sub_diag.
Qed.

Lemma capacity_run : exists n, string.capacity o m = Val n m /\ Z.max 15 (len x) <= n <= string.max_size.
Proof.
  destruct (world_view _ _ _ Hw o x Hx) as (r & cs & Hv & Hc).
  destruct (string_at_room _ _ _ _ _ Hv Hc) as [Hl _]. pose proof (view_size _ _ _ _ _ Hv).
  assert (wp (string.capacity o) m (fun n m' => n = len cs - 1 /\ m' = m) (fun _ _ => False)) as Hcap.
  { by eapply wp_capacity; [exact Hv|]. }
  unfold wp in Hcap. destruct (string.capacity o m) as [n m'|e m'|]; try done. destruct Hcap as [-> ->].
  exists (len cs - 1). split; [done|]. lia.
Qed.
End Answers.

(** ** Copying out *)
Section CopyOut.
Context `{OperatorNew} (α : contents) (β : foreign) (m : memory) (Hw : world α β m).

(** A block of somebody else is written. *)
Lemma world_foreign_put b cs cs' : β !! b = Some cs ->
  world α (<[b := cs']> β) (Memory (objects m) (<[b := cs']> (blocks m))).
Proof.
  intros Hb. destruct (world_foreign _ _ _ Hw b cs Hb) as [Hm Hno].
  assert (forall o b', owns o b' (Memory (objects m) (<[b := cs']> (blocks m))) <-> owns o b' m) as Hown by done.
  split; cbn [objects blocks].
  - apply (world_objects _ _ _ Hw).
  - intros o x Hx. destruct (world_view _ _ _ Hw o x Hx) as (r & cs0 & (u & E & Hr) & Hc).
    exists r, cs0. split; [|done]. exists u. split; [done|]. destruct r as [|b']; [done|].
    destruct Hr as (Hu & Hb' & Hl). split; [done|]. split; [|done]. cbn. rewrite lookup_insert_ne; [done|].
    intros <-. apply (Hno o). eexists. split; [exact E|done].
  - intros o1 o2 b'. rewrite !Hown. apply (world_unique _ _ _ Hw).
  - intros b' cs1. destruct (decide (b' = b)) as [->|Hne].
    + rewrite !lookup_insert_eq. intros [= ->]. by split.
    + rewrite !lookup_insert_ne by done. apply (world_foreign _ _ _ Hw).
  - intros b' cs1. destruct (decide (b' = b)) as [->|Hne].
    + rewrite !lookup_insert_eq. by left.
    + rewrite !lookup_insert_ne by done. apply (world_blocks _ _ _ Hw).
Qed.

Lemma copy_to_run o x b k cs pos n : α !! o = Some x -> β !! b = Some cs -> word pos = true -> word n = true ->
  pos <= len x -> 0 <= k -> k + limit pos n x <= len cs ->
  exists m', string.copy_to o (Pointer (Block b) k) n pos m = Val (limit pos n x) m' /\
    world α (<[b := cells_put k (Some <$> slice pos (limit pos n x) x) cs]> β) m'.
Proof.
  unfold word. intros Hx Hb Hp Hn Hle Hk Hfit. set (zs := slice pos (limit pos n x) x).
  assert (len zs = limit pos n x) as Hz by (apply slice_length; unfold limit; lia).
  destruct (world_foreign _ _ _ Hw b cs Hb) as [Hm Hno].
  pose proof (check_run α β m Hw o x Hx pos) as Hc. replace (len x <? pos) with false in Hc by lia.
  unfold string.copy_to, mbind, M_bind at 1. rewrite Hc. unfold M_bind at 1.
  rewrite (limit_run α β m Hw o x Hx) by lia. destruct (Z.eqb_spec (limit pos n x) 0) as [E0|Hne].
  - exists m. rewrite E0. split; [done|]. assert (zs = []) as -> by (destruct zs; [done|simpl in Hz; lia]).
    cbn [fmap list_fmap]. rewrite put_nil. by rewrite insert_id.
  - destruct (world_view _ _ _ Hw o x Hx) as (r & cs0 & Hv & Hcs). pose proof Hv as (u & E & Hr).
    unfold content in Hcs. apply holds_app in Hcs as [Hcs _]; [|lia].
    pose proof (view_chars o r _ cs0 m pos zs Hv ltac:(lia) (holds_slice cs0 x pos (limit pos n x) ltac:(lia) Hcs)) as Hch.
    assert (r <> Block b) as Hrb.
    { intros ->. apply (Hno o). by apply (view_owns _ _ _ _ _ b Hv). }
    eexists. split; [|by apply (world_foreign_put b cs)].
    unfold string._M_data, get_object, mbind, M_bind. cbn [negb when]. rewrite E. cbn [mret M_ret _M_p].
    assert (string._S_copy (Pointer (Block b) k) (padd (Pointer r 0) pos) (limit pos n x) m =
      Val tt (Memory (objects m) (<[b := cells_put k (Some <$> zs) cs]> (blocks m)))) as ->; [|done].
    assert ((ds ← get_cells (padd (Pointer r 0) pos) (limit pos n x); put_cells (Pointer (Block b) k) ds) m =
      Val tt (Memory (objects m) (<[b := cells_put k (Some <$> zs) cs]> (blocks m)))) as Hcopy.
    { unfold mbind, M_bind. rewrite <-Hz, (get_cells_chars _ zs m Hch) by (intros Ez; rewrite Ez in Hz; cbn in Hz; lia).
      rewrite (put_cells_run _ _ cs); [done|done|done|]. rewrite length_fmap. cbn. lia. }
    unfold string._S_copy, traits.copy. destruct (Z.eqb_spec (limit pos n x) 1) as [E1|_].
    + by rewrite E1 in Hcopy.
    + replace (limit pos n x =? 0) with false by lia.
      assert (traits.disjoint (Pointer (Block b) k) (padd (Pointer r 0) pos) (limit pos n x) = true) as ->; [|done].
      unfold traits.disjoint. cbn [in_region padd]. rewrite bool_decide_false by congruence. done.
Qed.
End CopyOut.
