(* ===== verification/CxxStringCorrect.v ===== *)
(** * Programs with strings

    Every command refines its specification, so does every sequence of
    commands, and a program that destroys its strings gives all memory back. *)
From S2P Require Import Prelude CxxMemory CxxString CxxStringProps CxxStringOps CxxStringLife.
From S2P Require Import CxxStringWorld CxxStringMove CxxStringSpec CxxStringRefine.
From S2P Require Import CxxStringCommands CxxStringObjects CxxStringPlus CxxStringSearch.
From S2P Require Import CxxStringSearchProps CxxStringQueries.

#[local] Set Default Proof Using "Type*".

Section Programs.
Context `{OperatorNew} (β : foreign).

(** A program catches what its commands throw. *)
Definition attempt (c : M unit) : M unit := fun m =>
  match c m with Exn _ m' => Val tt m' | r => r end.
Fixpoint run_all (cs : list command) : M unit :=
  match cs with [] => mret tt | c :: cs' => _ ← attempt (run c); run_all cs' end.

(** The contents after a command, which may have failed for want of memory. *)
Definition next (r : effect) (α α1 : contents) : Prop :=
  match r with
  | Throws _ => α1 = α
  | Done (α', needs) =>
      α1 = α' \/ exists n, needs = Some n /\ (string.max_size < n \/ new_may_fail) /\ α1 = α
  end.
Fixpoint defined (cs : list command) (α : contents) : Prop :=
  match cs with
  | [] => True
  | c :: cs' => exists r, spec β α c = Some r /\ forall α1, next r α α1 -> defined cs' α1
  end.
Fixpoint reaches (cs : list command) (α α' : contents) : Prop :=
  match cs with
  | [] => α' = α
  | c :: cs' => exists r α1, spec β α c = Some r /\ next r α α1 /\ reaches cs' α1 α'
  end.

Lemma assume_some {A} (b : bool) (r : option A) x : assume b r = Some x -> b = true /\ r = Some x.
Proof. by destruct b. Qed.

Ltac inside E :=
  repeat match type of E with
  | mbind _ (?α !! ?o) = Some _ =>
      let x := fresh "x" in let Hx := fresh "Hx" in
      destruct (α !! o) as [x|] eqn:Hx; [cbn [mbind option_bind] in E|discriminate E]
  | mbind _ (chars_in ?β ?α ?p ?n) = Some _ =>
      let x := fresh "ys" in let Hx := fresh "Hy" in
      destruct (chars_in β α p n) as [x|] eqn:Hx; [cbn [mbind option_bind] in E|discriminate E]
  | mbind _ (cstr_in ?β ?α ?p) = Some _ =>
      let x := fresh "ys" in let Hx := fresh "Hy" in
      destruct (cstr_in β α p) as [x|] eqn:Hx; [cbn [mbind option_bind] in E|discriminate E]
  | assume _ _ = Some _ => let Hb := fresh "Hb" in apply assume_some in E as [Hb E]
  end.

Lemma commands_keep α m c r : world α β m -> spec β α c = Some r -> keeps β m r (run c).
Proof.
  intros Hw E. destruct c; cbn [spec] in E; inside E;
    repeat match goal with Hb : _ && _ = true |- _ => apply andb_prop in Hb as [? ?] end;
    unfold set_to, set_noexcept in E; try injection E as <-; cbn [run].
  - by apply (keeps_new_default α β m Hw).
  - by apply (keeps_new α β m Hw).
  - by apply (keeps_new_input α β m Hw).
  - by apply (keeps_new_move α β m Hw).
  - by eapply (keeps_destroy α β m Hw).
  - by eapply (keeps_assign α β m Hw).
  - eapply (keeps_assign_move α β m Hw); [done|done|]. by apply Nat.eqb_neq, negb_true_iff.
  - by eapply (keeps_append α β m Hw).
  - by apply (keeps_push_back α β m Hw).
  - by eapply (keeps_insert α β m Hw).
  - by eapply (keeps_insert_fill_at α β m Hw).
  - by eapply (keeps_insert_char_at α β m Hw).
  - by eapply (keeps_replace α β m Hw).
  - by eapply (keeps_replace_at α β m Hw).
  - by eapply (keeps_replace_fill_at α β m Hw).
  - by eapply (keeps_replace_input β α m Hw).
  - by eapply (keeps_erase α β m Hw).
  - eapply (keeps_erase_at α β m Hw); [done|lia].
  - by eapply (keeps_erase_range α β m Hw).
  - eapply (keeps_pop_back α β m Hw); [done|lia].
  - by eapply (keeps_clear α β m Hw).
  - by eapply (keeps_resize α β m Hw).
  - by eapply (keeps_reserve α β m Hw).
  - by eapply (keeps_shrink_to_fit α β m Hw).
  - by apply (keeps_swap α β m Hw).
  - by apply (keeps_substr_of β α m Hw).
  - by apply (keeps_plus β α m Hw).
  - by apply (keeps_plus_char β α m Hw).
  - by apply (keeps_plus_cstr β α m Hw).
  - by apply (keeps_plus_char_left β α m Hw).
  - by apply (keeps_plus_cstr_left β α m Hw).
Qed.

(** A caught command: the world goes on with the contents of its effect. *)
Lemma attempt_keeps α m c r : world α β m -> keeps β m r c ->
  exists α1 m1, attempt c m = Val tt m1 /\ world α1 β m1 /\ next r α α1.
Proof.
  intros Hw Hk. unfold attempt. destruct r as [e|[α' needs]]; cbn [keeps] in Hk; unfold wp in Hk;
    destruct (c m) as [[] m1|e1 m1|]; try done.
  - destruct Hk as [_ ->]. by exists α, m.
  - exists α', m1. split; [done|]. split; [done|by left].
  - destruct needs as [n|]; [|done]. destruct Hk as [-> He]. exists α, m. split; [done|]. split; [done|].
    right. exists n. split; [done|]. split; [|done]. destruct He as [[_ ?]|[_ ?]]; [by left|by right].
Qed.

Lemma programs_keep cs : forall α m, world α β m -> defined cs α ->
  exists α' m', run_all cs m = Val tt m' /\ world α' β m' /\ reaches cs α α'.
Proof.
  induction cs as [|c cs IH]; intros α m Hw Hd; cbn [run_all reaches].
  { by exists α, m. }
  destruct Hd as (r & E & Hd). pose proof (commands_keep α m c r Hw E) as Hk.
  destruct (attempt_keeps α m (run c) r Hw Hk) as (α1 & m1 & E1 & Hw1 & Hn).
  destruct (IH α1 m1 Hw1 (Hd α1 Hn)) as (α' & m' & E' & Hw' & Hr).
  exists α', m'. split; [|split; [done|by exists r, α1]].
  unfold mbind, M_bind. by rewrite E1.
Qed.

Lemma world_initial : world ∅ β (Memory ∅ β).
Proof.
  split; cbn.
  - intros o. by rewrite lookup_empty.
  - intros o x. by rewrite lookup_empty.
  - intros o1 o2 b (s & E & _). cbn in E. by rewrite lookup_empty in E.
  - intros b cs Hb. split; [done|]. intros o (s & E & _). cbn in E. by rewrite lookup_empty in E.
  - intros b cs Hb. by left.
Qed.

Lemma world_final m : world ∅ β m -> m = Memory ∅ β.
Proof.
  intros Hw. assert (objects m = ∅) as Eo.
  { apply map_eq. intros o. rewrite lookup_empty. destruct (objects m !! o) as [s|] eqn:E; [|done].
    destruct (world_objects _ _ _ Hw o) as [x Hx]; [by exists s|]. by rewrite lookup_empty in Hx. }
  assert (forall o b, ~ owns o b m) as Hno.
  { intros o b (s & E & _). by rewrite Eo, lookup_empty in E. }
  destruct m as [os bs]. cbn in *. subst os. f_equal. apply map_eq. intros b.
  destruct (bs !! b) as [cs|] eqn:E.
  - destruct (world_blocks _ _ _ Hw b cs E) as [Hf|[o Hown]]; [done|by destruct (Hno o b)].
  - destruct (β !! b) as [cs|] eqn:Eb; [|done]. apply (world_foreign _ _ _ Hw) in Eb as [Eb _].
    cbn in Eb. congruence.
Qed.
End Programs.

(** ** The properties *)

(** C23. Every string command refines its meaning on contents, whatever the
    addresses, the capacities and the aliasing of its arguments: the world
    afterwards has the contents of the specification, the other strings and
    the foreign blocks are as before, and when a command throws it throws the
    exception of the specification, or [length_error] for a string above
    [max_size], or [bad_alloc] if memory can run out, and the memory is
    exactly as it was. *)
Theorem string_commands_refine `{OperatorNew} α β m c r : world α β m -> spec β α c = Some r ->
  match r with
  | Throws e => run c m = Exn e m
  | Done (α', needs) =>
      match run c m with
      | Val _ m' => world α' β m'
      | Exn e m' => m' = m /\ exists n, needs = Some n /\
          (e = length_error /\ string.max_size < n \/
           e = bad_alloc /\ exists m0 k, new_succeeds m0 k = false)
      | Ub => False
      end
  end.
Proof.
  intros Hw E. pose proof (commands_keep β α m c r Hw E) as Hk.
  destruct r as [e|[α' needs]]; cbn [keeps] in Hk; unfold wp in Hk;
    destruct (run c m) as [u m'|e' m'|]; try done.
  - by destruct Hk as [-> ->].
  - destruct needs as [n|]; [|done]. destruct Hk as [-> He]. split; [done|]. by exists n.
Qed.

(** C24. A program of string commands whose calls are defined runs to its
    end; the strings that are left have contents the specification allows,
    and without any string left the memory is what it was before: nothing
    leaks, nothing is freed twice and no foreign block has changed. *)
Theorem string_programs_restore_memory `{OperatorNew} β cs : defined β cs ∅ ->
  exists α m, run_all cs (Memory ∅ β) = Val tt m /\ reaches β cs ∅ α /\ world α β m /\
    (α = ∅ -> m = Memory ∅ β).
Proof.
  intros Hd. destruct (programs_keep β cs ∅ _ (world_initial β) Hd) as (α & m & E & Hw & Hr).
  exists α, m. split; [done|]. split; [done|]. split; [done|]. intros ->. by apply world_final.
Qed.

(** The search functions return the first or the last position that the
    definition of the search on lists names, [npos] if there is none, for every
    starting position and every way to give the characters, and change
    nothing. *)
Theorem string_searches_find `{OperatorNew, MemCmpLaws} α β m o x k a ys pos :
  world α β m -> α !! o = Some x -> pattern β α a = Some ys -> word pos = true ->
  exists v, run_search k o a pos m = Val v m /\ found k ys x pos v.
Proof. intros Hw Hx Ha Hp. by apply (search_run α β m Hw o x Hx). Qed.

(** Comparing two strings or parts of them gives a number with the sign
    of the lexicographic order, or [out_of_range] for a position behind the
    end; the relational operators are this order. *)
Theorem string_comparisons_order `{OperatorNew, MemCmpLaws} α β m o x e a r :
  world α β m -> α !! o = Some x -> comparable e a = true -> value β α a = Some r -> short r ->
  compares m (run_compare o e a m) (extent_of e x) r /\
  forall s y, α !! s = Some y ->
    search.operator_eq o s m = Val (bool_decide (x = y)) m /\
    search.operator_ne o s m = Val (negb (bool_decide (x = y))) m /\
    search.operator_lt o s m = Val (less (lexicographic x y)) m /\
    search.operator_gt o s m = Val (greater (lexicographic x y)) m /\
    search.operator_le o s m = Val (negb (greater (lexicographic x y))) m /\
    search.operator_ge o s m = Val (negb (less (lexicographic x y))) m.
Proof.
  intros Hw Hx Hc Ha Hs. split; [by apply (compare_run_all α β m Hw o x Hx)|].
  intros s y. apply (operators_run α β m Hw o x Hx).
Qed.

(** Reading: [size], [operator[]] with the terminator, [at] with its
    exception, [back], the capacity between the length and [max_size], and
    [copy], which writes exactly the characters asked for into the buffer. *)
Theorem string_access_reads `{OperatorNew, MemCmpLaws} α β m o x : world α β m -> α !! o = Some x ->
  string.size o m = Val (len x) m /\
  (forall i c, (x ++ [0]) !! i = Some c -> string.operator_index o (Z.of_nat i) m = Val c m) /\
  (forall i, 0 <= i -> string.at_ o i m =
     match x !! Z.to_nat i with Some c => Val c m | None => Exn out_of_range m end) /\
  (forall c y, x = y ++ [c] -> string.back o m = Val c m) /\
  (exists n, string.capacity o m = Val n m /\ Z.max 15 (len x) <= n <= string.max_size) /\
  (forall b k cs pos n, β !! b = Some cs -> word pos = true -> word n = true ->
     pos <= len x -> 0 <= k -> k + limit pos n x <= len cs ->
     exists m', string.copy_to o (Pointer (Block b) k) n pos m = Val (limit pos n x) m' /\
       world α (<[b := cells_put k (Some <$> slice pos (limit pos n x) x) cs]> β) m').
Proof.
  intros Hw Hx. split; [by apply (size_run α β m Hw)|]. split; [by apply (index_run α β m Hw)|].
  split; [by apply (at_run α β m Hw)|]. split; [by apply (back_run α β m Hw)|].
  split; [by eapply (capacity_run α β m Hw)|]. intros b k cs pos n. by apply (copy_to_run α β m Hw o x).
Qed.

(** ** Witnesses *)

(** The allocator that always succeeds; [memcmp] as the difference of the
    first characters that differ. *)
Definition always : OperatorNew := fun _ _ => true.
Definition difference : traits.MemCmp := first_difference.
Lemma difference_laws : @MemCmpLaws difference.
Proof. by intros xs ys _. Qed.

(** A block with the text "hello" and its NUL. *)
Definition hello : foreign := {[ 7%nat := Some <$> [104; 101; 108; 108; 111; 0] ]}.
Definition sample : list command :=
  [New 0 (Cstr (InBlock 7 0)); Insert 0 2 (Chars (InString 0 1) 3); Append 0 (Str 0);
   NewMove 1 0; Swap 0 1; ReplaceInput 2 0 1 3 [97; 98; 99]; Erase 1 1 1; Destroy 0; Destroy 1].

Lemma always_new : ~ (exists m k, @new_succeeds always m k = false).
Proof. by intros (m & k & E). Qed.

(** No command of the sample runs out of memory; one throws [out_of_range]. *)
Ltac no_failure := first [intros ? -> | intros ? [->|(n & E & [Hn|Hn] & _)];
  [|first [discriminate E|injection E as <-; vm_compute in Hn; discriminate Hn]|by destruct always_new]].

Lemma sample_defined : @defined always hello sample ∅.
Proof.
  cbn [defined sample].
  do 9 (eexists; split; [vm_compute; reflexivity|]; cbn [next]; no_failure). done.
Qed.

(** A memory with one string. *)
Definition text : list Z := [104; 101; 108; 108; 111].
Definition text_memory : memory :=
  match @run always (New 0 (Cstr (InBlock 7 0))) (Memory ∅ hello) with Val _ m => m | _ => Memory ∅ hello end.

Lemma text_spec : spec hello ∅ (New 0 (Cstr (InBlock 7 0))) = Some (Done ({[ 0%nat := text ]}, Some 5)).
Proof. vm_compute. reflexivity. Qed.
Lemma insert_spec : spec hello {[ 0%nat := text ]} (Insert 0 2 (Chars (InString 0 1) 3)) =
  Some (Done ({[ 0%nat := [104; 101; 101; 108; 108; 108; 108; 111] ]}, Some 8)).
Proof. vm_compute. reflexivity. Qed.

Lemma text_world : world {[ 0%nat := text ]} hello text_memory.
Proof.
  pose proof (@commands_keep always hello ∅ (Memory ∅ hello) _ _
    (world_initial hello) text_spec) as Hk.
  cbn [keeps] in Hk. unfold wp in Hk. unfold text_memory.
  destruct (@run always (New 0 (Cstr (InBlock 7 0))) (Memory ∅ hello)) as [u m|e m|]; [done| |done].
  destruct Hk as (_ & [[_ Hl]|[_ Hf]]); [vm_compute in Hl; discriminate Hl|by destruct always_new].
Qed.

(** The string is given a part of itself. *)
Lemma string_commands_refine_witness :
  match @run always (Insert 0 2 (Chars (InString 0 1) 3)) text_memory with
  | Val _ m' => world {[ 0%nat := [104; 101; 101; 108; 108; 108; 108; 111] ]} hello m'
  | Exn e m' => m' = text_memory /\ exists n, Some 8 = Some n /\
      (e = length_error /\ string.max_size < n \/
       e = bad_alloc /\ exists m0 k, @new_succeeds always m0 k = false)
  | Ub => False
  end.
Proof.
  exact (@string_commands_refine always {[ 0%nat := text ]} hello text_memory _ _ text_world
    insert_spec).
Defined.

Lemma string_programs_restore_memory_witness :
  exists α m, @run_all always sample (Memory ∅ hello) = Val tt m /\ @reaches always hello sample ∅ α /\
    world α hello m /\ (α = ∅ -> m = Memory ∅ hello).
Proof. apply (@string_programs_restore_memory always hello sample). exact sample_defined. Defined.

(** The last "l" of "hello", found in the string itself. *)
Lemma string_searches_find_witness :
  exists v, @run_search difference Rfind 0 (Chars (InString 0 2) 1) 4 text_memory = Val v text_memory /\
    found Rfind [108] text 4 v.
Proof.
  apply (@string_searches_find always difference difference_laws {[ 0%nat := text ]} hello text_memory 0 text
    Rfind (Chars (InString 0 2) 1) [108] 4); [exact text_world|reflexivity..].
Defined.

Lemma string_comparisons_order_witness :
  compares text_memory (@run_compare difference 0 (Part 2 2) (Substr 0 3 7) text_memory)
      (Done [108; 108]) (Done [108; 111]) /\
  forall s y, ({[ 0%nat := text ]} : contents) !! s = Some y ->
    @search.operator_eq difference 0 s text_memory = Val (bool_decide (text = y)) text_memory /\
    @search.operator_ne difference 0 s text_memory = Val (negb (bool_decide (text = y))) text_memory /\
    @search.operator_lt difference 0 s text_memory = Val (less (lexicographic text y)) text_memory /\
    @search.operator_gt difference 0 s text_memory = Val (greater (lexicographic text y)) text_memory /\
    @search.operator_le difference 0 s text_memory = Val (negb (greater (lexicographic text y))) text_memory /\
    @search.operator_ge difference 0 s text_memory = Val (negb (less (lexicographic text y))) text_memory.
Proof.
  apply (@string_comparisons_order always difference difference_laws {[ 0%nat := text ]} hello text_memory 0 text
    (Part 2 2) (Substr 0 3 7) (Done [108; 111])); [exact text_world|reflexivity..|by vm_compute].
Defined.

Lemma string_access_reads_witness :
  string.size 0 text_memory = Val 5 text_memory /\
  (forall i c, (text ++ [0]) !! i = Some c -> string.operator_index 0 (Z.of_nat i) text_memory = Val c text_memory) /\
  (forall i, 0 <= i -> string.at_ 0 i text_memory =
     match text !! Z.to_nat i with Some c => Val c text_memory | None => Exn out_of_range text_memory end) /\
  (forall c y, text = y ++ [c] -> string.back 0 text_memory = Val c text_memory) /\
  (exists n, string.capacity 0 text_memory = Val n text_memory /\ Z.max 15 5 <= n <= string.max_size) /\
  (forall b k cs pos n, hello !! b = Some cs -> word pos = true -> word n = true ->
     pos <= 5 -> 0 <= k -> k + limit pos n text <= len cs ->
     exists m', string.copy_to 0 (Pointer (Block b) k) n pos text_memory = Val (limit pos n text) m' /\
       world {[ 0%nat := text ]} (<[b := cells_put k (Some <$> slice pos (limit pos n text) text) cs]> hello) m').
Proof.
  exact (@string_access_reads always difference difference_laws {[ 0%nat := text ]} hello text_memory 0 text
    text_world eq_refl).
Defined.
