(* ===== verification/Utf8.v ===== *)
(** * UTF-8 validation: [websocketpp/utf8_validator.hpp]

    The streaming validator the WebSocket library runs over text messages, a
    table-driven automaton, and the encoding of RFC 3629 it is proved to
    recognise: [validate] accepts exactly the concatenations of encoded code
    points, and a streaming [decode] fails at the first octet that no
    continuation can repair. *)
From S2P Require Import Prelude.

Module utf8_validator.

Definition utf8_accept : Z := 0.
Definition utf8_reject : Z := 1.

Definition utf8d : list Z := [
  0;0;0;0;0;0;0;0;0;0;0;0;0;0;0;0;0;0;0;0;0;0;0;0;0;0;0;0;0;0;0;0;
  0;0;0;0;0;0;0;0;0;0;0;0;0;0;0;0;0;0;0;0;0;0;0;0;0;0;0;0;0;0;0;0;
  0;0;0;0;0;0;0;0;0;0;0;0;0;0;0;0;0;0;0;0;0;0;0;0;0;0;0;0;0;0;0;0;
  0;0;0;0;0;0;0;0;0;0;0;0;0;0;0;0;0;0;0;0;0;0;0;0;0;0;0;0;0;0;0;0;
  1;1;1;1;1;1;1;1;1;1;1;1;1;1;1;1;9;9;9;9;9;9;9;9;9;9;9;9;9;9;9;9;
  7;7;7;7;7;7;7;7;7;7;7;7;7;7;7;7;7;7;7;7;7;7;7;7;7;7;7;7;7;7;7;7;
  8;8;2;2;2;2;2;2;2;2;2;2;2;2;2;2;2;2;2;2;2;2;2;2;2;2;2;2;2;2;2;2;
  0xa;0x3;0x3;0x3;0x3;0x3;0x3;0x3;0x3;0x3;0x3;0x3;0x3;0x4;0x3;0x3;
  0xb;0x6;0x6;0x6;0x5;0x8;0x8;0x8;0x8;0x8;0x8;0x8;0x8;0x8;0x8;0x8;
  0x0;0x1;0x2;0x3;0x5;0x8;0x7;0x1;0x1;0x1;0x4;0x6;0x1;0x1;0x1;0x1;
  1;1;1;1;1;1;1;1;1;1;1;1;1;1;1;1;1;0;1;1;1;1;1;0;1;0;1;1;1;1;1;1;
  1;2;1;1;1;1;1;2;1;2;1;1;1;1;1;1;1;1;1;1;1;1;1;2;1;1;1;1;1;1;1;1;
  1;2;1;1;1;1;1;1;1;2;1;1;1;1;1;1;1;1;1;1;1;1;1;3;1;3;1;1;1;1;1;1;
  1;3;1;1;1;1;1;3;1;3;1;1;1;1;1;1;1;3;1;1;1;1;1;1;1;1;1;1;1;1;1;1].

(** The two pointer arguments of [decode] are the members of a validator. *)
Record validator := Validator { m_state : Z; m_codepoint : Z }.
Definition new_validator : validator := Validator utf8_accept 0.

(** The table is read within its bounds, or the behaviour is undefined. *)
Definition decode_byte (v : validator) (byte : Z) : option validator :=
  type ← utf8d !! Z.to_nat byte;
  let codep :=
    if negb (m_state v =? utf8_accept)
    then Z.lor (Z.land byte 0x3f) (u32 (Z.shiftl (m_codepoint v) 6))
    else Z.land (Z.shiftr 0xff type) byte in
  state ← utf8d !! Z.to_nat (256 + m_state v * 16 + type);
  Some (Validator state codep).

Definition consume (byte : Z) (v : validator) : option (bool * validator) :=
  v ← decode_byte v byte;
  Some (negb (m_state v =? utf8_reject), v).

Fixpoint decode (bytes : list Z) (v : validator) : option (bool * validator) :=
  match bytes with
  | [] => Some (true, v)
  | b :: bs =>
      v ← decode_byte v b;
      if m_state v =? utf8_reject then Some (false, v) else decode bs v
  end.

Definition complete (v : validator) : bool := m_state v =? utf8_accept.
Definition reset (v : validator) : validator := Validator utf8_accept 0.

Definition validate (s : list Z) : option bool :=
  '(ok, v) ← decode s new_validator;
  Some (if (ok : bool) then complete v else false).

(** ** RFC 3629 *)

(** The code points: those of Unicode without the surrogates. *)
Definition scalar (c : Z) : bool :=
  (0 <=? c) && (c <=? 0x10ffff) && negb ((0xd800 <=? c) && (c <=? 0xdfff)).

(** The [k] last octets of the encoding of [c], six bits each. *)
Fixpoint tail (k : nat) (c : Z) : list Z :=
  match k with
  | O => []
  | S k' => 0x80 + (c / 64 ^ Z.of_nat k') mod 64 :: tail k' c
  end.

Definition encode (c : Z) : list Z :=
  if c <? 0x80 then [c]
  else if c <? 0x800 then 0xc0 + c / 64 :: tail 1 c
  else if c <? 0x10000 then 0xe0 + c / 64 ^ 2 :: tail 2 c
  else 0xf0 + c / 64 ^ 3 :: tail 3 c.

(** The text of code points. *)
Definition text (cs : list Z) : list Z := cs ≫= encode.
Definition well_formed (bs : list Z) : Prop :=
  exists cs, Forall (fun c => scalar c = true) cs /\ bs = text cs.

(** ** The automaton of the table, by ranges *)
Definition continuation (b : Z) : bool := (0x80 <=? b) && (b <? 0xc0).

Definition next (s b : Z) : Z :=
  if s =? 0 then
    if b <? 0x80 then 0 else if b <? 0xc2 then 1 else if b <? 0xe0 then 2
    else if b =? 0xe0 then 4 else if b =? 0xed then 5 else if b <? 0xf0 then 3
    else if b =? 0xf0 then 6 else if b <? 0xf4 then 7 else if b =? 0xf4 then 8 else 1
  else if s =? 2 then if continuation b then 0 else 1
  else if s =? 3 then if continuation b then 2 else 1
  else if s =? 4 then if continuation b && (0xa0 <=? b) then 2 else 1
  else if s =? 5 then if continuation b && (b <? 0xa0) then 2 else 1
  else if s =? 6 then if continuation b && (0x90 <=? b) then 3 else 1
  else if s =? 7 then if continuation b then 3 else 1
  else if s =? 8 then if continuation b && (b <? 0x90) then 3 else 1
  else 1.

(** What the leading octet contributes to the code point. *)
Definition lead (b : Z) : Z :=
  if b <? 0x80 then b else if b <? 0xe0 then b - 0xc0
  else if b <? 0xf0 then b - 0xe0 else b - 0xf0.

Definition step (v : validator) (b : Z) : validator :=
  Validator (next (m_state v) b)
    (if m_state v =? 0 then lead b else 64 * m_codepoint v + (b - 0x80)).

Definition table_agrees (s b : Z) : bool :=
  match utf8d !! Z.to_nat b with
  | Some type =>
      (match utf8d !! Z.to_nat (256 + s * 16 + type) with
       | Some s' => s' =? next s b | None => false end) &&
      (if (s =? 0) && negb (next s b =? 1) then Z.land (Z.shiftr 0xff type) b =? lead b
       else true)
  | None => false
  end.

Lemma table_is_next :
  forallb (fun s => forallb (table_agrees s) (seqZ 0 256)) (seqZ 0 9) = true.
Proof. vm_compute. reflexivity. Qed.

Definition live (v : validator) : Prop :=
  0 <= m_state v < 9 /\ 0 <= m_codepoint v < 2 ^ 26.

Lemma next_range s b : 0 <= next s b < 9.
Proof. unfold next. repeat case_match; lia. Qed.

Lemma decode_byte_next v b : is_byte b -> 0 <= m_state v < 9 ->
  exists c, decode_byte v b = Some (Validator (next (m_state v) b) c).
Proof.
  intros Hb Hs.
  pose proof (forallb_seqZ _ _ _ (forallb_seqZ _ _ _ table_is_next (m_state v) ltac:(lia)) b
    ltac:(unfold is_byte in Hb; lia)) as E.
  unfold decode_byte, table_agrees in *. case_match; [|done]. simpl.
  destruct (utf8d !! Z.to_nat (256 + m_state v * 16 + _)) as [s'|]; [|done]. simpl.
  eexists. f_equal. f_equal. lia.
Qed.

Lemma land_continuation b : continuation b = true -> Z.land b 0x3f = b - 0x80.
Proof.
  unfold continuation. intros Hb. change 0x3f with (Z.ones 6).
  rewrite Z.land_ones by lia.
  symmetry. apply (Z.mod_unique_pos _ _ 2); lia.
Qed.

Lemma next_continuation s b : s <> 0 -> next s b <> 1 -> continuation b = true.
Proof.
  unfold next. intros Hs Hn. replace (s =? 0) with false in Hn by lia.
  destruct (continuation b); [done|]. simpl in Hn. repeat case_match; lia.
Qed.

(** On what it does not reject, [decode_byte] is the automaton with the code
    point accumulated. *)
Lemma decode_byte_step v b : is_byte b -> live v -> next (m_state v) b <> 1 ->
  decode_byte v b = Some (step v b).
Proof.
  intros Hb [Hs Hc] Hn.
  pose proof (forallb_seqZ _ _ _ (forallb_seqZ _ _ _ table_is_next (m_state v) ltac:(lia)) b
    ltac:(unfold is_byte in Hb; lia)) as E.
  unfold decode_byte, step, table_agrees, utf8_accept in *.
  destruct (utf8d !! Z.to_nat b) as [type|]; [|done]. simpl.
  destruct (utf8d !! Z.to_nat (256 + m_state v * 16 + type)) as [s'|]; [|done]. simpl.
  apply andb_true_iff in E as [E1 E2]. f_equal. f_equal; [lia|].
  destruct (Z.eqb_spec (m_state v) 0) as [E0|E0]; simpl in *.
  - replace (next (m_state v) b =? 1) with false in E2 by lia. simpl in E2. lia.
  - pose proof (next_continuation _ _ E0 Hn) as Hk. rewrite (land_continuation b Hk).
    unfold continuation in Hk. rewrite u32_small by (rewrite Z.shiftl_mul_pow2; lia).
    rewrite lor_shiftl by lia. lia.
Qed.

(** ** The state between two octets

    [pending s] octets are still to come; the code point so far is in the
    range from which they can complete a scalar value. *)
Definition pending (s : Z) : nat :=
  if s =? 0 then 0 else if s =? 2 then 1 else if s <=? 5 then 2 else 3.

Definition partial (v : validator) : Prop :=
  let c := m_codepoint v in
  m_state v = 0 /\ 0 <= c < 2 ^ 21 \/
  m_state v = 2 /\ 2 <= c < 0x4400 /\ ~ 0x360 <= c < 0x380 \/
  m_state v = 3 /\ 1 <= c < 0x110 /\ c <> 13 \/
  m_state v = 4 /\ c = 0 \/ m_state v = 5 /\ c = 13 \/
  m_state v = 6 /\ c = 0 \/ m_state v = 7 /\ 1 <= c < 4 \/ m_state v = 8 /\ c = 4.

Lemma partial_live v : partial v -> live v.
Proof. unfold partial, live. lia. Qed.

Lemma partial_new : partial new_validator.
Proof. unfold partial, new_validator, utf8_accept. simpl. lia. Qed.

Lemma partial_step v b : is_byte b -> partial v -> next (m_state v) b <> 1 ->
  partial (step v b).
Proof.
  intros Hb Hp Hn. unfold is_byte in Hb.
  destruct (Z.eqb_spec (m_state v) 0) as [E|E].
  - unfold partial, step, lead, next in *. rewrite E in *. simpl in *.
    repeat case_match; lia.
  - pose proof (next_continuation _ _ E Hn) as Hk. unfold partial, step in *. simpl.
    replace (m_state v =? 0) with false by lia. unfold continuation in Hk.
    unfold next in *. replace (m_state v =? 0) with false in * by lia.
    unfold continuation in *. repeat case_match; lia.
Qed.

Lemma decode_byte_partial v b : is_byte b -> partial v ->
  exists v', decode_byte v b = Some v' /\
    (m_state v' = 1 /\ next (m_state v) b = 1 \/
     v' = step v b /\ next (m_state v) b <> 1 /\ partial v' /\ m_state v' <> 1).
Proof.
  intros Hb Hp. destruct (Z.eq_dec (next (m_state v) b) 1) as [E|E].
  - destruct (decode_byte_next v b Hb) as [c Hc]; [by apply partial_live|].
    eexists. split; [exact Hc|]. left. done.
  - exists (step v b). split; [apply decode_byte_step; [done|by apply partial_live|done]|].
    right. split_and!; [done|done|by apply partial_step|done].
Qed.

(** [decode] returns on every text of octets; it fails or leaves a partial
    state. *)
Lemma decode_partial bs v : Forall is_byte bs -> partial v ->
  exists ok v', decode bs v = Some (ok, v') /\ (ok = true -> partial v').
Proof.
  intros Hb. revert v. induction Hb as [|b bs Hb Hbs IH]; intros v Hp; simpl; [by eauto|].
  destruct (decode_byte_partial v b Hb Hp) as (v' & -> & [[E _]|(-> & _ & Hp' & Hn)]); simpl.
  - rewrite E. simpl. exists false, v'. by split.
  - unfold utf8_reject. replace (next (m_state v) b =? 1) with false by (simpl in Hn; lia).
    by apply IH.
Qed.

Lemma decode_app bs1 bs2 v :
  decode (bs1 ++ bs2) v =
  ('(ok, v') ← decode bs1 v; if (ok : bool) then decode bs2 v' else Some (false, v')).
Proof.
  revert v. induction bs1 as [|b bs1 IH]; intros v; simpl; [done|].
  destruct (decode_byte v b) as [v'|]; [|done]. simpl.
  destruct (m_state v' =? utf8_reject); [done|apply IH].
Qed.

Lemma decode_cons v b bs : is_byte b -> partial v ->
  decode (b :: bs) v =
  if decide (next (m_state v) b = 1) then (v' ← decode_byte v b; Some (false, v'))
  else decode bs (step v b).
Proof.
  intros Hb Hp. simpl.
  destruct (decode_byte_partial v b Hb Hp) as (v' & -> & [[E E']|(-> & E & _ & Hn)]); simpl.
  - rewrite decide_True by done. unfold utf8_reject. by rewrite E.
  - rewrite decide_False by done. unfold utf8_reject.
    by replace (next (m_state v) b =? 1) with false by lia.
Qed.

Lemma pending_next s b : 0 <= s < 9 -> s <> 0 -> next s b <> 1 ->
  (next s b = 0 /\ pending s = 1%nat) \/
  (next s b <> 0 /\ pending s = S (pending (next s b))).
Proof.
  intros Hs H0 Hn. unfold pending, next in *. replace (s =? 0) with false in * by lia.
  repeat case_match; lia.
Qed.

Lemma last_scalar v b : m_state v <> 0 -> partial v -> next (m_state v) b = 0 ->
  scalar (64 * m_codepoint v + (b - 0x80)) = true.
Proof.
  intros H0 Hp Hn. pose proof (next_continuation _ b H0 ltac:(lia)) as Hk.
  assert (m_state v = 2) as E2.
  { unfold next in Hn. replace (m_state v =? 0) with false in Hn by lia.
    repeat case_match; lia. }
  unfold partial, scalar, continuation in *. lia.
Qed.

(** What is read after a leading octet is the rest of the encoding of a code
    point. *)
Lemma decode_finish k : forall v bs v',
  pending (m_state v) = k -> m_state v <> 0 ->
  Forall is_byte bs -> partial v -> decode bs v = Some (true, v') -> m_state v' = 0 ->
  exists c bs', scalar c = true /\ bs = tail k c ++ bs' /\
    c / 64 ^ Z.of_nat k = m_codepoint v /\ decode bs' (Validator 0 c) = Some (true, v') /\
    (m_state v = 4 -> 0x800 <= c) /\ (m_state v = 6 -> 0x10000 <= c).
Proof.
  induction k as [|k IH]; intros v bs v' Hk H0 Hb Hp Hd He.
  { unfold pending in Hk. repeat case_match; lia. }
  destruct Hb as [|b bs Hb Hbs]; [simpl in Hd; congruence|].
  rewrite decode_cons in Hd by done. case_decide as Hn; [by destruct (decode_byte v b)|].
  pose proof (partial_live v Hp) as [Hs _].
  pose proof (next_continuation _ b H0 Hn) as Hc. unfold continuation in Hc.
  assert (m_codepoint (step v b) = 64 * m_codepoint v + (b - 0x80)) as Ec.
  { unfold step. simpl. by replace (m_state v =? 0) with false by lia. }
  destruct (pending_next _ b Hs H0 Hn) as [[En Ek]|[En Ek]].
  - assert (k = 0%nat) as -> by lia.
    exists (64 * m_codepoint v + (b - 0x80)), bs. split; [by apply last_scalar|].
    split_and!.
    + simpl. f_equal. rewrite Z.div_1_r. symmetry.
      rewrite (Z.add_comm (64 * _)), (Z.mul_comm 64), Z.mod_add, Z.mod_small by lia. lia.
    + simpl. change (64 ^ 1) with 64. symmetry. apply (Z.div_unique_pos _ _ _ (b - 128)); lia.
    + rewrite <-Ec, <-En, <-Hd. done.
    + intros E. rewrite E in Ek. cbn in Ek. lia.
    + intros E. rewrite E in Ek. cbn in Ek. lia.
  - destruct (IH (step v b) bs v') as (c & bs' & Hsc & -> & Hdiv & Hd' & _ & _); try done.
    { simpl. lia. }
    { by apply partial_step. }
    rewrite Ec in Hdiv. exists c, bs'. split_and!; [done| | |done| |].
    + simpl. f_equal. rewrite Hdiv. rewrite (Z.add_comm (64 * _)), (Z.mul_comm 64), Z.mod_add, Z.mod_small by lia. lia.
    + rewrite Nat2Z.inj_succ, Z.pow_succ_r, (Z.mul_comm 64) by lia.
      rewrite <-Z.div_div, Hdiv by lia.
      symmetry. apply (Z.div_unique_pos _ _ _ (b - 128)); lia.
    + intros E. rewrite E in *. cbn in Hk. assert (k = 1%nat) as -> by lia.
      change (64 ^ Z.of_nat 1) with 64 in Hdiv. pose proof (Z.div_mod c 64 ltac:(lia)).
      pose proof (Z.mod_pos_bound c 64 ltac:(lia)).
      unfold partial in Hp. unfold next in Hn. cbn in Hn. repeat case_match; lia.
    + intros E. rewrite E in *. cbn in Hk. assert (k = 2%nat) as -> by lia.
      change (64 ^ Z.of_nat 2) with 4096 in Hdiv. pose proof (Z.div_mod c 4096 ltac:(lia)).
      pose proof (Z.mod_pos_bound c 4096 ltac:(lia)).
      unfold partial in Hp. unfold next in Hn. cbn in Hn. repeat case_match; lia.
Qed.

(** Conversely the octets of a code point lead back to the accepting state. *)
Lemma decode_tail k : forall v c bs,
  pending (m_state v) = k -> m_state v <> 0 -> partial v -> scalar c = true ->
  c / 64 ^ Z.of_nat k = m_codepoint v ->
  (m_state v = 4 -> 0x800 <= c) -> (m_state v = 6 -> 0x10000 <= c) ->
  decode (tail k c ++ bs) v = decode bs (Validator 0 c).
Proof.
  induction k as [|k IH]; intros v c bs Hk H0 Hp Hsc Hdiv H4 H6.
  { unfold pending in Hk. repeat case_match; lia. }
  simpl tail. rewrite <-app_comm_cons. set (d := (c / 64 ^ Z.of_nat k) mod 64).
  assert (0 <= d < 64) as Hd by (apply Z.mod_pos_bound; lia).
  assert (c / 64 ^ Z.of_nat k = 64 * m_codepoint v + d) as Ed.
  { rewrite Nat2Z.inj_succ, Z.pow_succ_r, (Z.mul_comm 64) in Hdiv by lia.
    rewrite <-Z.div_div in Hdiv by lia. rewrite <-Hdiv. unfold d. apply Z.div_mod. lia. }
  clearbody d.
  assert (next (m_state v) (0x80 + d) <> 1) as Hn.
  { pose proof (partial_live v Hp) as [Hs _]. unfold next, continuation.
    unfold scalar in Hsc. unfold partial in Hp.
    destruct Hp as [?|[?|[?|[[E ?]|[[E ?]|[[E ?]|[?|[E ?]]]]]]]]; [lia|..];
      try (repeat case_match; lia);
      rewrite E in *; cbn in Hk; simplify_eq; simpl;
      change (64 ^ Z.of_nat 1) with 64 in Ed; change (64 ^ Z.of_nat 2) with 4096 in Ed;
      pose proof (Z.div_mod c 64 ltac:(lia)); pose proof (Z.mod_pos_bound c 64 ltac:(lia));
      pose proof (Z.div_mod c 4096 ltac:(lia)); pose proof (Z.mod_pos_bound c 4096 ltac:(lia));
      repeat case_match; lia. }
  assert (is_byte (0x80 + d)) as Hb by (unfold is_byte; lia).
  rewrite decode_cons, decide_False by done.
  pose proof (partial_live v Hp) as [Hs _].
  assert (m_codepoint (step v (0x80 + d)) = 64 * m_codepoint v + d) as Ec.
  { unfold step. simpl. replace (m_state v =? 0) with false by lia. lia. }
  destruct (pending_next _ _ Hs H0 Hn) as [[En Ek]|[En Ek]].
  - assert (k = 0%nat) as -> by lia. simpl. f_equal. change (64 ^ Z.of_nat 0) with 1 in Ed.
    rewrite Z.div_1_r in Ed. rewrite Ed, <-Ec. unfold step. simpl. by rewrite En.
  - apply IH; [simpl; lia|done|by apply partial_step|done|by rewrite Ec|..];
      (simpl; pose proof (next_continuation _ _ H0 Hn); unfold next in *;
       replace (m_state v =? 0) with false in * by lia; repeat case_match; lia).
Qed.

Lemma decode_encode c bs v : partial v -> m_state v = 0 -> scalar c = true ->
  decode (encode c ++ bs) v = decode bs (Validator 0 c).
Proof.
  intros Hp H0 Hsc. unfold scalar in Hsc.
  assert (forall b c' k, is_byte b -> next 0 b <> 1 -> lead b = c' ->
    (k > 0)%nat -> pending (next 0 b) = k -> c / 64 ^ Z.of_nat k = c' ->
    (next 0 b = 4 -> 0x800 <= c) -> (next 0 b = 6 -> 0x10000 <= c) ->
    decode ((b :: tail k c) ++ bs) v = decode bs (Validator 0 c)) as Hlead.
  { intros b c' k Hb Hn Hl Hk0 Hk Hdiv H4 H6. rewrite <-app_comm_cons, decode_cons by done.
    rewrite H0, decide_False by done. unfold step. rewrite H0. simpl. rewrite Hl.
    apply decode_tail; simpl; try done.
    - intros E. rewrite E in Hk. cbn in Hk. lia.
    - pose proof (partial_step v b Hb Hp) as Hps. unfold step in Hps. rewrite H0 in Hps.
      simpl in Hps. rewrite Hl in Hps. auto. }
  pose proof (Z.div_mod c 64 ltac:(lia)). pose proof (Z.mod_pos_bound c 64 ltac:(lia)).
  pose proof (Z.div_mod c (64 ^ 2) ltac:(lia)). pose proof (Z.mod_pos_bound c (64 ^ 2) ltac:(lia)).
  pose proof (Z.div_mod c (64 ^ 3) ltac:(lia)). pose proof (Z.mod_pos_bound c (64 ^ 3) ltac:(lia)).
  unfold encode. repeat case_match.
  - simpl app. rewrite decode_cons by (done || (unfold is_byte; lia)).
    assert (next 0 c = 0) as E by (unfold next; simpl; by replace (c <? 128) with true by lia).
    rewrite H0, E, decide_False by done. unfold step. rewrite H0, E. simpl. unfold lead.
    by replace (c <? 128) with true by lia.
  - apply Hlead with (c' := c / 64); change (64 ^ Z.of_nat 1) with 64;
      unfold is_byte, next, lead, pending; simpl; repeat case_match; lia.
  - apply Hlead with (c' := c / 64 ^ 2); change (64 ^ Z.of_nat 2) with (64 ^ 2);
      unfold is_byte, next, lead, pending; simpl; repeat case_match; lia.
  - apply Hlead with (c' := c / 64 ^ 3); change (64 ^ Z.of_nat 3) with (64 ^ 3);
      unfold is_byte, next, lead, pending; simpl; repeat case_match; lia.
Qed.

(** ** What the validator recognises *)

Lemma text_app cs1 cs2 : text (cs1 ++ cs2) = text cs1 ++ text cs2.
Proof. unfold text. by rewrite bind_app. Qed.

Lemma well_formed_cons c bs : scalar c = true -> well_formed bs -> well_formed (encode c ++ bs).
Proof. intros Hc (cs & Hcs & ->). exists (c :: cs). by split; [constructor|]. Qed.

Lemma well_formed_app bs1 bs2 : well_formed bs1 -> well_formed bs2 -> well_formed (bs1 ++ bs2).
Proof.
  intros (cs1 & H1 & ->) (cs2 & H2 & ->). exists (cs1 ++ cs2).
  rewrite Forall_app, text_app. auto.
Qed.

Lemma encode_octets c : scalar c = true -> Forall is_byte (encode c).
Proof.
  unfold scalar. intros Hc. unfold encode, tail.
  pose proof (Z.div_mod c 64 ltac:(lia)). pose proof (Z.mod_pos_bound c 64 ltac:(lia)).
  pose proof (Z.div_mod c (64 ^ 2) ltac:(lia)). pose proof (Z.mod_pos_bound c (64 ^ 2) ltac:(lia)).
  pose proof (Z.div_mod c (64 ^ 3) ltac:(lia)). pose proof (Z.mod_pos_bound c (64 ^ 3) ltac:(lia)).
  assert (forall z, is_byte (0x80 + z mod 64)).
  { intros z. unfold is_byte. pose proof (Z.mod_pos_bound z 64 ltac:(lia)). lia. }
  repeat case_match; repeat apply Forall_cons_2; try apply Forall_nil_2; try done;
    unfold is_byte; lia.
Qed.

Lemma well_formed_octets bs : well_formed bs -> Forall is_byte bs.
Proof.
  intros (cs & Hcs & ->). unfold text. induction Hcs as [|c cs Hc Hcs IH]; simpl; [constructor|].
  apply Forall_app. split; [by apply encode_octets|done].
Qed.

Lemma decode_text cs : forall v bs, Forall (fun c => scalar c = true) cs ->
  partial v -> m_state v = 0 -> exists v', partial v' /\ m_state v' = 0 /\
  decode (text cs ++ bs) v = decode bs v'.
Proof.
  induction cs as [|c cs IH]; intros v bs Hcs Hp H0; [by eauto|].
  apply Forall_cons_1 in Hcs as [Hc Hcs].
  unfold text. simpl. rewrite <-app_assoc, decode_encode by done.
  apply IH; [done| |done]. unfold partial, scalar in *. simpl. lia.
Qed.

Lemma partial_scalar c : scalar c = true -> partial (Validator 0 c).
Proof. unfold scalar, partial. simpl. lia. Qed.

(** A leading octet and the octets it announces are the encoding. *)
Lemma lead_encode b c : is_byte b -> next 0 b <> 0 -> next 0 b <> 1 -> scalar c = true ->
  c / 64 ^ Z.of_nat (pending (next 0 b)) = lead b ->
  (next 0 b = 4 -> 0x800 <= c) -> (next 0 b = 6 -> 0x10000 <= c) ->
  b :: tail (pending (next 0 b)) c = encode c.
Proof.
  intros Hb H0 H1 Hc Hdiv H4 H6. unfold is_byte, scalar in *.
  assert (forall k, 0 < k ->
    c = k * (c / k) + c mod k /\ 0 <= c mod k < k) as Hdm.
  { intros k Hk. split; [apply Z.div_mod; lia|apply Z.mod_pos_bound; lia]. }
  pose proof (Hdm 64 ltac:(lia)). pose proof (Hdm 4096 ltac:(lia)).
  pose proof (Hdm 262144 ltac:(lia)). clear Hdm.
  unfold encode. change (64 ^ 2) with 4096. change (64 ^ 3) with 262144.
  assert (next 0 b = 2 \/ next 0 b = 3 \/ next 0 b = 4 \/ next 0 b = 5 \/
    next 0 b = 6 \/ next 0 b = 7 \/ next 0 b = 8) as Hs by (pose proof (next_range 0 b); lia).
  destruct Hs as [E|[E|[E|[E|[E|[E|E]]]]]]; rewrite E in *; cbn [pending] in *;
    unfold pending in *; cbn [Z.eqb Z.leb Pos.eqb Z.compare Pos.compare Pos.compare_cont] in *;
    change (64 ^ Z.of_nat 1) with 64 in Hdiv; change (64 ^ Z.of_nat 2) with 4096 in Hdiv;
    change (64 ^ Z.of_nat 3) with 262144 in Hdiv;
    unfold next in E; cbn [Z.eqb] in E; unfold lead in Hdiv;
    repeat case_match; try lia; f_equal; lia.
Qed.

Lemma decode_sound n : forall bs v v', (length bs <= n)%nat -> Forall is_byte bs ->
  partial v -> m_state v = 0 -> decode bs v = Some (true, v') -> m_state v' = 0 ->
  well_formed bs.
Proof.
  induction n as [|n IH]; intros [|b bs] v v' Hlen Hb Hp H0 Hd He;
    try (by exists []); [simpl in Hlen; lia|].
  apply Forall_cons_1 in Hb as [Hb Hbs]. simpl in Hlen.
  rewrite decode_cons in Hd by done. case_decide as Hn; [by destruct (decode_byte v b)|].
  pose proof (partial_step v b Hb Hp Hn) as Hp'. rewrite H0 in *.
  destruct (Z.eq_dec (next 0 b) 0) as [E|E].
  - assert (b < 0x80) as Hlt by (unfold next in E; cbn [Z.eqb] in E; repeat case_match; lia).
    change (b :: bs) with ([b] ++ bs).
    replace [b] with (encode b) by (unfold encode; by replace (b <? 128) with true by lia).
    apply well_formed_cons; [unfold scalar, is_byte in *; lia|].
    apply (IH bs (step v b) v'); [lia|done|done| |done|done].
    unfold step. simpl. by rewrite H0.
  - assert (m_state (step v b) = next 0 b) as Es by (unfold step; simpl; by rewrite H0).
    assert (m_codepoint (step v b) = lead b) as Ec by (unfold step; simpl; by rewrite H0).
    destruct (decode_finish _ (step v b) bs v' eq_refl) as (c & bs' & Hc & -> & Hdiv & Hd' & H4 & H6);
      [by rewrite Es|done..|].
    rewrite Es in *. rewrite Ec in Hdiv.
    apply Forall_app in Hbs as [_ Hbs]. rewrite length_app in Hlen.
    rewrite app_comm_cons, lead_encode by done. apply well_formed_cons; [done|].
    apply (IH bs' (Validator 0 c) v'); try done; [lia|by apply partial_scalar].
Qed.

Lemma tail_octets k c : Forall is_byte (tail k c).
Proof.
  induction k as [|k IH]; simpl; constructor; [|done].
  pose proof (Z.mod_pos_bound (c / 64 ^ Z.of_nat k) 64 ltac:(lia)). unfold is_byte. lia.
Qed.

(** A partial state can be completed to a code point. *)
Lemma decode_completion v : partial v -> exists bs v',
  Forall is_byte bs /\ decode bs v = Some (true, v') /\ m_state v' = 0.
Proof.
  intros Hp. destruct (Z.eq_dec (m_state v) 0) as [E|E].
  { exists [], v. by repeat constructor. }
  set (k := pending (m_state v)).
  set (low := if m_state v =? 4 then 0x800 else if m_state v =? 6 then 0x10000 else 0).
  set (c := m_codepoint v * 64 ^ Z.of_nat k + low).
  exists (tail k c), (Validator 0 c). split; [apply tail_octets|]. split; [|done].
  rewrite <-(app_nil_r (tail k c)).
  assert (0 <= low < 64 ^ Z.of_nat k /\ scalar c = true /\
    (m_state v = 4 -> 0x800 <= c) /\ (m_state v = 6 -> 0x10000 <= c)) as (Hlow & Hc & H4 & H6).
  { subst k low c. unfold partial in Hp.
    destruct Hp as [?|[Hp|[Hp|[Hp|[Hp|[Hp|[Hp|Hp]]]]]]]; [lia|..];
      destruct Hp as [-> Hc]; cbn [Z.eqb Pos.eqb]; unfold pending; cbn [Z.eqb Pos.eqb Z.leb Z.compare Pos.compare Pos.compare_cont];
      change (64 ^ Z.of_nat 1) with 64; change (64 ^ Z.of_nat 2) with 4096;
      change (64 ^ Z.of_nat 3) with 262144; unfold scalar; lia. }
  apply decode_tail; try done. subst c.
  rewrite Z.div_add_l, (Z.div_small low) by lia. lia.
Qed.

Lemma validate_decode bs : Forall is_byte bs -> exists v,
  (decode bs new_validator = Some (true, v) /\ validate bs = Some (complete v) /\ partial v) \/
  (decode bs new_validator = Some (false, v) /\ validate bs = Some false).
Proof.
  intros Hb. destruct (decode_partial bs new_validator Hb partial_new) as ([] & v & E & Hp);
    exists v; [left|right]; unfold validate; rewrite E; auto.
Qed.

Lemma validate_iff bs : Forall is_byte bs ->
  exists ok, validate bs = Some ok /\ (ok = true <-> well_formed bs).
Proof.
  intros Hb.
  assert (well_formed bs -> validate bs = Some true) as Hw.
  { intros (cs & Hcs & ->). destruct (decode_text cs new_validator [] Hcs) as (v & _ & E & Hd);
      [apply partial_new|done|].
    rewrite app_nil_r in Hd. unfold validate. rewrite Hd. simpl. unfold complete, utf8_accept.
    by replace (m_state v =? 0) with true by lia. }
  destruct (validate_decode bs Hb) as (v & [(E & Ev & Hp)|(E & Ev)]); eexists; (split; [exact Ev|]).
  - split; [|by intros H; apply Hw in H; congruence].
    unfold complete, utf8_accept. intros Hc.
    apply (decode_sound _ bs new_validator v (Nat.le_refl _)); [done|apply partial_new|done|done|lia].
  - split; [done|]. intros H. apply Hw in H. congruence.
Qed.

(** A text that has not failed yet is the beginning of a well-formed one. *)
Definition well_formed_prefix (bs : list Z) : Prop := exists rest, well_formed (bs ++ rest).

Lemma decode_prefix bs : Forall is_byte bs ->
  (exists v', decode bs new_validator = Some (true, v')) <-> well_formed_prefix bs.
Proof.
  intros Hb. split.
  - intros (v' & E). destruct (decode_partial bs new_validator Hb partial_new) as (ok & w & E' & Hp).
    assert (ok = true /\ w = v') as [-> ->] by (rewrite E in E'; by simplify_eq).
    destruct (decode_completion v' (Hp eq_refl)) as (rest & w & Hr & Ed & H0).
    exists rest. apply (decode_sound _ _ new_validator w (Nat.le_refl _));
      [by apply Forall_app|apply partial_new|done| |done].
    by rewrite decode_app, E.
  - intros (rest & cs & Hcs & E).
    destruct (decode_text cs new_validator [] Hcs) as (v' & _ & H0 & Hd); [apply partial_new|done|].
    rewrite app_nil_r, <-E, decode_app in Hd.
    destruct (decode bs new_validator) as [[[] w]|]; [by eauto|done|done].
Qed.

Lemma decode_codepoint cs c : Forall (fun c => scalar c = true) (cs ++ [c]) ->
  decode (text (cs ++ [c])) new_validator = Some (true, Validator utf8_accept c).
Proof.
  intros H. apply Forall_app in H as [Hcs Hc]. apply Forall_cons_1 in Hc as [Hc _].
  rewrite text_app. destruct (decode_text cs new_validator (text [c]) Hcs) as (v & Hp & H0 & ->);
    [apply partial_new|done|].
  unfold text. simpl. by rewrite decode_encode.
Qed.

(** ** Theorems *)

(** C29. The validator recognises UTF-8.  [validate] never reads outside its
    table; it accepts a text of octets exactly when the text is the encoding
    of code points (none above 10FFFF, no surrogate, none longer than
    needed).  Fed piece by piece, the streaming [decode] holds out exactly as
    long as what it has seen can still be completed to such a text, and after
    a complete one it has read the last code point. *)
Theorem utf8_recognises_rfc3629 (bs1 bs2 : list Z) :
  Forall is_byte (bs1 ++ bs2) ->
  (exists ok, validate (bs1 ++ bs2) = Some ok /\ (ok = true <-> well_formed (bs1 ++ bs2))) /\
  (exists ok v, ('(ok, v) ← decode bs1 new_validator;
                 if (ok : bool) then decode bs2 v else Some (false, v)) = Some (ok, v) /\
     (ok = true <-> well_formed_prefix (bs1 ++ bs2)) /\
     (forall cs c, Forall (fun c => scalar c = true) (cs ++ [c]) ->
        bs1 ++ bs2 = text (cs ++ [c]) -> m_codepoint v = c)).
Proof.
  intros Hb. split; [by apply validate_iff|]. rewrite <-decode_app.
  destruct (decode_partial (bs1 ++ bs2) new_validator Hb partial_new) as (ok & v & E & _).
  exists ok, v. split; [done|]. split.
  - rewrite <-(decode_prefix _ Hb), E. split; [intros ->; by eauto|by intros (? & [= -> _])].
  - intros cs c Hcs Et. rewrite Et, decode_codepoint in E by done. by simplify_eq.
Qed.

Lemma utf8_recognises_rfc3629_witness :
  exists ok, validate ([0xe2] ++ [0x82; 0xac]) = Some ok /\ ok = true.
Proof.
  destruct (utf8_recognises_rfc3629 [0xe2] [0x82; 0xac] ltac:(octets)) as [(ok & E & H) _].
  exists ok. split; [exact E|]. apply H. exists [0x20ac]. split; [by constructor|reflexivity].
Defined.

End utf8_validator.
