(* ===== verification/WsFrame.v ===== *)
(** * WebSocket frames: [websocketpp/frame.hpp]

    The two header bytes, the extended header with the payload size and the
    masking key, and masking.  The code reads and writes integers through
    unions with arrays of bytes and masks a machine word at a time, so the
    byte order and the width of [size_t] are parameters of the model: both
    orders and both widths the code provides for are covered. *)
From S2P Require Import Prelude.

(** ** The machine *)
Class Machine := {
  little_endian : bool;
  sizeof_size_t : nat }.
Class MachineLaws `{Machine} : Prop :=
  sizeof_size_t_4_or_8 : sizeof_size_t = 4%nat \/ sizeof_size_t = 8%nat.

(** The processor of the rover. *)
Definition armhf : Machine := {| little_endian := true; sizeof_size_t := 4 |}.
Definition x86_64 : Machine := {| little_endian := true; sizeof_size_t := 8 |}.

(** The bytes of an [n]-byte integer, the least significant first. *)
Fixpoint le_octets (n : nat) (x : Z) : list Z :=
  match n with O => [] | S n' => x mod 256 :: le_octets n' (x / 256) end.
Fixpoint le_value (bs : list Z) : Z :=
  match bs with [] => 0 | b :: bs' => b + 256 * le_value bs' end.

Section machine.
Context `{Machine}.

Definition size_t (z : Z) : Z := wrap (8 * Z.of_nat sizeof_size_t) z.

(** Writing the integer member of a union and reading the bytes, and the
    converse. *)
Definition union_c (n : nat) (i : Z) : list Z :=
  if little_endian then le_octets n i else reverse (le_octets n i).
Definition union_i (c : list Z) : Z :=
  le_value (if little_endian then c else reverse c).

(** ** common/network.hpp

    The byte order is found out once and kept in a static variable. *)
Definition is_little_endian : bool :=
  match union_c 2 1 with b :: _ => b =? 1 | [] => false end.

Definition _htonll (src : Z) : Z :=
  match union_c 8 1 with
  | [_; _; _; _; _; _; _; c7] =>
      if c7 =? 1 then src
      else match union_c 8 src with
           | [c0; c1; c2; c3; c4; c5; c6; c7] => union_i [c7; c6; c5; c4; c3; c2; c1; c0]
           | _ => src
           end
  | _ => src
  end.
Definition _ntohll (src : Z) : Z := _htonll src.

(** netinet/in.h chooses by the byte order, bits/byteswap.h swaps. *)
Definition __bswap_16 (x : Z) : Z :=
  u16 (Z.lor (Z.land (Z.shiftr x 8) 0xff) (Z.shiftl (Z.land x 0xff) 8)).
Definition ntohs (x : Z) : Z := if little_endian then __bswap_16 x else x.
Definition htons (x : Z) : Z := if little_endian then __bswap_16 x else x.

End machine.

Module frame.

Definition BASIC_HEADER_LENGTH : Z := 2.
Definition MAX_EXTENDED_HEADER_LENGTH : nat := 12.

(** ** Opcodes *)
Definition continuation : Z := 0x0.
Definition text : Z := 0x1.
Definition binary : Z := 0x2.
Definition rsv3 : Z := 0x3.
Definition rsv7 : Z := 0x7.
Definition close : Z := 0x8.
Definition ping : Z := 0x9.
Definition pong : Z := 0xA.
Definition control_rsvb : Z := 0xB.
Definition control_rsvf : Z := 0xF.

Definition reserved (v : Z) : bool :=
  ((rsv3 <=? v) && (v <=? rsv7)) || ((control_rsvb <=? v) && (v <=? control_rsvf)).
Definition invalid (v : Z) : bool := (0xF <? v) || (v <? 0).
Definition is_control (v : Z) : bool := 0x8 <=? v.

(** ** Limits *)
Definition payload_size_basic : Z := 125.
Definition payload_size_extended : Z := 0xFFFF.
Definition close_reason_size : Z := 123.

Definition BHB0_OPCODE : Z := 0x0F.
Definition BHB0_RSV3 : Z := 0x10.
Definition BHB0_RSV2 : Z := 0x20.
Definition BHB0_RSV1 : Z := 0x40.
Definition BHB0_FIN : Z := 0x80.
Definition BHB1_PAYLOAD : Z := 0x7F.
Definition BHB1_MASK : Z := 0x80.
Definition payload_size_code_16bit : Z := 0x7E.
Definition payload_size_code_64bit : Z := 0x7F.

(** ** The basic header *)
Record basic_header := BasicHeader { b0 : Z; b1 : Z }.

Definition make_basic_header (op size : Z) (fin mask rsv1 rsv2 rsv3 : bool) : basic_header :=
  let b0 := 0 in
  let b0 := if fin then Z.lor b0 BHB0_FIN else b0 in
  let b0 := if rsv1 then Z.lor b0 BHB0_RSV1 else b0 in
  let b0 := if rsv2 then Z.lor b0 BHB0_RSV2 else b0 in
  let b0 := if rsv3 then Z.lor b0 BHB0_RSV3 else b0 in
  let b0 := Z.lor b0 (Z.land op BHB0_OPCODE) in
  let b1 := if mask then BHB1_MASK else 0 in
  let basic_value :=
    if size <=? payload_size_basic then u8 size
    else if size <=? payload_size_extended then payload_size_code_16bit
    else payload_size_code_64bit in
  BasicHeader b0 (Z.lor b1 basic_value).

Definition get_fin (h : basic_header) : bool := Z.land (b0 h) BHB0_FIN =? BHB0_FIN.
Definition get_rsv1 (h : basic_header) : bool := Z.land (b0 h) BHB0_RSV1 =? BHB0_RSV1.
Definition get_rsv2 (h : basic_header) : bool := Z.land (b0 h) BHB0_RSV2 =? BHB0_RSV2.
Definition get_rsv3 (h : basic_header) : bool := Z.land (b0 h) BHB0_RSV3 =? BHB0_RSV3.
Definition get_opcode (h : basic_header) : Z := Z.land (b0 h) BHB0_OPCODE.
Definition get_masked (h : basic_header) : bool := Z.land (b1 h) BHB1_MASK =? BHB1_MASK.
Definition get_basic_size (h : basic_header) : Z := Z.land (b1 h) BHB1_PAYLOAD.

Definition set_b0 (mask : Z) (value : bool) (h : basic_header) : basic_header :=
  BasicHeader (if value then Z.lor (b0 h) mask else Z.ldiff (b0 h) mask) (b1 h).
Definition set_fin (h : basic_header) (value : bool) : basic_header := set_b0 BHB0_FIN value h.
Definition set_rsv1 (h : basic_header) (value : bool) : basic_header := set_b0 BHB0_RSV1 value h.
Definition set_rsv2 (h : basic_header) (value : bool) : basic_header := set_b0 BHB0_RSV2 value h.
Definition set_rsv3 (h : basic_header) (value : bool) : basic_header := set_b0 BHB0_RSV3 value h.
Definition set_masked (h : basic_header) (value : bool) : basic_header :=
  BasicHeader (b0 h) (if value then Z.lor (b1 h) BHB1_MASK else Z.ldiff (b1 h) BHB1_MASK).

Definition get_masking_key_offset (h : basic_header) : Z :=
  if get_basic_size h =? payload_size_code_16bit then 2
  else if get_basic_size h =? payload_size_code_64bit then 8 else 0.
Definition get_header_len (h : basic_header) : Z :=
  let size := BASIC_HEADER_LENGTH + get_masking_key_offset h in
  if get_masked h then size + 4 else size.

(** ** The extended header: twelve bytes *)
Definition extended_header : Type := list Z.
Definition empty_extended_header : extended_header := replicate MAX_EXTENDED_HEADER_LENGTH 0.

(** [std::copy] into an array at an offset. *)
Definition copy_at (offset : Z) (src dst : list Z) : list Z :=
  take (Z.to_nat offset) dst ++ src ++ drop (Z.to_nat offset + length src) dst.

Section machine.
Context `{Machine}.

(** The new bytes and the offset behind the size. *)
Definition copy_payload (payload_size : Z) (bytes : extended_header) : extended_header * Z :=
  let payload_offset :=
    if payload_size <=? payload_size_basic then 8
    else if payload_size <=? payload_size_extended then 6 else 0 in
  (copy_at 0 (drop (Z.to_nat payload_offset) (union_c 8 (_htonll payload_size))) bytes,
   8 - payload_offset).
Definition make_extended_header (payload_size : Z) : extended_header :=
  (copy_payload payload_size empty_extended_header).1.
Definition make_masked_extended_header (payload_size masking_key : Z) : extended_header :=
  let '(bytes, offset) := copy_payload payload_size empty_extended_header in
  copy_at offset (union_c 4 masking_key) bytes.

Definition prepare_header (h : basic_header) (e : extended_header) : list Z :=
  [b0 h; b1 h] ++ take (Z.to_nat (get_header_len h - BASIC_HEADER_LENGTH)) e.

(** A [masking_key_type] is its integer member. *)
Definition get_masking_key (h : basic_header) (e : extended_header) : Z :=
  if negb (get_masked h) then 0
  else union_i (take 4 (drop (Z.to_nat (get_masking_key_offset h)) e)).
Definition get_extended_size (e : extended_header) : Z := ntohs (union_i (take 2 e)).
Definition get_jumbo_size (e : extended_header) : Z := _ntohll (union_i (take 8 e)).
Definition get_payload_size (h : basic_header) (e : extended_header) : Z :=
  let val := get_basic_size h in
  if val <=? payload_size_basic then val
  else if val =? payload_size_code_16bit then get_extended_size e
  else get_jumbo_size e.

(** ** Masking *)
Definition prepare_masking_key (key : Z) : Z :=
  let low_bits := size_t key in
  if (sizeof_size_t =? 8)%nat
  then size_t (Z.lor (wrap 64 (Z.shiftl (size_t key) 32)) low_bits)
  else low_bits.

Definition circshift_prepared_key (prepared_key : Z) (offset : nat) : Z :=
  if (offset =? 0)%nat then prepared_key
  else
    let near := 8 * Z.of_nat offset in
    let far := 8 * Z.of_nat (sizeof_size_t - offset) in
    if is_little_endian
    then Z.lor (Z.shiftr prepared_key near) (size_t (Z.shiftl prepared_key far))
    else Z.lor (size_t (Z.shiftl prepared_key near)) (Z.shiftr prepared_key far).

(** [key.c[i % 4]], or the byte of a word. *)
Definition key_byte (c : list Z) (i : nat) : Z := nth i c 0.

(** [output[i] = input[i] ^ ...]: each byte depends on the input at its own
    index only, so that [output] may be [input]. *)
Fixpoint byte_mask_loop (c : list Z) (key_index : nat) (input : list Z) : list Z :=
  match input with
  | [] => []
  | x :: xs => Z.lxor x (key_byte c key_index) :: byte_mask_loop c (S key_index mod 4) xs
  end.
Definition byte_mask (input : list Z) (key : Z) (key_offset : nat) : list Z :=
  byte_mask_loop (union_c 4 key) (key_offset mod 4) input.

(** The first [n] words of the buffer, then the bytes from there on. *)
Fixpoint mask_words (n : nat) (input : list Z) (prepared_key : Z) : list Z :=
  match n with
  | O => []
  | S n' =>
      union_c sizeof_size_t (Z.lxor (union_i (take sizeof_size_t input)) prepared_key) ++
      mask_words n' (drop sizeof_size_t input) prepared_key
  end.
Definition word_mask_exact (input : list Z) (key : Z) : list Z :=
  let prepared_key := prepare_masking_key key in
  let n := (length input / sizeof_size_t)%nat in
  let start := (n * sizeof_size_t)%nat in
  mask_words n input prepared_key ++
  imap (fun i x => Z.lxor x (key_byte (union_c 4 key) ((start + i) mod 4))) (drop start input).

Definition word_mask_circ (input : list Z) (prepared_key : Z) : list Z * Z :=
  let n := (length input / sizeof_size_t)%nat in
  let l := (length input - n * sizeof_size_t)%nat in
  let start := (length input - l)%nat in
  let byte_key := union_c sizeof_size_t prepared_key in
  (mask_words n input prepared_key ++
   imap (fun i x => Z.lxor x (key_byte byte_key i)) (drop start input),
   circshift_prepared_key prepared_key l).

Definition byte_mask_circ (input : list Z) (prepared_key : Z) : list Z * Z :=
  let key := u32 prepared_key in
  (imap (fun i x => Z.lxor x (key_byte (union_c 4 key) (i mod 4))) input,
   circshift_prepared_key prepared_key (length input mod 4)).

End machine.
End frame.
