(* ===== verification/WsFrameProps.v ===== *)
(** * Frame headers and masking

    Headers come back from their bytes whatever the byte order; the three ways
    to mask (byte by byte, by words, by words with a rotated key that is
    carried from call to call) are one exclusive-or with the repeated key. *)
From S2P Require Import Prelude WsFrame.
Import frame.

(** ** Integers and their bytes *)
Lemma length_le_octets n x : length (le_octets n x) = n.
Proof. revert x. induction n as [|n IH]; intros x; simpl; auto. Qed.

Lemma le_octets_bytes n x : Forall is_byte (le_octets n x).
Proof.
  revert x. induction n as [|n IH]; intros x; simpl; constructor; [|done].
  unfold is_byte. apply Z.mod_pos_bound. lia.
Qed.

Lemma le_value_octets n x : 0 <= x < 256 ^ Z.of_nat n -> le_value (le_octets n x) = x.
Proof.
  revert x. induction n as [|n IH]; intros x Hx.
  { simpl in *. lia. }
  rewrite Nat2Z.inj_succ, Z.pow_succ_r in Hx by lia. simpl. rewrite IH.
  - pose proof (Z.div_mod x 256). lia.
  - split; [apply Z.div_pos; lia|apply Z.div_lt_upper_bound; lia].
Qed.

Lemma le_octets_value bs : Forall is_byte bs -> le_octets (length bs) (le_value bs) = bs.
Proof.
  induction 1 as [|b bs Hb Hbs IH]; simpl; [done|]. unfold is_byte in Hb.
  rewrite (Z.mul_comm 256), Z.mod_add, Z.mod_small, Z.div_add, Z.div_small by lia.
  by rewrite Z.add_0_l, IH.
Qed.

Lemma le_value_bound bs : Forall is_byte bs -> 0 <= le_value bs < 256 ^ Z.of_nat (length bs).
Proof.
  induction 1 as [|b bs Hb Hbs IH]; simpl length; [simpl; lia|].
  rewrite Nat2Z.inj_succ, Z.pow_succ_r by lia. unfold is_byte in Hb. simpl. lia.
Qed.

Lemma le_value_app bs1 bs2 :
  le_value (bs1 ++ bs2) = le_value bs1 + 256 ^ Z.of_nat (length bs1) * le_value bs2.
Proof.
  induction bs1 as [|b bs1 IH]; [simpl; lia|].
  cbn [length app le_value]. rewrite IH, Nat2Z.inj_succ, Z.pow_succ_r by lia. lia.
Qed.

Lemma le_octets_app n1 n2 x :
  le_octets (n1 + n2) x = le_octets n1 x ++ le_octets n2 (x / 256 ^ Z.of_nat n1).
Proof.
  revert x. induction n1 as [|n1 IH]; intros x.
  { simpl. by rewrite Z.div_1_r. }
  cbn [Nat.add le_octets app]. f_equal. rewrite IH. do 2 f_equal.
  rewrite Nat2Z.inj_succ, Z.pow_succ_r, Z.div_div by lia. done.
Qed.

Lemma le_octets_mod n x : le_octets n (x mod 256 ^ Z.of_nat n) = le_octets n x.
Proof.
  revert x. induction n as [|n IH]; intros x; [done|]. cbn [le_octets].
  rewrite Nat2Z.inj_succ, Z.pow_succ_r, Z.rem_mul_r by lia.
  rewrite (Z.mul_comm 256), Z.mod_add, Z.mod_mod, Z.div_add by lia.
  rewrite (Z.div_small (x mod 256)) by (apply Z.mod_pos_bound; lia).
  by rewrite Z.add_0_l, IH.
Qed.

Lemma pow256 n : 256 ^ Z.of_nat n = 2 ^ (8 * Z.of_nat n).
Proof. rewrite Z.pow_mul_r by lia. done. Qed.

Lemma le_octets_lxor n x y :
  le_octets n (Z.lxor x y) = zip_with Z.lxor (le_octets n x) (le_octets n y).
Proof.
  revert x y. induction n as [|n IH]; intros x y; simpl; [done|].
  change 256 with (2 ^ 8). rewrite <-!Z.land_ones, <-!Z.shiftr_div_pow2 by lia.
  rewrite Z.shiftr_lxor, IH. f_equal. bitwise.
  destruct (Z.testbit x n0), (Z.testbit y n0), (n0 <? 8); done.
Qed.

Lemma lxor_byte x y : is_byte x -> is_byte y -> is_byte (Z.lxor x y).
Proof.
  unfold is_byte. intros Hx Hy. split; [apply Z.lxor_nonneg; lia|].
  apply (below_pow2 8); [lia|apply Z.lxor_nonneg; lia|]. intros n Hn.
  rewrite Z.lxor_spec, !(testbit_above 8) by lia. done.
Qed.

Lemma zip_with_reverse {A B C} (f : A -> B -> C) l k : length l = length k ->
  zip_with f (reverse l) (reverse k) = reverse (zip_with f l k).
Proof.
  revert k. induction l as [|x l IH]; intros [|y k] Hl; try done. simpl in *.
  rewrite !reverse_cons, zip_with_app, IH by (rewrite ?length_reverse; lia). done.
Qed.

Section machine.
Context `{MachineLaws}.

Lemma length_union_c n x : length (union_c n x) = n.
Proof. unfold union_c. case_match; [|rewrite length_reverse]; apply length_le_octets. Qed.

Lemma union_c_bytes n x : Forall is_byte (union_c n x).
Proof.
  unfold union_c. case_match; [apply le_octets_bytes|].
  apply Forall_reverse, le_octets_bytes.
Qed.

Lemma union_i_c n x : 0 <= x < 256 ^ Z.of_nat n -> union_i (union_c n x) = x.
Proof.
  intros Hx. unfold union_i, union_c. case_match; rewrite ?reverse_involutive;
    by apply le_value_octets.
Qed.

Lemma union_c_i c : Forall is_byte c -> union_c (length c) (union_i c) = c.
Proof.
  intros Hc. unfold union_i, union_c. case_match; [by apply le_octets_value|].
  rewrite <-(length_reverse c), le_octets_value, reverse_involutive; [done|].
  by apply Forall_reverse.
Qed.

Lemma union_i_bound c : Forall is_byte c -> 0 <= union_i c < 256 ^ Z.of_nat (length c).
Proof.
  intros Hc. unfold union_i. case_match; [by apply le_value_bound|].
  rewrite <-(length_reverse c). apply le_value_bound. by apply Forall_reverse.
Qed.

Lemma union_c_lxor n x y :
  union_c n (Z.lxor x y) = zip_with Z.lxor (union_c n x) (union_c n y).
Proof.
  unfold union_c. rewrite le_octets_lxor. case_match; [done|].
  apply eq_sym, zip_with_reverse. by rewrite !length_le_octets.
Qed.

Lemma is_little_endian_spec : is_little_endian = little_endian.
Proof. unfold is_little_endian, union_c. by destruct little_endian. Qed.

Lemma htonll_spec x :
  _htonll x = if little_endian then union_i (reverse (union_c 8 x)) else x.
Proof.
  assert (union_c 8 1 = if little_endian then [1; 0; 0; 0; 0; 0; 0; 0] else [0; 0; 0; 0; 0; 0; 0; 1])
    as E by (unfold union_c; by destruct little_endian).
  unfold _htonll. rewrite E. pose proof (length_union_c 8 x) as Hl.
  destruct little_endian; [|done]. simpl. generalize dependent (union_c 8 x). intros l Hl.
  by do 9 (destruct l as [|? l]; try done).
Qed.

(** Network order: the most significant byte first. *)
Lemma union_c_htonll x : union_c 8 (_htonll x) = reverse (le_octets 8 x).
Proof.
  rewrite htonll_spec. destruct little_endian eqn:El.
  - rewrite <-(length_union_c 8 x) at 1. rewrite <-(length_reverse (union_c 8 x)).
    rewrite union_c_i by (apply Forall_reverse, union_c_bytes).
    unfold union_c. by rewrite El.
  - unfold union_c. by rewrite El.
Qed.

Lemma ntohll_union_i bs : length bs = 8%nat -> Forall is_byte bs ->
  _ntohll (union_i bs) = le_value (reverse bs).
Proof.
  intros Hl Hb. unfold _ntohll. rewrite htonll_spec.
  pose proof (union_c_i bs Hb) as Ec. rewrite Hl in Ec. rewrite Ec.
  unfold union_i. by destruct little_endian.
Qed.

Lemma bswap_16_spec a b : is_byte a -> is_byte b -> __bswap_16 (a + 256 * b) = b + 256 * a.
Proof.
  unfold is_byte. intros Ha Hb. unfold __bswap_16.
  change 0xff with (Z.ones 8). rewrite !Z.land_ones by lia.
  rewrite Z.shiftr_div_pow2, Z.shiftl_mul_pow2 by lia.
  change (2 ^ 8) with 256. rewrite (Z.mul_comm 256 b), Z.div_add, Z.mod_add by lia.
  rewrite Z.div_small, (Z.mod_small a), Z.add_0_l, Z.mod_small by lia.
  replace (a * 256) with (Z.shiftl a 8) by (rewrite Z.shiftl_mul_pow2; lia).
  rewrite lor_shiftl by lia.
  rewrite u16_small; lia.
Qed.

Lemma ntohs_union_i a b : is_byte a -> is_byte b -> ntohs (union_i [a; b]) = 256 * a + b.
Proof.
  intros Ha Hb. unfold ntohs, union_i. destruct little_endian; simpl.
  - replace (a + 256 * (b + 256 * 0)) with (a + 256 * b) by lia.
    rewrite bswap_16_spec by done. lia.
  - lia.
Qed.


(** ** Masking *)

(** Exclusive-or with the key repeated, from its byte [off] on. *)
Definition masked (key : Z) (off : nat) (input : list Z) : list Z :=
  imap (fun i x => Z.lxor x (key_byte (union_c 4 key) ((off + i) mod 4))) input.

Lemma masked_ext key off off' input :
  (off mod 4 = off' mod 4)%nat -> masked key off input = masked key off' input.
Proof.
  intros E. unfold masked. apply imap_ext. intros i x _. do 2 f_equal.
  rewrite <-(Nat.Div0.add_mod_idemp_l off), <-(Nat.Div0.add_mod_idemp_l off'). by rewrite E.
Qed.

Lemma masked_app key off bs1 bs2 :
  masked key off (bs1 ++ bs2) = masked key off bs1 ++ masked key (off + length bs1) bs2.
Proof.
  unfold masked. rewrite imap_app. f_equal. apply imap_ext. intros i x _. simpl.
  by rewrite Nat.add_assoc.
Qed.

Lemma masked_cons key off x bs :
  masked key off (x :: bs) =
  Z.lxor x (key_byte (union_c 4 key) (off mod 4)) :: masked key (S off) bs.
Proof.
  unfold masked. rewrite imap_cons, Nat.add_0_r. f_equal. apply imap_ext.
  intros i y _. unfold compose. by rewrite Nat.add_succ_r.
Qed.

Lemma length_masked key off bs : length (masked key off bs) = length bs.
Proof. apply length_imap. Qed.

Lemma key_byte_bytes n x i : is_byte (key_byte (union_c n x) i).
Proof.
  unfold key_byte. pose proof (union_c_bytes n x) as Hb.
  destruct (nth_in_or_default i (union_c n x) 0) as [Hin| ->]; [|unfold is_byte; lia].
  rewrite Forall_forall in Hb. by apply Hb, list_elem_of_In.
Qed.

Lemma masked_bytes key off bs : Forall is_byte bs -> Forall is_byte (masked key off bs).
Proof.
  intros Hb. revert off. induction Hb as [|b bs Hb Hbs IH]; intros off; [constructor|].
  rewrite masked_cons. constructor; [|done]. apply lxor_byte; [done|apply key_byte_bytes].
Qed.

Lemma masked_masked key off bs : masked key off (masked key off bs) = bs.
Proof.
  revert off. induction bs as [|b bs IH]; intros off; [done|].
  rewrite !masked_cons, IH. f_equal. by rewrite Z.lxor_assoc, Z.lxor_nilpotent, Z.lxor_0_r.
Qed.

Lemma byte_mask_masked input key off : byte_mask input key off = masked key off input.
Proof.
  unfold byte_mask. revert off. induction input as [|x xs IH]; intros off; [done|].
  cbn [byte_mask_loop]. rewrite masked_cons, <-IH. do 2 f_equal.
  rewrite <-(Nat.add_1_r (off mod 4)), <-(Nat.add_1_r off). apply Nat.Div0.add_mod_idemp_l.
Qed.

(** A prepared key that stands for the key from its byte [off] on. *)
Definition key_bytes (key : Z) (off n : nat) : list Z :=
  (fun i => key_byte (union_c 4 key) ((off + i) mod 4)) <$> seq 0 n.
Definition prepared (pk key : Z) (off : nat) : Prop :=
  0 <= pk < 256 ^ Z.of_nat sizeof_size_t /\
  union_c sizeof_size_t pk = key_bytes key off sizeof_size_t.

Lemma length_key_bytes key off n : length (key_bytes key off n) = n.
Proof. unfold key_bytes. by rewrite length_fmap, length_seq. Qed.

Lemma key_bytes_0 key : key_bytes key 0 4 = union_c 4 key.
Proof.
  pose proof (length_union_c 4 key) as Hl. unfold key_bytes, key_byte.
  generalize dependent (union_c 4 key). intros l Hl.
  by do 5 (destruct l as [|? l]; try done).
Qed.

Lemma key_bytes_app key off n1 n2 :
  key_bytes key off (n1 + n2) = key_bytes key off n1 ++ key_bytes key (off + n1) n2.
Proof.
  unfold key_bytes. rewrite seq_app, fmap_app. f_equal. simpl.
  replace n1 with (n1 + 0)%nat at 1 by lia. rewrite <-fmap_add_seq, <-list_fmap_compose.
  apply list_fmap_ext. intros i x _. simpl. by rewrite Nat.add_assoc.
Qed.

Lemma key_bytes_ext key off off' n :
  (off mod 4 = off' mod 4)%nat -> key_bytes key off n = key_bytes key off' n.
Proof.
  intros E. unfold key_bytes. apply list_fmap_ext. intros i x _. f_equal.
  by rewrite <-(Nat.Div0.add_mod_idemp_l off), <-(Nat.Div0.add_mod_idemp_l off'), E.
Qed.

Lemma key_byte_key_bytes key off n i : (i < n)%nat ->
  key_byte (key_bytes key off n) i = key_byte (union_c 4 key) ((off + i) mod 4).
Proof.
  intros Hi. unfold key_byte at 1. apply nth_lookup_Some. unfold key_bytes.
  rewrite list_lookup_fmap, lookup_seq_lt by done. done.
Qed.

Lemma masked_zip key off bs n : length bs = n ->
  zip_with Z.lxor bs (key_bytes key off n) = masked key off bs.
Proof.
  intros <-. revert off. induction bs as [|b bs IH]; intros off; [done|].
  change (length (b :: bs)) with (1 + length bs)%nat. rewrite key_bytes_app, masked_cons.
  unfold key_bytes at 1. simpl. rewrite Nat.add_0_r. f_equal.
  rewrite <-IH. by rewrite Nat.add_1_r.
Qed.

#[local] Set Default Proof Using "Type*".

Lemma word_size : (sizeof_size_t mod 4 = 0)%nat /\ (4 <= sizeof_size_t <= 8)%nat.
Proof. destruct sizeof_size_t_4_or_8 as [-> | ->]; (split; [done|lia]). Qed.

Lemma size_t_small z : 0 <= z < 256 ^ Z.of_nat sizeof_size_t -> size_t z = z.
Proof. rewrite pow256. apply wrap_small. Qed.

Lemma prepare_masking_key_prepared key : 0 <= key < 2 ^ 32 ->
  prepared (prepare_masking_key key) key 0.
Proof.
  intros Hk. unfold prepare_masking_key, prepared.
  assert (size_t key = key) as ->.
  { apply size_t_small. destruct sizeof_size_t_4_or_8 as [-> | ->]; simpl; lia. }
  destruct sizeof_size_t_4_or_8 as [E4|E8]; [rewrite !E4|rewrite !E8]; simpl (_ =? _)%nat; cbn iota.
  { split; [simpl; lia|]. symmetry. apply key_bytes_0. }
  assert (Z.lor (wrap 64 (Z.shiftl key 32)) key = key + 2 ^ 32 * key) as ->.
  { rewrite wrap_small by (rewrite Z.shiftl_mul_pow2; lia).
    rewrite Z.lor_comm. by apply lor_shiftl. }
  rewrite size_t_small by (rewrite E8; change (256 ^ Z.of_nat 8) with (2 ^ 64); lia).
  split; [change (256 ^ Z.of_nat 8) with (2 ^ 64); lia|].
  change 8%nat with (4 + 4)%nat. rewrite key_bytes_app, (key_bytes_ext key (0 + 4) 0), key_bytes_0
    by done.
  assert (le_octets (4 + 4) (key + 2 ^ 32 * key) = le_octets 4 key ++ le_octets 4 key) as E.
  { rewrite <-(le_value_octets 4 key Hk) at 1 2.
    change (2 ^ 32) with (256 ^ Z.of_nat 4). rewrite <-(length_le_octets 4 key) at 2.
    rewrite <-le_value_app. apply (le_octets_value (le_octets 4 key ++ le_octets 4 key)).
    apply Forall_app. split; apply le_octets_bytes. }
  unfold union_c. rewrite E.
  by destruct little_endian; rewrite ?reverse_app.
Qed.

(** Rotating a word rotates its bytes. *)
Lemma rotate_word B1 B2 : Forall is_byte (B1 ++ B2) ->
  length (B1 ++ B2) = sizeof_size_t ->
  Z.lor (Z.shiftr (le_value (B1 ++ B2)) (8 * Z.of_nat (length B1)))
    (size_t (Z.shiftl (le_value (B1 ++ B2)) (8 * Z.of_nat (length B2)))) =
  le_value (B2 ++ B1).
Proof.
  intros Hb Hl. apply Forall_app in Hb as [Hb1 Hb2]. rewrite length_app in Hl.
  pose proof (le_value_bound _ Hb1) as H1. pose proof (le_value_bound _ Hb2) as H2.
  assert (size_t (Z.shiftl (le_value (B1 ++ B2)) (8 * Z.of_nat (length B2))) =
    Z.shiftl (le_value B1) (8 * Z.of_nat (length B2))) as ->.
  { unfold size_t, wrap. rewrite <-Hl, !Z.shiftl_mul_pow2, <-!pow256 by lia.
    rewrite le_value_app.
    replace ((le_value B1 + 256 ^ Z.of_nat (length B1) * le_value B2) * 256 ^ Z.of_nat (length B2))
      with (le_value B1 * 256 ^ Z.of_nat (length B2) +
            le_value B2 * 256 ^ Z.of_nat (length B1 + length B2))
      by (rewrite Nat2Z.inj_add, Z.pow_add_r by lia; ring).
    rewrite Z.mod_add by (apply Z.pow_nonzero; lia). apply Z.mod_small.
    rewrite Nat2Z.inj_add, Z.pow_add_r by lia. nia. }
  rewrite Z.shiftr_div_pow2, <-pow256 by lia.
  rewrite (le_value_app B1 B2), (Z.mul_comm (256 ^ _)), Z.div_add, Z.div_small, Z.add_0_l
    by lia.
  rewrite lor_shiftl by (rewrite <-?pow256; lia). by rewrite <-pow256, le_value_app.
Qed.

Lemma prepared_rotate pk key off l : (l < sizeof_size_t)%nat -> prepared pk key off ->
  prepared (circshift_prepared_key pk l) key (off + l).
Proof.
  intros Hl [Hpk Hb]. unfold circshift_prepared_key.
  destruct (Nat.eqb_spec l 0) as [->|Hl0]; [by rewrite Nat.add_0_r|].
  rewrite is_little_endian_spec.
  set (K1 := key_bytes key off l). set (K2 := key_bytes key (off + l) (sizeof_size_t - l)).
  assert (union_c sizeof_size_t pk = K1 ++ K2) as E.
  { rewrite Hb. replace sizeof_size_t with (l + (sizeof_size_t - l))%nat at 1 by lia.
    apply key_bytes_app. }
  assert (key_bytes key (off + l) sizeof_size_t = K2 ++ K1) as Er.
  { replace sizeof_size_t with ((sizeof_size_t - l) + l)%nat at 1 by lia.
    rewrite key_bytes_app. f_equal. apply key_bytes_ext.
    replace (off + l + (sizeof_size_t - l))%nat with (off + sizeof_size_t)%nat by lia.
    pose proof word_size as [Hm _]. rewrite <-Nat.Div0.add_mod_idemp_r, Hm. by rewrite Nat.add_0_r. }
  assert (length K1 = l) as L1 by apply length_key_bytes.
  assert (length K2 = (sizeof_size_t - l)%nat) as L2 by apply length_key_bytes.
  assert (Forall is_byte (K1 ++ K2)) as Hbytes by (rewrite <-E; apply union_c_bytes).
  assert (Forall is_byte (K2 ++ K1)) as Hbytes' by (rewrite Forall_app in *; tauto).
  assert (pk = union_i (K1 ++ K2)) as -> by (rewrite <-E; by rewrite union_i_c).
  unfold prepared. rewrite Er.
  assert (length (K2 ++ K1) = sizeof_size_t) as Lr by (rewrite length_app; lia).
  assert (forall z, z = union_i (K2 ++ K1) ->
    0 <= z < 256 ^ Z.of_nat sizeof_size_t /\ union_c sizeof_size_t z = K2 ++ K1) as Hz.
  { intros z ->. rewrite <-Lr. split; [by apply union_i_bound|by apply union_c_i]. }
  unfold union_i in *. destruct little_endian; apply Hz.
  - rewrite <-L1 at 1. rewrite <-L2. apply rotate_word; [done|]. rewrite length_app. lia.
  - rewrite !reverse_app, Z.lor_comm. rewrite <-L2, <-L1.
    rewrite <-(length_reverse K1), <-(length_reverse K2).
    apply rotate_word; [by rewrite <-reverse_app, Forall_reverse|].
    rewrite length_app, !length_reverse. lia.
Qed.

(** The first four bytes of a prepared key, as a 32-bit integer. *)
Lemma prepared_low pk key off : prepared pk key off ->
  union_c 4 (u32 pk) = key_bytes key off 4.
Proof.
  intros [Hpk Hb]. unfold u32.
  unfold union_c in *. unfold wrap. change (2 ^ 32) with (256 ^ Z.of_nat 4).
  rewrite le_octets_mod.
  destruct sizeof_size_t_4_or_8 as [E|E]; rewrite E in Hb; [exact Hb|].
  change 8%nat with (4 + 4)%nat in Hb. rewrite le_octets_app, key_bytes_app in Hb.
  destruct little_endian.
  - apply app_inj_1 in Hb as [-> _]; [done|]. by rewrite length_le_octets, length_key_bytes.
  - rewrite reverse_app in Hb. apply app_inj_2 in Hb as [_ ->].
    + apply key_bytes_ext. rewrite <-Nat.Div0.add_mod_idemp_r. by rewrite Nat.add_0_r.
    + by rewrite length_reverse, length_le_octets, length_key_bytes.
Qed.

Lemma byte_mask_circ_masked pk key off input : prepared pk key off ->
  (byte_mask_circ input pk).1 = masked key off input /\
  prepared (byte_mask_circ input pk).2 key (off + length input).
Proof.
  intros Hp. unfold byte_mask_circ. cbn [fst snd]. rewrite (prepared_low _ _ _ Hp). split.
  - apply imap_ext. intros i x _. rewrite key_byte_key_bytes; [|apply Nat.mod_upper_bound; lia].
    by rewrite Nat.Div0.add_mod_idemp_r.
  - pose proof word_size as [_ Hw]. pose proof (Nat.mod_upper_bound (length input) 4 ltac:(lia)).
    destruct (prepared_rotate pk key off (length input mod 4) ltac:(lia) Hp) as [Hr1 Hr2].
    split; [done|]. rewrite Hr2. apply key_bytes_ext. apply Nat.Div0.add_mod_idemp_r.
Qed.

Lemma mask_words_masked n : forall pk key off input, Forall is_byte input ->
  prepared pk key off -> (n * sizeof_size_t <= length input)%nat ->
  mask_words n input pk = masked key off (take (n * sizeof_size_t) input).
Proof.
  induction n as [|n IH]; intros pk key off input Hb Hp Hn; [by rewrite take_0|].
  simpl. rewrite <-(take_drop sizeof_size_t input) in Hb. apply Forall_app in Hb as [Hb1 Hb2].
  assert (length (take sizeof_size_t input) = sizeof_size_t) as Hl by (rewrite length_take; lia).
  rewrite union_c_lxor. pose proof Hp as [Hpk Hc].
  rewrite <-Hl at 1. rewrite union_c_i by done. rewrite Hc, masked_zip by done.
  rewrite (IH pk key off) by (done || (rewrite length_drop; lia)).
  rewrite <-take_take_drop, masked_app, Hl. f_equal.
  apply masked_ext. pose proof word_size as [Hm _].
  by rewrite <-Nat.Div0.add_mod_idemp_r, Hm, Nat.add_0_r.
Qed.

Lemma word_mask_circ_masked pk key off input : Forall is_byte input -> prepared pk key off ->
  (word_mask_circ input pk).1 = masked key off input /\
  prepared (word_mask_circ input pk).2 key (off + length input).
Proof.
  intros Hb Hp. pose proof word_size as [Hm Hw]. unfold word_mask_circ. cbn [fst snd].
  pose proof (Nat.div_mod_eq (length input) sizeof_size_t) as Ediv.
  pose proof (Nat.mod_upper_bound (length input) sizeof_size_t ltac:(lia)) as Hub.
  set (n := (length input / sizeof_size_t)%nat) in *.
  rewrite (Nat.mul_comm sizeof_size_t) in Ediv.
  replace (length input - n * sizeof_size_t)%nat with (length input mod sizeof_size_t)%nat by lia.
  set (l := (length input mod sizeof_size_t)%nat) in *.
  replace (length input - l)%nat with (n * sizeof_size_t)%nat by lia.
  assert (forall a, (a + n * sizeof_size_t) mod 4 = a mod 4)%nat as Eoff.
  { intros a. rewrite <-Nat.Div0.add_mod_idemp_r, Nat.Div0.mul_mod, Hm, Nat.mul_0_r.
    change (0 mod 4)%nat with 0%nat. by rewrite Nat.add_0_r. }
  split.
  - rewrite (mask_words_masked n pk key off input Hb Hp) by lia.
    rewrite <-(take_drop (n * sizeof_size_t) input) at 3. rewrite masked_app. f_equal.
    rewrite length_take. replace (_ `min` _)%nat with (n * sizeof_size_t)%nat by lia.
    rewrite (masked_ext key (off + n * sizeof_size_t) off) by done.
    apply imap_ext. intros i x Hx. apply lookup_lt_Some in Hx. rewrite length_drop in Hx.
    destruct Hp as [_ ->]. rewrite key_byte_key_bytes by lia. done.
  - destruct (prepared_rotate pk key off l ltac:(lia) Hp) as [Hr1 Hr2].
    split; [done|]. rewrite Hr2. apply key_bytes_ext. rewrite Ediv.
    rewrite (Nat.add_comm (n * _)), Nat.add_assoc. by rewrite Eoff.
Qed.

Lemma word_mask_exact_masked key input : Forall is_byte input -> 0 <= key < 2 ^ 32 ->
  word_mask_exact input key = masked key 0 input.
Proof.
  intros Hb Hk. pose proof word_size as [Hm Hw]. unfold word_mask_exact.
  pose proof (Nat.div_mod_eq (length input) sizeof_size_t) as Ediv.
  rewrite (Nat.mul_comm sizeof_size_t) in Ediv.
  set (n := (length input / sizeof_size_t)%nat) in *.
  rewrite (mask_words_masked n _ key 0 input Hb (prepare_masking_key_prepared key Hk)) by lia.
  rewrite <-(take_drop (n * sizeof_size_t) input) at 3. rewrite masked_app. f_equal.
  rewrite length_take. by replace (_ `min` _)%nat with (n * sizeof_size_t)%nat by lia.
Qed.

(** ** Headers on the wire *)

(** The size behind the basic header, most significant byte first, and the
    masking key as it lies in memory. *)
Definition size_octets (code len : Z) : list Z :=
  if code =? payload_size_code_16bit then reverse (le_octets 2 len)
  else if code =? payload_size_code_64bit then reverse (le_octets 8 len) else [].
Definition key_octets (h : basic_header) (key : Z) : list Z :=
  if get_masked h then union_c 4 key else [].
Definition header_octets (h : basic_header) (len key : Z) : list Z :=
  [b0 h; b1 h] ++ size_octets (get_basic_size h) len ++ key_octets h key.

(** The code of the basic header can stand for the size. *)
Definition code_fits (code len : Z) : Prop :=
  0 <= len /\
  if code =? payload_size_code_16bit then len < 2 ^ 16
  else if code =? payload_size_code_64bit then len < 2 ^ 64 else len = code.

Lemma size_octets_bytes code len : Forall is_byte (size_octets code len).
Proof.
  unfold size_octets. repeat case_match; try (by constructor);
    apply Forall_reverse, le_octets_bytes.
Qed.

Lemma key_octets_bytes h key : Forall is_byte (key_octets h key).
Proof. unfold key_octets. case_match; [apply union_c_bytes|constructor]. Qed.

Lemma get_basic_size_range h : 0 <= get_basic_size h < 128.
Proof.
  unfold get_basic_size, BHB1_PAYLOAD. change 0x7F with (Z.ones 7).
  rewrite Z.land_ones by lia. apply Z.mod_pos_bound. lia.
Qed.

Lemma length_size_octets h len :
  Z.of_nat (length (size_octets (get_basic_size h) len)) = get_masking_key_offset h.
Proof.
  unfold size_octets, get_masking_key_offset.
  repeat case_match; rewrite ?length_reverse, ?length_le_octets; done.
Qed.

Lemma length_header_octets h len key :
  Z.of_nat (length (header_octets h len key)) = get_header_len h.
Proof.
  unfold header_octets, get_header_len, key_octets, BASIC_HEADER_LENGTH.
  pose proof (length_size_octets h len).
  rewrite !length_app. simpl. case_match; rewrite ?length_union_c; simpl; lia.
Qed.

(** Sizes and keys come back from their octets. *)
Lemma get_payload_size_octets h len rest : code_fits (get_basic_size h) len ->
  get_payload_size h (size_octets (get_basic_size h) len ++ rest) = len.
Proof.
  intros [Hlen Hfit]. pose proof (get_basic_size_range h).
  unfold get_payload_size, size_octets, payload_size_basic in *.
  unfold payload_size_code_16bit, payload_size_code_64bit in *.
  destruct (Z.eqb_spec (get_basic_size h) 126) as [E|E].
  - rewrite E. simpl (126 <=? 125). simpl (126 =? 126). cbn iota.
    unfold get_extended_size. cbn [le_octets]. rewrite reverse_cons, reverse_singleton. simpl.
    rewrite ntohs_union_i by
      (unfold is_byte; apply Z.mod_pos_bound; lia).
    rewrite (Z.mod_small (len / 256)) by
      (split; [apply Z.div_pos; lia|apply Z.div_lt_upper_bound; lia]).
    pose proof (Z.div_mod len 256). lia.
  - destruct (Z.eqb_spec (get_basic_size h) 127) as [E'|E'].
    + rewrite E'. simpl (127 <=? 125). cbn iota. unfold get_jumbo_size.
      rewrite take_app_le by (rewrite length_reverse, length_le_octets; lia).
      rewrite take_ge by (rewrite length_reverse, length_le_octets; lia).
      rewrite ntohll_union_i, reverse_involutive.
      * by apply le_value_octets.
      * by rewrite length_reverse, length_le_octets.
      * apply Forall_reverse, le_octets_bytes.
    + replace (get_basic_size h <=? 125) with true by lia. done.
Qed.

Lemma get_masking_key_octets h len key rest : 0 <= key < 2 ^ 32 ->
  get_masking_key h (size_octets (get_basic_size h) len ++ key_octets h key ++ rest) =
  if get_masked h then key else 0.
Proof.
  intros Hk. unfold get_masking_key, key_octets. destruct (get_masked h); [|done]. simpl negb.
  cbn iota. rewrite <-(length_size_octets h len), Nat2Z.id, drop_app_length.
  rewrite take_app_le by (rewrite length_union_c; lia).
  rewrite take_ge by (rewrite length_union_c; lia). by apply union_i_c.
Qed.

(** ** The headers the library writes *)
Definition size_code (size : Z) : Z :=
  if size <=? payload_size_basic then size
  else if size <=? payload_size_extended then payload_size_code_16bit
  else payload_size_code_64bit.

Lemma size_code_range size : 0 <= size -> 0 <= size_code size < 128.
Proof.
  unfold size_code, payload_size_basic, payload_size_code_16bit, payload_size_code_64bit.
  repeat case_match; lia.
Qed.

Lemma size_code_fits size : 0 <= size < 2 ^ 64 -> code_fits (size_code size) size.
Proof.
  unfold code_fits, size_code, payload_size_basic, payload_size_extended,
    payload_size_code_16bit, payload_size_code_64bit.
  intros Hs. destruct (Z.leb_spec size 125); [|destruct (Z.leb_spec size 65535)].
  - replace (size =? 126) with false by lia. replace (size =? 127) with false by lia. lia.
  - simpl. lia.
  - simpl. lia.
Qed.

Definition header_bits_ok (op : Z) (fin rsv1 rsv2 rsv3 : bool) : bool :=
  let h := make_basic_header op 0 fin false rsv1 rsv2 rsv3 in
  eqb (get_fin h) fin && eqb (get_rsv1 h) rsv1 && eqb (get_rsv2 h) rsv2 &&
  eqb (get_rsv3 h) rsv3 && (get_opcode h =? op) && (0 <=? b0 h) && (b0 h <? 256).
Lemma header_bits_all :
  forallb (fun op => forallb (fun '(fin, rsv1, rsv2, rsv3) => header_bits_ok op fin rsv1 rsv2 rsv3)
    (x ← [true; false]; y ← [true; false]; z ← [true; false]; t ← [true; false]; [(x, y, z, t)]))
    (seqZ 0 16) = true.
Proof. vm_compute. reflexivity. Qed.

Definition size_bits_ok (mask : bool) (code : Z) : bool :=
  let h := BasicHeader 0 (Z.lor (if mask then BHB1_MASK else 0) code) in
  eqb (get_masked h) mask && (get_basic_size h =? code) && (0 <=? b1 h) && (b1 h <? 256).
Lemma size_bits_all :
  forallb (fun code => size_bits_ok true code && size_bits_ok false code) (seqZ 0 128) = true.
Proof. vm_compute. reflexivity. Qed.

Lemma make_basic_header_spec op size fin mask rsv1 rsv2 rsv3 :
  0 <= op < 16 -> 0 <= size ->
  let h := make_basic_header op size fin mask rsv1 rsv2 rsv3 in
  get_fin h = fin /\ get_rsv1 h = rsv1 /\ get_rsv2 h = rsv2 /\ get_rsv3 h = rsv3 /\
  get_opcode h = op /\ get_masked h = mask /\ get_basic_size h = size_code size /\
  is_byte (b0 h) /\ is_byte (b1 h).
Proof.
  intros Hop Hs h.
  pose proof (forallb_seqZ _ _ _ header_bits_all op ltac:(lia)) as H1.
  assert (header_bits_ok op fin rsv1 rsv2 rsv3 = true) as H1'.
  { destruct fin, rsv1, rsv2, rsv3; simpl in H1; rewrite !andb_true_iff in H1; tauto. }
  pose proof (forallb_seqZ _ _ _ size_bits_all _ (size_code_range size Hs)) as H2.
  assert (size_bits_ok mask (size_code size) = true) as H2'.
  { cbv beta in H2. apply andb_true_iff in H2 as [Ht Hf]. by destruct mask. }
  assert (b1 h = Z.lor (if mask then BHB1_MASK else 0) (size_code size)) as E1.
  { subst h. unfold make_basic_header, size_code. cbn [b1]. f_equal.
    destruct (Z.leb_spec size payload_size_basic); [|done]. apply u8_small. unfold payload_size_basic in *. lia. }
  assert (b0 h = b0 (make_basic_header op 0 fin false rsv1 rsv2 rsv3)) as E0 by done.
  unfold header_bits_ok, size_bits_ok in *. cbn zeta in *.
  unfold get_fin, get_rsv1, get_rsv2, get_rsv3, get_opcode, get_masked, get_basic_size in *.
  rewrite E0, E1. clear H1 H2. cbn [b1] in H2'.
  repeat match goal with
  | H : _ && _ = true |- _ => apply andb_true_iff in H as [? ?]
  | H : eqb _ _ = true |- _ => apply eqb_prop in H
  end.
  unfold is_byte. splits; first [assumption|lia].
Qed.

Lemma copy_at_0 src dst : (length src <= length dst)%nat ->
  copy_at 0 src dst = src ++ drop (length src) dst.
Proof. done. Qed.

Lemma copy_payload_spec size : 0 <= size < 2 ^ 64 ->
  copy_payload size empty_extended_header =
  (size_octets (size_code size) size ++
     drop (length (size_octets (size_code size) size)) empty_extended_header,
   Z.of_nat (length (size_octets (size_code size) size))).
Proof.
  intros Hs. unfold copy_payload, copy_at. rewrite union_c_htonll. simpl (Z.to_nat 0).
  rewrite take_0, app_nil_l, Nat.add_0_l. unfold size_octets, size_code.
  unfold payload_size_basic, payload_size_extended, payload_size_code_16bit, payload_size_code_64bit.
  destruct (Z.leb_spec size 125) as [H1|H1]; [|destruct (Z.leb_spec size 65535) as [H2|H2]].
  - replace (size =? 126) with false by lia. replace (size =? 127) with false by lia. done.
  - simpl (126 =? 126). cbn iota. change (le_octets 8 size) with (le_octets (2 + 6) size).
    rewrite le_octets_app, reverse_app. simpl (Z.to_nat 6).
    rewrite drop_app_le by (rewrite length_reverse, length_le_octets; lia).
    rewrite drop_ge by (rewrite length_reverse, length_le_octets; lia). done.
  - simpl (127 =? 126). simpl (127 =? 127). cbn iota. done.
Qed.

Lemma prepare_header_octets op size fin mask rsv1 key : 0 <= op < 16 -> 0 <= size < 2 ^ 64 ->
  let h := make_basic_header op size fin mask rsv1 false false in
  prepare_header h (if mask then make_masked_extended_header size key else make_extended_header size) =
  header_octets h size key.
Proof.
  intros Hop Hs h.
  destruct (make_basic_header_spec op size fin mask rsv1 false false Hop ltac:(lia))
    as (_ & _ & _ & _ & _ & Hm & Hc & _). fold h in Hm, Hc.
  unfold prepare_header. rewrite <-(length_header_octets h size key).
  unfold header_octets at 2. f_equal. unfold header_octets.
  rewrite length_app. cbn [length]. unfold BASIC_HEADER_LENGTH.
  replace (Z.to_nat _) with (length (size_octets (get_basic_size h) size ++ key_octets h key)) by lia.
  unfold key_octets. rewrite Hm, Hc.
  destruct mask.
  - unfold make_masked_extended_header. rewrite copy_payload_spec by done.
    set (z := size_octets (size_code size) size). unfold copy_at.
    rewrite Nat2Z.id, take_app_length, app_assoc. apply take_app_length.
  - unfold make_extended_header. rewrite copy_payload_spec by done. cbn [fst].
    rewrite app_nil_r. apply take_app_length.
Qed.

(** A payload masked as it comes in pieces, each by words or byte by byte,
    with the key that the call before has returned. *)
Fixpoint mask_pieces (pieces : list (bool * list Z)) (prepared_key : Z) : list Z :=
  match pieces with
  | [] => []
  | (words, bs) :: rest =>
      let '(out, key) :=
        if (words : bool) then word_mask_circ bs prepared_key else byte_mask_circ bs prepared_key in
      out ++ mask_pieces rest key
  end.

Lemma mask_pieces_masked key pieces : forall off pk, Forall is_byte (concat pieces.*2) ->
  prepared pk key off -> mask_pieces pieces pk = masked key off (concat pieces.*2).
Proof.
  induction pieces as [|[words bs] rest IH]; intros off pk Hb Hp; [done|].
  simpl in *. apply Forall_app in Hb as [Hb1 Hb2]. rewrite masked_app.
  assert (exists out k, (if words then word_mask_circ bs pk else byte_mask_circ bs pk) = (out, k) /\
    out = masked key off bs /\ prepared k key (off + length bs)) as (out & k & -> & -> & Hk).
  { destruct words; do 2 eexists; (split; [apply surjective_pairing|]).
    - by apply word_mask_circ_masked.
    - by apply byte_mask_circ_masked. }
  by rewrite (IH (off + length bs)%nat k).
Qed.

End machine.

(** ** Theorem *)

(** C30. All masking routines agree.  On either byte order and with words of 32
    or 64 bits, masking whole words and then the remaining bytes, and masking
    a payload piece by piece with the rotated key carried along (each piece by
    words or by bytes), give what masking byte by byte gives; and masking
    twice restores the payload. *)
Theorem masking_routines_agree `{MachineLaws} (key : Z) (pieces : list (bool * list Z)) :
  let payload := concat pieces.*2 in
  0 <= key < 2 ^ 32 -> Forall is_byte payload ->
  word_mask_exact payload key = byte_mask payload key 0 /\
  mask_pieces pieces (prepare_masking_key key) = byte_mask payload key 0 /\
  byte_mask (byte_mask payload key 0) key 0 = payload.
Proof.
  intros payload Hk Hb. rewrite !byte_mask_masked. split_and!.
  - by apply word_mask_exact_masked.
  - apply mask_pieces_masked; [done|]. by apply prepare_masking_key_prepared.
  - apply masked_masked.
Qed.

Lemma armhf_laws : @MachineLaws armhf.
Proof. by left. Qed.
Lemma x86_64_laws : @MachineLaws x86_64.
Proof. by right. Qed.

Lemma masking_routines_agree_witness :
  @mask_pieces x86_64 [(true, str "hello w"); (false, str "orld")] (@prepare_masking_key x86_64 0x3d21fa37) =
  @byte_mask x86_64 (str "hello world") 0x3d21fa37 0.
Proof.
  apply (@masking_routines_agree x86_64 x86_64_laws 0x3d21fa37
    [(true, str "hello w"); (false, str "orld")]); [lia|].
  vm_compute. repeat constructor; discriminate.
Defined.
