(* ===== verification/Hybi13.v ===== *)
(** * The WebSocket protocol processor: [websocketpp/processors/hybi13.hpp]

    [consume] is a state machine over the octets of a connection: it collects
    a frame header, checks it, unmasks and collects the payload, checks the
    text, and stops when a message is complete.  The [prepare_*] functions
    turn messages into frames.  With them the message buffer
    (message_buffer/message.hpp), the close codes (close.hpp) and the error
    codes (processors/base.hpp).

    A function that may read an uninitialised member, follow a null pointer or
    leave an array is an [option].  [consume] works on its buffer in place; no
    octet is read again after it was unmasked, so that the buffer is an input
    here.  Memory is always available. *)
From S2P Require Import Prelude Utf8 WsFrame.

(** ** message_buffer/message.hpp

    The opcode of a message made without one is not initialised. *)
Record message := Message {
  m_header : list Z;
  m_payload : list Z;
  m_opcode : option Z;
  m_prepared : bool;
  m_fin : bool;
  m_terminal : bool;
  m_compressed : bool }.

(** [con_msg_manager::get_message] of message_buffer/alloc.hpp. *)
Definition get_new_message : message := Message [] [] None false true false false.
Definition get_new_message_op (op size : Z) : message :=
  Message [] [] (Some op) false true false false.

Definition set_payload (payload : list Z) (m : message) : message :=
  Message (m_header m) payload (m_opcode m) (m_prepared m) (m_fin m) (m_terminal m) (m_compressed m).
Definition append_payload (payload : list Z) (m : message) : message :=
  set_payload (m_payload m ++ payload) m.
Definition set_header (header : list Z) (m : message) : message :=
  Message header (m_payload m) (m_opcode m) (m_prepared m) (m_fin m) (m_terminal m) (m_compressed m).
Definition set_opcode (op : Z) (m : message) : message :=
  Message (m_header m) (m_payload m) (Some op) (m_prepared m) (m_fin m) (m_terminal m) (m_compressed m).
Definition set_prepared (value : bool) (m : message) : message :=
  Message (m_header m) (m_payload m) (m_opcode m) value (m_fin m) (m_terminal m) (m_compressed m).
Definition set_message_fin (value : bool) (m : message) : message :=
  Message (m_header m) (m_payload m) (m_opcode m) (m_prepared m) value (m_terminal m) (m_compressed m).
Definition set_terminal (value : bool) (m : message) : message :=
  Message (m_header m) (m_payload m) (m_opcode m) (m_prepared m) (m_fin m) value (m_compressed m).
Definition set_compressed (value : bool) (m : message) : message :=
  Message (m_header m) (m_payload m) (m_opcode m) (m_prepared m) (m_fin m) (m_terminal m) value.

(** ** Error codes: error.hpp and processors/base.hpp *)
Inductive endpoint_error :=
| ep_general | invalid_uri | no_outgoing_buffers | invalid_state | bad_close_code | reserved_close_code
| invalid_close_code | ep_invalid_utf8 | bad_connection | http_connection_ended
| open_handshake_timeout | close_handshake_timeout | invalid_port | rejected | ep_upgrade_required
| invalid_version | unsupported_version | http_parse_error.

Module close.

(** ** close.hpp *)
Definition blank : Z := 0.
Definition normal : Z := 1000.
Definition protocol_error : Z := 1002.
Definition no_status : Z := 1005.
Definition abnormal_close : Z := 1006.
Definition invalid_payload : Z := 1007.
Definition policy_violation : Z := 1008.
Definition message_too_big : Z := 1009.
Definition internal_endpoint_error : Z := 1011.
Definition tls_handshake : Z := 1015.
Definition rsv_start : Z := 1016.
Definition rsv_end : Z := 2999.
Definition invalid_low : Z := 999.
Definition invalid_high : Z := 5000.

Definition reserved (code : Z) : bool :=
  ((rsv_start <=? code) && (code <=? rsv_end)) || (code =? 1004).
Definition invalid (code : Z) : bool :=
  (code <=? invalid_low) || (invalid_high <=? code) ||
  (code =? no_status) || (code =? abnormal_close) || (code =? tls_handshake).
Definition terminal (code : Z) : bool :=
  (code =? protocol_error) || (code =? invalid_payload) || (code =? policy_violation) ||
  (code =? message_too_big) || (code =? internal_endpoint_error).

Definition extract_code `{Machine} (payload : list Z) : Z * option endpoint_error :=
  match payload with
  | [] => (no_status, None)
  | [_] => (protocol_error, Some bad_close_code)
  | c0 :: c1 :: _ =>
      let code := ntohs (union_i [c0; c1]) in
      let ec := if invalid code then Some invalid_close_code else None in
      let ec := if reserved code then Some reserved_close_code else ec in
      (code, ec)
  end.

(** The octets of a reason are within the table of the validator. *)
Definition extract_reason (payload : list Z) : option (list Z * option endpoint_error) :=
  let reason := if (2 <? length payload)%nat then drop 2 payload else [] in
  ok ← utf8_validator.validate reason;
  Some (reason, if (ok : bool) then None else Some ep_invalid_utf8).

End close.

Module hybi13.
Import frame.

Inductive processor_errors :=
| general | bad_request | protocol_violation | message_too_big | invalid_payload
| invalid_arguments | invalid_opcode | control_too_big | invalid_rsv_bit
| fragmented_control | invalid_continuation | masking_required | masking_forbidden
| non_minimal_encoding | requires_64bit | invalid_utf8 | invalid_http_method
| invalid_http_version | invalid_http_status | missing_required_header | no_protocol_support | reserved_close_code
| invalid_close_code | reason_requires_code | subprotocol_parse_error | extension_parse_error
| extensions_disabled | short_key3.

Definition to_ws (ec : processor_errors) : Z :=
  match ec with
  | protocol_violation | control_too_big | invalid_opcode | invalid_rsv_bit
  | fragmented_control | invalid_continuation | masking_required | masking_forbidden
  | reserved_close_code | invalid_close_code => close.protocol_error
  | invalid_payload | invalid_utf8 => close.invalid_payload
  | message_too_big => close.message_too_big
  | _ => close.internal_endpoint_error
  end.

(** ** The class *)
Inductive state := HEADER_BASIC | HEADER_EXTENDED | EXTENSION | APPLICATION | READY | FATAL_ERROR.
#[export] Instance state_eq_dec : EqDecision state.
Proof. solve_decision. Defined.

Record msg_metadata := MsgMetadata {
  msg_ptr : option message;
  prepared_key : Z;
  validator : utf8_validator.validator }.

(** [m_current_msg] points to one of the two metadata members, or is not
    initialised. *)
Inductive current := Data | Control.

Record processor := Processor {
  m_basic_header : basic_header;
  m_bytes_needed : Z;
  m_cursor : Z;
  m_data_msg : msg_metadata;
  m_control_msg : msg_metadata;
  m_current_msg : option current;
  m_extended_header : extended_header;
  m_state : state;
  m_server : bool;
  m_max_message_size : Z }.

Section hybi13.
Context `{Machine}.

(** ** extensions/permessage_deflate/disabled.hpp

    The configuration of the program disables the extension: [is_enabled] is
    false, and the other two are never called. *)
Definition is_enabled : bool := false.
Definition decompress (buf out : list Z) : list Z * option processor_errors := (out, Some general).
Definition compress (i o : list Z) : list Z := o.

Definition no_metadata : msg_metadata := MsgMetadata None 0 utf8_validator.new_validator.
Definition new_metadata (m : message) (key : Z) : msg_metadata :=
  MsgMetadata (Some m) (prepare_masking_key key) utf8_validator.new_validator.

(** ** Updates of members *)
Definition with_header (h : basic_header) (needed : Z) (st : processor) : processor :=
  Processor h needed (m_cursor st) (m_data_msg st) (m_control_msg st) (m_current_msg st)
    (m_extended_header st) (m_state st) (m_server st) (m_max_message_size st).
Definition with_extended (e : extended_header) (cursor needed : Z) (st : processor) : processor :=
  Processor (m_basic_header st) needed cursor (m_data_msg st) (m_control_msg st)
    (m_current_msg st) e (m_state st) (m_server st) (m_max_message_size st).
Definition with_needed (needed : Z) (st : processor) : processor :=
  Processor (m_basic_header st) needed (m_cursor st) (m_data_msg st) (m_control_msg st)
    (m_current_msg st) (m_extended_header st) (m_state st) (m_server st) (m_max_message_size st).
Definition with_state (s : state) (st : processor) : processor :=
  Processor (m_basic_header st) (m_bytes_needed st) (m_cursor st) (m_data_msg st)
    (m_control_msg st) (m_current_msg st) (m_extended_header st) s (m_server st)
    (m_max_message_size st).
Definition with_data (d : msg_metadata) (st : processor) : processor :=
  Processor (m_basic_header st) (m_bytes_needed st) (m_cursor st) d
    (m_control_msg st) (m_current_msg st) (m_extended_header st) (m_state st) (m_server st)
    (m_max_message_size st).
Definition with_control (c : msg_metadata) (st : processor) : processor :=
  Processor (m_basic_header st) (m_bytes_needed st) (m_cursor st) (m_data_msg st)
    c (m_current_msg st) (m_extended_header st) (m_state st) (m_server st)
    (m_max_message_size st).
Definition with_current (c : current) (st : processor) : processor :=
  Processor (m_basic_header st) (m_bytes_needed st) (m_cursor st) (m_data_msg st)
    (m_control_msg st) (Some c) (m_extended_header st) (m_state st) (m_server st)
    (m_max_message_size st).
Definition set_max_message_size (new_value : Z) (st : processor) : processor :=
  Processor (m_basic_header st) (m_bytes_needed st) (m_cursor st) (m_data_msg st)
    (m_control_msg st) (m_current_msg st) (m_extended_header st) (m_state st) (m_server st)
    new_value.

(** Through [m_current_msg]. *)
Definition current_metadata (st : processor) : option msg_metadata :=
  c ← m_current_msg st;
  Some (match c with Data => m_data_msg st | Control => m_control_msg st end).
Definition set_current_metadata (d : msg_metadata) (st : processor) : processor :=
  match m_current_msg st with
  | Some Control => with_control d st
  | _ => with_data d st
  end.

Definition reset_headers (st : processor) : processor :=
  with_extended empty_extended_header (m_cursor st) BASIC_HEADER_LENGTH
    (with_header (BasicHeader 0 0) BASIC_HEADER_LENGTH (with_state HEADER_BASIC st)).

(** The members the constructor leaves uninitialised are not read before they
    are set. *)
Definition new_processor (p_is_server : bool) (max_message_size : Z) : processor :=
  reset_headers (Processor (BasicHeader 0 0) 0 0 no_metadata no_metadata None
    empty_extended_header HEADER_BASIC p_is_server max_message_size).

(** ** Reading *)

(** The functions on the start of a buffer return how much they used. *)
Definition copy_basic_header_bytes (buf : list Z) (st : processor) : nat * processor :=
  let h := m_basic_header st in
  let needed := m_bytes_needed st in
  match buf with
  | [] => (0%nat, st)
  | c0 :: rest =>
      if needed =? 0 then (0%nat, st)
      else match rest with
      | c1 :: _ =>
          if needed =? 2 then (2%nat, with_header (BasicHeader c0 c1) (needed - 2) st)
          else (1%nat, with_header (BasicHeader (b0 h) c0) (needed - 1) st)
      | [] =>
          if needed =? 2 then (1%nat, with_header (BasicHeader c0 (b1 h)) (needed - 1) st)
          else (1%nat, with_header (BasicHeader (b0 h) c0) (needed - 1) st)
      end
  end.

Definition bytes_available (buf : list Z) (st : processor) : nat :=
  Z.to_nat (Z.min (m_bytes_needed st) (Z.of_nat (length buf))).

(** A copy beyond the twelve bytes of the header is undefined. *)
Definition copy_extended_header_bytes (buf : list Z) (st : processor) : option (nat * processor) :=
  let n := bytes_available buf st in
  let cursor := m_cursor st in
  if cursor + Z.of_nat n <=? Z.of_nat MAX_EXTENDED_HEADER_LENGTH then
    Some (n, with_extended (copy_at cursor (take n buf) (m_extended_header st))
               (cursor + Z.of_nat n) (m_bytes_needed st - Z.of_nat n) st)
  else None.

Definition validate_incoming_basic_header (h : basic_header) (is_server new_msg : bool) :
    option processor_errors :=
  let op := get_opcode h in
  if is_control op && (payload_size_basic <? get_basic_size h) then Some control_too_big
  else if get_rsv1 h && (negb is_enabled || is_control op) then Some invalid_rsv_bit
  else if get_rsv2 h || get_rsv3 h then Some invalid_rsv_bit
  else if reserved op then Some invalid_opcode
  else if invalid op then Some invalid_opcode
  else if is_control op && negb (get_fin h) then Some fragmented_control
  else if new_msg && (op =? continuation) then Some invalid_continuation
  else if negb new_msg && negb (is_control op) && negb (op =? continuation)
    then Some invalid_continuation
  else if is_server && negb (get_masked h) then Some masking_required
  else if negb is_server && get_masked h then Some masking_forbidden
  else None.

Definition validate_incoming_extended_header (h : basic_header) (e : extended_header) :
    option processor_errors :=
  let basic_size := get_basic_size h in
  let payload_size := get_payload_size h e in
  if (basic_size =? payload_size_code_16bit) && (payload_size <=? payload_size_basic)
    then Some non_minimal_encoding
  else if (basic_size =? payload_size_code_64bit) && (payload_size <=? payload_size_extended)
    then Some non_minimal_encoding
  else if (sizeof_size_t =? 4)%nat && negb (Z.shiftr payload_size 32 =? 0) then Some requires_64bit
  else None.

(** The octets of the payload that are at hand. *)
Definition process_payload_bytes (buf : list Z) (st : processor) :
    option (nat * option processor_errors * processor) :=
  meta ← current_metadata st;
  msg ← msg_ptr meta;
  let '(buf, key) :=
    if get_masked (m_basic_header st) then byte_mask_circ buf (prepared_key meta)
    else (buf, prepared_key meta) in
  let '(out, ec) :=
    if is_enabled && m_compressed msg then decompress buf (m_payload msg)
    else (m_payload msg ++ buf, None) in
  let offset := length (m_payload msg) in
  let done v := set_current_metadata (MsgMetadata (Some (set_payload out msg)) key v) st in
  match ec with
  | Some _ => Some (0%nat, ec, done (validator meta))
  | None =>
      op ← m_opcode msg;
      '(ok, v) ← (if op =? text then utf8_validator.decode (drop offset out) (validator meta)
                  else Some (true, validator meta));
      if (ok : bool) then
        Some (length buf, None, with_needed (m_bytes_needed st - Z.of_nat (length buf)) (done v))
      else Some (0%nat, Some invalid_utf8, done v)
  end.

(** The check at the end looks at the opcode of the frame, not of the
    message. *)
Definition finalize_message (st : processor) : option (option processor_errors * processor) :=
  meta ← current_metadata st;
  msg ← msg_ptr meta;
  let '(out, ec) :=
    if is_enabled && m_compressed msg then decompress [0x00; 0x00; 0xff; 0xff] (m_payload msg)
    else (m_payload msg, None) in
  let st := set_current_metadata
              (MsgMetadata (Some (set_payload out msg)) (prepared_key meta) (validator meta)) st in
  match ec with
  | Some _ => Some (ec, st)
  | None =>
      if (get_opcode (m_basic_header st) =? text) &&
         negb (utf8_validator.complete (validator meta))
      then Some (Some invalid_utf8, st)
      else Some (None, with_state READY st)
  end.

(** The extended header is complete: set up the metadata of the message. *)
Definition begin_payload (st : processor) : option (option processor_errors * processor) :=
  let h := m_basic_header st in
  let e := m_extended_header st in
  match validate_incoming_extended_header h e with
  | Some ec => Some (Some ec, st)
  | None =>
      let needed := size_t (get_payload_size h e) in
      let st := with_needed needed (with_state APPLICATION st) in
      let op := get_opcode h in
      let key := get_masking_key h e in
      if is_control op then
        let st := with_control (new_metadata (get_new_message_op op needed) key) st in
        Some (None, with_current Control st)
      else
        match msg_ptr (m_data_msg st) with
        | None =>
            if m_max_message_size st <? needed then Some (Some message_too_big, st)
            else
              let m := get_new_message_op op needed in
              let m := if is_enabled then set_compressed (get_rsv1 h) m else m in
              let st := with_data (new_metadata m key) st in
              Some (None, with_current Data st)
        | Some m =>
            let out := m_payload m in
            if m_max_message_size st <? size_t (Z.of_nat (length out) + needed)
            then Some (Some message_too_big, st)
            else
              let st := with_data (MsgMetadata (Some m) (prepare_masking_key key)
                                     (validator (m_data_msg st))) st in
              Some (None, with_current Data st)
        end
  end.

(** One pass of the loop of [consume]. *)
Definition consume_pass (buf : list Z) (st : processor) :
    option (nat * option processor_errors * processor) :=
  match m_state st with
  | HEADER_BASIC =>
      let '(n, st) := copy_basic_header_bytes buf st in
      if 0 <? m_bytes_needed st then Some (n, None, st)
      else
        match validate_incoming_basic_header (m_basic_header st) (m_server st)
                (negb (bool_decide (is_Some (msg_ptr (m_data_msg st))))) with
        | Some ec => Some (n, Some ec, st)
        | None =>
            Some (n, None,
              with_extended (m_extended_header st) 0
                (get_header_len (m_basic_header st) - BASIC_HEADER_LENGTH)
                (with_state HEADER_EXTENDED st))
        end
  | HEADER_EXTENDED =>
      '(n, st) ← copy_extended_header_bytes buf st;
      if 0 <? m_bytes_needed st then Some (n, None, st)
      else '(ec, st) ← begin_payload st; Some (n, ec, st)
  | EXTENSION => Some (0%nat, None, with_state APPLICATION st)
  | APPLICATION =>
      let k := bytes_available buf st in
      '(n, ec, st) ← (if (0 <? k)%nat then process_payload_bytes (take k buf) st
                      else Some (0%nat, None, st));
      match ec with
      | Some _ => Some (n, ec, st)
      | None =>
          if 0 <? m_bytes_needed st then Some (n, None, st)
          else if get_fin (m_basic_header st) then
            '(ec, st) ← finalize_message st; Some (n, ec, st)
          else Some (n, None, reset_headers st)
      end
  | _ => Some (0%nat, Some general, st)
  end.

(** The condition of the loop. *)
Definition consuming (buf : list Z) (st : processor) : bool :=
  negb (bool_decide (m_state st = READY)) && negb (bool_decide (m_state st = FATAL_ERROR)) &&
  ((0 <? length buf)%nat || (m_bytes_needed st =? 0)).

Fixpoint consume_loop (fuel : nat) (buf : list Z) (st : processor) :
    option (nat * option processor_errors * processor) :=
  match fuel with
  | O => None
  | S fuel' =>
      if consuming buf st then
        '(n, ec, st) ← consume_pass buf st;
        match ec with
        | Some _ => Some (n, ec, st)
        | None =>
            '(n', ec, st) ← consume_loop fuel' (drop n buf) st;
            Some ((n + n')%nat, ec, st)
        end
      else Some (0%nat, None, st)
  end.

(** Between two octets the loop makes at most three passes. *)
Definition consume (buf : list Z) (st : processor) :
    option (nat * option processor_errors * processor) :=
  consume_loop (3 * length buf + 6) buf st.

Definition ready (st : processor) : bool := bool_decide (m_state st = READY).
Definition get_error (st : processor) : bool := bool_decide (m_state st = FATAL_ERROR).
Definition get_bytes_needed (st : processor) : Z := m_bytes_needed st.

Definition reset_msg (d : msg_metadata) : msg_metadata :=
  MsgMetadata None (prepared_key d) (validator d).

Definition get_message (st : processor) : option (option message * processor) :=
  if negb (ready st) then Some (None, st)
  else
    meta ← current_metadata st;
    ret ← msg_ptr meta;
    let st := set_current_metadata (reset_msg meta) st in
    op ← m_opcode ret;
    let st := if is_control op then with_control (reset_msg (m_control_msg st)) st
              else with_data (reset_msg (m_data_msg st)) st in
    Some (Some ret, reset_headers st).

(** ** Writing

    [rng] is what the random generator returns.  The result is the error code
    and the outgoing message. *)
Definition masked_copy (i : list Z) (key : Z) : list Z := byte_mask i key 0.

Definition prepare_data_frame (rng : Z) (st : processor) (in_ out : option message) :
    option (option processor_errors * option message) :=
  match in_, out with
  | Some in_, Some o =>
      op ← m_opcode in_;
      if is_control op then Some (Some invalid_opcode, out)
      else
        let i := m_payload in_ in
        valid ← (if op =? text then utf8_validator.validate i else Some true);
        if negb valid then Some (Some invalid_payload, out)
        else
          let masked := negb (m_server st) in
          let compressed := is_enabled && m_compressed in_ in
          let fin := m_fin in_ in
          let key := if masked then u32 rng else 0 in
          let c := compress i (m_payload o) in
          if compressed && (length c <? 4)%nat then Some (Some general, Some (set_payload c o))
          else
            let payload :=
              if compressed then
                let c := take (length c - 4) c in if masked then masked_copy c key else c
              else if masked then masked_copy i key else i in
            let size := Z.of_nat (length payload) in
            let h := make_basic_header op size fin masked compressed false false in
            let e := if masked then make_masked_extended_header size key
                     else make_extended_header size in
            Some (None, Some (set_opcode op (set_prepared true
                                (set_header (prepare_header h e) (set_payload payload o)))))
  | _, _ => Some (Some invalid_arguments, out)
  end.

Definition prepare_control (rng : Z) (st : processor) (op : Z) (payload : list Z)
    (out : option message) : option processor_errors * option message :=
  match out with
  | None => (Some invalid_arguments, out)
  | Some o =>
      if negb (is_control op) then (Some invalid_opcode, out)
      else if payload_size_basic <? Z.of_nat (length payload) then (Some control_too_big, out)
      else
        let masked := negb (m_server st) in
        let size := Z.of_nat (length payload) in
        let h := make_basic_header op size true masked false false false in
        let key := u32 rng in
        let e := if masked then make_masked_extended_header size key
                 else make_extended_header size in
        let data := if masked then masked_copy payload key else payload in
        (None, Some (set_prepared true (set_opcode op
                       (set_payload data (set_header (prepare_header h e) o)))))
  end.

Definition prepare_ping (rng : Z) (st : processor) (in_ : list Z) (out : option message) :=
  prepare_control rng st ping in_ out.
Definition prepare_pong (rng : Z) (st : processor) (in_ : list Z) (out : option message) :=
  prepare_control rng st pong in_ out.

Definition prepare_close (rng : Z) (st : processor) (code : Z) (reason : list Z)
    (out : option message) : option processor_errors * option message :=
  if close.reserved code then (Some reserved_close_code, out)
  else if close.invalid code && negb (code =? close.no_status) then (Some invalid_close_code, out)
  else if (code =? close.no_status) && (0 <? length reason)%nat then (Some reason_requires_code, out)
  else if payload_size_basic - 2 <? Z.of_nat (length reason) then (Some control_too_big, out)
  else
    let payload :=
      if negb (code =? close.no_status) then union_c 2 (htons code) ++ reason else [] in
    prepare_control rng st frame.close payload out.

End hybi13.
End hybi13.
