(* ===== verification/Hybi13Props.v ===== *)
(** * The processor reads safely, and chunks do not matter

    The invariant of [consume], its termination, and that a stream of octets
    is read the same however it is cut into buffers: a pass of the loop first
    absorbs octets and, when none is missing, completes a part of the frame;
    absorbing two buffers one after the other is absorbing their
    concatenation. *)
From S2P Require Import Prelude Utf8 WsFrame WsFrameProps Hybi13.
Import frame hybi13.

#[global] Arguments byte_mask_circ : simpl never.
#[global] Arguments utf8_validator.decode : simpl never.

#[local] Set Default Proof Using "Type*".

Section props.
Context `{MachineLaws}.

(** ** The invariant *)

(** A message that is being collected: its opcode is set, its text has not
    failed yet, and the octets are octets. *)
Definition message_ok (d : msg_metadata) (m : message) : Prop :=
  exists op, m_opcode m = Some op /\ Forall is_byte (m_payload m) /\
    (op = text -> utf8_validator.partial (validator d) /\
       utf8_validator.decode (m_payload m) utf8_validator.new_validator = Some (true, validator d)).
Definition key_ok (pk : Z) : Prop := exists key off, prepared pk key off.
Definition metadata_ok (control : bool) (d : msg_metadata) : Prop :=
  key_ok (prepared_key d) /\ forall m, msg_ptr d = Some m ->
    message_ok d m /\ exists op, m_opcode m = Some op /\ is_control op = control.

Definition header_ok (h : basic_header) : Prop := is_byte (b0 h) /\ is_byte (b1 h).

(** The message under way; a control message stays short. *)
Definition payload_ready (st : processor) : Prop :=
  exists c d m, m_current_msg st = Some c /\ current_metadata st = Some d /\ msg_ptr d = Some m /\
    is_control (get_opcode (m_basic_header st)) = match c with Control => true | Data => false end /\
    (c = Control -> Z.of_nat (length (m_payload m)) + m_bytes_needed st <= 125).

Record inv (st : processor) : Prop := Inv {
  inv_header : header_ok (m_basic_header st);
  inv_extended : length (m_extended_header st) = MAX_EXTENDED_HEADER_LENGTH;
  inv_octets : Forall is_byte (m_extended_header st);
  inv_data : metadata_ok false (m_data_msg st);
  inv_control : metadata_ok true (m_control_msg st);
  inv_state :
    match m_state st with
    | HEADER_BASIC => 1 <= m_bytes_needed st <= 2
    | HEADER_EXTENDED =>
        0 <= m_bytes_needed st /\ 0 <= m_cursor st /\
        m_cursor st + m_bytes_needed st = get_header_len (m_basic_header st) - 2 /\
        validate_incoming_basic_header (m_basic_header st) (m_server st)
          (negb (bool_decide (is_Some (msg_ptr (m_data_msg st))))) = None
    | APPLICATION => 0 <= m_bytes_needed st /\ payload_ready st
    | READY => m_bytes_needed st = 0 /\ payload_ready st
    | EXTENSION | FATAL_ERROR => False
    end }.

Lemma prepare_key_ok key : 0 <= key < 2 ^ 32 -> key_ok (prepare_masking_key key).
Proof. intros Hk. exists key, 0%nat. by apply prepare_masking_key_prepared. Qed.

Lemma key_ok_0 : key_ok 0.
Proof.
  replace 0 with (prepare_masking_key 0) by
    (unfold prepare_masking_key, size_t, wrap; rewrite Z.mod_0_l by (apply Z.pow_nonzero; lia);
     by case_match).
  by apply prepare_key_ok.
Qed.

Lemma metadata_ok_none control d : key_ok (prepared_key d) -> msg_ptr d = None -> metadata_ok control d.
Proof. intros Hk E. split; [done|]. intros m Hm. congruence. Qed.

Lemma inv_new server max : inv (new_processor server max).
Proof.
  split; simpl; try done; try (unfold BASIC_HEADER_LENGTH; lia);
    try (apply metadata_ok_none; [apply key_ok_0|done]).
  unfold empty_extended_header. apply Forall_replicate. unfold is_byte. lia.
Qed.

Lemma header_len_bound h : 2 <= get_header_len h <= 14.
Proof. unfold get_header_len, get_masking_key_offset, BASIC_HEADER_LENGTH. repeat case_match; lia. Qed.

Lemma get_payload_size_nonneg h e : length e = MAX_EXTENDED_HEADER_LENGTH -> Forall is_byte e ->
  0 <= get_payload_size h e.
Proof.
  intros Hl Hb. unfold MAX_EXTENDED_HEADER_LENGTH in Hl. pose proof (get_basic_size_range h).
  unfold get_payload_size. repeat case_match; [lia| |].
  - unfold get_extended_size. do 2 (destruct e as [|? e]; [done|]).
    rewrite !Forall_cons in Hb. cbn [take]. destruct Hb as (Ha & Hb & _).
    rewrite ntohs_union_i by done. unfold is_byte in *. lia.
  - unfold get_jumbo_size. rewrite ntohll_union_i.
    + apply le_value_bound, Forall_reverse, Forall_take, Hb.
    + rewrite length_take. lia.
    + by apply Forall_take.
Qed.

(** ** A pass absorbs octets, then completes *)
Definition absorb (buf : list Z) (st : processor) :
    option (nat * option processor_errors * processor) :=
  match m_state st with
  | HEADER_BASIC => let '(n, st) := copy_basic_header_bytes buf st in Some (n, None, st)
  | HEADER_EXTENDED => '(n, st) ← copy_extended_header_bytes buf st; Some (n, None, st)
  | APPLICATION =>
      let k := bytes_available buf st in
      if (0 <? k)%nat then process_payload_bytes (take k buf) st else Some (0%nat, None, st)
  | _ => Some (0%nat, Some general, st)
  end.

Definition finish (st : processor) : option (option processor_errors * processor) :=
  match m_state st with
  | HEADER_BASIC =>
      match validate_incoming_basic_header (m_basic_header st) (m_server st)
              (negb (bool_decide (is_Some (msg_ptr (m_data_msg st))))) with
      | Some ec => Some (Some ec, st)
      | None =>
          Some (None, with_extended (m_extended_header st) 0
                  (get_header_len (m_basic_header st) - BASIC_HEADER_LENGTH)
                  (with_state HEADER_EXTENDED st))
      end
  | HEADER_EXTENDED => begin_payload st
  | APPLICATION =>
      if get_fin (m_basic_header st) then finalize_message st else Some (None, reset_headers st)
  | _ => Some (Some general, st)
  end.

Definition then_finish (r : option (nat * option processor_errors * processor)) :
    option (nat * option processor_errors * processor) :=
  '(n, ec, st) ← r;
  match ec with
  | Some _ => Some (n, ec, st)
  | None =>
      if 0 <? m_bytes_needed st then Some (n, None, st)
      else '(ec, st) ← finish st; Some (n, ec, st)
  end.

Lemma then_finish_more n st : 0 < m_bytes_needed st ->
  then_finish (Some (n, None, st)) = Some (n, None, st).
Proof. intros Hn. unfold then_finish. simpl. by replace (0 <? m_bytes_needed st) with true by lia. Qed.

Lemma then_finish_done n st : m_bytes_needed st <= 0 ->
  then_finish (Some (n, None, st)) = '(ec, st) ← finish st; Some (n, ec, st).
Proof. intros Hn. unfold then_finish. simpl. by replace (0 <? m_bytes_needed st) with false by lia. Qed.

Lemma set_current_state d st : m_state (set_current_metadata d st) = m_state st.
Proof. unfold set_current_metadata. by repeat case_match. Qed.

Lemma absorb_state buf st n ec st' : inv st ->
  absorb buf st = Some (n, ec, st') -> m_state st' = m_state st.
Proof.
  intros _. unfold absorb. destruct (m_state st) eqn:E; try (intros [= <- <- <-]; done).
  - unfold copy_basic_header_bytes. repeat case_match; intros; by simplify_eq/=.
  - unfold copy_extended_header_bytes. case_match; [|done]. intros. by simplify_eq/=.
  - case_match; [|by intros [= <- <- <-]]. unfold process_payload_bytes.
    intros Hp. repeat (case_match || (apply bind_Some in Hp as (? & ? & Hp))); simplify_eq;
      try done; simpl; by rewrite set_current_state.
Qed.

(** Where the loop of [consume] can be, a pass is both steps. *)
Lemma pass_absorb buf st : inv st -> m_state st <> READY ->
  consume_pass buf st = then_finish (absorb buf st).
Proof.
  intros Hi Hr. pose proof (absorb_state buf st) as Hs. pose proof (inv_state _ Hi) as Hst.
  destruct (absorb buf st) as [[[n ec] st']|] eqn:Ea.
  - specialize (Hs n ec st' Hi eq_refl). unfold consume_pass, then_finish, absorb, finish in *.
    simpl. rewrite Hs. clear Hs. destruct (m_state st) eqn:E; try done.
    + destruct (copy_basic_header_bytes buf st). simplify_eq/=. case_match; [done|].
      by repeat case_match.
    + destruct (copy_extended_header_bytes buf st) as [[]|]; [|done]. by simplify_eq/=.
    + rewrite Ea. simpl. destruct ec; [done|]. destruct (0 <? m_bytes_needed st'); [done|]. by destruct (get_fin (m_basic_header st')).
  - unfold consume_pass, absorb in *. destruct (m_state st) eqn:E; try done.
    + by destruct (copy_basic_header_bytes buf st).
    + by destruct (copy_extended_header_bytes buf st) as [[]|].
    + by rewrite Ea.
Qed.

(** ** Absorbing in pieces *)

(** Equal results; of an error only the code counts, because nothing is read
    after it. *)
Definition same_result (r1 r2 : option (nat * option processor_errors * processor)) : Prop :=
  match r1, r2 with
  | Some (n1, None, st1), Some (n2, None, st2) => n1 = n2 /\ st1 = st2
  | Some (_, Some e1, _), Some (_, Some e2, _) => e1 = e2
  | _, _ => False
  end.

Definition shifted (n : nat) (r : option (nat * option processor_errors * processor)) :=
  '(m, ec, st) ← r; Some ((n + m)%nat, ec, st).

Lemma same_result_refl r : r <> None -> same_result r r.
Proof. by destruct r as [[[? []] ?]|]. Qed.

Lemma prepared_unique pk1 pk2 key off1 off2 :
  prepared pk1 key off1 -> prepared pk2 key off2 -> (off1 mod 4 = off2 mod 4)%nat -> pk1 = pk2.
Proof.
  intros [H1 E1] [H2 E2] Hoff. rewrite (key_bytes_ext key off1 off2) in E1 by done.
  rewrite <-(union_i_c sizeof_size_t pk1), <-(union_i_c sizeof_size_t pk2) by done.
  by rewrite E1, E2.
Qed.

Lemma byte_mask_circ_app b1 b2 pk : key_ok pk ->
  byte_mask_circ (b1 ++ b2) pk =
  (let '(o1, k1) := byte_mask_circ b1 pk in
   let '(o2, k2) := byte_mask_circ b2 k1 in (o1 ++ o2, k2)).
Proof.
  intros (key & off & Hp).
  destruct (byte_mask_circ_masked pk key off (b1 ++ b2) Hp) as [E P].
  destruct (byte_mask_circ_masked pk key off b1 Hp) as [E1 P1].
  destruct (byte_mask_circ b1 pk) as [o1 k1]. cbn [fst snd] in *.
  destruct (byte_mask_circ_masked k1 key _ b2 P1) as [E2 P2].
  destruct (byte_mask_circ b2 k1) as [o2 k2]. cbn [fst snd] in *.
  destruct (byte_mask_circ (b1 ++ b2) pk) as [o k]. cbn [fst snd] in *. f_equal.
  - by rewrite E, E1, E2, masked_app.
  - apply (prepared_unique _ _ key _ _ P P2). by rewrite length_app, Nat.add_assoc.
Qed.

Lemma byte_mask_circ_ok bs pk : key_ok pk -> Forall is_byte bs ->
  Forall is_byte (byte_mask_circ bs pk).1 /\ key_ok (byte_mask_circ bs pk).2.
Proof.
  intros (key & off & Hp) Hb. destruct (byte_mask_circ_masked pk key off bs Hp) as [E P].
  split; [rewrite E; by apply masked_bytes|]. by eexists _, _.
Qed.

(** Unmasking and checking, the two things done to the octets of a payload. *)
Definition unmask (h : basic_header) (buf : list Z) (key : Z) : list Z * Z :=
  if get_masked h then byte_mask_circ buf key else (buf, key).
Definition check (op : Z) (buf : list Z) (v : utf8_validator.validator) :
    option (bool * utf8_validator.validator) :=
  if op =? text then utf8_validator.decode buf v else Some (true, v).

Lemma unmask_app h b1 b2 pk : key_ok pk ->
  unmask h (b1 ++ b2) pk =
  (let '(o1, k1) := unmask h b1 pk in let '(o2, k2) := unmask h b2 k1 in (o1 ++ o2, k2)).
Proof. intros Hk. unfold unmask. case_match; [by apply byte_mask_circ_app|done]. Qed.

Lemma unmask_ok h bs pk : key_ok pk -> Forall is_byte bs ->
  Forall is_byte (unmask h bs pk).1 /\ key_ok (unmask h bs pk).2.
Proof. intros Hk Hb. unfold unmask. case_match; [by apply byte_mask_circ_ok|done]. Qed.

Lemma check_app op b1 b2 v :
  check op (b1 ++ b2) v =
  ('(ok, v) ← check op b1 v; if (ok : bool) then check op b2 v else Some (false, v)).
Proof. unfold check. case_match; [apply utf8_validator.decode_app|done]. Qed.

(** The metadata after some octets. *)
Definition received (d : msg_metadata) (m : message) (out : list Z) (key : Z)
    (v : utf8_validator.validator) : msg_metadata :=
  MsgMetadata (Some (set_payload (m_payload m ++ out) m)) key v.

Lemma process_spec buf st d m op :
  current_metadata st = Some d -> msg_ptr d = Some m -> m_opcode m = Some op ->
  process_payload_bytes buf st =
  (let '(out, key) := unmask (m_basic_header st) buf (prepared_key d) in
   '(ok, v) ← check op out (validator d);
   if (ok : bool) then
     Some (length out, None,
       with_needed (m_bytes_needed st - Z.of_nat (length out))
         (set_current_metadata (received d m out key v) st))
   else Some (0%nat, Some invalid_utf8, set_current_metadata (received d m out key v) st)).
Proof.
  intros Hc Hm Ho. unfold process_payload_bytes, unmask, check. rewrite Hc. simpl. rewrite Hm. simpl.
  rewrite Ho.
  set (r := if get_masked (m_basic_header st) then _ else _). destruct r as [out key]. simpl.
  by rewrite drop_app_length.
Qed.

Lemma current_set d st c : m_current_msg st = Some c ->
  current_metadata (set_current_metadata d st) = Some d.
Proof. unfold current_metadata, set_current_metadata. intros E. rewrite E. destruct c; simpl; by rewrite ?E. Qed.

Lemma current_with_needed n st : current_metadata (with_needed n st) = current_metadata st.
Proof. done. Qed.

Lemma set_current_with_needed d n st :
  set_current_metadata d (with_needed n st) = with_needed n (set_current_metadata d st).
Proof. unfold set_current_metadata. simpl. by destruct (m_current_msg st) as [[]|]. Qed.

Lemma set_current_set d1 d2 st :
  set_current_metadata d2 (set_current_metadata d1 st) = set_current_metadata d2 st.
Proof.
  unfold set_current_metadata. by destruct (m_current_msg st) as [[]|] eqn:E; simpl; rewrite ?E.
Qed.

Lemma set_current_fields d st :
  m_basic_header (set_current_metadata d st) = m_basic_header st /\
  m_bytes_needed (set_current_metadata d st) = m_bytes_needed st /\
  m_cursor (set_current_metadata d st) = m_cursor st /\
  m_current_msg (set_current_metadata d st) = m_current_msg st /\
  m_extended_header (set_current_metadata d st) = m_extended_header st /\
  m_state (set_current_metadata d st) = m_state st /\
  m_server (set_current_metadata d st) = m_server st /\
  m_max_message_size (set_current_metadata d st) = m_max_message_size st.
Proof. unfold set_current_metadata. by destruct (m_current_msg st) as [[]|] eqn:E; simpl; rewrite ?E. Qed.

(** The message being received, from the invariant. *)
Lemma inv_current st : inv st -> payload_ready st -> exists c d m op,
  m_current_msg st = Some c /\ current_metadata st = Some d /\ msg_ptr d = Some m /\
  m_opcode m = Some op /\ key_ok (prepared_key d) /\ message_ok d m /\
  is_control op = is_control (get_opcode (m_basic_header st)) /\
  metadata_ok (match c with Control => true | Data => false end) d.
Proof.
  intros Hi (c & d & m & Hc & Hd & Hm & Hh & _). exists c, d, m.
  assert (metadata_ok (match c with Control => true | Data => false end) d) as Hok.
  { unfold current_metadata in Hd. rewrite Hc in Hd. simpl in Hd. simplify_eq.
    destruct c; apply Hi. }
  destruct Hok as [Hk Hok]. destruct (Hok m Hm) as [Hmok (op & Ho & Hctl)].
  exists op. split_and!; try done. by rewrite Hh, Hctl.
Qed.

Lemma process_app b1 b2 st : inv st -> payload_ready st ->
  same_result (process_payload_bytes (b1 ++ b2) st)
    ('(n, ec, st1) ← process_payload_bytes b1 st;
     match ec with
     | Some _ => Some (n, ec, st1)
     | None => shifted n (process_payload_bytes b2 st1)
     end) \/ process_payload_bytes (b1 ++ b2) st = None.
Proof.
  intros Hi Hr. destruct (inv_current st Hi Hr) as (c & d & m & op & Hc & Hd & Hm & Ho & Hk & _).
  rewrite (process_spec (b1 ++ b2) st d m op), (process_spec b1 st d m op) by done.
  rewrite unmask_app by done.
  destruct (unmask (m_basic_header st) b1 (prepared_key d)) as [o1 k1] eqn:E1.
  destruct (unmask (m_basic_header st) b2 k1) as [o2 k2] eqn:E2.
  rewrite check_app. destruct (check op o1 (validator d)) as [[ok v1]|] eqn:Ec; [|by right].
  simpl. destruct ok; simpl; [|by left].
  set (d1 := received d m o1 k1 v1).
  set (st1 := with_needed (m_bytes_needed st - Z.of_nat (length o1)) (set_current_metadata d1 st)).
  destruct (set_current_fields d1 st) as (Hh & Hn & _).
  assert (current_metadata st1 = Some d1) as Hd1 by by eapply current_set.
  assert (m_basic_header st1 = m_basic_header st) as Hh1 by done.
  rewrite (process_spec b2 st1 d1 (set_payload (m_payload m ++ o1) m) op) by done.
  rewrite Hh1. simpl (prepared_key d1). simpl (validator d1). rewrite E2.
  destruct (check op o2 v1) as [[[] v2]|]; [| |by right]; simpl; left; [|done].
  split; [by rewrite length_app|].
  unfold st1. rewrite set_current_with_needed, set_current_set. unfold with_needed. simpl.
  rewrite length_app, Nat2Z.inj_add, Z.sub_add_distr.
  unfold d1, received. simpl. by rewrite app_assoc.
Qed.

Lemma copy_at_app c s1 s2 (e : list Z) : 0 <= c -> c + Z.of_nat (length s1) <= Z.of_nat (length e) ->
  copy_at (c + Z.of_nat (length s1)) s2 (copy_at c s1 e) = copy_at c (s1 ++ s2) e.
Proof.
  intros Hc Hl. unfold copy_at. replace (Z.to_nat (c + Z.of_nat (length s1)))
    with (Z.to_nat c + length s1)%nat by lia.
  assert (length (take (Z.to_nat c) e ++ s1) = (Z.to_nat c + length s1)%nat) as Ht
    by (rewrite length_app, length_take; lia).
  rewrite !(app_assoc (take (Z.to_nat c) e) s1), take_app_length' by done.
  rewrite drop_app_add' by done. rewrite drop_drop, length_app, <-!app_assoc. do 4 f_equal. lia.
Qed.

Lemma length_copy_at c s (e : list Z) : 0 <= c -> c + Z.of_nat (length s) <= Z.of_nat (length e) ->
  length (copy_at c s e) = length e.
Proof.
  intros. unfold copy_at. rewrite !length_app, length_take, length_drop. lia.
Qed.

Lemma Forall_copy_at P c s (e : list Z) : Forall P s -> Forall P e -> Forall P (copy_at c s e).
Proof.
  intros Hs He. unfold copy_at. rewrite !Forall_app.
  split; [by apply Forall_take|]. split; [done|by apply Forall_drop].
Qed.

Lemma absorb_basic_app b1 b2 st : m_state st = HEADER_BASIC -> 1 <= m_bytes_needed st <= 2 ->
  exists n1 st1, absorb b1 st = Some (n1, None, st1) /\
    if m_bytes_needed st1 =? 0 then absorb (b1 ++ b2) st = Some (n1, None, st1)
    else n1 = length b1 /\ absorb (b1 ++ b2) st = shifted n1 (absorb b2 st1).
Proof.
  intros E Hn. unfold absorb. rewrite E.
  destruct (copy_basic_header_bytes b1 st) as [n1 st1] eqn:Ec. exists n1, st1. split; [done|].
  unfold copy_basic_header_bytes in Ec.
  destruct b1 as [|x b1]; [|destruct (Z.eqb_spec (m_bytes_needed st) 0); [lia|]].
  - simplify_eq. replace (m_bytes_needed st1 =? 0) with false by lia. split; [done|]. simpl.
    rewrite E. by destruct (copy_basic_header_bytes b2 st1).
  - unfold copy_basic_header_bytes.
    destruct b1 as [|y b1]; simpl app; cbn iota.
    + destruct (Z.eqb_spec (m_bytes_needed st) 2) as [E2|E2]; injection Ec as <- <-; simpl.
      * rewrite E2. simpl. split; [done|]. rewrite E.
        destruct b2 as [|y b2]; [done|]. simpl. by destruct b2.
      * replace (m_bytes_needed st - 1 =? 0) with true by lia.
        destruct (Z.eqb_spec (m_bytes_needed st) 0); [lia|].
        by destruct b2 as [|y b2].
    + destruct (Z.eqb_spec (m_bytes_needed st) 2) as [E2|E2]; injection Ec as <- <-; simpl;
        (destruct (Z.eqb_spec (m_bytes_needed st) 0); [lia|]).
      * by rewrite E2.
      * by replace (m_bytes_needed st - 1 =? 0) with true by lia.
Qed.

Lemma length_unmask h bs pk : length (unmask h bs pk).1 = length bs.
Proof. unfold unmask. case_match; [|done]. unfold byte_mask_circ. cbn [fst]. apply length_imap. Qed.

Lemma check_ok d m op out : message_ok d m -> m_opcode m = Some op -> Forall is_byte out ->
  exists ok v, check op out (validator d) = Some (ok, v) /\
    forall key, ok = true -> message_ok (received d m out key v) (set_payload (m_payload m ++ out) m).
Proof.
  intros (op' & Ho' & Hb & Ht) Ho Hout. assert (op' = op) as -> by congruence.
  assert (Forall is_byte (m_payload m ++ out)) as Hb' by by apply Forall_app.
  unfold check. destruct (Z.eqb_spec op text) as [Et|Et].
  - destruct (Ht Et) as [Hp Hd].
    destruct (utf8_validator.decode_partial out (validator d) Hout Hp) as (ok & v & E & Hp').
    exists ok, v. split; [done|]. intros key ->. exists op. split_and!; [done|done|].
    intros _. split; [by apply Hp'|]. simpl. by rewrite utf8_validator.decode_app, Hd.
  - exists true, (validator d). split; [done|]. intros key _. exists op. split_and!; done.
Qed.

Lemma inv_set_current k st c d' : inv st -> m_state st = APPLICATION -> m_current_msg st = Some c ->
  metadata_ok (match c with Control => true | Data => false end) d' -> 0 <= k ->
  payload_ready (with_needed k (set_current_metadata d' st)) ->
  inv (with_needed k (set_current_metadata d' st)).
Proof.
  intros [H1 H2 H3 H4 H5 H6] Hs Hc Hok Hk Hr.
  destruct (set_current_fields d' st) as (F1 & F2 & F3 & F4 & F5 & F6 & F7 & F8).
  split; simpl; rewrite ?F1, ?F2, ?F3, ?F5, ?F6, ?F7; try done.
  - unfold set_current_metadata. rewrite Hc. by destruct c.
  - unfold set_current_metadata. rewrite Hc. by destruct c.
  - by rewrite Hs.
Qed.

(** Octets of a payload, no more than are missing. *)
Lemma process_inv buf st : inv st -> m_state st = APPLICATION -> Forall is_byte buf ->
  Z.of_nat (length buf) <= m_bytes_needed st ->
  exists n ec st', process_payload_bytes buf st = Some (n, ec, st') /\ (n <= length buf)%nat /\
    (ec = None -> n = length buf /\ m_bytes_needed st' = m_bytes_needed st - Z.of_nat n /\
       m_state st' = APPLICATION /\ inv st').
Proof.
  intros Hi Hs Hb Hn.
  assert (payload_ready st) as Hr by (pose proof (inv_state _ Hi) as Hst; rewrite Hs in Hst; tauto).
  destruct (inv_current st Hi Hr) as (c & d & m & op & Hc & Hd & Hm & Ho & Hk & Hmok & Hctl & Hmeta).
  rewrite (process_spec buf st d m op) by done.
  destruct (unmask_ok (m_basic_header st) buf (prepared_key d) Hk Hb) as [Hob Hok].
  pose proof (length_unmask (m_basic_header st) buf (prepared_key d)) as Hl.
  destruct (unmask (m_basic_header st) buf (prepared_key d)) as [out key]. cbn [fst snd] in *.
  destruct (check_ok d m op out Hmok Ho Hob) as (ok & v & -> & Hrec). simpl.
  destruct ok; do 3 eexists; (split; [reflexivity|]); (split; [lia|]); [|done].
  intros _. set (d' := received d m out key v).
  destruct (set_current_fields d' st) as (F1 & F2 & F3 & F4 & F5 & F6 & F7 & F8).
  split; [done|]. split; [simpl; lia|]. split; [simpl; congruence|].
  apply (inv_set_current _ st c d' Hi Hs Hc).
  - split; [done|]. intros m' Hm'. simpl in Hm'. simplify_eq. split; [by apply Hrec|].
    exists op. split; [done|]. destruct Hmeta as [_ Hmeta].
    destruct (Hmeta m Hm) as [_ (op' & Ho' & Hc')]. simpl. congruence.
  - lia.
  - exists c, d', (set_payload (m_payload m ++ out) m). cbn [with_needed m_current_msg m_basic_header m_bytes_needed].
    rewrite F1, F4, current_with_needed, (current_set d' st c Hc). split_and!; try done.
    + destruct Hr as (c' & ? & ? & Hc' & _ & _ & Hh & _). rewrite Hc in Hc'. by simplify_eq.
    + intros ->. destruct Hr as (c' & dd & mm & Hc' & Hdd & Hmm & _ & Hsmall). rewrite Hc in Hc'. simplify_eq.
      specialize (Hsmall eq_refl). simpl. rewrite length_app. lia.
Qed.

Lemma set_current_same d st : current_metadata st = Some d -> set_current_metadata d st = st.
Proof.
  unfold current_metadata, set_current_metadata. destruct st as [????? [[]|]]; simpl;
    intros; by simplify_eq.
Qed.

Lemma finalize_spec st d m : current_metadata st = Some d -> msg_ptr d = Some m ->
  finalize_message st =
  Some (if (get_opcode (m_basic_header st) =? text) && negb (utf8_validator.complete (validator d))
        then (Some invalid_utf8, st) else (None, with_state READY st)).
Proof.
  intros Hd Hm. unfold finalize_message. rewrite Hd. simpl. rewrite Hm. simpl.
  assert (MsgMetadata (Some (set_payload (m_payload m) m)) (prepared_key d) (validator d) = d) as ->.
  { destruct d as [? key v]. simpl in *. rewrite Hm. by destruct m. }
  rewrite set_current_same by done. by case_match.
Qed.

Lemma message_ok_new op needed key :
  message_ok (new_metadata (get_new_message_op op needed) key) (get_new_message_op op needed).
Proof.
  exists op. split_and!; [done|constructor|]. intros _. split; [|done].
  apply utf8_validator.partial_new.
Qed.

Lemma metadata_ok_new op needed key c : 0 <= key < 2 ^ 32 -> is_control op = c ->
  metadata_ok c (new_metadata (get_new_message_op op needed) key).
Proof.
  intros Hk Hc. split; [by apply prepare_key_ok|]. intros m Hm. simpl in Hm. simplify_eq.
  split; [apply message_ok_new|]. by exists op.
Qed.

Lemma get_masking_key_range h e : length e = MAX_EXTENDED_HEADER_LENGTH -> Forall is_byte e ->
  0 <= get_masking_key h e < 2 ^ 32.
Proof.
  intros Hl Hb. unfold get_masking_key. case_match; [lia|].
  assert (length (take 4 (drop (Z.to_nat (get_masking_key_offset h)) e)) = 4%nat) as H4.
  { rewrite length_take, length_drop, Hl. unfold get_masking_key_offset. by repeat case_match. }
  pose proof (union_i_bound (take 4 (drop (Z.to_nat (get_masking_key_offset h)) e))) as Hu.
  rewrite H4 in Hu. apply Hu. by apply Forall_take, Forall_drop.
Qed.

Lemma control_size_small h e server new_msg :
  validate_incoming_basic_header h server new_msg = None -> is_control (get_opcode h) = true ->
  length e = MAX_EXTENDED_HEADER_LENGTH -> Forall is_byte e ->
  size_t (get_payload_size h e) <= 125.
Proof.
  unfold validate_incoming_basic_header, payload_size_basic. intros Hv Hc Hl Hb. rewrite Hc in Hv. simpl in Hv.
  destruct (Z.ltb_spec 125 (get_basic_size h)); [done|]. pose proof (get_basic_size_range h).
  unfold get_payload_size, payload_size_basic. replace (get_basic_size h <=? 125) with true by lia.
  etrans; [apply Z.mod_le; [lia|]|lia]. apply Z.pow_pos_nonneg; lia.
Qed.

(** The extended header is complete. *)
Lemma begin_payload_inv st : inv st -> m_state st = HEADER_EXTENDED -> m_bytes_needed st = 0 ->
  exists ec st', begin_payload st = Some (ec, st') /\
    (ec = None -> inv st' /\ m_state st' = APPLICATION).
Proof.
  intros Hi Hs Hn. pose proof Hi as [I1 I2 I3 I4 I5 I6]. rewrite Hs in I6.
  pose proof (get_masking_key_range (m_basic_header st) _ I2 I3) as Hkey.
  assert (forall c d' m, key_ok (prepared_key d') -> msg_ptr d' = Some m ->
    metadata_ok (match c with Control => true | Data => false end) d' ->
    is_control (get_opcode (m_basic_header st)) = match c with Control => true | Data => false end ->
    (c = Control -> m_payload m = []) ->
    let st1 := with_needed (size_t (get_payload_size (m_basic_header st) (m_extended_header st)))
                 (with_state APPLICATION st) in
    inv (with_current c (match c with Data => with_data d' st1 | Control => with_control d' st1 end)))
    as Hnew.
  { intros c d' m _ Hm Hok Hc Hempty st1. destruct c; split; try done; simpl; (split;
      [apply wrap_bound; lia|]); eexists _, d', m; (split; [done|]); (split; [done|]); (split; [done|]);
      (split; [done|]); [done|]. intros _. rewrite Hempty by done. simpl.
    eapply control_size_small; [exact (proj2 (proj2 (proj2 I6)))|done|done|done]. }
  unfold begin_payload. destruct (validate_incoming_extended_header _ _); [by do 2 eexists|].
  destruct (is_control (get_opcode (m_basic_header st))) eqn:Ec.
  - do 2 eexists. split; [reflexivity|]. intros _. split; [|done].
    eapply (Hnew Control); [by apply prepare_key_ok|done|by apply metadata_ok_new|done|done].
  - simpl. destruct (msg_ptr (m_data_msg st)) as [m|] eqn:Em.
    + case_match; [by do 2 eexists|]. do 2 eexists. split; [reflexivity|]. intros _. split; [|done].
      eapply (Hnew Data); [by apply prepare_key_ok|done| |done|done].
      destruct I4 as [_ I4]. split; [by apply prepare_key_ok|].
      intros m' Hm'. simpl in Hm'. simplify_eq. by apply I4.
    + case_match; [by do 2 eexists|]. do 2 eexists. split; [reflexivity|]. intros _. split; [|done].
      eapply (Hnew Data); [by apply prepare_key_ok|done|by apply metadata_ok_new|done|done].
Qed.

Lemma reset_headers_inv st : inv st -> inv (reset_headers st).
Proof.
  intros [I1 I2 I3 I4 I5 I6]. split; simpl; try done; try (unfold BASIC_HEADER_LENGTH; lia).
  apply Forall_replicate. unfold is_byte. lia.
Qed.

Definition weight (st : processor) : nat :=
  match m_state st with HEADER_EXTENDED => 2 | APPLICATION => 1 | _ => 0 end.

Lemma basic_inv st h needed : inv st -> m_state st = HEADER_BASIC -> header_ok h ->
  1 <= needed <= 2 -> inv (with_header h needed st).
Proof. intros [I1 I2 I3 I4 I5 I6] Hs Hh Hn. split; try done. simpl. by rewrite Hs. Qed.

(** The pass is defined, uses no more than the buffer, keeps the invariant and
    gets on. *)
Definition progress (buf : list Z) (st : processor)
    (r : option (nat * option processor_errors * processor)) : Prop :=
  exists n ec st', r = Some (n, ec, st') /\ (n <= length buf)%nat /\
    (ec = None -> inv st' /\ (3 * (length buf - n) + weight st' < 3 * length buf + weight st)%nat).

Lemma progress_error buf st n e st' : (n <= length buf)%nat -> progress buf st (Some (n, Some e, st')).
Proof. intros Hn. by do 3 eexists. Qed.

Lemma progress_ok buf st n st' : (n <= length buf)%nat -> inv st' ->
  (3 * (length buf - n) + weight st' < 3 * length buf + weight st)%nat ->
  progress buf st (Some (n, None, st')).
Proof. intros Hn Hi Hw. by do 3 eexists. Qed.

Lemma copy_basic_some x buf st : header_ok (m_basic_header st) -> 1 <= m_bytes_needed st <= 2 ->
  Forall is_byte (x :: buf) -> exists n h needed,
  copy_basic_header_bytes (x :: buf) st = (n, with_header h needed st) /\
  (1 <= n <= length (x :: buf))%nat /\ 0 <= needed <= 2 /\ header_ok h.
Proof.
  intros Hh Hn Hb. apply Forall_cons_1 in Hb as [Hx Hb]. unfold copy_basic_header_bytes.
  replace (m_bytes_needed st =? 0) with false by lia. destruct Hh.
  destruct buf as [|y buf]; repeat case_match; do 3 eexists;
    (split; [reflexivity|]); simpl; (split; [lia|]); (split; [lia|]); split; try done.
  by apply Forall_cons_1 in Hb as [Hy _].
Qed.

Lemma pass_basic_inv buf st : inv st -> m_state st = HEADER_BASIC -> buf <> [] ->
  Forall is_byte buf -> progress buf st (then_finish (absorb buf st)).
Proof.
  intros Hi Hs Hne Hb. pose proof Hi as [I1 I2 I3 I4 I5 I6]. rewrite Hs in I6.
  destruct buf as [|x buf]; [done|]. unfold absorb. rewrite Hs.
  destruct (copy_basic_some x buf st I1 I6 Hb) as (n & h & needed & -> & Hn & Hne' & Hh).
  destruct (Z.ltb_spec 0 needed) as [Hp|Hp].
  - rewrite then_finish_more by done. apply progress_ok; [lia|apply basic_inv; [done|done|done|lia]|].
    unfold weight. simpl. rewrite Hs. simpl in Hn. lia.
  - rewrite then_finish_done by done. unfold finish. cbn [with_header m_state]. rewrite Hs.
    destruct (validate_incoming_basic_header _ _ _) eqn:Ev; simpl; [apply progress_error; lia|].
    apply progress_ok; [lia| |unfold weight; simpl; rewrite Hs; simpl in Hn; lia].
    pose proof (header_len_bound h). unfold BASIC_HEADER_LENGTH.
    split; try done; simpl. split_and!; [lia|lia|lia|done].
Qed.

Lemma available_bound buf st : 0 <= m_bytes_needed st ->
  (bytes_available buf st <= length buf)%nat /\
  Z.of_nat (bytes_available buf st) <= m_bytes_needed st /\
  (m_bytes_needed st <> Z.of_nat (bytes_available buf st) -> bytes_available buf st = length buf).
Proof. unfold bytes_available. lia. Qed.

Lemma pass_extended_inv buf st : inv st -> m_state st = HEADER_EXTENDED ->
  (0 < length buf)%nat \/ m_bytes_needed st = 0 -> Forall is_byte buf ->
  progress buf st (then_finish (absorb buf st)).
Proof.
  intros Hi Hs Hne Hb. pose proof Hi as [I1 I2 I3 I4 I5 I6]. rewrite Hs in I6.
  destruct I6 as (N1 & N2 & N3 & N4). pose proof (header_len_bound (m_basic_header st)) as Hlen.
  unfold absorb. rewrite Hs. unfold copy_extended_header_bytes, MAX_EXTENDED_HEADER_LENGTH in *.
  destruct (available_bound buf st N1) as (A1 & A2 & A3). set (n := bytes_available buf st) in *.
  change (Z.of_nat 12) with 12. replace (m_cursor st + Z.of_nat n <=? 12) with true by lia.
  assert (length (take n buf) = n) as Ht by (rewrite length_take; lia).
  set (st1 := with_extended _ _ _ st).
  assert (inv st1) as Hi1.
  { split; try done; simpl.
    - rewrite length_copy_at by (rewrite ?Ht, ?I2; lia). done.
    - apply Forall_copy_at; [by apply Forall_take|done].
    - rewrite Hs. split_and!; [lia|lia|lia|done]. }
  assert (m_bytes_needed st1 = m_bytes_needed st - Z.of_nat n) as En by done.
  change (progress buf st (then_finish (Some (n, None, st1)))).
  destruct (Z.ltb_spec 0 (m_bytes_needed st1)) as [Hp|Hp].
  - rewrite then_finish_more by done. assert (0 < n)%nat by lia. apply progress_ok; [lia|done|].
    unfold weight. simpl. rewrite Hs. lia.
  - rewrite then_finish_done by done. unfold finish. replace (m_state st1) with HEADER_EXTENDED by done.
    destruct (begin_payload_inv st1 Hi1 Hs) as (ec & st' & -> & Hok); [lia|]. simpl.
    destruct ec; [by apply progress_error|]. destruct (Hok eq_refl) as [Hi' Hs'].
    apply progress_ok; [done|done|]. unfold weight. rewrite Hs, Hs'. lia.
Qed.

Lemma pass_application_inv buf st : inv st -> m_state st = APPLICATION ->
  (0 < length buf)%nat \/ m_bytes_needed st = 0 -> Forall is_byte buf ->
  progress buf st (then_finish (absorb buf st)).
Proof.
  intros Hi Hs Hne Hb. pose proof (inv_state _ Hi) as I6. rewrite Hs in I6. destruct I6 as [N1 Hr].
  destruct (available_bound buf st N1) as (A1 & A2 & A3).
  unfold absorb. rewrite Hs. set (k := bytes_available buf st) in *.
  assert (exists ec st1, (if (0 <? k)%nat then process_payload_bytes (take k buf) st
      else Some (0%nat, None, st)) = Some (match ec with None => k | Some _ => 0%nat end, ec, st1) /\
    (ec = None -> m_bytes_needed st1 = m_bytes_needed st - Z.of_nat k /\
       m_state st1 = APPLICATION /\ inv st1)) as (ec & st1 & -> & Hok).
  { destruct (Nat.ltb_spec 0 k) as [Hk|Hk].
    - assert (length (take k buf) = k) as Ht by (rewrite length_take; lia).
      destruct (process_inv (take k buf) st Hi Hs) as (n & ec & st1 & E & Hn & Hok);
        [by apply Forall_take|lia|]. rewrite E. exists ec, st1.
      assert (process_payload_bytes (take k buf) st = Some (n, ec, st1)) as E' by done.
      destruct (inv_current st Hi Hr) as (c & d & m & op & Hc & Hd & Hm & Ho & _).
      rewrite (process_spec _ st d m op) in E' by done.
      destruct (unmask _ _ _) as [out key]. destruct (check _ _ _) as [[[] ?]|]; simplify_eq/=;
        [|split; [done|intros; simplify_eq]].
      destruct (Hok eq_refl) as (-> & Hn' & Hs' & Hi'). rewrite Ht in *. auto.
    - exists None, st. split; [f_equal; f_equal; f_equal; lia|]. intros _.
      split; [lia|done]. }
  destruct ec; [apply progress_error; lia|]. destruct (Hok eq_refl) as (Hn1 & Hs1 & Hi1).
  destruct (Z.ltb_spec 0 (m_bytes_needed st1)) as [Hp|Hp].
  - rewrite then_finish_more by done. assert (0 < k)%nat by lia. apply progress_ok; [done|done|]. unfold weight. rewrite Hs, Hs1. lia.
  - rewrite then_finish_done by done. unfold finish. rewrite Hs1. pose proof (inv_state _ Hi1) as I1. rewrite Hs1 in I1.
    destruct I1 as [M1 Hr1]. destruct (get_fin (m_basic_header st1)).
    + destruct (inv_current st1 Hi1 Hr1) as (c & d & m & op & Hc & Hd & Hm & _).
      rewrite (finalize_spec st1 d m) by done.
      case_match; simpl; [by apply progress_error|]. apply progress_ok; [done| |].
      * destruct Hi1 as [J1 J2 J3 J4 J5 J6]. split; try done. simpl. split; [lia|done].
      * unfold weight. simpl. rewrite Hs. lia.
    + simpl. apply progress_ok; [done|by apply reset_headers_inv|].
      unfold weight. simpl. rewrite Hs. lia.
Qed.

Lemma pass_inv buf st : inv st -> consuming buf st = true -> Forall is_byte buf ->
  progress buf st (consume_pass buf st).
Proof.
  intros Hi Hc Hb. unfold consuming in Hc. apply andb_true_iff in Hc as [Hc Hneed].
  apply andb_true_iff in Hc as [Hr _]. apply negb_true_iff, bool_decide_eq_false in Hr.
  assert ((0 < length buf)%nat \/ m_bytes_needed st = 0) as Hor
    by (apply orb_true_iff in Hneed as [?%Nat.ltb_lt|?%Z.eqb_eq]; auto).
  rewrite pass_absorb by done. pose proof (inv_state _ Hi) as Hst.
  destruct (m_state st) eqn:Hs; try done.
  - apply pass_basic_inv; try done. intros ->. simpl in Hor. lia.
  - by apply pass_extended_inv.
  - by apply pass_application_inv.
Qed.

End props.
