(* ===== verification/Hybi13Stream.v ===== *)
(** * The stream of octets of a connection

    [consume] ends on every buffer, and a buffer may be cut anywhere: reading
    the parts one after the other gives the messages, the error and the state
    that reading the whole gives. *)
From S2P Require Import Prelude Utf8 WsFrame WsFrameProps Hybi13 Hybi13Props.
Import frame hybi13.

#[local] Set Default Proof Using "Type*".

Section stream.
Context `{MachineLaws}.

(** ** Absorbing two buffers *)
Lemma absorb_total buf st : inv st -> m_state st <> READY -> Forall is_byte buf ->
  absorb buf st <> None.
Proof.
  intros Hi Hr Hb E. pose proof (inv_state _ Hi) as Hst. unfold absorb in E.
  destruct (m_state st) eqn:Hs; try done.
  - by destruct (copy_basic_header_bytes buf st).
  - unfold copy_extended_header_bytes, MAX_EXTENDED_HEADER_LENGTH in E.
    destruct Hst as (N1 & N2 & N3 & _). pose proof (header_len_bound (m_basic_header st)).
    destruct (available_bound buf st N1) as (_ & A2 & _). change (Z.of_nat 12) with 12 in E.
    by replace (m_cursor st + Z.of_nat (bytes_available buf st) <=? 12) with true in E by lia.
  - destruct Hst as [N1 _]. destruct (available_bound buf st N1) as (A1 & A2 & _).
    case_match; [|done].
    destruct (process_inv (take (bytes_available buf st) buf) st Hi Hs) as (? & ? & ? & E' & _);
      [by apply Forall_take|rewrite length_take; lia|congruence].
Qed.

(** What absorbing [b1] before [b2] means for the absorption of both. *)
Definition extends (b1 b2 : list Z) (st : processor) : Prop :=
  match absorb b1 st with
  | Some (_, Some e, _) => exists n st', absorb (b1 ++ b2) st = Some (n, Some e, st')
  | Some (n, None, st1) =>
      if m_bytes_needed st1 =? 0 then absorb (b1 ++ b2) st = Some (n, None, st1)
      else n = length b1 /\ same_result (absorb (b1 ++ b2) st) (shifted n (absorb b2 st1))
  | None => False
  end.

Lemma absorb_nil_app b2 st : inv st -> m_state st <> READY -> Forall is_byte b2 ->
  absorb [] st = Some (0%nat, None, st) -> m_bytes_needed st <> 0 -> extends [] b2 st.
Proof.
  intros Hi Hr Hb E Hn. unfold extends. rewrite E.
  replace (m_bytes_needed st =? 0) with false by lia. split; [done|]. simpl app.
  pose proof (absorb_total b2 st Hi Hr Hb). destruct (absorb b2 st) as [[[n ec] st']|]; [|done].
  by destruct ec.
Qed.

Lemma absorb_extended_app b1 b2 st : inv st -> m_state st = HEADER_EXTENDED -> extends b1 b2 st.
Proof.
  intros Hi Hs. pose proof Hi as [I1 I2 I3 I4 I5 I6]. rewrite Hs in I6.
  destruct I6 as (N1 & N2 & N3 & _). pose proof (header_len_bound (m_basic_header st)).
  unfold extends, absorb. rewrite Hs.
  unfold copy_extended_header_bytes, MAX_EXTENDED_HEADER_LENGTH in *. change (Z.of_nat 12) with 12.
  destruct (available_bound b1 st N1) as (A1 & A2 & A3).
  set (n1 := bytes_available b1 st) in *.
  replace (m_cursor st + Z.of_nat n1 <=? 12) with true by lia. simpl.
  destruct (Z.eqb_spec (m_bytes_needed st - Z.of_nat n1) 0) as [E0|E0].
  - assert (bytes_available (b1 ++ b2) st = n1) as ->.
    { unfold bytes_available. rewrite length_app. lia. }
    replace (m_cursor st + Z.of_nat n1 <=? 12) with true by lia. simpl.
    by rewrite take_app_le.
  - assert (n1 = length b1) as En by lia. split; [done|].
    set (st1 := with_extended (copy_at (m_cursor st) (take n1 b1) (m_extended_header st))
      (m_cursor st + Z.of_nat n1) (m_bytes_needed st - Z.of_nat n1) st).
    assert (bytes_available (b1 ++ b2) st = (n1 + bytes_available b2 st1)%nat) as ->.
    { unfold bytes_available. subst st1. simpl. rewrite length_app. lia. }
    assert (m_bytes_needed st1 = m_bytes_needed st - Z.of_nat n1) as Hn1 by done.
    assert (m_cursor st1 = m_cursor st + Z.of_nat n1) as Hc1 by done.
    destruct (available_bound b2 st1) as (B1 & B2 & _); [lia|].
    set (n2 := bytes_available b2 st1) in *.
    assert (m_cursor st + Z.of_nat (n1 + n2) <= 12) as Hle
      by (clearbody n1 n2; rewrite Hn1 in B2; lia).
    rewrite Hs, (proj2 (Z.leb_le _ _) Hle). rewrite Nat2Z.inj_add, Z.add_assoc in Hle.
    cbn [with_extended m_cursor]. fold st1. fold n2. rewrite (proj2 (Z.leb_le _ _) Hle). simpl.
    split; [done|]. unfold st1, with_extended. simpl. clearbody n2. clear st1 Hn1 Hc1 B2.
    clearbody n1. subst n1. rewrite (take_ge b1) by done. rewrite take_app_add.
    replace (m_bytes_needed st - Z.of_nat (length b1 + n2))
      with (m_bytes_needed st - Z.of_nat (length b1) - Z.of_nat n2) by lia.
    rewrite copy_at_app by (rewrite ?I2; lia). by rewrite Nat2Z.inj_add, Z.add_assoc.
Qed.

(** What a longer buffer makes available: nothing more, or some of what follows. *)
Lemma available_more b1 b2 st : 0 <= m_bytes_needed st -> Forall is_byte b2 -> let k1 := bytes_available b1 st in
  exists c2, bytes_available (b1 ++ b2) st = (k1 + length c2)%nat /\
    take (k1 + length c2) (b1 ++ b2) = take k1 b1 ++ c2 /\ Forall is_byte c2 /\
    (m_bytes_needed st = Z.of_nat k1 /\ c2 = [] \/
     k1 = length b1 /\ c2 = take (Z.to_nat (Z.min (m_bytes_needed st - Z.of_nat k1) (Z.of_nat (length b2)))) b2).
Proof.
  intros N1 Hb2 k1. destruct (available_bound b1 st N1) as (A1 & A2 & A3). fold k1 in A1, A2, A3.
  destruct (Z.eq_dec (m_bytes_needed st) (Z.of_nat k1)) as [En|En].
  - exists []. rewrite app_nil_r, Nat.add_0_r, take_app_le by done. split_and!; try done; [|auto].
    unfold bytes_available. rewrite length_app. lia.
  - exists (take (Z.to_nat (Z.min (m_bytes_needed st - Z.of_nat k1) (Z.of_nat (length b2)))) b2).
    rewrite length_take.
    assert (k1 = length b1) as Ek by lia. split_and!; [| |by apply Forall_take|auto].
    + unfold bytes_available. rewrite length_app. lia.
    + rewrite Ek at 1. rewrite take_app_add, (take_ge b1) by lia. f_equal. f_equal. lia.
Qed.

Lemma absorb_application_app b1 b2 st : inv st -> m_state st = APPLICATION ->
  Forall is_byte (b1 ++ b2) -> extends b1 b2 st.
Proof.
  intros Hi Hs Hb. pose proof (inv_state _ Hi) as I6. rewrite Hs in I6. destruct I6 as [N1 Hr].
  apply Forall_app in Hb as [Hb1 Hb2].
  destruct (available_bound b1 st N1) as (A1 & A2 & A3).
  destruct (Nat.eq_dec (bytes_available b1 st) 0) as [E0|E0].
  { destruct (Z.eq_dec (m_bytes_needed st) 0) as [En|En].
    - unfold extends, absorb. rewrite Hs. unfold bytes_available. rewrite En. simpl.
      rewrite Z.min_l by lia. simpl. rewrite En. simpl. rewrite Z.min_l by lia. done.
    - assert (b1 = []) as -> by (apply nil_length_inv; lia).
      apply absorb_nil_app; try done; [congruence|]. unfold absorb. by rewrite Hs, E0. }
  unfold extends, absorb. rewrite Hs. set (k1 := bytes_available b1 st) in *.
  replace (0 <? k1)%nat with true by (symmetry; apply Nat.ltb_lt; lia).
  destruct (process_inv (take k1 b1) st Hi Hs) as (n1 & ec & st1 & E1 & Hn1 & Hok);
    [by apply Forall_take|rewrite length_take; lia|]. rewrite E1.
  destruct (available_more b1 b2 st N1 Hb2) as (c2 & Eav & Etake & Hc2 & Hc). fold k1 in Eav, Etake, Hc.
  rewrite Eav, Etake.
  replace (0 <? k1 + length c2)%nat with true by (symmetry; apply Nat.ltb_lt; lia).
  assert (Z.of_nat (length (take k1 b1 ++ c2)) <= m_bytes_needed st) as Hlen.
  { rewrite length_app, length_take. destruct Hc as [[-> ->]|[Ek ->]]; [simpl; lia|].
    rewrite length_take. lia. }
  destruct (process_app (take k1 b1) c2 st Hi Hr) as [Hsame|Hnone].
  2: { destruct (process_inv (take k1 b1 ++ c2) st Hi Hs) as (? & ? & ? & E & _);
         [by apply Forall_app; split; [apply Forall_take|]|done|congruence]. }
  rewrite E1 in Hsame. simpl in Hsame. destruct ec as [e|].
  { destruct (process_payload_bytes (take k1 b1 ++ c2) st) as [[[n [e'|]] st']|]; [|done|done].
    simpl in Hsame. subst. by do 2 eexists. }
  destruct (Hok eq_refl) as (En1 & Hne1 & Hs1 & Hi1). rewrite length_take in En1.
  assert (n1 = k1) as -> by lia. clear En1.
  destruct (Z.eqb_spec (m_bytes_needed st1) 0) as [Ez|Ez].
  - assert (c2 = []) as ->.
    { destruct Hc as [[_ ?]|[_ ->]]; [done|]. by replace (m_bytes_needed st - Z.of_nat k1) with 0 by lia;
        rewrite Z.min_l by lia. }
    by rewrite app_nil_r.
  - destruct Hc as [[? _]|[Ek Ec2]]; [lia|]. split; [done|]. rewrite Hs1.
    assert (bytes_available b2 st1 = length c2) as ->.
    { unfold bytes_available. rewrite Ec2, length_take. lia. }
    assert (take (length c2) b2 = c2) as ->.
    { rewrite Ec2 at 2. rewrite Ec2, length_take. f_equal. lia. }
    destruct (Nat.ltb_spec 0 (length c2)) as [Hl|Hl]; [done|].
    assert (c2 = []) as -> by (apply nil_length_inv; lia).
    rewrite app_nil_r, E1. simpl. split; [lia|done].
Qed.

Lemma absorb_app b1 b2 st : inv st -> m_state st <> READY -> Forall is_byte (b1 ++ b2) ->
  extends b1 b2 st.
Proof.
  intros Hi Hr Hb. pose proof (inv_state _ Hi) as Hst. destruct (m_state st) eqn:Hs; try done.
  - destruct (absorb_basic_app b1 b2 st Hs Hst) as (n1 & st1 & E & Hx). unfold extends.
    rewrite E. case_match; [done|]. destruct Hx as [-> ->]. split; [done|].
    assert (m_state st1 = HEADER_BASIC) as Hs1.
    { rewrite <-Hs. by eapply absorb_state. }
    unfold absorb. rewrite Hs1. by destruct (copy_basic_header_bytes b2 st1).
  - by apply absorb_extended_app.
  - by apply absorb_application_app.
Qed.

Lemma absorb_nonneg buf st n st1 : inv st -> m_state st <> READY -> Forall is_byte buf ->
  absorb buf st = Some (n, None, st1) -> 0 <= m_bytes_needed st1.
Proof.
  intros Hi Hr Hb. pose proof (inv_state _ Hi) as Hst. unfold absorb.
  destruct (m_state st) eqn:Hs; try done.
  - unfold copy_basic_header_bytes. repeat case_match; intros; simplify_eq/=; lia.
  - unfold copy_extended_header_bytes. case_match; [|done]. intros. simplify_eq/=.
    destruct Hst as [N1 _]. pose proof (available_bound buf st N1). lia.
  - destruct Hst as [N1 _]. destruct (available_bound buf st N1) as (A1 & A2 & _).
    case_match; [|intros; by simplify_eq].
    destruct (process_inv (take (bytes_available buf st) buf) st Hi Hs) as (? & ? & ? & -> & _ & Hok);
      [by apply Forall_take|rewrite length_take; lia|]. intros. simplify_eq.
    destruct (Hok eq_refl) as (_ & _ & _ & Hi1). pose proof (inv_state _ Hi1).
    destruct (m_state st1); lia || tauto.
Qed.

(** ** The loop ends *)
Definition result : Type := option (nat * option processor_errors * processor).

Lemma consume_loop_mono f f' buf st r : (f <= f')%nat ->
  consume_loop f buf st = Some r -> consume_loop f' buf st = Some r.
Proof.
  revert f' buf st r. induction f as [|f IH]; intros [|f'] buf st r Hle; try done; [lia|]. simpl.
  destruct (consuming buf st); [|done]. destruct (consume_pass buf st) as [[[n [e|]] st']|]; [done| |done].
  simpl. destruct (consume_loop f (drop n buf) st') as [r'|] eqn:E; [|done].
  by rewrite (IH f' _ _ _ ltac:(lia) E).
Qed.

(** What a call leaves: after success the processor has a message or wants
    octets, and has used all of the buffer if it wants more. *)
Definition settled (buf : list Z) (n : nat) (st : processor) : Prop :=
  inv st /\ (m_state st = READY \/ 0 < m_bytes_needed st /\ n = length buf /\ m_state st <> READY).

Lemma needed_nonneg st : inv st -> 0 <= m_bytes_needed st.
Proof. intros Hi. pose proof (inv_state _ Hi). destruct (m_state st); lia || tauto. Qed.

Lemma weight_bound st : (weight st <= 2)%nat.
Proof. unfold weight. case_match; lia. Qed.

Lemma not_consuming buf st : inv st -> consuming buf st = false -> settled buf 0 st.
Proof.
  intros Hi Hc. split; [done|]. pose proof (inv_state _ Hi) as Hst. pose proof (needed_nonneg _ Hi).
  destruct (decide (m_state st = READY)); [by left|right].
  unfold consuming in Hc. rewrite bool_decide_eq_false_2 in Hc by done.
  rewrite bool_decide_eq_false_2 in Hc by (intros E; by rewrite E in Hst). simpl in Hc.
  apply orb_false_iff in Hc as [?%Nat.ltb_ge ?%Z.eqb_neq]. split; [lia|]. split; [lia|done].
Qed.

Lemma consume_loop_ends f buf st : inv st -> Forall is_byte buf ->
  (3 * length buf + weight st < f)%nat ->
  exists n ec st', consume_loop f buf st = Some (n, ec, st') /\ (n <= length buf)%nat /\
    (ec = None -> settled buf n st').
Proof.
  revert buf st. induction f as [|f IH]; intros buf st Hi Hb Hf; [lia|]. simpl.
  destruct (consuming buf st) eqn:Hc.
  - destruct (pass_inv buf st Hi Hc Hb) as (n & ec & st1 & -> & Hn & Hok). simpl.
    destruct ec as [e|]; [by exists n, (Some e), st1|]. destruct (Hok eq_refl) as [Hi1 Hw].
    destruct (IH (drop n buf) st1 Hi1) as (n' & ec & st' & -> & Hn' & Hs);
      [by apply Forall_drop|rewrite length_drop; lia|].
    simpl. rewrite length_drop in Hn'. exists (n + n')%nat, ec, st'. split; [done|].
    split; [lia|]. intros He. destruct (Hs He) as [Hi' [?|(? & E & ?)]]; (split; [done|]); [by left|right].
    rewrite length_drop in E. split; [done|]. split; [lia|done].
  - exists 0%nat, None, st. split; [done|]. split; [lia|]. intros _. by apply not_consuming.
Qed.

Lemma consume_ends buf st : inv st -> Forall is_byte buf ->
  exists n ec st', consume buf st = Some (n, ec, st') /\ (n <= length buf)%nat /\
    (ec = None -> settled buf n st').
Proof. intros. apply consume_loop_ends; try done. pose proof (weight_bound st). lia. Qed.

(** The fuel of [consume] is enough. *)
Lemma consume_fuel f buf st r : inv st -> Forall is_byte buf ->
  consume_loop f buf st = Some r -> consume buf st = Some r.
Proof.
  intros Hi Hb E. destruct (consume_ends buf st Hi Hb) as (n & ec & st' & E' & _). rewrite E'.
  unfold consume in E'. set (g := (3 * length buf + 6)%nat) in *. clearbody g.
  apply (consume_loop_mono f (f + g)) in E; [|lia]. apply (consume_loop_mono g (f + g)) in E'; [|lia].
  congruence.
Qed.

(** The equation of the loop. *)
Lemma consume_step buf st : inv st -> Forall is_byte buf -> consuming buf st = true ->
  consume buf st = '(n, ec, st1) ← consume_pass buf st;
    match ec with Some _ => Some (n, ec, st1) | None => shifted n (consume (drop n buf) st1) end.
Proof.
  intros Hi Hb Hc. destruct (pass_inv buf st Hi Hc Hb) as (n & ec & st1 & E & Hn & Hok). rewrite E. simpl.
  destruct (consume_ends buf st Hi Hb) as (m & ec' & st' & E' & _). rewrite E'.
  unfold consume in E'. replace (3 * length buf + 6)%nat with (S (3 * length buf + 5)) in E' by lia.
  set (g := (3 * length buf + 5)%nat) in *. clearbody g. cbn [consume_loop] in E'.
  rewrite Hc, E in E'. simpl in E'. destruct ec as [e|]; [done|]. destruct (Hok eq_refl) as [Hi1 _].
  destruct (consume_loop g (drop n buf) st1) as [[[n' ec2] st2]|] eqn:E2; [|done].
  apply consume_fuel in E2; [|done|by apply Forall_drop]. by rewrite E2.
Qed.

Lemma consume_stop buf st : consuming buf st = false -> consume buf st = Some (0%nat, None, st).
Proof.
  intros Hc. unfold consume. replace (3 * length buf + 6)%nat with (S (3 * length buf + 5)) by lia.
  cbn [consume_loop]. by rewrite Hc.
Qed.

(** ** Reading two buffers *)
Definition continues (b1 b2 : list Z) (st : processor) (r : result) : Prop :=
  match consume b1 st with
  | Some (_, Some e, _) => exists n st', r = Some (n, Some e, st')
  | Some (n, None, st1) =>
      if bool_decide (m_state st1 = READY) then r = Some (n, None, st1)
      else n = length b1 /\ same_result r (shifted n (consume b2 st1))
  | None => False
  end.

Lemma consuming_app b1 b2 st : consuming b1 st = true -> consuming (b1 ++ b2) st = true.
Proof.
  unfold consuming. intros [E Hc]%andb_true_iff. apply andb_true_iff. split; [done|].
  apply orb_true_iff in Hc as [Hc|E0]; [|rewrite E0; apply orb_true_r].
  apply Nat.ltb_lt in Hc. rewrite length_app. apply orb_true_iff. left. apply Nat.ltb_lt. lia.
Qed.

Lemma consuming_wants buf st : inv st -> m_state st <> READY -> buf <> [] -> consuming buf st = true.
Proof.
  intros Hi Hr Hb. unfold consuming. rewrite bool_decide_eq_false_2 by done.
  pose proof (inv_state _ Hi). rewrite bool_decide_eq_false_2 by (by destruct (m_state st)).
  by destruct buf.
Qed.

Lemma same_result_shifted n r1 r2 : same_result r1 r2 -> same_result (shifted n r1) (shifted n r2).
Proof. destruct r1 as [[[? []] ?]|], r2 as [[[? []] ?]|]; simpl; try done. by intros [-> ->]. Qed.

Lemma same_result_trans r1 r2 r3 : same_result r1 r2 -> same_result r2 r3 -> same_result r1 r3.
Proof.
  destruct r1 as [[[? []] ?]|], r2 as [[[? []] ?]|], r3 as [[[? []] ?]|]; simpl; try done;
    [by intros -> ->|by intros [-> ->] [-> ->]].
Qed.

Lemma shifted_shifted n m r : shifted n (shifted m r) = shifted (n + m) r.
Proof. destruct r as [[[? ?] ?]|]; [|done]. simpl. by rewrite Nat.add_assoc. Qed.

Lemma then_finish_shifted n r : then_finish (shifted n r) = shifted n (then_finish r).
Proof.
  destruct r as [[[m [e|]] st]|]; [done| |done]. unfold shifted, then_finish. simpl.
  destruct (0 <? m_bytes_needed st); [done|]. by destruct (finish st) as [[]|].
Qed.

Lemma then_finish_same r1 r2 : same_result r1 r2 -> then_finish r1 <> None ->
  same_result (then_finish r1) (then_finish r2).
Proof.
  destruct r1 as [[[? []] ?]|], r2 as [[[? []] ?]|]; simpl; try done.
  intros [-> ->] Hn. by apply same_result_refl.
Qed.

(** A step of the loop carries over to a longer buffer. *)
Lemma consume_after buf st n st1 : inv st -> Forall is_byte buf -> consuming buf st = true ->
  consume_pass buf st = Some (n, None, st1) -> consume buf st = shifted n (consume (drop n buf) st1).
Proof. intros Hi Hb Hc E. rewrite consume_step by done. by rewrite E. Qed.

Lemma continues_more b1 b2 st n st1 : inv st -> Forall is_byte (b1 ++ b2) ->
  consuming b1 st = true -> absorb b1 st = Some (n, None, st1) -> 0 < m_bytes_needed st1 ->
  n = length b1 -> m_state st <> READY ->
  same_result (absorb (b1 ++ b2) st) (shifted n (absorb b2 st1)) ->
  continues b1 b2 st (consume (b1 ++ b2) st).
Proof.
  intros Hi Hb Hc E Hn -> Hr Hsame. pose proof Hb as [Hb1 Hb2]%Forall_app.
  assert (consume_pass b1 st = Some (length b1, None, st1)) as E1
    by (rewrite pass_absorb, E by done; by apply then_finish_more).
  destruct (pass_inv b1 st Hi Hc Hb1) as (? & ? & ? & E1' & _ & Hok).
  rewrite E1 in E1'. injection E1' as <- <- <-. destruct (Hok eq_refl) as [Hi1 _]. clear Hok.
  assert (consuming [] st1 = false) as Hstop.
  { unfold consuming. replace (m_bytes_needed st1 =? 0) with false by lia. by rewrite andb_false_r. }
  assert (m_state st1 <> READY) as Hr1.
  { intros Er. pose proof (inv_state _ Hi1) as Hst. rewrite Er in Hst. lia. }
  unfold continues. rewrite (consume_after b1 st (length b1) st1) by done.
  rewrite drop_ge, (consume_stop [] st1) by done. simpl. rewrite Nat.add_0_r.
  rewrite bool_decide_eq_false_2 by done. split; [done|].
  destruct (decide (b2 = [])) as [->|Hne].
  { rewrite app_nil_r, (consume_after b1 st (length b1) st1), drop_ge by done.
    rewrite !consume_stop by done. done. }
  pose proof (consuming_app b1 b2 st Hc) as Hca.
  pose proof (consuming_wants b2 st1 Hi1 Hr1 Hne) as Hc2.
  rewrite (consume_step (b1 ++ b2) st), (consume_step b2 st1) by done.
  assert (same_result (consume_pass (b1 ++ b2) st) (shifted (length b1) (consume_pass b2 st1))) as Hp.
  { rewrite !pass_absorb, <-then_finish_shifted by done. apply then_finish_same; [done|].
    rewrite <-pass_absorb by done.
    destruct (pass_inv (b1 ++ b2) st Hi Hca Hb) as (? & ? & ? & -> & _). done. }
  destruct (consume_pass (b1 ++ b2) st) as [[[n1 [e1|]] s1]|], (consume_pass b2 st1) as
    [[[n2 [e2|]] s2]|] eqn:E2; simpl in Hp; try done.
  destruct Hp as [-> ->]. simpl.
  rewrite drop_app_add'; [|done]. rewrite shifted_shifted.
  destruct (pass_inv b2 st1 Hi1 Hc2 Hb2) as (? & ? & ? & E2' & Hn2 & Hok). rewrite E2 in E2'.
  injection E2' as <- <- <-. destruct (Hok eq_refl) as [Hi2 _]. apply same_result_refl.
  destruct (consume_ends (drop n2 b2) s2 Hi2) as (? & ? & ? & -> & _); [by apply Forall_drop|done].
Qed.

Lemma consume_app b1 b2 st : inv st -> Forall is_byte (b1 ++ b2) ->
  continues b1 b2 st (consume (b1 ++ b2) st).
Proof.
  remember (3 * length b1 + weight st)%nat as w eqn:Hw. revert b1 st Hw.
  induction w as [w IH] using lt_wf_ind. intros b1 st -> Hi Hb. pose proof Hb as [Hb1 Hb2]%Forall_app.
  destruct (consuming b1 st) eqn:Hc.
  - assert (m_state st <> READY) as Hr.
    { intros Er. unfold consuming in Hc. by rewrite Er in Hc. }
    pose proof (absorb_app b1 b2 st Hi Hr Hb) as Hx. unfold extends in Hx.
    destruct (absorb b1 st) as [[[n ec] st1]|] eqn:Ea; [|done].
    destruct ec as [e|].
    { destruct Hx as (n' & st' & E). unfold continues. pose proof (consuming_app b1 b2 st Hc).
      rewrite !consume_step, !pass_absorb, Ea, E by done. simpl. by do 2 eexists. }
    destruct (Z.eqb_spec (m_bytes_needed st1) 0) as [E0|E0].
    + assert (consume_pass (b1 ++ b2) st = consume_pass b1 st) as Ep
        by by rewrite !pass_absorb, Hx, Ea.
      unfold continues. rewrite (consume_step b1), (consume_step (b1 ++ b2)), Ep
        by (try done; by apply consuming_app).
      destruct (pass_inv b1 st Hi Hc Hb1) as (m & ec & st2 & -> & Hm & Hok). simpl.
      destruct ec as [e|]; [by do 2 eexists|]. destruct (Hok eq_refl) as [Hi2 Hw].
      assert (drop m (b1 ++ b2) = drop m b1 ++ b2) as -> by (apply drop_app_le; lia).
      assert (Forall is_byte (drop m b1 ++ b2)) as Hb' by (apply Forall_app; split; [by apply Forall_drop|done]).
      pose proof (IH (3 * length (drop m b1) + weight st2)%nat ltac:(rewrite length_drop; lia)
        (drop m b1) st2 eq_refl Hi2 Hb') as Hcont. unfold continues in Hcont.
      destruct (consume (drop m b1) st2) as [[[n' ec'] st']|]; [|done]. simpl. destruct ec' as [e|].
      { destruct Hcont as (? & ? & ->). simpl. by do 2 eexists. }
      destruct (bool_decide _); [by rewrite Hcont|]. destruct Hcont as [-> Hs].
      rewrite length_drop. split; [lia|].
      rewrite <-shifted_shifted. apply same_result_shifted. by rewrite length_drop in Hs.
    + destruct Hx as [-> Hsame]. apply (continues_more b1 b2 st (length b1) st1); try done.
      pose proof (absorb_nonneg b1 st _ _ Hi Hr Hb1 Ea). lia.
  - destruct (not_consuming b1 st Hi Hc) as [_ [Er|(Hn & Hl & Hr)]]; unfold continues;
      rewrite consume_stop by done.
    + rewrite bool_decide_eq_true_2 by done. apply consume_stop. unfold consuming. by rewrite Er.
    + rewrite bool_decide_eq_false_2 by done. split; [done|].
      assert (b1 = []) as -> by (apply nil_length_inv; lia). simpl app.
      destruct (consume_ends b2 st Hi Hb2) as (? & ec & ? & -> & _). by destruct ec.
Qed.

(** ** All the messages of a buffer

    What the loop of [connection::handle_read_frame] takes out of the
    processor: the messages in order, and the error at which it stops. *)
Definition receipt : Type := option (list message * option processor_errors * processor).

Definition prepend (ms : list message) (r : receipt) : receipt :=
  '(ms', ec, st) ← r; Some (ms ++ ms', ec, st).

Fixpoint receive_loop (fuel : nat) (buf : list Z) (st : processor) : receipt :=
  match fuel with
  | O => None
  | S fuel' =>
      if (0 <? length buf)%nat then
        '(n, ec, st) ← consume buf st;
        match ec with
        | Some e => Some ([], Some e, st)
        | None =>
            if ready st then
              '(m, st) ← get_message st;
              prepend (option_list m) (receive_loop fuel' (drop n buf) st)
            else receive_loop fuel' (drop n buf) st
        end
      else Some ([], None, st)
  end.
Definition receive (buf : list Z) (st : processor) : receipt := receive_loop (S (length buf)) buf st.

(** The same messages and error; the same state if the connection goes on. *)
Definition same_receipt (r1 r2 : receipt) : Prop :=
  match r1, r2 with
  | Some (ms1, ec1, st1), Some (ms2, ec2, st2) =>
      ms1 = ms2 /\ ec1 = ec2 /\ (ec1 = None -> st1 = st2)
  | _, _ => False
  end.

(** Between two buffers. *)
Definition waiting (st : processor) : Prop :=
  inv st /\ m_state st <> READY /\ 0 < m_bytes_needed st.

Lemma waiting_new server max : waiting (new_processor server max).
Proof. split; [apply inv_new|]. done. Qed.

Lemma ready_current st : inv st -> m_state st = READY -> payload_ready st.
Proof. intros Hi Hs. pose proof (inv_state _ Hi) as Hst. rewrite Hs in Hst. tauto. Qed.

(** A message that is ready is taken out, and the processor is ready for the
    next frame. *)
Lemma get_message_spec st : inv st -> m_state st = READY -> exists c d m op,
  m_current_msg st = Some c /\ current_metadata st = Some d /\ msg_ptr d = Some m /\
  m_opcode m = Some op /\ message_ok d m /\
  is_control op = is_control (get_opcode (m_basic_header st)) /\
  get_message st = Some (Some m, reset_headers (set_current_metadata (reset_msg d) st)).
Proof.
  intros Hi Hs.
  destruct (inv_current st Hi (ready_current st Hi Hs)) as (c & d & m & op & Hc & Hd & Hm & Ho & Hk & Hmok & Hctl & Hmeta).
  exists c, d, m, op. split_and!; try done.
  unfold get_message, ready. rewrite bool_decide_eq_true_2 by done. simpl. rewrite Hd. simpl.
  rewrite Hm. simpl. rewrite Ho. simpl. f_equal. f_equal. f_equal.
  destruct Hmeta as [_ Hmeta]. destruct (Hmeta m Hm) as [_ (op' & Ho' & Hc')].
  rewrite Ho in Ho'. simplify_eq. unfold set_current_metadata. rewrite Hc, Hc'.
  unfold current_metadata in Hd. rewrite Hc in Hd. simpl in Hd. simplify_eq. by destruct c.
Qed.

Lemma get_message_waiting st : inv st -> m_state st = READY -> exists m st',
  get_message st = Some (Some m, st') /\ waiting st' /\ m_state st' = HEADER_BASIC.
Proof.
  intros Hi Hs. destruct (get_message_spec st Hi Hs) as (c & d & m & op & Hc & Hd & Hm & _ & _ & _ & E).
  do 2 eexists. split; [exact E|]. split; [|done]. split; [|done].
  assert (key_ok (prepared_key d)) as Hk.
  { unfold current_metadata in Hd. rewrite Hc in Hd. simpl in Hd. simplify_eq.
    destruct Hi as [_ _ _ [? _] [? _] _]. by destruct c. }
  destruct Hi as [I1 I2 I3 I4 I5 I6]. unfold set_current_metadata. rewrite Hc.
  destruct c; split; simpl; try done; try (unfold BASIC_HEADER_LENGTH; lia);
    try (by apply metadata_ok_none); apply Forall_replicate; unfold is_byte; lia.
Qed.

Lemma consume_uses buf st n ec st' : waiting st -> Forall is_byte buf -> (0 < length buf)%nat ->
  consume buf st = Some (n, ec, st') -> ec = None -> (0 < n)%nat.
Proof.
  intros (Hi & Hr & Hn) Hb Hl E ->. assert (buf <> []) as Hne by (intros ->; simpl in Hl; lia).
  pose proof (consuming_wants buf st Hi Hr Hne) as Hc. rewrite consume_step in E by done.
  destruct (consume_pass buf st) as [[[m [e|]] s]|] eqn:Ep; [done| |done]. simpl in E.
  assert (0 < m)%nat; [|destruct (consume (drop m buf) s) as [[[]]|]; simplify_eq/=; lia].
  rewrite pass_absorb in Ep by done. unfold then_finish in Ep.
  destruct (absorb buf st) as [[[k [e|]] s1]|] eqn:Ea; simplify_eq/=.
  assert (m = k) as ->.
  { destruct (0 <? m_bytes_needed s1); [congruence|]. destruct (finish s1) as [[]|]; simplify_eq/=. done. }
  clear Ep E. pose proof (inv_state _ Hi) as Hst. unfold absorb in Ea.
  assert (0 < bytes_available buf st)%nat as Ha by (unfold bytes_available; lia).
  destruct (m_state st) eqn:Hs; try done.
  - unfold copy_basic_header_bytes in Ea.
    replace (m_bytes_needed st =? 0) with false in Ea by lia. repeat case_match; simplify_eq/=; try done; lia.
  - unfold copy_extended_header_bytes in Ea. case_match; simplify_eq/=. done.
  - rewrite (proj2 (Nat.ltb_lt _ _) Ha) in Ea. destruct Hst as [N1 _].
    destruct (available_bound buf st N1) as (A1 & A2 & _).
    destruct (process_inv (take (bytes_available buf st) buf) st Hi Hs) as (? & ? & ? & E' & _ & Hok);
      [by apply Forall_take|rewrite length_take; lia|].
    rewrite Ea in E'. simplify_eq. destruct (Hok eq_refl) as [-> _]. rewrite length_take. lia.
Qed.

(** A message as it is handed over. *)
Definition good_message (m : message) : Prop :=
  exists op, m_opcode m = Some op /\ Forall is_byte (m_payload m) /\
    (is_control op = true -> (length (m_payload m) <= 125)%nat).

Lemma get_message_good st m st' : inv st -> m_state st = READY -> get_message st = Some (Some m, st') ->
  good_message m.
Proof.
  intros Hi Hs E. destruct (get_message_spec st Hi Hs) as (c & d & m' & op & Hc & Hd & Hm & Ho & Hok & Hctl & E').
  rewrite E in E'. simplify_eq. destruct Hok as (op' & Ho' & Hb & _).
  exists op. split; [done|]. split; [done|]. intros Ec.
  pose proof (inv_state _ Hi) as Hst. rewrite Hs in Hst. destruct Hst as [Hn (c' & d' & mm & Hc' & Hd' & Hm' & Hh & Hsmall)].
  rewrite Hc in Hc'. rewrite Hd in Hd'. simplify_eq.
  rewrite Ec, Hh in Hctl. destruct c'; [done|]. specialize (Hsmall eq_refl). lia.
Qed.

(** The role and the limit of a processor do not change. *)
Definition same_config (st st' : processor) : Prop :=
  m_server st' = m_server st /\ m_max_message_size st' = m_max_message_size st.

Lemma set_current_config d st : same_config st (set_current_metadata d st).
Proof. destruct (set_current_fields d st) as (_ & _ & _ & _ & _ & _ & ? & ?). done. Qed.

Lemma begin_payload_config st ec st' : begin_payload st = Some (ec, st') -> same_config st st'.
Proof.
  unfold begin_payload. intros E. repeat case_match; simplify_eq; done.
Qed.

Lemma finalize_config st ec st' : finalize_message st = Some (ec, st') -> same_config st st'.
Proof.
  unfold finalize_message. intros E.
  apply bind_Some in E as (d & _ & E). apply bind_Some in E as (m & _ & E).
  cbn [is_enabled andb] in E. match type of E with context [set_current_metadata ?d ?s] =>
    pose proof (set_current_config d s) as Hs end.
  repeat case_match; simplify_eq; done.
Qed.

Lemma process_config buf st n ec st' : process_payload_bytes buf st = Some (n, ec, st') -> same_config st st'.
Proof.
  unfold process_payload_bytes. intros E.
  apply bind_Some in E as (d & _ & E). apply bind_Some in E as (m & _ & E).
  destruct (if get_masked _ then _ else _) as [out key]. cbn [is_enabled andb] in E.
  apply bind_Some in E as (op & _ & E). apply bind_Some in E as ([ok v] & _ & E).
  match type of E with context [set_current_metadata ?d ?s] =>
    pose proof (set_current_config d s) as Hs end.
  destruct ok; simplify_eq; done.
Qed.

Lemma pass_config buf st n ec st' : consume_pass buf st = Some (n, ec, st') -> same_config st st'.
Proof.
  unfold consume_pass. intros E. destruct (m_state st); try (by simplify_eq).
  - unfold copy_basic_header_bytes in E. repeat case_match; by simplify_eq.
  - apply bind_Some in E as ([k st1] & E1 & E).
    assert (same_config st st1) as [H1' H2'].
    { clear E. unfold copy_extended_header_bytes in E1. case_match; by simplify_eq. }
    destruct (0 <? m_bytes_needed st1); [by simplify_eq|].
    apply bind_Some in E as ([ec1 st2] & E2 & E). apply begin_payload_config in E2 as [? ?]. simplify_eq.
    split; congruence.
  - apply bind_Some in E as ([[k ec1] st1] & E1 & E).
    assert (same_config st st1) as [H1' H2'].
    { clear E. case_match; [by eapply process_config|by simplify_eq]. }
    destruct ec1; [by simplify_eq|]. case_match; [by simplify_eq|]. case_match; [|by simplify_eq].
    apply bind_Some in E as ([ec2 st2] & E2 & E). apply finalize_config in E2 as [? ?]. simplify_eq.
    split; congruence.
Qed.

Lemma consume_loop_config fuel : forall buf st n ec st',
  consume_loop fuel buf st = Some (n, ec, st') -> same_config st st'.
Proof.
  induction fuel as [|fuel IH]; intros buf st n ec st' E; [done|]. simpl in E.
  destruct (consuming buf st); [|by simplify_eq].
  destruct (consume_pass buf st) as [[[k ec1] st1]|] eqn:Ep; [|done]. simpl in E.
  apply pass_config in Ep as [? ?]. destruct ec1; [by simplify_eq|].
  destruct (consume_loop fuel _ st1) as [[[k2 ec2] st2]|] eqn:El; [|done]. apply IH in El as [? ?].
  simplify_eq/=. split; congruence.
Qed.

Lemma get_message_config st m st' : get_message st = Some (m, st') -> same_config st st'.
Proof.
  unfold get_message. intros E. case_match; [by simplify_eq|].
  apply bind_Some in E as (d & _ & E). apply bind_Some in E as (r & _ & E).
  apply bind_Some in E as (op & _ & E). pose proof (set_current_config (reset_msg d) st).
  case_match; by simplify_eq.
Qed.

Lemma receive_loop_mono f f' buf st r : (f <= f')%nat ->
  receive_loop f buf st = Some r -> receive_loop f' buf st = Some r.
Proof.
  revert f' buf st r. induction f as [|f IH]; intros [|f'] buf st r Hle; try done; [lia|].
  cbn [receive_loop]. destruct (0 <? length buf)%nat; [|done].
  destruct (consume buf st) as [[[n [e|]] s]|]; [done| |done]. cbn [mbind option_bind].
  destruct (ready s).
  - destruct (get_message s) as [[m s']|]; [|done]. cbn [mbind option_bind].
    destruct (receive_loop f (drop n buf) s') as [r'|] eqn:E; [|done].
    by rewrite (IH f' _ _ _ ltac:(lia) E).
  - intros E. apply IH; [lia|done].
Qed.

Lemma receive_loop_ends f buf st : waiting st -> Forall is_byte buf -> (length buf < f)%nat ->
  exists ms ec st', receive_loop f buf st = Some (ms, ec, st') /\ (ec = None -> waiting st').
Proof.
  revert buf st. induction f as [|f IH]; intros buf st Hw Hb Hf; [lia|]. cbn [receive_loop].
  destruct (Nat.ltb_spec 0 (length buf)) as [Hl|Hl]; [|by do 3 eexists].
  destruct (consume_ends buf st (proj1 Hw) Hb) as (n & ec & s & E & Hn & Hset). rewrite E.
  cbn [mbind option_bind]. destruct ec as [e|]; [by do 3 eexists|].
  pose proof (consume_uses buf st n None s Hw Hb Hl E eq_refl) as Hpos.
  destruct (Hset eq_refl) as [Hi Hcase]. unfold ready.
  assert (Forall is_byte (drop n buf)) as Hb' by by apply Forall_drop.
  assert (length (drop n buf) < f)%nat as Hf' by (rewrite length_drop; lia).
  destruct Hcase as [Hs|(Hneed & _ & Hs)].
  - rewrite bool_decide_eq_true_2 by done.
    destruct (get_message_waiting s Hi Hs) as (m & s' & -> & Hw' & _). cbn [mbind option_bind].
    destruct (IH (drop n buf) s' Hw' Hb' Hf') as (ms & ec & s2 & -> & Hok). by do 3 eexists.
  - rewrite bool_decide_eq_false_2 by done. by apply IH.
Qed.

Lemma receive_fuel f buf st r : waiting st -> Forall is_byte buf ->
  receive_loop f buf st = Some r -> receive buf st = Some r.
Proof.
  intros Hw Hb E.
  destruct (receive_loop_ends (S (length buf)) buf st Hw Hb ltac:(lia)) as (? & ? & ? & E' & _).
  unfold receive. rewrite E'. set (g := S (length buf)) in *. clearbody g.
  apply (receive_loop_mono f (f + g)) in E; [|lia]. apply (receive_loop_mono g (f + g)) in E'; [|lia].
  congruence.
Qed.

Lemma receive_ends buf st : waiting st -> Forall is_byte buf ->
  exists ms ec st', receive buf st = Some (ms, ec, st') /\ (ec = None -> waiting st').
Proof. intros. apply receive_loop_ends; [done|done|lia]. Qed.

Lemma receive_nil st : receive [] st = Some ([], None, st).
Proof. done. Qed.

(** The equation of the loop. *)
Lemma receive_step buf st : waiting st -> Forall is_byte buf -> (0 < length buf)%nat ->
  receive buf st = '(n, ec, st1) ← consume buf st;
    match ec with
    | Some e => Some ([], Some e, st1)
    | None =>
        if ready st1 then '(m, st2) ← get_message st1; prepend (option_list m) (receive (drop n buf) st2)
        else receive (drop n buf) st1
    end.
Proof.
  intros Hw Hb Hl. destruct (receive_ends buf st Hw Hb) as (ms & ec & st' & E & _). rewrite E.
  unfold receive in E. cbn [receive_loop] in E. rewrite (proj2 (Nat.ltb_lt _ _) Hl) in E.
  destruct (consume_ends buf st (proj1 Hw) Hb) as (n & ec1 & s & E1 & Hn & Hset).
  pose proof (consume_uses buf st n ec1 s Hw Hb Hl E1) as Hpos.
  rewrite E1 in E |- *. cbn [mbind option_bind] in *. destruct ec1 as [e|]; [done|].
  specialize (Hpos eq_refl). destruct (Hset eq_refl) as [Hi Hcase]. unfold ready in *.
  assert (Forall is_byte (drop n buf)) as Hb' by by apply Forall_drop.
  destruct Hcase as [Hs|(Hneed & _ & Hs)].
  - rewrite bool_decide_eq_true_2 in * by done.
    destruct (get_message_waiting s Hi Hs) as (m & s' & Em & Hw' & _). rewrite Em in E |- *.
    cbn [mbind option_bind] in *.
    destruct (receive_loop (length buf) (drop n buf) s') as [r|] eqn:Er; [|done].
    apply receive_fuel in Er; [|done|done]. by rewrite Er.
  - rewrite bool_decide_eq_false_2 in * by done. symmetry. by apply receive_fuel in E.
Qed.

Lemma same_receipt_refl r : r <> None -> same_receipt r r.
Proof. by destruct r as [[[]]|]. Qed.

Lemma same_receipt_prepend ms r1 r2 : same_receipt r1 r2 -> same_receipt (prepend ms r1) (prepend ms r2).
Proof.
  destruct r1 as [[[]]|], r2 as [[[]]|]; simpl; try done. by intros (-> & -> & Hst).
Qed.

Lemma same_receipt_trans r1 r2 r3 : same_receipt r1 r2 -> same_receipt r2 r3 -> same_receipt r1 r3.
Proof.
  destruct r1 as [[[]]|], r2 as [[[]]|], r3 as [[[]]|]; simpl; try done.
  intros (-> & -> & H1) (-> & -> & H2). split_and!; try done. intros E. by rewrite H1, H2.
Qed.

Lemma same_receipt_sym r1 r2 : same_receipt r1 r2 -> same_receipt r2 r1.
Proof.
  destruct r1 as [[[]]|], r2 as [[[]]|]; simpl; try done. intros (-> & -> & Hs).
  split_and!; try done. intros E. by rewrite Hs.
Qed.

Lemma prepend_nil r : prepend [] r = r.
Proof. by destruct r as [[[]]|]. Qed.

Lemma prepend_app ms1 ms2 r : prepend ms1 (prepend ms2 r) = prepend (ms1 ++ ms2) r.
Proof. destruct r as [[[]]|]; [|done]. simpl. by rewrite app_assoc. Qed.

(** One receipt after the other. *)
Definition and_then (r : receipt) (k : processor -> receipt) : receipt :=
  '(ms, ec, st) ← r;
  match ec with Some _ => Some (ms, ec, st) | None => prepend ms (k st) end.

Lemma and_then_prepend ms r k : and_then (prepend ms r) k = prepend ms (and_then r k).
Proof.
  destruct r as [[[ms' [e|]] st]|]; [done| |done]. simpl.
  destruct (k st) as [[[]]|]; simpl; by rewrite ?app_assoc.
Qed.

Lemma receive_app b1 b2 st : waiting st -> Forall is_byte (b1 ++ b2) ->
  same_receipt (receive (b1 ++ b2) st) (and_then (receive b1 st) (receive b2)).
Proof.
  remember (length b1) as l eqn:Hl. revert b1 st Hl.
  induction l as [l IH] using lt_wf_ind. intros b1 st -> Hw Hb. pose proof Hb as [Hb1 Hb2]%Forall_app.
  destruct (Nat.ltb_spec 0 (length b1)) as [Hl|Hl].
  2: { assert (b1 = []) as -> by (apply nil_length_inv; lia). rewrite receive_nil.
       cbn [and_then mbind option_bind app]. rewrite prepend_nil. apply same_receipt_refl.
       destruct (receive_ends b2 st Hw Hb2) as (? & ? & ? & -> & _). done. }
  assert (0 < length (b1 ++ b2))%nat as Hl' by (rewrite length_app; lia).
  rewrite (receive_step (b1 ++ b2)), (receive_step b1) by done.
  pose proof (consume_app b1 b2 st (proj1 Hw) Hb) as Hc. unfold continues in Hc.
  destruct (consume_ends b1 st (proj1 Hw) Hb1) as (n & ec & s & E1 & Hn & Hset).
  pose proof (consume_uses b1 st n ec s Hw Hb1 Hl E1) as Hpos. rewrite E1 in Hc |- *.
  cbn [mbind option_bind]. destruct ec as [e|].
  { destruct Hc as (n' & st' & ->). done. }
  specialize (Hpos eq_refl). destruct (Hset eq_refl) as [Hi Hcase]. unfold ready.
  destruct Hcase as [Hs|(Hneed & -> & Hs)].
  - rewrite bool_decide_eq_true_2 in * by done. rewrite Hc. cbn [mbind option_bind].
    rewrite bool_decide_eq_true_2 by done.
    destruct (get_message_waiting s Hi Hs) as (m & s' & -> & Hw' & _). cbn [mbind option_bind].
    rewrite and_then_prepend. apply same_receipt_prepend. rewrite drop_app_le by done.
    apply (IH (length (drop n b1))); [rewrite length_drop; lia|done|done|].
    apply Forall_app. by split; [apply Forall_drop|].
  - rewrite bool_decide_eq_false_2 in * by done. destruct Hc as [_ Hc].
    rewrite drop_ge, receive_nil by done. cbn [and_then mbind option_bind]. rewrite prepend_nil.
    destruct (consume_ends (b1 ++ b2) st (proj1 Hw) Hb) as (k & ec & s' & E & Hk & Hset').
    rewrite E in Hc |- *. cbn [mbind option_bind].
    destruct (decide (b2 = [])) as [->|Hne].
    + rewrite receive_nil. assert (consuming [] s = false) as Hstop.
      { unfold consuming. replace (m_bytes_needed s =? 0) with false by lia. by rewrite andb_false_r. }
      rewrite consume_stop in Hc by done. simpl in Hc. destruct ec; [done|]. destruct Hc as [-> ->].
      rewrite bool_decide_eq_false_2, drop_ge by (done || (rewrite app_nil_r; lia)). done.
    + assert (0 < length b2)%nat by (destruct b2; [done|simpl; lia]).
      assert (waiting s) as Hws by done. rewrite (receive_step b2) by done.
      destruct (consume_ends b2 s Hi Hb2) as (j & ec2 & s2 & E2 & Hj & Hset2).
      rewrite E2 in Hc |- *. cbn [mbind option_bind]. simpl in Hc.
      destruct ec as [e|], ec2 as [e2|]; try done; [by subst|]. destruct Hc as [-> ->].
      rewrite drop_app_add' by done. unfold ready. destruct (Hset2 eq_refl) as [Hi2 [Hr2|(? & ? & Hr2)]].
      * rewrite bool_decide_eq_true_2 by done.
        destruct (get_message_waiting s2 Hi2 Hr2) as (m & s3 & -> & Hw3 & _). cbn [mbind option_bind].
        apply same_receipt_refl.
        destruct (receive_ends (drop j b2) s3 Hw3) as (? & ? & ? & -> & _); [by apply Forall_drop|done].
      * rewrite bool_decide_eq_false_2 by done. apply same_receipt_refl.
        destruct (receive_ends (drop j b2) s2) as (? & ? & ? & -> & _); [done|by apply Forall_drop|done].
Qed.

(** One buffer after the other, until an error. *)
Fixpoint receive_all (bufs : list (list Z)) (st : processor) : receipt :=
  match bufs with
  | [] => Some ([], None, st)
  | buf :: bufs => and_then (receive buf st) (receive_all bufs)
  end.

Lemma receive_all_concat bufs st : waiting st -> Forall (Forall is_byte) bufs ->
  same_receipt (receive_all bufs st) (receive (concat bufs) st).
Proof.
  revert st. induction bufs as [|buf bufs IH]; intros st Hw Hb.
  { by apply same_receipt_refl. }
  apply Forall_cons_1 in Hb as [Hb1 Hb2]. cbn [receive_all concat].
  assert (Forall is_byte (concat bufs)) as Hb' by by apply Forall_concat.
  eapply same_receipt_trans; [|apply same_receipt_sym, receive_app; [done|by apply Forall_app]].
  destruct (receive_ends buf st Hw Hb1) as (ms & ec & st' & -> & Hok). cbn [and_then mbind option_bind].
  destruct ec as [e|]; [done|]. apply same_receipt_prepend. by apply IH; [apply Hok|].
Qed.

(** How a connection's octets are cut into reads does not matter: the
    processor's reads are all defined - no member is read before it is set, no
    pointer is null, no array is left - every read ends, and reading the
    buffers one by one gives the messages, the error and the final state that
    reading their concatenation at once gives. *)
Theorem reads_are_a_stream bufs server max :
  Forall (Forall is_byte) bufs ->
  same_receipt (receive_all bufs (new_processor server max))
    (receive (concat bufs) (new_processor server max)).
Proof. apply receive_all_concat, waiting_new. Qed.

End stream.

Definition stream_example : list (list Z) :=
  [[0x81]; [0x82; 0x37; 0xfa]; [0x21; 0x3d; 0x7f]; []; [0x93; 0x89; 0x80; 1; 2; 3; 4; 0x09]].

(** A masked text "Hi", a ping and the beginning of an unmasked ping. *)
Lemma reads_are_a_stream_witness :
  Forall (Forall is_byte) stream_example /\
  @same_receipt (@receive_all armhf stream_example (new_processor true 32000000))
    (@receive armhf (concat stream_example) (new_processor true 32000000)).
Proof.
  assert (Forall (Forall is_byte) stream_example) as Hb by (unfold stream_example; repeat constructor; octets).
  split; [exact Hb|]. exact (@reads_are_a_stream armhf armhf_laws stream_example true 32000000 Hb).
Defined.

(** What a receipt holds. *)
Definition contents (r : receipt) : option (list (option Z * list Z) * option processor_errors) :=
  match r with
  | Some (ms, ec, _) => Some (map (fun m => (m_opcode m, m_payload m)) ms, ec)
  | None => None
  end.

Example stream_example_received :
  contents (@receive_all armhf (take 5 stream_example) (new_processor true 32000000)) =
    Some ([(Some text, str "Hi"); (Some ping, [])], None) /\
  contents (@receive_all armhf stream_example (new_processor true 32000000)) =
    Some ([(Some text, str "Hi"); (Some ping, [])], None).
Proof. split; vm_compute; reflexivity. Qed.
