(* ===== verification/Hybi13Frames.v ===== *)
(** * Frames and messages

    What a processor is to do with frames by RFC 6455, and that [consume] does
    it, but for two kinds of frame that the specification spells out; and what
    one end prepares the other end receives. *)
From S2P Require Import Prelude Utf8 WsFrame WsFrameProps Hybi13 Hybi13Props Hybi13Stream.
Import frame hybi13.

#[local] Set Default Proof Using "Type*".

(** ** Frames *)
Record wire_frame := WireFrame {
  f_header : basic_header;
  f_key : Z;
  f_payload : list Z }.

Definition f_opcode (f : wire_frame) : Z := get_opcode (f_header f).
Definition f_fin (f : wire_frame) : bool := get_fin (f_header f).
Definition f_len (f : wire_frame) : Z := Z.of_nat (length (f_payload f)).

(** ** The specification

    Between two frames a message may be under way: its opcode, and what has
    come of it. *)
Definition pending : Type := option (Z * list Z).
Definition pending_payload (p : pending) : list Z := match p with Some (_, bs) => bs | None => [] end.
Definition message_opcode (p : pending) (f : wire_frame) : Z :=
  match p with Some (op, _) => op | None => f_opcode f end.

(** RFC 6455, 5.1, 5.2, 5.4 and 5.5. *)
Definition known_opcode (op : Z) : Prop :=
  op = continuation \/ op = text \/ op = binary \/ op = close \/ op = ping \/ op = pong.
Record valid_header (server : bool) (p : pending) (f : wire_frame) : Prop := ValidHeader {
  vh_reserved : get_rsv1 (f_header f) = false /\ get_rsv2 (f_header f) = false /\ get_rsv3 (f_header f) = false;
  vh_opcode : known_opcode (f_opcode f);
  vh_control : is_control (f_opcode f) = true -> f_fin f = true /\ get_basic_size (f_header f) <= 125;
  vh_data : is_control (f_opcode f) = false -> (f_opcode f = continuation <-> p <> None);
  vh_masked : get_masked (f_header f) = server }.

Definition minimal (f : wire_frame) : Prop :=
  (get_basic_size (f_header f) = payload_size_code_16bit -> 125 < f_len f) /\
  (get_basic_size (f_header f) = payload_size_code_64bit -> 65535 < f_len f).

Inductive outcome :=
| Delivers (op : Z) (payload : list Z) (p : pending)
| Continues (p : pending)
| Fails (code : Z).

(** The rules leave two points to their reading: which texts fail, and the close
    code of a length that is not written in the fewest octets. *)
Section rules.
Context (text_fails : pending -> wire_frame -> Prop) (long_length : Z).

Inductive frame_rule (server : bool) (max : Z) (p : pending) (f : wire_frame) : outcome -> Prop :=
| rule_header : ~ valid_header server p f -> frame_rule server max p f (Fails close.protocol_error)
| rule_minimal : valid_header server p f -> ~ minimal f -> frame_rule server max p f (Fails long_length)
| rule_control : valid_header server p f -> minimal f -> is_control (f_opcode f) = true ->
    frame_rule server max p f (Delivers (f_opcode f) (f_payload f) p)
| rule_big : valid_header server p f -> minimal f -> is_control (f_opcode f) = false ->
    max < Z.of_nat (length (pending_payload p ++ f_payload f)) ->
    frame_rule server max p f (Fails close.message_too_big)
| rule_text : valid_header server p f -> minimal f -> is_control (f_opcode f) = false ->
    Z.of_nat (length (pending_payload p ++ f_payload f)) <= max -> text_fails p f ->
    frame_rule server max p f (Fails close.invalid_payload)
| rule_data : valid_header server p f -> minimal f -> is_control (f_opcode f) = false ->
    Z.of_nat (length (pending_payload p ++ f_payload f)) <= max -> ~ text_fails p f ->
    frame_rule server max p f
      (if f_fin f then Delivers (message_opcode p f) (pending_payload p ++ f_payload f) None
       else Continues (Some (message_opcode p f, pending_payload p ++ f_payload f))).

(** A run over frames: the messages delivered, and the close code of the
    failure if there is one. *)
Inductive frames_rule (server : bool) (max : Z) :
    pending -> list wire_frame -> list (Z * list Z) -> option Z -> Prop :=
| rule_end p : frames_rule server max p [] [] None
| rule_fails p f fs code : frame_rule server max p f (Fails code) ->
    frames_rule server max p (f :: fs) [] (Some code)
| rule_continues p f fs p' ms r : frame_rule server max p f (Continues p') ->
    frames_rule server max p' fs ms r -> frames_rule server max p (f :: fs) ms r
| rule_delivers p f fs op payload p' ms r : frame_rule server max p f (Delivers op payload p') ->
    frames_rule server max p' fs ms r ->
    frames_rule server max p (f :: fs) ((op, payload) :: ms) r.

(** The specification is deterministic. *)
Lemma frame_rule_det server max p f o1 o2 :
  frame_rule server max p f o1 -> frame_rule server max p f o2 -> o1 = o2.
Proof. intros H1 H2. destruct H1, H2; try done; try congruence; exfalso; try tauto; lia. Qed.

Lemma frames_rule_det server max p fs ms1 r1 ms2 r2 :
  frames_rule server max p fs ms1 r1 -> frames_rule server max p fs ms2 r2 -> ms1 = ms2 /\ r1 = r2.
Proof.
  intros H1. revert ms2 r2. induction H1 as [|? ? ? ? Hf|? ? ? ? ? ? Hf _ IH|? ? ? ? ? ? ? ? Hf _ IH];
    intros ms2 r2 H2; inversion H2 as [|? ? ? ? Hf'|? ? ? ? ? ? Hf' Hr|? ? ? ? ? ? ? ? Hf' Hr]; subst;
    try done; pose proof (frame_rule_det _ _ _ _ _ _ Hf Hf'); simplify_eq; try done;
    destruct (IH _ _ Hr) as [-> ->]; done.
Qed.
End rules.

(** RFC 6455, 5.6 and 8.1: the text of a message is the beginning of well-formed
    UTF-8, and well formed when the message is at its end. A length that is not
    minimal violates the protocol. *)
Definition text_fails (p : pending) (f : wire_frame) : Prop :=
  message_opcode p f = text /\
  (~ utf8_validator.well_formed_prefix (pending_payload p ++ f_payload f) \/
   (f_fin f = true /\ ~ utf8_validator.well_formed (pending_payload p ++ f_payload f))).
Abbreviation rfc_rule := (frame_rule text_fails close.protocol_error).
Abbreviation rfc_rules := (frames_rule text_fails close.protocol_error).

(** The code departs from them twice: it looks at the end of a text only if the
    message is one frame, and it closes with another code for a length that is
    not minimal. *)
Definition code_text_fails (p : pending) (f : wire_frame) : Prop :=
  message_opcode p f = text /\
  (~ utf8_validator.well_formed_prefix (pending_payload p ++ f_payload f) \/
   (p = None /\ f_fin f = true /\ ~ utf8_validator.well_formed (f_payload f))).
Abbreviation code_rule := (frame_rule code_text_fails close.internal_endpoint_error).
Abbreviation code_rules := (frames_rule code_text_fails close.internal_endpoint_error).

(** The frames on which it departs. *)
Definition ends_inside_character (p : pending) (f : wire_frame) : Prop :=
  p <> None /\ f_fin f = true /\ message_opcode p f = text /\
  utf8_validator.well_formed_prefix (pending_payload p ++ f_payload f) /\
  ~ utf8_validator.well_formed (pending_payload p ++ f_payload f).

(** By the rules, a run over the frames comes to one of them. *)
Inductive departs (server : bool) (max : Z) : pending -> list wire_frame -> Prop :=
| departs_length p f fs : valid_header server p f -> ~ minimal f -> departs server max p (f :: fs)
| departs_text p f fs : valid_header server p f -> minimal f -> is_control (f_opcode f) = false ->
    Z.of_nat (length (pending_payload p ++ f_payload f)) <= max -> ends_inside_character p f ->
    departs server max p (f :: fs)
| departs_continues p f fs p' : rfc_rule server max p f (Continues p') -> departs server max p' fs ->
    departs server max p (f :: fs)
| departs_delivers p f fs op payload p' : rfc_rule server max p f (Delivers op payload p') ->
    departs server max p' fs -> departs server max p (f :: fs).

Lemma well_formed_decided bs : utf8_validator.well_formed bs \/ ~ utf8_validator.well_formed bs.
Proof.
  destruct (decide (Forall is_byte bs)) as [Hb|Hb]; [|right; intros Hw; by apply Hb, utf8_validator.well_formed_octets].
  destruct (utf8_validator.validate_iff bs Hb) as ([] & _ & Hv); [left|right]; [by apply Hv|]. intros Hw. by apply Hv in Hw.
Qed.

Lemma well_formed_prefix_decided bs : utf8_validator.well_formed_prefix bs \/ ~ utf8_validator.well_formed_prefix bs.
Proof.
  destruct (decide (Forall is_byte bs)) as [Hb|Hb].
  - rewrite <-(utf8_validator.decode_prefix bs Hb).
    destruct (utf8_validator.decode bs utf8_validator.new_validator) as [[[] v]|]; [left; by eexists|right; by intros [? ?]..].
  - right. intros [rest Hw]. apply Hb. by apply utf8_validator.well_formed_octets, Forall_app in Hw as [? _].
Qed.

(** On a frame the code goes by the rules or departs from them. *)
Lemma code_rule_rfc server max p f o : code_rule server max p f o ->
  rfc_rule server max p f o \/
  ((exists c, rfc_rule server max p f (Fails c)) /\ forall fs, departs server max p (f :: fs)).
Proof.
  intros [Hv|Hv Hm|Hv Hm Hc|Hv Hm Hc Hb|Hv Hm Hc Hb Ht|Hv Hm Hc Hb Ht].
  - left. by apply rule_header.
  - right. split; [eexists; by apply rule_minimal|]. intros. by apply departs_length.
  - left. by apply rule_control.
  - left. by apply rule_big.
  - left. apply rule_text; try done. destruct Ht as [Eo [?|(-> & Hf & Hw)]]; (split; [done|]); [by left|by right].
  - destruct (well_formed_prefix_decided (pending_payload p ++ f_payload f)) as [Hx|Hx].
    2: { left. apply rule_data; try done. intros [Eo _]. apply Ht. split; [done|by left]. }
    destruct (well_formed_decided (pending_payload p ++ f_payload f)) as [Hw|Hw].
    { left. apply rule_data; try done. by intros [_ [?|[_ ?]]]. }
    destruct (decide (message_opcode p f = text /\ f_fin f = true)) as [[Eo Hf]|Hn].
    2: { left. apply rule_data; try done. intros [Eo [?|[Hf _]]]; [done|]. by apply Hn. }
    right. split; [eexists; apply rule_text; try done; split; [done|by right]|]. intros fs.
    apply departs_text; try done. split_and!; try done. intros ->. apply Ht. split; [done|by right].
Qed.

Lemma code_rules_rfc server max p fs out r : code_rules server max p fs out r ->
  exists out' r', rfc_rules server max p fs out' r' /\ out' `prefix_of` out /\
    (~ departs server max p fs -> out' = out /\ r' = r).
Proof.
  induction 1 as [p|p f fs code Hf|p f fs p' ms r Hf _ (out' & r' & Hr & Hp & Hd)
    |p f fs op payload p' ms r Hf _ (out' & r' & Hr & Hp & Hd)].
  - exists [], None. by repeat constructor.
  - destruct (code_rule_rfc server max p f _ Hf) as [Hf'|[[c Hc] Hdep]].
    + exists [], (Some code). split; [by apply rule_fails|done].
    + exists [], (Some c). split; [by apply rule_fails|]. split; [done|]. intros Hn. by destruct Hn.
  - destruct (code_rule_rfc server max p f _ Hf) as [Hf'|[[c Hc] Hdep]].
    + exists out', r'. split; [by eapply rule_continues|]. split; [done|]. intros Hn. apply Hd. intros Hx. apply Hn.
      by eapply departs_continues.
    + exists [], (Some c). split; [by apply rule_fails|]. split; [apply prefix_nil|]. intros Hn. by destruct Hn.
  - destruct (code_rule_rfc server max p f _ Hf) as [Hf'|[[c Hc] Hdep]].
    + exists ((op, payload) :: out'), r'. split; [by eapply rule_delivers|]. split; [by apply prefix_cons|].
      intros Hn. destruct Hd as [-> ->]; [|done]. intros Hx. apply Hn. by eapply departs_delivers.
    + exists [], (Some c). split; [by apply rule_fails|]. split; [apply prefix_nil|]. intros Hn. by destruct Hn.
Qed.

Lemma departs_next server max p f fs o : departs server max p (f :: fs) -> rfc_rule server max p f o ->
  match o with Continues p' | Delivers _ _ p' => departs server max p' fs | Fails _ => True end.
Proof.
  intros Hd Ho. inversion Hd as [? ? ? Hv Hm|? ? ? Hv Hm Hc Hb (_ & Hf & Eo & _ & Hw)|? ? ? p' Hr Hd'|? ? ? op payload p' Hr Hd'];
    subst.
  - by rewrite (frame_rule_det _ _ _ _ _ _ _ _ Ho (rule_minimal _ _ _ _ _ _ Hv Hm)).
  - assert (text_fails p f) as Ht by (split; [done|by right]).
    by rewrite (frame_rule_det _ _ _ _ _ _ _ _ Ho (rule_text _ _ _ _ _ _ Hv Hm Hc Hb Ht)).
  - by rewrite (frame_rule_det _ _ _ _ _ _ _ _ Ho Hr).
  - by rewrite (frame_rule_det _ _ _ _ _ _ _ _ Ho Hr).
Qed.

(** Without fragments and with minimal lengths the code does not depart. *)
Lemma whole_frames_keep server max fs : Forall (fun f => minimal f /\ f_fin f = true) fs -> ~ departs server max None fs.
Proof.
  intros Hfs Hd. remember None as p eqn:Ep. revert Ep Hfs.
  induction Hd as [p f fs Hv Hm|p f fs Hv Hm Hc Hb (Hp & _)|p f fs p' Hr _ IH|p f fs op payload p' Hr _ IH];
    intros -> [[Hmin Hfin] Hfs]%Forall_cons_1; try done; apply IH; try done;
    inversion Hr; subst; try done; rewrite Hfin in *; simplify_eq; done.
Qed.

(** ** Frames on the wire *)
Section frames.
Context `{MachineLaws}.

Definition wire_payload (f : wire_frame) : list Z :=
  if get_masked (f_header f) then masked (f_key f) 0 (f_payload f) else f_payload f.
Definition wire (f : wire_frame) : list Z :=
  header_octets (f_header f) (f_len f) (f_key f) ++ wire_payload f.

(** Octets that are a frame: the size the header announces is the size of the
    payload. *)
Definition frame_ok (f : wire_frame) : Prop :=
  header_ok (f_header f) /\ 0 <= f_key f < 2 ^ 32 /\ Forall is_byte (f_payload f) /\
  code_fits (get_basic_size (f_header f)) (f_len f) /\
  f_len f < 256 ^ Z.of_nat sizeof_size_t.

(** ** The checks *)
Lemma get_opcode_range h : 0 <= get_opcode h < 16.
Proof.
  unfold get_opcode, BHB0_OPCODE. change 0x0F with (Z.ones 4).
  rewrite Z.land_ones by lia. apply Z.mod_pos_bound. lia.
Qed.

Lemma opcode_checks op : 0 <= op < 16 ->
  (reserved op = false /\ invalid op = false <-> known_opcode op).
Proof.
  intros Hop. unfold reserved, invalid, known_opcode, rsv3, rsv7, control_rsvb, control_rsvf,
    continuation, text, binary, close, ping, pong. lia.
Qed.

Lemma check_none {A} (b : bool) (e : A) r : (if b then Some e else r) = None <-> b = false /\ r = None.
Proof. destruct b; split; [done|by intros [? _]|done|by intros [_ ?]]. Qed.

Lemma validate_basic_iff server p f :
  validate_incoming_basic_header (f_header f) server (negb (bool_decide (is_Some p))) = None <->
  valid_header server p f.
Proof.
  pose proof (opcode_checks _ (get_opcode_range (f_header f))) as Hk.
  unfold validate_incoming_basic_header, is_enabled. rewrite !check_none.
  change (negb false) with true. rewrite orb_true_l, andb_true_r, !andb_false_iff, orb_false_iff.
  rewrite !negb_false_iff, Z.ltb_ge, !Z.eqb_neq, Z.eqb_eq. unfold payload_size_basic.
  assert (bool_decide (is_Some p) = true <-> p <> None) as Hp
    by (destruct p; rewrite bool_decide_eq_true; split; (done || by eexists)).
  assert (negb (bool_decide (is_Some p)) = false <-> p <> None) as Hp'
    by (by rewrite negb_false_iff).
  assert (is_control continuation = false) as Hcont by done.
  split.
  - intros (H1 & H2 & [H3 H4] & H5 & H6 & H7 & H8 & H9 & H10 & H11 & _).
    split; unfold f_opcode, f_fin in *.
    + done.
    + tauto.
    + intros Ec. rewrite Ec in *. destruct H1; [done|]. by destruct H7.
    + intros Ec. rewrite Ec in *. split.
      * intros E. destruct H8 as [H8|H8]; [tauto|done].
      * intros E. destruct H9 as [[H9|H9]|H9]; [apply Hp in E; by destruct (bool_decide _)|done|done].
    + destruct server, (get_masked (f_header f)); try done; naive_solver.
  - intros [(R1 & R2 & R3) Ho Hc Hd Hm]. unfold f_opcode, f_fin in *.
    assert (get_opcode (f_header f) = continuation -> p <> None) as Hd1.
    { intros E. apply Hd; [by rewrite E|done]. }
    destruct (is_control (get_opcode (f_header f))) eqn:Ec.
    + destruct (Hc eq_refl) as [F1 F2].
      assert (get_opcode (f_header f) <> continuation) by congruence.
      splits; try tauto; rewrite Hm; destruct server; tauto.
    + splits; try tauto.
      * destruct (decide (get_opcode (f_header f) = continuation)); [left; tauto|by right].
      * destruct (decide (get_opcode (f_header f) = continuation)); [by right|left; left].
        destruct p; [exfalso; apply n, (Hd eq_refl); done|done].
      * rewrite Hm. destruct server; tauto.
      * rewrite Hm. destruct server; tauto.
Qed.
Lemma validate_basic_code h server new_msg e :
  validate_incoming_basic_header h server new_msg = Some e -> to_ws e = close.protocol_error.
Proof.
  unfold validate_incoming_basic_header. intros Hv.
  repeat (match type of Hv with (if ?b then _ else _) = _ => destruct b end;
    [by simplify_eq|]). done.
Qed.

Lemma validate_extended_iff f e : frame_ok f -> get_payload_size (f_header f) e = f_len f ->
  (validate_incoming_extended_header (f_header f) e = None <-> minimal f) /\
  forall ec, validate_incoming_extended_header (f_header f) e = Some ec ->
    to_ws ec = close.internal_endpoint_error.
Proof.
  intros (_ & _ & _ & _ & Hw) E. unfold validate_incoming_extended_header. rewrite E.
  assert ((sizeof_size_t =? 4)%nat && negb (Z.shiftr (f_len f) 32 =? 0) = false) as H4.
  { destruct (Nat.eqb_spec sizeof_size_t 4) as [E4|]; [|done]. rewrite E4 in Hw.
    change (256 ^ Z.of_nat 4) with (2 ^ 32) in Hw. rewrite andb_true_l.
    apply negb_false_iff, Z.eqb_eq. rewrite Z.shiftr_div_pow2 by lia.
    apply Z.div_small. unfold f_len in *. lia. }
  rewrite H4. unfold minimal, payload_size_basic, payload_size_extended. split.
  - rewrite !check_none, !andb_false_iff, !Z.eqb_neq, !Z.leb_gt.
    destruct (decide (get_basic_size (f_header f) = payload_size_code_16bit));
      destruct (decide (get_basic_size (f_header f) = payload_size_code_64bit)); tauto.
  - intros ec Hv. repeat (match type of Hv with (if ?b then _ else _) = _ => destruct b end;
      [by simplify_eq|]). done.
Qed.

(** ** Between two frames *)
Record between (server : bool) (max : Z) (p : pending) (st : processor) : Prop := Between {
  bt_inv : inv st;
  bt_state : m_state st = HEADER_BASIC;
  bt_needed : m_bytes_needed st = 2;
  bt_server : m_server st = server;
  bt_max : m_max_message_size st = max;
  bt_pending : (m ← msg_ptr (m_data_msg st); op ← m_opcode m; Some (op, m_payload m)) = p }.

Lemma between_new server max : between server max None (new_processor server max).
Proof. split; try done. apply inv_new. Qed.

Lemma between_waiting server max p st : between server max p st -> waiting st.
Proof. intros [Hi Hs Hn _ _ _]. split; [done|]. rewrite Hs, Hn. done. Qed.

Lemma data_opcode st m : inv st -> msg_ptr (m_data_msg st) = Some m ->
  exists op, m_opcode m = Some op /\ is_control op = false.
Proof. intros Hi Hm. destruct (inv_data _ Hi) as [_ Hd]. destruct (Hd m Hm) as [_ Hop]. done. Qed.

Lemma between_some server max p st : between server max p st ->
  is_Some (msg_ptr (m_data_msg st)) <-> is_Some p.
Proof.
  intros [Hi _ _ _ _ Hp]. destruct (msg_ptr (m_data_msg st)) as [m|] eqn:Hm.
  - destruct (data_opcode st m Hi Hm) as (op & Ho & _). cbn [mbind option_bind] in Hp. rewrite Ho in Hp. simpl in Hp. subst.
    split; intros _; by eexists.
  - simpl in Hp. by subst.
Qed.

(** ** The three passes over a frame *)
Lemma pass_header server max p st f rest : between server max p st -> frame_ok f ->
  consume_pass (b0 (f_header f) :: b1 (f_header f) :: rest) st =
  match validate_incoming_basic_header (f_header f) server (negb (bool_decide (is_Some p))) with
  | Some ec => Some (2%nat, Some ec, with_header (f_header f) 0 st)
  | None => Some (2%nat, None,
      with_extended (m_extended_header st) 0 (get_header_len (f_header f) - BASIC_HEADER_LENGTH)
        (with_state HEADER_EXTENDED (with_header (f_header f) 0 st)))
  end.
Proof.
  intros Hb Hf. pose proof (between_some _ _ _ _ Hb) as Hsome.
  destruct Hb as [Hi Hs Hn Hsrv Hmax Hp]. unfold consume_pass. rewrite Hs.
  unfold copy_basic_header_bytes. rewrite Hn.
  change (2 =? 0) with false. change (2 =? 2) with true. cbn iota.
  cbn [with_header m_bytes_needed m_basic_header m_server m_data_msg]. change (0 <? 2 - 2) with false.
  change (2 - 2) with 0. rewrite Hsrv, (bool_decide_ext _ _ Hsome).
  by destruct (f_header f).
Qed.

Lemma pass_extended ext rest st : m_state st = HEADER_EXTENDED -> m_cursor st = 0 ->
  m_bytes_needed st = Z.of_nat (length ext) -> (length ext <= MAX_EXTENDED_HEADER_LENGTH)%nat ->
  consume_pass (ext ++ rest) st =
  '(ec, st') ← begin_payload (with_extended (ext ++ drop (length ext) (m_extended_header st))
      (Z.of_nat (length ext)) 0 st);
  Some (length ext, ec, st').
Proof.
  intros Hs Hc Hn Hl. unfold consume_pass. rewrite Hs. unfold copy_extended_header_bytes.
  assert (bytes_available (ext ++ rest) st = length ext) as ->.
  { unfold bytes_available. rewrite Hn, length_app. lia. }
  rewrite Hc, Hn, Z.add_0_l, take_app_length.
  unfold MAX_EXTENDED_HEADER_LENGTH in *. change (Z.of_nat 12) with 12.
  replace (Z.of_nat (length ext) <=? 12) with true by lia.
  cbn [mbind option_bind]. rewrite Z.sub_diag. cbn [with_extended m_bytes_needed].
  by change (0 <? 0) with false.
Qed.

Lemma process_nil st c d m op : m_current_msg st = Some c -> current_metadata st = Some d ->
  msg_ptr d = Some m -> m_opcode m = Some op ->
  process_payload_bytes [] st = Some (0%nat, None, st).
Proof.
  intros Hc Hd Hm Ho. rewrite (process_spec [] st d m op) by done.
  assert (unmask (m_basic_header st) [] (prepared_key d) = ([], prepared_key d)) as ->
    by (unfold unmask; by case_match).
  assert (check op [] (validator d) = Some (true, validator d)) as -> by (unfold check; by case_match).
  simpl. f_equal. f_equal. unfold received. rewrite app_nil_r.
  assert (MsgMetadata (Some (set_payload (m_payload m) m)) (prepared_key d) (validator d) = d) as ->
    by (destruct d; simpl in *; rewrite Hm; by destruct m).
  rewrite set_current_same by done. unfold with_needed. rewrite Z.sub_0_r. by destruct st.
Qed.

Lemma pass_application buf rest st c d m op : m_state st = APPLICATION ->
  m_bytes_needed st = Z.of_nat (length buf) ->
  m_current_msg st = Some c -> current_metadata st = Some d -> msg_ptr d = Some m -> m_opcode m = Some op ->
  consume_pass (buf ++ rest) st =
  '(n, ec, st) ← process_payload_bytes buf st;
  match ec with
  | Some _ => Some (n, ec, st)
  | None =>
      if 0 <? m_bytes_needed st then Some (n, None, st)
      else if get_fin (m_basic_header st) then '(ec, st) ← finalize_message st; Some (n, ec, st)
      else Some (n, None, reset_headers st)
  end.
Proof.
  intros Hs Hn Hc Hd Hm Ho. unfold consume_pass. rewrite Hs.
  assert (bytes_available (buf ++ rest) st = length buf) as ->.
  { unfold bytes_available. rewrite Hn, length_app. lia. }
  rewrite take_app_length. destruct (Nat.ltb_spec 0 (length buf)) as [|Hl]; [done|].
  assert (buf = []) as -> by (apply nil_length_inv; lia).
  by rewrite (process_nil st c d m op).
Qed.

(** ** A frame is being received *)
Definition data_pending (st : processor) : pending :=
  m ← msg_ptr (m_data_msg st); op ← m_opcode m; Some (op, m_payload m).

(** The header of [f] is read; its payload comes next, behind [pre]. *)
Record receiving (server : bool) (max : Z) (f : wire_frame) (c : current) (op : Z) (pre : list Z)
    (st : processor) : Prop := Receiving {
  rc_inv : inv st;
  rc_state : m_state st = APPLICATION;
  rc_needed : m_bytes_needed st = f_len f;
  rc_header : m_basic_header st = f_header f;
  rc_server : m_server st = server;
  rc_max : m_max_message_size st = max;
  rc_current : m_current_msg st = Some c;
  rc_message : exists d m, current_metadata st = Some d /\ msg_ptr d = Some m /\
    m_opcode m = Some op /\ m_payload m = pre /\
    prepared_key d = prepare_masking_key (if get_masked (f_header f) then f_key f else 0) }.

Definition extension_octets (f : wire_frame) : list Z :=
  size_octets (get_basic_size (f_header f)) (f_len f) ++ key_octets (f_header f) (f_key f).

Lemma wire_eq f :
  wire f = b0 (f_header f) :: b1 (f_header f) :: extension_octets f ++ wire_payload f.
Proof. unfold wire, header_octets, extension_octets. by rewrite <-!app_assoc. Qed.

Lemma length_extension f :
  Z.of_nat (length (extension_octets f)) = get_header_len (f_header f) - BASIC_HEADER_LENGTH.
Proof.
  rewrite <-(length_header_octets (f_header f) (f_len f) (f_key f)).
  unfold header_octets, extension_octets. rewrite (length_app [_; _]).
  unfold BASIC_HEADER_LENGTH. cbn [length]. lia.
Qed.

Lemma wire_payload_octets f : frame_ok f -> Forall is_byte (wire_payload f).
Proof. intros (_ & _ & Hp & _). unfold wire_payload. case_match; [by apply masked_bytes|done]. Qed.

Lemma length_wire_payload f : Z.of_nat (length (wire_payload f)) = f_len f.
Proof. unfold wire_payload, f_len. case_match; [by rewrite length_masked|done]. Qed.

Lemma wire_octets f : frame_ok f -> Forall is_byte (wire f).
Proof.
  intros Hf. rewrite wire_eq. pose proof (wire_payload_octets f Hf). destruct Hf as ([? ?] & _).
  repeat (constructor; [done|]). apply Forall_app. split; [|done].
  apply Forall_app. split; [apply size_octets_bytes|apply key_octets_bytes].
Qed.

Definition opened (f : wire_frame) (st : processor) : processor :=
  with_extended (m_extended_header st) 0 (get_header_len (f_header f) - BASIC_HEADER_LENGTH)
    (with_state HEADER_EXTENDED (with_header (f_header f) 0 st)).

Lemma consume_header server max p st f : between server max p st -> frame_ok f ->
  (valid_header server p f /\
   consume (wire f) st = shifted 2 (consume (extension_octets f ++ wire_payload f) (opened f st)) /\
   inv (opened f st)) \/
  (~ valid_header server p f /\ exists n e st', consume (wire f) st = Some (n, Some e, st') /\
     to_ws e = close.protocol_error).
Proof.
  intros Hb Hf. pose proof (wire_octets f Hf) as Hw. rewrite wire_eq in *.
  pose proof (pass_header server max p st f (extension_octets f ++ wire_payload f) Hb Hf) as Hp.
  pose proof (between_waiting _ _ _ _ Hb) as (Hi & Hr & _).
  pose proof (validate_basic_iff server p f) as Hv.
  set (buf := b0 (f_header f) :: b1 (f_header f) :: extension_octets f ++ wire_payload f) in *.
  assert (consuming buf st = true) as Hc by by apply consuming_wants.
  rewrite consume_step, Hp by done.
  destruct (pass_inv buf st Hi Hc Hw) as (n & ec & st' & E & _ & Hok). rewrite Hp in E.
  destruct (validate_incoming_basic_header _ _ _) eqn:Ev.
  - right. split; [by rewrite <-Hv|]. simpl. do 3 eexists. split; [done|].
    by eapply validate_basic_code.
  - left. split; [by apply Hv|]. simplify_eq. split; [done|]. by apply Hok.
Qed.

Lemma consume_extended st f : inv (opened f st) -> frame_ok f ->
  consume (extension_octets f ++ wire_payload f) (opened f st) =
  '(ec, st') ← begin_payload (with_extended (extension_octets f ++
        drop (length (extension_octets f)) (m_extended_header st))
      (Z.of_nat (length (extension_octets f))) 0 (opened f st));
  match ec with
  | Some _ => Some (length (extension_octets f), ec, st')
  | None => shifted (length (extension_octets f)) (consume (wire_payload f) st')
  end.
Proof.
  intros Hi Hf. pose proof (length_extension f) as Hl.
  pose proof (header_len_bound (f_header f)). unfold BASIC_HEADER_LENGTH in *.
  pose proof (wire_octets f Hf) as Hw. rewrite wire_eq in Hw.
  apply Forall_cons_1 in Hw as [_ Hw]. apply Forall_cons_1 in Hw as [_ Hw].
  assert (consuming (extension_octets f ++ wire_payload f) (opened f st) = true) as Hc.
  { unfold consuming. cbn [opened with_extended m_state with_state m_bytes_needed].
    unfold BASIC_HEADER_LENGTH. rewrite length_app.
    destruct (Nat.ltb_spec 0 (length (extension_octets f) + length (wire_payload f))); [done|].
    by replace (_ - 2 =? 0) with true by lia. }
  rewrite consume_step, pass_extended; try done.
  - change (m_extended_header (opened f st)) with (m_extended_header st).
    destruct (begin_payload _) as [[[e|] st']|]; [done| |done]. cbn [mbind option_bind].
    by rewrite drop_app_length.
  - unfold MAX_EXTENDED_HEADER_LENGTH. lia.
Qed.

(** No size wraps. *)
Definition fits (p : pending) (f : wire_frame) : Prop :=
  Z.of_nat (length (pending_payload p)) + f_len f < 256 ^ Z.of_nat sizeof_size_t.

Definition begun (server : bool) (max : Z) (p : pending) (f : wire_frame)
    (ec : option processor_errors) (st : processor) : Prop :=
  match ec with
  | Some e =>
      (~ minimal f /\ to_ws e = close.internal_endpoint_error) \/
      (minimal f /\ is_control (f_opcode f) = false /\
       max < Z.of_nat (length (pending_payload p ++ f_payload f)) /\ to_ws e = close.message_too_big)
  | None =>
      minimal f /\
      if is_control (f_opcode f)
      then (inv st -> receiving server max f Control (f_opcode f) [] st) /\ data_pending st = p
      else Z.of_nat (length (pending_payload p ++ f_payload f)) <= max /\
           (inv st -> receiving server max f Data (message_opcode p f) (pending_payload p) st)
  end.

Lemma begin_receiving server max p st f cursor : between server max p st -> frame_ok f -> fits p f ->
  exists ec st',
    begin_payload (with_extended (extension_octets f ++
        drop (length (extension_octets f)) (m_extended_header st)) cursor 0 (opened f st)) = Some (ec, st') /\
    begun server max p f ec st'.
Proof.
  intros Hb Hf Hfits. pose proof Hf as (_ & Hk & _ & Hcode & Hw).
  set (e := extension_octets f ++ drop (length (extension_octets f)) (m_extended_header st)).
  assert (get_payload_size (f_header f) e = f_len f) as Hsize.
  { unfold e, extension_octets at 1. rewrite <-app_assoc. by apply get_payload_size_octets. }
  assert (get_masking_key (f_header f) e = if get_masked (f_header f) then f_key f else 0) as Hkey.
  { unfold e, extension_octets at 1. rewrite <-app_assoc. by apply get_masking_key_octets. }
  destruct (validate_extended_iff f e Hf Hsize) as [Hmin Hcode1].
  assert (0 <= f_len f) as Hlen by (unfold f_len; lia).
  assert (size_t (f_len f) = f_len f) as Hst by (apply size_t_small; lia).
  destruct Hb as [Hi Hs Hn Hsrv Hmax Hp]. unfold begin_payload.
  cbn [with_extended opened with_state with_header m_basic_header m_extended_header].
  destruct (validate_incoming_extended_header (f_header f) e) as [ec|].
  { do 2 eexists. split; [done|]. left. split; [|by apply Hcode1]. intros Hm. by apply Hmin in Hm. }
  rewrite Hsize, Hst, Hkey. fold (f_opcode f). unfold begun.
  assert (minimal f) as Hmn by by apply Hmin.
  destruct (is_control (f_opcode f)) eqn:Ec.
  - do 2 eexists. split; [done|]. split; [done|]. split; [|done]. intros Hi'.
    split; try done. by do 2 eexists.
  - cbn [with_needed with_extended opened with_state with_header m_data_msg m_max_message_size]. rewrite Hmax.
    destruct (msg_ptr (m_data_msg st)) as [m|] eqn:Hm.
    + destruct (data_opcode st m Hi Hm) as (op & Ho & _).
      cbn [mbind option_bind] in Hp. rewrite Ho in Hp. simpl in Hp. subst p.
      unfold fits in Hfits. cbn [pending_payload] in *.
      rewrite size_t_small by lia. rewrite length_app, Nat2Z.inj_add. fold (f_len f).
      destruct (Z.ltb_spec max (Z.of_nat (length (m_payload m)) + f_len f)).
      * do 2 eexists. split; [done|]. right. by split_and!.
      * do 2 eexists. split; [done|]. split; [done|].
        split; [done|]. intros Hi'. split; try done.
        by do 2 eexists.
    + simpl in Hp. subst p. cbn [pending_payload message_opcode app]. fold (f_len f).
      destruct (Z.ltb_spec max (f_len f)).
      * do 2 eexists. split; [done|]. by right.
      * do 2 eexists. split; [done|]. split; [done|]. split; [done|].
        intros Hi'. split; try done. by do 2 eexists.
Qed.

(** ** The end of a frame *)
Lemma unmask_wire f : frame_ok f ->
  (unmask (f_header f) (wire_payload f)
     (prepare_masking_key (if get_masked (f_header f) then f_key f else 0))).1 = f_payload f.
Proof.
  intros (_ & Hk & _). unfold unmask, wire_payload. destruct (get_masked (f_header f)); [|done].
  destruct (byte_mask_circ_masked (prepare_masking_key (f_key f)) (f_key f) 0
    (masked (f_key f) 0 (f_payload f)) (prepare_masking_key_prepared _ Hk)) as [-> _].
  apply masked_masked.
Qed.

(** Whether the text of the message, read on with [payload], has not failed. *)
Lemma check_payload d m op payload : message_ok d m -> m_opcode m = Some op -> Forall is_byte payload ->
  exists ok v, check op payload (validator d) = Some (ok, v) /\
    (ok = false <-> op = text /\ ~ utf8_validator.well_formed_prefix (m_payload m ++ payload)) /\
    (ok = true -> op = text -> m_payload m = [] ->
      (utf8_validator.complete v = true <-> utf8_validator.well_formed payload)).
Proof.
  intros (op' & Ho' & Hb & Ht) Ho Hp. assert (op' = op) as -> by congruence. unfold check.
  destruct (Z.eqb_spec op text) as [E|E]; [|do 2 eexists; split; [done|]; split; [split; [done|tauto]|done]].
  destruct (Ht E) as [Hpart Hd].
  destruct (utf8_validator.decode_partial payload (validator d) Hp Hpart) as (ok & v & Ed & _).
  exists ok, v. split; [done|].
  assert (Forall is_byte (m_payload m ++ payload)) as Hb' by by apply Forall_app.
  pose proof (utf8_validator.decode_prefix (m_payload m ++ payload) Hb') as Hpre.
  rewrite utf8_validator.decode_app, Hd in Hpre. cbn [mbind option_bind] in Hpre. rewrite Ed in Hpre. split.
  - rewrite <-Hpre. destruct ok; split; try done.
    + intros [_ Hn]. exfalso. apply Hn. by eexists.
    + intros _. split; [done|]. by intros [? ?].
  - intros -> _ Em. rewrite Em in Hd. injection Hd as Ev. symmetry in Ev.
    rewrite Ev in Ed. destruct (utf8_validator.validate_iff payload Hp) as (ok & Eok & Hok).
    unfold utf8_validator.validate in Eok. rewrite Ed in Eok. simpl in Eok. simplify_eq. done.
Qed.

Definition payload_fails (f : wire_frame) (op : Z) (pre : list Z) : Prop :=
  op = text /\
  (~ utf8_validator.well_formed_prefix (pre ++ f_payload f) \/
   (f_fin f = true /\ f_opcode f = text /\ ~ utf8_validator.well_formed (f_payload f))).

(** The payload is read: either the text is wrong, or the frame is over. *)
Definition frame_over (f : wire_frame) (c : current) (op : Z) (pre : list Z) (st st' : processor) : Prop :=
  exists d m,
    m_opcode m = Some op /\ m_payload m = pre ++ f_payload f /\ msg_ptr d = Some m /\
    let st1 := with_needed 0 (set_current_metadata d st) in
    st' = if f_fin f then with_state READY st1 else reset_headers st1.

Lemma consume_payload server max f c op pre st : receiving server max f c op pre st -> frame_ok f ->
  (f_opcode f = text -> op = text /\ pre = []) ->
  (payload_fails f op pre /\
   exists n e st', consume (wire_payload f) st = Some (n, Some e, st') /\ to_ws e = close.invalid_payload) \/
  (~ payload_fails f op pre /\
   exists n st', consume (wire_payload f) st = Some (n, None, st') /\ n = length (wire_payload f) /\
     inv st' /\ frame_over f c op pre st st').
Proof.
  intros [Hi Hs Hn Hh Hsrv Hmax Hc (d & m & Hd & Hm & Ho & Hpre & Hkey)] Hf Htext.
  pose proof (wire_payload_octets f Hf) as Hw. pose proof Hf as (_ & _ & Hb & _).
  pose proof (length_wire_payload f) as Hl.
  assert (consuming (wire_payload f) st = true) as Hcons.
  { unfold consuming. rewrite Hs, Hn. destruct (Nat.ltb_spec 0 (length (wire_payload f))); [done|].
    by replace (f_len f =? 0) with true by lia. }
  destruct (pass_inv (wire_payload f) st Hi Hcons Hw) as (n0 & ec0 & st0 & Ep & Hn0 & Hok).
  pose proof (pass_application (wire_payload f) [] st c d m op Hs ltac:(lia) Hc Hd Hm Ho) as Epass.
  rewrite app_nil_r in Epass. rewrite consume_step, Epass by done. rewrite Epass in Ep. clear Epass.
  rewrite (process_spec _ st d m op) in Ep |- * by done.
  rewrite Hh, Hkey in *. pose proof (unmask_wire f Hf) as Hu.
  destruct (unmask (f_header f) (wire_payload f) _) as [out key]. cbn [fst] in Hu. subst out.
  assert (message_ok d m) as Hmok.
  { destruct (inv_current st Hi) as (c' & d' & m' & op' & Hc' & Hd' & Hm' & _ & _ & Hmok & _).
    - pose proof (inv_state _ Hi) as Hst. rewrite Hs in Hst. tauto.
    - by simplify_eq. }
  destruct (check_payload d m op (f_payload f) Hmok Ho Hb) as (ok & v & Ec & Hbad & Hcomp).
  rewrite Ec in Ep |- *. cbn [mbind option_bind] in *. rewrite Hpre in *.
  destruct ok; [|left; split; [destruct Hbad as [Hbad _]; destruct (Hbad eq_refl); split; auto|by do 3 eexists]].
  cbn [mbind option_bind] in *.
  set (d' := received d m (f_payload f) key v) in *.
  fold (f_len f) in Ep |- *. rewrite Hn, Z.sub_diag in Ep |- *. cbn [with_needed m_bytes_needed m_basic_header] in *.
  change (0 <? 0) with false in *. cbn iota in *.
  destruct (set_current_fields d' st) as (Fh & _ & _ & Fc & _). rewrite ?Fh, ?Hh in Ep |- *.
  fold (f_fin f) in *.
  assert (~ (op = text /\ ~ utf8_validator.well_formed_prefix (pre ++ f_payload f))) as Hgood
    by (intros Hx; by apply Hbad in Hx).
  assert (frame_over f c op pre st (if f_fin f then with_state READY (with_needed 0 (set_current_metadata d' st))
    else reset_headers (with_needed 0 (set_current_metadata d' st)))) as Hover.
  { exists d', (set_payload (m_payload m ++ f_payload f) m). split_and!; try done. simpl. by rewrite Hpre. }
  assert (drop (length (f_payload f)) (wire_payload f) = []) as Hdrop
    by (apply drop_ge; unfold f_len in Hl; lia).
  destruct (f_fin f) eqn:Hfin.
  - rewrite (finalize_spec _ d' (set_payload (m_payload m ++ f_payload f) m)) in Ep |- *
      by (done || (rewrite current_with_needed; by eapply current_set)).
    cbn [with_needed m_basic_header] in *. rewrite ?Fh, ?Hh in Ep |- *. fold (f_opcode f) in *.
    change (validator d') with v in *.
    destruct ((f_opcode f =? text) && negb (utf8_validator.complete v)) eqn:Eb; cbn [mbind option_bind] in *.
    + left. apply andb_true_iff in Eb as [Et%Z.eqb_eq Ev%negb_true_iff].
      destruct (Htext Et) as [-> ->]. split; [|by do 3 eexists]. split; [done|]. right.
      split_and!; try done. rewrite <-(Hcomp eq_refl eq_refl eq_refl). congruence.
    + right. split.
      * intros [Et [Hx|(_ & Eo & Hx)]]; [by apply Hgood|]. rewrite Eo in Eb. simpl in Eb.
        destruct (Htext Eo) as [_ ->]. rewrite <-(Hcomp eq_refl Et eq_refl) in Hx.
        apply negb_false_iff in Eb. congruence.
      * injection Ep as <- <- <-. destruct (Hok eq_refl) as [Hi0 _]. rewrite Hdrop, consume_stop by done.
        do 2 eexists. split; [simpl; rewrite Nat.add_0_r; reflexivity|]. split_and!; [|done|done].
        unfold f_len in Hl. lia.
  - right. split; [intros [Et [Hx|(Hx & _)]]; [by apply Hgood|congruence]|].
    cbn [mbind option_bind] in *. injection Ep as <- <- <-. destruct (Hok eq_refl) as [Hi0 _]. rewrite Hdrop, consume_stop by done.
    do 2 eexists. split; [simpl; rewrite Nat.add_0_r; reflexivity|]. split_and!; [|done|done].
    unfold f_len in Hl. lia.
Qed.

Lemma frame_delivered server max f c op pre st st' : receiving server max f c op pre st -> inv st' ->
  frame_over f c op pre st st' -> f_fin f = true -> exists m st'',
  get_message st' = Some (Some m, st'') /\ m_opcode m = Some op /\ m_payload m = pre ++ f_payload f /\
  between server max (match c with Control => data_pending st | Data => None end) st''.
Proof.
  intros [Hi Hs Hn Hh Hsrv Hmax Hc _] Hi' (d & m & Ho & Hp & Hm & E) Hf. rewrite Hf in E.
  assert (m_state st' = READY) as Hs' by by rewrite E.
  assert (m_current_msg st' = Some c) as Hc'.
  { rewrite E. unfold set_current_metadata. rewrite Hc. by destruct c. }
  assert (current_metadata st' = Some d) as Hd'.
  { transitivity (current_metadata (set_current_metadata d st)); [by rewrite E|by eapply current_set]. }
  destruct (get_message_spec st' Hi' Hs') as (c1 & d1 & m1 & op1 & Ec & Ed & Em & Eo & _ & _ & Eg).
  destruct (get_message_waiting st' Hi' Hs') as (m2 & st2 & Eg2 & (Hi2 & _) & Hs2).
  rewrite Eg in Eg2. rewrite Hd' in Ed. simplify_eq. do 2 eexists. split; [exact Eg|].
  split; [done|]. split; [done|]. cbn zeta in E.
  split; try done; unfold set_current_metadata; simpl; rewrite ?Hc'; destruct c; rewrite ?E; unfold set_current_metadata; simpl; by rewrite ?Hc.
Qed.

Lemma frame_continued server max f op pre st st' : receiving server max f Data op pre st -> inv st' ->
  frame_over f Data op pre st st' -> f_fin f = false ->
  m_state st' <> READY /\ between server max (Some (op, pre ++ f_payload f)) st'.
Proof.
  intros [Hi Hs Hn Hh Hsrv Hmax Hc _] Hi' (d & m & Ho & Hp & Hm & E) Hf. rewrite Hf in E.
  cbn zeta in E. subst st'. split; [done|].
  split; try done; unfold set_current_metadata; simpl; rewrite ?Hc; try done.
  simpl. rewrite Hm. simpl. rewrite Ho. simpl. by rewrite Hp.
Qed.

(** What reading a frame gives. *)
Definition frame_received (server : bool) (max : Z) (r : receipt) (o : outcome) : Prop :=
  match o with
  | Fails code => exists e st', r = Some ([], Some e, st') /\ to_ws e = code
  | Continues p' => exists st', r = Some ([], None, st') /\ between server max p' st'
  | Delivers op payload p' => exists m st', r = Some ([m], None, st') /\
      m_opcode m = Some op /\ m_payload m = payload /\ between server max p' st'
  end.

Lemma text_fails_iff p f : (p <> None <-> f_opcode f = continuation) ->
  code_text_fails p f <-> payload_fails f (message_opcode p f) (pending_payload p).
Proof.
  intros Hc. unfold code_text_fails, payload_fails. destruct p as [[op pre]|]; cbn [message_opcode pending_payload].
  - assert (f_opcode f = continuation) as E by by apply Hc. rewrite E.
    split; intros [Ht [Hx|(Hx & Hy & Hz)]]; auto; done.
  - split; intros [Ht [Hx|(? & ? & ?)]]; auto.
Qed.

(** The outcome in the three cases of a frame whose header is in order. *)
Lemma payload_outcome server max f c op pre st n :
  receiving server max f c op pre st -> frame_ok f -> (f_opcode f = text -> op = text /\ pre = []) ->
  (f_fin f = false -> c = Data) ->
  (payload_fails f op pre /\ exists k e st', shifted n (consume (wire_payload f) st) = Some (k, Some e, st') /\
     to_ws e = close.invalid_payload) \/
  (~ payload_fails f op pre /\ exists st', shifted n (consume (wire_payload f) st) =
       Some ((n + length (wire_payload f))%nat, None, st') /\ inv st' /\ frame_over f c op pre st st').
Proof.
  intros Hr Hf Ht Hc.
  destruct (consume_payload server max f c op pre st Hr Hf Ht) as
    [(Hbad & k & e & st' & -> & He)|(Hgood & k & st' & -> & -> & Hi' & Hover)]; [left|right];
    (split; [done|]).
  - by do 3 eexists.
  - by eexists.
Qed.

(** The state in which the payload begins is one of the invariant. *)
Lemma begun_inv f st st1 : inv (opened f st) -> frame_ok f ->
  begin_payload (with_extended (extension_octets f ++ drop (length (extension_octets f)) (m_extended_header st))
    (Z.of_nat (length (extension_octets f))) 0 (opened f st)) = Some (None, st1) -> inv st1.
Proof.
  intros Hi1 Hf Eb. pose proof (length_extension f) as Hl. pose proof (header_len_bound (f_header f)) as Hh.
  unfold BASIC_HEADER_LENGTH in *.
  pose proof (wire_octets f Hf) as Hw. rewrite wire_eq in Hw.
  apply Forall_cons_1 in Hw as [_ Hw]. apply Forall_cons_1 in Hw as [_ Hw].
  assert (consume_pass (extension_octets f ++ wire_payload f) (opened f st) =
    Some (length (extension_octets f), None, st1)) as Ep.
  { rewrite pass_extended; try done; [|unfold MAX_EXTENDED_HEADER_LENGTH; lia].
    change (m_extended_header (opened f st)) with (m_extended_header st). by rewrite Eb. }
  destruct (pass_inv (extension_octets f ++ wire_payload f) (opened f st) Hi1) as (? & ? & ? & Ep' & _ & Hok);
    [|done|].
  - unfold consuming. cbn [opened with_extended m_state with_state m_bytes_needed].
    unfold BASIC_HEADER_LENGTH. rewrite length_app.
    destruct (Nat.ltb_spec 0 (length (extension_octets f) + length (wire_payload f))); [done|].
    by replace (_ - 2 =? 0) with true by lia.
  - rewrite Ep in Ep'. injection Ep' as <- <- <-. by apply Hok.
Qed.

Lemma consume_frame server max p st f : between server max p st -> frame_ok f -> fits p f ->
  exists o, code_rule server max p f o /\
  match o with
  | Fails code => exists n e st', consume (wire f) st = Some (n, Some e, st') /\ to_ws e = code
  | _ => exists c op pre st1 st', consume (wire f) st = Some (length (wire f), None, st') /\ inv st' /\
      receiving server max f c op pre st1 /\ frame_over f c op pre st1 st' /\
      o = (if f_fin f then
             Delivers op (pre ++ f_payload f) (match c with Control => data_pending st1 | Data => None end)
           else Continues (Some (op, pre ++ f_payload f))) /\ (f_fin f = false -> c = Data)
  end.
Proof.
  intros Hb Hf Hfits.
  destruct (consume_header server max p st f Hb Hf) as [(Hv & E & Hi1)|(Hv & n & e & st' & E & He)].
  2: { exists (Fails close.protocol_error). split; [by constructor|]. by do 3 eexists. }
  rewrite consume_extended in E by done.
  destruct (begin_receiving server max p st f (Z.of_nat (length (extension_octets f))) Hb Hf Hfits)
    as (ec & st1 & Eb & Hbegun). rewrite Eb in E. cbn [mbind option_bind] in E.
  destruct ec as [e|].
  { destruct Hbegun as [[Hm He]|(Hm & Hc & Hbig & He)].
    - exists (Fails close.internal_endpoint_error). split; [by constructor|]. rewrite E. by do 3 eexists.
    - exists (Fails close.message_too_big). split; [by constructor|]. rewrite E. by do 3 eexists. }
  destruct Hbegun as [Hm Hbegun].
  assert (inv st1) as Hi2 by (by eapply begun_inv).
  rewrite shifted_shifted in E.
  assert (length (wire f) = 2 + length (extension_octets f) + length (wire_payload f))%nat as Hlen
    by (rewrite wire_eq; simpl; rewrite length_app; lia).
  pose proof Hv as [_ _ Hvc Hvd _].
  destruct (is_control (f_opcode f)) eqn:Ec.
  - destruct Hbegun as [Hr Hp]. specialize (Hr Hi2). destruct (Hvc eq_refl) as [Hfin _].
    assert (f_opcode f = text -> f_opcode f = text /\ @nil Z = []) as Ht by done.
    assert (f_opcode f <> text) as Hnt by (intros Ex; by rewrite Ex in Ec).
    destruct (payload_outcome server max f Control (f_opcode f) [] st1
      (2 + length (extension_octets f)) Hr Hf Ht ltac:(congruence))
      as [([Hx _] & _)|(_ & st' & E' & Hi' & Hover)]; [done|].
    exists (Delivers (f_opcode f) (f_payload f) p). split; [by constructor|].
    exists Control, (f_opcode f), [], st1, st'. rewrite Hfin, Hp, E, E', Hlen. by split_and!.
  - destruct Hbegun as [Hsize Hr]. specialize (Hr Hi2). specialize (Hvd eq_refl).
    assert (f_opcode f = text -> message_opcode p f = text /\ pending_payload p = []) as Ht.
    { intros Ex. destruct p as [[]|]; [|done]. exfalso.
      assert (f_opcode f = continuation) as Ey by by apply Hvd. by rewrite Ex in Ey. }
    assert (code_text_fails p f <-> payload_fails f (message_opcode p f) (pending_payload p)) as Htf
      by (apply text_fails_iff; tauto).
    destruct (payload_outcome server max f Data (message_opcode p f) (pending_payload p) st1
      (2 + length (extension_octets f)) Hr Hf Ht ltac:(done))
      as [(Hx & k & e & st' & E' & He)|(Hx & st' & E' & Hi' & Hover)]; rewrite E' in E.
    + exists (Fails close.invalid_payload). split; [by apply rule_text; [..|apply Htf]|].
      by do 3 eexists.
    + eexists. split; [apply rule_data; try done; by rewrite Htf|].
      destruct (f_fin f) eqn:Hfin; exists Data, (message_opcode p f), (pending_payload p), st1, st';
        rewrite E, Hlen; by split_and!.
Qed.

Lemma receive_wire server max p st f : between server max p st -> frame_ok f -> fits p f ->
  exists o, code_rule server max p f o /\ frame_received server max (receive (wire f) st) o.
Proof.
  intros Hb Hf Hfits. destruct (consume_frame server max p st f Hb Hf Hfits) as (o & Hrule & Ho).
  exists o. split; [done|].
  assert (0 < length (wire f))%nat by (rewrite wire_eq; simpl; lia).
  rewrite receive_step by (done || (by eapply between_waiting) || (by apply wire_octets)).
  assert (forall c op pre st1 st', inv st' -> receiving server max f c op pre st1 ->
    frame_over f c op pre st1 st' -> (f_fin f = false -> c = Data) ->
    frame_received server max
      (if ready st' then '(m, st2) ← get_message st'; prepend (option_list m) (receive (drop (length (wire f)) (wire f)) st2)
       else receive (drop (length (wire f)) (wire f)) st')
      (if f_fin f then
             Delivers op (pre ++ f_payload f) (match c with Control => data_pending st1 | Data => None end)
           else Continues (Some (op, pre ++ f_payload f)))) as Hend.
  { intros c op pre st1 st' Hi' Hr Hover Hc. rewrite drop_all. unfold ready.
    destruct (f_fin f) eqn:Hfin.
    - assert (m_state st' = READY) as Hs' by (destruct Hover as (? & ? & _ & _ & _ & ->); by rewrite Hfin).
      rewrite bool_decide_eq_true_2 by done.
      destruct (frame_delivered _ _ _ _ _ _ _ _ Hr Hi' Hover Hfin) as (m & st2 & -> & Hm & Hp & Hb2).
      by do 2 eexists.
    - rewrite (Hc eq_refl) in *. destruct (frame_continued _ _ _ _ _ _ _ Hr Hi' Hover Hfin) as [Hs' Hb2].
      rewrite bool_decide_eq_false_2 by done. by eexists. }
  destruct o as [op payload p'|p'|code].
  - destruct Ho as (c & op' & pre & st1 & st' & -> & Hi' & Hr & Hover & Eo & Hc).
    rewrite Eo. by apply Hend.
  - destruct Ho as (c & op' & pre & st1 & st' & -> & Hi' & Hr & Hover & Eo & Hc).
    rewrite Eo. by apply Hend.
  - destruct Ho as (n & e & st' & -> & He). by do 2 eexists.
Qed.

(** ** Many frames *)
Definition wires (fs : list wire_frame) : list Z := concat (map wire fs).

Definition message_contents (m : message) : option Z * list Z := (m_opcode m, m_payload m).
Definition rule_contents (x : Z * list Z) : option Z * list Z := (Some x.1, x.2).

Lemma wires_octets fs : Forall frame_ok fs -> Forall is_byte (wires fs).
Proof. intros Hfs. apply Forall_concat, Forall_map. eapply Forall_impl; [done|apply wire_octets]. Qed.

Lemma frame_len_wire f : f_len f <= Z.of_nat (length (wire f)).
Proof. rewrite wire_eq. simpl. rewrite length_app, <-(length_wire_payload f). lia. Qed.

Lemma rule_pending server max p f o : code_rule server max p f o ->
  match o with
  | Delivers _ _ p' | Continues p' =>
      Z.of_nat (length (pending_payload p')) <= Z.of_nat (length (pending_payload p)) + f_len f
  | Fails _ => True
  end.
Proof.
  intros Hr. assert (0 <= f_len f) by (unfold f_len; lia).
  destruct Hr; try done; [lia|]. destruct (f_fin f); cbn [pending_payload length]; [lia|].
  rewrite length_app, Nat2Z.inj_add. fold (f_len f). lia.
Qed.

Lemma receive_frames server max fs : forall p st,
  between server max p st -> Forall frame_ok fs ->
  Z.of_nat (length (pending_payload p)) + Z.of_nat (length (wires fs)) < 256 ^ Z.of_nat sizeof_size_t ->
  exists ms ec st' out, receive (wires fs) st = Some (ms, ec, st') /\
    map message_contents ms = map rule_contents out /\ code_rules server max p fs out (to_ws <$> ec).
Proof.
  induction fs as [|f fs IH]; intros p st Hb Hfs Hlen.
  { exists [], None, st, []. split_and!; [done|done|constructor]. }
  apply Forall_cons_1 in Hfs as [Hf Hfs]. unfold wires in Hlen. cbn [map concat] in Hlen.
  fold (wires fs) in Hlen. rewrite length_app, Nat2Z.inj_add in Hlen. pose proof (frame_len_wire f) as Hfl.
  destruct (receive_wire server max p st f Hb Hf) as (o & Hrule & Ho); [unfold fits; lia|].
  pose proof (rule_pending _ _ _ _ _ Hrule) as Hp.
  assert (waiting st) as Hw by by eapply between_waiting.
  assert (Forall is_byte (wire f ++ wires fs)) as Hbytes
    by (apply Forall_app; split; [by apply wire_octets|by apply wires_octets]).
  pose proof (receive_app (wire f) (wires fs) st Hw Hbytes) as Happ. change (wire f ++ wires fs) with (wires (f :: fs)) in *.
  destruct o as [op payload p'|p'|code]; cbn [frame_received] in Ho.
  - destruct Ho as (m & st' & E & Hm & Hpl & Hb'). rewrite E in Happ.
    destruct (IH p' st' Hb' Hfs) as (ms & ec & st2 & out & E2 & Hout & Hrun); [lia|].
    cbn [and_then mbind option_bind] in Happ. rewrite E2 in Happ.
    destruct (receive (wires (f :: fs)) st) as [[[ms' ec'] st3]|]; [|done].
    destruct Happ as (-> & -> & _). do 4 eexists. split; [done|].
    split; [|by eapply rule_delivers]. simpl. rewrite Hout.
    change ((op, payload) :: out) with ((op, payload) :: out). unfold message_contents at 1. by rewrite Hm, Hpl.
  - destruct Ho as (st' & E & Hb'). rewrite E in Happ.
    destruct (IH p' st' Hb' Hfs) as (ms & ec & st2 & out & E2 & Hout & Hrun); [lia|].
    cbn [and_then mbind option_bind] in Happ. rewrite E2 in Happ.
    destruct (receive (wires (f :: fs)) st) as [[[ms' ec'] st3]|]; [|done].
    destruct Happ as (-> & -> & _). do 4 eexists. split; [done|].
    split; [exact Hout|by eapply rule_continues].
  - destruct Ho as (e & st' & E & He). rewrite E in Happ. cbn [and_then mbind option_bind] in Happ.
    destruct (receive (wires (f :: fs)) st) as [[[ms' ec'] st3]|]; [|done].
    destruct Happ as (-> & -> & _). exists [], (Some e), st3, []. split_and!; [done|done|].
    simpl. rewrite He. by constructor.
Qed.

(** C25. The processor and the rules of RFC 6455.  Frames of any shape, cut into
    reads in any way: the run of the rules over them is unique, and what it
    delivers the processor delivers, in order, with the payloads unmasked and
    the fragments joined.  Unless the run comes to one of the two kinds of frame
    on which the code departs from the rules ([departs]), the processor delivers
    nothing else, and fails if the rules do and with their close code. The two
    kinds are a length that is not minimal, which the code answers with 1011,
    and the last fragment of a text that ends inside a character, which it
    delivers. *)
Theorem processor_follows_frame_rules server max fs bufs :
  Forall frame_ok fs -> Forall (Forall is_byte) bufs -> concat bufs = wires fs ->
  Z.of_nat (length (concat bufs)) < 256 ^ Z.of_nat sizeof_size_t ->
  exists ms ec st out r,
    receive_all bufs (new_processor server max) = Some (ms, ec, st) /\
    rfc_rules server max None fs out r /\
    (forall out' r', rfc_rules server max None fs out' r' -> out' = out /\ r' = r) /\
    map rule_contents out `prefix_of` map message_contents ms /\
    (~ departs server max None fs ->
       map message_contents ms = map rule_contents out /\ to_ws <$> ec = r).
Proof.
  intros Hfs Hbufs E Hlen.
  destruct (receive_frames server max fs None (new_processor server max)) as
    (ms & ec & st & out & Er & Hout & Hrun); [apply between_new|done|rewrite <-E; simpl; lia|].
  pose proof (receive_all_concat bufs _ (waiting_new server max) Hbufs) as Hs. rewrite E, Er in Hs.
  destruct (receive_all bufs (new_processor server max)) as [[[ms' ec'] st']|]; [|done].
  destruct Hs as (-> & -> & _). destruct (code_rules_rfc _ _ _ _ _ _ Hrun) as (out' & r & Hr & [rest ->] & Hd).
  exists ms, ec, st', out', r. split; [done|]. split; [done|]. split; [|split].
  - intros out2 r2 H2. by eapply frames_rule_det.
  - rewrite Hout, map_app. by apply prefix_app_r.
  - intros Hn. destruct (Hd Hn) as [E1 ->]. split; [|done]. by rewrite Hout, <-E1.
Qed.

End frames.

(** A text in two masked fragments with a ping in between. *)
Definition frames_example : list wire_frame :=
  [WireFrame (BasicHeader 0x01 0x82) 0x04030201 (str "Hi"); WireFrame (BasicHeader 0x89 0x80) 0 [];
   WireFrame (BasicHeader 0x80 0x83) 0xffffffff (str " yo")].

Lemma frames_example_ok : Forall (@frame_ok armhf) frames_example.
Proof.
  unfold frames_example. repeat apply Forall_cons_2; [..|constructor];
    (split; [unfold header_ok, is_byte; simpl; lia|]); (split; [simpl; lia|]); (split; [octets|]);
    (split; [split; [vm_compute; discriminate|vm_compute; reflexivity]|vm_compute; reflexivity]).
Qed.

Lemma text_validates bs : utf8_validator.validate bs = Some true -> forallb (fun b => (0 <=? b) && (b <? 256)) bs = true ->
  utf8_validator.well_formed bs.
Proof.
  intros Ev Hb. assert (Forall is_byte bs) as Hbytes.
  { apply Forall_forall. intros b Hin%list_elem_of_In. rewrite forallb_forall in Hb. specialize (Hb b Hin). unfold is_byte. lia. }
  destruct (utf8_validator.validate_iff bs Hbytes) as (ok & E & Hok). apply Hok. congruence.
Qed.

Ltac example_header := split; [done|unfold known_opcode; vm_compute; tauto|by vm_compute|by vm_compute|done].

Lemma frames_example_rules :
  rfc_rules true 32000000 None frames_example [(ping, []); (text, str "Hi yo")] None /\
  ~ departs true 32000000 None frames_example.
Proof.
  set (fs := frames_example).
  assert (utf8_validator.well_formed (str "Hi")) as H1 by (by apply text_validates).
  assert (utf8_validator.well_formed (str "Hi yo")) as H2 by (by apply text_validates).
  assert (rfc_rule true 32000000 None (WireFrame (BasicHeader 0x01 0x82) 0x04030201 (str "Hi"))
    (Continues (Some (text, str "Hi")))) as R1.
  { apply (rule_data _ _ true 32000000 None (WireFrame (BasicHeader 0x01 0x82) 0x04030201 (str "Hi")));
      [example_header|by split|done|by vm_compute|].
    intros [_ [Hp|[Hf _]]]; [|done]. apply Hp. exists []. by rewrite app_nil_r. }
  assert (rfc_rule true 32000000 (Some (text, str "Hi")) (WireFrame (BasicHeader 0x89 0x80) 0 [])
    (Delivers ping [] (Some (text, str "Hi")))) as R2.
  { apply (rule_control _ _ true 32000000 (Some (text, str "Hi")) (WireFrame (BasicHeader 0x89 0x80) 0 []));
      [example_header|by split|done]. }
  assert (rfc_rule true 32000000 (Some (text, str "Hi")) (WireFrame (BasicHeader 0x80 0x83) 0xffffffff (str " yo"))
    (Delivers text (str "Hi yo") None)) as R3.
  { apply (rule_data _ _ true 32000000 (Some (text, str "Hi")) (WireFrame (BasicHeader 0x80 0x83) 0xffffffff (str " yo")));
      [example_header|by split|done|by vm_compute|].
    intros [_ [Hp|[_ Hw]]]; [|done]. apply Hp. exists []. by rewrite app_nil_r. }
  split.
  - eapply rule_continues; [exact R1|]. eapply rule_delivers; [exact R2|]. eapply rule_delivers; [exact R3|]. constructor.
  - intros Hd. apply (departs_next _ _ _ _ _ _ Hd) in R1 as Hd1. apply (departs_next _ _ _ _ _ _ Hd1) in R2 as Hd2.
    apply (departs_next _ _ _ _ _ _ Hd2) in R3 as Hd3. by inversion Hd3.
Qed.

Lemma processor_follows_frame_rules_witness :
  exists ms ec st,
    @receive_all armhf [@wires armhf frames_example] (new_processor true 32000000) = Some (ms, ec, st) /\
    map message_contents ms = [(Some ping, []); (Some text, str "Hi yo")].
Proof.
  destruct (@processor_follows_frame_rules armhf armhf_laws true 32000000 frames_example
    [@wires armhf frames_example] frames_example_ok) as (ms & ec & st & out & r & E & Hr & Hu & Hp & Hd).
  - constructor; [|constructor]. apply (@wires_octets armhf armhf_laws), frames_example_ok.
  - exact (app_nil_r (@wires armhf frames_example)).
  - vm_compute. reflexivity.
  - exists ms, ec, st. split; [exact E|]. destruct frames_example_rules as [Hrun Hn].
    destruct (Hu _ _ Hrun) as [E1 _]. destruct (Hd Hn) as [E2 _]. rewrite E2, <-E1. reflexivity.
Defined.

Example frames_example_received :
  contents (@receive armhf (@wires armhf frames_example) (new_processor true 32000000)) =
  Some ([(Some ping, []); (Some text, str "Hi yo")], None).
Proof. vm_compute. reflexivity. Qed.

(** ** Where the code differs from the RFC *)

(** A text that ends inside a character is delivered when it comes in two
    frames, and refused in one. *)
Lemma truncated_text_delivered :
  contents (@receive armhf [0x01; 0x81; 0; 0; 0; 0; 0xe2; 0x80; 0x80; 0; 0; 0; 0] (new_processor true 32000000)) =
    Some ([(Some text, [0xe2])], None) /\
  contents (@receive armhf [0x81; 0x81; 0; 0; 0; 0; 0xe2] (new_processor true 32000000)) =
    Some ([], Some invalid_utf8).
Proof. split; vm_compute; reflexivity. Qed.

(** The test of the message size is in [size_t] and wraps: behind a fragment of
    five octets a continuation frame of 2^32 - 1 octets passes a limit of 16,
    and the processor of the rover sets out to collect it. *)
Lemma size_limit_bypassed :
  match @receive armhf ([0x02; 0x85; 0; 0; 0; 0] ++ str "hello" ++
          [0x80; 0xff; 0; 0; 0; 0; 0xff; 0xff; 0xff; 0xff; 0; 0; 0; 0]) (new_processor true 16) with
  | Some (ms, ec, st) => ms = [] /\ ec = None /\ m_state st = APPLICATION /\ m_bytes_needed st = 2 ^ 32 - 1
  | None => False
  end.
Proof. vm_compute. auto. Qed.

(** A size that could be written shorter is a violation of the protocol (1002),
    but is answered as an internal error (1011). *)
Lemma non_minimal_is_internal :
  contents (@receive armhf [0x82; 0xfe; 0; 5; 0; 0; 0; 0] (new_processor true 32000000)) =
    Some ([], Some non_minimal_encoding) /\
  to_ws non_minimal_encoding = close.internal_endpoint_error.
Proof. split; vm_compute; reflexivity. Qed.
