(* ===== verification/Hybi13Wire.v ===== *)
(** * What one end sends the other end receives

    The messages that [prepare_data_frame], [prepare_ping], [prepare_pong] and
    [prepare_close] turn into frames are the messages that the processor of
    the other end delivers. *)
From S2P Require Import Prelude Utf8 WsFrame WsFrameProps Hybi13 Hybi13Props Hybi13Stream Hybi13Frames.
Import frame hybi13.

#[local] Set Default Proof Using "Type*".

(** ** Requests *)
Inductive request :=
| SendData (op : Z) (payload : list Z)
| SendPing (payload : list Z)
| SendPong (payload : list Z)
| SendClose (code : Z) (reason : list Z).

Section wire.
Context `{MachineLaws}.

(** As [connection::send], [ping], [pong] and [send_close_frame] call the
    processor: with new messages. *)
Definition prepare (rng : Z) (st : processor) (r : request) :
    option (option processor_errors * option message) :=
  match r with
  | SendData op payload =>
      prepare_data_frame rng st
        (Some (append_payload payload (get_new_message_op op (Z.of_nat (length payload)))))
        (Some get_new_message)
  | SendPing payload => Some (prepare_ping rng st payload (Some get_new_message))
  | SendPong payload => Some (prepare_pong rng st payload (Some get_new_message))
  | SendClose code reason => Some (prepare_close rng st code reason (Some get_new_message))
  end.

(** What is written: the header, then the payload. *)
Definition octets_of (m : message) : list Z := m_header m ++ m_payload m.

(** What the other end is to deliver. *)
Definition close_payload (code : Z) (reason : list Z) : list Z :=
  if code =? close.no_status then [] else [code / 256; code mod 256] ++ reason.
Definition request_contents (r : request) : Z * list Z :=
  match r with
  | SendData op payload => (op, payload)
  | SendPing payload => (ping, payload)
  | SendPong payload => (pong, payload)
  | SendClose code reason => (frame.close, close_payload code reason)
  end.

Definition sendable (r : request) : Prop :=
  match r with
  | SendData op payload =>
      (op = text /\ utf8_validator.well_formed payload) \/ (op = binary /\ Forall is_byte payload)
  | SendPing payload | SendPong payload => Forall is_byte payload /\ (length payload <= 125)%nat
  | SendClose code reason =>
      Forall is_byte reason /\ (length reason <= 123)%nat /\ close.reserved code = false /\
      ((close.invalid code = false) \/ (code = close.no_status /\ reason = []))
  end.

(** ** The frame of a prepared message *)
Definition prepared_frame (server : bool) (op key : Z) (payload : list Z) : wire_frame :=
  WireFrame (make_basic_header op (Z.of_nat (length payload)) true (negb server) false false false)
    (u32 key) payload.

Definition small (payload : list Z) : Prop :=
  Z.of_nat (length payload) < 256 ^ Z.of_nat sizeof_size_t.

Lemma small_64 payload : small payload -> Z.of_nat (length payload) < 2 ^ 64.
Proof.
  unfold small. intros Hs. eapply Z.lt_le_trans; [exact Hs|]. rewrite pow256.
  apply Z.pow_le_mono_r; [lia|]. pose proof word_size. lia.
Qed.

Lemma u32_byte_mask key bs : byte_mask bs (u32 key) 0 = masked (u32 key) 0 bs.
Proof. apply byte_mask_masked. Qed.

(** The header and the masked payload are the frame on the wire. *)
Lemma prepared_wire server op key payload : 0 <= op < 16 -> small payload ->
  let h := make_basic_header op (Z.of_nat (length payload)) true (negb server) false false false in
  prepare_header h (if negb server then make_masked_extended_header (Z.of_nat (length payload)) (u32 key)
                    else make_extended_header (Z.of_nat (length payload))) ++
  (if negb server then masked_copy payload (u32 key) else payload) =
  wire (prepared_frame server op key payload).
Proof.
  intros Hop Hs h. pose proof (small_64 _ Hs).
  unfold h. rewrite prepare_header_octets by lia. unfold wire, prepared_frame, f_len, wire_payload.
  cbn [f_header f_payload f_key].
  destruct (make_basic_header_spec op (Z.of_nat (length payload)) true (negb server) false false false Hop
    ltac:(lia)) as (_ & _ & _ & _ & _ & -> & _).
  f_equal. destruct (negb server); [|done]. apply byte_mask_masked.
Qed.

Lemma prepared_frame_ok server op key payload : 0 <= op < 16 -> small payload -> Forall is_byte payload ->
  frame_ok (prepared_frame server op key payload).
Proof.
  intros Hop Hs Hb. pose proof (small_64 _ Hs).
  destruct (make_basic_header_spec op (Z.of_nat (length payload)) true (negb server) false false false Hop
    ltac:(lia)) as (_ & _ & _ & _ & _ & _ & Hcode & H0' & H1').
  split; [done|]. split; [apply wrap_bound; lia|]. split; [done|].
  unfold f_len. cbn [prepared_frame f_header f_payload]. rewrite Hcode. split; [apply size_code_fits; lia|done].
Qed.

(** The rules deliver it at the other end. *)
Lemma prepared_rule server max op key payload : 0 <= op < 16 ->
  Forall is_byte payload -> small payload ->
  op = text /\ utf8_validator.well_formed payload \/ op = binary \/
    (op = frame.close \/ op = ping \/ op = pong) /\ (length payload <= 125)%nat ->
  Z.of_nat (length payload) <= max ->
  code_rule (negb server) max None (prepared_frame server op key payload) (Delivers op payload None).
Proof.
  intros Hop Hb Hs Hcase Hmax. pose proof (small_64 _ Hs).
  set (f := prepared_frame server op key payload).
  destruct (make_basic_header_spec op (Z.of_nat (length payload)) true (negb server) false false false Hop
    ltac:(lia)) as (Hfin & R1 & R2 & R3 & Ho & Hm & Hcode & _).
  assert (f_opcode f = op) as Eo by done. assert (f_fin f = true) as Ef by done.
  assert (valid_header (negb server) None f) as Hv.
  { split; try done.
    - unfold known_opcode. rewrite Eo. tauto.
    - rewrite Eo. intros Hc. split; [done|]. unfold f. cbn [prepared_frame f_header]. rewrite Hcode.
      destruct Hcase as [[-> _]|[->|[_ Hl]]]; [done|done|]. unfold size_code, payload_size_basic.
      case_match; lia.
    - rewrite Eo. intros Hc. split; [|done]. intros ->. exfalso.
      destruct Hcase as [[? _]|[?|[[?|[?|?]] _]]]; done. }
  assert (minimal f) as Hmin.
  { unfold minimal, f, f_len. cbn [prepared_frame f_header f_payload]. rewrite Hcode. unfold size_code,
      payload_size_basic, payload_size_extended, payload_size_code_16bit, payload_size_code_64bit.
    repeat case_match; lia. }
  destruct (is_control op) eqn:Ec.
  - assert (Delivers op payload None = Delivers (f_opcode f) (f_payload f) None) as -> by by rewrite Eo.
    apply rule_control; try done. by rewrite Eo.
  - pose proof (rule_data code_text_fails close.internal_endpoint_error (negb server) max None f Hv Hmin) as Hr. rewrite Ef in Hr.
    cbn [message_opcode pending_payload app] in Hr. rewrite Eo in Hr. apply Hr; try done.
    intros [Ht Hbad]. cbn [message_opcode pending_payload app] in *. rewrite Eo in Ht.
    destruct Hcase as [[_ Hw]|[->|[[->|[->| ->]] _]]]; try done.
    destruct Hbad as [Hbad|(_ & _ & Hbad)]; [|done].
    apply Hbad. exists []. by rewrite app_nil_r.
Qed.

(** ** Close frames *)
Lemma htons_octets code : 0 <= code < 65536 -> union_c 2 (htons code) = [code / 256; code mod 256].
Proof.
  intros Hc. assert (is_byte (code / 256) /\ is_byte (code mod 256)) as [Ha Hb].
  { unfold is_byte. split; [|apply Z.mod_pos_bound; lia].
    split; [apply Z.div_pos; lia|apply Z.div_lt_upper_bound; lia]. }
  assert (Forall is_byte [code / 256; code mod 256]) as Hf by (constructor; [done|by constructor]).
  pose proof (union_c_i _ Hf) as E1. rewrite <-E1. cbn [length]. f_equal.
  pose proof (Z.div_mod code 256 ltac:(lia)) as Ed. unfold htons, union_i.
  destruct little_endian.
  - replace (__bswap_16 code) with (__bswap_16 (code mod 256 + 256 * (code / 256))) by (f_equal; lia).
    rewrite bswap_16_spec by done. cbn [le_value]. lia.
  - cbn [reverse rev_append le_value]. unfold reverse. simpl. lia.
Qed.

(** ** Preparing *)
Lemma request_ok r : sendable r ->
  let '(op, payload) := request_contents r in
  0 <= op < 16 /\ Forall is_byte payload /\
  (op = text /\ utf8_validator.well_formed payload \/ op = binary \/
    (op = frame.close \/ op = ping \/ op = pong) /\ (length payload <= 125)%nat).
Proof.
  destruct r as [op payload|payload|payload|code reason]; cbn [sendable request_contents].
  - intros [[-> Hw]|[-> Hb]]; (split; [done|]); split; auto. by apply utf8_validator.well_formed_octets.
  - intros [Hb Hl]. split; [done|]. split; [done|]. tauto.
  - intros [Hb Hl]. split; [done|]. split; [done|]. tauto.
  - intros (Hb & Hl & Hr & Hi). split; [done|]. unfold close_payload.
    destruct (Z.eqb_spec code close.no_status) as [E|E]; [split; [constructor|]; right; right; simpl; split; [auto|lia]|].
    destruct Hi as [Hi|[? _]]; [|done].
    assert (1000 <= code < 5000) as Hrange.
    { unfold close.invalid, close.invalid_low, close.invalid_high in Hi. lia. }
    split.
    + apply Forall_app. split; [|done]. unfold is_byte. constructor; [|constructor; [apply Z.mod_pos_bound; lia|done]].
      split; [apply Z.div_pos; lia|apply Z.div_lt_upper_bound; lia].
    + right. right. rewrite length_app. cbn [length]. split; [auto|lia].
Qed.

Lemma prepare_control_wire rng st op payload : 0 <= op < 16 -> is_control op = true ->
  (length payload <= 125)%nat -> small payload ->
  exists out, prepare_control rng st op payload (Some get_new_message) = (None, Some out) /\
    octets_of out = wire (prepared_frame (m_server st) op rng payload).
Proof.
  intros Hop Hc Hl Hs. unfold prepare_control. rewrite Hc. simpl negb. cbn iota. unfold payload_size_basic.
  replace (125 <? Z.of_nat (length payload)) with false by lia. eexists. split; [reflexivity|].
  unfold octets_of. cbn [m_header m_payload set_prepared set_opcode set_payload set_header].
  by apply prepared_wire.
Qed.

Lemma prepare_wire rng st r : sendable r -> small (request_contents r).2 ->
  exists out key, prepare rng st r = Some (None, Some out) /\
    octets_of out = wire (prepared_frame (m_server st) (request_contents r).1 key (request_contents r).2).
Proof.
  intros Hr Hs. pose proof (request_ok r Hr) as Hok.
  destruct r as [op payload|payload|payload|code reason];
    cbn [request_contents fst snd] in *; destruct Hok as (Hop & Hb & Hcase).
  - assert (is_control op = false) as Hc by (destruct Hr as [[-> _]|[-> _]]; done).
    unfold prepare, prepare_data_frame. cbn [m_opcode append_payload set_payload get_new_message_op m_payload app mbind option_bind].
    rewrite Hc.
    assert ((if op =? text then utf8_validator.validate payload else Some true) = Some true) as ->.
    { destruct (Z.eqb_spec op text) as [->|]; [|done]. destruct Hr as [[_ Hw]|[? _]]; [|done].
      destruct (utf8_validator.validate_iff payload Hb) as (ok & -> & Hiff). f_equal. by apply Hiff. }
    cbn [mbind option_bind negb]. unfold is_enabled. cbn [andb m_fin].
    destruct (m_server st) eqn:Esrv; cbn [negb].
    + exists (set_opcode op (set_prepared true (set_header (prepare_header
        (make_basic_header op (Z.of_nat (length payload)) true false false false false)
        (make_extended_header (Z.of_nat (length payload)))) (set_payload payload get_new_message)))), 0.
      split; [done|]. unfold octets_of. cbn [m_header m_payload set_prepared set_opcode set_payload set_header].
      exact (prepared_wire true op 0 payload Hop Hs).
    + assert (length (masked_copy payload (u32 rng)) = length payload) as Hlen
        by (unfold masked_copy; by rewrite byte_mask_masked, length_masked).
      rewrite Hlen. eexists _, rng. split; [done|]. unfold octets_of.
      cbn [m_header m_payload set_prepared set_opcode set_payload set_header].
      exact (prepared_wire false op rng payload Hop Hs).
  - destruct Hr as [_ Hl]. destruct (prepare_control_wire rng st ping payload) as (out & E & Ew); try done.
    exists out, rng. split; [|done]. unfold prepare, prepare_ping. by rewrite E.
  - destruct Hr as [_ Hl]. destruct (prepare_control_wire rng st pong payload) as (out & E & Ew); try done.
    exists out, rng. split; [|done]. unfold prepare, prepare_pong. by rewrite E.
  - destruct Hr as (Hbr & Hlr & Hres & Hinv).
    destruct (prepare_control_wire rng st frame.close (close_payload code reason)) as (out & E & Ew); try done.
    { destruct Hcase as [[? _]|[?|[_ Hl]]]; done. }
    exists out, rng. split; [|done]. unfold prepare, prepare_close. rewrite Hres.
    assert (close.invalid code && negb (code =? close.no_status) = false) as ->.
    { destruct Hinv as [->|[-> _]]; [done|]. by rewrite andb_false_r. }
    assert ((code =? close.no_status) && (0 <? length reason)%nat = false) as ->.
    { destruct Hinv as [Hinv|[_ ->]]; [|by rewrite andb_false_r].
      destruct (Z.eqb_spec code close.no_status) as [Ec|]; [|done]. by rewrite Ec in Hinv. }
    unfold payload_size_basic. replace (125 - 2 <? Z.of_nat (length reason)) with false by lia.
    rewrite <-E. unfold close_payload. destruct (Z.eqb_spec code close.no_status) as [|Ec]; [done|]. cbn [negb].
    destruct Hinv as [Hinv|[? _]]; [|done].
    rewrite htons_octets; [done|]. unfold close.invalid, close.invalid_low, close.invalid_high in Hinv. lia.
Qed.

(** What the receiver of a close frame makes of it. *)
Lemma close_payload_read code reason : sendable (SendClose code reason) ->
  close.extract_code (close_payload code reason) = (code, None) /\
  exists ec, close.extract_reason (close_payload code reason) = Some (reason, ec) /\
    (ec = None <-> utf8_validator.well_formed reason).
Proof.
  intros (Hb & Hl & Hres & Hinv). unfold close_payload.
  assert (exists ec, (ok ← utf8_validator.validate reason;
    Some (reason, if (ok : bool) then None else Some ep_invalid_utf8)) = Some (reason, ec) /\
    (ec = None <-> utf8_validator.well_formed reason)) as Hreason.
  { destruct (utf8_validator.validate_iff reason Hb) as (ok & -> & Hok). eexists. split; [reflexivity|].
    rewrite <-Hok. by destruct ok. }
  destruct (Z.eqb_spec code close.no_status) as [->|E].
  { destruct Hinv as [?|[_ ->]]; [done|]. split; [done|]. exact Hreason. }
  destruct Hinv as [Hinv|[? _]]; [|done].
  assert (1000 <= code < 5000) as Hrange.
  { unfold close.invalid, close.invalid_low, close.invalid_high in Hinv. lia. }
  assert (is_byte (code / 256) /\ is_byte (code mod 256)) as [Hx Hy].
  { unfold is_byte. split; [|apply Z.mod_pos_bound; lia].
    split; [apply Z.div_pos; lia|apply Z.div_lt_upper_bound; lia]. }
  split.
  - cbn [close.extract_code app]. rewrite ntohs_union_i by done.
    pose proof (Z.div_mod code 256 ltac:(lia)) as Ed. rewrite <-Ed, Hinv, Hres. done.
  - unfold close.extract_reason. cbn [app length drop].
    destruct reason as [|x reason]; [exact Hreason|]. exact Hreason.
Qed.

(** ** Many messages *)
Definition goes_through (max : Z) (s : Z * request) : Prop :=
  sendable s.2 /\ Z.of_nat (length (request_contents s.2).2) <= max.
Definition prepared_as (sender : processor) (s : Z * request) (out : message) : Prop :=
  prepare s.1 sender s.2 = Some (None, Some out).

Lemma prepare_sends sender max sends : max < 256 ^ Z.of_nat sizeof_size_t ->
  Forall (goes_through max) sends -> exists outs, Forall2 (prepared_as sender) sends outs.
Proof.
  intros Hmax. induction 1 as [|[rng r] sends [Hr Hl] _ (outs & IH)]; [by exists []|].
  destruct (prepare_wire rng sender r Hr) as (out & key & E & _); [unfold small; simpl in *; lia|].
  exists (out :: outs). by constructor.
Qed.

Lemma receive_sends sender max sends outs : max < 256 ^ Z.of_nat sizeof_size_t ->
  Forall (goes_through max) sends -> Forall2 (prepared_as sender) sends outs ->
  forall st, between (negb (m_server sender)) max None st ->
  Forall is_byte (concat (map octets_of outs)) /\
  exists ms st', receive (concat (map octets_of outs)) st = Some (ms, None, st') /\
    map message_contents ms = map (fun s => rule_contents (request_contents s.2)) sends /\
    between (negb (m_server sender)) max None st'.
Proof.
  intros Hmax Hs Ho. induction Ho as [|[rng r] out sends outs E _ IH]; intros st Hb.
  { split; [constructor|]. by exists [], st. }
  apply Forall_cons_1 in Hs as [[Hr Hl] Hs]. specialize (IH Hs). unfold prepared_as in E. cbn [fst snd] in *.
  assert (small (request_contents r).2) as Hsmall by (unfold small; lia).
  destruct (prepare_wire rng sender r Hr Hsmall) as (out' & key & E' & Ew).
  assert (out' = out) as -> by congruence.
  pose proof (request_ok r Hr) as Hok. destruct (request_contents r) as [op payload] eqn:Er.
  cbn [fst snd] in *. destruct Hok as (Hop & Hbytes & Hcase).
  set (f := prepared_frame (m_server sender) op key payload) in *.
  assert (frame_ok f) as Hf by by apply prepared_frame_ok.
  assert (fits None f) as Hfits by (unfold fits, f_len; simpl; lia).
  destruct (receive_wire _ _ _ _ f Hb Hf Hfits) as (o & Hrule & Hrecv).
  pose proof (prepared_rule (m_server sender) max op key payload Hop Hbytes Hsmall Hcase Hl) as Hrule'.
  rewrite (frame_rule_det _ _ _ _ _ _ _ _ Hrule Hrule') in Hrecv. destruct Hrecv as (m & st' & E1 & Hm & Hp & Hb').
  destruct (IH st' Hb') as (Hoct & ms & st2 & E2 & Hms & Hb2). cbn [map concat]. rewrite Ew.
  assert (Forall is_byte (wire f ++ concat (map octets_of outs))) as Hall
    by (apply Forall_app; split; [by apply wire_octets|done]).
  split; [done|].
  pose proof (receive_app (wire f) (concat (map octets_of outs)) st (between_waiting _ _ _ _ Hb) Hall) as Happ.
  rewrite E1 in Happ. cbn [and_then mbind option_bind] in Happ. rewrite E2 in Happ.
  destruct (receive (wire f ++ _) st) as [[[ms' ec'] st3]|]; [|done].
  destruct Happ as (-> & -> & Hst3). do 2 eexists. split; [done|]. cbn [prepend app map snd].
  rewrite Hms, Er. split; [unfold message_contents at 1; by rewrite Hm, Hp|]. by rewrite Hst3.
Qed.

Lemma Forall_concat_inv {A} (P : A -> Prop) (ls : list (list A)) :
  Forall P (concat ls) -> Forall (Forall P) ls.
Proof.
  induction ls as [|l ls IH]; [constructor|]. cbn [concat]. intros [H1' H2']%Forall_app. constructor; auto.
Qed.

(** C28. What one end sends the other end receives.  Texts, binary data, pings,
    pongs and close frames that may be sent are prepared without an error,
    whatever the random numbers for the masks; and when their octets arrive at
    a processor of the other role, in reads of any sizes, it delivers the same
    messages in the same order, without an error.  A close frame carries its
    code and reason. *)
Theorem sent_messages_arrive sender max sends :
  max < 256 ^ Z.of_nat sizeof_size_t -> Forall (goes_through max) sends ->
  exists outs, Forall2 (prepared_as sender) sends outs /\
    (forall bufs, concat bufs = concat (map octets_of outs) ->
       exists ms st,
         receive_all bufs (new_processor (negb (m_server sender)) max) = Some (ms, None, st) /\
         map message_contents ms = map (fun s => rule_contents (request_contents s.2)) sends) /\
    (forall rng code reason, In (rng, SendClose code reason) sends ->
       close.extract_code (close_payload code reason) = (code, None) /\
       exists ec, close.extract_reason (close_payload code reason) = Some (reason, ec)).
Proof.
  intros Hmax Hs. destruct (prepare_sends sender max sends Hmax Hs) as (outs & Hout).
  exists outs. split; [done|]. split.
  - intros bufs E.
    destruct (receive_sends sender max sends outs Hmax Hs Hout _ (between_new _ _)) as (Hb & ms & st & Er & Hms & _).
    rewrite <-E in *. apply Forall_concat_inv in Hb.
    pose proof (receive_all_concat bufs _ (waiting_new (negb (m_server sender)) max) Hb) as Hsame. rewrite Er in Hsame.
    destruct (receive_all bufs (new_processor (negb (m_server sender)) max)) as [[[ms' ec'] st']|]; [|done].
    destruct Hsame as (-> & -> & _). by do 2 eexists.
  - intros rng code reason Hin.
    assert (sendable (SendClose code reason)) as Hc.
    { rewrite Forall_forall in Hs. apply (Hs (rng, SendClose code reason)). by apply list_elem_of_In. }
    destruct (close_payload_read code reason Hc) as (? & ec & ? & _). split; [done|]. by exists ec.
Qed.

End wire.

Definition wire_example : list (Z * request) :=
  [(0x01020304, SendData text (str "tlm 7")); (5, SendPing [1; 2]); (0xffffffff, SendData binary []);
   (7, SendClose close.normal (str "bye"))].

Lemma sent_messages_arrive_witness :
  Forall (goes_through 125) wire_example /\
  exists outs, Forall2 (@prepared_as armhf (new_processor false 0)) wire_example outs.
Proof.
  assert (Forall (goes_through 125) wire_example) as Hw.
  { apply Forall_cons; split; [split; [|simpl; lia]|].
    { left. split; [reflexivity|]. exists (str "tlm 7"). split; [repeat constructor|reflexivity]. }
    apply Forall_cons; split; [split; [split; [octets|simpl; lia]|simpl; lia]|].
    apply Forall_cons; split; [split; [right; split; [reflexivity|constructor]|simpl; lia]|].
    apply Forall_cons; split; [split; [|simpl; lia]|constructor].
    split; [octets|]. split; [simpl; lia|]. split; [reflexivity|by left]. }
  split; [exact Hw|].
  destruct (@sent_messages_arrive armhf armhf_laws (new_processor false 0) 125 wire_example ltac:(reflexivity) Hw)
    as (outs & Hout & _). by exists outs.
Defined.
