(* ===== verification/WsConnection.v ===== *)
(** * A WebSocket connection: [websocketpp/impl/connection_impl.hpp]

    From the end of the opening handshake on: reading, writing, pings and the
    closing handshake of one connection, with the operations that are under
    way in the transport.  The operations of asio (reading, writing, timers,
    shutdown, posted handlers) are events of a step relation; their results
    are arbitrary.

    The handlers of the endpoint run one at a time on its thread.  [send] is
    called from other threads: it tests the state under one lock and queues
    the message under another, so that it is two events here.  [close] is
    called on the endpoint's thread. *)
From S2P Require Import Prelude Utf8 WsFrame Hybi13.
Import frame hybi13.

(** ** Configuration: config/core.hpp, random/none.hpp *)
Definition timeout_close_handshake : Z := 5000.
Definition drop_on_protocol_error : bool := false.
Definition silent_close : bool := false.
Definition max_message_size : Z := 32000000.
Definition rng : Z := 0.

(** ** Errors: error.hpp, transport/base/connection.hpp, processors/base.hpp *)
Inductive transport_error :=
| t_general | pass_through | invalid_num_bytes | double_read | operation_aborted
| operation_not_supported | eof | tls_short_read | timeout | action_after_shutdown | tls_error.
Inductive error_code :=
| ProcessorError (e : processor_errors)
| EndpointError (e : endpoint_error)
| TransportError (e : transport_error).
#[export] Instance processor_errors_eq_dec : EqDecision processor_errors.
Proof. solve_decision. Defined.
#[export] Instance endpoint_error_eq_dec : EqDecision endpoint_error.
Proof. solve_decision. Defined.
#[export] Instance transport_error_eq_dec : EqDecision transport_error.
Proof. solve_decision. Defined.
#[export] Instance error_code_eq_dec : EqDecision error_code.
Proof. solve_decision. Defined.

Definition processor_message (e : processor_errors) : list Z :=
  str (match e with
  | general => "Generic processor error"
  | bad_request => "invalid user input"
  | protocol_violation => "Generic protocol violation"
  | message_too_big => "A message was too large"
  | invalid_payload => "A payload contained invalid data"
  | invalid_arguments => "invalid function arguments"
  | invalid_opcode => "invalid opcode"
  | control_too_big => "Control messages are limited to fewer than 125 characters"
  | invalid_rsv_bit => "Invalid use of reserved bits"
  | fragmented_control => "Control messages cannot be fragmented"
  | invalid_continuation => "Invalid message continuation"
  | masking_required => "Clients may not send unmasked frames"
  | masking_forbidden => "Servers may not send masked frames"
  | non_minimal_encoding => "Payload length was not minimally encoded"
  | requires_64bit => "64 bit frames are not supported on 32 bit systems"
  | invalid_utf8 => "Invalid UTF8 encoding"
  | invalid_http_method => "Invalid HTTP method."
  | invalid_http_version => "Invalid HTTP version."
  | invalid_http_status => "Invalid HTTP status."
  | missing_required_header => "A required HTTP header is missing"
  | no_protocol_support => "The WebSocket protocol version in use does not support this feature"
  | hybi13.reserved_close_code => "Reserved close code used"
  | hybi13.invalid_close_code => "Invalid close code used"
  | reason_requires_code => "Using a close reason requires a valid close code"
  | subprotocol_parse_error => "Error parsing subprotocol header"
  | extension_parse_error => "Error parsing extension header"
  | extensions_disabled => "Extensions are disabled"
  | short_key3 => "Short Hybi00 Key 3 read"
  end)%string.
Definition endpoint_message (e : endpoint_error) : list Z :=
  str (match e with
  | ep_general => "Generic error"
  | invalid_uri => "invalid uri"
  | no_outgoing_buffers => "no outgoing message buffers"
  | invalid_state => "invalid state"
  | bad_close_code => "Unable to extract close code"
  | Hybi13.reserved_close_code => "Extracted close code is in a reserved range"
  | Hybi13.invalid_close_code => "Extracted close code is in an invalid range"
  | ep_invalid_utf8 => "Invalid UTF-8"
  | bad_connection => "Bad Connection"
  | http_connection_ended => "HTTP connection ended"
  | open_handshake_timeout => "The opening handshake timed out"
  | close_handshake_timeout => "The closing handshake timed out"
  | invalid_port => "Invalid URI port"
  | rejected => "Connection rejected"
  | ep_upgrade_required => "Upgrade required"
  | invalid_version => "Invalid version"
  | unsupported_version => "Unsupported version"
  | http_parse_error => "HTTP parse error"
  end)%string.
Definition transport_message (e : transport_error) : list Z :=
  str (match e with
  | t_general => "Generic transport policy error"
  | pass_through => "Underlying Transport Error"
  | invalid_num_bytes => "async_read_at_least call requested more bytes than buffer can store"
  | operation_aborted => "The operation was aborted"
  | operation_not_supported => "The operation is not supported by this transport"
  | eof => "End of File"
  | tls_short_read => "TLS Short Read"
  | timeout => "Timer Expired"
  | action_after_shutdown => "A transport action was requested after shutdown"
  | tls_error => "Generic TLS related error"
  | double_read => "Unknown"
  end)%string.
Definition message_of (e : error_code) : list Z :=
  match e with
  | ProcessorError e => processor_message e
  | EndpointError e => endpoint_message e
  | TransportError e => transport_message e
  end.

(** ** The class *)
Inductive session_state := connecting | open | closing | closed.
#[export] Instance session_state_eq_dec : EqDecision session_state.
Proof. solve_decision. Defined.
Inductive istate :=
| USER_INIT | TRANSPORT_INIT | READ_HTTP_REQUEST | WRITE_HTTP_REQUEST | READ_HTTP_RESPONSE
| WRITE_HTTP_RESPONSE | PROCESS_HTTP_REQUEST | PROCESS_CONNECTION.
#[export] Instance istate_eq_dec : EqDecision istate.
Proof. solve_decision. Defined.
Inductive terminate_status := t_failed | t_closed | t_unknown.

(** [m_send_buffer] holds the octets of its buffers. *)
Record connection := Connection {
  m_state : session_state;
  m_internal_state : istate;
  m_processor : processor;
  m_is_server : bool;
  m_send_queue : list message;
  m_send_buffer_size : Z;
  m_send_buffer : list Z;
  m_current_msgs : list message;
  m_write_flag : bool;
  m_read_flag : bool;
  m_local_close : Z * list Z;
  m_remote_close : Z * list Z;
  m_ec : option error_code;
  m_was_clean : bool;
  m_handshake_timer : bool }.

(** What a handler asks of the transport and of the application. *)
Inductive action :=
| Post                                 (* dispatch of write_frame *)
| Write (octets : list Z)              (* async_write *)
| Read                                 (* async_read_at_least *)
| SetTimer (duration : Z)              (* close handshake timer *)
| CancelTimer
| Shutdown (tstat : terminate_status)  (* async_shutdown *)
| OnMessage (m : message)              (* m_message_handler *)
| OnClose                              (* m_close_handler *)
| OnFail                               (* m_fail_handler *)
| Pushed (m : message).                (* write_push: a record of the model *)

(** A handler reads and changes the connection and asks for actions; it is
    undefined where the processor is. *)
Definition handler (A : Type) : Type := connection -> option (A * connection * list action).
#[global] Instance handler_ret : MRet handler := fun A a c => Some (a, c, []).
#[global] Instance handler_bind : MBind handler := fun A B k m c =>
  match m c with
  | Some (a, c', l1) =>
      match k a c' with
      | Some (b, c'', l2) => Some (b, c'', l1 ++ l2)
      | None => None
      end
  | None => None
  end.
Definition this : handler connection := fun c => Some (c, c, []).
Definition modify (f : connection -> connection) : handler unit := fun c => Some (tt, f c, []).
Definition act (a : action) : handler unit := fun c => Some (tt, c, [a]).
Definition defined {A} (o : option A) : handler A :=
  fun c => match o with Some a => Some (a, c, []) | None => None end.

(** ** Updates of members *)
Definition set_state (s : session_state) (c : connection) : connection :=
  Connection s (m_internal_state c) (m_processor c) (m_is_server c) (m_send_queue c)
    (m_send_buffer_size c) (m_send_buffer c) (m_current_msgs c) (m_write_flag c) (m_read_flag c)
    (m_local_close c) (m_remote_close c) (m_ec c) (m_was_clean c) (m_handshake_timer c).
Definition set_processor (p : processor) (c : connection) : connection :=
  Connection (m_state c) (m_internal_state c) p (m_is_server c) (m_send_queue c)
    (m_send_buffer_size c) (m_send_buffer c) (m_current_msgs c) (m_write_flag c) (m_read_flag c)
    (m_local_close c) (m_remote_close c) (m_ec c) (m_was_clean c) (m_handshake_timer c).
Definition set_queue (q : list message) (size : Z) (c : connection) : connection :=
  Connection (m_state c) (m_internal_state c) (m_processor c) (m_is_server c) q
    size (m_send_buffer c) (m_current_msgs c) (m_write_flag c) (m_read_flag c)
    (m_local_close c) (m_remote_close c) (m_ec c) (m_was_clean c) (m_handshake_timer c).
Definition set_sending (buffer : list Z) (msgs : list message) (flag : bool) (c : connection) : connection :=
  Connection (m_state c) (m_internal_state c) (m_processor c) (m_is_server c) (m_send_queue c)
    (m_send_buffer_size c) buffer msgs flag (m_read_flag c)
    (m_local_close c) (m_remote_close c) (m_ec c) (m_was_clean c) (m_handshake_timer c).
Definition set_local_close (x : Z * list Z) (c : connection) : connection :=
  Connection (m_state c) (m_internal_state c) (m_processor c) (m_is_server c) (m_send_queue c)
    (m_send_buffer_size c) (m_send_buffer c) (m_current_msgs c) (m_write_flag c) (m_read_flag c)
    x (m_remote_close c) (m_ec c) (m_was_clean c) (m_handshake_timer c).
Definition set_remote_close (x : Z * list Z) (c : connection) : connection :=
  Connection (m_state c) (m_internal_state c) (m_processor c) (m_is_server c) (m_send_queue c)
    (m_send_buffer_size c) (m_send_buffer c) (m_current_msgs c) (m_write_flag c) (m_read_flag c)
    (m_local_close c) x (m_ec c) (m_was_clean c) (m_handshake_timer c).
Definition set_ec (ec : option error_code) (c : connection) : connection :=
  Connection (m_state c) (m_internal_state c) (m_processor c) (m_is_server c) (m_send_queue c)
    (m_send_buffer_size c) (m_send_buffer c) (m_current_msgs c) (m_write_flag c) (m_read_flag c)
    (m_local_close c) (m_remote_close c) ec (m_was_clean c) (m_handshake_timer c).
Definition set_was_clean (b : bool) (c : connection) : connection :=
  Connection (m_state c) (m_internal_state c) (m_processor c) (m_is_server c) (m_send_queue c)
    (m_send_buffer_size c) (m_send_buffer c) (m_current_msgs c) (m_write_flag c) (m_read_flag c)
    (m_local_close c) (m_remote_close c) (m_ec c) b (m_handshake_timer c).
Definition set_handshake_timer (b : bool) (c : connection) : connection :=
  Connection (m_state c) (m_internal_state c) (m_processor c) (m_is_server c) (m_send_queue c)
    (m_send_buffer_size c) (m_send_buffer c) (m_current_msgs c) (m_write_flag c) (m_read_flag c)
    (m_local_close c) (m_remote_close c) (m_ec c) (m_was_clean c) b.
Definition set_read_flag (b : bool) (c : connection) : connection :=
  Connection (m_state c) (m_internal_state c) (m_processor c) (m_is_server c) (m_send_queue c)
    (m_send_buffer_size c) (m_send_buffer c) (m_current_msgs c) (m_write_flag c) b
    (m_local_close c) (m_remote_close c) (m_ec c) (m_was_clean c) (m_handshake_timer c).

Section connection.
Context `{Machine}.

(** [m_ping_handler]; the program sets none. *)
Context (ping_handler : option (list Z -> bool)).

(** The connection when [handle_write_http_response] has opened it: the octets
    behind the request are read first. *)
Definition opened_connection (p_is_server : bool) : connection :=
  Connection open PROCESS_CONNECTION (new_processor p_is_server max_message_size) p_is_server
    [] 0 [] [] false true (close.abnormal_close, []) (close.abnormal_close, []) None false false.

(** ** Writing *)
Definition message_size (msg : message) : Z := Z.of_nat (length (m_payload msg)).

Definition write_push (msg : message) : handler unit :=
  _ ← act (Pushed msg);
  modify (fun c => set_queue (m_send_queue c ++ [msg]) (size_t (m_send_buffer_size c + message_size msg)) c).

Definition write_pop : handler (option message) :=
  c ← this;
  match m_send_queue c with
  | [] => mret None
  | msg :: rest =>
      _ ← modify (set_queue rest (size_t (m_send_buffer_size c - message_size msg)));
      mret (Some msg)
  end.

(** Queue a message and have it written, unless a write is under way. *)
Definition push_message (msg : message) : handler unit :=
  _ ← write_push msg;
  c ← this;
  if negb (m_write_flag c) && (0 <? length (m_send_queue c))%nat then act Post else mret tt.

(** Messages that are ready, up to one marked terminal. *)
Fixpoint write_loop (fuel : nat) (next_message : option message) : handler unit :=
  match fuel, next_message with
  | S fuel', Some msg =>
      _ ← modify (fun c => set_sending (m_send_buffer c) (m_current_msgs c ++ [msg]) (m_write_flag c) c);
      next_message ← (if m_terminal msg then mret None else write_pop);
      write_loop fuel' next_message
  | _, None => mret tt
  | O, Some _ => defined None
  end.

Definition buffers (msgs : list message) : list Z := concat (map (fun m => m_header m ++ m_payload m) msgs).

Definition write_frame : handler unit :=
  c ← this;
  if m_write_flag c then mret tt
  else
    next_message ← write_pop;
    _ ← write_loop (length (m_send_queue c) + 1) next_message;
    c ← this;
    match m_current_msgs c with
    | [] => mret tt
    | msgs =>
        _ ← modify (set_sending (m_send_buffer c ++ buffers msgs) msgs true);
        act (Write (m_send_buffer c ++ buffers msgs))
    end.

(** ** The end *)
Definition terminate (ec : option error_code) : handler unit :=
  c ← this;
  _ ← (if m_handshake_timer c then _ ← act CancelTimer; modify (set_handshake_timer false) else mret tt);
  _ ← (match ec with
       | Some e => modify (fun c => set_local_close (close.abnormal_close, message_of e) (set_ec (Some e) c))
       | None => mret tt
       end);
  if bool_decide (m_state c = connecting) then
    _ ← modify (set_state closed); act (Shutdown t_failed)
  else if negb (bool_decide (m_state c = closed)) then
    _ ← modify (set_state closed); act (Shutdown t_closed)
  else mret tt.

(** The error code is only logged. *)
Definition handle_terminate (tstat : terminate_status) (ec : option error_code) : handler unit :=
  match tstat with t_failed => act OnFail | t_closed => act OnClose | t_unknown => mret tt end.

Definition handle_close_handshake_timeout (ec : option error_code) : handler unit :=
  match ec with
  | Some _ => mret tt
  | None => terminate (Some (EndpointError close_handshake_timeout))
  end.

(** On a connection that is open: the timer of the opening handshake had expired
    when it was cancelled. *)
Definition handle_open_handshake_timeout (ec : option error_code) : handler unit :=
  match ec with
  | Some _ => mret tt
  | None => terminate (Some (EndpointError open_handshake_timeout))
  end.

(** Without a current message [back] is undefined. *)
Definition handle_write_frame (ec : option error_code) : handler unit :=
  c ← this;
  back ← defined (last (m_current_msgs c));
  _ ← modify (fun c => set_sending [] [] (m_write_flag c) c);
  match ec with
  | Some _ => terminate ec
  | None =>
      if m_terminal back then terminate None
      else
        _ ← modify (fun c => set_sending (m_send_buffer c) (m_current_msgs c) false c);
        if (0 <? length (m_send_queue c))%nat then act Post else mret tt
  end.

(** ** Sending *)
Definition new_message (payload : list Z) (op : Z) : message :=
  append_payload payload (get_new_message_op op (Z.of_nat (length payload))).

(** The test of [send], and the rest of it. *)
Definition send_check (c : connection) : option error_code :=
  if bool_decide (m_state c = open) then None else Some (EndpointError invalid_state).

Definition send_push (msg : message) : handler (option error_code) :=
  if m_prepared msg then _ ← push_message msg; mret None
  else
    c ← this;
    '(ec, outgoing_msg) ← defined (prepare_data_frame rng (m_processor c) (Some msg) (Some get_new_message));
    match ec, outgoing_msg with
    | Some e, _ => mret (Some (ProcessorError e))
    | None, Some m => _ ← push_message m; mret None
    | None, None => defined None
    end.

Definition send_message (msg : message) : handler (option error_code) :=
  c ← this;
  match send_check c with Some e => mret (Some e) | None => send_push msg end.

(** The overload for strings marks the message for compression. *)
Definition send_string (payload : list Z) (op : Z) : handler (option error_code) :=
  send_message (set_compressed true (new_message payload op)).
Definition send_data (payload : list Z) (op : Z) : handler (option error_code) :=
  send_message (new_message payload op).

Definition control (prepare : processor -> option processor_errors * option message) :
    handler (option error_code) :=
  c ← this;
  if negb (bool_decide (m_state c = open)) then mret (Some (EndpointError invalid_state))
  else
    match prepare (m_processor c) with
    | (Some e, _) => mret (Some (ProcessorError e))
    | (None, Some msg) => _ ← push_message msg; mret None
    | (None, None) => defined None
    end.

(** No pong timeout handler is set. *)
Definition ping (payload : list Z) : handler (option error_code) :=
  control (fun p => prepare_ping rng p payload (Some get_new_message)).
Definition pong (payload : list Z) : handler (option error_code) :=
  control (fun p => prepare_pong rng p payload (Some get_new_message)).

(** ** Closing *)
Definition local_close (code : Z) (reason : list Z) (ack : bool) (c : connection) : Z * list Z :=
  if silent_close then (close.no_status, [])
  else if negb (code =? close.blank) then (code, reason)
  else if negb ack then (close.no_status, [])
  else if (m_remote_close c).1 =? close.no_status then (close.normal, [])
  else m_remote_close c.

Definition send_close_frame (code : Z) (reason : list Z) (ack terminal : bool) :
    handler (option error_code) :=
  _ ← modify (fun c => set_local_close (local_close code reason ack c) c);
  c ← this;
  match prepare_close rng (m_processor c) (m_local_close c).1 (m_local_close c).2 (Some get_new_message) with
  | (Some e, _) => mret (Some (ProcessorError e))
  | (None, Some msg) =>
      let msg := if terminal then set_terminal true msg else msg in
      _ ← modify (set_state closing);
      _ ← (if ack then modify (set_was_clean true) else mret tt);
      _ ← (if 0 <? timeout_close_handshake
           then _ ← act (SetTimer timeout_close_handshake); modify (set_handshake_timer true)
           else mret tt);
      _ ← push_message msg;
      mret None
  | (None, None) => defined None
  end.

(** The default arguments are [close.blank] and no reason. *)
Definition send_close_ack (code : Z) (reason : list Z) : handler (option error_code) :=
  c ← this; send_close_frame code reason true (m_is_server c).

Definition close_connection (code : Z) (reason : list Z) : handler (option error_code) :=
  let tr := take (Z.to_nat close_reason_size) reason in
  c ← this;
  if negb (bool_decide (m_state c = open)) then mret (Some (EndpointError invalid_state))
  else send_close_frame code tr false (close.terminal code).

(** ** Reading *)
Definition read_frame : handler unit :=
  c ← this; if m_read_flag c then act Read else mret tt.

(** The close frame: the code is stored before it is judged. *)
Definition process_close (payload : list Z) : handler unit :=
  let '(code, ec) := close.extract_code payload in
  _ ← modify (fun c => set_remote_close (code, (m_remote_close c).2) c);
  match ec with
  | Some e =>
      if drop_on_protocol_error then terminate (Some (EndpointError e))
      else _ ← send_close_ack close.protocol_error (str "Invalid close code"); mret tt
  | None =>
      '(reason, ec) ← defined (close.extract_reason payload);
      _ ← modify (fun c => set_remote_close ((m_remote_close c).1, reason) c);
      match ec with
      | Some e =>
          if drop_on_protocol_error then terminate (Some (EndpointError e))
          else _ ← send_close_ack close.protocol_error (str "Invalid close reason"); mret tt
      | None =>
          c ← this;
          if bool_decide (m_state c = open) then _ ← send_close_ack close.blank []; mret tt
          else if bool_decide (m_state c = closing) && negb (m_was_clean c) then
            _ ← modify (set_was_clean true);
            if m_is_server c then terminate None else mret tt
          else mret tt
      end
  end.

Definition process_control_frame (op : Z) (msg : message) : handler unit :=
  c ← this;
  if bool_decide (m_state c = closed) then mret tt
  else if negb (op =? frame.close) && negb (bool_decide (m_state c = open)) then mret tt
  else if op =? frame.ping then
    if match ping_handler with Some f => f (m_payload msg) | None => true end
    then _ ← pong (m_payload msg); mret tt
    else mret tt
  else if op =? frame.pong then mret tt
  else if op =? frame.close then process_close (m_payload msg)
  else mret tt.

Definition dispatch (msg : message) : handler unit :=
  op ← defined (m_opcode msg);
  if negb (is_control op) then
    c ← this;
    if negb (bool_decide (m_state c = open)) then mret tt else act (OnMessage msg)
  else process_control_frame op msg.

(** An error of the processor: the result tells whether reading goes on. *)
Definition consume_failed (e : processor_errors) : handler bool :=
  if drop_on_protocol_error then _ ← terminate (Some (ProcessorError e)); mret false
  else
    close_ec ← close_connection (to_ws e) (processor_message e);
    _ ← (match close_ec with Some _ => terminate close_ec | None => mret tt end);
    mret false.

Fixpoint read_loop (fuel : nat) (buf : list Z) : handler bool :=
  match fuel with
  | O => defined None
  | S fuel' =>
      if (0 <? length buf)%nat then
        c ← this;
        '(n, ec, p) ← defined (consume buf (m_processor c));
        _ ← modify (set_processor p);
        match ec with
        | Some e => consume_failed e
        | None =>
            if ready p then
              '(msg, p) ← defined (get_message p);
              _ ← modify (set_processor p);
              _ ← (match msg with Some msg => dispatch msg | None => mret tt end);
              read_loop fuel' (drop n buf)
            else read_loop fuel' (drop n buf)
        end
      else mret true
  end.

Definition handle_read_frame (ec : option error_code) (buf : list Z) : handler unit :=
  c ← this;
  let ecm :=
    match ec with
    | Some _ => ec
    | None => if bool_decide (m_internal_state c = PROCESS_CONNECTION) then None
              else Some (EndpointError invalid_state)
    end in
  match ecm with
  | Some e =>
      if bool_decide (e = TransportError eof) && bool_decide (m_state c = closed) then mret tt
      else if bool_decide (e = TransportError eof) && bool_decide (m_state c = closing) && negb (m_is_server c)
        then terminate None
      else if bool_decide (e = EndpointError invalid_state) && bool_decide (m_state c = closed) then mret tt
      else terminate ecm
  | None =>
      go ← read_loop (S (length buf)) buf;
      if (go : bool) then read_frame else mret tt
  end.

(** ** Pausing *)
Definition handle_pause_reading : handler unit := modify (set_read_flag false).
Definition handle_resume_reading : handler unit := _ ← modify (set_read_flag true); read_frame.

End connection.
