(* ===== verification/WsSession.v ===== *)
(** * A connection and its transport

    The operations that a connection has under way, and the events: calls of
    [send] from other threads, [close], and completions of operations of the
    transport, in any order.  The world also records what was queued, written,
    read and delivered. *)
From S2P Require Import Prelude Utf8 WsFrame Hybi13 WsConnection.
Import frame hybi13 WsConnection.

Record world := World {
  con : connection;
  posted : nat;                      (* [write_frame] handlers posted *)
  writing : option (list Z);         (* the outstanding [async_write] *)
  reading : nat;                     (* outstanding reads *)
  timers : nat;                      (* timers that run or were cancelled *)
  shutdowns : list terminate_status; (* outstanding shutdowns *)
  senders : list message;            (* calls of [send] past the test *)
  wire_out : list Z;                 (* octets written *)
  input : list Z;                    (* octets read *)
  pushed : list message;             (* messages queued *)
  delivered : list message;          (* calls of the message handler *)
  closes : nat;                      (* calls of the close handler *)
  fails : nat }.                     (* calls of the fail handler *)

Definition with_con (c : connection) (w : world) : world :=
  World c (posted w) (writing w) (reading w) (timers w) (shutdowns w) (senders w) (wire_out w)
    (input w) (pushed w) (delivered w) (closes w) (fails w).
Definition with_posted (n : nat) (w : world) : world :=
  World (con w) n (writing w) (reading w) (timers w) (shutdowns w) (senders w) (wire_out w)
    (input w) (pushed w) (delivered w) (closes w) (fails w).
Definition with_writing (b : option (list Z)) (w : world) : world :=
  World (con w) (posted w) b (reading w) (timers w) (shutdowns w) (senders w) (wire_out w)
    (input w) (pushed w) (delivered w) (closes w) (fails w).
Definition with_reading (n : nat) (w : world) : world :=
  World (con w) (posted w) (writing w) n (timers w) (shutdowns w) (senders w) (wire_out w)
    (input w) (pushed w) (delivered w) (closes w) (fails w).
Definition with_timers (n : nat) (w : world) : world :=
  World (con w) (posted w) (writing w) (reading w) n (shutdowns w) (senders w) (wire_out w)
    (input w) (pushed w) (delivered w) (closes w) (fails w).
Definition with_shutdowns (l : list terminate_status) (w : world) : world :=
  World (con w) (posted w) (writing w) (reading w) (timers w) l (senders w) (wire_out w)
    (input w) (pushed w) (delivered w) (closes w) (fails w).
Definition with_senders (l : list message) (w : world) : world :=
  World (con w) (posted w) (writing w) (reading w) (timers w) (shutdowns w) l (wire_out w)
    (input w) (pushed w) (delivered w) (closes w) (fails w).
Definition with_wire_out (b : list Z) (w : world) : world :=
  World (con w) (posted w) (writing w) (reading w) (timers w) (shutdowns w) (senders w) b
    (input w) (pushed w) (delivered w) (closes w) (fails w).
Definition with_input (b : list Z) (w : world) : world :=
  World (con w) (posted w) (writing w) (reading w) (timers w) (shutdowns w) (senders w) (wire_out w)
    b (pushed w) (delivered w) (closes w) (fails w).
Definition with_pushed (l : list message) (w : world) : world :=
  World (con w) (posted w) (writing w) (reading w) (timers w) (shutdowns w) (senders w) (wire_out w)
    (input w) l (delivered w) (closes w) (fails w).
Definition with_delivered (l : list message) (w : world) : world :=
  World (con w) (posted w) (writing w) (reading w) (timers w) (shutdowns w) (senders w) (wire_out w)
    (input w) (pushed w) l (closes w) (fails w).
Definition with_ends (c f : nat) (w : world) : world :=
  World (con w) (posted w) (writing w) (reading w) (timers w) (shutdowns w) (senders w) (wire_out w)
    (input w) (pushed w) (delivered w) c f.

Definition perform (w : world) (a : action) : world :=
  match a with
  | Post => with_posted (S (posted w)) w
  | Write octets => with_writing (Some octets) w
  | Read => with_reading (S (reading w)) w
  | SetTimer _ => with_timers (S (timers w)) w
  | CancelTimer => w
  | Shutdown tstat => with_shutdowns (shutdowns w ++ [tstat]) w
  | OnMessage m => with_delivered (delivered w ++ [m]) w
  | OnClose => with_ends (S (closes w)) (fails w) w
  | OnFail => with_ends (closes w) (S (fails w)) w
  | Pushed m => with_pushed (pushed w ++ [m]) w
  end.

Definition run {A} (h : handler A) (w : world) : option (A * world) :=
  match h (con w) with
  | Some (a, c, l) => Some (a, fold_left perform l (with_con c w))
  | None => None
  end.

(** ** Events *)
Inductive event :=
| SendCheck (msg : message)                          (* a thread tests the state in [send] *)
| SendPush (i : nat)                                 (* a thread goes on with its message *)
| Close (code : Z) (reason : list Z)
| RunPosted
| WriteDone (ec : option error_code) (n : nat)       (* after an error [n] octets are out *)
| ReadDone (ec : option error_code) (buf : list Z)
| TimerDone (ec : option error_code)
| ShutdownDone (ec : option error_code)
| OpenTimerDone (ec : option error_code).            (* the cancelled timer of the opening handshake *)

(** What a program sends, and what the transport reads. *)
Definition sends_ok (m : message) : Prop :=
  m_prepared m = false /\ m_terminal m = false /\ Forall is_byte (m_payload m) /\
  exists op, m_opcode m = Some op /\ 0 <= op < 8.

Section session.
Context `{Machine}.
Context (ping_handler : option (list Z -> bool)).

Definition opened_world : world :=
  World (opened_connection true) 0 None 1 0 [] [] [] [] [] [] 0 0.

Definition enabled (e : event) (w : world) : Prop :=
  match e with
  | SendCheck msg => sends_ok msg
  | SendPush i => (i < length (senders w))%nat
  | Close code reason => Forall is_byte reason /\ 0 <= code < 65536
  | RunPosted => (0 < posted w)%nat
  | WriteDone _ _ => is_Some (writing w)
  | ReadDone _ buf => (0 < reading w)%nat /\ Forall is_byte buf
  | TimerDone _ => (0 < timers w)%nat
  | ShutdownDone _ => shutdowns w <> []
  | OpenTimerDone _ => True
  end.

Definition run_event (e : event) (w : world) : option world :=
  match e with
  | SendCheck msg =>
      Some (match send_check (con w) with
            | None => with_senders (senders w ++ [msg]) w
            | Some _ => w
            end)
  | SendPush i =>
      msg ← senders w !! i;
      '(_, w) ← run (send_push msg) (with_senders (delete i (senders w)) w);
      Some w
  | Close code reason => '(_, w) ← run (close_connection code reason) w; Some w
  | RunPosted => '(_, w) ← run write_frame (with_posted (posted w - 1) w); Some w
  | WriteDone ec n =>
      octets ← writing w;
      let out := match ec with None => octets | Some _ => take n octets end in
      '(_, w) ← run (handle_write_frame ec) (with_wire_out (wire_out w ++ out) (with_writing None w));
      Some w
  | ReadDone ec buf =>
      let w := with_reading (reading w - 1) w in
      let w := match ec with None => with_input (input w ++ buf) w | Some _ => w end in
      '(_, w) ← run (handle_read_frame ping_handler ec buf) w;
      Some w
  | TimerDone ec =>
      '(_, w) ← run (handle_close_handshake_timeout ec) (with_timers (timers w - 1) w); Some w
  | ShutdownDone ec =>
      match shutdowns w with
      | tstat :: rest => '(_, w) ← run (handle_terminate tstat ec) (with_shutdowns rest w); Some w
      | [] => None
      end
  | OpenTimerDone ec => '(_, w) ← run (handle_open_handshake_timeout ec) w; Some w
  end.

Inductive reachable : world -> Prop :=
| reach_open : reachable opened_world
| reach_step w e w' : reachable w -> enabled e w -> run_event e w = Some w' -> reachable w'.

End session.
