(* ===== verification/WsSessionProps.v ===== *)
(** * What a connection guarantees

    The handlers as functions on the world, the invariant of every reachable
    world, and that no handler is undefined. *)
From S2P Require Import Prelude Utf8 WsFrame WsFrameProps Hybi13 Hybi13Props Hybi13Stream Hybi13Frames Hybi13Wire WsConnection WsSession.
Import frame hybi13 WsConnection WsSession.

#[local] Set Default Proof Using "Type*".

(** ** Running handlers *)
Lemma perform_con a w : con (perform w a) = con w.
Proof. by destruct a. Qed.

Lemma performs_con l : forall w, con (fold_left perform l w) = con w.
Proof. induction l as [|a l IH]; intros w; [done|]. simpl. by rewrite IH, perform_con. Qed.

Lemma perform_with_con c w a : perform (with_con c w) a = with_con c (perform w a).
Proof. by destruct a. Qed.

Lemma performs_with_con l : forall c w, fold_left perform l (with_con c w) = with_con c (fold_left perform l w).
Proof. induction l as [|a l IH]; intros c w; [done|]. simpl. by rewrite perform_with_con, IH. Qed.

Lemma with_con_con c c' w : with_con c (with_con c' w) = with_con c w.
Proof. done. Qed.

Lemma with_con_same w : with_con (con w) w = w.
Proof. by destruct w. Qed.

Lemma run_bind {A B} (m : handler A) (k : A -> handler B) w :
  run (m ≫= k) w = '(a, w') ← run m w; run (k a) w'.
Proof.
  unfold run, mbind at 1, handler_bind. destruct (m (con w)) as [[[a c] l1]|]; [|done]. simpl.
  rewrite performs_con. simpl. destruct (k a c) as [[[b c'] l2]|]; [|done].
  by rewrite fold_left_app, !performs_with_con, with_con_con.
Qed.

Lemma run_ret {A} (a : A) w : run (mret a) w = Some (a, w).
Proof. unfold run, mret, handler_ret. simpl. by rewrite with_con_same. Qed.
Lemma run_this w : run this w = Some (con w, w).
Proof. unfold run, this. simpl. by rewrite with_con_same. Qed.
Lemma run_modify f w : run (modify f) w = Some (tt, with_con (f (con w)) w).
Proof. done. Qed.
Lemma run_act a w : run (act a) w = Some (tt, perform w a).
Proof. unfold run, act. simpl. by rewrite with_con_same. Qed.
Lemma run_defined {A} (a : A) w : run (defined (Some a)) w = Some (a, w).
Proof. unfold run, defined. simpl. by rewrite with_con_same. Qed.

#[local] Opaque run.
Create Rewrite HintDb handlers.
#[local] Hint Rewrite @run_bind @run_ret run_this run_modify run_act @run_defined : handlers.
Ltac exec := repeat (autorewrite with handlers; cbn [mbind option_bind]).

(** ** The handlers as functions on the world *)
Definition nonempty {A} (l : list A) : bool := (0 <? length l)%nat.

Section session.
Context `{MachineLaws}.
Context (ping_handler : option (list Z -> bool)).

(** Queue a message. *)
Definition queued (msg : message) (c : connection) : connection :=
  set_queue (m_send_queue c ++ [msg]) (size_t (m_send_buffer_size c + message_size msg)) c.
Definition w_push (msg : message) (w : world) : world :=
  with_con (queued msg (con w))
    (with_posted (if m_write_flag (con w) then posted w else S (posted w))
       (with_pushed (pushed w ++ [msg]) w)).

Lemma run_push msg w : run (push_message msg) w = Some (tt, w_push msg w).
Proof.
  unfold push_message, write_push. exec. cbn [with_con con]. rewrite !perform_con.
  fold (queued msg (con w)).
  replace (0 <? length (m_send_queue (queued msg (con w))))%nat with true
    by (symmetry; apply Nat.ltb_lt; unfold queued; simpl; rewrite length_app; simpl; lia).
  rewrite andb_true_r. unfold w_push. cbn [queued set_queue m_write_flag].
  destruct (m_write_flag (con w)); exec; done.
Qed.

(** The end of the connection. *)
Definition ended (ec : option error_code) (c : connection) : connection :=
  let c := set_handshake_timer false c in
  let c := match ec with
           | Some e => set_local_close (close.abnormal_close, message_of e) (set_ec (Some e) c)
           | None => c
           end in
  set_state closed c.
Definition w_terminate (ec : option error_code) (w : world) : world :=
  with_con (ended ec (con w))
    (match m_state (con w) with
     | closed => w
     | connecting => with_shutdowns (shutdowns w ++ [t_failed]) w
     | _ => with_shutdowns (shutdowns w ++ [t_closed]) w
     end).

Lemma run_terminate ec w : run (terminate ec) w = Some (tt, w_terminate ec w).
Proof.
  unfold terminate. exec. unfold w_terminate, ended.
  destruct w as [c po wr re ti sh se wo inp pu de cl fa]. cbn [con shutdowns].
  destruct c as [st ist pr sv q sz bu cu wf rf lc rc e wc ht]. cbn [m_handshake_timer m_state].
  destruct ht, ec as [e'|]; exec; destruct st; exec; done.
Qed.

(** Messages that go into one write. *)
Fixpoint pop_ready (queue : list message) : list message * list message :=
  match queue with
  | [] => ([], [])
  | msg :: rest =>
      if m_terminal msg then ([msg], rest)
      else let '(msgs, rest) := pop_ready rest in (msg :: msgs, rest)
  end.

Lemma pop_ready_app q : (pop_ready q).1 ++ (pop_ready q).2 = q.
Proof.
  induction q as [|m q IH]; [done|]. simpl. destruct (m_terminal m); [done|].
  destruct (pop_ready q). simpl in *. by rewrite IH.
Qed.

Lemma pop_ready_nil q : (pop_ready q).1 = [] -> q = [].
Proof.
  destruct q as [|m q]; [done|]. simpl. destruct (m_terminal m); [done|]. by destruct (pop_ready q).
Qed.

Definition popped_size (size : Z) (msgs : list message) : Z :=
  fold_left (fun size msg => size_t (size - message_size msg)) msgs size.

Definition w_popped (w : world) : world :=
  let '(msgs, rest) := pop_ready (m_send_queue (con w)) in
  with_con (set_sending (m_send_buffer (con w)) (m_current_msgs (con w) ++ msgs) (m_write_flag (con w))
    (set_queue rest (popped_size (m_send_buffer_size (con w)) msgs) (con w))) w.

Lemma run_write_loop fuel : forall w next,
  (length (m_send_queue (con w)) < fuel)%nat ->
  run (_ ← write_loop fuel next; mret tt) w =
  Some (tt, match next with
            | None => w
            | Some m =>
                let w := with_con (set_sending (m_send_buffer (con w)) (m_current_msgs (con w) ++ [m])
                                    (m_write_flag (con w)) (con w)) w in
                if m_terminal m then w else w_popped w
            end).
Proof.
  induction fuel as [|fuel IH]; intros w next Hl; [lia|].
  destruct next as [m|]; [|simpl; by exec]. cbn [write_loop]. exec.
  destruct (m_terminal m); exec.
  - destruct fuel; simpl; by exec.
  - unfold write_pop. exec. cbn [con with_con set_sending m_send_queue].
    unfold w_popped. cbn [con with_con set_sending m_send_queue m_send_buffer m_current_msgs m_write_flag m_send_buffer_size].
    destruct (m_send_queue (con w)) as [|m' q] eqn:Eq; exec.
    + destruct fuel; simpl; exec; rewrite app_nil_r; simpl; unfold set_sending, set_queue, with_con; simpl; by rewrite Eq.
    + cbn [con with_con set_queue set_sending m_send_buffer_size].
      specialize (IH (with_con (set_queue q (size_t (m_send_buffer_size (con w) - message_size m'))
        (set_sending (m_send_buffer (con w)) (m_current_msgs (con w) ++ [m]) (m_write_flag (con w)) (con w))) w) (Some m')).
      rewrite run_bind in IH. cbn [con with_con set_queue set_sending m_send_queue] in IH. simpl in Hl.
      rewrite with_con_con. rewrite IH by lia. f_equal. f_equal. clear IH.
      unfold w_popped. cbn [con with_con set_sending set_queue m_send_queue m_send_buffer m_current_msgs m_write_flag m_send_buffer_size].
      simpl (pop_ready (m' :: q)). destruct (m_terminal m').
      * unfold set_sending, set_queue, with_con. simpl. by rewrite <-app_assoc.
      * destruct (pop_ready q) as [msgs rest]. unfold set_sending, set_queue, with_con. simpl.
        by rewrite <-app_assoc.
Qed.

(** A write of everything that is ready. *)
Definition w_write (w : world) : world :=
  let '(msgs, rest) := pop_ready (m_send_queue (con w)) in
  match msgs with
  | [] => w
  | _ =>
      with_writing (Some (buffers msgs))
        (with_con (set_sending (buffers msgs) msgs true
           (set_queue rest (popped_size (m_send_buffer_size (con w)) msgs) (con w))) w)
  end.

Lemma run_write_frame w :
  m_current_msgs (con w) = [] -> m_send_buffer (con w) = [] ->
  run write_frame w = Some (tt, if m_write_flag (con w) then w else w_write w).
Proof.
  intros Hc Hb. unfold write_frame. exec. destruct (m_write_flag (con w)) eqn:Hf; [by exec|].
  unfold write_pop at 1. exec. unfold w_write.
  destruct (m_send_queue (con w)) as [|m q] eqn:Eq.
  - exec. simpl. exec. by rewrite Hc; exec.
  - exec.
    pose proof (run_write_loop (length (m :: q) + 1)
      (with_con (set_queue q (size_t (m_send_buffer_size (con w) - message_size m)) (con w)) w) (Some m)) as Hl.
    rewrite run_bind in Hl. cbn [con with_con set_queue m_send_queue] in Hl. specialize (Hl ltac:(simpl; lia)).
    destruct (run (write_loop _ (Some m)) _) as [[[] w1]|]; [|done]. cbn [mbind option_bind] in Hl.
    rewrite run_ret in Hl. injection Hl as ->. cbn [mbind option_bind]. exec.
    unfold w_popped. cbn [con with_con set_sending set_queue m_send_queue m_send_buffer m_current_msgs m_write_flag m_send_buffer_size].
    simpl (pop_ready (m :: q)). rewrite Hc, Hb, Hf. destruct (m_terminal m).
    + simpl. exec. unfold with_con, with_writing. simpl. by exec.
    + destruct (pop_ready q) as [msgs rest]. simpl. exec. unfold with_con, with_writing. simpl. by exec.
Qed.

Lemma run_handle_write_frame ec w back : last (m_current_msgs (con w)) = Some back ->
  run (handle_write_frame ec) w =
  Some (tt,
    let w := with_con (set_sending [] [] (m_write_flag (con w)) (con w)) w in
    match ec with
    | Some _ => w_terminate ec w
    | None =>
        if m_terminal back then w_terminate None w
        else
          let w := with_con (set_sending [] [] false (con w)) w in
          match m_send_queue (con w) with [] => w | _ => with_posted (S (posted w)) w end
    end).
Proof.
  intros Hl. unfold handle_write_frame. exec. rewrite Hl. exec.
  destruct ec as [e|]; [by rewrite run_terminate|].
  destruct (m_terminal back); [by rewrite run_terminate|]. exec.
  cbn [con with_con set_sending m_send_queue].
  destruct (m_send_queue (con w)); simpl; exec; done.
Qed.

(** ** The invariant of writing *)
Definition queue_size (q : list message) : Z := foldr (fun m n => message_size m + n) 0 q.
Definition plain (m : message) : Prop := m_terminal m = false.
Definition only_last_terminal (ms : list message) : Prop := Forall plain (removelast ms).

(** What was queued is out ([done]), failed to go out ([lost]), is being
    written, or waits. *)
Record logged (w : world) (done lost : list message) : Prop := Logged {
  lg_pushed : pushed w = done ++ lost ++ m_current_msgs (con w) ++ m_send_queue (con w);
  lg_wire : exists part rest, wire_out w = buffers done ++ part /\ buffers lost = part ++ rest;
  lg_lost : lost <> [] -> m_state (con w) = closed /\ m_write_flag (con w) = true /\ m_current_msgs (con w) = [];
  lg_terminal : only_last_terminal (done ++ lost ++ m_current_msgs (con w));
  lg_idle : m_write_flag (con w) = false -> Forall plain done }.

Record write_inv (w : world) : Prop := WriteInv {
  wr_writing :
    match writing w with
    | Some octets => m_write_flag (con w) = true /\ m_current_msgs (con w) <> [] /\
        octets = buffers (m_current_msgs (con w))
    | None => m_current_msgs (con w) = [] /\ m_send_buffer (con w) = [] /\
        (m_write_flag (con w) = true -> m_state (con w) = closed)
    end;
  wr_wakeup : m_send_queue (con w) <> [] -> m_write_flag (con w) = false -> (0 < posted w)%nat;
  wr_size : m_send_buffer_size (con w) = size_t (queue_size (m_send_queue (con w)));
  wr_log : exists done lost, logged w done lost }.

Record state_inv (w : world) : Prop := StateInv {
  st_state : m_state (con w) <> connecting;
  st_internal : m_internal_state (con w) = PROCESS_CONNECTION;
  st_server : m_is_server (con w) = true;
  st_processor : m_server (m_processor (con w)) = true;
  st_senders : Forall sends_ok (senders w);
  st_shutdowns : Forall (eq t_closed) (shutdowns w);
  st_ends : fails w = 0%nat /\
    (closes w + length (shutdowns w))%nat = if bool_decide (m_state (con w) = closed) then 1%nat else 0%nat }.

(** The parts of the world that [write_inv] looks at. *)
Definition same_writing (w1 w2 : world) : Prop :=
  writing w1 = writing w2 /\ posted w1 = posted w2 /\ pushed w1 = pushed w2 /\ wire_out w1 = wire_out w2 /\
  m_state (con w1) = m_state (con w2) /\ m_send_queue (con w1) = m_send_queue (con w2) /\
  m_send_buffer_size (con w1) = m_send_buffer_size (con w2) /\ m_send_buffer (con w1) = m_send_buffer (con w2) /\
  m_current_msgs (con w1) = m_current_msgs (con w2) /\ m_write_flag (con w1) = m_write_flag (con w2).

Lemma logged_ext w1 w2 done lost : same_writing w1 w2 -> logged w1 done lost -> logged w2 done lost.
Proof.
  intros (E1 & E2 & E3 & E4 & E5 & E6 & E7 & E8 & E9 & E10) [L1 L2 L3 L4 L5].
  split; rewrite <-?E3, <-?E4, <-?E5, <-?E6, <-?E9, <-?E10; done.
Qed.

Lemma write_inv_ext w1 w2 : same_writing w1 w2 -> write_inv w1 -> write_inv w2.
Proof.
  intros Hs [W1 W2 W3 (d & l & W4)]. pose proof Hs as (E1 & E2 & E3 & E4 & E5 & E6 & E7 & E8 & E9 & E10).
  split; rewrite <-?E1, <-?E2, <-?E5, <-?E6, <-?E7, <-?E8, <-?E9, <-?E10; try done.
  exists d, l. by eapply logged_ext.
Qed.

(** Changing the state, while writing is not blocked by the end. *)
Lemma write_inv_state s w : m_state (con w) <> closed -> write_inv w ->
  write_inv (with_con (set_state s (con w)) w).
Proof.
  intros Hn [W1 W2 W3 (d & l & [L1 L2 L3 L4 L5])]. split; simpl; try done.
  - destruct (writing w); [done|]. destruct W1 as (? & ? & Hf). split_and!; try done.
    intros Ht. by apply Hf in Ht.
  - exists d, l. split; simpl; try done. intros Hl. by apply L3 in Hl as [? _].
Qed.

Lemma write_inv_closed w : write_inv w -> write_inv (with_con (set_state closed (con w)) w).
Proof.
  intros [W1 W2 W3 (d & l & [L1 L2 L3 L4 L5])]. split; simpl; try done.
  - destruct (writing w); [done|]. tauto.
  - exists d, l. split; simpl; try done. intros Hl. by apply L3 in Hl as [_ ?].
Qed.

Lemma wrap_add_l w x y : 0 <= w -> wrap w (wrap w x + y) = wrap w (x + y).
Proof. intros. unfold wrap. apply Z.add_mod_idemp_l. pose proof (Z.pow_pos_nonneg 2 w). lia. Qed.

Lemma queue_size_app q1 q2 : queue_size (q1 ++ q2) = queue_size q1 + queue_size q2.
Proof. induction q1 as [|m q1 IH]; simpl; [done|]. rewrite IH. lia. Qed.

Lemma popped_size_spec msgs : forall size q,
  size = size_t (queue_size (msgs ++ q)) -> popped_size size msgs = size_t (queue_size q).
Proof.
  induction msgs as [|m msgs IH]; intros size q E; [done|]. simpl. apply IH. rewrite E.
  unfold size_t. rewrite <-Z.add_opp_r, wrap_add_l by lia. f_equal. simpl. lia.
Qed.

Lemma write_inv_push msg w : write_inv w -> write_inv (w_push msg w).
Proof.
  intros [W1 W2 W3 (d & l & [L1 L2 L3 L4 L5])]. unfold w_push. split; simpl; try done.
  - intros _ Hf. rewrite Hf. lia.
  - rewrite W3, queue_size_app. unfold size_t. rewrite wrap_add_l by lia. f_equal. simpl. lia.
  - exists d, l. split; simpl; try done. rewrite L1. by rewrite <-!app_assoc.
Qed.

Lemma buffers_app ms1 ms2 : buffers (ms1 ++ ms2) = buffers ms1 ++ buffers ms2.
Proof. unfold buffers. by rewrite map_app, concat_app. Qed.

Lemma pop_ready_terminal q : only_last_terminal (pop_ready q).1.
Proof.
  unfold only_last_terminal. induction q as [|m q IH]; [constructor|]. simpl.
  destruct (m_terminal m) eqn:Em; [constructor|]. destruct (pop_ready q) as [[|m' ms] rest]; simpl in *; [constructor|].
  constructor; [done|exact IH].
Qed.

Lemma only_last_terminal_app ms1 ms2 : Forall plain ms1 -> only_last_terminal ms2 ->
  only_last_terminal (ms1 ++ ms2).
Proof.
  unfold only_last_terminal. intros H1' H2'. destruct ms2 as [|m ms2].
  - rewrite app_nil_r. clear H2'. induction H1' as [|x l ? ? IH]; [constructor|]. simpl. destruct l; [constructor|]. by constructor.
  - rewrite removelast_app by done. apply Forall_app. done.
Qed.

Lemma write_inv_write n w : writing w = None -> m_write_flag (con w) = false -> write_inv w ->
  write_inv (w_write (with_posted n w)).
Proof.
  intros Hw Hf [W1 W2 W3 (d & l & [L1 L2 L3 L4 L5])]. rewrite Hw in W1. destruct W1 as (C1 & C2 & _).
  assert (l = []) as ->.
  { destruct l; [done|]. destruct L3 as (_ & ? & _); [done|]. congruence. }
  unfold w_write. simpl. pose proof (pop_ready_app (m_send_queue (con w))) as Happ.
  pose proof (pop_ready_nil (m_send_queue (con w))) as Hnil.
  pose proof (pop_ready_terminal (m_send_queue (con w))) as Hterm.
  destruct (pop_ready (m_send_queue (con w))) as [[|m ms] rest]; cbn [fst snd] in *.
  - specialize (Hnil eq_refl). split; simpl; try done.
    + rewrite Hw. split_and!; try done. congruence.
    + exists d, []. by split.
  - split; simpl; try done.
    + apply (popped_size_spec (m :: ms)). by rewrite Happ.
    + exists d, []. split; simpl; try done.
      * rewrite L1, C1, <-Happ. simpl. done.
      * apply only_last_terminal_app; [by apply L5|exact Hterm].
Qed.

Lemma write_inv_ended ec w : write_inv (with_con (set_state closed (con w)) w) -> write_inv (w_terminate ec w).
Proof.
  apply write_inv_ext. unfold w_terminate, ended.
  destruct ec, (m_state (con w)); done.
Qed.

Lemma write_inv_terminate ec w : write_inv w -> write_inv (w_terminate ec w).
Proof. intros Hw. by apply write_inv_ended, write_inv_closed. Qed.

Lemma only_last_plain ms back : only_last_terminal ms -> last ms = Some back -> plain back -> Forall plain ms.
Proof.
  unfold only_last_terminal. intros Hr Hl Hb. apply last_Some in Hl as (ms' & ->).
  rewrite removelast_last in Hr. apply Forall_app. split; [done|]. by constructor.
Qed.

Lemma only_last_split ms1 ms2 : only_last_terminal (ms1 ++ ms2) -> ms2 <> [] ->
  Forall plain ms1 /\ only_last_terminal ms2.
Proof. unfold only_last_terminal. intros Hr Hn. rewrite removelast_app in Hr by done. by apply Forall_app in Hr. Qed.

Lemma write_inv_done ec n w octets back : write_inv w -> writing w = Some octets ->
  last (m_current_msgs (con w)) = Some back ->
  let w1 := with_wire_out (wire_out w ++ match ec with None => octets | Some _ => take n octets end)
              (with_writing None w) in
  write_inv (let w := with_con (set_sending [] [] (m_write_flag (con w1)) (con w1)) w1 in
    match ec with
    | Some _ => w_terminate ec w
    | None =>
        if m_terminal back then w_terminate None w
        else
          let w := with_con (set_sending [] [] false (con w)) w in
          match m_send_queue (con w) with [] => w | _ => with_posted (S (posted w)) w end
    end).
Proof.
  intros [W1 W2 W3 (d & l & [L1 (part & rest & L2 & L2') L3 L4 L5])] Hw Hback. rewrite Hw in W1.
  destruct W1 as (C1 & C2 & ->).
  assert (l = []) as -> by (destruct l; [done|]; by destruct L3 as (_ & _ & ?)).
  assert (part = []) as -> by (by destruct part). rewrite app_nil_r in L2.
  cbn [app] in *. destruct (only_last_split _ _ L4 C2) as [D1 D2]. cbn zeta.
  destruct ec as [e|]; [|destruct (m_terminal back) eqn:Et].
  - apply write_inv_ended. split; simpl; [done|congruence|done|].
    exists d, (m_current_msgs (con w)). split; simpl; try done.
    + exists (take n (buffers (m_current_msgs (con w)))), (drop n (buffers (m_current_msgs (con w)))).
      by rewrite L2, take_drop.
    + by rewrite app_nil_r.
  - apply write_inv_ended. split; simpl; [done|congruence|done|].
    exists (d ++ m_current_msgs (con w)), []. split; simpl; try done.
    + rewrite L1. by rewrite <-app_assoc.
    + exists [], []. by rewrite L2, buffers_app, app_nil_r.
    + by rewrite app_nil_r.
    + congruence.
  - pose proof (only_last_plain _ _ D2 Hback Et) as Hplain.
    assert (Forall plain (d ++ m_current_msgs (con w))) as Hall by by apply Forall_app.
    assert (forall k, (m_send_queue (con w) <> [] -> 0 < k)%nat ->
      write_inv (with_posted k (with_con (set_sending [] [] false (con w))
        (with_wire_out (wire_out w ++ buffers (m_current_msgs (con w))) (with_writing None w))))) as Hk.
    { intros k Hk. split; simpl; [done|auto|done|].
      exists (d ++ m_current_msgs (con w)), []. split; simpl; try done.
      + rewrite L1. by rewrite <-app_assoc.
      + exists [], []. by rewrite L2, buffers_app, app_nil_r.
      + rewrite app_nil_r. rewrite <-(app_nil_r (d ++ _)). apply only_last_terminal_app; [done|constructor]. }
    cbn [con with_con with_wire_out with_writing set_sending m_send_queue m_write_flag posted with_posted].
    destruct (m_send_queue (con w)) as [|m q] eqn:Eq.
    + apply (Hk (posted w)). done.
    + apply (Hk (S (posted w))). lia.
Qed.

(** ** Control frames of a server *)
Definition control_message (op : Z) (payload : list Z) : message :=
  set_prepared true (set_opcode op (set_payload payload (set_header
    (prepare_header (make_basic_header op (Z.of_nat (length payload)) true false false false false)
       (make_extended_header (Z.of_nat (length payload)))) get_new_message))).

Lemma prepare_control_server st op payload : m_server st = true -> is_control op = true ->
  (length payload <= 125)%nat ->
  prepare_control rng st op payload (Some get_new_message) = (None, Some (control_message op payload)).
Proof.
  intros Hs Hc Hl. unfold prepare_control. rewrite Hc, Hs. simpl negb. cbn iota. unfold payload_size_basic.
  by replace (125 <? Z.of_nat (length payload)) with false by lia.
Qed.

Lemma run_pong payload w : m_state (con w) = open -> m_server (m_processor (con w)) = true ->
  (length payload <= 125)%nat ->
  run (WsConnection.pong payload) w = Some (None, w_push (control_message frame.pong payload) w).
Proof.
  intros Ho Hs Hl. unfold WsConnection.pong, control. exec. rewrite bool_decide_eq_true_2 by done.
  unfold prepare_pong. rewrite prepare_control_server by done. cbn [negb]. exec. rewrite run_push. by exec.
Qed.

(** A close frame that may be sent. *)
Definition close_ok (x : Z * list Z) : Prop := sendable (SendClose x.1 x.2).
Definition close_message (x : Z * list Z) : message :=
  control_message frame.close (close_payload x.1 x.2).

Lemma prepare_close_server st x : m_server st = true -> close_ok x ->
  prepare_close rng st x.1 x.2 (Some get_new_message) = (None, Some (close_message x)).
Proof.
  destruct x as [code reason]. unfold close_ok. cbn [fst snd]. intros Hs Hok.
  pose proof (request_ok _ Hok) as Hreq. cbn [request_contents] in Hreq.
  destruct Hok as (Hb & Hl & Hres & Hinv). unfold prepare_close. rewrite Hres.
  assert (close.invalid code && negb (code =? close.no_status) = false) as ->.
  { destruct Hinv as [->|[-> _]]; [done|]. by rewrite andb_false_r. }
  assert ((code =? close.no_status) && (0 <? length reason)%nat = false) as ->.
  { destruct Hinv as [Hinv|[_ ->]]; [|by rewrite andb_false_r].
    destruct (Z.eqb_spec code close.no_status) as [Ec|]; [|done]. by rewrite Ec in Hinv. }
  unfold payload_size_basic. replace (125 - 2 <? Z.of_nat (length reason)) with false by lia.
  unfold close_message. cbn [fst snd].
  assert ((if negb (code =? close.no_status) then union_c 2 (htons code) ++ reason else []) =
    close_payload code reason) as ->.
  { unfold close_payload. destruct (Z.eqb_spec code close.no_status) as [|Ec]; [done|]. cbn [negb].
    destruct Hinv as [Hinv|[? _]]; [|done].
    rewrite htons_octets; [done|]. unfold close.invalid, close.invalid_low, close.invalid_high in Hinv. lia. }
  apply prepare_control_server; [done|done|].
  destruct Hreq as (_ & _ & [[? _]|[?|[_ ?]]]); done.
Qed.

Definition w_send_close (x : Z * list Z) (ack terminal : bool) (w : world) : world :=
  let c := set_state closing (set_local_close x (con w)) in
  let c := if ack then set_was_clean true c else c in
  let w := with_con (set_handshake_timer true c) (with_timers (S (timers w)) w) in
  w_push (if terminal then set_terminal true (close_message x) else close_message x) w.

Lemma run_send_close code reason ack terminal w x : m_server (m_processor (con w)) = true ->
  local_close code reason ack (con w) = x -> close_ok x ->
  run (send_close_frame code reason ack terminal) w = Some (None, w_send_close x ack terminal w).
Proof.
  intros Hs Hx Hok. unfold send_close_frame. exec. rewrite Hx. cbn [con with_con set_local_close m_processor].
  rewrite prepare_close_server by done. exec. unfold w_send_close.
  change (0 <? timeout_close_handshake) with true. cbn iota.
  destruct ack; exec; rewrite run_push; exec; cbn [con with_con perform]; done.
Qed.

Lemma run_send_close_error code reason ack terminal w e m : 
  prepare_close rng (m_processor (con w)) (local_close code reason ack (con w)).1
    (local_close code reason ack (con w)).2 (Some get_new_message) = (Some e, m) ->
  run (send_close_frame code reason ack terminal) w =
  Some (Some (ProcessorError e), with_con (set_local_close (local_close code reason ack (con w)) (con w)) w).
Proof.
  intros E. unfold send_close_frame. exec. cbn [con with_con set_local_close m_processor m_local_close].
  rewrite E. by exec.
Qed.

(** ** Messages that arrive *)
Definition invalid_code_close : Z * list Z := (close.protocol_error, str "Invalid close code").
Definition invalid_reason_close : Z * list Z := (close.protocol_error, str "Invalid close reason").
Definition echo (x : Z * list Z) : Z * list Z :=
  if x.1 =? close.no_status then (close.normal, []) else x.

Definition w_close (payload : list Z) (w : world) : world :=
  let '(code, ec) := close.extract_code payload in
  let w := with_con (set_remote_close (code, (m_remote_close (con w)).2) (con w)) w in
  match ec with
  | Some _ => w_send_close invalid_code_close true true w
  | None =>
      match close.extract_reason payload with
      | None => w
      | Some (reason, ec) =>
          let w := with_con (set_remote_close (code, reason) (con w)) w in
          match ec with
          | Some _ => w_send_close invalid_reason_close true true w
          | None =>
              if bool_decide (m_state (con w) = open) then w_send_close (echo (code, reason)) true true w
              else if bool_decide (m_state (con w) = closing) && negb (m_was_clean (con w))
                then w_terminate None (with_con (set_was_clean true (con w)) w)
              else w
          end
      end
  end.

Lemma extract_reason_total payload : Forall is_byte payload ->
  exists ec, close.extract_reason payload = Some (drop 2 payload, ec).
Proof.
  intros Hb. unfold close.extract_reason.
  assert ((if (2 <? length payload)%nat then drop 2 payload else []) = drop 2 payload) as ->.
  { destruct (Nat.ltb_spec 2 (length payload)); [done|]. by rewrite drop_ge. }
  destruct (utf8_validator.validate_iff (drop 2 payload)) as (ok & -> & _); [by apply Forall_drop|].
  by eexists.
Qed.

Lemma extract_code_ok payload code : Forall is_byte payload -> (length payload <= 125)%nat ->
  close.extract_code payload = (code, None) -> close_ok (echo (code, drop 2 payload)).
Proof.
  intros Hb Hl. unfold close.extract_code, echo, close_ok. cbn [fst snd].
  destruct payload as [|c0 [|c1 rest]]; [|done|].
  - intros [= <-]. simpl. split; [constructor|]. split; [lia|]. split; [done|by left].
  - set (x := ntohs (union_i [c0; c1])). intros E.
    destruct (close.reserved x) eqn:Er; [done|]. destruct (close.invalid x) eqn:Ei; [done|]. injection E as <-.
    assert ((x =? close.no_status) = false) as ->.
    { destruct (Z.eqb_spec x close.no_status) as [Ex|]; [|done]. by rewrite Ex in Ei. }
    cbn [fst snd]. change (drop 2 (c0 :: c1 :: rest)) with rest. cbn [length] in Hl.
    split; [by do 2 apply Forall_cons_1 in Hb as [_ Hb]|].
    split; [lia|]. split; [done|by left].
Qed.

Lemma invalid_closes_ok : close_ok invalid_code_close /\ close_ok invalid_reason_close.
Proof.
  split; (split; [vm_compute; repeat constructor; discriminate|]);
    (split; [simpl; lia|]); (split; [reflexivity|by left]).
Qed.

(** The facts the handlers of a server need. *)
Definition serving (w : world) : Prop :=
  m_is_server (con w) = true /\ m_server (m_processor (con w)) = true.

Lemma run_close_ack code reason x w : serving w ->
  local_close code reason true (con w) = x -> close_ok x ->
  run (send_close_ack code reason) w = Some (None, w_send_close x true true w).
Proof.
  intros [Hs Hp] Hx Hok. unfold send_close_ack. exec. rewrite Hs. by apply run_send_close.
Qed.

Lemma run_process_close payload w : serving w -> Forall is_byte payload -> (length payload <= 125)%nat ->
  run (process_close payload) w = Some (tt, w_close payload w).
Proof.
  intros Hs Hb Hl. pose proof invalid_closes_ok as [Hok1 Hok2]. unfold process_close, w_close, drop_on_protocol_error.
  destruct (close.extract_code payload) as [code [e|]] eqn:Ec; exec.
  - rewrite (run_close_ack _ _ invalid_code_close) by done. by exec.
  - destruct (extract_reason_total payload Hb) as (ec & Er). rewrite Er. exec.
    cbn [con with_con set_remote_close m_remote_close m_state m_was_clean fst snd].
    destruct ec as [e|]; exec.
    + rewrite (run_close_ack _ _ invalid_reason_close) by done. by exec.
    + cbn [con with_con set_remote_close m_remote_close m_state m_was_clean fst snd].
      destruct (bool_decide (m_state (con w) = open)).
      * exec. rewrite (run_close_ack _ _ (echo (code, drop 2 payload))); [by exec|done| |].
        -- unfold local_close, echo. by cbn.
        -- by apply extract_code_ok.
      * destruct (bool_decide (m_state (con w) = closing) && negb (m_was_clean (con w))); [|by exec].
        exec. cbn [con with_con set_remote_close set_was_clean m_is_server].
        destruct Hs as [-> _]. by rewrite run_terminate.
Qed.

Definition ping_allowed (payload : list Z) : bool :=
  match ping_handler with Some f => f payload | None => true end.

Definition w_control (op : Z) (msg : message) (w : world) : world :=
  match m_state (con w) with
  | open =>
      if op =? frame.ping then
        if ping_allowed (m_payload msg) then w_push (control_message frame.pong (m_payload msg)) w else w
      else if op =? frame.close then w_close (m_payload msg) w else w
  | closing => if op =? frame.close then w_close (m_payload msg) w else w
  | _ => w
  end.

Definition w_dispatch (w : world) (msg : message) : world :=
  match m_opcode msg with
  | Some op =>
      if is_control op then w_control op msg w
      else if bool_decide (m_state (con w) = open) then with_delivered (delivered w ++ [msg]) w else w
  | None => w
  end.

Lemma run_dispatch msg w : serving w -> m_state (con w) <> connecting -> good_message msg ->
  run (dispatch ping_handler msg) w = Some (tt, w_dispatch w msg).
Proof.
  intros Hs Hn (op & Ho & Hb & Hl). unfold dispatch, w_dispatch. rewrite Ho. exec.
  destruct (is_control op) eqn:Ec; cbn [negb].
  - specialize (Hl eq_refl). unfold process_control_frame, w_control. exec.
    destruct (m_state (con w)) eqn:Est; [done| | |]; cbn [negb andb bool_decide];
      repeat ((rewrite bool_decide_eq_false_2 by congruence) || (rewrite bool_decide_eq_true_2 by congruence));
      cbn [negb andb]; rewrite ?andb_false_r.
    + destruct (Z.eqb_spec op frame.ping) as [->|Hp].
      * unfold ping_allowed. destruct (match ping_handler with Some f => f (m_payload msg) | None => true end).
        -- exec. rewrite run_pong; [by exec|done|by apply Hs|done].
        -- by exec.
      * destruct (Z.eqb_spec op frame.pong) as [->|Hq]; [by exec|].
        destruct (Z.eqb_spec op frame.close) as [->|Hc]; [by apply run_process_close|by exec].
    + destruct (Z.eqb_spec op frame.close) as [->|Hc]; cbn [negb andb].
      * by apply run_process_close.
      * by exec.
    + by exec.
  - exec. destruct (bool_decide (m_state (con w) = open)); cbn [negb]; by exec.
Qed.

Definition w_set_processor (p : processor) (w : world) : world := with_con (set_processor p (con w)) w.

(** Handling a message does not look at the processor's reading state. *)
Lemma w_dispatch_processor p w m : w_dispatch (w_set_processor p w) m = w_set_processor p (w_dispatch w m).
Proof.
  unfold w_dispatch, w_control, w_close, w_send_close, w_push, w_terminate, w_set_processor.
  destruct w as [[st ist pr sv q sz bu cu wf rf lc rc e wc ht] po wr re ti sh se wo inp pu de cl fa]. simpl.
  destruct (m_opcode m) as [op|]; [|done]. destruct (is_control op); [|by case_match].
  destruct st; try done; repeat case_match; done.
Qed.

Lemma w_dispatches_processor p ms : forall w,
  foldl w_dispatch (w_set_processor p w) ms = w_set_processor p (foldl w_dispatch w ms).
Proof. induction ms as [|m ms IH]; intros w; [done|]. simpl. by rewrite w_dispatch_processor, IH. Qed.

(** What a handler leaves as it is. *)
Definition kept (w w' : world) : Prop :=
  m_is_server (con w') = m_is_server (con w) /\ m_processor (con w') = m_processor (con w) /\
  m_internal_state (con w') = m_internal_state (con w) /\ m_read_flag (con w') = m_read_flag (con w) /\
  input w' = input w /\ reading w' = reading w /\ senders w' = senders w /\
  (m_state (con w) <> connecting -> m_state (con w') <> connecting).

Lemma kept_refl w : kept w w.
Proof. done. Qed.

Lemma kept_trans w1 w2 w3 : kept w1 w2 -> kept w2 w3 -> kept w1 w3.
Proof.
  intros (A1 & A2 & A3 & A4 & A5 & A6 & A7 & A8) (B1 & B2 & B3 & B4 & B5 & B6 & B7 & B8).
  split_and!; try congruence. auto.
Qed.

Lemma kept_push msg w : kept w (w_push msg w).
Proof. done. Qed.

Lemma kept_terminate ec w : kept w (w_terminate ec w).
Proof. unfold w_terminate, ended. split_and!; destruct ec, (m_state (con w)); done. Qed.

Lemma kept_send_close x ack terminal w : kept w (w_send_close x ack terminal w).
Proof. unfold w_send_close. destruct ack; done. Qed.

Lemma kept_close payload w : kept w (w_close payload w).
Proof.
  unfold w_close. destruct (close.extract_code payload) as [code [e|]];
    [eapply kept_trans; [|apply kept_send_close]; done|].
  destruct (close.extract_reason payload) as [[reason [e|]]|]; [| |done].
  - eapply kept_trans; [|apply kept_send_close]. done.
  - repeat case_match; [eapply kept_trans; [|apply kept_send_close]; done| |done].
    eapply kept_trans; [|apply kept_terminate]. done.
Qed.

Lemma kept_dispatch w m : kept w (w_dispatch w m).
Proof.
  unfold w_dispatch, w_control. repeat case_match; try done; apply kept_push || apply kept_close.
Qed.

Lemma kept_dispatches ms : forall w, kept w (foldl w_dispatch w ms).
Proof.
  induction ms as [|m ms IH]; intros w; [done|]. simpl. eapply kept_trans; [apply kept_dispatch|apply IH].
Qed.

Lemma kept_serving w w' : kept w w' -> serving w -> serving w'.
Proof. intros (E1 & E2 & _) [? ?]. split; congruence. Qed.

(** The loop of [handle_read_frame]: the messages of the processor, in turn. *)
Lemma run_read_loop fuel : forall buf w, serving w -> m_state (con w) <> connecting ->
  waiting (m_processor (con w)) -> Forall is_byte buf -> (length buf < fuel)%nat ->
  exists ms ec p, receive_loop fuel buf (m_processor (con w)) = Some (ms, ec, p) /\
    Forall good_message ms /\ m_server p = true /\ (ec = None -> waiting p) /\
    run (read_loop ping_handler fuel buf) w =
      (let w' := w_set_processor p (foldl w_dispatch w ms) in
       match ec with None => Some (true, w') | Some e => run (consume_failed e) w' end).
Proof.
  induction fuel as [|fuel IH]; intros buf w Hs Hn Hw Hb Hf; [lia|]. cbn [read_loop receive_loop].
  destruct (Nat.ltb_spec 0 (length buf)) as [Hl|Hl].
  2: { exists [], None, (m_processor (con w)). split; [done|]. split; [constructor|].
       split; [apply Hs|]. split; [done|]. exec. cbn [foldl]. unfold w_set_processor.
       destruct w as [[] ? ? ? ? ? ? ? ? ? ? ? ?]. done. }
  destruct (consume_ends buf (m_processor (con w)) (proj1 Hw) Hb) as (n & ec & p1 & E & Hle & Hset).
  exec. rewrite E. exec. cbn [mbind option_bind].
  pose proof (consume_loop_config _ _ _ _ _ _ E) as [Hsrv _].
  assert (m_server p1 = true) as Hsrv1 by (rewrite Hsrv; apply Hs).
  destruct ec as [e|].
  { exists [], (Some e), p1. split; [done|]. split; [constructor|]. split; [done|]. split; [done|]. done. }
  pose proof (consume_uses buf _ n None p1 Hw Hb Hl E eq_refl) as Hpos.
  destruct (Hset eq_refl) as [Hi Hcase]. unfold ready.
  assert (Forall is_byte (drop n buf)) as Hb' by by apply Forall_drop.
  assert (length (drop n buf) < fuel)%nat as Hf' by (rewrite length_drop; lia).
  destruct Hcase as [Hr|(Hneed & _ & Hr)].
  - rewrite bool_decide_eq_true_2 by done.
    destruct (get_message_waiting p1 Hi Hr) as (m & p2 & Em & Hw2 & _).
    pose proof (get_message_good p1 m p2 Hi Hr Em) as Hg.
    pose proof (get_message_config p1 _ p2 Em) as [Hsrv2 _].
    rewrite Em. exec. cbn [mbind option_bind].
    change (with_con (set_processor p2 (con (with_con (set_processor p1 (con w)) w)))
      (with_con (set_processor p1 (con w)) w)) with (w_set_processor p2 w).
    assert (serving (w_set_processor p2 w)) as Hs2 by (split; [apply Hs|simpl; congruence]).
    rewrite run_dispatch by done. cbn [mbind option_bind].
    pose proof (kept_dispatch (w_set_processor p2 w) m) as Hk.
    destruct (IH (drop n buf) (w_dispatch (w_set_processor p2 w) m)) as (ms & ec & p3 & Er & Hgs & Hsrv3 & Hw3 & Erun); try done.
    + by eapply kept_serving.
    + by apply Hk.
    + destruct Hk as (_ & -> & _). done.
    + destruct Hk as (_ & Ep & _). rewrite Ep in Er. simpl in Er. rewrite Er. cbn [prepend mbind option_bind option_list].
      exists (m :: ms), ec, p3. split; [done|]. split; [by constructor|]. split; [done|]. split; [done|].
      rewrite Erun. rewrite w_dispatch_processor, w_dispatches_processor. cbn [foldl]. done.
  - rewrite bool_decide_eq_false_2 by done.
    change (with_con (set_processor p1 (con w)) w) with (w_set_processor p1 w).
    destruct (IH (drop n buf) (w_set_processor p1 w)) as (ms & ec & p3 & Er & Hgs & Hsrv3 & Hw3 & Erun); try done.
    + split; [apply Hs|done].
    + simpl in Er. exists ms, ec, p3. split; [done|]. split; [done|]. split; [done|]. split; [done|].
      rewrite Erun, w_dispatches_processor. done.
Qed.

(** ** The invariants are kept *)
Lemma write_send_close x ack terminal w : m_state (con w) <> closed -> write_inv w ->
  write_inv (w_send_close x ack terminal w).
Proof.
  intros Hn Hw. unfold w_send_close. apply write_inv_push.
  eapply write_inv_ext; [|exact (write_inv_state closing w Hn Hw)]. by destruct ack.
Qed.

Lemma state_push m w : state_inv w -> state_inv (w_push m w).
Proof. intros [S1 S2 S3 S4 S5 S6 S7]. by split. Qed.

Lemma state_send_close x ack terminal w : m_state (con w) <> closed -> state_inv w ->
  state_inv (w_send_close x ack terminal w).
Proof.
  intros Hn [S1 S2 S3 S4 S5 S6 S7]. unfold w_send_close. apply state_push.
  rewrite bool_decide_eq_false_2 in S7 by done. by split; destruct ack.
Qed.

Lemma state_terminate ec w : state_inv w -> state_inv (w_terminate ec w).
Proof.
  intros [S1 S2 S3 S4 S5 S6 [S7 S8]]. unfold w_terminate.
  assert (m_state (con w) = closed \/ (m_state (con w) <> closed /\
    match m_state (con w) with closed => w | connecting => with_shutdowns (shutdowns w ++ [t_failed]) w
      | _ => with_shutdowns (shutdowns w ++ [t_closed]) w end = with_shutdowns (shutdowns w ++ [t_closed]) w)) as [E|[E ->]]
    by (destruct (m_state (con w)); [done|by right|by right|by left]).
  - rewrite E. split; destruct ec; simpl; try done; by rewrite E in S8.
  - rewrite bool_decide_eq_false_2 in S8 by done.
    assert (Forall (eq t_closed) (shutdowns w ++ [t_closed])) by (apply Forall_app; split; [done|by constructor]).
    split; destruct ec; simpl; try done; rewrite length_app; simpl; (split; [done|lia]).
Qed.

Definition both_inv (w : world) : Prop := write_inv w /\ state_inv w.

Lemma both_ext w1 w2 : same_writing w1 w2 -> kept w1 w2 -> shutdowns w1 = shutdowns w2 ->
  closes w1 = closes w2 -> fails w1 = fails w2 -> both_inv w1 -> both_inv w2.
Proof.
  intros Hs (K1 & K2 & K3 & K4 & K5 & K6 & K7 & K8) E1 E2 E3 [Hw [S1 S2 S3 S4 S5 S6 S7]].
  split; [by eapply write_inv_ext|]. pose proof Hs as (_ & _ & _ & _ & E5 & _).
  split; rewrite <-?E1, <-?E2, <-?E3, <-?E5, ?K1, ?K2, ?K3, ?K7; auto.
Qed.

Lemma both_push m w : both_inv w -> both_inv (w_push m w).
Proof. intros [? ?]. split; [by apply write_inv_push|by apply state_push]. Qed.
Lemma both_terminate ec w : both_inv w -> both_inv (w_terminate ec w).
Proof. intros [? ?]. split; [by apply write_inv_terminate|by apply state_terminate]. Qed.
Lemma both_send_close x ack terminal w : m_state (con w) <> closed -> both_inv w ->
  both_inv (w_send_close x ack terminal w).
Proof. intros Hn [? ?]. split; [by apply write_send_close|by apply state_send_close]. Qed.

Lemma both_close payload w : m_state (con w) <> closed -> both_inv w -> both_inv (w_close payload w).
Proof.
  intros Hn Hb. unfold w_close. destruct (close.extract_code payload) as [code [e|]];
    [apply both_send_close; [done|]; by eapply both_ext; [..|exact Hb]|].
  destruct (close.extract_reason payload) as [[reason [e|]]|]; [| |by eapply both_ext; [..|exact Hb]].
  - apply both_send_close; [done|]. by eapply both_ext; [..|exact Hb].
  - repeat case_match; [apply both_send_close; [done|]; by eapply both_ext; [..|exact Hb]
      |apply both_terminate; by eapply both_ext; [..|exact Hb]|by eapply both_ext; [..|exact Hb]].
Qed.

Lemma both_dispatch w m : both_inv w -> both_inv (w_dispatch w m).
Proof.
  intros Hb. unfold w_dispatch, w_control. destruct (m_opcode m); [|done].
  destruct (is_control z).
  - destruct (m_state (con w)) eqn:E; try done; repeat case_match; try done;
      first [by apply both_push|apply both_close; [congruence|done]].
  - case_match; [|done]. by eapply both_ext; [..|exact Hb].
Qed.

Lemma both_dispatches ms : forall w, both_inv w -> both_inv (foldl w_dispatch w ms).
Proof. induction ms as [|m ms IH]; intros w Hb; [done|]. simpl. by apply IH, both_dispatch. Qed.

Lemma both_reading n w : both_inv w -> both_inv (with_reading n w).
Proof. intros [Hw [? ? ? ? ? ? ?]]. split; [by eapply write_inv_ext; [|exact Hw]|by split]. Qed.

Lemma both_serving w : both_inv w -> serving w.
Proof. intros [_ [_ _ ? ? _ _ _]]. done. Qed.

Lemma both_set_processor p w : m_server p = true -> both_inv w -> both_inv (w_set_processor p w).
Proof.
  intros Hp [Hw [S1 S2 S3 S4 S5 S6 S7]]. split; [by eapply write_inv_ext; [|exact Hw]|]. by split.
Qed.

(** ** What is delivered and answered *)
Definition is_op (op : Z) (m : message) : bool :=
  match m_opcode m with Some op' => op' =? op | None => false end.
Definition is_data (m : message) : bool :=
  match m_opcode m with Some op => negb (is_control op) | None => false end.
Definition data_messages (ms : list message) : list message := List.filter is_data ms.

(** The payloads of pongs, and of the pings to be answered. *)
Definition pongs (ms : list message) : list (list Z) :=
  map m_payload (List.filter (is_op frame.pong) ms).
Definition answers (ms : list message) : list (list Z) :=
  map m_payload (List.filter (fun m => is_op frame.ping m && ping_allowed (m_payload m)) ms).

(** The messages before the first close frame. *)
Fixpoint heard (ms : list message) : list message :=
  match ms with
  | [] => []
  | m :: ms => if is_op frame.close m then [] else m :: heard ms
  end.
Definition has_close (ms : list message) : bool := existsb (is_op frame.close) ms.

Lemma heard_all ms : has_close ms = false -> heard ms = ms.
Proof.
  induction ms as [|m ms IH]; [done|]. simpl. intros [-> Hc]%orb_false_iff. by rewrite IH.
Qed.

Lemma heard_prefix ms : exists rest, ms = heard ms ++ rest.
Proof.
  induction ms as [|m ms (rest & IH)]; [by exists []|]. simpl. destruct (is_op frame.close m); [by eexists|].
  exists rest. simpl. by rewrite <-IH.
Qed.

Lemma data_messages_app ms1 ms2 : data_messages (ms1 ++ ms2) = data_messages ms1 ++ data_messages ms2.
Proof. apply List.filter_app. Qed.
Lemma pongs_app ms1 ms2 : pongs (ms1 ++ ms2) = pongs ms1 ++ pongs ms2.
Proof. unfold pongs. by rewrite List.filter_app, map_app. Qed.
Lemma answers_app ms1 ms2 : answers (ms1 ++ ms2) = answers ms1 ++ answers ms2.
Proof. unfold answers. by rewrite List.filter_app, map_app. Qed.

(** What the program and the peer have seen. *)
Definition seen (w : world) : list message * list (list Z) := (delivered w, pongs (pushed w)).

Lemma seen_send_close x ack terminal w :
  seen (w_send_close x ack terminal w) = seen w /\ m_state (con (w_send_close x ack terminal w)) = closing.
Proof.
  unfold seen, w_send_close. destruct ack; (split; [|done]); simpl; rewrite pongs_app; destruct terminal; simpl;
    by rewrite app_nil_r.
Qed.

Lemma seen_terminate ec w : seen (w_terminate ec w) = seen w /\ m_state (con (w_terminate ec w)) = closed.
Proof. unfold seen, w_terminate, ended. split; destruct ec, (m_state (con w)); done. Qed.

Lemma seen_close payload w : m_state (con w) <> connecting -> Forall is_byte payload ->
  seen (w_close payload w) = seen w /\ m_state (con (w_close payload w)) <> open.
Proof.
  intros Hn Hb. unfold w_close. destruct (close.extract_code payload) as [code [e|]].
  { match goal with |- context [w_send_close ?x ?a ?t ?w] => destruct (seen_send_close x a t w) as [-> ->] end. done. }
  destruct (extract_reason_total payload Hb) as (ec & ->). destruct ec as [e|].
  { match goal with |- context [w_send_close ?x ?a ?t ?w] => destruct (seen_send_close x a t w) as [-> ->] end. done. }
  cbn [con with_con set_remote_close m_state m_was_clean].
  destruct (bool_decide (m_state (con w) = open)) eqn:Eo.
  { match goal with |- context [w_send_close ?x ?a ?t ?w] => destruct (seen_send_close x a t w) as [-> ->] end. done. }
  apply bool_decide_eq_false in Eo. case_match; [|done].
  match goal with |- context [w_terminate ?x ?w] => destruct (seen_terminate x w) as [-> ->] end. done.
Qed.

Lemma seen_dispatch w m : m_state (con w) <> connecting -> good_message m ->
  if bool_decide (m_state (con w) = open) then
    seen (w_dispatch w m) = (delivered w ++ data_messages (heard [m]), pongs (pushed w) ++ answers (heard [m])) /\
    (m_state (con (w_dispatch w m)) = open <-> has_close [m] = false)
  else seen (w_dispatch w m) = seen w /\ m_state (con (w_dispatch w m)) <> open.
Proof.
  intros Hn (op & Ho & Hb & _). unfold w_dispatch. rewrite Ho.
  assert (is_op frame.close m = (op =? frame.close)) as Ec by (unfold is_op; by rewrite Ho).
  assert (is_op frame.ping m = (op =? frame.ping)) as Ep by (unfold is_op; by rewrite Ho).
  assert (is_data m = negb (is_control op)) as Ed by (unfold is_data; by rewrite Ho).
  unfold data_messages, answers, has_close. simpl. rewrite Ec.
  destruct (is_control op) eqn:Ectl.
  - unfold w_control. destruct (m_state (con w)) eqn:Es; [done| | |].
    + rewrite bool_decide_eq_true_2 by done.
      destruct (Z.eqb_spec op frame.ping) as [->|Hp]; [|destruct (Z.eqb_spec op frame.close) as [->|Hc]].
      * change (frame.ping =? frame.close) with false. cbn iota. simpl. rewrite Ed, Ep. simpl. rewrite app_nil_r.
        destruct (ping_allowed (m_payload m)); unfold seen; simpl; rewrite ?pongs_app, ?app_nil_r; by rewrite ?Es.
      * simpl. rewrite !app_nil_r. destruct (seen_close (m_payload m) w) as [-> Hs]; [congruence|done|].
        split; [done|]. split; [done|done].
      * simpl. rewrite Ed, Ep. replace (op =? frame.ping) with false by lia. simpl. rewrite !app_nil_r.
        split; [done|]. by rewrite Es.
    + rewrite bool_decide_eq_false_2 by done. destruct (op =? frame.close).
      * apply seen_close; [congruence|done].
      * split; [done|]. by rewrite Es.
    + rewrite bool_decide_eq_false_2 by done. split; [done|]. by rewrite Es.
  - assert ((op =? frame.close) = false) as -> by (destruct (Z.eqb_spec op frame.close) as [->|]; done).
    simpl. rewrite Ed, Ep. assert ((op =? frame.ping) = false) as -> by (destruct (Z.eqb_spec op frame.ping) as [->|]; done).
    simpl. rewrite !app_nil_r. destruct (bool_decide (m_state (con w) = open)) eqn:Es.
    + apply bool_decide_eq_true in Es. unfold seen. simpl. by rewrite Es.
    + apply bool_decide_eq_false in Es. done.
Qed.

Lemma seen_dispatches ms : forall w, m_state (con w) <> connecting -> Forall good_message ms ->
  if bool_decide (m_state (con w) = open) then
    seen (foldl w_dispatch w ms) = (delivered w ++ data_messages (heard ms), pongs (pushed w) ++ answers (heard ms)) /\
    (m_state (con (foldl w_dispatch w ms)) = open <-> has_close ms = false)
  else seen (foldl w_dispatch w ms) = seen w /\ m_state (con (foldl w_dispatch w ms)) <> open.
Proof.
  induction ms as [|m ms IH]; intros w Hn Hg.
  { simpl. rewrite !app_nil_r. case_bool_decide; done. }
  apply Forall_cons_1 in Hg as [Hg Hgs]. pose proof (seen_dispatch w m Hn Hg) as Hd.
  assert (m_state (con (w_dispatch w m)) <> connecting) as Hn'.
  { destruct (kept_dispatch w m) as (_ & _ & _ & _ & _ & _ & _ & Hk). by apply Hk. }
  specialize (IH (w_dispatch w m) Hn' Hgs). cbn [foldl].
  destruct (bool_decide (m_state (con w) = open)).
  - destruct Hd as [Hd1 Hd2]. cbn [heard has_close existsb] in *. rewrite orb_false_r in Hd2.
    destruct (is_op frame.close m) eqn:Ec.
    + rewrite bool_decide_eq_false_2 in IH by (rewrite Hd2; done). destruct IH as [-> IH2].
      split; [exact Hd1|]. split; [intros; by destruct IH2|done].
    + rewrite bool_decide_eq_true_2 in IH by by apply Hd2. destruct IH as [-> IH2].
      unfold seen in Hd1. injection Hd1 as E1 E2. rewrite E1, E2, <-!app_assoc.
      change (if is_data m then [m] else []) with (data_messages [m]).
      rewrite <-data_messages_app, <-answers_app. done.
  - destruct Hd as [Hd1 Hd2]. rewrite bool_decide_eq_false_2 in IH by done. destruct IH as [-> IH2]. done.
Qed.

(** ** Failures of the processor *)
Definition failure_close (e : processor_errors) : Z * list Z := (to_ws e, processor_message e).

Lemma failure_close_ok e : close_ok (failure_close e) /\
  take (Z.to_nat close_reason_size) (processor_message e) = processor_message e /\
  close.terminal (to_ws e) = true /\ to_ws e <> close.blank.
Proof.
  split; [|by destruct e].
  split; [destruct e; vm_compute; repeat constructor; discriminate|].
  split; [destruct e; simpl; lia|]. destruct e; (split; [reflexivity|left; reflexivity]).
Qed.

Definition w_failed (e : processor_errors) (w : world) : world :=
  if bool_decide (m_state (con w) = open) then w_send_close (failure_close e) false true w
  else w_terminate (Some (EndpointError invalid_state)) w.

Lemma run_consume_failed e w : serving w -> run (consume_failed e) w = Some (false, w_failed e w).
Proof.
  intros [_ Hp]. destruct (failure_close_ok e) as (Hok & Ht & Hterm & Hb).
  unfold consume_failed, drop_on_protocol_error, w_failed, close_connection. rewrite Ht, Hterm. exec.
  destruct (bool_decide (m_state (con w) = open)); cbn [negb].
  - rewrite (run_send_close _ _ _ _ _ (failure_close e)); [by exec|done| |done].
    unfold local_close, silent_close. by replace (to_ws e =? close.blank) with false by lia.
  - exec. rewrite run_terminate. by exec.
Qed.

Lemma both_failed e w : both_inv w -> both_inv (w_failed e w).
Proof.
  intros Hb. unfold w_failed. case_bool_decide as Ho; [|by apply both_terminate].
  apply both_send_close; [congruence|done].
Qed.

Lemma seen_failed e w : seen (w_failed e w) = seen w /\ m_state (con (w_failed e w)) <> open.
Proof.
  unfold w_failed. case_bool_decide.
  - match goal with |- context [w_send_close ?x ?a ?t ?w] => destruct (seen_send_close x a t w) as [-> ->] end. done.
  - match goal with |- context [w_terminate ?x ?w] => destruct (seen_terminate x w) as [-> ->] end. done.
Qed.

Lemma kept_failed e w : kept w (w_failed e w).
Proof. unfold w_failed. case_bool_decide; [apply kept_send_close|apply kept_terminate]. Qed.

(** ** The stream of input *)
Definition fresh : processor := new_processor true max_message_size.

Record streamed (w : world) (ms : list message) (ec : option processor_errors) (p : processor) : Prop := Streamed {
  sm_receive : receive (input w) fresh = Some (ms, ec, p);
  sm_octets : Forall is_byte (input w);
  sm_reading : (reading w <= 1)%nat;
  sm_waiting : (0 < reading w)%nat -> ec = None /\ m_processor (con w) = p;
  sm_delivered : delivered w `prefix_of` data_messages ms;
  sm_answered : pongs (pushed w) `prefix_of` answers ms;
  sm_open : m_state (con w) = open -> ec = None /\ has_close ms = false /\
    delivered w = data_messages ms /\ pongs (pushed w) = answers ms }.

Definition session_inv (w : world) : Prop :=
  both_inv w /\ exists ms ec p, streamed w ms ec p.

Lemma session_opened : session_inv opened_world.
Proof.
  split; [split|].
  - split; [done|done|done|]. exists [], []. split; try done; [by exists [], []|constructor].
  - split; try done.
  - exists [], None, fresh. by split.
Qed.

(** Events that neither read nor deliver. *)
Lemma streamed_ext w1 w2 ms ec p : input w1 = input w2 -> reading w1 = reading w2 ->
  m_processor (con w1) = m_processor (con w2) -> seen w1 = seen w2 ->
  (m_state (con w2) = open -> m_state (con w1) = open) -> streamed w1 ms ec p -> streamed w2 ms ec p.
Proof.
  intros E1 E2 E3 E4 E5 [S1 S2 S3 S4 S5 S6 S7]. injection E4 as E6 E7.
  split; rewrite <-?E1, <-?E2, <-?E3, <-?E6, <-?E7; try done. intros Ho. by apply S7, E5.
Qed.

(** ** Every event is defined and keeps the invariant *)
Definition steps_to (w : world) (e : event) : Prop :=
  exists w', run_event ping_handler e w = Some w' /\ session_inv w'.

Lemma event_send_check msg w : session_inv w -> sends_ok msg -> steps_to w (SendCheck msg).
Proof.
  intros [[Hw Hs] (ms & ec & p & Hst)] Hok. unfold steps_to. simpl. eexists. split; [done|].
  unfold send_check. case_bool_decide; [|split; [done|by do 3 eexists]].
  split; [split; [by eapply write_inv_ext; [|exact Hw]|]|].
  - destruct Hs as [S1 S2 S3 S4 S5 S6 S7]. split; try done. simpl. apply Forall_app. by split; [|constructor].
  - exists ms, ec, p. by eapply streamed_ext; [..|exact Hst].
Qed.

Lemma run_send_push msg w : serving w -> sends_ok msg -> exists r w', run (send_push msg) w = Some (r, w') /\
  (w' = w \/ exists m, w' = w_push m w /\ is_op frame.pong m = false).
Proof.
  intros [_ Hp] (Hprep & _ & Hb & op & Ho & Hop). unfold send_push. rewrite Hprep. exec.
  unfold prepare_data_frame. rewrite Ho, Hp. cbn [mbind option_bind].
  assert (is_control op = false) as -> by (unfold is_control; lia).
  assert (exists valid, (if op =? text then utf8_validator.validate (m_payload msg) else Some true) = Some valid)
    as (valid & ->).
  { destruct (op =? text); [|by eexists]. destruct (utf8_validator.validate_iff _ Hb) as (ok & -> & _). by eexists. }
  cbn [mbind option_bind negb is_enabled andb]. destruct valid; cbn [negb]; exec.
  - rewrite run_push. cbn [mbind option_bind]. exec. do 2 eexists. split; [done|]. right. eexists. split; [done|].
    unfold is_op. simpl. unfold frame.pong. lia.
  - do 2 eexists. split; [done|]. by left.
Qed.

Lemma streamed_push m w ms ec p : is_op frame.pong m = false -> streamed w ms ec p ->
  streamed (w_push m w) ms ec p.
Proof.
  intros Hm. apply streamed_ext; try done. unfold seen. simpl. rewrite pongs_app.
  unfold pongs at 3. simpl. by rewrite Hm, app_nil_r.
Qed.

Lemma event_send_push i w : session_inv w -> (i < length (senders w))%nat -> steps_to w (SendPush i).
Proof.
  intros [Hb (ms & ec & p & Hst)] Hi. unfold steps_to. simpl.
  destruct (lookup_lt_is_Some_2 _ _ Hi) as [msg Hmsg]. rewrite Hmsg. cbn [mbind option_bind].
  set (w1 := with_senders (delete i (senders w)) w).
  assert (both_inv w1) as Hb1.
  { destruct Hb as [Hw [S1 S2 S3 S4 S5 S6 S7]]. split; [by eapply write_inv_ext; [|exact Hw]|].
    split; try done. simpl. by apply Forall_delete. }
  assert (streamed w1 ms ec p) as Hst1 by by eapply streamed_ext; [..|exact Hst].
  assert (sends_ok msg) as Hok.
  { destruct Hb as [_ [_ _ _ _ Hs _ _]]. rewrite Forall_forall in Hs. apply Hs. by eapply list_elem_of_lookup_2. }
  destruct (run_send_push msg w1 (both_serving _ Hb1) Hok) as (r & w' & -> & [->|(m & -> & Hm)]).
  - eexists. split; [done|]. split; [done|by do 3 eexists].
  - eexists. split; [done|]. split; [by apply both_push|]. exists ms, ec, p. by apply streamed_push.
Qed.

Lemma prepare_close_cases st x : m_server st = true -> Forall is_byte x.2 ->
  close_ok x \/ exists e m, prepare_close rng st x.1 x.2 (Some get_new_message) = (Some e, m).
Proof.
  destruct x as [code reason]. intros Hs Hb. cbn [fst snd] in *. unfold prepare_close.
  destruct (close.reserved code) eqn:Er; [right; by do 2 eexists|].
  destruct (close.invalid code && negb (code =? close.no_status)) eqn:Ei; [right; by do 2 eexists|].
  destruct ((code =? close.no_status) && (0 <? length reason)%nat) eqn:En; [right; by do 2 eexists|].
  destruct (Z.ltb_spec (payload_size_basic - 2) (Z.of_nat (length reason))) as [|Hl]; [right; by do 2 eexists|].
  left. unfold close_ok, payload_size_basic in *. cbn [fst snd]. split; [done|]. split; [lia|]. split; [done|].
  apply andb_false_iff in Ei as [Ei|Ei]; [by left|]. apply negb_false_iff, Z.eqb_eq in Ei.
  right. split; [done|]. rewrite Ei in En. simpl in En. apply Nat.ltb_ge in En. apply nil_length_inv. lia.
Qed.

Lemma event_close code reason w : session_inv w -> Forall is_byte reason -> steps_to w (Close code reason).
Proof.
  intros [Hb (ms & ec & p & Hst)] Hr. unfold steps_to. simpl. unfold close_connection. exec.
  destruct (bool_decide (m_state (con w) = open)) eqn:Eo; cbn [negb]; exec.
  2: { eexists. split; [done|]. split; [done|by do 3 eexists]. }
  apply bool_decide_eq_true in Eo. set (tr := take _ reason).
  set (x := local_close code tr false (con w)).
  assert (Forall is_byte x.2) as Hx.
  { unfold x, local_close. cbn [silent_close negb]. case_match; [by apply Forall_take|constructor]. }
  pose proof (both_serving _ Hb) as [_ Hp].
  destruct (prepare_close_cases (m_processor (con w)) x Hp Hx) as [Hok|(e & m & E)].
  - rewrite (run_send_close _ _ _ _ _ x) by done. cbn [mbind option_bind]. eexists. split; [done|].
    split; [apply both_send_close; [congruence|done]|]. exists ms, ec, p.
    destruct (seen_send_close x false (close.terminal code) w) as [Es Ec].
    eapply streamed_ext; [..|exact Hst]; done.
  - rewrite (run_send_close_error _ _ _ _ _ e m) by done. cbn [mbind option_bind]. eexists. split; [done|].
    split; [by eapply both_ext; [..|exact Hb]|]. exists ms, ec, p. by eapply streamed_ext; [..|exact Hst].
Qed.

Lemma event_posted w : session_inv w -> steps_to w RunPosted.
Proof.
  intros [[Hw Hs] (ms & ec & p & Hst)]. unfold steps_to. simpl.
  set (w1 := with_posted (posted w - 1) w).
  assert (state_inv w1) as Hs1 by by destruct Hs.
  assert (streamed w1 ms ec p) as Hst1 by by eapply streamed_ext; [..|exact Hst].
  destruct (m_write_flag (con w)) eqn:Hf.
  - assert (run write_frame w1 = Some (tt, w1)) as ->.
    { unfold write_frame. exec. cbn [w1 con with_posted]. rewrite Hf. by exec. }
    eexists. split; [done|]. split; [|by do 3 eexists]. split; [|done].
    destruct Hw as [W1 W2 W3 (d & l & W4)]. split; simpl; try done; [congruence|].
    exists d, l. by destruct W4.
  - assert (writing w = None) as Hn.
    { pose proof (wr_writing _ Hw) as W1. destruct (writing w); [|done]. destruct W1 as [? _]. congruence. }
    pose proof (wr_writing _ Hw) as W1. rewrite Hn in W1. destruct W1 as (C1 & C2 & _).
    rewrite run_write_frame by done. cbn [w1 con with_posted]. rewrite Hf. cbn [mbind option_bind].
    eexists. split; [done|]. split; [split; [by apply write_inv_write|]|].
    + unfold w_write. simpl. destruct (pop_ready _) as [[|m q] rest]; [done|]. by destruct Hs.
    + exists ms, ec, p. unfold w_write. simpl. destruct (pop_ready _) as [[|m q] rest]; [done|].
      by eapply streamed_ext; [..|exact Hst].
Qed.

Lemma streamed_terminate ec' w ms ec p : streamed w ms ec p -> streamed (w_terminate ec' w) ms ec p.
Proof.
  destruct (seen_terminate ec' w) as [Es Ec]. destruct (kept_terminate ec' w) as (_ & E2 & _ & _ & E5 & E6 & _).
  apply streamed_ext; done.
Qed.

Lemma event_write_done ec n w : session_inv w -> is_Some (writing w) -> steps_to w (WriteDone ec n).
Proof.
  intros [[Hw Hs] (ms & ec0 & p & Hst)] [octets Ho]. unfold steps_to. simpl. rewrite Ho. cbn [mbind option_bind].
  pose proof (wr_writing _ Hw) as W1. rewrite Ho in W1. destruct W1 as (_ & C2 & _).
  destruct (last (m_current_msgs (con w))) as [back|] eqn:Eb; [|by apply last_None in Eb].
  pose proof (write_inv_done ec n w octets back Hw Ho Eb) as Hdone. cbv zeta in Hdone.
  set (w1 := with_wire_out (wire_out w ++ match ec with None => octets | Some _ => take n octets end)
              (with_writing None w)) in *.
  rewrite (run_handle_write_frame ec w1 back) by done. cbn [mbind option_bind]. cbv zeta.
  eexists. split; [done|].
  assert (state_inv (with_con (set_sending [] [] (m_write_flag (con w1)) (con w1)) w1)) as Hs1 by by destruct Hs.
  assert (streamed (with_con (set_sending [] [] (m_write_flag (con w1)) (con w1)) w1) ms ec0 p) as Hst1
    by by eapply streamed_ext; [..|exact Hst].
  split; [split; [exact Hdone|]|exists ms, ec0, p]; destruct ec as [e|]; try (by apply state_terminate);
    try (by apply streamed_terminate); (destruct (m_terminal back);
      [first [by apply state_terminate|by apply streamed_terminate]|]).
  - case_match; by destruct Hs.
  - case_match; by eapply streamed_ext; [..|exact Hst].
Qed.

Lemma session_terminate ec w : session_inv w -> session_inv (w_terminate ec w).
Proof.
  intros [Hb (ms & ec0 & p & Hst)]. split; [by apply both_terminate|]. exists ms, ec0, p. by apply streamed_terminate.
Qed.

Lemma event_timer ec w : session_inv w -> steps_to w (TimerDone ec).
Proof.
  intros [Hb (ms & ec0 & p & Hst)]. unfold steps_to. simpl.
  set (w1 := with_timers (timers w - 1) w).
  assert (session_inv w1) as H1.
  { split; [by eapply both_ext; [..|exact Hb]|]. exists ms, ec0, p. by eapply streamed_ext; [..|exact Hst]. }
  unfold handle_close_handshake_timeout. destruct ec; [rewrite run_ret|rewrite run_terminate]; cbn [mbind option_bind];
    (eexists; split; [done|]); [done|by apply session_terminate].
Qed.

Lemma event_open_timer ec w : session_inv w -> steps_to w (OpenTimerDone ec).
Proof.
  intros Hi. unfold steps_to. simpl. unfold handle_open_handshake_timeout.
  destruct ec; [rewrite run_ret|rewrite run_terminate]; cbn [mbind option_bind];
    (eexists; split; [done|]); [done|by apply session_terminate].
Qed.

Lemma event_shutdown ec w : session_inv w -> shutdowns w <> [] -> steps_to w (ShutdownDone ec).
Proof.
  intros [[Hw [S1 S2 S3 S4 S5 S6 [S7 S8]]] (ms & ec0 & p & Hst)] Hn. unfold steps_to. simpl.
  destruct (shutdowns w) as [|t rest] eqn:E; [done|]. apply Forall_cons_1 in S6 as [<- S6].
  unfold handle_terminate. rewrite run_act. cbn [mbind option_bind]. eexists. split; [done|].
  split; [split; [by eapply write_inv_ext; [|exact Hw]|]|exists ms, ec0, p; by eapply streamed_ext; [..|exact Hst]].
  split; try done. simpl. split; [done|]. simpl in S8. destruct (bool_decide _); lia.
Qed.

Lemma receive_more input buf ms p : Forall is_byte input -> Forall is_byte buf ->
  receive input fresh = Some (ms, None, p) ->
  exists ms' ec p' p'', receive buf p = Some (ms', ec, p') /\ waiting p /\
    receive (input ++ buf) fresh = Some (ms ++ ms', ec, p'') /\ (ec = None -> p'' = p').
Proof.
  intros Hi Hb E. pose proof (waiting_new true max_message_size) as Hw.
  destruct (receive_ends input fresh Hw Hi) as (ms0 & ec0 & p0 & E0 & Hw0). rewrite E in E0. simplify_eq.
  specialize (Hw0 eq_refl). destruct (receive_ends buf p0 Hw0 Hb) as (ms1 & ec1 & p1 & E1 & _).
  assert (Forall is_byte (input ++ buf)) as Hall by by apply Forall_app.
  pose proof (receive_app input buf fresh Hw Hall) as Happ. rewrite E in Happ.
  cbn [and_then mbind option_bind] in Happ. rewrite E1 in Happ. cbn [prepend mbind option_bind] in Happ.
  destruct (receive (input ++ buf) fresh) as [[[ms2 ec2] p2]|]; [|done]. destruct Happ as (-> & -> & Hp).
  exists ms1, ec1, p1, p2. done.
Qed.

Lemma event_read_error e buf w : session_inv w -> (0 < reading w)%nat -> steps_to w (ReadDone (Some e) buf).
Proof.
  intros [Hb (ms & ec0 & p & Hst)] Hr. unfold steps_to. simpl.
  set (w1 := with_reading (reading w - 1) w).
  assert (both_inv w1) as Hb1 by by apply both_reading.
  assert (streamed w1 ms ec0 p) as Hst1.
  { destruct Hst as [T1 T2 T3 T4 T5 T6 T7]. split; try done; simpl; [lia|]. intros. lia. }
  unfold handle_read_frame. exec.
  assert (m_is_server (con w1) = true) as Hsrv by by destruct (both_serving _ Hb1).
  rewrite Hsrv. cbn [negb]. rewrite !andb_false_r.
  repeat (case_match; [rewrite run_ret; cbn [mbind option_bind]; eexists; (split; [done|]); by split; [|do 3 eexists]|]).
  rewrite run_terminate. cbn [mbind option_bind]. eexists. split; [done|].
  split; [by apply both_terminate|exists ms, ec0, p; by apply streamed_terminate].
Qed.

Lemma prefix_of_app_l {A} (l1 l2 l3 : list A) : l1 `prefix_of` l2 -> l1 `prefix_of` l2 ++ l3.
Proof. apply prefix_app_r. Qed.

Lemma prefix_of_app_both {A} (l1 l2 l3 : list A) : l1 ++ l2 `prefix_of` l1 ++ l2 ++ l3.
Proof. exists l3. by rewrite app_assoc. Qed.

(** What a read adds to the stream, when its messages have been dispatched. *)
Lemma streamed_read buf w w4 ms ms1 p ec p'' : streamed w ms None p -> Forall is_byte buf ->
  receive (input w ++ buf) fresh = Some (ms ++ ms1, ec, p'') -> input w4 = input w ++ buf -> (reading w4 = 0)%nat ->
  (if bool_decide (m_state (con w) = open) then
     seen w4 = (delivered w ++ data_messages (heard ms1), pongs (pushed w) ++ answers (heard ms1)) /\
     (m_state (con w4) = open -> has_close ms1 = false)
   else seen w4 = seen w /\ m_state (con w4) <> open) ->
  (m_state (con w4) = open -> ec = None) -> streamed w4 (ms ++ ms1) ec p''.
Proof.
  intros [T1 T2 T3 T4 T5 T6 T7] Hbuf E Ein R0 Hseen Hec. unfold seen in Hseen. destruct (heard_prefix ms1) as (rest & Eh).
  split; rewrite ?Ein; [done|by apply Forall_app|lia|lia| | |].
  - rewrite data_messages_app. case_bool_decide as Ho; destruct Hseen as [[= -> _] _]; [|by apply prefix_of_app_l].
    destruct (T7 Ho) as (_ & _ & -> & _). rewrite Eh at 2. rewrite data_messages_app. apply prefix_of_app_both.
  - rewrite answers_app. case_bool_decide as Ho; destruct Hseen as [[= _ ->] _]; [|by apply prefix_of_app_l].
    destruct (T7 Ho) as (_ & _ & _ & ->). rewrite Eh at 2. rewrite answers_app. apply prefix_of_app_both.
  - intros Ho4. split; [by apply Hec|]. case_bool_decide as Ho; [|by destruct Hseen].
    destruct Hseen as [[= -> ->] Hc]. specialize (Hc Ho4). destruct (T7 Ho) as (_ & Hcl & Ed & Ea).
    unfold has_close in *. rewrite existsb_app, Hcl, Hc. split; [done|].
    by rewrite (heard_all ms1 Hc), data_messages_app, answers_app, Ed, Ea.
Qed.

Lemma event_read buf w : session_inv w -> (0 < reading w)%nat -> Forall is_byte buf ->
  steps_to w (ReadDone None buf).
Proof.
  intros [Hb (ms & ec0 & p & Hst)] Hr Hbuf. pose proof Hst as [T1 T2 T3 T4 _ _ _]. destruct (T4 Hr) as [-> Ep].
  destruct (receive_more (input w) buf ms p T2 Hbuf T1) as (ms' & ec & p' & p'' & E1 & Hwait & E2 & Hp).
  unfold steps_to. simpl. set (w1 := with_input (input w ++ buf) (with_reading (reading w - 1) w)).
  assert (both_inv w1) as Hb1 by (destruct Hb as [Hw [? ? ? ? ? ? ?]]; split; [by eapply write_inv_ext; [|exact Hw]|by split]).
  pose proof Hb1 as [_ [I1 I2 _ _ _ _ _]]. pose proof (both_serving _ Hb1) as Hs1.
  unfold handle_read_frame. exec. rewrite I2. rewrite bool_decide_eq_true_2 by done. exec.
  destruct (run_read_loop (S (length buf)) buf w1 Hs1 I1) as (ms1 & ec1 & p1 & Er & Hg & Hsrv & Hw1 & Erun);
    [by rewrite <-Ep in Hwait|done|lia|].
  assert (m_processor (con w1) = p) as Ep1 by done. rewrite Ep1 in Er.
  unfold receive in E1. rewrite E1 in Er. simplify_eq. rewrite Erun. cbv zeta.
  set (w2 := foldl w_dispatch w1 ms1).
  assert (both_inv w2) as Hb2 by by apply both_dispatches.
  pose proof (kept_dispatches ms1 w1) as Hk. fold w2 in Hk.
  set (w3 := w_set_processor p1 w2).
  assert (both_inv w3) as Hb3 by by apply both_set_processor.
  (* What the messages have done. *)
  pose proof (seen_dispatches ms1 w1 I1 Hg) as Hseen.
  destruct Hk as (_ & _ & _ & Hflag & Hin & Hread & _).
  assert (forall w4, kept w3 w4 -> seen w4 = seen w2 -> (m_state (con w4) = open -> m_state (con w2) = open) ->
    (m_state (con w4) = open -> ec1 = None) -> streamed w4 (ms ++ ms1) ec1 p'') as Hfin.
  { intros w4 (K1 & K2 & K3 & K4 & K5 & K6 & _) Hseen4 Hopen Hec.
    eapply (streamed_read buf w); [exact Hst|done..| | | |].
    - rewrite K5. exact Hin.
    - rewrite K6. simpl. rewrite Hread. simpl. lia.
    - change (delivered w1) with (delivered w) in Hseen. change (pushed w1) with (pushed w) in Hseen.
      change (con w1) with (con w) in Hseen. fold w2 in Hseen. case_bool_decide; rewrite Hseen4; [|tauto].
      split; [apply Hseen|]. intros Ho4%Hopen. by apply Hseen.
    - done. }
  destruct ec1 as [e|]; cbn [mbind option_bind].
  - rewrite run_consume_failed by by apply both_serving. cbn [mbind option_bind]. exec.
    destruct (seen_failed e w3) as [Hs3 Ho3].
    eexists. split; [done|]. split; [by apply both_failed|]. exists (ms ++ ms1), (Some e), p''.
    apply Hfin; try done. apply kept_failed.
  - exec. unfold read_frame. exec.
    assert (streamed w3 (ms ++ ms1) None p'') as Hst3 by (by apply Hfin).
    specialize (Hp eq_refl). subst p''.
    destruct (m_read_flag (con w3)) eqn:Ef; exec; (eexists; split; [done|]).
    + split; [by apply both_reading|]. exists (ms ++ ms1), None, p1.
      destruct Hst3 as [V1 V2 V3 V4 V5 V6 V7]. split; try done; simpl; rewrite Hread; simpl; lia.
    + split; [done|]. by do 3 eexists.
Qed.

Lemma event_ok e w : session_inv w -> enabled e w -> steps_to w e.
Proof.
  destruct e as [msg|i|code reason| |ec n|[ec|] buf|ec|ec|ec]; simpl; intros Hi He.
  - by apply event_send_check.
  - by apply event_send_push.
  - apply event_close; tauto.
  - by apply event_posted.
  - by apply event_write_done.
  - apply event_read_error; tauto.
  - apply event_read; tauto.
  - by apply event_timer.
  - by apply event_shutdown.
  - by apply event_open_timer.
Qed.

Lemma session_reachable_inv w : reachable ping_handler w -> session_inv w.
Proof.
  induction 1 as [|w e w' _ IH He Hrun]; [apply session_opened|].
  destruct (event_ok e w IH He) as (w2 & E & Hi). rewrite Hrun in E. by simplify_eq.
Qed.

(** How a session ends. *)
Lemma session_ends w : session_inv w -> fails w = 0%nat /\ (closes w <= 1)%nat /\
  (closes w = 1%nat -> m_state (con w) = closed /\ shutdowns w = []).
Proof.
  intros [[_ [S1 S2 S3 S4 S5 S6 [S7 S8]]] _]. split; [done|].
  case_bool_decide as Hc; [|split; [lia|intros; lia]]. split; [lia|]. intros E1. split; [done|].
  apply nil_length_inv. lia.
Qed.

End session.
