(* ===== verification/WsSessionCorrect.v ===== *)
(** * The connection: theorems

    Safety of all reachable worlds, the order of what is written, what is
    delivered in the terms of RFC 6455, and what a browser sends. *)
From S2P Require Import Prelude WsServer Utf8 WsFrame WsFrameProps Hybi13 Hybi13Props Hybi13Stream Hybi13Frames Hybi13Wire WsConnection WsSession WsSessionProps.
Import frame hybi13 WsConnection WsSession.

#[local] Set Default Proof Using "Type*".

Section session.
Context `{MachineLaws}.
Context (ping_handler : option (list Z -> bool)).

(** ** Writing *)
Lemma terminal_prefix (ms pre post : list message) m rest : only_last_terminal ms ->
  ms ++ rest = pre ++ m :: post -> m_terminal m = true -> exists more, pre ++ [m] = ms ++ more.
Proof.
  intros Ht E Hm. assert (pre ++ m :: post = (pre ++ [m]) ++ post) as E' by by rewrite <-app_assoc.
  rewrite E' in E. apply app_eq_inv in E as [(k & E1 & E2)|(k & E1 & E2)].
  - destruct k as [|x k]; [exists []; by rewrite app_nil_r in *|]. exfalso.
    unfold only_last_terminal in Ht. rewrite E1, removelast_app in Ht by done.
    apply Forall_app in Ht as [Ht _]. apply Forall_app in Ht as [_ Ht]. apply Forall_cons_1 in Ht as [Ht _].
    unfold plain in Ht. congruence.
  - by exists k.
Qed.

(** C15. What a connection writes.  In every reachable world the octets that
    are out are a prefix of the queued frames, header and payload each, in the
    order they were queued - none twice, none torn apart by another - and of
    the frames up to the first that is marked terminal.  No frame is
    forgotten: on a connection that has not ended, with no write under way
    and none posted, everything queued is out. *)
Theorem frames_leave_in_order w : reachable ping_handler w ->
  (exists rest, buffers (pushed w) = wire_out w ++ rest) /\
  (forall pre m post, pushed w = pre ++ m :: post -> m_terminal m = true ->
     exists rest, buffers (pre ++ [m]) = wire_out w ++ rest) /\
  (m_state (con w) <> closed -> writing w = None -> posted w = 0%nat -> wire_out w = buffers (pushed w)).
Proof.
  intros Hr. destruct (session_reachable_inv ping_handler w Hr) as [[[W1 W2 W3 (d & l & [L1 (part & rest & L2 & L2') L3 L4 L5])] _] _].
  assert (forall more, exists r, buffers (d ++ l ++ more) = wire_out w ++ r) as Hpre.
  { intros more. exists (rest ++ buffers more). rewrite !buffers_app, L2, L2'. by rewrite <-!app_assoc. }
  split; [|split].
  - rewrite L1. apply Hpre.
  - intros pre m post E Hm.
    assert (only_last_terminal (d ++ l)) as Hdl.
    { unfold only_last_terminal in *. destruct (m_current_msgs (con w)) as [|x q]; [by rewrite app_nil_r in L4|].
      rewrite app_assoc, removelast_app in L4 by done. apply Forall_app in L4 as [L4 _].
      rewrite <-(app_nil_r (d ++ l)). apply only_last_terminal_app; [done|constructor]. }
    rewrite L1, app_assoc in E. destruct (terminal_prefix _ _ _ _ _ Hdl E Hm) as (more & ->).
    rewrite <-app_assoc. apply Hpre.
  - intros Ho Hw Hp. rewrite Hw in W1. destruct W1 as (C1 & _ & Hf).
    assert (m_write_flag (con w) = false) as Hf0 by (destruct (m_write_flag (con w)); [by rewrite Hf in Ho|done]).
    assert (l = []) as ->.
    { destruct l; [done|]. destruct L3 as (_ & ? & _); [done|]. congruence. }
    assert (m_send_queue (con w) = []) as Hq.
    { destruct (m_send_queue (con w)); [done|]. specialize (W2 ltac:(done) Hf0). lia. }
    rewrite L1, C1, Hq, L2. destruct part; [|done]. by rewrite !app_nil_r.
Qed.

(** C13. A connection runs safely.  Whatever threads send, whatever arrives and
    however the transport's operations end, in every reachable world each
    event that can happen is handled without undefined behaviour; at most one
    read and one write are under way; the queue's size is accounted for; and
    the close handler is called at most once, after the state is [closed], the
    fail handler never. *)
Theorem connection_is_safe w e : reachable ping_handler w -> enabled e w ->
  (exists w', run_event ping_handler e w = Some w') /\
  (reading w <= 1)%nat /\
  (forall octets, writing w = Some octets -> octets = buffers (m_current_msgs (con w)) /\ m_write_flag (con w) = true) /\
  m_send_buffer_size (con w) = size_t (queue_size (m_send_queue (con w))) /\
  fails w = 0%nat /\ (closes w <= 1)%nat /\ (closes w = 1%nat -> m_state (con w) = closed /\ shutdowns w = []).
Proof.
  intros Hr He. pose proof (session_reachable_inv ping_handler w Hr) as Hi.
  destruct (event_ok ping_handler e w Hi He) as (w' & E & _). split; [by exists w'|].
  pose proof (session_ends ping_handler w Hi) as Hends. destruct Hi as [[[W1 W2 W3 _] _] (ms & ec & p & [T1 T2 T3 T4 T5 T6 T7])].
  split; [done|]. split; [|split; [done|exact Hends]].
  intros octets Ho. rewrite Ho in W1. destruct W1 as (? & _ & ?). done.
Qed.

(** ** Reading *)
Definition is_data_op (x : Z * list Z) : bool := negb (is_control x.1).
Definition data_contents (out : list (Z * list Z)) : list (Z * list Z) := List.filter is_data_op out.
Definition ping_payloads (out : list (Z * list Z)) : list (list Z) :=
  map snd (List.filter (fun x => (x.1 =? frame.ping) && ping_allowed ping_handler x.2) out).

Lemma contents_app out1 out2 : data_contents (out1 ++ out2) = data_contents out1 ++ data_contents out2.
Proof. apply List.filter_app. Qed.
Lemma pings_app out1 out2 : ping_payloads (out1 ++ out2) = ping_payloads out1 ++ ping_payloads out2.
Proof. unfold ping_payloads. by rewrite List.filter_app, map_app. Qed.

Lemma contents_cons m ms out : map message_contents (m :: ms) = map rule_contents out ->
  exists op payload out', out = (op, payload) :: out' /\ m_opcode m = Some op /\ m_payload m = payload /\
    map message_contents ms = map rule_contents out'.
Proof.
  destruct out as [|[op payload] out]; [done|]. simpl. unfold message_contents, rule_contents at 1.
  intros [= E1 E2 E3]. by exists op, payload, out.
Qed.

Lemma contents_data ms : forall out, map message_contents ms = map rule_contents out ->
  map message_contents (data_messages ms) = map rule_contents (data_contents out).
Proof.
  induction ms as [|m ms IH]; intros out E; [by destruct out|].
  apply contents_cons in E as (op & payload & out' & -> & Ho & Hp & E). specialize (IH _ E).
  assert (is_data m = negb (is_control op)) as Em by (unfold is_data; by rewrite Ho).
  unfold data_messages, data_contents in *. simpl. rewrite Em. unfold is_data_op at 1. simpl.
  destruct (is_control op); simpl; [done|]. rewrite IH. f_equal. unfold message_contents. by rewrite Ho, Hp.
Qed.

Lemma contents_pings ms : forall out, map message_contents ms = map rule_contents out ->
  answers ping_handler ms = ping_payloads out.
Proof.
  induction ms as [|m ms IH]; intros out E; [by destruct out|].
  apply contents_cons in E as (op & payload & out' & -> & Ho & Hp & E). specialize (IH _ E).
  assert (is_op frame.ping m = (op =? frame.ping)) as Em by (unfold is_op; by rewrite Ho).
  unfold answers, ping_payloads in *. simpl. rewrite Em, Hp.
  destruct ((op =? frame.ping) && ping_allowed ping_handler payload); simpl; by rewrite ?Hp, IH.
Qed.

Lemma contents_close ms : forall out, map message_contents ms = map rule_contents out ->
  has_close ms = existsb (fun x => x.1 =? frame.close) out.
Proof.
  induction ms as [|m ms IH]; intros out E; [by destruct out|].
  apply contents_cons in E as (op & payload & out' & -> & Ho & Hp & E). specialize (IH _ E).
  assert (is_op frame.close m = (op =? frame.close)) as Em by (unfold is_op; by rewrite Ho).
  unfold has_close in *. simpl. by rewrite Em, IH.
Qed.

Lemma prefix_map {A B} (f : A -> B) (l1 l2 : list A) : l1 `prefix_of` l2 -> map f l1 `prefix_of` map f l2.
Proof. intros (k & ->). exists (map f k). apply map_app. Qed.

(** C16. What a connection delivers and answers.  When the octets read so far
    are frames, and the rules of RFC 6455 are run over them: while the connection
    is open, the message handler has been called for the data messages that the
    rules deliver, in their order, and the payloads of the pings among them have
    been queued as pongs.  Unless the run comes to a frame on which the code
    departs from the rules ([departs]: a length that is not minimal, or a
    fragmented text that ends inside a character), it has been called for
    nothing else, calls are missing only if the connection is no longer open,
    and while it is open there was no close frame and no violation. *)
Theorem connection_follows_frame_rules w fs : reachable ping_handler w ->
  Forall frame_ok fs -> input w = wires fs ->
  Z.of_nat (length (input w)) < 256 ^ Z.of_nat sizeof_size_t ->
  exists out r, rfc_rules true max_message_size None fs out r /\
    (m_state (con w) = open ->
       map rule_contents (data_contents out) `prefix_of` map message_contents (delivered w) /\
       ping_payloads out `prefix_of` pongs (pushed w)) /\
    (~ departs true max_message_size None fs ->
       map message_contents (delivered w) `prefix_of` map rule_contents (data_contents out) /\
       pongs (pushed w) `prefix_of` ping_payloads out /\
       (m_state (con w) = open ->
          r = None /\ existsb (fun x => x.1 =? frame.close) out = false /\
          map message_contents (delivered w) = map rule_contents (data_contents out) /\
          pongs (pushed w) = ping_payloads out)).
Proof.
  intros Hr Hfs Ein Hlen.
  destruct (session_reachable_inv ping_handler w Hr) as [_ (ms & ec & p & [T1 T2 T3 T4 T5 T6 T7])].
  destruct (receive_frames true max_message_size fs None fresh) as (ms' & ec' & p' & out & E & Hout & Hrun);
    [apply between_new|done|rewrite <-Ein; simpl; lia|].
  rewrite <-Ein, T1 in E. simplify_eq.
  pose proof (contents_data _ _ Hout) as Hd. pose proof (contents_pings _ _ Hout) as Hpi.
  destruct (code_rules_rfc _ _ _ _ _ _ Hrun) as (out' & r & Hr' & [rest Eout] & Hsame).
  exists out', r. split; [done|]. split.
  - intros Ho. destruct (T7 Ho) as (_ & _ & Ed & Ea). rewrite Ed, Ea, Hd, Hpi, Eout, contents_app, pings_app, map_app.
    split; by apply prefix_app_r.
  - intros Hn. destruct (Hsame Hn) as [E1 E2]. clear Eout. subst out' r.
    split; [rewrite <-Hd; by apply prefix_map|]. split; [by rewrite <-Hpi|].
    intros Ho. destruct (T7 Ho) as (-> & Hc & Ed & Ea). split; [done|]. split; [by rewrite <-(contents_close _ _ Hout)|].
    rewrite Ed, Ea. done.
Qed.

End session.

(** ** A session: a browser lights the LED, pings, and steers *)
Section session_witnesses.
#[local] Existing Instance armhf.
#[local] Existing Instance armhf_laws.

Definition session_sends : list (Z * request) :=
  [(0x01020304, SendData text (str "led 40")); (5, SendPing [1; 2]);
   (0xffffffff, SendData text (str "js -40 100"))].
Definition session_outs : list message :=
  omap (fun s => match prepare s.1 (new_processor false 0) s.2 with
                 | Some (None, Some m) => Some m
                 | _ => None
                 end) session_sends.
Definition session_frames : list wire_frame :=
  map (fun s => prepared_frame false (request_contents s.2).1 s.1 (request_contents s.2).2) session_sends.
Definition session_octets : list Z := concat (map octets_of session_outs).

(** The frames arrive in two reads; the pong is written. *)
Definition session_events : list event :=
  [ReadDone None (take 9 session_octets); ReadDone None (drop 9 session_octets); RunPosted].
Definition session_run (evs : list event) : option world :=
  foldl (fun w e => w ← w; run_event None e w) (Some (opened_world)) evs.
Definition session_world (evs : list event) : world := default opened_world (session_run evs).

Lemma session_reachable : Forall is_byte session_octets ->
  reachable None (session_world (take 2 session_events)) /\ reachable None (session_world session_events).
Proof.
  intros Hb.
  assert (reachable None (session_world (take 1 session_events))) as H1.
  { eapply (reach_step None opened_world (ReadDone None (take 9 session_octets))); [apply reach_open| |].
    - split; [vm_compute; lia|by apply Forall_take].
    - vm_compute. reflexivity. }
  assert (reachable None (session_world (take 2 session_events))) as H2.
  { eapply (reach_step None _ (ReadDone None (drop 9 session_octets)) _ H1).
    - split; [vm_compute; lia|by apply Forall_drop].
    - vm_compute. reflexivity. }
  split; [exact H2|]. eapply (reach_step None _ RunPosted _ H2); [vm_compute; lia|].
  vm_compute. reflexivity.
Qed.

Lemma session_octets_bytes : Forall is_byte session_octets.
Proof. vm_compute. repeat constructor; discriminate. Qed.

Lemma frames_leave_in_order_witness :
  exists rest, buffers (pushed (session_world session_events)) = wire_out (session_world session_events) ++ rest.
Proof.
  destruct (frames_leave_in_order None (session_world session_events)
    (proj2 (session_reachable session_octets_bytes))) as ((rest & E) & _).
  exists rest. exact E.
Defined.

Lemma connection_is_safe_witness :
  writing (session_world session_events) = Some [0x8a; 2; 1; 2] /\
  exists w', run_event None (WriteDone None 0) (session_world session_events) = Some w'.
Proof.
  split; [vm_compute; reflexivity|].
  destruct (connection_is_safe None (session_world session_events) (WriteDone None 0)
    (proj2 (session_reachable session_octets_bytes)) ltac:(exists [0x8a; 2; 1; 2]; vm_compute; reflexivity)) as [E _].
  exact E.
Defined.

Lemma connection_follows_frame_rules_witness :
  exists out r, rfc_rules true max_message_size None session_frames out r /\ r = None /\
    map message_contents (delivered (session_world session_events)) = map rule_contents (data_contents out).
Proof.
  destruct (connection_follows_frame_rules None (session_world session_events) session_frames
    (proj2 (session_reachable session_octets_bytes))) as (out & r & Hr & _ & Ho).
  - unfold session_frames. cbn [map session_sends]. repeat apply Forall_cons_2; [..|constructor];
      (apply (prepared_frame_ok); [split; [discriminate|reflexivity]|reflexivity|];
       vm_compute; repeat constructor; discriminate).
  - vm_compute. reflexivity.
  - vm_compute. reflexivity.
  - exists out, r. split; [exact Hr|]. destruct Ho as (_ & _ & Ho).
    + apply whole_frames_keep. unfold session_frames. cbn [map session_sends].
      repeat apply Forall_cons_2; [..|constructor]; (split; [split; vm_compute; discriminate|reflexivity]).
    + destruct Ho as (E1 & _ & E & _); [vm_compute; reflexivity|]. split; [exact E1|exact E].
Defined.

End session_witnesses.
