(* ===== verification/WsLiveness.v ===== *)
(** * The closing handshake comes to its end

    When the transport completes what it has been asked for, without errors,
    and nothing else happens, everything that was queued is written, and a
    connection whose last frame is among it is closed and has called the close
    handler. *)
From S2P Require Import Prelude Utf8 WsFrame WsFrameProps Hybi13 Hybi13Props Hybi13Stream Hybi13Frames Hybi13Wire WsConnection WsSession WsSessionProps.
Import frame hybi13 WsConnection WsSession.

#[local] Set Default Proof Using "Type*".

(** ** A transport without errors *)
Definition next_event (w : world) : option event :=
  match writing w with
  | Some _ => Some (WriteDone None 0)
  | None =>
      if (0 <? posted w)%nat then Some RunPosted
      else match shutdowns w with [] => None | _ => Some (ShutdownDone None) end
  end.

(** How much there is to do. *)
Definition work (w : world) : nat :=
  4 * length (m_send_queue (con w)) + match writing w with Some _ => 2 | None => 0 end +
  posted w + length (shutdowns w).

Section session.
Context `{MachineLaws}.
Context (ping_handler : option (list Z -> bool)).

Fixpoint drain (fuel : nat) (w : world) : option world :=
  match next_event w with
  | None => Some w
  | Some e =>
      match fuel with
      | O => None
      | S fuel' => w ← run_event ping_handler e w; drain fuel' w
      end
  end.

Lemma next_event_enabled w e : next_event w = Some e -> enabled e w.
Proof.
  unfold next_event. destruct (writing w) as [octets|] eqn:Ew.
  - intros [= <-]. by eexists.
  - destruct (Nat.ltb_spec 0 (posted w)); [by intros [= <-]|].
    destruct (shutdowns w) eqn:Es; [done|]. intros [= <-]. simpl. by rewrite Es.
Qed.

(** Each event does some of the work and queues nothing. *)
Definition progresses (w w' : world) : Prop := (work w' < work w)%nat /\ pushed w' = pushed w.

Lemma work_terminate ec w : (work (w_terminate ec w) <= S (work w))%nat /\ pushed (w_terminate ec w) = pushed w.
Proof.
  unfold w_terminate, ended, work. destruct ec, (m_state (con w)); simpl; rewrite ?length_app; simpl; split; (done || lia).
Qed.

Lemma write_done_progresses w octets w' : session_inv ping_handler w -> writing w = Some octets ->
  run_event ping_handler (WriteDone None 0) w = Some w' -> progresses w w'.
Proof.
  intros [[Hw _] _] Ho E. cbn [run_event] in E. rewrite Ho in E. cbn [mbind option_bind] in E.
  pose proof (wr_writing _ Hw) as W1. rewrite Ho in W1. destruct W1 as (_ & C2 & _).
  destruct (last (m_current_msgs (con w))) as [back|] eqn:Eb; [|by apply last_None in Eb].
  set (w1 := with_wire_out (wire_out w ++ octets) (with_writing None w)) in *.
  rewrite (run_handle_write_frame None w1 back) in E by done. cbn [mbind option_bind] in E. injection E as <-.
  unfold progresses. destruct (m_terminal back).
  - set (w2 := with_con _ w1). destruct (work_terminate None w2) as [Hle Hp]. split; [|exact Hp].
    unfold work in Hle |- *. unfold w2, w1 in *. simpl in Hle |- *. rewrite Ho. lia.
  - unfold work. cbn [con with_con w1 with_wire_out with_writing set_sending m_send_queue posted].
    destruct (m_send_queue (con w)) as [|m q] eqn:Eq; simpl; rewrite Ho, ?Eq; simpl; (split; [lia|done]).
Qed.

Lemma posted_progresses w w' : session_inv ping_handler w -> writing w = None -> (0 < posted w)%nat ->
  run_event ping_handler RunPosted w = Some w' -> progresses w w'.
Proof.
  intros [[Hw _] _] Hn Hp E. cbn [run_event] in E. set (w1 := with_posted (posted w - 1) w) in *.
  pose proof (wr_writing _ Hw) as W1. rewrite Hn in W1. destruct W1 as (C1 & C2 & _).
  rewrite run_write_frame in E by done. cbn [mbind option_bind] in E. injection E as <-. unfold progresses, work.
  change (m_write_flag (con w1)) with (m_write_flag (con w)).
  destruct (m_write_flag (con w)); [simpl; rewrite Hn; clear -Hp; split; [lia|done]|]. unfold w_write.
  pose proof (pop_ready_app (m_send_queue (con w1))) as Happ.
  destruct (pop_ready (m_send_queue (con w1))) as [[|m ms] rest]; cbn [fst snd] in Happ; simpl.
  - rewrite Hn. clear -Hp. split; [lia|done].
  - change (m_send_queue (con w1)) with (m_send_queue (con w)) in Happ. rewrite <-Happ, Hn, length_app. simpl.
    clear -Hp. split; [lia|done].
Qed.

Lemma shutdown_progresses w w' : session_inv ping_handler w -> writing w = None -> posted w = 0%nat ->
  run_event ping_handler (ShutdownDone None) w = Some w' -> progresses w w'.
Proof.
  intros [[_ [_ _ _ _ _ S6 _]] _] Hn Hp E. cbn [run_event] in E.
  destruct (shutdowns w) as [|t rest] eqn:Es; [done|]. apply Forall_cons_1 in S6 as [<- _].
  unfold handle_terminate in E. rewrite run_act in E. cbn [mbind option_bind] in E. injection E as <-.
  unfold progresses, work. simpl. rewrite Es, Hn. simpl. split; [lia|done].
Qed.

Lemma next_event_progresses w e w' : session_inv ping_handler w -> next_event w = Some e ->
  run_event ping_handler e w = Some w' -> progresses w w'.
Proof.
  unfold next_event. intros Hi. destruct (writing w) as [octets|] eqn:Ew.
  { intros [= <-]. by apply write_done_progresses with octets. }
  destruct (Nat.ltb_spec 0 (posted w)); [intros [= <-]; by apply posted_progresses|].
  destruct (shutdowns w) eqn:Es; [done|]. intros [= <-]. apply shutdown_progresses; [done|done|lia].
Qed.

Lemma drain_ends fuel : forall w, reachable ping_handler w -> (work w <= fuel)%nat ->
  exists w', drain fuel w = Some w' /\ reachable ping_handler w' /\ next_event w' = None /\ pushed w' = pushed w.
Proof.
  induction fuel as [|fuel IH]; intros w Hr Hf; cbn [drain]; destruct (next_event w) as [e|] eqn:En;
    try (by exists w); pose proof (session_reachable_inv ping_handler w Hr) as Hi; pose proof (next_event_enabled w e En) as He;
    destruct (event_ok ping_handler e w Hi He) as (w1 & E & Hi1);
    destruct (next_event_progresses w e w1 Hi En E) as [Hlt Hp]; [lia|].
  rewrite E. cbn [mbind option_bind].
  destruct (IH w1) as (w2 & E2 & Hr2 & Hn2 & Hp2); [by eapply reach_step|lia|].
  exists w2. split; [done|]. split; [done|]. split; [done|]. congruence.
Qed.

(** Nothing left to do. *)
Lemma quiet_world w : session_inv ping_handler w -> next_event w = None ->
  (m_state (con w) <> closed -> wire_out w = buffers (pushed w) /\ Forall plain (pushed w)) /\
  (m_state (con w) = closed -> closes w = 1%nat).
Proof.
  intros [[[W1 W2 W3 (d & l & [L1 (part & rest & L2 & L2') L3 L4 L5])] [S1 S2 S3 S4 S5 S6 [S7 S8]]] _].
  unfold next_event. destruct (writing w) eqn:Ew; [done|]. destruct (Nat.ltb_spec 0 (posted w)) as [|Hp]; [done|].
  destruct (shutdowns w) eqn:Es; [|done]. intros _. destruct W1 as (C1 & C2 & Hflag). split.
  - intros Hopen. assert (m_write_flag (con w) = false) as Hf by (destruct (m_write_flag (con w)); [by rewrite Hflag in Hopen|done]).
    assert (l = []) as ->.
    { destruct l; [done|]. destruct L3 as (_ & ? & _); [done|]. congruence. }
    assert (m_send_queue (con w) = []) as Hq.
    { destruct (m_send_queue (con w)); [done|]. specialize (W2 ltac:(done) Hf). lia. }
    rewrite L1, C1, Hq, L2. cbn [app]. rewrite !app_nil_r. split; [|by apply L5].
    destruct part; [|done]. by rewrite app_nil_r.
  - intros Hc. rewrite bool_decide_eq_true_2 in S8 by done. simpl in S8. lia.
Qed.

(** C14. The closing handshake ends.  From every reachable world the transport
    comes to rest after at most [work w] completions.  If the connection has
    queued a frame marked as the last - its answer to the browser's close
    frame, or its own close frame after a violation - or has ended already,
    it is then closed and the close handler has been called exactly once;
    otherwise every frame it queued has been written. *)
Theorem closing_handshake_ends w : reachable ping_handler w ->
  exists w', drain (work w) w = Some w' /\ reachable ping_handler w' /\ next_event w' = None /\ pushed w' = pushed w /\
    (Exists (fun m => m_terminal m = true) (pushed w) -> m_state (con w') = closed) /\
    (m_state (con w') = closed -> closes w' = 1%nat) /\
    (m_state (con w') <> closed -> wire_out w' = buffers (pushed w)).
Proof.
  intros Hr. destruct (drain_ends (work w) w Hr (le_n _)) as (w' & E & Hr' & Hn & Hp).
  exists w'. split; [done|]. split; [done|]. split; [done|]. split; [done|].
  destruct (quiet_world w' (session_reachable_inv ping_handler w' Hr') Hn) as [Ho Hc]. rewrite Hp in Ho.
  split; [|split; [done|intros Hx; by apply Ho]]. intros Ht. destruct (decide (m_state (con w') = closed)) as [Ec|Ec]; [done|].
  exfalso. apply Exists_exists in Ht as (m & Hm & Ht). destruct (Ho Ec) as [_ Hplain].
  rewrite Forall_forall in Hplain. specialize (Hplain m Hm). unfold plain in Hplain. congruence.
Qed.
End session.
