(* ===== verification/WsEndpoint.v ===== *)
(** * Sending through the endpoint: [websocketpp/impl/endpoint_impl.hpp]

    The servers of the program keep handles, which may outlive their
    connections; [endpoint::send] finds the connection of a handle and throws
    what [connection::send] returns.  [WsServer] records what the program asks
    to be sent; here is what becomes of it. *)
From S2P Require Import Prelude Utf8 WsFrame WsFrameProps Hybi13 Hybi13Props Hybi13Stream Hybi13Frames Hybi13Wire WsConnection WsSession WsSessionProps.
From S2P Require WsServer.
Import frame hybi13 WsConnection.

(** The connections that exist, by their handles; the actions of a call. *)
Abbreviation connections := (gmap Z connection).
Definition endpoint_result (A : Type) : Type := option (A * connections * list (Z * action)).

Section endpoint.
Context `{Machine}.

(** [get_con_from_hdl], then a method of the connection. *)
Definition with_connection (hdl : Z) (method : handler (option error_code)) (cons : connections) :
    endpoint_result (option error_code) :=
  match cons !! hdl with
  | None => Some (Some (EndpointError bad_connection), cons, [])
  | Some c =>
      match method c with
      | Some (ec, c', l) => Some (ec, <[hdl := c']> cons, map (pair hdl) l)
      | None => None
      end
  end.

Definition endpoint_send_string (hdl : Z) (payload : list Z) (op : Z) :=
  with_connection hdl (send_string payload op).
Definition endpoint_send_data (hdl : Z) (payload : list Z) (op : Z) :=
  with_connection hdl (send_data payload op).

(** [ws_server::send]: the size as an [int], -1, or what is thrown. *)
Definition ws_server_send (id : Z) (message : list Z) (s : WsServer.ws_server) (cons : connections) :
    endpoint_result (Z + error_code) :=
  match WsServer.connections_fmap s !! id with
  | None => Some (inl (-1), cons, [])
  | Some hdl =>
      '(ec, cons, l) ← endpoint_send_string hdl message text cons;
      Some (match ec with
            | None => inl (i32 (Z.of_nat (length message)))
            | Some e => inr e
            end, cons, l)
  end.

(** The loop of [ws_broadcaster::run_udp]; the result is what is thrown. *)
Fixpoint send_to_all (hdls : list Z) (payload : list Z) (cons : connections) :
    endpoint_result (option error_code) :=
  match hdls with
  | [] => Some (None, cons, [])
  | hdl :: rest =>
      '(ec, cons, l) ← endpoint_send_data hdl payload binary cons;
      match ec with
      | Some e => Some (Some e, cons, l)
      | None => '(ec, cons, l') ← send_to_all rest payload cons; Some (ec, cons, l ++ l')
      end
  end.

Definition broadcast_datagram (rcv_raw_buffer : list Z) (sz : nat) (s : WsServer.ws_server) :
    connections -> endpoint_result (option error_code) :=
  send_to_all (map snd (WsServer.in_order (WsServer.connections_fmap s))) (take sz rcv_raw_buffer).
End endpoint.

Section theorems.
Context `{MachineLaws}.
#[local] Set Default Proof Using "Type*".

(** The message that a server queues for a payload. *)
Definition data_message (op : Z) (payload : list Z) : message :=
  set_opcode op (set_prepared true (set_header
    (prepare_header (make_basic_header op (Z.of_nat (length payload)) true false false false false)
       (make_extended_header (Z.of_nat (length payload)))) (set_payload payload get_new_message))).

(** [c] takes a message: it is queued, and a write is asked for unless one is
    under way. *)
Definition takes (m : message) (c : connection) : option (option error_code * connection * list action) :=
  Some (None, queued m c, Pushed m :: (if m_write_flag c then [] else [Post])).

Lemma push_message_takes m c :
  push_message m c = Some (tt, queued m c, Pushed m :: (if m_write_flag c then [] else [Post])).
Proof.
  unfold push_message, write_push, mbind, handler_bind, act, modify, this. cbn [app].
  change (set_queue _ _ c) with (queued m c).
  replace (0 <? length (m_send_queue (queued m c)))%nat with true
    by (symmetry; apply Nat.ltb_lt; unfold queued; simpl; rewrite length_app; simpl; lia).
  rewrite andb_true_r. change (m_write_flag (queued m c)) with (m_write_flag c). by destruct (m_write_flag c).
Qed.

Definition serves (c : connection) : Prop := m_state c = open /\ m_server (m_processor c) = true.

Lemma prepare_data_server p m op payload : m_server p = true -> m_opcode m = Some op -> m_payload m = payload ->
  m_fin m = true -> is_control op = false -> (op = text -> utf8_validator.validate payload = Some true) ->
  prepare_data_frame rng p (Some m) (Some get_new_message) = Some (None, Some (data_message op payload)).
Proof.
  intros Hs Ho Hp Hf Hc Hv. unfold prepare_data_frame. rewrite Ho. cbn [mbind option_bind]. rewrite Hc, Hp.
  assert ((if op =? text then utf8_validator.validate payload else Some true) = Some true) as ->
    by (destruct (Z.eqb_spec op text); auto).
  cbn [mbind option_bind negb]. unfold is_enabled. cbn [andb]. rewrite Hs, Hf. done.
Qed.

Lemma send_message_takes m op payload c : serves c -> m_prepared m = false -> m_opcode m = Some op ->
  m_payload m = payload -> m_fin m = true -> is_control op = false ->
  (op = text -> utf8_validator.validate payload = Some true) ->
  send_message m c = takes (data_message op payload) c.
Proof.
  intros [Ho Hs] Hprep Hop Hp Hf Hc Hv. unfold send_message, send_check, send_push.
  unfold mbind, handler_bind, this, defined. rewrite bool_decide_eq_true_2, Hprep by done.
  rewrite (prepare_data_server _ _ op payload) by done. cbn iota beta. rewrite push_message_takes.
  unfold mret, handler_ret, takes. cbn [app]. by rewrite app_nil_r.
Qed.

Lemma send_data_takes payload c : serves c -> send_data payload binary c = takes (data_message binary payload) c.
Proof. intros Hc. unfold send_data. by apply send_message_takes. Qed.

Lemma send_string_takes payload c : serves c -> utf8_validator.validate payload = Some true ->
  send_string payload text c = takes (data_message text payload) c.
Proof. intros Hc Hv. unfold send_string. by apply send_message_takes. Qed.

Lemma send_refused payload op c : m_state c <> open ->
  send_string payload op c = Some (Some (EndpointError invalid_state), c, []) /\
  send_data payload op c = Some (Some (EndpointError invalid_state), c, []).
Proof.
  intros Hn. unfold send_string, send_data, send_message, send_check, mbind, handler_bind, this.
  by rewrite bool_decide_eq_false_2 by done.
Qed.

(** The octets of the message are one frame. *)
Lemma data_message_wire op payload : 0 <= op < 16 -> small payload ->
  octets_of (data_message op payload) = wire (prepared_frame true op 0 payload).
Proof. intros Hop Hs. unfold octets_of. exact (prepared_wire true op 0 payload Hop Hs). Qed.

(** ** Broadcasting *)
Definition open_at (cons : connections) (hdl : Z) : Prop := exists c, cons !! hdl = Some c /\ serves c.
Definition refuses (cons : connections) (hdl : Z) (e : error_code) : Prop :=
  (cons !! hdl = None /\ e = EndpointError bad_connection) \/
  (exists c, cons !! hdl = Some c /\ m_state c <> open /\ e = EndpointError invalid_state).

Lemma send_to_all_spec payload pre : forall rest ec cons,
  NoDup (pre ++ rest) -> Forall (open_at cons) pre ->
  match rest with [] => ec = None | hdl :: _ => exists e, refuses cons hdl e /\ ec = Some e end ->
  exists cons' l, send_to_all (pre ++ rest) payload cons = Some (ec, cons', l) /\
    (forall hdl, hdl ∈ pre -> cons' !! hdl = queued (data_message binary payload) <$> cons !! hdl) /\
    (forall hdl, hdl ∉ pre -> cons' !! hdl = cons !! hdl) /\
    List.filter (fun x => match x.2 with Pushed _ => true | _ => false end) l =
      map (fun hdl => (hdl, Pushed (data_message binary payload))) pre.
Proof.
  induction pre as [|hdl pre IH]; intros rest ec cons Hnd Hpre Hrest; cbn [app] in *.
  - exists cons, []. split; [|split; [intros ? Hin; by apply elem_of_nil in Hin|done]].
    destruct rest as [|hdl rest]; [by rewrite Hrest|]. destruct Hrest as (e & Hr & ->).
    cbn [send_to_all]. unfold endpoint_send_data, with_connection.
    destruct Hr as [[-> ->]|(c & Ec & Hn & ->)]; [done|]. rewrite Ec.
    rewrite (proj2 (send_refused payload binary c Hn)). cbn. by rewrite insert_id.
  - apply NoDup_cons in Hnd as [Hni Hnd]. apply Forall_cons_1 in Hpre as [(c & Ec & Hc) Hpre].
    set (m := data_message binary payload) in *.
    destruct (IH rest ec (<[hdl := queued m c]> cons) Hnd) as (cons' & l & E & Hin & Hout & Hl).
    + apply Forall_forall. intros h Hh. rewrite Forall_forall in Hpre.
      destruct (Hpre h Hh) as (c' & Ec' & Hc'). exists c'. split; [|done]. rewrite lookup_insert_ne; [done|].
      intros ->. apply Hni, elem_of_app. by left.
    + destruct rest as [|h rest]; [done|]. destruct Hrest as (e & Hr & ->). exists e. split; [|done].
      assert (hdl <> h) by (intros ->; apply Hni, elem_of_app; right; by left).
      unfold refuses. by rewrite lookup_insert_ne.
    + cbn [send_to_all]. unfold endpoint_send_data, with_connection. rewrite Ec, send_data_takes by done.
      unfold takes. fold m. cbn [mbind option_bind]. rewrite E. cbn [mbind option_bind].
      do 2 eexists. split; [reflexivity|]. split; [|split].
      * intros h Hh. apply elem_of_cons in Hh as [->|Hh].
        -- rewrite Hout by (intros Hp; apply Hni, elem_of_app; by left). by rewrite lookup_insert_eq, Ec.
        -- rewrite Hin by done. rewrite lookup_insert_ne; [done|]. intros ->. apply Hni, elem_of_app. by left.
      * intros h Hh. apply not_elem_of_cons in Hh as [Hne Hh]. rewrite Hout by done.
        by rewrite lookup_insert_ne.
      * rewrite List.filter_app, Hl. by destruct (m_write_flag c).
Qed.

(** C26. A datagram goes to all browsers, or ends the thread.  The datagram is
    queued as one binary frame on every connection of the table, in the order
    of their numbers, up to the first whose connection is gone or no longer
    open; there [server.send] throws [bad_connection] or [invalid_state], and
    the connections behind it get nothing.  If all are open nothing is thrown
    and what is queued is what [run_udp_datagram] of [WsServer] records. *)
Theorem datagram_reaches_all_or_throws buffer sz s pre rest ec cons :
  map snd (WsServer.in_order (WsServer.connections_fmap s)) = pre ++ rest ->
  NoDup (pre ++ rest) -> Forall (open_at cons) pre ->
  match rest with [] => ec = None | hdl :: _ => exists e, refuses cons hdl e /\ ec = Some e end ->
  let m := data_message binary (take sz buffer) in
  exists cons' l, broadcast_datagram buffer sz s cons = Some (ec, cons', l) /\
    (forall hdl, cons' !! hdl = (if decide (hdl ∈ pre) then queued m else id) <$> cons !! hdl) /\
    List.filter (fun x => match x.2 with Pushed _ => true | _ => false end) l = map (fun hdl => (hdl, Pushed m)) pre /\
    (rest = [] -> WsServer.sent (WsServer.run_udp_datagram buffer sz s) =
       WsServer.sent s ++ map (fun hdl => (hdl, m_payload m, WsServer.OpBinary)) pre).
Proof.
  intros E Hnd Hpre Hrest m.
  destruct (send_to_all_spec (take sz buffer) pre rest ec cons Hnd Hpre Hrest) as (cons' & l & Es & Hin & Hout & Hl).
  exists cons', l. unfold broadcast_datagram. rewrite E. split; [done|]. split; [|split; [done|]].
  - intros hdl. case_decide as Hd; [by apply Hin|]. rewrite Hout by done. by destruct (cons !! hdl).
  - intros ->. rewrite app_nil_r in E. unfold WsServer.run_udp_datagram. cbn [WsServer.sent]. f_equal.
    rewrite <-E, map_map. done.
Qed.
End theorems.

(** ** Witness: two browsers watch, a third is leaving *)
Section endpoint_witnesses.
#[local] Existing Instance armhf.
#[local] Existing Instance armhf_laws.

Definition three_browsers : WsServer.ws_server :=
  WsServer.on_open 7 103 (WsServer.on_open 6 102 (WsServer.on_open 5 101 WsServer.new_server)).
Definition three_connections : connections :=
  <[5 := opened_connection true]> (<[6 := set_sending [] [] true (opened_connection true)]>
    {[7 := set_state closing (opened_connection true)]}).

Lemma datagram_reaches_all_or_throws_witness :
  exists cons' l, broadcast_datagram [1; 2; 3; 9; 9] 3 three_browsers three_connections =
      Some (Some (EndpointError invalid_state), cons', l) /\
    List.filter (fun x => match x.2 with Pushed _ => true | _ => false end) l =
      [(5, Pushed (data_message binary [1; 2; 3])); (6, Pushed (data_message binary [1; 2; 3]))] /\
    octets_of (data_message binary [1; 2; 3]) = [0x82; 3; 1; 2; 3].
Proof.
  destruct (datagram_reaches_all_or_throws [1; 2; 3; 9; 9] 3 three_browsers [5; 6] [7]
    (Some (EndpointError invalid_state)) three_connections) as (cons' & l & E & _ & Hl & _).
  - vm_compute. reflexivity.
  - repeat constructor; set_solver.
  - repeat apply Forall_cons_2; [..|constructor]; (eexists; split; [reflexivity|by split]).
  - exists (EndpointError invalid_state). split; [|reflexivity]. right. eexists. split; [reflexivity|]. split; [discriminate|reflexivity].
  - exists cons', l. split; [exact E|]. split; [exact Hl|]. vm_compute. reflexivity.
Defined.
End endpoint_witnesses.
