(* ===== verification/Browser.v ===== *)
(** * From the browser to the rover

    A browser is a client of the WebSocket connection: what it sends reaches
    the program as [handle_ws] events, and drives the rover. *)
From S2P Require Import Prelude Text Regex App Vehicle Utf8 WsFrame WsFrameProps Hybi13 Hybi13Props Hybi13Stream Hybi13Frames Hybi13Wire WsConnection WsSession WsSessionProps WsSessionCorrect WsLiveness WsEndpoint.
From S2P Require WsServer.
Import frame hybi13 WsConnection WsSession.

(** [ws_server::on_message], the queue, and [main_app::run_ws]. *)
Definition ws_event (s : WsServer.ws_server) (ptr : Z) (m : message) : option Vehicle.event :=
  q ← WsServer.on_message ptr (m_payload m) s;
  '(id, text) ← WsServer.run_ws_recv q;
  Some (WsText id text).

(** The payloads a browser sends as data. *)
Definition data_payloads (sends : list (Z * request)) : list (list Z) :=
  map snd (data_contents (map (fun s => request_contents s.2) sends)).
(** What a program that reads a C string makes of a payload. *)
Fixpoint up_to_nul (payload : list Z) : list Z :=
  match payload with
  | [] => []
  | c :: payload => if c =? 0 then [] else c :: up_to_nul payload
  end.
(** The commands a browser with the number [id] means. *)
Definition meant (id : Z) (sends : list (Z * request)) : list Vehicle.event :=
  map (fun payload => WsText id (up_to_nul payload)) (data_payloads sends).

(** Other events of the program, with the places ([None]) where the next command
    of the browser is handled. *)
Fixpoint interleave (plan : list (option Vehicle.event)) (commands : list Vehicle.event) : list Vehicle.event :=
  match plan with
  | [] => []
  | Some ev :: plan => ev :: interleave plan commands
  | None :: plan =>
      match commands with
      | [] => interleave plan []
      | command :: commands => command :: interleave plan commands
      end
  end.

Section browser.
Context `{MachineLaws}.
Context (ping_handler : option (list Z -> bool)).
#[local] Set Default Proof Using "Type*".

Lemma max_message_size_fits : max_message_size < 256 ^ Z.of_nat sizeof_size_t.
Proof.
  pose proof word_size as [_ Hw]. rewrite pow256. eapply Z.lt_le_trans with (m := 2 ^ 32); [reflexivity|].
  apply Z.pow_le_mono_r; lia.
Qed.

Lemma cstring_up_to_nul payload : cstring (payload ++ [0]) = Some (up_to_nul payload).
Proof.
  induction payload as [|c payload IH]; [done|]. simpl. rewrite IH. by destruct (c =? 0).
Qed.

Lemma ws_events_spec s ptr id : WsServer.connections_rmap s !! ptr = Some id ->
  forall ms payloads, map message_contents ms = map rule_contents payloads ->
  mapM (ws_event s ptr) ms = Some (map (fun payload => WsText id (up_to_nul payload)) (map snd payloads)).
Proof.
  intros Hs ms. induction ms as [|m ms IH]; intros payloads E; [by destruct payloads|].
  destruct payloads as [|[op payload] payloads]; [done|]. cbn [map] in E. injection E as Ho Hp E.
  change (mapM (ws_event s ptr) (m :: ms)) with (ev ← ws_event s ptr m; evs ← mapM (ws_event s ptr) ms; Some (ev :: evs)).
  rewrite (IH payloads E).
  assert (ws_event s ptr m = Some (WsText id (up_to_nul payload))) as ->; [|done].
  unfold ws_event, WsServer.on_message. rewrite Hs, Hp. cbn [mbind option_bind].
  unfold WsServer.run_ws_recv. cbn [WsServer.data_str WsServer.conn_id]. by rewrite cstring_up_to_nul.
Qed.

(** The world after a browser's messages. *)
Lemma browser_world w client sends outs : reachable ping_handler w -> m_server client = false ->
  Forall (goes_through max_message_size) sends -> Forall2 (prepared_as client) sends outs ->
  input w = concat (map octets_of outs) -> m_state (con w) = open ->
  map message_contents (delivered w) = map rule_contents (data_contents (map (fun s => request_contents s.2) sends)) /\
  pongs (pushed w) = ping_payloads ping_handler (map (fun s => request_contents s.2) sends) /\
  ((0 < reading w)%nat -> between true max_message_size None (m_processor (con w))).
Proof.
  intros Hr Hc Hs Ho Ein Hopen.
  destruct (session_reachable_inv ping_handler w Hr) as [_ (ms & ec & p & [T1 T2 T3 T4 T5 T6 T7])].
  assert (between (negb (m_server client)) max_message_size None fresh) as Hb
    by (rewrite Hc; apply between_new).
  destruct (receive_sends client max_message_size sends outs max_message_size_fits Hs Ho fresh Hb)
    as (_ & ms' & st' & E & Hms & Hb'). rewrite <-Ein, T1 in E. simplify_eq.
  assert (map message_contents ms' = map rule_contents (map (fun s => request_contents s.2) sends)) as Hout
    by (rewrite Hms, map_map; done).
  destruct (T7 Hopen) as (_ & _ & -> & ->).
  split; [by apply contents_data|]. split; [by apply contents_pings|].
  intros Hread. destruct (T4 Hread) as [_ ->]. by rewrite Hc in Hb'.
Qed.

(** ** The rover *)
Section rover.
Context `{Firmware.AvrHeader} `{Firmware.ArduinoCore} {P : Type} `{Arduino.SerialPort P}
  `{!Link.SlaveDriver P} `{Platform}.

(** C6. The browser drives the rover.  A browser sends messages; their octets
    have arrived, in reads of any sizes, at a connection that is open and in the
    table of the server.  Then what the server has handed over are the payloads
    of its data messages, all of them and in order, each up to its first zero
    octet, under the number of the connection.  And when the program handles
    what was handed over, with any datagrams, timer messages, commands of other
    browsers and iterations of the dispatcher in between, it ends in the state
    of the vehicle that was given the payloads as the browser meant them,
    provided that the vehicle admits these events: datagrams and commands are
    well formed, and files hold what the timer reads. *)
Theorem browser_drives_the_rover w client sends outs s ptr id :
  reachable ping_handler w -> m_server client = false ->
  Forall (goes_through max_message_size) sends -> Forall2 (prepared_as client) sends outs ->
  input w = concat (map octets_of outs) -> m_state (con w) = open ->
  WsServer.connections_rmap s !! ptr = Some id ->
  exists commands, mapM (ws_event s ptr) (delivered w) = Some commands /\ commands = meant id sends /\
    forall plan v (p : program P), implements v p -> all_admissible (interleave plan (meant id sends)) v = true ->
      exists p', exec_events (interleave plan commands) p = Ret p' /\
        implements (vehicle_events (interleave plan (meant id sends)) v) p'.
Proof.
  intros Hr Hc Hs Ho Ein Hopen Hid.
  destruct (browser_world w client sends outs Hr Hc Hs Ho Ein Hopen) as [Hd _].
  exists (meant id sends). split; [by apply (ws_events_spec s ptr id Hid) in Hd|]. split; [done|].
  intros plan v p [d Hi] Ha. destruct (events_implement _ v p d Hi Ha) as (p' & d' & E & Hi').
  exists p'. split; [done|]. by exists d'.
Qed.
End rover.

(** ** The browser leaves *)
Lemma close_arrives w client rng code reason out : serving w -> m_state (con w) = open ->
  between true max_message_size None (m_processor (con w)) -> m_server client = false ->
  sendable (SendClose code reason) -> utf8_validator.well_formed reason ->
  prepared_as client (rng, SendClose code reason) out ->
  Forall is_byte (octets_of out) /\
  exists p, run (read_loop ping_handler (S (length (octets_of out))) (octets_of out)) w =
    Some (true, w_set_processor p (w_send_close (echo (code, reason)) true true
      (with_con (set_remote_close (code, reason) (con w)) w))).
Proof.
  intros Hserv Hopen Hb Hc Hs Hw Ho.
  destruct (receive_sends client max_message_size [(rng, SendClose code reason)] [out] max_message_size_fits)
    with (st := m_processor (con w)) as (Hoct & ms & st & E & Hms & _).
  - constructor; [|done]. split; [done|]. pose proof (request_ok _ Hs) as Hreq. cbn [request_contents snd] in *.
    destruct Hreq as (_ & _ & [[? _]|[?|[_ Hl]]]); [done|done|]. unfold max_message_size. lia.
  - by constructor.
  - by rewrite Hc.
  - cbn [map concat] in *. rewrite app_nil_r in *. split; [done|].
    destruct (run_read_loop ping_handler (S (length (octets_of out))) (octets_of out) w Hserv) as
      (ms' & ec' & p & Er & _ & _ & _ & Erun); [congruence|by eapply between_waiting|done|lia|].
    unfold receive in E. rewrite E in Er. injection Er as <- <- <-. exists st. rewrite Erun. cbn zeta. f_equal. f_equal. f_equal.
    destruct ms as [|m ms]; [done|]. destruct (contents_cons m ms [(frame.close, close_payload code reason)] Hms) as (op & payload & out' & [= <- <- <-] & Eo & Ep & Em).
    destruct ms; [|done]. cbn [foldl]. unfold w_dispatch. rewrite Eo. change (is_control frame.close) with true.
    unfold w_control. rewrite Hopen, Ep. change (frame.close =? frame.ping) with false.
    change (frame.close =? frame.close) with true. cbn iota. unfold w_close.
    destruct (close_payload_read code reason Hs) as (-> & ec & -> & Hec). rewrite (proj2 Hec Hw).
    cbn [con with_con set_remote_close m_state]. by rewrite Hopen.
Qed.

Lemma send_close_facts p x w : let w' := w_set_processor p (w_send_close x true true w) in
  m_state (con w') = closing /\ closes w' = closes w /\ m_remote_close (con w') = m_remote_close (con w) /\
  pushed w' = pushed w ++ [set_terminal true (close_message x)].
Proof. done. Qed.

Lemma run_read_frame w :
  run read_frame w = Some (tt, if m_read_flag (con w) then perform w Read else w).
Proof.
  unfold read_frame. rewrite run_bind, run_this. cbn [mbind option_bind].
  destruct (m_read_flag (con w)); [apply run_act|apply run_ret].
Qed.

#[local] Opaque run.

(** A read without an error. *)
Lemma run_handle_read buf w w' : m_internal_state (con w) = PROCESS_CONNECTION ->
  run (read_loop ping_handler (S (length buf)) buf) w = Some (true, w') ->
  run (handle_read_frame ping_handler None buf) w =
  Some (tt, if m_read_flag (con w') then perform w' Read else w').
Proof.
  intros Hint E. unfold handle_read_frame. rewrite run_bind, run_this. cbn [mbind option_bind].
  rewrite Hint, bool_decide_eq_true_2 by done. rewrite run_bind, E. apply run_read_frame.
Qed.

Lemma run_read_event buf w w' : m_internal_state (con w) = PROCESS_CONNECTION ->
  run (read_loop ping_handler (S (length buf)) buf)
    (with_input (input w ++ buf) (with_reading (reading w - 1) w)) = Some (true, w') ->
  exists w'', run_event ping_handler (ReadDone None buf) w = Some w'' /\
    con w'' = con w' /\ closes w'' = closes w' /\ pushed w'' = pushed w'.
Proof.
  intros Hint E. set (w1 := with_input _ _) in *.
  pose proof (run_handle_read buf w1 w' Hint E) as Er.
  exists (if m_read_flag (con w') then perform w' Read else w').
  split; [|by destruct (m_read_flag (con w'))].
  change (('(_, w2) ← run (handle_read_frame ping_handler None buf) w1; Some w2) =
    Some (if m_read_flag (con w') then perform w' Read else w')).
  by rewrite Er.
Qed.

(** C27. Sending to a browser that is leaving.  When a close frame with a valid
    code and reason arrives on an open connection, between two messages, the
    connection answers it with a frame of the same code and reason (1000 for none), marked as the
    last, and is [closing]; the close handler has not run, so that the program
    still lists the connection; but from now on [endpoint::send] fails for every
    message with [invalid_state], which its callers in the program do not
    expect: it throws. *)
Theorem send_fails_while_closing w client rng code reason out :
  reachable ping_handler w -> m_state (con w) = open -> (0 < reading w)%nat ->
  between true max_message_size None (m_processor (con w)) ->
  m_server client = false -> sendable (SendClose code reason) -> utf8_validator.well_formed reason ->
  prepared_as client (rng, SendClose code reason) out ->
  exists w', run_event ping_handler (ReadDone None (octets_of out)) w = Some w' /\
    m_state (con w') = closing /\ closes w' = 0%nat /\ m_remote_close (con w') = (code, reason) /\
    pushed w' = pushed w ++ [set_terminal true (close_message (echo (code, reason)))] /\
    forall hdl cons, cons !! hdl = Some (con w') -> forall payload op,
      endpoint_send_string hdl payload op cons = Some (Some (EndpointError invalid_state), cons, []) /\
      endpoint_send_data hdl payload op cons = Some (Some (EndpointError invalid_state), cons, []).
Proof.
  intros Hr Hopen Hread Hb Hc Hs Hw Ho.
  pose proof (session_reachable_inv ping_handler w Hr) as [[Hwi Hst] _]. pose proof (both_serving w (conj Hwi Hst)) as Hserv.
  destruct Hst as [_ Hint _ _ _ _ [_ Hends]]. rewrite Hopen in Hends. rewrite bool_decide_eq_false_2 in Hends by done.
  set (w1 := with_input (input w ++ octets_of out) (with_reading (reading w - 1) w)).
  destruct (close_arrives w1 client rng code reason out Hserv Hopen Hb Hc Hs Hw Ho) as (_ & p & E).
  destruct (run_read_event (octets_of out) w _ Hint E) as (w4 & Erun & C1 & C2 & C3).
  set (w2 := with_con (set_remote_close (code, reason) (con w1)) w1) in *.
  destruct (send_close_facts p (echo (code, reason)) w2) as (G1 & G2 & G3 & G5).
  exists w4. split; [exact Erun|]. rewrite C1, C2, C3, G1, G2, G3, G5. split; [done|].
  assert (closes w2 = closes w) as -> by done. assert (closes w = 0%nat) as -> by (clear - Hends; lia).
  split; [done|]. split; [done|]. split; [done|].
  intros hdl cons Ec payload op. unfold endpoint_send_string, endpoint_send_data, with_connection. rewrite Ec.
  match goal with |- context [send_string _ _ ?c] =>
    destruct (send_refused payload op c) as [-> ->]; [by rewrite G1|] end.
  by rewrite insert_id.
Qed.

End browser.

(** ** Witnesses *)
Section browser_witnesses.
Import Link.
#[local] Existing Instance armhf.
#[local] Existing Instance armhf_laws.
#[local] Existing Instance Firmware.atmega328p.
#[local] Existing Instance Firmware.atmega328p_laws.
#[local] Existing Instance Firmware.sample_core.
#[local] Existing Instance AppWitnesses.sample_platform.

Definition listening : WsServer.ws_server := WsServer.on_open 5 77 WsServer.new_server.

(** A datagram, the timer and the dispatcher around the commands of the session. *)
Definition drive_plan : list (option Vehicle.event) :=
  [None; Some (Datagram (str "1500175015001000")); Some (TimerThread 7); None;
   Some (Dispatch AppWitnesses.sample_env); Some (Dispatch AppWitnesses.sample_env); Some (Dispatch AppWitnesses.sample_env)].
Definition drive_with_browser : list Vehicle.event := interleave drive_plan (meant 0 session_sends).

Lemma session_goes_through : Forall (goes_through max_message_size) session_sends.
Proof.
  unfold session_sends. repeat apply Forall_cons_2; [..|constructor]; (split; [|vm_compute; discriminate]).
  - left. split; [reflexivity|]. exists (str "led 40"). split; [repeat constructor|reflexivity].
  - split; [repeat constructor; discriminate|simpl; lia].
  - left. split; [reflexivity|]. exists (str "js -40 100"). split; [repeat constructor|reflexivity].
Qed.

Lemma session_prepared : Forall2 (prepared_as (new_processor false 0)) session_sends session_outs.
Proof. repeat constructor. Qed.

Lemma browser_drives_the_rover_witness :
  mapM (ws_event listening 77) (delivered (session_world session_events)) =
    Some [WsText 0 (str "led 40"); WsText 0 (str "js -40 100")] /\
  exists p', exec_events drive_with_browser
      (Program AppWitnesses.sample_app WsServer.new_server sample_buffer) = Ret p' /\
    implements (Vehicle (-102) 255 102 0 [] (overwrite (str "1500175015001000") sample_buffer) true) p'.
Proof.
  destruct (browser_drives_the_rover None (session_world session_events) (new_processor false 0) session_sends
    session_outs listening 77 0) as (commands & Ed & Ec & Hp).
  - apply session_reachable, session_octets_bytes.
  - reflexivity.
  - apply session_goes_through.
  - apply session_prepared.
  - vm_compute. reflexivity.
  - vm_compute. reflexivity.
  - vm_compute. reflexivity.
  - split; [rewrite Ed, Ec; reflexivity|].
    destruct (Hp drive_plan (Vehicle 0 0 0 0 [] sample_buffer true)
      (Program AppWitnesses.sample_app WsServer.new_server sample_buffer)) as (p' & E & Hi).
    + exists AppWitnesses.sample_device. split; try reflexivity.
      * apply AppWitnesses.sample_drives.
      * split; reflexivity.
      * apply AppWitnesses.sample_inv.
      * by split.
      * by split; eexists.
    + vm_compute. reflexivity.
    + exists p'. rewrite Ec in E. unfold drive_with_browser. split; [exact E|].
      assert (vehicle_events (interleave drive_plan (meant 0 session_sends)) (Vehicle 0 0 0 0 [] sample_buffer true) =
        Vehicle (-102) 255 102 0 [] (overwrite (str "1500175015001000") sample_buffer) true) as Ev
        by (vm_compute; reflexivity).
      rewrite Ev in Hi. exact Hi.
Defined.

Definition bye : message := set_opcode frame.close
  (default get_new_message (prepare_close 3 (new_processor false 0) close.normal (str "bye") (Some get_new_message)).2).

Lemma send_fails_while_closing_witness :
  exists w', run_event None (ReadDone None (octets_of bye)) (session_world session_events) = Some w' /\
    m_state (con w') = closing /\
    endpoint_send_string 5 (str "12.60v") text {[5 := con w']} =
      Some (Some (EndpointError invalid_state), {[5 := con w']}, []).
Proof.
  destruct (browser_world None (session_world session_events) (new_processor false 0) session_sends session_outs)
    as (_ & _ & Hb).
  { apply session_reachable, session_octets_bytes. }
  { reflexivity. }
  { apply session_goes_through. }
  { apply session_prepared. }
  { vm_compute. reflexivity. }
  { vm_compute. reflexivity. }
  destruct (send_fails_while_closing None (session_world session_events) (new_processor false 0) 3 close.normal
    (str "bye") bye) as (w' & E & Es & _ & _ & _ & Hf).
  - apply session_reachable, session_octets_bytes.
  - vm_compute. reflexivity.
  - vm_compute. lia.
  - apply Hb. vm_compute. lia.
  - reflexivity.
  - split; [repeat constructor; discriminate|]. split; [simpl; lia|]. split; [reflexivity|by left].
  - exists (str "bye"). split; [repeat constructor|reflexivity].
  - vm_compute. reflexivity.
  - exists w'. split; [exact E|]. split; [exact Es|]. apply Hf. apply lookup_singleton_eq.
Defined.

(** The browser has said goodbye while its pong was being written. *)
Definition leaving_world : world := session_world (session_events ++ [ReadDone None (octets_of bye)]).

Lemma leaving_reachable : reachable None leaving_world.
Proof.
  eapply (reach_step None (session_world session_events) (ReadDone None (octets_of bye))).
  - apply session_reachable, session_octets_bytes.
  - split; [vm_compute; lia|]. vm_compute. repeat constructor; discriminate.
  - vm_compute. reflexivity.
Qed.

Lemma closing_handshake_ends_witness :
  exists w', drain None (work leaving_world) leaving_world = Some w' /\ m_state (con w') = closed /\ closes w' = 1%nat /\
    wire_out w' = [0x8a; 2; 1; 2; 0x88; 5; 3; 232] ++ str "bye".
Proof.
  destruct (closing_handshake_ends None leaving_world leaving_reachable) as (w' & E & _ & _ & _ & Ht & Hc & _).
  assert (m_state (con w') = closed) as Ec.
  { apply Ht. vm_compute. apply Exists_cons_tl, Exists_cons_hd. reflexivity. }
  exists w'. split; [exact E|]. split; [exact Ec|]. split; [exact (Hc Ec)|].
  assert (drain None (work leaving_world) leaving_world = Some (default opened_world (drain None (work leaving_world) leaving_world)))
    as E' by (vm_compute; reflexivity).
  rewrite E' in E. assert (w' = default opened_world (drain None (work leaving_world) leaving_world)) as -> by congruence.
  vm_compute. reflexivity.
Defined.
End browser_witnesses.
