(* ===== verification/Sha1.v ===== *)
(** * SHA-1: [websocketpp/sha1/sha1.hpp]

    The routine that hashes the key of an opening handshake: eighty rounds over
    a buffer of words that is filled from the octets, extended in place and
    used again for the next block. *)
From S2P Require Import Prelude.

(** [~x] of an [unsigned int]. *)
Definition unot (x : Z) : Z := u32 (Z.lnot x).

Definition rol (value steps : Z) : Z :=
  Z.lor (u32 (Z.shiftl value steps)) (Z.shiftr value (32 - steps)).

(** The first sixteen words become zero. *)
Definition clearWBuffert (buffert : list Z) : list Z := replicate 16 0 ++ drop 16 buffert.

(** The variables [a] to [e]. *)
Record working := Working { va : Z; vb : Z; vc : Z; vd : Z; ve : Z }.

Definition sha1macro (func : Z -> Z -> Z -> Z) (val : Z) (round : nat) (s : working) (w : list Z) : working :=
  let t := u32 (rol (va s) 5 + func (vb s) (vc s) (vd s) + ve s + val + w !!! round) in
  Working t (va s) (rol (vb s) 30) (vc s) (vd s).

Definition expand (round : nat) (w : list Z) : list Z :=
  <[round := rol (Z.lxor (Z.lxor (Z.lxor (w !!! (round - 3)%nat) (w !!! (round - 8)%nat))
                                 (w !!! (round - 14)%nat)) (w !!! (round - 16)%nat)) 1]> w.

(** The loops up to a bound on [round]. *)
Definition rounds (first last : nat) (step : nat -> working * list Z -> working * list Z)
    (st : working * list Z) : working * list Z :=
  fold_left (fun st round => step round st) (seq first (last - first)) st.
Definition plain_step func val round (st : working * list Z) : working * list Z :=
  (sha1macro func val round st.1 st.2, st.2).
Definition expanding_step func val round (st : working * list Z) : working * list Z :=
  let w := expand round st.2 in (sha1macro func val round st.1 w, w).

Definition choose (b c d : Z) : Z := Z.lor (Z.land b c) (Z.land (unot b) d).
Definition parity (b c d : Z) : Z := Z.lxor (Z.lxor b c) d.
Definition majority (b c d : Z) : Z := Z.lor (Z.lor (Z.land b c) (Z.land b d)) (Z.land c d).

(** The five loops. *)
Definition all_rounds (st : working * list Z) : working * list Z :=
  let st := rounds 0 16 (plain_step choose 0x5a827999) st in
  let st := rounds 16 20 (expanding_step choose 0x5a827999) st in
  let st := rounds 20 40 (expanding_step parity 0x6ed9eba1) st in
  let st := rounds 40 60 (expanding_step majority 0x8f1bbcdc) st in
  rounds 60 80 (expanding_step parity 0xca62c1d6) st.

Definition innerHash (result : list Z) (w : list Z) : list Z * list Z :=
  let s := Working (result !!! 0%nat) (result !!! 1%nat) (result !!! 2%nat) (result !!! 3%nat) (result !!! 4%nat) in
  let st := all_rounds (s, w) in
  let s := st.1 in
  ([u32 (result !!! 0%nat + va s); u32 (result !!! 1%nat + vb s); u32 (result !!! 2%nat + vc s);
    u32 (result !!! 3%nat + vd s); u32 (result !!! 4%nat + ve s)], st.2).

(** The sixteen words of the block at [currentBlock]. *)
Definition load_word (sarray : list Z) (currentBlock : nat) : Z :=
  Z.lor (Z.lor (Z.lor (sarray !!! (currentBlock + 3)%nat) (Z.shiftl (sarray !!! (currentBlock + 2)%nat) 8))
    (Z.shiftl (sarray !!! (currentBlock + 1)%nat) 16)) (Z.shiftl (sarray !!! currentBlock) 24).
Definition load_block (sarray : list Z) (currentBlock : nat) (w : list Z) : list Z :=
  fold_left (fun w roundPos => <[roundPos := load_word sarray (currentBlock + 4 * roundPos)]> w) (seq 0 16) w.

(** The full blocks; each round of the loop uses 64 octets. *)
Fixpoint full_blocks (fuel : nat) (sarray : list Z) (endOfFullBlocks currentBlock : nat)
    (result w : list Z) : nat * list Z * list Z :=
  match fuel with
  | O => (currentBlock, result, w)
  | S fuel' =>
      if (currentBlock <=? endOfFullBlocks)%nat then
        let '(result, w) := innerHash result (load_block sarray currentBlock w) in
        full_blocks fuel' sarray endOfFullBlocks (currentBlock + 64) result w
      else (currentBlock, result, w)
  end.

(** [w[i >> 2] |= x << ((3 - (i & 3)) << 3)]. *)
Definition or_octet (i : nat) (x : Z) (w : list Z) : list Z :=
  <[(i / 4)%nat := Z.lor (w !!! (i / 4)%nat) (Z.shiftl x (8 * (3 - Z.of_nat (i mod 4))))]> w.

Definition initial_result : list Z := [0x67452301; 0xefcdab89; 0x98badcfe; 0x10325476; 0xc3d2e1f0].

(** [w] is what the buffer holds before it is written. *)
Definition calc (w : list Z) (sarray : list Z) : list Z :=
  let bytelength := length sarray in
  let '(currentBlock, result, w) :=
    if (64 <=? bytelength)%nat
    then full_blocks bytelength sarray (bytelength - 64) 0 initial_result w
    else (0%nat, initial_result, w) in
  let endCurrentBlock := (bytelength - currentBlock)%nat in
  let w := clearWBuffert w in
  let w := fold_left (fun w lastBlockBytes => or_octet lastBlockBytes (sarray !!! (lastBlockBytes + currentBlock)%nat) w)
             (seq 0 endCurrentBlock) w in
  let w := or_octet endCurrentBlock 0x80 w in
  let '(result, w) :=
    if (56 <=? endCurrentBlock)%nat
    then let '(result, w) := innerHash result w in (result, clearWBuffert w)
    else (result, w) in
  let w := <[15%nat := u32 (Z.shiftl (Z.of_nat bytelength) 3)]> w in
  let '(result, w) := innerHash result w in
  map (fun hashByte => Z.land (Z.shiftr (result !!! (hashByte / 4)%nat) (8 * (3 - Z.of_nat (hashByte mod 4)))) 0xff)
    (seq 0 20).

(** ** Reference: FIPS 180-4

    Padding and parsing come first; the message schedule is a list that is
    complete before the rounds begin. *)
Definition pad (message : list Z) : list Z :=
  message ++ [0x80] ++ replicate (Z.to_nat ((55 - Z.of_nat (length message)) mod 64)) 0 ++
  map (fun i => Z.shiftr (8 * Z.of_nat (length message)) (8 * (7 - Z.of_nat i)) mod 256) (seq 0 8).

Definition be_word (bs : list Z) : Z := fold_left (fun n b => 256 * n + b) bs 0.
Fixpoint chunks (n k : nat) (l : list Z) : list (list Z) :=
  match n with O => [] | S n' => take k l :: chunks n' k (drop k l) end.
Definition block_words (block : list Z) : list Z := map be_word (chunks 16 4 block).

Definition rotl (n x : Z) : Z := (x * 2 ^ n) mod 2 ^ 32 + x / 2 ^ (32 - n).
Fixpoint schedule (n : nat) (words : list Z) : list Z :=
  match n with
  | O => words
  | S n' =>
      let t := length words in
      schedule n' (words ++ [rotl 1 (Z.lxor (Z.lxor (words !!! (t - 3)%nat) (words !!! (t - 8)%nat))
                                      (Z.lxor (words !!! (t - 14)%nat) (words !!! (t - 16)%nat)))])
  end.

(** The functions [f_t] and the constants [K_t]. *)
Definition Ch (x y z : Z) : Z := Z.lxor (Z.land x y) (Z.land (Z.lnot x) z).
Definition Parity (x y z : Z) : Z := Z.lxor (Z.lxor x y) z.
Definition Maj (x y z : Z) : Z := Z.lxor (Z.lxor (Z.land x y) (Z.land x z)) (Z.land y z).
Definition f_t (t : nat) : Z -> Z -> Z -> Z :=
  if (t <? 20)%nat then Ch else if (t <? 40)%nat then Parity else if (t <? 60)%nat then Maj else Parity.
Definition K_t (t : nat) : Z :=
  if (t <? 20)%nat then 0x5a827999 else if (t <? 40)%nat then 0x6ed9eba1
  else if (t <? 60)%nat then 0x8f1bbcdc else 0xca62c1d6.

Definition sha1_round (t : nat) (W : Z) (s : working) : working :=
  Working ((rotl 5 (va s) + f_t t (vb s) (vc s) (vd s) + ve s + K_t t + W) mod 2 ^ 32)
    (va s) (rotl 30 (vb s)) (vc s) (vd s).
Definition compress (H : working) (block : list Z) : working :=
  let W := schedule 64 (block_words block) in
  let s := fold_left (fun s t => sha1_round t (W !!! t) s) (seq 0 80) H in
  Working ((va H + va s) mod 2 ^ 32) ((vb H + vb s) mod 2 ^ 32) ((vc H + vc s) mod 2 ^ 32)
    ((vd H + vd s) mod 2 ^ 32) ((ve H + ve s) mod 2 ^ 32).

Definition initial_hash : working := Working 0x67452301 0xefcdab89 0x98badcfe 0x10325476 0xc3d2e1f0.
Definition be_octets (x : Z) : list Z := [x / 2 ^ 24; x / 2 ^ 16 mod 256; x / 2 ^ 8 mod 256; x mod 256].
Definition sha1 (message : list Z) : list Z :=
  let padded := pad message in
  let H := fold_left compress (chunks (length padded / 64) 64 padded) initial_hash in
  be_octets (va H) ++ be_octets (vb H) ++ be_octets (vc H) ++ be_octets (vd H) ++ be_octets (ve H).

(** FIPS 180: the hash of "abc". *)
Example sha1_abc : sha1 (str "abc") =
  [0xa9; 0x99; 0x3e; 0x36; 0x47; 0x06; 0x81; 0x6a; 0xba; 0x3e; 0x25; 0x71; 0x78; 0x50; 0xc2; 0x6c; 0x9c; 0xd0; 0xd8; 0x9d].
Proof. vm_compute. reflexivity. Qed.

Example calc_abc : calc (replicate 80 7) (str "abc") = sha1 (str "abc").
Proof. vm_compute. reflexivity. Qed.

Example calc_two_blocks : calc (replicate 80 7) (replicate 60 65) = sha1 (replicate 60 65) /\
  calc (replicate 80 7) (replicate 150 65) = sha1 (replicate 150 65).
Proof. split; vm_compute; reflexivity. Qed.
