(* ===== verification/Sha1Correct.v ===== *)
(** * The hash routine computes SHA-1

    [calc] fills, extends and clears one buffer of words as it goes; the
    reference of FIPS 180-4 pads the message, cuts it into blocks and takes a
    complete message schedule for each. They agree on every message whose length
    in bits fits a word. *)
From S2P Require Import Prelude Sha1.

(** ** Words *)
Definition is_word (x : Z) : Prop := 0 <= x < 2 ^ 32.
Definition working_words (s : working) : Prop :=
  is_word (va s) /\ is_word (vb s) /\ is_word (vc s) /\ is_word (vd s) /\ is_word (ve s).

Lemma is_word_u32 z : is_word (u32 z).
Proof. apply u32_bound. Qed.
Lemma is_word_mod z : is_word (z mod 2 ^ 32).
Proof. apply u32_bound. Qed.
#[local] Hint Resolve is_word_u32 is_word_mod : words.

Lemma rol_rotl x n : is_word x -> 0 < n < 32 -> rol x n = rotl n x /\ is_word (rotl n x).
Proof.
  intros Hx Hn. unfold rol, rotl, is_word, u32, wrap in *.
  assert (2 ^ 32 = 2 ^ (32 - n) * 2 ^ n) as E by (rewrite <-Z.pow_add_r by lia; f_equal; lia).
  assert (0 <= x / 2 ^ (32 - n) < 2 ^ n) as Hq.
  { split; [apply Z.div_pos; [lia|apply Z.pow_pos_nonneg; lia]|].
    apply Z.div_lt_upper_bound; [apply Z.pow_pos_nonneg; lia|]. rewrite <-E. lia. }
  rewrite Z.shiftl_mul_pow2, Z.shiftr_div_pow2 by lia. rewrite E, Z.mul_mod_distr_r by lia.
  pose proof (Z.mod_pos_bound x (2 ^ (32 - n)) ltac:(apply Z.pow_pos_nonneg; lia)) as Hm.
  split; [|nia].
  rewrite Z.lor_comm, <-Z.shiftl_mul_pow2, lor_shiftl by lia.
  rewrite Z.shiftl_mul_pow2 by lia. lia.
Qed.

Lemma word_above x n : is_word x -> 32 <= n -> Z.testbit x n = false.
Proof. intros Hx Hn. apply (testbit_above 32); [done|lia]. Qed.

Lemma choose_Ch b c d : is_word b -> is_word d -> choose b c d = Ch b c d.
Proof.
  intros Hb Hd. unfold choose, Ch, unot, u32. bitwise.
  destruct (Z.ltb_spec n 32) as [?|?].
  - by destruct (Z.testbit b n), (Z.testbit c n), (Z.testbit d n).
  - rewrite (word_above b), (word_above d) by done. by rewrite !andb_false_r.
Qed.

Lemma majority_Maj b c d : majority b c d = Maj b c d.
Proof.
  unfold majority, Maj. bitwise.
  by destruct (Z.testbit b n), (Z.testbit c n), (Z.testbit d n).
Qed.

(** ** The schedule *)
Definition extension (w : list Z) (t : nat) : Z :=
  rotl 1 (Z.lxor (Z.lxor (w !!! (t - 3)%nat) (w !!! (t - 8)%nat))
            (Z.lxor (w !!! (t - 14)%nat) (w !!! (t - 16)%nat))).

Lemma is_word_lxor x y : is_word x -> is_word y -> is_word (Z.lxor x y).
Proof.
  intros Hx Hy. split; [apply Z.lxor_nonneg; unfold is_word in *; lia|].
  apply below_pow2; [lia|apply Z.lxor_nonneg; unfold is_word in *; lia|].
  intros n Hn. rewrite Z.lxor_spec. by rewrite (word_above x), (word_above y).
Qed.
#[local] Hint Resolve is_word_lxor : words.

Lemma extension_ext w w' t : (forall i, (t - 16 <= i < t)%nat -> w !!! i = w' !!! i) -> (16 <= t)%nat ->
  extension w t = extension w' t.
Proof. intros H Ht. unfold extension. by rewrite !H by lia. Qed.

Lemma schedule_spec n : forall w, (16 <= length w)%nat ->
  length (schedule n w) = (length w + n)%nat /\
  (forall i, (i < length w)%nat -> schedule n w !!! i = w !!! i) /\
  (forall t, (length w <= t < length w + n)%nat -> schedule n w !!! t = extension (schedule n w) t).
Proof.
  induction n as [|n IH]; intros w Hw; simpl; [split_and!; [lia|done|lia]|].
  set (x := rotl 1 _). destruct (IH (w ++ [x])) as (IHl & IHs & IHe); [rewrite length_app; simpl; lia|].
  rewrite length_app in *. simpl in *.
  assert (forall i, (i < length w)%nat -> schedule n (w ++ [x]) !!! i = w !!! i) as Hlow.
  { intros i Hi. rewrite IHs by lia. by rewrite lookup_total_app_l. }
  split_and!; [lia|done|]. intros t Ht. destruct (decide (t = length w)) as [->|].
  - rewrite IHs by lia. rewrite lookup_total_app_r, Nat.sub_diag by lia. simpl.
    rewrite (extension_ext _ w); [done| |lia]. intros i Hi. apply Hlow. lia.
  - apply IHe. lia.
Qed.

(** ** The rounds of one block *)

(** Round [t] of the standard uses [func] and [val]. *)
Definition round_is (func : Z -> Z -> Z -> Z) (val : Z) (t : nat) : Prop :=
  val = K_t t /\ forall b c d, is_word b -> is_word c -> is_word d -> func b c d = f_t t b c d.

Ltac pick_round :=
  unfold round_is, K_t, f_t; repeat case_bool_decide; repeat (case Nat.ltb_spec; intros ?); try lia.

Lemma choose_rounds t : (t < 20)%nat -> round_is choose 0x5a827999 t.
Proof. intros Ht. pick_round. split; [done|]. intros. by apply choose_Ch. Qed.
Lemma parity_rounds_1 t : (20 <= t < 40)%nat -> round_is parity 0x6ed9eba1 t.
Proof. intros Ht. by pick_round. Qed.
Lemma majority_rounds t : (40 <= t < 60)%nat -> round_is majority 0x8f1bbcdc t.
Proof. intros Ht. pick_round. split; [done|]. intros. apply majority_Maj. Qed.
Lemma parity_rounds_2 t : (60 <= t)%nat -> round_is parity 0xca62c1d6 t.
Proof. intros Ht. by pick_round. Qed.

Section block.
  #[local] Set Default Proof Using "Type*".
(** The schedule of the block. *)
Context (W : list Z).
Hypothesis W_words : forall t, (t < 80)%nat -> is_word (W !!! t).
Hypothesis W_extends : forall t, (16 <= t < 80)%nat -> W !!! t = extension W t.
Context (H0 : working).
Hypothesis H0_words : working_words H0.

Definition after (t : nat) : working := fold_left (fun s t => sha1_round t (W !!! t) s) (seq 0 t) H0.
(** Before round [t] the buffer holds the schedule up to [t]. *)
Definition in_round (t : nat) (st : working * list Z) : Prop :=
  st.1 = after t /\ length st.2 = 80%nat /\ forall i, (i < t \/ i < 16)%nat -> st.2 !!! i = W !!! i.

Lemma after_S t : after (S t) = sha1_round t (W !!! t) (after t).
Proof. unfold after. by rewrite seq_S, fold_left_app. Qed.

Lemma after_words t : (t <= 80)%nat -> working_words (after t).
Proof.
  induction t as [|t IH]; intros Ht; [done|]. rewrite after_S.
  destruct IH as (Ha & Hb & Hc & Hd & _); [lia|]. unfold sha1_round, working_words. simpl.
  pose proof (rol_rotl _ 30 Hb ltac:(lia)) as [_ ?]. split_and!; auto with words.
Qed.

Lemma macro_round func t w : (t < 80)%nat -> w !!! t = W !!! t ->
  (forall b c d, is_word b -> is_word c -> is_word d -> func b c d = f_t t b c d) ->
  sha1macro func (K_t t) t (after t) w = after (S t).
Proof.
  intros Ht Hw Hf. rewrite after_S. destruct (after_words t ltac:(lia)) as (Ha & Hb & Hc & Hd & He).
  unfold sha1macro, sha1_round. rewrite Hw, Hf by done.
  by rewrite (proj1 (rol_rotl _ 5 Ha ltac:(lia))), (proj1 (rol_rotl _ 30 Hb ltac:(lia))).
Qed.

Lemma plain_step_round func val t st : (t < 16)%nat -> round_is func val t ->
  in_round t st -> in_round (S t) (plain_step func val t st).
Proof.
  intros Ht [-> Hf] (Es & El & Ew). unfold plain_step, in_round. simpl. rewrite Es.
  split_and!; [apply macro_round; [lia| |done]; apply Ew; lia|done|intros i Hi; apply Ew; lia].
Qed.

Lemma expanding_step_round func val t st : (16 <= t < 80)%nat -> round_is func val t ->
  in_round t st -> in_round (S t) (expanding_step func val t st).
Proof.
  intros Ht [-> Hf] (Es & El & Ew). unfold expanding_step, in_round. simpl. rewrite Es.
  assert (forall i, (i < S t \/ i < 16)%nat -> expand t st.2 !!! i = W !!! i) as Hx.
  { intros i Hi. unfold expand. destruct (decide (i = t)) as [->|].
      - rewrite list_lookup_total_insert_eq by lia. rewrite !Ew by lia. rewrite (W_extends t) by lia.
        set (x := Z.lxor _ (W !!! (t - 16)%nat)). assert (is_word x) as Hx.
        { apply is_word_lxor; [apply is_word_lxor; [apply is_word_lxor|]|]; apply W_words; lia. }
        rewrite (proj1 (rol_rotl x 1 Hx ltac:(lia))). unfold extension, x. by rewrite Z.lxor_assoc.
      - rewrite list_lookup_total_insert_ne by done. apply Ew. lia. }
  split_and!; [apply macro_round; [lia| |done]; apply Hx; lia| |done].
  unfold expand. by rewrite length_insert.
Qed.

Lemma rounds_inv first last step st : (first <= last)%nat ->
  (forall t st, (first <= t < last)%nat -> in_round t st -> in_round (S t) (step t st)) ->
  in_round first st -> in_round last (rounds first last step st).
Proof.
  intros Hle. unfold rounds. remember (last - first)%nat as k eqn:Ek.
  assert (last = first + k)%nat as -> by lia. clear Ek Hle.
  revert st. induction k as [|k IH]; intros st Hs Hi.
  { by rewrite Nat.add_0_r. }
  rewrite seq_S, fold_left_app, Nat.add_succ_r. simpl.
  apply Hs; [lia|]. apply IH; [|done]. intros; apply Hs; [lia|done].
Qed.

Lemma all_rounds_inv w : length w = 80%nat -> (forall i, (i < 16)%nat -> w !!! i = W !!! i) ->
  in_round 80 (all_rounds (H0, w)).
Proof.
  intros Hl Hw. unfold all_rounds.
  repeat (apply rounds_inv; [lia|intros; apply expanding_step_round;
      [lia|first [apply choose_rounds|apply parity_rounds_1|apply majority_rounds|apply parity_rounds_2]; lia|done]|]).
  apply rounds_inv; [lia|intros; apply plain_step_round; [lia|apply choose_rounds; lia|done]|].
  split_and!; [done..|]. intros i Hi. apply Hw. lia.
Qed.
End block.

Lemma schedule_words words : length words = 16%nat -> (forall i, (i < 16)%nat -> is_word (words !!! i)) ->
  forall t, (t < 80)%nat -> is_word (schedule 64 words !!! t).
Proof.
  intros Hl Hw. destruct (schedule_spec 64 words ltac:(lia)) as (_ & Hlow & Hext).
  intros t. induction t as [t IH] using lt_wf_ind. intros Ht.
  destruct (decide (t < 16)%nat); [rewrite Hlow by lia; by apply Hw|].
  rewrite Hext by lia. unfold extension. apply rol_rotl; [|lia].
  apply is_word_lxor; apply is_word_lxor; apply IH; lia.
Qed.

(** The hash value as the five words of [result]. *)
Definition words_of (H : working) : list Z := [va H; vb H; vc H; vd H; ve H].

Lemma compress_words H block : working_words (compress H block).
Proof.
  exact (conj (is_word_mod _) (conj (is_word_mod _) (conj (is_word_mod _)
    (conj (is_word_mod _) (is_word_mod _))))).
Qed.

(** ** Octets and words *)
Lemma length_chunks n k (l : list Z) : length (chunks n k l) = n.
Proof. revert l. induction n as [|n IH]; intros l; simpl; [done|]. by rewrite IH. Qed.

Lemma lookup_chunks n k : forall (l : list Z) i, (i < n)%nat -> chunks n k l !! i = Some (take k (drop (k * i) l)).
Proof.
  induction n as [|n IH]; intros l i Hi; [lia|]. destruct i as [|i]; simpl; [by rewrite Nat.mul_0_r|].
  rewrite IH by lia. rewrite drop_drop. do 3 f_equal. lia.
Qed.

(** Word [j] of a block. *)
Definition word_at (block : list Z) (j : nat) : Z :=
  2 ^ 24 * block !!! (4 * j)%nat + 2 ^ 16 * block !!! (4 * j + 1)%nat +
  2 ^ 8 * block !!! (4 * j + 2)%nat + block !!! (4 * j + 3)%nat.

Lemma four_octets (l : list Z) p : (p + 4 <= length l)%nat ->
  take 4 (drop p l) = [l !!! p; l !!! (p + 1)%nat; l !!! (p + 2)%nat; l !!! (p + 3)%nat].
Proof.
  intros Hp. apply list_eq. intros i. destruct (decide (i < 4)%nat) as [Hi|Hi].
  - rewrite lookup_take_lt, lookup_drop by done.
    rewrite (list_lookup_lookup_total_lt l (p + i)) by lia.
    do 4 (destruct i as [|i]; [simpl; by rewrite ?Nat.add_0_r|]). lia.
  - rewrite lookup_take_ge by lia. symmetry. apply lookup_ge_None. simpl. lia.
Qed.

Lemma length_block_words block : length (block_words block) = 16%nat.
Proof. unfold block_words. by rewrite length_map, length_chunks. Qed.

Lemma lookup_block_words block j : length block = 64%nat -> (j < 16)%nat ->
  block_words block !!! j = word_at block j.
Proof.
  intros Hl Hj. apply list_lookup_total_correct. unfold block_words.
  rewrite list_lookup_fmap, lookup_chunks by done. simpl. rewrite four_octets by lia.
  f_equal. unfold be_word, word_at. simpl. lia.
Qed.

Lemma octet_at block i : Forall is_byte block -> is_byte (block !!! i).
Proof.
  intros Hb. destruct (block !! i) as [x|] eqn:E.
  - rewrite (list_lookup_total_correct _ _ _ E). by eapply Forall_lookup_1.
  - rewrite (list_lookup_total_alt block i), E. split; simpl; lia.
Qed.

Lemma word_at_word block j : Forall is_byte block -> is_word (word_at block j).
Proof.
  intros Hb. unfold word_at, is_word.
  pose proof (octet_at block (4 * j) Hb). pose proof (octet_at block (4 * j + 1) Hb).
  pose proof (octet_at block (4 * j + 2) Hb). pose proof (octet_at block (4 * j + 3) Hb).
  unfold is_byte in *. lia.
Qed.

(** The buffer holds a block: its first sixteen words are the block's. *)
Definition holds (w block : list Z) : Prop :=
  length w = 80%nat /\ length block = 64%nat /\ Forall is_byte block /\
  forall j, (j < 16)%nat -> w !!! j = word_at block j.

Definition feed (H s : working) : working :=
  Working (u32 (va H + va s)) (u32 (vb H + vb s)) (u32 (vc H + vc s)) (u32 (vd H + vd s)) (u32 (ve H + ve s)).
Lemma innerHash_rounds H w :
  innerHash (words_of H) w = (words_of (feed H (all_rounds (H, w)).1), (all_rounds (H, w)).2).
Proof.
  assert (Working (va H) (vb H) (vc H) (vd H) (ve H) = H) as E by by destruct H.
  unfold innerHash, words_of. cbn -[all_rounds u32]. by rewrite E.
Qed.

(** One block: the in-place rounds are the compression function. *)
Lemma innerHash_compress H w block : working_words H -> holds w block ->
  exists w', innerHash (words_of H) w = (words_of (compress H block), w') /\ length w' = 80%nat.
Proof.
  intros HH (Hl & Hb & Ho & Hw). pose proof (length_block_words block) as Hlw.
  destruct (schedule_spec 64 (block_words block) ltac:(lia)) as (Hls & Hlow & Hext). rewrite Hlw in *.
  assert (in_round (schedule 64 (block_words block)) H 80 (all_rounds (H, w))) as (Es & El & _).
  { apply (all_rounds_inv _ (schedule_words _ Hlw ltac:(intros i Hi; rewrite lookup_block_words by done;
      by apply word_at_word)) Hext H HH w Hl).
    intros i Hi. rewrite Hlow, lookup_block_words by done. by apply Hw. }
  rewrite innerHash_rounds. eexists. split; [|exact El]. rewrite Es. reflexivity.
Qed.

(** ** Full blocks *)
Lemma load_block_fold sarray p n : forall w, (n <= length w)%nat ->
  let w' := fold_left (fun w roundPos => <[roundPos := load_word sarray (p + 4 * roundPos)]> w) (seq 0 n) w in
  length w' = length w /\ forall j, (j < n)%nat -> w' !!! j = load_word sarray (p + 4 * j).
Proof.
  induction n as [|n IH]; intros w Hn; [split; [done|intros j Hj; lia]|].
  rewrite seq_S, fold_left_app. cbn [fold_left]. destruct (IH w ltac:(lia)) as [IHl IHw]. cbn zeta.
  split; [by rewrite length_insert|]. intros j Hj. destruct (decide (j = n)) as [->|].
  - apply list_lookup_total_insert_eq. rewrite IHl. lia.
  - rewrite list_lookup_total_insert_ne by done. apply IHw. lia.
Qed.

Lemma load_word_at sarray p : Forall is_byte sarray ->
  load_word sarray p = 2 ^ 24 * sarray !!! p + 2 ^ 16 * sarray !!! (p + 1)%nat +
    2 ^ 8 * sarray !!! (p + 2)%nat + sarray !!! (p + 3)%nat.
Proof.
  intros Hb. pose proof (octet_at sarray p Hb). pose proof (octet_at sarray (p + 1) Hb).
  pose proof (octet_at sarray (p + 2) Hb). pose proof (octet_at sarray (p + 3) Hb).
  unfold is_byte, load_word in *.
  rewrite (lor_shiftl (sarray !!! (p + 3)%nat)) by lia. rewrite (lor_shiftl _ _ 16) by lia. rewrite (lor_shiftl _ _ 24) by lia. lia.
Qed.

Lemma load_block_holds sarray p w : Forall is_byte sarray -> (p + 64 <= length sarray)%nat ->
  length w = 80%nat -> holds (load_block sarray p w) (take 64 (drop p sarray)).
Proof.
  intros Hb Hp Hw. destruct (load_block_fold sarray p 16 w ltac:(lia)) as [Hl Hj].
  split_and!; [unfold load_block; lia|rewrite length_take, length_drop; lia|by apply Forall_take, Forall_drop|].
  intros j Hj16. unfold load_block. rewrite Hj, load_word_at by done. unfold word_at.
  rewrite !list_lookup_total_alt, !lookup_take_lt, !lookup_drop by lia. rewrite !Nat.add_assoc. done.
Qed.

(** Every full block from the one at [64 * j] on. *)
Lemma full_blocks_fold sarray : Forall is_byte sarray -> forall fuel j H w,
  (j + fuel > length sarray / 64)%nat -> (64 * j <= length sarray)%nat -> (64 <= length sarray)%nat ->
  working_words H -> length w = 80%nat ->
  exists w', length w' = 80%nat /\
    full_blocks fuel sarray (length sarray - 64) (64 * j) (words_of H) w =
    ((64 * (length sarray / 64))%nat,
     words_of (fold_left compress (chunks (length sarray / 64 - j) 64 (drop (64 * j) sarray)) H), w').
Proof.
  intros Hb fuel. set (q := (length sarray / 64)%nat).
  assert (64 * q <= length sarray < 64 * q + 64)%nat as Hq.
  { pose proof (Nat.div_mod_eq (length sarray) 64). pose proof (Nat.mod_upper_bound (length sarray) 64). unfold q. lia. }
  clearbody q. induction fuel as [|fuel IH]; intros j H w Hf Hj Hl HH Hw; [lia|]. cbn [full_blocks].
  destruct (Nat.leb_spec (64 * j) (length sarray - 64)) as [Hin|Hout].
  - destruct (innerHash_compress H _ _ HH (load_block_holds sarray (64 * j) w Hb ltac:(lia) Hw)) as (w1 & -> & Hw1).
    replace (64 * j + 64)%nat with (64 * S j)%nat by lia.
    destruct (IH (S j) (compress H (take 64 (drop (64 * j) sarray))) w1) as (w2 & Hw2 & ->);
      [lia|lia|lia|apply compress_words|done|].
    exists w2. split; [done|]. replace (q - j)%nat with (S (q - S j)) by lia. cbn [chunks fold_left].
    rewrite drop_drop. do 6 f_equal. lia.
  - exists w. split; [done|]. replace (q - j)%nat with 0%nat by lia. replace j with q by lia. done.
Qed.

(** ** The last blocks *)
Lemma clear_holds w : length w = 80%nat -> holds (clearWBuffert w) (replicate 64 0).
Proof.
  intros Hw. unfold clearWBuffert. split_and!.
  - rewrite length_app, length_replicate, length_drop. lia.
  - by rewrite length_replicate.
  - apply Forall_replicate. by split.
  - intros j Hj. rewrite lookup_total_app_l by (rewrite length_replicate; lia).
    unfold word_at. rewrite !lookup_total_replicate_2 by lia. done.
Qed.

Lemma lor_octet w x n : 0 <= n -> 0 <= x < 256 -> w / 2 ^ n mod 256 = 0 ->
  Z.lor w (Z.shiftl x n) = w + 2 ^ n * x.
Proof.
  intros Hn Hx Hz. enough (Z.land w (Z.shiftl x n) = 0) as E.
  { rewrite <-Z.lxor_lor, <-Z.add_nocarry_lxor by done. rewrite Z.shiftl_mul_pow2; lia. }
  apply Z.bits_inj'. intros k Hk. rewrite Z.land_spec, Z.shiftl_spec, Z.bits_0 by lia.
  destruct (Z.ltb_spec k n); [by rewrite (Z.testbit_neg_r _ (k - n)), andb_false_r by lia|].
  destruct (Z.ltb_spec (k - n) 8) as [Hlt|]; [|by rewrite (testbit_above 8 x), andb_false_r by lia].
  assert (Z.testbit (wrap 8 (w / 2 ^ n)) (k - n) = false) as Ht by (unfold wrap; change (2 ^ 8) with 256; by rewrite Hz, Z.bits_0).
  rewrite testbit_wrap, <-Z.shiftr_div_pow2, Z.shiftr_spec in Ht by lia.
  rewrite (proj2 (Z.ltb_lt _ _) Hlt), Z.sub_add in Ht. simpl in Ht. by rewrite Ht.
Qed.

Lemma insert_octet block i x : length block = 64%nat -> (i < 64)%nat -> block !!! i = 0 ->
  Forall is_byte block ->
  let n := 8 * (3 - Z.of_nat (i mod 4)) in
  0 <= n /\ word_at block (i / 4) / 2 ^ n mod 256 = 0 /\
  (forall j, (j < 16)%nat ->
   word_at (<[i := x]> block) j = word_at block j + (if decide (j = i / 4)%nat then 2 ^ n * x else 0)).
Proof.
  intros Hl Hi Hz Hb. pose proof (Nat.div_mod_eq i 4) as E. pose proof (Nat.mod_upper_bound i 4 ltac:(lia)) as Hm.
  revert E Hm. generalize (i / 4)%nat as p, (i mod 4)%nat as m. intros p m -> Hm. cbn zeta.
  split; [lia|split].
  - unfold word_at.
    pose proof (octet_at block (4 * p) Hb). pose proof (octet_at block (4 * p + 1) Hb).
    pose proof (octet_at block (4 * p + 2) Hb). pose proof (octet_at block (4 * p + 3) Hb). unfold is_byte in *.
    assert (m = 0 \/ m = 1 \/ m = 2 \/ m = 3)%nat as [-> | [-> | [-> | ->]]] by lia;
      rewrite ?Nat.add_0_r in Hz; rewrite Hz.
    + change (2 ^ (8 * (3 - Z.of_nat 0))) with 16777216. Z.to_euclidean_division_equations. lia.
    + change (2 ^ (8 * (3 - Z.of_nat 1))) with 65536. Z.to_euclidean_division_equations. lia.
    + change (2 ^ (8 * (3 - Z.of_nat 2))) with 256. Z.to_euclidean_division_equations. lia.
    + change (2 ^ (8 * (3 - Z.of_nat 3))) with 1. Z.to_euclidean_division_equations. lia.
  - intros j Hj. unfold word_at. case_decide as Ej; [subst p|].
    + assert (m = 0 \/ m = 1 \/ m = 2 \/ m = 3)%nat as [-> | [-> | [-> | ->]]] by lia;
        rewrite ?Nat.add_0_r in *;
        rewrite list_lookup_total_insert_eq, !list_lookup_total_insert_ne by lia; rewrite Hz;
        simpl (8 * _); lia.
    + rewrite !list_lookup_total_insert_ne by lia. lia.
Qed.

Lemma or_octet_holds w block i x : holds w block -> (i < 64)%nat -> block !!! i = 0 -> is_byte x ->
  holds (or_octet i x w) (<[i := x]> block).
Proof.
  intros (Hl & Hb & Ho & Hw) Hi Hz Hx.
  destruct (insert_octet block i x Hb Hi Hz Ho) as (Hn & Hz' & Hins). cbn zeta in *.
  assert (i / 4 < 16)%nat as Hp by (apply Nat.Div0.div_lt_upper_bound; lia).
  split_and!; [unfold or_octet; by rewrite length_insert|by rewrite length_insert|by apply Forall_insert|].
  intros j Hj. rewrite Hins by done. unfold or_octet. case_decide as Ej; [subst j|].
  - rewrite list_lookup_total_insert_eq by lia. rewrite Hw by done. by apply lor_octet.
  - rewrite list_lookup_total_insert_ne by done. rewrite Hw by done. lia.
Qed.

Lemma fill_holds tail w (sarray : list Z) p : Forall is_byte tail -> (length tail < 64)%nat ->
  (forall i, (i < length tail)%nat -> sarray !!! (i + p)%nat = tail !!! i) -> holds w (replicate 64 0) ->
  forall n, (n <= length tail)%nat ->
  holds (fold_left (fun w i => or_octet i (sarray !!! (i + p)%nat) w) (seq 0 n) w)
    (take n tail ++ replicate (64 - n) 0).
Proof.
  intros Ht Hl Hs Hw n. induction n as [|n IH]; intros Hn; [exact Hw|].
  rewrite seq_S, fold_left_app. cbn [fold_left]. rewrite Hs by lia.
  replace (take (S n) tail ++ replicate (64 - S n) 0)
    with (<[n := tail !!! n]> (take n tail ++ replicate (64 - n) 0)).
  - apply or_octet_holds; [apply IH; lia|lia| |by apply octet_at].
    rewrite lookup_total_app_r by (rewrite length_take; lia).
    apply lookup_total_replicate_2. rewrite length_take. lia.
  - rewrite (take_S_r _ _ (tail !!! n)) by (apply list_lookup_lookup_total_lt; lia).
    rewrite insert_app_r_alt by (rewrite length_take; lia). rewrite length_take, Nat.min_l, Nat.sub_diag by lia.
    replace (64 - n)%nat with (S (64 - S n)) by lia. simpl. by rewrite <-app_assoc.
Qed.

Lemma length_field_holds w p v : holds w (p ++ replicate 4 0) -> length p = 60%nat -> is_word v ->
  holds (<[15%nat := v]> w) (p ++ be_octets v).
Proof.
  intros (Hl & Hb & Ho & Hw) Hp Hv. unfold is_word in Hv. apply Forall_app in Ho as [Ho _].
  split_and!; [by rewrite length_insert|rewrite length_app; simpl; lia| |].
  - apply Forall_app. split; [done|]. unfold be_octets, is_byte.
    repeat constructor; Z.to_euclidean_division_equations; lia.
  - intros j Hj. destruct (decide (j = 15%nat)) as [->|].
    + rewrite list_lookup_total_insert_eq by lia. unfold word_at.
      rewrite !lookup_total_app_r by lia. rewrite Hp. simpl. Z.to_euclidean_division_equations; lia.
    + rewrite list_lookup_total_insert_ne, Hw by lia. unfold word_at. by rewrite !lookup_total_app_l by lia.
Qed.

(** ** Padding *)
Lemma chunks_app k n m : forall (l1 l2 : list Z), length l1 = (n * k)%nat ->
  chunks (n + m) k (l1 ++ l2) = chunks n k l1 ++ chunks m k l2.
Proof.
  induction n as [|n IH]; intros l1 l2 Hl; cbn [chunks Nat.add app].
  { simpl in Hl. by rewrite (nil_length_inv _ Hl). }
  rewrite take_app_le, drop_app_le by (simpl in Hl; lia). f_equal. apply IH.
  rewrite length_drop. simpl in Hl. lia.
Qed.

Lemma chunks_concat k (bs : list (list Z)) : Forall (fun b => length b = k) bs ->
  length (concat bs) = (length bs * k)%nat /\ chunks (length bs) k (concat bs) = bs.
Proof.
  induction 1 as [|b bs Hb _ [IHl IHc]]; [done|]. simpl. rewrite length_app, IHl, Hb. split; [done|].
  by rewrite take_app_length', drop_app_length', IHc.
Qed.

Lemma length_field v : 0 <= v < 2 ^ 32 ->
  map (fun i => Z.shiftr v (8 * (7 - Z.of_nat i)) mod 256) (seq 0 8) = replicate 4 0 ++ be_octets v.
Proof.
  intros Hv. unfold be_octets. simpl. rewrite !Z.shiftr_div_pow2 by lia. simpl (2 ^ _).
  repeat f_equal; Z.to_euclidean_division_equations; lia.
Qed.

(** The last block, or the last two. *)
Definition last_blocks (tail : list Z) (len : nat) : list (list Z) :=
  let e := length tail in
  if (56 <=? e)%nat
  then [tail ++ 0x80 :: replicate (63 - e) 0; replicate 60 0 ++ be_octets (8 * Z.of_nat len)]
  else [(tail ++ 0x80 :: replicate (59 - e) 0) ++ be_octets (8 * Z.of_nat len)].

Lemma last_blocks_length tail len : (length tail < 64)%nat ->
  Forall (fun b => length b = 64%nat) (last_blocks tail len).
Proof.
  intros He. unfold last_blocks. destruct (Nat.leb_spec 56 (length tail)); repeat constructor;
    rewrite ?length_app; simpl; rewrite ?length_app, length_replicate; simpl; lia.
Qed.

Lemma pad_blocks head tail q : length head = (q * 64)%nat -> (length tail < 64)%nat ->
  8 * Z.of_nat (length (head ++ tail)) < 2 ^ 32 ->
  pad (head ++ tail) = head ++ concat (last_blocks tail (length (head ++ tail))).
Proof.
  intros Hh He Hl. unfold pad, last_blocks. rewrite length_field by lia. rewrite <-app_assoc. f_equal.
  assert (Z.of_nat (length (head ++ tail)) = 64 * Z.of_nat q + Z.of_nat (length tail)) as El
    by (rewrite length_app; lia).
  generalize (be_octets (8 * Z.of_nat (length (head ++ tail)))) as lf. intros lf.
  destruct (Nat.leb_spec 56 (length tail)) as [H56|H56]; cbn [concat]; rewrite app_nil_r, <-?app_assoc;
    f_equal; cbn [app]; f_equal; rewrite El.
  - replace ((55 - _) mod 64) with (Z.of_nat (63 - length tail + 56)) by (Z.to_euclidean_division_equations; lia).
    by rewrite Nat2Z.id, replicate_add, <-app_assoc.
  - replace ((55 - _) mod 64) with (Z.of_nat (55 - length tail)) by (Z.to_euclidean_division_equations; lia).
    rewrite Nat2Z.id, app_assoc, <-replicate_add. do 2 f_equal. lia.
Qed.

Lemma pad_chunks head tail q : length head = (q * 64)%nat -> (length tail < 64)%nat ->
  8 * Z.of_nat (length (head ++ tail)) < 2 ^ 32 ->
  chunks (length (pad (head ++ tail)) / 64) 64 (pad (head ++ tail)) =
  chunks q 64 (head ++ tail) ++ last_blocks tail (length (head ++ tail)).
Proof.
  intros Hh He Hl. rewrite (pad_blocks _ _ _ Hh He Hl).
  destruct (chunks_concat 64 _ (last_blocks_length tail (length (head ++ tail)) He)) as [Ec Eb].
  rewrite (length_app head (concat _)), Hh, Ec, <-Nat.mul_add_distr_r, Nat.div_mul by done.
  rewrite chunks_app, Eb by done. f_equal.
  pose proof (chunks_app 64 q 0 head tail Hh) as Em. by rewrite Nat.add_0_r, app_nil_r in Em.
Qed.

(** ** The whole routine *)
Lemma output_octets H : working_words H ->
  map (fun hashByte => Z.land (Z.shiftr (words_of H !!! (hashByte / 4)%nat) (8 * (3 - Z.of_nat (hashByte mod 4)))) 0xff)
    (seq 0 20) = be_octets (va H) ++ be_octets (vb H) ++ be_octets (vc H) ++ be_octets (vd H) ++ be_octets (ve H).
Proof.
  intros (Ha & Hb & Hc & Hd & He). unfold is_word, be_octets, words_of in *.
  simpl. change 255 with (Z.ones 8). rewrite !Z.land_ones, !Z.shiftr_div_pow2 by lia. simpl (2 ^ _).
  repeat f_equal; Z.to_euclidean_division_equations; lia.
Qed.

Lemma initial_words : working_words initial_hash.
Proof. unfold working_words, is_word. simpl. lia. Qed.

Lemma compress_list_words bs H : working_words H -> working_words (fold_left compress bs H).
Proof.
  revert H. induction bs as [|b bs IH]; intros H HH; simpl; [done|]. apply IH, compress_words.
Qed.

(** What is left after the full blocks. *)
Definition calc_last (sarray : list Z) (currentBlock : nat) (result w : list Z) : list Z :=
  let endCurrentBlock := (length sarray - currentBlock)%nat in
  let w := clearWBuffert w in
  let w := fold_left (fun w lastBlockBytes => or_octet lastBlockBytes (sarray !!! (lastBlockBytes + currentBlock)%nat) w)
             (seq 0 endCurrentBlock) w in
  let w := or_octet endCurrentBlock 0x80 w in
  let '(result, w) :=
    if (56 <=? endCurrentBlock)%nat
    then let '(result, w) := innerHash result w in (result, clearWBuffert w)
    else (result, w) in
  let w := <[15%nat := u32 (Z.shiftl (Z.of_nat (length sarray)) 3)]> w in
  (innerHash result w).1.

Lemma calc_last_blocks head tail q H w : length head = (q * 64)%nat -> (length tail < 64)%nat ->
  8 * Z.of_nat (length (head ++ tail)) < 2 ^ 32 -> Forall is_byte tail -> working_words H -> length w = 80%nat ->
  calc_last (head ++ tail) (64 * q) (words_of H) w =
  words_of (fold_left compress (last_blocks tail (length (head ++ tail))) H).
Proof.
  intros Hh He Hl Hb HH Hw. unfold calc_last, last_blocks.
  replace (length (head ++ tail) - 64 * q)%nat with (length tail) by (rewrite length_app; lia).
  pose proof (fill_holds tail (clearWBuffert w) (head ++ tail) (64 * q) Hb He) as Hf.
  specialize (Hf ltac:(intros i Hi; rewrite lookup_total_app_r by lia; f_equal; lia) (clear_holds w Hw) _ (le_n _)).
  rewrite firstn_all in Hf.
  eapply (or_octet_holds _ _ (length tail) 0x80) in Hf as Hp; [|done| |by split].
  2: { rewrite lookup_total_app_r, Nat.sub_diag by lia. apply lookup_total_replicate_2. lia. }
  rewrite insert_app_r_alt, Nat.sub_diag in Hp by lia.
  replace (64 - length tail)%nat with (S (63 - length tail)) in Hp by lia.
  change (<[0%nat := 128]> (replicate (S (63 - length tail)) 0)) with (128 :: replicate (63 - length tail) 0) in Hp.
  assert (u32 (Z.shiftl (Z.of_nat (length (head ++ tail))) 3) = 8 * Z.of_nat (length (head ++ tail))) as ->
    by (rewrite Z.shiftl_mul_pow2 by lia; rewrite u32_small; lia).
  clear Hf. match type of Hp with holds ?x _ => generalize dependent x end. intros w1 Hp.
  assert (is_word (8 * Z.of_nat (length (head ++ tail)))) as Hlw by (unfold is_word; lia).
  destruct (Nat.leb_spec 56 (length tail)).
  - destruct (innerHash_compress H _ _ HH Hp) as (w2 & -> & Hw2). cbn [fold_left].
    pose proof (length_field_holds _ (replicate 60 0) _ (clear_holds w2 Hw2) (length_replicate _ _) Hlw) as H15.
    by destruct (innerHash_compress _ _ _
      (compress_words H (tail ++ 128 :: replicate (63 - length tail) 0)) H15) as (w3 & -> & _).
  - assert (holds w1 ((tail ++ 128 :: replicate (59 - length tail) 0) ++ replicate 4 0)) as Hp'.
    { rewrite <-app_assoc. cbn [app]. rewrite <-(replicate_add _ 4).
      by replace (59 - length tail + 4)%nat with (63 - length tail)%nat by lia. }
    apply (length_field_holds _ _ _ Hp') in Hlw as H15;
      [|rewrite length_app; simpl; rewrite length_replicate; lia].
    by destruct (innerHash_compress _ _ _ HH H15) as (w3 & -> & _).
Qed.

Lemma calc_sha1 w sarray : length w = 80%nat -> Forall is_byte sarray ->
  8 * Z.of_nat (length sarray) < 2 ^ 32 -> calc w sarray = sha1 sarray.
Proof.
  intros Hw Hb Hl. pose proof (Nat.div_mod_eq (length sarray) 64) as Edm.
  pose proof (Nat.mod_upper_bound (length sarray) 64 ltac:(lia)) as Hm.
  set (q := (length sarray / 64)%nat) in *.
  set (H1 := fold_left compress (chunks q 64 sarray) initial_hash).
  assert (exists w1, length w1 = 80%nat /\ (if (64 <=? length sarray)%nat
    then full_blocks (length sarray) sarray (length sarray - 64) 0 initial_result w
    else (0%nat, initial_result, w)) = ((64 * q)%nat, words_of H1, w1)) as (w1 & Hw1 & E1).
  { destruct (Nat.leb_spec 64 (length sarray)) as [H64|H64].
    - destruct (full_blocks_fold sarray Hb (length sarray) 0 initial_hash w) as (w1 & Hw1 & E);
        [fold q; lia|lia|done|apply initial_words|done|]. exists w1. split; [done|].
      fold q in E. rewrite Nat.sub_0_r in E. exact E.
    - exists w. split; [done|]. unfold H1. by replace q with 0%nat by lia. }
  pose proof (take_drop (64 * q) sarray) as Es. set (head := take (64 * q) sarray) in *.
  set (tail := drop (64 * q) sarray) in *.
  assert (length head = (q * 64)%nat) as Hh by (unfold head; rewrite length_take; lia).
  assert (length tail < 64)%nat as Ht by (unfold tail; rewrite length_drop; lia).
  pose proof (calc_last_blocks head tail q H1 w1 Hh Ht) as Hc. rewrite Es in Hc.
  specialize (Hc Hl ltac:(by apply Forall_drop) (compress_list_words _ _ initial_words) Hw1).
  pose proof (pad_chunks head tail q Hh Ht) as Hp. rewrite Es in Hp. specialize (Hp Hl).
  unfold sha1. rewrite Hp, fold_left_app. fold H1.
  rewrite <-output_octets by (apply compress_list_words, compress_list_words, initial_words).
  rewrite <-Hc. unfold calc, calc_last. rewrite E1.
  destruct (56 <=? _)%nat; [destruct (innerHash _ _)|]; by destruct (innerHash _ _).
Qed.

(** C12. The hash routine of the library, which fills one buffer with the
    message's octets, appends the padding bit and the length in place and
    extends the buffer as the rounds go, returns the SHA-1 digest of FIPS 180-4
    of every message shorter than 512 MiB, whatever the buffer holds at first:
    the buffer never shows in the digest. *)
Theorem sha1_is_fips w w' sarray : length w = 80%nat -> length w' = 80%nat -> Forall is_byte sarray ->
  8 * Z.of_nat (length sarray) < 2 ^ 32 -> calc w sarray = sha1 sarray /\ calc w sarray = calc w' sarray.
Proof. intros Hw Hw' Hb Hl. by rewrite !calc_sha1. Qed.

Lemma sha1_is_fips_witness :
  calc (replicate 80 7) (str "The quick brown fox") = sha1 (str "The quick brown fox") /\
  calc (replicate 80 7) (str "The quick brown fox") = calc (replicate 80 0) (str "The quick brown fox").
Proof.
  apply (sha1_is_fips (replicate 80 7) (replicate 80 0) (str "The quick brown fox")).
  - reflexivity.
  - reflexivity.
  - repeat constructor; unfold is_byte; vm_compute; congruence.
  - vm_compute. reflexivity.
Defined.
