(* ===== verification/Base64.v ===== *)
(** * Base64: [websocketpp/base64/base64.hpp]

    The text form of the accept key of an opening handshake. Both directions
    collect characters in a small array and flush it when it is full; what is
    left at the end is completed with zeros and cut. *)
From S2P Require Import Prelude.

Definition base64_chars : list Z :=
  str "ABCDEFGHIJKLMNOPQRSTUVWXYZabcdefghijklmnopqrstuvwxyz0123456789+/".

Definition is_base64 (c : Z) : bool :=
  (c =? 43) || ((47 <=? c) && (c <=? 57)) || ((65 <=? c) && (c <=? 90)) || ((97 <=? c) && (c <=? 122)).

(** [base64_chars.find(c)], cast to [unsigned char]: [npos] becomes 255. *)
Definition find_char (c : Z) : Z :=
  match list_find (fun x => x = c) base64_chars with Some (i, _) => Z.of_nat i | None => u8 (-1) end.

(** ** Encoding *)

(** [char_array_4] from [char_array_3]. *)
Definition encode_array (a b c : Z) : list Z :=
  [Z.shiftr (Z.land a 0xfc) 2;
   u8 (Z.shiftl (Z.land a 0x03) 4 + Z.shiftr (Z.land b 0xf0) 4);
   u8 (Z.shiftl (Z.land b 0x0f) 2 + Z.shiftr (Z.land c 0xc0) 6);
   Z.land c 0x3f].

Definition char_of (v : Z) : Z := base64_chars !!! Z.to_nat v.

(** The loop: what was written and the [i] characters of [char_array_3]. *)
Definition encode_step (st : list Z * list Z) (ch : Z) : list Z * list Z :=
  let arr := st.2 ++ [ch] in
  if (length arr =? 3)%nat
  then (st.1 ++ map char_of (encode_array (arr !!! 0%nat) (arr !!! 1%nat) (arr !!! 2%nat)), [])
  else (st.1, arr).

Definition encode_rest (ret arr : list Z) : list Z :=
  let i := length arr in
  if (i =? 0)%nat then ret else
  let arr := arr ++ replicate (3 - i) 0 in
  ret ++ map char_of (take (i + 1) (encode_array (arr !!! 0%nat) (arr !!! 1%nat) (arr !!! 2%nat))) ++
  replicate (3 - i) 61.

Definition base64_encode (input : list Z) : list Z :=
  let '(ret, arr) := fold_left encode_step input ([], []) in encode_rest ret arr.

(** ** Decoding *)
Definition decode_array (v : list Z) : list Z :=
  [u8 (Z.shiftl (v !!! 0%nat) 2 + Z.shiftr (Z.land (v !!! 1%nat) 0x30) 4);
   u8 (Z.shiftl (Z.land (v !!! 1%nat) 0xf) 4 + Z.shiftr (Z.land (v !!! 2%nat) 0x3c) 2);
   u8 (Z.shiftl (Z.land (v !!! 2%nat) 0x3) 6 + v !!! 3%nat)].

(** The loop stops at the first ['='] and at the first other character. *)
Fixpoint decode_loop (input ret arr : list Z) : list Z * list Z :=
  match input with
  | [] => (ret, arr)
  | ch :: input' =>
      if negb (ch =? 61) && is_base64 ch then
        let arr := arr ++ [ch] in
        if (length arr =? 4)%nat then decode_loop input' (ret ++ decode_array (map find_char arr)) []
        else decode_loop input' ret arr
      else (ret, arr)
  end.

Definition decode_rest (ret arr : list Z) : list Z :=
  let i := length arr in
  if (i =? 0)%nat then ret else
  ret ++ take (i - 1) (decode_array (map find_char (arr ++ replicate (4 - i) 0))).

Definition base64_decode (input : list Z) : list Z :=
  let '(ret, arr) := decode_loop input [] [] in decode_rest ret arr.

(** RFC 4648, section 10. *)
Example encode_foobar : map base64_encode [str ""; str "f"; str "fo"; str "foo"; str "foob"; str "fooba"; str "foobar"] =
  [str ""; str "Zg=="; str "Zm8="; str "Zm9v"; str "Zm9vYg=="; str "Zm9vYmE="; str "Zm9vYmFy"].
Proof. vm_compute. reflexivity. Qed.

(** ** Reference: RFC 4648

    Groups of 24 bits are read as four digits of base 64. *)
Definition digit64 (n : Z) (k : Z) : Z := base64_chars !!! Z.to_nat (n / 64 ^ k mod 64).
Fixpoint base64 (input : list Z) : list Z :=
  match input with
  | [] => []
  | [a] => let n := a * 65536 in [digit64 n 3; digit64 n 2; 61; 61]
  | [a; b] => let n := a * 65536 + b * 256 in [digit64 n 3; digit64 n 2; digit64 n 1; 61]
  | a :: b :: c :: rest =>
      let n := a * 65536 + b * 256 + c in
      [digit64 n 3; digit64 n 2; digit64 n 1; digit64 n 0] ++ base64 rest
  end.

(** ** The encoder *)
Lemma octet_bits a : is_byte a ->
  Z.shiftr (Z.land a 0xfc) 2 = a / 4 /\ Z.shiftl (Z.land a 0x03) 4 = 16 * (a mod 4) /\
  Z.shiftr (Z.land a 0xf0) 4 = a / 16 /\ Z.shiftl (Z.land a 0x0f) 2 = 4 * (a mod 16) /\
  Z.shiftr (Z.land a 0xc0) 6 = a / 64 /\ Z.land a 0x3f = a mod 64.
Proof.
  intros Ha.
  pose proof (forallb_seqZ (fun a => (Z.shiftr (Z.land a 0xfc) 2 =? a / 4) && (Z.shiftl (Z.land a 0x03) 4 =? 16 * (a mod 4)) &&
    (Z.shiftr (Z.land a 0xf0) 4 =? a / 16) && (Z.shiftl (Z.land a 0x0f) 2 =? 4 * (a mod 16)) &&
    (Z.shiftr (Z.land a 0xc0) 6 =? a / 64) && (Z.land a 0x3f =? a mod 64)) 0 256 ltac:(vm_compute; reflexivity) a Ha) as H.
  cbn beta in H. rewrite !andb_true_iff, !Z.eqb_eq in H. tauto.
Qed.

Lemma encode_array_digits a b c : is_byte a -> is_byte b -> is_byte c ->
  map char_of (encode_array a b c) =
  map (digit64 (a * 65536 + b * 256 + c)) [3; 2; 1; 0].
Proof.
  intros Ha Hb Hc. unfold encode_array, digit64, char_of.
  destruct (octet_bits a Ha) as (-> & -> & _), (octet_bits b Hb) as (_ & _ & -> & -> & _),
    (octet_bits c Hc) as (_ & _ & _ & _ & -> & ->).
  unfold is_byte in *. rewrite !u8_small by (Z.to_euclidean_division_equations; lia).
  change (64 ^ 3) with 262144. change (64 ^ 2) with 4096. change (64 ^ 1) with 64. change (64 ^ 0) with 1.
  set (n := a * 65536 + b * 256 + c).
  assert (a / 4 = n / 262144 mod 64 /\ 16 * (a mod 4) + b / 16 = n / 4096 mod 64 /\
    4 * (b mod 16) + c / 64 = n / 64 mod 64 /\ c mod 64 = n / 1 mod 64) as (-> & -> & -> & ->); [|done].
  unfold n. splits; Z.to_euclidean_division_equations; lia.
Qed.

(** Three octets at a time. *)
Lemma list_ind3 {A} (P : list A -> Prop) :
  P [] -> (forall a, P [a]) -> (forall a b, P [a; b]) -> (forall a b c l, P l -> P (a :: b :: c :: l)) ->
  forall l, P l.
Proof.
  intros H0 H1 H2 H3. fix IH 1. intros [|a [|b [|c l]]]; [exact H0|apply H1|apply H2|apply H3, IH].
Qed.

Lemma encode_from input : Forall is_byte input -> forall ret,
  (let '(ret, arr) := fold_left encode_step input (ret, []) in encode_rest ret arr) = ret ++ base64 input.
Proof.
  induction input as [|a|a b|a b c l IH] using list_ind3; intros Hb ret.
  - by rewrite app_nil_r.
  - apply Forall_cons in Hb as [Ha _].
    change (fold_left encode_step [a] (ret, [])) with (ret, [a]). cbv iota beta.
    change (encode_rest ret [a]) with (ret ++ take 2 (map char_of (encode_array a 0 0)) ++ [61; 61]).
    rewrite encode_array_digits by done. cbn [base64]. by rewrite !Z.add_0_r.
  - apply Forall_cons in Hb as [Ha [Hb _]%Forall_cons].
    change (fold_left encode_step [a; b] (ret, [])) with (ret, [a; b]). cbv iota beta.
    change (encode_rest ret [a; b]) with (ret ++ take 3 (map char_of (encode_array a b 0)) ++ [61]).
    rewrite encode_array_digits by done. cbn [base64]. by rewrite !Z.add_0_r.
  - apply Forall_cons in Hb as [Ha [Hb [Hc Hl]%Forall_cons]%Forall_cons].
    change (fold_left encode_step (a :: b :: c :: l) (ret, []))
      with (fold_left encode_step l (ret ++ map char_of (encode_array a b c), [])).
    rewrite IH by done. rewrite encode_array_digits by done. by rewrite <-app_assoc.
Qed.

Lemma base64_encode_spec input : Forall is_byte input -> base64_encode input = base64 input.
Proof. intros Hb. apply (encode_from input Hb []). Qed.

(** ** The decoder undoes the encoder *)
Lemma char_of_spec v : 0 <= v < 64 ->
  is_base64 (char_of v) = true /\ char_of v <> 61 /\ find_char (char_of v) = v.
Proof.
  intros Hv. pose proof (forallb_seqZ (fun v => is_base64 (char_of v) && negb (char_of v =? 61) &&
    (find_char (char_of v) =? v)) 0 64 ltac:(vm_compute; reflexivity) v Hv) as H.
  cbn beta in H. rewrite !andb_true_iff, negb_true_iff, Z.eqb_eq, Z.eqb_neq in H. tauto.
Qed.

Lemma decode_loop_char v input ret arr : 0 <= v < 64 ->
  decode_loop (char_of v :: input) ret arr =
  (let arr := arr ++ [char_of v] in
   if (length arr =? 4)%nat then decode_loop input (ret ++ decode_array (map find_char arr)) []
   else decode_loop input ret arr).
Proof.
  intros Hv. destruct (char_of_spec v Hv) as (H1 & H2 & _). cbn [decode_loop].
  apply Z.eqb_neq in H2. by rewrite H1, H2.
Qed.

Lemma decode_four v0 v1 v2 v3 input ret :
  0 <= v0 < 64 -> 0 <= v1 < 64 -> 0 <= v2 < 64 -> 0 <= v3 < 64 ->
  decode_loop (char_of v0 :: char_of v1 :: char_of v2 :: char_of v3 :: input) ret [] =
  decode_loop input (ret ++ decode_array [v0; v1; v2; v3]) [].
Proof.
  intros H0 H1 H2 H3.
  do 4 (rewrite decode_loop_char by done; cbn [app length Nat.eqb map]).
  destruct (char_of_spec v0 H0) as (_ & _ & ->), (char_of_spec v1 H1) as (_ & _ & ->),
    (char_of_spec v2 H2) as (_ & _ & ->), (char_of_spec v3 H3) as (_ & _ & ->). done.
Qed.

(** Six bits at a time, the last digits of a shorter group read as 255 or less. *)
Lemma sextet_bits v : 0 <= v < 256 ->
  Z.shiftr (Z.land v 0x30) 4 = v / 16 mod 4 /\ Z.shiftl (Z.land v 0xf) 4 = 16 * (v mod 16) /\
  Z.shiftr (Z.land v 0x3c) 2 = v / 4 mod 16 /\ Z.shiftl (Z.land v 0x3) 6 = 64 * (v mod 4) /\
  Z.shiftl v 2 = 4 * v.
Proof.
  intros Hv. pose proof (forallb_seqZ (fun v => (Z.shiftr (Z.land v 0x30) 4 =? v / 16 mod 4) &&
    (Z.shiftl (Z.land v 0xf) 4 =? 16 * (v mod 16)) && (Z.shiftr (Z.land v 0x3c) 2 =? v / 4 mod 16) &&
    (Z.shiftl (Z.land v 0x3) 6 =? 64 * (v mod 4)) && (Z.shiftl v 2 =? 4 * v)) 0 256
    ltac:(vm_compute; reflexivity) v Hv) as H.
  cbn beta in H. rewrite !andb_true_iff, !Z.eqb_eq in H. tauto.
Qed.

Lemma decode_array_spec v0 v1 v2 v3 : 0 <= v0 < 64 -> 0 <= v1 < 64 -> 0 <= v2 < 256 -> 0 <= v3 < 256 ->
  decode_array [v0; v1; v2; v3] =
  [4 * v0 + v1 / 16; u8 (16 * (v1 mod 16) + v2 / 4 mod 16); u8 (64 * (v2 mod 4) + v3)].
Proof.
  intros H0 H1 H2 H3. unfold decode_array. cbn [lookup_total list_lookup_total].
  destruct (sextet_bits v0 ltac:(lia)) as (_ & _ & _ & _ & ->),
    (sextet_bits v1 ltac:(lia)) as (-> & -> & _), (sextet_bits v2 H2) as (_ & _ & -> & -> & _).
  repeat f_equal. rewrite u8_small; Z.to_euclidean_division_equations; lia.
Qed.

(** The digits of a group and the bits they carry. *)
Lemma digit64_char n k : digit64 n k = char_of (n / 64 ^ k mod 64).
Proof. done. Qed.

Lemma digits_bound n k : 0 <= n / 64 ^ k mod 64 < 64.
Proof. apply Z.mod_pos_bound. lia. Qed.

Lemma decode_group a b c : is_byte a -> is_byte b -> is_byte c ->
  let n := a * 65536 + b * 256 + c in
  4 * (n / 64 ^ 3 mod 64) + (n / 64 ^ 2 mod 64) / 16 = a /\
  u8 (16 * ((n / 64 ^ 2 mod 64) mod 16) + (n / 64 ^ 1 mod 64) / 4 mod 16) = b /\
  u8 (64 * ((n / 64 ^ 1 mod 64) mod 4) + n / 64 ^ 0 mod 64) = c.
Proof.
  intros Ha Hb Hc. cbn zeta. unfold is_byte in *. simpl (64 ^ _).
  rewrite !u8_small by (Z.to_euclidean_division_equations; lia).
  splits; Z.to_euclidean_division_equations; lia.
Qed.

Lemma decode_two v0 v1 ret : 0 <= v0 < 64 -> 0 <= v1 < 64 ->
  (let '(ret, arr) := decode_loop [char_of v0; char_of v1; 61; 61] ret [] in decode_rest ret arr) =
  ret ++ [4 * v0 + v1 / 16].
Proof.
  intros H0 H1. do 2 (rewrite decode_loop_char by done; cbn [app length Nat.eqb]).
  change (decode_rest ret [char_of v0; char_of v1] = ret ++ [4 * v0 + v1 / 16]).
  change (decode_rest ret [char_of v0; char_of v1])
    with (ret ++ take 1 (decode_array [find_char (char_of v0); find_char (char_of v1); 255; 255])).
  destruct (char_of_spec v0 H0) as (_ & _ & ->), (char_of_spec v1 H1) as (_ & _ & ->).
  by rewrite decode_array_spec by lia.
Qed.

Lemma decode_three v0 v1 v2 ret : 0 <= v0 < 64 -> 0 <= v1 < 64 -> 0 <= v2 < 64 ->
  (let '(ret, arr) := decode_loop [char_of v0; char_of v1; char_of v2; 61] ret [] in decode_rest ret arr) =
  ret ++ [4 * v0 + v1 / 16; u8 (16 * (v1 mod 16) + v2 / 4 mod 16)].
Proof.
  intros H0 H1 H2. do 3 (rewrite decode_loop_char by done; cbn [app length Nat.eqb]).
  change (decode_rest ret [char_of v0; char_of v1; char_of v2] =
    ret ++ [4 * v0 + v1 / 16; u8 (16 * (v1 mod 16) + v2 / 4 mod 16)]).
  change (decode_rest ret [char_of v0; char_of v1; char_of v2])
    with (ret ++ take 2 (decode_array [find_char (char_of v0); find_char (char_of v1); find_char (char_of v2); 255])).
  destruct (char_of_spec v0 H0) as (_ & _ & ->), (char_of_spec v1 H1) as (_ & _ & ->), (char_of_spec v2 H2) as (_ & _ & ->).
  by rewrite decode_array_spec by lia.
Qed.

Lemma decode_encoded input : Forall is_byte input -> forall ret,
  (let '(ret, arr) := decode_loop (base64 input) ret [] in decode_rest ret arr) = ret ++ input.
Proof.
  induction input as [|a|a b|a b c l IH] using list_ind3; intros Hb ret.
  - by rewrite app_nil_r.
  - apply Forall_cons in Hb as [Ha _]. destruct (decode_group a 0 0 Ha ltac:(done) ltac:(done)) as (E1 & _).
    rewrite !Z.add_0_r in E1. cbn [base64]. rewrite !digit64_char.
    rewrite decode_two by apply digits_bound. by rewrite E1.
  - apply Forall_cons in Hb as [Ha [Hb _]%Forall_cons].
    destruct (decode_group a b 0 Ha Hb ltac:(done)) as (E1 & E2 & _).
    rewrite !Z.add_0_r in E1, E2. cbn [base64]. rewrite !digit64_char.
    rewrite decode_three by apply digits_bound. by rewrite E1, E2.
  - apply Forall_cons in Hb as [Ha [Hb [Hc Hl]%Forall_cons]%Forall_cons].
    destruct (decode_group a b c Ha Hb Hc) as (E1 & E2 & E3). cbn zeta in *. cbn [base64]. cbv zeta. cbn [app].
    rewrite !digit64_char. rewrite (decode_four _ _ _ _ _ _ (digits_bound _ 3) (digits_bound _ 2) (digits_bound _ 1) (digits_bound _ 0)).
    pose proof (digits_bound (a * 65536 + b * 256 + c)) as Hd.
    rewrite decode_array_spec by first [apply Hd|
      match goal with |- _ <= ?x / 64 ^ ?k mod 64 < _ => pose proof (Hd k); lia end].
    rewrite IH by done. rewrite E1, E2, E3. by rewrite <-app_assoc.
Qed.

(** Base64 text of the library is the text of RFC 4648, and decoding it gives
    the octets back: the two loops over small arrays, with their zero padding and
    the 255 that an absent character reads as, lose nothing. *)
Theorem base64_roundtrip input : Forall is_byte input ->
  base64_encode input = base64 input /\ base64_decode (base64_encode input) = input.
Proof.
  intros Hb. rewrite base64_encode_spec by done. split; [done|]. apply (decode_encoded input Hb []).
Qed.

Theorem base64_roundtrip_witness :
  base64_encode (str "rover") = base64 (str "rover") /\ base64_decode (base64_encode (str "rover")) = str "rover".
Proof. apply (base64_roundtrip (str "rover")). repeat constructor; vm_compute; congruence. Defined.
