(* ===== verification/Md5.v ===== *)
(** * MD5: [websocketpp/common/md5.hpp]

    The digest that answers an opening handshake of the oldest protocol version:
    sixty-four operations per block over four registers, and a buffer that
    collects the octets of a block over several calls. *)
From S2P Require Import Prelude.

Definition md5_not (x : Z) : Z := u32 (Z.lnot x).
(** [ZSW_MD5_T_MASK ^ x]. *)
Definition t_mask (x : Z) : Z := Z.lxor 0xffffffff x.

(** [ZSW_MD5_T1] to [ZSW_MD5_T64]. *)
Definition md5_T : list Z :=
  [t_mask 0x28955b87; t_mask 0x173848a9; 0x242070db; t_mask 0x3e423111;
   t_mask 0x0a83f050; 0x4787c62a; t_mask 0x57cfb9ec; t_mask 0x02b96afe;
   0x698098d8; t_mask 0x74bb0850; t_mask 0x0000a44e; t_mask 0x76a32841;
   0x6b901122; t_mask 0x02678e6c; t_mask 0x5986bc71; 0x49b40821;
   t_mask 0x09e1da9d; t_mask 0x3fbf4cbf; 0x265e5a51; t_mask 0x16493855;
   t_mask 0x29d0efa2; 0x02441453; t_mask 0x275e197e; t_mask 0x182c0437;
   0x21e1cde6; t_mask 0x3cc8f829; t_mask 0x0b2af278; 0x455a14ed;
   t_mask 0x561c16fa; t_mask 0x03105c07; 0x676f02d9; t_mask 0x72d5b375;
   t_mask 0x0005c6bd; t_mask 0x788e097e; 0x6d9d6122; t_mask 0x021ac7f3;
   t_mask 0x5b4115bb; 0x4bdecfa9; t_mask 0x0944b49f; t_mask 0x4140438f;
   0x289b7ec6; t_mask 0x155ed805; t_mask 0x2b10cf7a; 0x04881d05;
   t_mask 0x262b2fc6; t_mask 0x1924661a; 0x1fa27cf8; t_mask 0x3b53a99a;
   t_mask 0x0bd6ddbb; 0x432aff97; t_mask 0x546bdc58; t_mask 0x036c5fc6;
   0x655b59c3; t_mask 0x70f3336d; t_mask 0x00100b82; t_mask 0x7a7ba22e;
   0x6fa87e4f; t_mask 0x01d3191f; t_mask 0x5cfebceb; 0x4e0811a1;
   t_mask 0x08ac817d; t_mask 0x42c50dca; 0x2ad7d2bb; t_mask 0x14792c6e].

Definition md5_F (x y z : Z) : Z := Z.lor (Z.land x y) (Z.land (md5_not x) z).
Definition md5_G (x y z : Z) : Z := Z.lor (Z.land x z) (Z.land y (md5_not z)).
Definition md5_H (x y z : Z) : Z := Z.lxor (Z.lxor x y) z.
Definition md5_I (x y z : Z) : Z := Z.lxor y (Z.lor x (md5_not z)).
Definition ROTATE_LEFT (x n : Z) : Z := Z.lor (u32 (Z.shiftl x n)) (Z.shiftr x (32 - n)).

(** [SET(a, b, c, d, k, s, Ti)]: the value stored in [a]. *)
Definition SET (func : Z -> Z -> Z -> Z) (X : list Z) (a b c d : Z) (k : nat) (s Ti : Z) : Z :=
  let t := u32 (a + func b c d + X !!! k + Ti) in u32 (ROTATE_LEFT t s + b).

(** Four operations: the registers change places. *)
Record registers := Registers { ra : Z; rb : Z; rc : Z; rd : Z }.
Definition four (func : Z -> Z -> Z -> Z) (s0 s1 s2 s3 : Z) (X : list Z) (r : registers) (ks : list nat) (t : nat) :
    registers :=
  let '(Registers a b c d) := r in
  let a := SET func X a b c d (ks !!! 0%nat) s0 (md5_T !!! t) in
  let d := SET func X d a b c (ks !!! 1%nat) s1 (md5_T !!! (t + 1)%nat) in
  let c := SET func X c d a b (ks !!! 2%nat) s2 (md5_T !!! (t + 2)%nat) in
  let b := SET func X b c d a (ks !!! 3%nat) s3 (md5_T !!! (t + 3)%nat) in
  Registers a b c d.

(** The words of a block on a little-endian machine. *)
Definition md5_word (data : list Z) (i : nat) : Z :=
  data !!! (4 * i)%nat + Z.shiftl (data !!! (4 * i + 1)%nat) 8 + Z.shiftl (data !!! (4 * i + 2)%nat) 16 +
  Z.shiftl (data !!! (4 * i + 3)%nat) 24.

Definition md5_process (abcd : registers) (data : list Z) : registers :=
  let X := map (md5_word data) (seq 0 16) in
  let r := abcd in
  let r := four md5_F 7 12 17 22 X r [0; 1; 2; 3]%nat 0 in
  let r := four md5_F 7 12 17 22 X r [4; 5; 6; 7]%nat 4 in
  let r := four md5_F 7 12 17 22 X r [8; 9; 10; 11]%nat 8 in
  let r := four md5_F 7 12 17 22 X r [12; 13; 14; 15]%nat 12 in
  let r := four md5_G 5 9 14 20 X r [1; 6; 11; 0]%nat 16 in
  let r := four md5_G 5 9 14 20 X r [5; 10; 15; 4]%nat 20 in
  let r := four md5_G 5 9 14 20 X r [9; 14; 3; 8]%nat 24 in
  let r := four md5_G 5 9 14 20 X r [13; 2; 7; 12]%nat 28 in
  let r := four md5_H 4 11 16 23 X r [5; 8; 11; 14]%nat 32 in
  let r := four md5_H 4 11 16 23 X r [1; 4; 7; 10]%nat 36 in
  let r := four md5_H 4 11 16 23 X r [13; 0; 3; 6]%nat 40 in
  let r := four md5_H 4 11 16 23 X r [9; 12; 15; 2]%nat 44 in
  let r := four md5_I 6 10 15 21 X r [0; 7; 14; 5]%nat 48 in
  let r := four md5_I 6 10 15 21 X r [12; 3; 10; 1]%nat 52 in
  let r := four md5_I 6 10 15 21 X r [8; 15; 6; 13]%nat 56 in
  let r := four md5_I 6 10 15 21 X r [4; 11; 2; 9]%nat 60 in
  Registers (u32 (ra abcd + ra r)) (u32 (rb abcd + rb r)) (u32 (rc abcd + rc r)) (u32 (rd abcd + rd r)).

(** [count] is the length in bits; [buf] collects a block. *)
Record md5_state := Md5State { count0 : Z; count1 : Z; abcd : registers; buf : list Z }.

(** The buffer is not initialised. *)
Definition md5_init (buf : list Z) : md5_state :=
  Md5State 0 0 (Registers 0x67452301 (t_mask 0x10325476) (t_mask 0x67452301) 0x10325476) buf.

(** [std::memcpy(dst + offset, src, n)]. *)
Definition copy_at (offset : nat) (src dst : list Z) : list Z :=
  take offset dst ++ src ++ drop (offset + length src) dst.

(** The full blocks, and what is left. *)
Fixpoint process_blocks (fuel : nat) (r : registers) (p : list Z) : registers * list Z :=
  match fuel with
  | O => (r, p)
  | S fuel' =>
      if (64 <=? length p)%nat then process_blocks fuel' (md5_process r (take 64 p)) (drop 64 p) else (r, p)
  end.
Definition finish_append (count0 count1 : Z) (r : registers) (buf p : list Z) : md5_state :=
  let '(r, rest) := process_blocks (length p) r p in
  Md5State count0 count1 r (copy_at 0 rest buf).

Definition md5_append (pms : md5_state) (data : list Z) : md5_state :=
  let nbytes := length data in
  let offset := Z.to_nat (Z.land (Z.shiftr (count0 pms) 3) 63) in
  let nbits := u32 (Z.shiftl (Z.of_nat nbytes) 3) in
  if (nbytes =? 0)%nat then pms else
  let c1 := u32 (count1 pms + Z.shiftr (Z.of_nat nbytes) 29) in
  let c0 := u32 (count0 pms + nbits) in
  let c1 := if c0 <? nbits then u32 (c1 + 1) else c1 in
  if (0 <? offset)%nat then
    let copy := if (64 <? offset + nbytes)%nat then (64 - offset)%nat else nbytes in
    let buf := copy_at offset (take copy data) (buf pms) in
    if (offset + copy <? 64)%nat then Md5State c0 c1 (abcd pms) buf
    else finish_append c0 c1 (md5_process (abcd pms) buf) buf (drop copy data)
  else finish_append c0 c1 (abcd pms) (buf pms) data.

Definition md5_pad : list Z := 0x80 :: replicate 63 0.
Definition md5_finish (pms : md5_state) : list Z :=
  let data := map (fun i => u8 (Z.shiftr (if (i <? 4)%nat then count0 pms else count1 pms)
                                  (8 * Z.of_nat (i mod 4)))) (seq 0 8) in
  let pms' := md5_append pms (take (Z.to_nat (Z.land (55 - Z.shiftr (count0 pms) 3) 63 + 1)) md5_pad) in
  let pms' := md5_append pms' data in
  map (fun i => u8 (Z.shiftr ([ra (abcd pms'); rb (abcd pms'); rc (abcd pms'); rd (abcd pms')] !!! (i / 4)%nat)
                      (8 * Z.of_nat (i mod 4)))) (seq 0 16).

(** [buf] is what the buffer holds before it is written. *)
Definition md5_hash_string (buf s : list Z) : list Z := md5_finish (md5_append (md5_init buf) s).

(** RFC 1321, appendix A.5. *)
Example md5_abc : md5_hash_string (replicate 64 7) (str "abc") =
  [0x90; 0x01; 0x50; 0x98; 0x3c; 0xd2; 0x4f; 0xb0; 0xd6; 0x96; 0x3f; 0x7d; 0x28; 0xe1; 0x7f; 0x72].
Proof. vm_compute. reflexivity. Qed.
Example md5_digits : md5_hash_string (replicate 64 7)
    (str "12345678901234567890123456789012345678901234567890123456789012345678901234567890") =
  [0x57; 0xed; 0xf4; 0xa2; 0x2b; 0xe3; 0xc9; 0x55; 0xac; 0x49; 0xda; 0x2e; 0x21; 0x07; 0xb6; 0x7a].
Proof. vm_compute. reflexivity. Qed.
