(* ===== verification/Http.v ===== *)
(** * HTTP messages: [websocketpp/http]

    Character classes and status codes (constants.hpp), the case-insensitive
    searches and maps (utilities.hpp), the readers of header values (parser.hpp)
    and the request and response objects (impl/parser.hpp, impl/request.hpp,
    impl/response.hpp).

    A string is the list of its octets. A pair of iterators is the list between
    them; a reader returns the list from the iterator it returns. *)
From S2P Require Import Prelude Text.

Module http.

(** ** http/constants.hpp *)
Definition header_delimiter : list Z := [13; 10].
Definition header_separator : list Z := [58].
Definition max_header_size : Z := 16000.
Definition max_body_size : Z := 32000000.

Definition header_token : list Z :=
  replicate 32 0 ++
  [0;1;0;1;1;1;1;1;0;0;1;1;0;1;1;0; 1;1;1;1;1;1;1;1;1;1;0;0;0;0;0;0;
   0;1;1;1;1;1;1;1;1;1;1;1;1;1;1;1; 1;1;1;1;1;1;1;1;1;1;1;0;0;0;1;1;
   1;1;1;1;1;1;1;1;1;1;1;1;1;1;1;1; 1;1;1;1;1;1;1;1;1;1;1;0;1;0;1;0] ++
  replicate 128 0.
Definition is_token_char (c : Z) : bool := header_token !!! Z.to_nat c =? 1.
Definition is_not_token_char (c : Z) : bool := header_token !!! Z.to_nat c =? 0.
Definition is_whitespace_char (c : Z) : bool := (c =? 9) || (c =? 32).
Definition is_not_whitespace_char (c : Z) : bool := negb (c =? 9) && negb (c =? 32).

(** *** Status codes *)
Definition uninitialized : Z := 0.
Definition switching_protocols : Z := 101.
Definition bad_request : Z := 400.
Definition request_entity_too_large : Z := 413.
Definition upgrade_required : Z := 426.
Definition request_header_fields_too_large : Z := 431.
Definition internal_server_error : Z := 500.

Definition status_strings : list (Z * string) :=
  [(0, "Uninitialized"); (100, "Continue"); (101, "Switching Protocols"); (200, "OK"); (201, "Created");
   (202, "Accepted"); (203, "Non Authoritative Information"); (204, "No Content"); (205, "Reset Content");
   (206, "Partial Content"); (300, "Multiple Choices"); (301, "Moved Permanently"); (302, "Found");
   (303, "See Other"); (304, "Not Modified"); (305, "Use Proxy"); (307, "Temporary Redirect");
   (400, "Bad Request"); (401, "Unauthorized"); (402, "Payment Required"); (403, "Forbidden");
   (404, "Not Found"); (405, "Method Not Allowed"); (406, "Not Acceptable");
   (407, "Proxy Authentication Required"); (408, "Request Timeout"); (409, "Conflict"); (410, "Gone");
   (411, "Length Required"); (412, "Precondition Failed"); (413, "Request Entity Too Large");
   (414, "Request-URI Too Long"); (415, "Unsupported Media Type"); (416, "Requested Range Not Satisfiable");
   (417, "Expectation Failed"); (418, "I'm a teapot"); (426, "Upgrade Required");
   (428, "Precondition Required"); (429, "Too Many Requests"); (431, "Request Header Fields Too Large");
   (500, "Internal Server Error"); (501, "Not Implemented"); (502, "Bad Gateway");
   (503, "Service Unavailable"); (504, "Gateway Timeout"); (505, "HTTP Version Not Supported");
   (510, "Not Extended"); (511, "Network Authentication Required")]%string.
Definition get_string (code : Z) : list Z :=
  match list_find (fun p => p.1 = code) status_strings with
  | Some (_, (_, s)) => str s
  | None => str "Unknown"
  end.

(** ** utilities.hpp, in the "C" locale *)
Definition tolower (c : Z) : Z := if (65 <=? c) && (c <=? 90) then c + 32 else c.
Definition toupper (c : Z) : Z := if (97 <=? c) && (c <=? 122) then c - 32 else c.
Definition my_equal (c1 c2 : Z) : bool := toupper c1 =? toupper c2.

(** [std::lexicographical_compare] with [nocase_compare]. *)
Fixpoint ci_less (s1 s2 : list Z) : bool :=
  match s1, s2 with
  | _, [] => false
  | [], _ :: _ => true
  | c1 :: s1', c2 :: s2' =>
      if tolower c1 <? tolower c2 then true
      else if tolower c2 <? tolower c1 then false
      else ci_less s1' s2'
  end.

Fixpoint prefix_with (eq : Z -> Z -> bool) (needle l : list Z) : bool :=
  match needle, l with
  | [], _ => true
  | _ :: _, [] => false
  | n :: needle', c :: l' => eq c n && prefix_with eq needle' l'
  end.
(** [std::search]: what is before the first occurrence, and the rest from it on;
    [None] is the end iterator. *)
Fixpoint search (eq : Z -> Z -> bool) (needle l : list Z) : option (list Z * list Z) :=
  if prefix_with eq needle l then Some ([], l)
  else match l with
       | [] => None
       | c :: l' => '(pre, rest) ← search eq needle l'; Some (c :: pre, rest)
       end.
(** Whether [ci_find_substr] is not [haystack.end()]; no needle of the program is
    empty. *)
Definition ci_find_substr (haystack needle : list Z) : bool :=
  match search my_equal needle haystack with Some _ => true | None => false end.

Definition to_lower (s : list Z) : list Z := map tolower s.

(** [std::find_if]: the elements before, and the rest. *)
Fixpoint find_if (p : Z -> bool) (l : list Z) : list Z * list Z :=
  match l with
  | [] => ([], [])
  | c :: l' => if p c then ([], l) else let '(pre, rest) := find_if p l' in (c :: pre, rest)
  end.

(** ** [std::map<std::string, std::string, ci_less>]

    The elements in the order of the keys; a key that compares neither less nor
    greater is the same key. *)
Definition header_list : Type := list (list Z * list Z).
Definition same_key (k1 k2 : list Z) : bool := negb (ci_less k1 k2) && negb (ci_less k2 k1).
Fixpoint map_find (key : list Z) (m : header_list) : option (list Z) :=
  match m with
  | [] => None
  | (k, v) :: m' => if same_key k key then Some v else map_find key m'
  end.
(** [m[key] = val]. *)
Fixpoint map_set (key val : list Z) (m : header_list) : header_list :=
  match m with
  | [] => [(key, val)]
  | (k, v) :: m' =>
      if ci_less k key then (k, v) :: map_set key val m'
      else if ci_less key k then (key, val) :: m
      else (k, val) :: m'
  end.
Fixpoint map_erase (key : list Z) (m : header_list) : header_list :=
  match m with
  | [] => []
  | (k, v) :: m' => if same_key k key then m' else (k, v) :: map_erase key m'
  end.

(** ** http/parser.hpp: readers *)
Definition extract_token (l : list Z) : list Z * list Z := find_if is_not_token_char l.

(** One round of the loop is one quote; [s] is what was read before. *)
Fixpoint quoted_loop (fuel : nat) (s cursor begin : list Z) : list Z * list Z :=
  match fuel with
  | O => ([], begin)
  | S fuel' =>
      match find_if (fun c => c =? 34) cursor with
      | (_, []) => ([], begin)
      | (seg, _ :: rest) =>
          match last seg with
          | Some 92 => quoted_loop fuel' (s ++ removelast seg ++ [34]) rest begin
          | _ => (s ++ seg, rest)
          end
      end
  end.
Definition extract_quoted_string (begin : list Z) : list Z * list Z :=
  match begin with
  | 34 :: rest => quoted_loop (S (length rest)) [] rest begin
  | _ => ([], begin)
  end.

Definition extract_lws (begin : list Z) : list Z :=
  let it := match begin with
            | 13 :: 10 :: c :: rest => if is_whitespace_char c then rest else begin
            | _ => begin
            end in
  (find_if is_not_whitespace_char it).2.

(** Iterators of one sequence are equal when as much is left. *)
Definition at_same (l1 l2 : list Z) : bool := (length l1 =? length l2)%nat.
Fixpoint all_lws_loop (fuel : nat) (old_it : list Z) : list Z :=
  match fuel with
  | O => old_it
  | S fuel' =>
      let new_it := extract_lws old_it in
      if negb (is_nil new_it) && negb (at_same old_it new_it) then all_lws_loop fuel' new_it else new_it
  end.
Definition extract_all_lws (begin : list Z) : list Z := all_lws_loop (S (length begin)) begin.

Definition attribute_list : Type := gmap (list Z) (list Z).
Definition parameter_list : Type := list (list Z * attribute_list).

(** [first] is the flag of the first pass. *)
Fixpoint attributes_loop (fuel : nat) (begin cursor : list Z) (first : bool) (attributes : attribute_list) :
    list Z * attribute_list :=
  match fuel with
  | O => (cursor, attributes)
  | S fuel' =>
      if is_nil cursor then (cursor, attributes) else
      let cursor := extract_all_lws cursor in
      if is_nil cursor then (cursor, attributes) else
      if negb first && negb (bool_decide (head cursor = Some 59)) then (cursor, attributes) else
      let cursor := if first then cursor else tail cursor in
      let cursor := extract_all_lws cursor in
      let '(name, cursor) := extract_token cursor in
      if is_nil name then (begin, attributes) else
      let cursor := extract_all_lws cursor in
      if negb (bool_decide (head cursor = Some 61))
      then attributes_loop fuel' begin cursor false (<[name := []]> attributes)
      else
        let cursor := extract_all_lws (tail cursor) in
        if is_nil cursor then (begin, attributes) else
        let '(value, after) := extract_quoted_string cursor in
        if negb (at_same after cursor)
        then attributes_loop fuel' begin after false (<[name := value]> attributes)
        else
          let '(value, cursor) := extract_token cursor in
          if is_nil value then (begin, attributes)
          else attributes_loop fuel' begin cursor false (<[name := value]> attributes)
  end.
Definition extract_attributes (begin : list Z) (attributes : attribute_list) : list Z * attribute_list :=
  if is_nil begin then (begin, attributes)
  else attributes_loop (S (length begin)) begin begin true attributes.

Fixpoint parameters_loop (fuel : nat) (begin cursor : list Z) (parameters : parameter_list) :
    list Z * parameter_list :=
  match fuel with
  | O => (cursor, parameters)
  | S fuel' =>
      if is_nil cursor then (cursor, parameters) else
      let cursor := extract_all_lws cursor in
      if is_nil cursor then (cursor, parameters) else
      let '(parameter_name, cursor) := extract_token cursor in
      if is_nil parameter_name then (begin, parameters) else
      let cursor := extract_all_lws cursor in
      if is_nil cursor then (cursor, parameters ++ [(parameter_name, ∅)]) else
      let '(error, cursor, attributes) :=
        if bool_decide (head cursor = Some 59) then
          let cursor := tail cursor in
          let '(acursor, attributes) := extract_attributes cursor ∅ in
          (at_same acursor cursor, acursor, attributes)
        else (false, cursor, ∅) in
      if (error : bool) then (begin, parameters) else
      let parameters := parameters ++ [(parameter_name, attributes)] in
      let cursor := extract_all_lws cursor in
      if is_nil cursor then (cursor, parameters) else
      if negb (bool_decide (head cursor = Some 44)) then (cursor, parameters) else
      let cursor := tail cursor in
      if is_nil cursor then (begin, parameters)
      else parameters_loop fuel' begin cursor parameters
  end.
Definition extract_parameters (begin : list Z) (parameters : parameter_list) : list Z * parameter_list :=
  if is_nil begin then (begin, parameters)
  else parameters_loop (S (length begin)) begin begin parameters.

(** The iterators may cross, and the constructor of the result is undefined
    then: see [strip_lws_line]. *)
Definition strip_lws (input : list Z) : option (list Z) :=
  let begin := extract_all_lws input in
  if is_nil begin then Some [] else
  let rbegin := extract_all_lws (reverse input) in
  if is_nil rbegin then Some [] else
  let first := (length input - length begin)%nat in
  let last := length rbegin in
  if (first <=? last)%nat then Some (take (last - first) (drop first input)) else None.

(** ** The parser: http/impl/parser.hpp

    A member function returns, throws an [http::exception] with a status code, or
    has undefined behaviour. *)
Inductive result (A : Type) := Ok (x : A) | Thrown (code : Z) | Undefined.
Arguments Ok {A}. Arguments Thrown {A}. Arguments Undefined {A}.
#[export] Instance result_ret : MRet result := fun A x => Ok x.
#[export] Instance result_bind : MBind result := fun A B f m =>
  match m with Ok x => f x | Thrown c => Thrown c | Undefined => Undefined end.
Definition defined {A} (o : option A) : result A := match o with Some x => Ok x | None => Undefined end.

Inductive body_encoding := unknown | plain | chunked.
Record parser := Parser {
  m_version : list Z;
  m_headers : header_list;
  m_header_bytes : Z;
  m_body : list Z;
  m_body_bytes_needed : Z;
  m_body_bytes_max : Z;
  m_body_encoding : body_encoding }.
Definition new_parser : parser := Parser [] [] 0 [] 0 max_body_size unknown.

Definition set_version (version : list Z) (p : parser) : parser :=
  Parser version (m_headers p) (m_header_bytes p) (m_body p) (m_body_bytes_needed p) (m_body_bytes_max p)
    (m_body_encoding p).
Definition set_headers (headers : header_list) (p : parser) : parser :=
  Parser (m_version p) headers (m_header_bytes p) (m_body p) (m_body_bytes_needed p) (m_body_bytes_max p)
    (m_body_encoding p).
Definition set_header_bytes (n : Z) (p : parser) : parser :=
  Parser (m_version p) (m_headers p) n (m_body p) (m_body_bytes_needed p) (m_body_bytes_max p)
    (m_body_encoding p).
Definition set_body_state (body : list Z) (needed : Z) (encoding : body_encoding) (p : parser) : parser :=
  Parser (m_version p) (m_headers p) (m_header_bytes p) body needed (m_body_bytes_max p) encoding.

Definition get_header (key : list Z) (p : parser) : list Z := default [] (map_find key (m_headers p)).

Definition parse_parameter_list (input : list Z) : bool * parameter_list :=
  if is_nil input then (false, [])
  else let '(it, out) := extract_parameters input [] in (at_same it input, out).
Definition get_header_as_plist (key : list Z) (p : parser) : bool * parameter_list :=
  match map_find key (m_headers p) with
  | None => (false, [])
  | Some v => if is_nil v then (false, []) else parse_parameter_list v
  end.

Definition append_header (key val : list Z) (p : parser) : result parser :=
  if existsb is_not_token_char key then Thrown bad_request
  else if is_nil (get_header key p) then Ok (set_headers (map_set key val (m_headers p)) p)
  else Ok (set_headers (map_set key (get_header key p ++ str ", " ++ val) (m_headers p)) p).
Definition replace_header (key val : list Z) (p : parser) : parser :=
  set_headers (map_set key val (m_headers p)) p.
Definition remove_header (key : list Z) (p : parser) : parser :=
  set_headers (map_erase key (m_headers p)) p.

(** [strtoul], with an [unsigned long] of 32 bits: no number reads as 0, and one
    that is too large as the largest. *)
Definition strtoul (s : list Z) : Z :=
  match strto s with
  | None => 0
  | Some (negative, m) => if 2 ^ 32 <=? m then 2 ^ 32 - 1 else if (negative : bool) then u32 (- m) else m
  end.

Definition prepare_body (p : parser) : result (bool * parser) :=
  let cl_header := get_header (str "Content-Length") p in
  if negb (is_nil cl_header) then
    let needed := strtoul cl_header in
    if m_body_bytes_max p <? needed then Thrown request_entity_too_large
    else Ok (true, set_body_state (m_body p) needed plain p)
  else Ok (false, p).

Definition process_body (buf : list Z) (p : parser) : result (nat * parser) :=
  match m_body_encoding p with
  | plain =>
      let processed := Nat.min (Z.to_nat (m_body_bytes_needed p)) (length buf) in
      Ok (processed, set_body_state (m_body p ++ take processed buf)
                       (m_body_bytes_needed p - Z.of_nat processed) plain p)
  | _ => Thrown internal_server_error
  end.
Definition body_ready (p : parser) : bool := m_body_bytes_needed p =? 0.

Definition process_header (line : list Z) (p : parser) : result parser :=
  match search Z.eqb header_separator line with
  | None => Thrown bad_request
  | Some (name, rest) =>
      key ← defined (strip_lws name);
      val ← defined (strip_lws (drop 1 rest));
      append_header key val p
  end.

Definition raw_headers (p : parser) : list Z :=
  concat (map (fun h => h.1 ++ str ": " ++ h.2 ++ header_delimiter) (m_headers p)).

(** ** The request: http/impl/request.hpp

    [m_buf] is a pointer that is reset when the head is complete. *)
Record request := Request {
  base : parser;
  m_buf : option (list Z);
  m_method : list Z;
  m_uri : list Z;
  m_ready : bool }.
Definition new_request : request := Request new_parser (Some []) [] [] false.
Definition with_base (p : parser) (r : request) : request :=
  Request p (m_buf r) (m_method r) (m_uri r) (m_ready r).
Definition with_buf (b : option (list Z)) (r : request) : request :=
  Request (base r) b (m_method r) (m_uri r) (m_ready r).
Definition with_ready (b : bool) (r : request) : request :=
  Request (base r) (m_buf r) (m_method r) (m_uri r) b.

(** The request line. *)
Definition process (line : list Z) (r : request) : result request :=
  match find_if (fun c => c =? 32) line with
  | (_, []) => Thrown bad_request
  | (method, _ :: rest) =>
      if existsb is_not_token_char method then Thrown bad_request else
      match find_if (fun c => c =? 32) rest with
      | (_, []) => Thrown bad_request
      | (uri, _ :: version) =>
          Ok (Request (set_version version (base r)) (m_buf r) method uri (m_ready r))
      end
  end.

(** The blank line: [buf] is the argument of [consume], [rest] what is behind the
    line. *)
Definition head_complete (buf rest : list Z) (r : request) : result (nat * request) :=
  if is_nil (m_method r) || is_nil (get_header (str "Host") (base r)) then Thrown bad_request else
  let bytes_processed := (length buf - length rest)%nat in
  let r := with_buf None r in
  '(has_body, p) ← prepare_body (base r);
  if (has_body : bool) then
    '(n, p) ← process_body (drop bytes_processed buf) p;
    let r := with_base p r in
    Ok ((bytes_processed + n)%nat, if body_ready p then with_ready true r else r)
  else Ok (bytes_processed, with_ready true (with_base p r)).

(** [begin] is the part of the buffer that was not processed; a delimiter counts
    with its terminating zero. *)
Fixpoint consume_loop (fuel : nat) (buf begin : list Z) (r : request) : result (nat * request) :=
  match fuel with
  | O => Undefined
  | S fuel' =>
      let found := search Z.eqb header_delimiter begin in
      let line := match found with Some (line, _) => line | None => begin end in
      let bytes := m_header_bytes (base r) + (Z.of_nat (length line) + 3) in
      if max_header_size <? bytes then Thrown request_header_fields_too_large else
      match found with
      | None =>
          Ok (length buf, with_buf (Some begin)
                (with_base (set_header_bytes (bytes - Z.of_nat (length begin)) (base r)) r))
      | Some (_, rest) =>
          let r := with_base (set_header_bytes bytes (base r)) r in
          let rest := drop 2 rest in
          if is_nil line then head_complete buf rest r
          else
            r ← (if is_nil (m_method r) then process line r
                 else p ← process_header line (base r); Ok (with_base p r));
            consume_loop fuel' buf rest r
      end
  end.

Definition consume (buf : list Z) (r : request) : result (nat * request) :=
  if m_ready r then Ok (0%nat, r) else
  if 0 <? m_body_bytes_needed (base r) then
    '(bytes_processed, p) ← process_body buf (base r);
    let r := with_base p r in
    Ok (bytes_processed, if body_ready p then with_ready true r else r)
  else
    m_buf ← defined (m_buf r);
    consume_loop (S (length (m_buf ++ buf))) buf (m_buf ++ buf) r.

Definition raw_head (r : request) : list Z :=
  m_method r ++ [32] ++ m_uri r ++ [32] ++ m_version (base r) ++ header_delimiter ++
  raw_headers (base r) ++ header_delimiter.
Definition raw (r : request) : list Z := raw_head r ++ m_body (base r).

(** ** The response: http/impl/response.hpp *)
Inductive response_state := RESPONSE_LINE | HEADERS | BODY | DONE.
Record response := Response {
  rbase : parser;
  m_status_msg : list Z;
  m_read : Z;
  m_rbuf : option (list Z);
  m_status_code : Z;
  m_rstate : response_state }.
Definition new_response : response := Response new_parser [] 0 (Some []) uninitialized RESPONSE_LINE.
Definition with_rbase (p : parser) (r : response) : response :=
  Response p (m_status_msg r) (m_read r) (m_rbuf r) (m_status_code r) (m_rstate r).
Definition set_status (code : Z) (msg : list Z) (r : response) : response :=
  Response (rbase r) msg (m_read r) (m_rbuf r) code (m_rstate r).
Definition set_status_code (code : Z) (r : response) : response := set_status code (get_string code) r.

Definition response_raw (r : response) : list Z :=
  m_version (rbase r) ++ [32] ++ dec_signed (m_status_code r) ++ [32] ++ m_status_msg r ++ header_delimiter ++
  raw_headers (rbase r) ++ header_delimiter ++ m_body (rbase r).

End http.

(** ** Examples *)
Import http.

Definition browser_request : list Z :=
  str "GET /chat HTTP/1.1" ++ header_delimiter ++
  str "Host: server.example.com" ++ header_delimiter ++
  str "Upgrade: websocket" ++ header_delimiter ++
  str "Connection: Upgrade" ++ header_delimiter ++
  str "Sec-WebSocket-Key: dGhlIHNhbXBsZSBub25jZQ==" ++ header_delimiter ++
  str "Sec-WebSocket-Version: 13" ++ header_delimiter ++ header_delimiter.

Example consume_browser_request :
  match consume browser_request new_request with
  | Ok (n, r) => n = length browser_request /\ m_ready r = true /\ m_method r = str "GET" /\
      get_header (str "sec-websocket-key") (base r) = str "dGhlIHNhbXBsZSBub25jZQ=="
  | _ => False
  end.
Proof. vm_compute. auto. Qed.

Example parameters_example :
  (parse_parameter_list (str "permessage-deflate; client_max_window_bits")).1 = false /\
  (parse_parameter_list (str "a;b=1, =")).1 = true.
Proof. vm_compute. auto. Qed.
