(* ===== verification/HttpProps.v ===== *)
(** * Requests arrive in pieces

    [consume] is given the octets as the transport reads them. Wherever the text
    is cut, the request is the one that its lines describe, and what is behind
    the head is left for the frames. *)
From S2P Require Import Prelude Text Http.
Import http.

(** ** Keys and maps *)
Lemma ci_less_irrefl s : ci_less s s = false.
Proof. induction s as [|c s IH]; simpl; [done|]. by rewrite Z.ltb_irrefl. Qed.

Lemma same_key_lower s1 : forall s2, same_key s1 s2 = true <-> map tolower s1 = map tolower s2.
Proof.
  unfold same_key. induction s1 as [|c1 s1 IH]; intros [|c2 s2]; simpl; try done.
  destruct (Z.ltb_spec (tolower c1) (tolower c2)), (Z.ltb_spec (tolower c2) (tolower c1)); simpl.
  - lia.
  - split; [done|]. intros [=]. lia.
  - split; [done|]. intros [=]. lia.
  - rewrite IH. split; [intros ->; f_equal; lia|by intros [=]].
Qed.

Lemma same_key_eq s1 s2 : same_key s1 s2 = bool_decide (map tolower s1 = map tolower s2).
Proof.
  apply eq_true_iff_eq. rewrite same_key_lower, bool_decide_eq_true. done.
Qed.

Lemma ci_less_lower s1 : forall s2 s3, map tolower s1 = map tolower s2 -> ci_less s1 s3 = ci_less s2 s3.
Proof.
  induction s1 as [|c1 s1 IH]; intros [|c2 s2] [|c3 s3]; simpl; try done.
  intros [= E1 E2]. rewrite E1, (IH s2 s3) by done. done.
Qed.

Lemma map_find_lower k1 k2 m : map tolower k1 = map tolower k2 -> map_find k1 m = map_find k2 m.
Proof.
  intros E. induction m as [|[k v] m IH]; simpl; [done|]. by rewrite !same_key_eq, E, IH.
Qed.

Lemma map_find_set key val m k :
  map_find k (map_set key val m) = if same_key key k then Some val else map_find k m.
Proof.
  rewrite same_key_eq. induction m as [|[k0 v0] m IH]; simpl.
  { rewrite same_key_eq. done. }
  destruct (ci_less k0 key) eqn:E1; simpl.
  - rewrite IH, same_key_eq. repeat case_bool_decide; try done.
    rewrite (ci_less_lower k0 key) in E1 by congruence. by rewrite ci_less_irrefl in E1.
  - destruct (ci_less key k0) eqn:E2; simpl; rewrite !same_key_eq; repeat case_bool_decide; try done.
    all: assert (same_key k0 key = true) as Es%same_key_lower by (unfold same_key; by rewrite E1, E2); congruence.
Qed.

Lemma get_header_lower k1 k2 p : map tolower k1 = map tolower k2 -> get_header k1 p = get_header k2 p.
Proof. intros E. unfold get_header. by rewrite (map_find_lower k1 k2). Qed.

Lemma get_header_replace key val p k :
  get_header k (replace_header key val p) = if same_key key k then val else get_header k p.
Proof. unfold get_header. simpl. rewrite map_find_set. by destruct (same_key key k). Qed.

(** ** Lines *)
Definition no_delimiter (l : list Z) : Prop := search Z.eqb header_delimiter l = None.

Lemma prefix_with_app eq needle l1 l2 : prefix_with eq needle l1 = true -> prefix_with eq needle (l1 ++ l2) = true.
Proof.
  revert l1. induction needle as [|n needle IH]; intros [|c l1]; simpl; try done.
  rewrite !andb_true_iff. intros [H1 H2]. split; [done|]. by apply IH.
Qed.

Lemma no_delimiter_cons c l : no_delimiter (c :: l) <->
  no_delimiter l /\ prefix_with Z.eqb header_delimiter (c :: l) = false.
Proof.
  unfold no_delimiter. cbn [search]. destruct (prefix_with _ _ _); [by split; [|intros [_ ?]]|].
  destruct (search _ _ l) as [[pre rest]|]; simpl; by split; [|intros [? _]].
Qed.

Lemma no_delimiter_prefix l1 l2 : no_delimiter (l1 ++ l2) -> no_delimiter l1.
Proof.
  induction l1 as [|c l1 IH]; [done|]. cbn [app]. rewrite !no_delimiter_cons. intros [H1 H2].
  split; [by apply IH|]. destruct (prefix_with _ _ (c :: l1)) eqn:E; [|done].
  apply (prefix_with_app _ _ _ l2) in E. cbn [app] in E. congruence.
Qed.

Lemma no_delimiter_snoc_cr l : no_delimiter l -> no_delimiter (l ++ [13]).
Proof.
  induction l as [|c l IH]; [done|]. cbn [app]. rewrite !no_delimiter_cons. intros [H1 H2].
  split; [by apply IH|]. destruct l as [|c' l]; simpl in *; [by rewrite andb_false_r|done].
Qed.

Lemma search_delimiter l rest : no_delimiter l ->
  search Z.eqb header_delimiter (l ++ header_delimiter ++ rest) = Some (l, header_delimiter ++ rest).
Proof.
  induction l as [|c l IH]; [done|]. rewrite no_delimiter_cons. intros [H1 H2]. cbn [app search].
  assert (prefix_with Z.eqb header_delimiter (c :: l ++ header_delimiter ++ rest) = false) as ->.
  { destruct l as [|c' l]; simpl in *; [by rewrite andb_false_r|done]. }
  rewrite IH by done. done.
Qed.

(** ** The lines of a head *)
Definition lines_text (lines : list (list Z)) : list Z := concat (map (fun l => l ++ header_delimiter) lines).
Definition head_text (lines : list (list Z)) : list Z := lines_text lines ++ header_delimiter.
Definition is_line (l : list Z) : Prop := l <> [] /\ no_delimiter l.

(** Reference: the request that lines describe, the first of them being the
    request line until a method is known. *)
Definition line_step (r : request) (line : list Z) : result request :=
  if is_nil (m_method r) then process line r else p ← process_header line (base r); Ok (with_base p r).
Definition complete (r : request) : result request :=
  if is_nil (m_method r) || is_nil (get_header (str "Host") (base r)) then Thrown bad_request
  else Ok (with_ready true (with_buf None r)).
Fixpoint request_of_lines (lines : list (list Z)) (r : request) : result request :=
  match lines with
  | [] => complete r
  | line :: lines' => r' ← line_step r line; request_of_lines lines' r'
  end.

(** The size that the limit is compared with: a delimiter counts as three. *)
Fixpoint lines_size (lines : list (list Z)) : Z :=
  match lines with [] => 0 | l :: lines' => Z.of_nat (length l) + 3 + lines_size lines' end.

Definition no_cr (s : list Z) : Prop := Forall (fun c => c <> 13) s.
Lemma no_cr_delimiter s : no_cr s -> no_delimiter s.
Proof.
  induction 1 as [|c s Hc _ IH]; [done|]. rewrite no_delimiter_cons. split; [done|].
  simpl. by rewrite (proj2 (Z.eqb_neq c 13) Hc).
Qed.

(** *** What a line changes *)
Definition set_bytes (n : Z) (r : request) : request := with_base (set_header_bytes n (base r)) r.
Definition rmap {A B} (f : A -> B) (m : result A) : result B := x ← m; Ok (f x).

Fixpoint steps (lines : list (list Z)) (r : request) : result request :=
  match lines with [] => Ok r | line :: lines' => r' ← line_step r line; steps lines' r' end.

Lemma request_of_lines_steps lines : forall r, request_of_lines lines r = (r' ← steps lines r; complete r').
Proof.
  induction lines as [|line lines IH]; intros r; simpl; [done|].
  destruct (line_step r line) as [r'| |]; simpl; [apply IH|done|done].
Qed.

Lemma append_header_bytes k v n p :
  append_header k v (set_header_bytes n p) = rmap (set_header_bytes n) (append_header k v p).
Proof.
  unfold append_header. destruct (existsb _ k); [done|].
  change (get_header k (set_header_bytes n p)) with (get_header k p). by destruct (is_nil (get_header k p)).
Qed.

Lemma line_step_bytes line n b r :
  line_step (with_buf b (set_bytes n r)) line = rmap (fun r => with_buf b (set_bytes n r)) (line_step r line).
Proof.
  unfold line_step. cbn [with_buf set_bytes with_base m_method]. destruct (is_nil (m_method r)).
  - unfold process. destruct (find_if _ line) as [m [|? l]]; [done|]. destruct (existsb _ _); [done|].
    by destruct (find_if _ l) as [u [|? v]].
  - unfold process_header. destruct (search _ _ _) as [[name rest]|]; [|done].
    destruct (strip_lws name) as [k|]; [|done]. destruct (strip_lws _) as [v|]; [|done]. cbn.
    rewrite append_header_bytes. by destruct (append_header k v (base r)).
Qed.

Lemma line_step_keeps line r r' : line_step r line = Ok r' ->
  m_header_bytes (base r') = m_header_bytes (base r) /\ m_ready r' = m_ready r /\
  m_body_bytes_needed (base r') = m_body_bytes_needed (base r) /\ m_buf r' = m_buf r /\
  m_body_bytes_max (base r') = m_body_bytes_max (base r).
Proof.
  unfold line_step. destruct (is_nil (m_method r)).
  - unfold process. destruct (find_if _ line) as [m [|? l]]; [done|]. destruct (existsb _ _); [done|].
    destruct (find_if _ l) as [u [|? v]]; [done|]. by intros [= <-].
  - unfold process_header. destruct (search _ _ _) as [[name rest]|]; [|done].
    destruct (strip_lws name) as [k|]; [|done]. destruct (strip_lws _) as [v|]; [|done]. cbn.
    unfold append_header. destruct (existsb _ _); [done|]. by destruct (is_nil (get_header k (base r))); intros [= <-].
Qed.

Lemma steps_bytes lines n b : forall r,
  steps lines (with_buf b (set_bytes n r)) = rmap (fun r => with_buf b (set_bytes n r)) (steps lines r).
Proof.
  induction lines as [|line lines IH]; intros r; simpl; [done|]. rewrite line_step_bytes.
  destruct (line_step r line) as [r'| |]; simpl; [apply IH|done|done].
Qed.

Lemma steps_keep lines : forall r r', steps lines r = Ok r' ->
  m_header_bytes (base r') = m_header_bytes (base r) /\ m_ready r' = m_ready r /\
  m_body_bytes_needed (base r') = m_body_bytes_needed (base r) /\ m_buf r' = m_buf r /\
  m_body_bytes_max (base r') = m_body_bytes_max (base r).
Proof.
  induction lines as [|line lines IH]; intros r r'; simpl; [by intros [= <-]|].
  destruct (line_step r line) as [r1| |] eqn:E; [|done|done]. intros (E1 & E2 & E3 & E4 & E5)%IH.
  destruct (line_step_keeps _ _ _ E) as (F1 & F2 & F3 & F4 & F5). by rewrite E1, E2, E3, E4, E5.
Qed.

Lemma steps_app l1 l2 : forall r, steps (l1 ++ l2) r = (r' ← steps l1 r; steps l2 r').
Proof.
  induction l1 as [|line l1 IH]; intros r; simpl; [done|].
  destruct (line_step r line) as [r'| |]; simpl; [apply IH|done|done].
Qed.

(** ** One call *)

(** The call that sees the blank line. *)
Lemma no_delimiter_short l : (length l < 2)%nat -> no_delimiter l.
Proof. destruct l as [|c [|? l]]; simpl; [done| |lia]. unfold no_delimiter. simpl. by rewrite andb_false_r. Qed.

Lemma set_bytes_twice n m r : set_bytes n (set_bytes m r) = set_bytes n r.
Proof. done. Qed.

(** A piece [text] of what is to come: the head is complete in it, or some of its
    lines are. *)
Lemma split_text lines : Forall is_line lines -> forall text future rest,
  text ++ future = head_text lines ++ rest ->
  (exists text', text = head_text lines ++ text' /\ text' ++ future = rest) \/
  (exists done todo partial, lines = done ++ todo /\ text = lines_text done ++ partial /\
     no_delimiter partial /\ partial ++ future = head_text todo ++ rest /\
     (length partial <= 1 + match todo with [] => 0 | l :: _ => length l end)%nat).
Proof.
  induction 1 as [|line lines [Hne Hl] _ IH]; intros text future rest E.
  - destruct (le_lt_dec 2 (length text)) as [H2|H2].
    + left. destruct text as [|c1 [|c2 text]]; simpl in H2; [lia|lia|]. cbn in E.
      injection E as -> -> E. by exists text.
    + right. exists [], [], text. split_and!; [done|done|by apply no_delimiter_short|done|lia].
  - unfold head_text, lines_text in *. simpl in *. rewrite <-!app_assoc in E. simpl in E.
    destruct (le_lt_dec (length line + 2) (length text)) as [H2|H2].
    + pose proof (f_equal (take (length line)) E) as E1. rewrite take_app_le, take_app_length in E1 by lia.
      pose proof (f_equal (drop (length line)) E) as E2. rewrite drop_app_le, drop_app_length in E2 by lia.
      pose proof (take_drop (length line) text) as Et. rewrite E1 in Et.
      destruct (drop (length line) text) as [|c1 [|c2 t]] eqn:Ed;
        [apply (f_equal length) in Ed; rewrite length_drop in Ed; simpl in Ed; lia..|].
      cbn in E2. injection E2 as -> -> E2.
      destruct (IH t future rest) as [(text' & -> & E')|(done & todo & partial & -> & -> & Hp & E' & Hlen)].
      { rewrite <-app_assoc. exact E2. }
      * left. exists text'. split; [|done]. rewrite <-Et. rewrite <-!app_assoc. done.
      * right. exists (line :: done), todo, partial. split_and!; [done| |done|done|done].
        rewrite <-Et. cbn [map concat]. rewrite <-!app_assoc. done.
    + right. exists [], (line :: lines), text. split_and!; [done|done| | |simpl; lia].
      * apply (no_delimiter_prefix text (drop (length text) (line ++ [13]))).
        assert (text = take (length text) (line ++ [13])) as Et.
        { pose proof (f_equal (take (length text)) E) as E1. rewrite take_app_length in E1. rewrite E1 at 1.
          rewrite (app_assoc line [13]) at 1 || idtac.
          change (13 :: 10 :: ?x) with ([13] ++ 10 :: x). rewrite app_assoc, take_app_le; [done|].
          rewrite length_app. simpl. lia. }
        rewrite Et at 1. rewrite take_drop. by apply no_delimiter_snoc_cr.
      * rewrite E. cbn [map concat]. rewrite <-!app_assoc. done.
Qed.

Lemma line_step_set_bytes line n r : line_step (set_bytes n r) line = rmap (set_bytes n) (line_step r line).
Proof.
  pose proof (line_step_bytes line n (m_buf r) r) as E.
  assert (with_buf (m_buf r) (set_bytes n r) = set_bytes n r) as Er by by destruct r. rewrite Er in E. rewrite E.
  destruct (line_step r line) as [r'| |] eqn:E'; [|done|done]. cbn.
  destruct (line_step_keeps _ _ _ E') as (_ & _ & _ & <- & _). by destruct r'.
Qed.

Lemma loop_steps done : Forall is_line done -> forall fuel buf rest r,
  m_header_bytes (base r) + lines_size done <= max_header_size ->
  consume_loop (length done + fuel) buf (lines_text done ++ rest) r =
  (r' ← steps done r; consume_loop fuel buf rest (set_bytes (m_header_bytes (base r) + lines_size done) r')).
Proof.
  induction 1 as [|line done [Hne Hl] _ IH]; intros fuel buf rest r Hb.
  { cbn [length Nat.add lines_text map concat app steps lines_size mbind result_bind]. rewrite Z.add_0_r. by destruct r as [[]]. }
  assert (0 <= lines_size done) as Hpos by (clear; induction done; simpl; lia).
  cbn [lines_size] in *. change (lines_text (line :: done)) with ((line ++ header_delimiter) ++ lines_text done).
  rewrite <-!app_assoc. cbn [length Nat.add consume_loop]. rewrite search_delimiter by done.
  destruct (Z.ltb_spec max_header_size (m_header_bytes (base r) + (Z.of_nat (length line) + 3))) as [?|_]; [lia|].
  destruct line as [|c line]; [done|]. cbn [is_nil].
  change (drop 2 (header_delimiter ++ lines_text done ++ rest)) with (lines_text done ++ rest).
  set (n := m_header_bytes (base r) + (Z.of_nat (length (c :: line)) + 3)).
  change (with_base (set_header_bytes n (base r)) r) with (set_bytes n r).
  change (if is_nil (m_method (set_bytes n r)) then process (c :: line) (set_bytes n r)
          else p ← process_header (c :: line) (base (set_bytes n r)); Ok (with_base p (set_bytes n r)))
    with (line_step (set_bytes n r) (c :: line)).
  rewrite line_step_set_bytes. cbn [steps].
  destruct (line_step r (c :: line)) as [r1| |] eqn:E1; [|done|done]. cbn [rmap mbind result_bind].
  rewrite IH by (cbn; unfold n; lia). cbn [set_bytes with_base base set_header_bytes m_header_bytes].
  change (Request (Parser _ _ _ _ _ _ _) _ _ _ _) with (set_bytes n r1) || idtac.
  pose proof (steps_bytes done n (m_buf r1) r1) as Es.
  assert (with_buf (m_buf r1) (set_bytes n r1) = set_bytes n r1) as Er by by destruct r1. rewrite Er in Es. rewrite Es.
  destruct (steps done r1) as [r2| |] eqn:E2; [|done|done]. cbn [rmap mbind result_bind].
  destruct (steps_keep _ _ _ E2) as (_ & _ & _ & Eb & _). rewrite <-Eb. unfold n.
  f_equal. unfold set_bytes, with_base, with_buf, set_header_bytes. cbn. f_equal. f_equal. lia.
Qed.

Lemma loop_partial fuel buf partial r : no_delimiter partial ->
  m_header_bytes (base r) + Z.of_nat (length partial) + 3 <= max_header_size ->
  consume_loop (S fuel) buf partial r =
  Ok (length buf, with_buf (Some partial) (set_bytes (m_header_bytes (base r) + 3) r)).
Proof.
  intros Hp Hb. cbn [consume_loop]. rewrite Hp.
  destruct (Z.ltb_spec max_header_size (m_header_bytes (base r) + (Z.of_nat (length partial) + 3))) as [?|_]; [lia|].
  repeat f_equal. unfold set_bytes. do 2 f_equal. lia.
Qed.

Lemma loop_blank fuel buf rest r : m_header_bytes (base r) + 3 <= max_header_size ->
  consume_loop (S fuel) buf (header_delimiter ++ rest) r =
  head_complete buf rest (set_bytes (m_header_bytes (base r) + 3) r).
Proof.
  intros Hb. cbn [consume_loop]. change (search Z.eqb header_delimiter (header_delimiter ++ rest)) with (Some ([] : list Z, header_delimiter ++ rest)).
  cbn [length is_nil]. change (Z.of_nat 0 + 3) with 3.
  destruct (Z.ltb_spec max_header_size (m_header_bytes (base r) + 3)) as [?|_]; [lia|]. done.
Qed.

(** A request without a body is complete. *)
Lemma head_complete_spec buf rest r : get_header (str "Content-Length") (base r) = [] ->
  head_complete buf rest r = rmap (fun r => ((length buf - length rest)%nat, r)) (complete r).
Proof.
  intros Hc. unfold head_complete, complete. destruct (is_nil _ || is_nil _); [done|].
  unfold prepare_body. change (base (with_buf None r)) with (base r). rewrite Hc. by destruct r.
Qed.

(** ** All reads *)

(** The reads of a handshake: the request, what is left of the read that
    completed it, and the reads after that. *)
Fixpoint consume_reads (reads : list (list Z)) (r : request) : result (request * list Z * list (list Z)) :=
  match reads with
  | [] => Ok (r, [], [])
  | buf :: reads' =>
      '(n, r') ← consume buf r;
      if m_ready r' then Ok (r', drop n buf, reads') else consume_reads reads' r'
  end.

(** Requests that differ in the count of octets. *)
Definition same_request (r1 r2 : request) : Prop := set_bytes 0 r1 = set_bytes 0 r2.

Lemma lines_size_pos lines : 0 <= lines_size lines.
Proof. induction lines; simpl; lia. Qed.
Lemma lines_size_app l1 l2 : lines_size (l1 ++ l2) = lines_size l1 + lines_size l2.
Proof. induction l1; simpl; lia. Qed.
Lemma length_lines_text lines : Forall is_line lines -> (length lines <= length (lines_text lines))%nat.
Proof.
  induction 1 as [|l lines _ _ IH]; simpl; [lia|]. unfold lines_text in *. simpl. rewrite !length_app. simpl. lia.
Qed.

Lemma delimiter_in_head todo rest : Forall is_line todo -> no_delimiter (head_text todo ++ rest) -> False.
Proof.
  intros Hl Hn. destruct todo as [|l todo]; [done|]. apply Forall_cons in Hl as [[_ Hl] _].
  unfold no_delimiter, head_text, lines_text in Hn. cbn [map concat] in Hn. rewrite <-!app_assoc in Hn.
  by rewrite search_delimiter in Hn.
Qed.

Lemma complete_bytes n r : complete (set_bytes n r) = rmap (set_bytes n) (complete r).
Proof.
  unfold complete. change (m_method (set_bytes n r)) with (m_method r).
  change (get_header (str "Host") (base (set_bytes n r))) with (get_header (str "Host") (base r)).
  by destruct (is_nil (m_method r) || _).
Qed.

(** The call of [consume] on one read. *)
Lemma consume_read todo buf future rest r b : Forall is_line todo ->
  m_ready r = false -> m_body_bytes_needed (base r) = 0 -> m_buf r = Some b ->
  (b ++ buf) ++ future = head_text todo ++ rest ->
  m_header_bytes (base r) + lines_size todo + 4 <= max_header_size ->
  (forall r', steps todo r = Ok r' -> get_header (str "Content-Length") (base r') = []) ->
  (exists text' n, text' ++ future = rest /\
     consume buf r = rmap (fun r' => ((length buf - length text')%nat, set_bytes n r')) (request_of_lines todo r)) \/
  (exists done todo' partial, todo = done ++ todo' /\ no_delimiter partial /\
     partial ++ future = head_text todo' ++ rest /\
     consume buf r = rmap (fun r' => (length buf,
       with_buf (Some partial) (set_bytes (m_header_bytes (base r) + lines_size done + 3) r'))) (steps done r)).
Proof.
  intros Hl Hr Hn Hm E Hb Hc. unfold consume. rewrite Hr, Hn, Hm. cbn [Z.ltb Z.compare defined mbind result_bind].
  destruct (split_text todo Hl (b ++ buf) future rest E)
    as [(text' & -> & E')|(done & todo' & partial & -> & -> & Hp & E' & Hlen)].
  - left. exists text', (m_header_bytes (base r) + lines_size todo + 3). split; [done|]. unfold head_text.
    rewrite <-!app_assoc. pose proof (length_lines_text todo Hl) as Hlt. rewrite length_app.
    replace (S (length (lines_text todo) + length (header_delimiter ++ text')))%nat
      with (length todo + S (length (lines_text todo) - length todo + length (header_delimiter ++ text')))%nat by lia.
    rewrite loop_steps by (done || lia). rewrite request_of_lines_steps.
    destruct (steps todo r) as [r'| |] eqn:Es; [|done|done]. cbn [mbind result_bind rmap].
    rewrite loop_blank by (cbn; lia). rewrite head_complete_spec by exact (Hc r' eq_refl).
    cbn [set_bytes with_base base set_header_bytes m_header_bytes].
    change (complete (set_bytes (m_header_bytes (base r) + lines_size todo + 3) (set_bytes (m_header_bytes (base r) + lines_size todo) r')))
      with (complete (set_bytes (m_header_bytes (base r) + lines_size todo + 3) r')) || idtac.
    rewrite complete_bytes. by destruct (complete r').
  - right. exists done, todo', partial. split_and!; [done|done|done|].
    apply Forall_app in Hl as [Hl Hl']. rewrite lines_size_app in Hb. pose proof (lines_size_pos todo').
    pose proof (length_lines_text done Hl) as Hlt. rewrite length_app.
    replace (S (length (lines_text done) + length partial))%nat
      with (length done + S (length (lines_text done) - length done + length partial))%nat by lia.
    rewrite loop_steps by (done || lia).
    destruct (steps done r) as [r'| |]; [|done|done]. cbn [mbind result_bind rmap].
    rewrite loop_partial; [done|done|]. cbn [set_bytes with_base base set_header_bytes m_header_bytes].
    destruct todo' as [|l todo']; simpl in *; [lia|]. pose proof (lines_size_pos todo'). lia.
Qed.

Lemma request_of_lines_bytes lines n b r :
  request_of_lines lines (with_buf b (set_bytes n r)) = rmap (set_bytes n) (request_of_lines lines r).
Proof.
  rewrite !request_of_lines_steps, steps_bytes. destruct (steps lines r) as [r'| |]; [|done|done].
  cbn [rmap mbind result_bind]. unfold complete. cbn [with_buf set_bytes with_base m_method].
  change (get_header (str "Host") _) with (get_header (str "Host") (base r')). by destruct (is_nil (m_method r') || _).
Qed.

Lemma request_of_lines_app l1 l2 r : request_of_lines (l1 ++ l2) r = (r' ← steps l1 r; request_of_lines l2 r').
Proof.
  rewrite request_of_lines_steps, steps_app. destruct (steps l1 r) as [r'| |]; [|done|done].
  cbn [mbind result_bind]. by rewrite request_of_lines_steps.
Qed.

Lemma complete_ready r r' : complete r = Ok r' -> m_ready r' = true.
Proof. unfold complete. destruct (_ || _); [done|]. by intros [= <-]. Qed.
Lemma request_of_lines_ready lines r r' : request_of_lines lines r = Ok r' -> m_ready r' = true.
Proof.
  rewrite request_of_lines_steps. destruct (steps lines r); [|done|done]. apply complete_ready.
Qed.

(** What the reads of a head come to. *)
Definition reads_result (reads : list (list Z)) (r : request) (rest : list Z) (spec : result request) : Prop :=
  match spec with
  | Ok r' => exists r'' left_over reads', consume_reads reads r = Ok (r'', left_over, reads') /\
      left_over ++ concat reads' = rest /\ same_request r'' r'
  | Thrown c => consume_reads reads r = Thrown c
  | Undefined => consume_reads reads r = Undefined
  end.

Lemma consume_reads_lines reads : forall todo rest r b, Forall is_line todo ->
  m_ready r = false -> m_body_bytes_needed (base r) = 0 -> m_buf r = Some b -> no_delimiter b ->
  b ++ concat reads = head_text todo ++ rest ->
  m_header_bytes (base r) + lines_size todo + 4 + 3 * Z.of_nat (length reads) <= max_header_size ->
  (forall r', steps todo r = Ok r' -> get_header (str "Content-Length") (base r') = []) ->
  reads_result reads r rest (request_of_lines todo r).
Proof.
  induction reads as [|buf reads IH]; intros todo rest r b Hl Hr Hn Hm Hnd E Hb Hc.
  { exfalso. simpl in E. rewrite app_nil_r in E. subst b. by eapply delimiter_in_head. }
  simpl in E. rewrite app_assoc in E. cbn [length] in Hb.
  destruct (consume_read todo buf _ rest r b Hl Hr Hn Hm E ltac:(lia) Hc)
    as [(text' & n & E' & Ec)|(done & todo' & partial & -> & Hp & E' & Ec)];
    unfold reads_result; cbn [consume_reads]; rewrite Ec.
  - destruct (request_of_lines todo r) as [r'| |] eqn:Er; [|done|done]. cbn [rmap mbind result_bind].
    change (m_ready (set_bytes n r')) with (m_ready r'). rewrite (request_of_lines_ready _ _ _ Er).
    eexists _, _, _. split; [done|]. split; [|done]. rewrite <-E'. f_equal.
    set (x := head_text todo). assert (b ++ buf = x ++ text') as Ex.
    { rewrite <-E', (app_assoc x) in E. by apply app_inv_tail in E. }
    assert (length text' <= length buf)%nat as Hlen.
    { destruct (le_lt_dec (length text') (length buf)) as [?|Hlt]; [done|]. exfalso.
      pose proof (f_equal length Ex) as El. rewrite !length_app in El.
      pose proof (f_equal (take (length b)) Ex) as Et.
      rewrite take_app_length, take_app_ge in Et by lia. rewrite Et in Hnd. by eapply delimiter_in_head. }
    pose proof (f_equal (drop (length b + length buf - length text')) Ex) as Ed.
    rewrite drop_app_ge in Ed by lia. replace (length b + length buf - length text' - length b)%nat
      with (length buf - length text')%nat in Ed by lia. rewrite Ed.
    pose proof (f_equal length Ex) as El. rewrite !length_app in El. rewrite drop_app_ge by lia.
    by replace (length b + length buf - length text' - length x)%nat with 0%nat by lia.
  - rewrite request_of_lines_app. apply Forall_app in Hl as [_ Hl].
    destruct (steps done r) as [r'| |] eqn:Es; [|done|done]. cbn [rmap mbind result_bind].
    destruct (steps_keep _ _ _ Es) as (F1 & F2 & F3 & F4 & F5).
    set (r1 := with_buf (Some partial) (set_bytes (m_header_bytes (base r) + lines_size done + 3) r')).
    change (m_ready r1) with (m_ready r'). rewrite F2, Hr.
    rewrite lines_size_app in Hb.
    assert (reads_result reads r1 rest (request_of_lines todo' r1)) as Hres.
    { apply (IH todo' rest r1 partial); try done.
      - unfold r1. cbn. by rewrite F2.
      - unfold r1. cbn. by rewrite F3.
      - unfold r1. cbn. lia.
      - intros r2 E2. unfold r1 in E2. rewrite steps_bytes in E2.
        destruct (steps todo' r') as [r3| |] eqn:E3; [|done|done]. injection E2 as <-.
        apply (Hc r3). by rewrite steps_app, Es. }
    unfold r1 in Hres at 2. rewrite request_of_lines_bytes in Hres. unfold reads_result in Hres.
    destruct (request_of_lines todo' r') as [r2| |]; cbn [rmap mbind result_bind] in Hres; [|done|done].
    destruct Hres as (r'' & left_over & reads' & E1 & E2 & E3). eexists _, _, _. split; [exact E1|]. by split.
Qed.

(** C11. A request may arrive cut anywhere, an octet at a time or with the octets of
    the first frames behind it. For every list of lines without a Content-Length and every way the reads
    cut the head they form, the request is the one that the lines describe, with
    the same exception where they describe none, and the octets behind the head
    are left over, as long as the size of the lines and three octets for each
    read stay below the limit of the head. *)
Theorem request_whatever_the_cut lines rest reads : Forall is_line lines ->
  concat reads = head_text lines ++ rest ->
  lines_size lines + 4 + 3 * Z.of_nat (length reads) <= max_header_size ->
  (forall r, steps lines new_request = Ok r -> get_header (str "Content-Length") (base r) = []) ->
  reads_result reads new_request rest (request_of_lines lines new_request).
Proof.
  intros Hl E Hb Hc. apply (consume_reads_lines reads lines rest new_request []); try done.
Qed.

(** ** Header fields *)
Definition is_token (s : list Z) : Prop := Forall (fun c => is_token_char c = true) s.
Definition is_blank (s : list Z) : Prop := Forall (fun c => is_whitespace_char c = true) s.
(** Text of a line that neither starts nor ends with a blank. *)
Definition is_field_value (v : list Z) : Prop :=
  Forall (fun c => c <> 13) v /\
  (forall c, head v = Some c -> is_whitespace_char c = false) /\
  (forall c, last v = Some c -> is_whitespace_char c = false).

Lemma token_char_facts c : 0 <= c < 256 -> is_token_char c = true ->
  is_not_token_char c = false /\ is_whitespace_char c = false /\ c <> 58 /\ c <> 13 /\ c <> 32 /\ c <> 59 /\ c <> 44 /\ c <> 61.
Proof.
  intros Hc Ht.
  pose proof (forallb_seqZ (fun c => implb (is_token_char c) (negb (is_not_token_char c) && negb (is_whitespace_char c) &&
    negb (c =? 58) && negb (c =? 13) && negb (c =? 32) && negb (c =? 59) && negb (c =? 44) && negb (c =? 61))) 0 256
    ltac:(vm_compute; reflexivity) c Hc) as H.
  cbn beta in H. rewrite Ht in H. cbn [implb] in H. rewrite !andb_true_iff, !negb_true_iff, !Z.eqb_neq in H. tauto.
Qed.

Lemma find_if_app p l1 l2 : Forall (fun c => p c = false) l1 ->
  find_if p (l1 ++ l2) = (l1 ++ (find_if p l2).1, (find_if p l2).2).
Proof.
  induction 1 as [|c l1 Hc _ IH]; cbn [app find_if]; [by destruct (find_if p l2)|]. by rewrite Hc, IH.
Qed.
Lemma find_if_stop p c l : p c = true -> find_if p (c :: l) = ([], c :: l).
Proof. intros H. cbn. by rewrite H. Qed.
Lemma find_if_none p l : Forall (fun c => p c = false) l -> find_if p l = (l, []).
Proof. intros H. rewrite <-(app_nil_r l) at 1. by rewrite find_if_app, app_nil_r. Qed.
Lemma existsb_none (p : Z -> bool) l : Forall (fun c => p c = false) l -> existsb p l = false.
Proof. induction 1 as [|c l Hc _ IH]; simpl; [done|]. by rewrite Hc. Qed.

Lemma not_whitespace c : is_not_whitespace_char c = negb (is_whitespace_char c).
Proof. unfold is_not_whitespace_char, is_whitespace_char. by rewrite negb_orb. Qed.

(** Blanks before text without a delimiter. *)
Lemma extract_lws_blank w v : is_blank w -> no_delimiter v ->
  (forall c, head v = Some c -> is_whitespace_char c = false) -> extract_lws (w ++ v) = v.
Proof.
  intros Hw Hv Hh. unfold extract_lws.
  assert (forall l, l = w ++ v -> match l with
          | 13 :: 10 :: c :: rest => if is_whitespace_char c then rest else w ++ v | _ => w ++ v end = w ++ v) as E.
  { intros l El. destruct w as [|c0 w].
    - destruct l as [|c0 l]; [done|]. destruct (Z.eq_dec c0 13) as [->|Hne];
        [destruct l as [|c1 l]; [done|]; destruct (Z.eq_dec c1 10) as [->|Hne]|].
      + exfalso. cbn [app] in El. by subst v.
      + repeat (match goal with |- match ?x with _ => _ end = _ => destruct x end; try done).
      + repeat (match goal with |- match ?x with _ => _ end = _ => destruct x end; try done).
    - subst l. apply Forall_cons in Hw as [Hc _].
      assert (c0 = 9 \/ c0 = 32) as [-> | ->] by (unfold is_whitespace_char in Hc; lia); done. }
  rewrite (E _ eq_refl). rewrite find_if_app.
  2: { eapply Forall_impl; [exact Hw|]. intros c Hc. by rewrite not_whitespace, Hc. }
  cbn [snd]. destruct v as [|c v]; [done|]. rewrite find_if_stop; [done|].
  by rewrite not_whitespace, (Hh c eq_refl).
Qed.

Lemma all_lws_blank w v : is_blank w -> no_delimiter v ->
  (forall c, head v = Some c -> is_whitespace_char c = false) -> extract_all_lws (w ++ v) = v.
Proof.
  intros Hw Hv Hh. unfold extract_all_lws. cbn [all_lws_loop]. rewrite extract_lws_blank by done.
  destruct (negb (is_nil v) && negb (at_same (w ++ v) v)) eqn:E; [|done].
  apply andb_true_iff in E as [_ E%negb_true_iff]. unfold at_same in E. apply Nat.eqb_neq in E.
  rewrite length_app in *. destruct (length w + length v)%nat as [|n] eqn:En; [lia|]. cbn [all_lws_loop].
  pose proof (extract_lws_blank [] v (Forall_nil_2 _) Hv Hh) as E0. cbn [app] in E0. rewrite E0.
  unfold at_same. by rewrite Nat.eqb_refl, andb_false_r.
Qed.

Lemma strip_lws_blank w1 v w2 : is_blank w1 -> is_blank w2 -> is_field_value v ->
  strip_lws (w1 ++ v ++ w2) = Some v.
Proof.
  intros H1 H2 (Hv & Hh & Hl). unfold strip_lws.
  assert (Forall (fun c => c <> 13) w2) as H2'.
  { eapply Forall_impl; [exact H2|]. intros c Hc ->. done. }
  destruct v as [|c v].
  { cbn [app]. assert (extract_all_lws (w1 ++ w2) = []) as ->; [|done].
    pose proof (all_lws_blank (w1 ++ w2) [] ltac:(by apply Forall_app) eq_refl ltac:(done)) as E.
    by rewrite app_nil_r in E. }
  rewrite all_lws_blank; [|done|apply no_cr_delimiter; by apply Forall_app|intros c' E; by apply Hh].
  rewrite !reverse_app. rewrite <-(app_assoc (reverse w2)).
  assert (extract_all_lws (reverse w2 ++ reverse (c :: v) ++ reverse w1) = reverse (c :: v) ++ reverse w1) as ->.
  { apply all_lws_blank; [by apply Forall_reverse|apply no_cr_delimiter, Forall_app; split; apply Forall_reverse; [done|]|].
    - eapply Forall_impl; [exact H1|]. intros c' Hc ->. done.
    - intros c' E. apply Hl. rewrite <-E. rewrite <-(reverse_involutive (c :: v)) at 1.
      rewrite last_reverse. destruct (reverse (c :: v)) as [|c0 v0] eqn:Er; [|done].
      apply (f_equal length) in Er. rewrite length_reverse in Er. done. }
  destruct (reverse (c :: v) ++ reverse w1) as [|c0 l0] eqn:Er.
  { apply (f_equal length) in Er. rewrite length_app, !length_reverse in Er. done. }
  rewrite <-Er. cbn [is_nil app]. destruct (is_nil _) eqn:En; [by rewrite Er in En|].
  rewrite !length_app, !length_reverse. cbn [length].
  replace (length w1 + S (length (v ++ w2)) - S (length (v ++ w2)))%nat with (length w1) by lia.
  destruct (Nat.leb_spec (length w1) (S (length v) + length w1)); [|lia].
  rewrite drop_app_length. f_equal. replace (S (length v) + length w1 - length w1)%nat with (length (c :: v)) by (simpl; lia).
  apply (take_app_length (c :: v)).
Qed.

(** *** Lines of a request *)
Record field := Field { f_name : list Z; f_value : list Z }.
Definition field_line (f : field) : list Z := f_name f ++ [58; 32] ++ f_value f.
Definition good_field (f : field) : Prop :=
  f_name f <> [] /\ is_token (f_name f) /\ Forall is_byte (f_name f) /\ is_field_value (f_value f) /\
  Forall (fun c => c <> 10) (f_value f).

(** What a header reads as: the values of the fields of the same name, joined. *)
Definition join_value (v w : list Z) : list Z := if is_nil v then w else v ++ str ", " ++ w.
Fixpoint field_value (from : list Z) (key : list Z) (fs : list field) : list Z :=
  match fs with
  | [] => from
  | f :: fs' => field_value (if same_key (f_name f) key then join_value from (f_value f) else from) key fs'
  end.

Lemma token_facts s : is_token s -> Forall is_byte s ->
  Forall (fun c => is_not_token_char c = false) s /\ Forall (fun c => is_whitespace_char c = false) s /\
  Forall (fun c => (c =? 58) = false) s /\ Forall (fun c => c <> 13) s /\ Forall (fun c => (c =? 32) = false) s.
Proof.
  intros Ht Hb. unfold is_token in Ht.
  assert (Forall (fun c => is_not_token_char c = false /\ is_whitespace_char c = false /\ (c =? 58) = false /\ c <> 13 /\
    (c =? 32) = false) s) as H.
  { apply Forall_forall. intros c Hc. rewrite Forall_forall in Ht, Hb.
    destruct (token_char_facts c (Hb c Hc) (Ht c Hc)) as (? & ? & ? & ? & ? & _).
    rewrite !Z.eqb_neq. done. }
  split_and!; (eapply Forall_impl; [exact H|]); cbn beta; tauto.
Qed.

Lemma token_is_value s : is_token s -> Forall is_byte s -> is_field_value s.
Proof.
  intros Ht Hb. destruct (token_facts s Ht Hb) as (_ & Hw & _ & H13 & _). rewrite Forall_forall in Hw.
  split; [done|]. split; intros c Hc; apply Hw; [|by apply last_Some_elem_of].
  destruct s; [done|]. injection Hc as ->. by left.
Qed.

Lemma search_separator name rest : Forall (fun c => (c =? 58) = false) name ->
  search Z.eqb header_separator (name ++ 58 :: rest) = Some (name, 58 :: rest).
Proof.
  induction 1 as [|c name Hc _ IH]; cbn [app search]; [done|].
  assert (prefix_with Z.eqb header_separator (c :: name ++ 58 :: rest) = false) as -> by (simpl; by rewrite Hc).
  by rewrite IH.
Qed.

Lemma process_field f p : good_field f ->
  process_header (field_line f) p =
  Ok (set_headers (map_set (f_name f) (join_value (get_header (f_name f) p) (f_value f)) (m_headers p)) p).
Proof.
  intros (Hne & Ht & Hb & Hv & _). destruct (token_facts _ Ht Hb) as (Hn & _ & Hs & _).
  unfold process_header, field_line. change ([58; 32] ++ f_value f) with (58 :: 32 :: f_value f).
  rewrite search_separator by done.
  pose proof (strip_lws_blank [] (f_name f) [] (Forall_nil_2 _) (Forall_nil_2 _) (token_is_value _ Ht Hb)) as E1.
  rewrite app_nil_r in E1. cbn [app] in E1. rewrite E1.
  pose proof (strip_lws_blank [32] (f_value f) [] ltac:(by repeat constructor) (Forall_nil_2 _) Hv) as E2.
  rewrite app_nil_r in E2. change (drop 1 (58 :: 32 :: f_value f)) with ([32] ++ f_value f). rewrite E2.
  cbn [defined mbind result_bind]. unfold append_header, join_value. rewrite existsb_none by done.
  by destruct (is_nil (get_header (f_name f) p)).
Qed.

Definition request_lines (method uri version : list Z) (fs : list field) : list (list Z) :=
  (method ++ [32] ++ uri ++ [32] ++ version) :: map field_line fs.

(** Characters of a resource and of a version. *)
Definition no_space (s : list Z) : Prop := Forall (fun c => (c =? 32) = false) s.

Lemma is_nil_false {A} (l : list A) : l <> [] -> is_nil l = false.
Proof. by destruct l. Qed.

Lemma process_request_line method uri version r : is_token method -> Forall is_byte method -> no_space uri ->
  process (method ++ [32] ++ uri ++ [32] ++ version) r =
  Ok (Request (set_version version (base r)) (m_buf r) method uri (m_ready r)).
Proof.
  intros Ht Hb Hu. destruct (token_facts _ Ht Hb) as (Hn & _ & _ & _ & Hs). unfold process. cbn [app].
  rewrite find_if_app by done. rewrite find_if_stop by done. cbn [fst snd]. rewrite app_nil_r.
  cbn [app]. rewrite existsb_none by done. rewrite find_if_app by done. rewrite find_if_stop by done.
  cbn [fst snd]. by rewrite app_nil_r.
Qed.

(** The fields one after the other. *)
Lemma steps_fields fs : Forall good_field fs -> forall r, m_method r <> [] ->
  exists h, steps (map field_line fs) r = Ok (with_base (set_headers h (base r)) r) /\
    forall k, get_header k (set_headers h (base r)) = field_value (get_header k (base r)) k fs.
Proof.
  induction 1 as [|f fs Hf _ IH]; intros r Hm.
  { exists (m_headers (base r)). split; [|done]. by destruct r as [[]]. }
  cbn [map steps]. unfold line_step. rewrite is_nil_false by done. rewrite process_field by done.
  cbn [mbind result_bind]. set (p := set_headers _ (base r)).
  destruct (IH (with_base p r) Hm) as (h & E & Hk). exists h. split; [rewrite E; done|].
  intros k. cbn [field_value]. rewrite Hk. f_equal. unfold p, get_header at 1. cbn.
  rewrite map_find_set. destruct (same_key (f_name f) k) eqn:Es; [|done].
  cbn. f_equal. unfold get_header. f_equal. apply map_find_lower. by apply same_key_lower.
Qed.

(** The request that a request line and fields describe. *)
Definition describes (method uri version : list Z) (fs : list field) (r : request) : Prop :=
  m_method r = method /\ m_uri r = uri /\ m_version (base r) = version /\ m_ready r = true /\
  forall k, get_header k (base r) = field_value [] k fs.

Lemma request_of_fields method uri version fs : method <> [] -> is_token method -> Forall is_byte method ->
  no_space uri -> Forall good_field fs ->
  (exists r0, steps (request_lines method uri version fs) new_request = Ok r0 /\
     forall k, get_header k (base r0) = field_value [] k fs) /\
  if is_nil (field_value [] (str "Host") fs)
  then request_of_lines (request_lines method uri version fs) new_request = Thrown bad_request
  else exists r, request_of_lines (request_lines method uri version fs) new_request = Ok r /\
         describes method uri version fs r.
Proof.
  intros Hne Ht Hb Hu Hf.
  set (r0 := Request (set_version version new_parser) (Some []) method uri false).
  destruct (steps_fields fs Hf r0 Hne) as (h & E & Hk).
  assert (steps (request_lines method uri version fs) new_request = Ok (with_base (set_headers h (base r0)) r0)) as Es.
  { cbn [request_lines steps]. unfold line_step. change (is_nil (m_method new_request)) with true. cbv iota.
    rewrite process_request_line by done. exact E. }
  split; [eexists; split; [exact Es|exact Hk]|]. rewrite request_of_lines_steps, Es. cbn [mbind result_bind].
  unfold complete. change (m_method (with_base (set_headers h (base r0)) r0)) with method.
  change (base (with_base (set_headers h (base r0)) r0)) with (set_headers h (base r0)).
  rewrite (is_nil_false method) by done. rewrite (Hk (str "Host")). cbn [orb].
  change (get_header (str "Host") (base r0)) with ([] : list Z).
  destruct (is_nil (field_value [] (str "Host") fs)); [done|]. eexists. split; [done|].
  split_and!; try done.
Qed.

Lemma request_lines_are_lines method uri version fs : method <> [] -> is_token method -> Forall is_byte method ->
  no_cr uri -> no_cr version -> Forall good_field fs -> Forall is_line (request_lines method uri version fs).
Proof.
  intros Hne Ht Hb Hu Hv Hf. destruct (token_facts _ Ht Hb) as (_ & _ & _ & H13 & _). constructor.
  - split; [by destruct method|]. apply no_cr_delimiter. unfold no_cr in *.
    repeat (apply Forall_app; split); try done; by repeat constructor.
  - apply Forall_map. eapply Forall_impl; [exact Hf|]. intros f (Hn & Htf & Hbf & (Hvf & _) & _).
    destruct (token_facts _ Htf Hbf) as (_ & _ & _ & Hf13 & _). split; [unfold field_line; by destruct (f_name f)|].
    apply no_cr_delimiter. unfold no_cr, field_line. repeat (apply Forall_app; split); try done; by repeat constructor.
Qed.

(** The text of a request, sent in pieces cut anywhere, is read as the request
    it was written from: the method, the resource, the version and, under every
    spelling of a name, the values of the fields of that name; a request without
    a host is refused; and what is behind the text is left over. *)
Theorem request_roundtrip method uri version fs rest reads :
  method <> [] -> is_token method -> Forall is_byte method -> no_space uri -> no_cr uri -> no_cr version ->
  Forall good_field fs -> field_value [] (str "Content-Length") fs = [] ->
  concat reads = head_text (request_lines method uri version fs) ++ rest ->
  lines_size (request_lines method uri version fs) + 4 + 3 * Z.of_nat (length reads) <= max_header_size ->
  if is_nil (field_value [] (str "Host") fs) then consume_reads reads new_request = Thrown bad_request
  else exists r left_over reads', consume_reads reads new_request = Ok (r, left_over, reads') /\
         left_over ++ concat reads' = rest /\ describes method uri version fs r.
Proof.
  intros Hne Ht Hb Hu Hucr Hv Hf Hc E Hsize.
  destruct (request_of_fields method uri version fs Hne Ht Hb Hu Hf) as [(r0 & Es & Hk) Hspec].
  pose proof (consume_reads_lines reads (request_lines method uri version fs) rest new_request []
    ltac:(by apply request_lines_are_lines) ltac:(done) ltac:(done) ltac:(done) ltac:(done) E Hsize) as H.
  specialize (H ltac:(intros r Er; rewrite Es in Er; injection Er as <-; by rewrite Hk)).
  destruct (is_nil (field_value [] (str "Host") fs)); [by rewrite Hspec in H|].
  destruct Hspec as (r & Er & H1 & H2 & H3 & H4 & H5). rewrite Er in H.
  destruct H as (r'' & left_over & reads' & Ec & El & Hs). exists r'', left_over, reads'. split_and!; [done|done|].
  unfold same_request in Hs. assert (m_method r'' = m_method r) as F1 by exact (f_equal m_method Hs).
  assert (m_uri r'' = m_uri r) as F2 by exact (f_equal m_uri Hs).
  assert (m_version (base r'') = m_version (base r)) as F3 by exact (f_equal (fun r => m_version (base r)) Hs).
  assert (m_ready r'' = m_ready r) as F4 by exact (f_equal m_ready Hs).
  assert (m_headers (base r'') = m_headers (base r)) as F5 by exact (f_equal (fun r => m_headers (base r)) Hs).
  unfold describes. rewrite F1, F2, F3, F4. split_and!; [done..|]. intros k. rewrite <-H5. unfold get_header. by rewrite F5.
Qed.

(** ** Any octets at all *)

(** A reader of blanks stops at text, in its argument. *)
Lemma extract_lws_stops l : exists pre, l = pre ++ extract_lws l /\
  forall c, head (extract_lws l) = Some c -> is_whitespace_char c = false.
Proof.
  assert (forall it, exists pre, it = pre ++ (find_if is_not_whitespace_char it).2 /\
    forall c, head (find_if is_not_whitespace_char it).2 = Some c -> is_whitespace_char c = false) as H.
  { induction it as [|c it IH]; [by exists []|]. cbn [find_if]. destruct (is_not_whitespace_char c) eqn:E.
    - exists []. split; [done|]. intros c' [= <-]. rewrite not_whitespace in E. by apply negb_true_iff.
    - destruct IH as (pre & E1 & E2). destruct (find_if _ it) as [p rest]. exists (c :: pre). cbn in *. by rewrite E1 at 1. }
  unfold extract_lws.
  assert (exists pre, l = pre ++ match l with
    | 13 :: 10 :: c :: rest => if is_whitespace_char c then rest else l | _ => l end) as [pre E].
  { destruct l as [|c0 l0]; [by exists []|]. destruct (Z.eq_dec c0 13) as [->|?]; [destruct l0 as [|c1 l1]; [by exists []|];
      destruct (Z.eq_dec c1 10) as [->|?]; [destruct l1 as [|c2 l2]; [by exists []|]|]|].
    - destruct (is_whitespace_char c2); [by exists [13; 10; c2]|by exists []].
    - exists []. repeat (match goal with |- _ = _ ++ match ?x with _ => _ end => destruct x end; try done).
    - exists []. repeat (match goal with |- _ = _ ++ match ?x with _ => _ end => destruct x end; try done). }
  destruct (H (match l with 13 :: 10 :: c :: rest => if is_whitespace_char c then rest else l | _ => l end))
    as (pre' & E1 & E2).
  exists (pre ++ pre'). split; [|done]. rewrite <-app_assoc, <-E1. exact E.
Qed.

Lemma all_lws_loop_stops fuel : forall l, exists pre, l = pre ++ all_lws_loop (S fuel) l /\
  forall c, head (all_lws_loop (S fuel) l) = Some c -> is_whitespace_char c = false.
Proof.
  induction fuel as [|fuel IH]; intros l; cbn [all_lws_loop];
    destruct (extract_lws_stops l) as (pre & E1 & E2).
  { exists pre. by destruct (negb _ && negb _). }
  destruct (negb _ && negb _); [|by exists pre].
  destruct (IH (extract_lws l)) as (pre' & E3 & E4). cbn [all_lws_loop] in E3, E4.
  exists (pre ++ pre'). rewrite <-app_assoc, <-E3. by split.
Qed.

Lemma split_blank l : exists w v, l = w ++ v /\ is_blank w /\
  forall c, head v = Some c -> is_whitespace_char c = false.
Proof.
  induction l as [|c l (w & v & -> & Hw & Hv)]; [exists [], []; split; [done|]; split; [constructor|done]|].
  destruct (is_whitespace_char c) eqn:E.
  - exists (c :: w), v. split; [done|]. split; [by constructor|done].
  - exists [], (c :: w ++ v). split; [done|]. split; [constructor|]. intros c' [= <-]. done.
Qed.

Lemma no_delimiter_suffix l1 l2 : no_delimiter (l1 ++ l2) -> no_delimiter l2.
Proof. induction l1 as [|c l1 IH]; [done|]. cbn [app]. rewrite no_delimiter_cons. intros [H _]. by apply IH. Qed.

(** The two iterators of [strip_lws] do not cross in a line. *)
Lemma strip_lws_line s : no_delimiter s -> exists v, strip_lws s = Some v.
Proof.
  intros Hs. unfold strip_lws. destruct (split_blank s) as (w & v & -> & Hw & Hv).
  rewrite all_lws_blank by (by eapply no_delimiter_suffix || done).
  destruct (is_nil v); [by eexists|].
  destruct (all_lws_loop_stops (length (reverse (w ++ v))) (reverse (w ++ v))) as (pre & E1 & E2).
  change (all_lws_loop (S (length (reverse (w ++ v)))) (reverse (w ++ v))) with (extract_all_lws (reverse (w ++ v))) in *.
  destruct (extract_all_lws (reverse (w ++ v))) as [|x t]; cbn [is_nil]; [by eexists|].
  destruct (Nat.leb_spec (length (w ++ v) - length v) (length (x :: t))) as [?|Hlt]; [by eexists|exfalso].
  rewrite length_app in Hlt. cbn [length] in Hlt.
  assert (w ++ v = reverse t ++ x :: reverse pre) as E.
  { rewrite <-(reverse_involutive (w ++ v)), E1, reverse_app, reverse_cons, <-app_assoc. done. }
  assert ((w ++ v) !! length (reverse t) = Some x) as Ex by (rewrite E; by apply list_lookup_middle).
  rewrite length_reverse, lookup_app_l in Ex by lia.
  pose proof (Forall_lookup_1 _ _ _ _ Hw Ex) as Hx. cbn beta in Hx. by rewrite (E2 x eq_refl) in Hx.
Qed.

Lemma search_found needle l pre rest : search Z.eqb needle l = Some (pre, rest) ->
  l = pre ++ rest /\ prefix_with Z.eqb needle rest = true.
Proof.
  revert pre. induction l as [|c l IH]; intros pre; cbn [search].
  - destruct (prefix_with _ needle []) eqn:E; [|done]. by intros [= <- <-].
  - destruct (prefix_with _ needle (c :: l)) eqn:E; [by intros [= <- <-]|].
    destruct (search _ needle l) as [[p r]|]; [|done]. cbn. intros [= <- <-].
    destruct (IH p eq_refl) as [-> ?]. done.
Qed.

Lemma search_delimiter_found l line rest : search Z.eqb header_delimiter l = Some (line, rest) ->
  exists rest', rest = header_delimiter ++ rest' /\ l = line ++ header_delimiter ++ rest' /\ no_delimiter line.
Proof.
  intros H. destruct (search_found _ _ _ _ H) as [-> Hp].
  destruct rest as [|c0 [|c1 rest]]; simpl in Hp; rewrite ?andb_false_r in Hp; try done.
  rewrite !andb_true_iff, !Z.eqb_eq in Hp. destruct Hp as (-> & -> & _). exists rest. split; [done|]. split; [done|].
  revert H. clear. induction line as [|c line IH]; [done|]. cbn [app search].
  destruct (prefix_with _ _ (c :: line ++ 13 :: 10 :: rest)) eqn:E; [done|].
  destruct (search _ _ (line ++ 13 :: 10 :: rest)) as [[p r]|] eqn:Es; [|done]. cbn. intros [= -> ->].
  apply no_delimiter_cons. split; [by apply IH|].
  destruct (prefix_with _ _ (c :: line)) eqn:Ep; [|done].
  apply (prefix_with_app _ _ _ (13 :: 10 :: rest)) in Ep. cbn [app] in Ep. congruence.
Qed.

Lemma line_step_defined line r : no_delimiter line -> line_step r line <> Undefined.
Proof.
  intros Hl. unfold line_step. destruct (is_nil (m_method r)).
  - unfold process. destruct (find_if _ line) as [m [|? l]]; [done|]. destruct (existsb _ _); [done|].
    by destruct (find_if _ l) as [u [|? v]].
  - unfold process_header. destruct (search _ _ line) as [[name rest]|] eqn:E; [|done].
    destruct (search_found _ _ _ _ E) as [-> _].
    destruct (strip_lws_line name) as [k ->]; [by eapply no_delimiter_prefix|].
    destruct (strip_lws_line (drop 1 rest)) as [v ->].
    { apply no_delimiter_suffix in Hl. rewrite <-(take_drop 1 rest) in Hl. by eapply no_delimiter_suffix. }
    cbn. unfold append_header. destruct (existsb _ k); [done|]. by destruct (is_nil (get_header k (base r))).
Qed.

(** What holds of a request between two reads. *)
Definition request_ok (r : request) : Prop :=
  0 <= m_header_bytes (base r) <= max_header_size /\
  0 <= m_body_bytes_needed (base r) <= m_body_bytes_max (base r) /\
  (m_ready r = true \/
   0 < m_body_bytes_needed (base r) /\ m_body_encoding (base r) = plain \/
   m_body_bytes_needed (base r) = 0 /\ exists b, m_buf r = Some b /\ no_delimiter b).

Lemma process_body_ok buf p : m_body_encoding p = plain -> 0 <= m_body_bytes_needed p ->
  exists n p', process_body buf p = Ok (n, p') /\ (n <= length buf)%nat /\
    0 <= m_body_bytes_needed p' <= m_body_bytes_needed p /\ m_body_bytes_max p' = m_body_bytes_max p /\
    m_body_encoding p' = plain /\ m_header_bytes p' = m_header_bytes p.
Proof.
  intros He Hn. unfold process_body. rewrite He. eexists _, _. split; [done|]. cbn. split_and!; try done; lia.
Qed.

Lemma strtoul_nonneg s : 0 <= strtoul s.
Proof.
  unfold strtoul. destruct (strto s) as [[neg m]|] eqn:E; [|lia].
  destruct (Z.leb_spec (2 ^ 32) m); [lia|]. destruct neg; [apply u32_bound|].
  unfold strto in E. destruct (take_sign _) as [n cs]. destruct (digits_prefix cs) as [|d ds] eqn:Ed; [done|].
  injection E as _ <-. rewrite <-Ed. clear. unfold undec.
  assert (forall a, 0 <= a -> 0 <= fold_left undec_step (digits_prefix cs) a) as H; [|by apply H].
  induction cs as [|c cs IH]; intros a Ha; simpl; [done|]. destruct (is_digit c) eqn:E; [|done]. simpl. apply IH.
  unfold undec_step, is_digit in *. lia.
Qed.

Lemma head_complete_ok buf rest r : (length rest <= length buf)%nat ->
  0 <= m_header_bytes (base r) <= max_header_size -> 0 <= m_body_bytes_needed (base r) <= m_body_bytes_max (base r) ->
  match head_complete buf rest r with
  | Ok (n, r') => (n <= length buf)%nat /\ request_ok r'
  | Thrown _ => True
  | Undefined => False
  end.
Proof.
  intros Hr Hb Hn. unfold head_complete. destruct (is_nil _ || is_nil _); [done|].
  unfold prepare_body. change (base (with_buf None r)) with (base r).
  destruct (negb _).
  - pose proof (strtoul_nonneg (get_header (str "Content-Length") (base r))) as Hs.
    destruct (Z.ltb_spec (m_body_bytes_max (base r)) (strtoul (get_header (str "Content-Length") (base r)))) as [?|Hmax]; [done|].
    cbn [mbind result_bind].
    set (p := set_body_state (m_body (base r)) (strtoul (get_header (str "Content-Length") (base r))) plain (base r)).
    destruct (process_body_ok (drop (length buf - length rest) buf) p eq_refl ltac:(done))
      as (n & p' & -> & H1 & H2 & H3 & H4 & H5). cbn [mbind result_bind].
    rewrite length_drop in H1. split; [lia|]. unfold body_ready.
    assert (m_body_bytes_needed p <= m_body_bytes_max p) by done.
    assert (m_header_bytes p = m_header_bytes (base r)) by done.
    destruct (Z.eqb_spec (m_body_bytes_needed p') 0); unfold request_ok; cbn [base m_ready with_ready with_base with_buf];
      rewrite H3, H5; (split; [lia|split; [lia|]]); [by left|right; left; split; [lia|done]].
  - split; [lia|]. cbn. split; [done|]. split; [done|]. by left.
Qed.

Lemma consume_loop_ok fuel : forall buf begin r, (length begin < fuel)%nat ->
  (forall pre line rest, begin = pre ++ line ++ header_delimiter ++ rest -> (length rest <= length buf)%nat) ->
  0 <= m_header_bytes (base r) <= max_header_size -> 0 <= m_body_bytes_needed (base r) <= m_body_bytes_max (base r) ->
  m_body_bytes_needed (base r) = 0 ->
  match consume_loop fuel buf begin r with
  | Ok (n, r') => (n <= length buf)%nat /\ request_ok r'
  | Thrown _ => True
  | Undefined => False
  end.
Proof.
  induction fuel as [|fuel IH]; intros buf begin r Hf Hsuf Hb Hn H0; [lia|]. cbn [consume_loop].
  destruct (search Z.eqb header_delimiter begin) as [[line rest]|] eqn:E.
  - destruct (Z.ltb_spec max_header_size (m_header_bytes (base r) + (Z.of_nat (length line) + 3))) as [?|Hb']; [done|].
    destruct (search_delimiter_found _ _ _ E) as (rest' & -> & -> & Hl).
    change (drop 2 (header_delimiter ++ rest')) with rest'.
    set (r1 := with_base _ r).
    assert (0 <= m_header_bytes (base r1) <= max_header_size) as Hb1 by (cbn; lia).
    destruct (is_nil line).
    + apply head_complete_ok; try done. by apply (Hsuf [] line rest').
    + change (if is_nil (m_method r1) then process line r1
              else p ← process_header line (base r1); Ok (with_base p r1)) with (line_step r1 line).
      pose proof (line_step_defined line r1 Hl) as Hd.
      destruct (line_step r1 line) as [r2| |] eqn:Es; [|done|done]. cbn [mbind result_bind].
      destruct (line_step_keeps _ _ _ Es) as (F1 & F2 & F3 & F4 & F5).
      apply IH; try (rewrite ?F1, ?F3, ?F5; done).
      * rewrite !length_app in Hf. simpl in Hf. lia.
      * intros pre line' rest'' ->. apply (Hsuf (line ++ header_delimiter ++ pre) line' rest''). by rewrite <-!app_assoc.
  - destruct (Z.ltb_spec max_header_size (m_header_bytes (base r) + (Z.of_nat (length begin) + 3))) as [?|Hb']; [done|].
    split; [done|]. unfold request_ok; cbn [base with_buf with_base m_header_bytes set_header_bytes m_body_bytes_needed m_body_bytes_max m_ready m_buf]. split; [lia|]. split; [done|]. right. right. split; [done|]. by exists begin.
Qed.

Lemma consume_ok buf r : request_ok r ->
  match consume buf r with
  | Ok (n, r') => (n <= length buf)%nat /\ request_ok r'
  | Thrown _ => True
  | Undefined => False
  end.
Proof.
  intros (Hb & Hn & Hs). unfold consume. destruct (m_ready r) eqn:Hr.
  { split; [lia|]. split; [done|]. split; [done|]. by left. }
  destruct (Z.ltb_spec 0 (m_body_bytes_needed (base r))) as [Hpos|Hz].
  - destruct Hs as [?|[[_ He]|[? _]]]; [done| |lia].
    destruct (process_body_ok buf (base r) He ltac:(lia)) as (n & p' & -> & H1 & H2 & H3 & H4 & H5). cbn [mbind result_bind].
    split; [done|]. unfold body_ready. destruct (Z.eqb_spec (m_body_bytes_needed p') 0); unfold request_ok;
      cbn [base m_ready with_ready with_base]; rewrite H3, H5; (split; [lia|split; [lia|]]);
      [by left|right; left; split; [lia|done]].
  - destruct Hs as [?|[[? _]|(Hz' & b & -> & Hnd)]]; [done|lia|]. cbn [defined mbind result_bind].
    apply consume_loop_ok; [lia| |done|done|done].
    intros pre line rest E. destruct (le_lt_dec (length rest) (length buf)) as [?|Hlt]; [done|exfalso].
    pose proof (f_equal length E) as El. rewrite !length_app in El. simpl in El.
    pose proof (f_equal (take (length b)) E) as Et. rewrite take_app_length in Et.
    rewrite (app_assoc line), (app_assoc pre) in Et.
    rewrite take_app_ge in Et by (rewrite !length_app; simpl; lia).
    rewrite Et in Hnd. rewrite <-!app_assoc in Hnd. apply no_delimiter_suffix, no_delimiter_suffix in Hnd. done.
Qed.

Lemma new_request_ok : request_ok new_request.
Proof. split; [done|]. split; [done|]. right. right. split; [done|]. by exists []. Qed.

Lemma consume_reads_defined reads : forall r, request_ok r -> consume_reads reads r <> Undefined.
Proof.
  induction reads as [|buf reads IH]; intros r Hr; cbn [consume_reads]; [done|].
  pose proof (consume_ok buf r Hr) as H. destruct (consume buf r) as [[n r1]|c|]; [|done|done].
  cbn [mbind result_bind]. destruct (m_ready r1); [done|]. apply IH. by destruct H.
Qed.

(** Whatever octets arrive, and however they are cut, reading a request has no
    undefined behaviour: the iterators that strip a header never cross, the
    buffer that is given back is never used again, no call takes more octets than
    it was given, and the counts of octets stay within their limits. *)
Theorem consume_safe reads : forall r, request_ok r ->
  match consume_reads reads r with
  | Ok (r', left_over, reads') => request_ok r' /\ exists buf, left_over = [] \/ suffix left_over buf /\ In buf reads
  | Thrown _ => True
  | Undefined => False
  end.
Proof.
  induction reads as [|buf reads IH]; intros r Hr; cbn [consume_reads].
  { split; [done|]. exists []. by left. }
  pose proof (consume_ok buf r Hr) as H. destruct (consume buf r) as [[n r1]|c|]; [|done|done].
  destruct H as [Hn H1]. cbn [mbind result_bind]. destruct (m_ready r1).
  - split; [done|]. exists buf. right. split; [|by left]. exists (take n buf). by rewrite take_drop.
  - specialize (IH r1 H1). destruct (consume_reads reads r1) as [[[r2 l2] reads2]|c|]; [|done|done].
    destruct IH as (H2 & buf2 & Hb). split; [done|]. exists buf2. destruct Hb as [?|[??]]; [by left|right].
    split; [done|by right].
Qed.

Lemma consume_safe_witness :
  match consume_reads [[0]; [13; 10]; [13]; [10]] new_request with
  | Ok (r', left_over, reads') => request_ok r' /\ exists buf, left_over = [] \/ suffix left_over buf /\ In buf [[0]; [13; 10]; [13]; [10]]
  | Thrown _ => True
  | Undefined => False
  end.
Proof. apply (consume_safe [[0]; [13; 10]; [13]; [10]] new_request new_request_ok). Defined.

(** The octets of a text one by one. *)
Definition singly (l : list Z) : list (list Z) := map (fun c => [c]) l.

Definition example_fields : list field :=
  [Field (str "Host") (str "rover:9002"); Field (str "Cookie") (str "a=1"); Field (str "cookie") (str "b=2")].
Definition example_lines : list (list Z) := request_lines (str "GET") (str "/") (str "HTTP/1.1") example_fields.

Lemma example_fields_good : Forall good_field example_fields.
Proof.
  unfold example_fields. repeat (apply Forall_cons; split); [..|constructor];
    (split; [discriminate|]; split; [by repeat constructor|]; split; [repeat constructor; unfold is_byte; lia|];
     split; [|repeat constructor; discriminate]; split; [repeat constructor; discriminate|]; by split; intros c [= <-]).
Qed.

Lemma request_roundtrip_witness :
  exists r left_over reads', consume_reads (singly (head_text example_lines ++ [129; 0])) new_request =
    Ok (r, left_over, reads') /\ left_over ++ concat reads' = [129; 0] /\
    describes (str "GET") (str "/") (str "HTTP/1.1") example_fields r.
Proof.
  apply (request_roundtrip (str "GET") (str "/") (str "HTTP/1.1") example_fields [129; 0]
    (singly (head_text example_lines ++ [129; 0]))).
  - discriminate.
  - by repeat constructor.
  - repeat constructor; unfold is_byte; lia.
  - by repeat constructor.
  - repeat constructor; discriminate.
  - repeat constructor; discriminate.
  - exact example_fields_good.
  - reflexivity.
  - vm_compute. reflexivity.
  - vm_compute. discriminate.
Defined.

Lemma request_whatever_the_cut_witness :
  reads_result [take 9 (head_text example_lines); drop 9 (head_text example_lines)] new_request []
    (request_of_lines example_lines new_request).
Proof.
  apply (request_whatever_the_cut example_lines [] [take 9 (head_text example_lines); drop 9 (head_text example_lines)]).
  - apply request_lines_are_lines; [discriminate|by repeat constructor|repeat constructor; unfold is_byte; lia|
      repeat constructor; discriminate|repeat constructor; discriminate|exact example_fields_good].
  - vm_compute. reflexivity.
  - vm_compute. discriminate.
  - vm_compute. intros r [= <-]. reflexivity.
Defined.

(** ** What the limit counts

    A read that ends inside the head costs three octets of the limit of 16000, so
    that a request of some four thousand octets that is taken in one read is
    refused, with status 431, when its octets arrive one at a time. *)
Definition long_request : list Z :=
  head_text (request_lines (str "GET") (str "/") (str "HTTP/1.1")
    (Field (str "Host") (str "rover") :: replicate 40 (Field (str "Cookie") (replicate 90 97)))).

Theorem limit_depends_on_the_cut :
  (length long_request < 5000)%nat /\
  (match consume_reads [long_request] new_request with Ok (r, _, _) => m_ready r | _ => false end) = true /\
  consume_reads (singly long_request) new_request = Thrown request_header_fields_too_large.
Proof. split; [vm_compute; lia|]. split; vm_compute; reflexivity. Qed.
