(* ===== verification/Handshake.v ===== *)
(** * The opening handshake: what a request asks for and what answers it

    The addresses (uri.hpp), the tests of a request (processors/processor.hpp), and
    the handshakes of the protocol versions (processors/hybi13.hpp, hybi08.hpp,
    hybi07.hpp, hybi00.hpp), with both ends of the handshake of version 13. No
    extension is implemented (extensions/permessage_deflate/disabled.hpp). *)
From S2P Require Import Prelude Text Sha1 Base64 Md5 Http WsFrame Hybi13 WsConnection.
Import http hybi13.

(** ** uri.hpp *)
Definition uri_default_port : Z := 80.
Definition uri_default_secure_port : Z := 443.
Record uri := Uri {
  u_scheme : list Z;
  u_host : list Z;
  u_resource : list Z;
  u_port : Z;
  u_secure : bool;
  u_valid : bool }.

(** [atoi], that is [strtol] with a [long] of 32 bits. *)
Definition atoi (s : list Z) : Z :=
  match strto s with
  | None => 0
  | Some (negative, m) =>
      let v := if (negative : bool) then - m else m in
      if v <? -2147483648 then -2147483648 else if 2147483647 <? v then 2147483647 else v
  end.

(** The port, and whether there was an error. *)
Definition get_port_from_string (secure : bool) (port : list Z) : Z * option endpoint_error :=
  if is_nil port then (if secure then uri_default_secure_port else uri_default_port, None)
  else
    let t_port := u32 (atoi port) in
    let ec := if 65535 <? t_port then Some invalid_port else None in
    let ec := if t_port =? 0 then Some invalid_port else ec in
    (u16 t_port, ec).

Definition resource_or_root (resource : list Z) : list Z := if is_nil resource then str "/" else resource.
Definition secure_scheme (scheme : list Z) : bool := bool_decide (scheme = str "wss") || bool_decide (scheme = str "https").

(** The constructors with a scheme. *)
Definition uri_scheme (scheme host resource : list Z) : uri :=
  Uri scheme host (resource_or_root resource)
    (if secure_scheme scheme then uri_default_secure_port else uri_default_port) (secure_scheme scheme) true.
Definition uri_scheme_port (scheme host port resource : list Z) : uri :=
  let '(p, ec) := get_port_from_string (secure_scheme scheme) port in
  Uri scheme host (resource_or_root resource) p (secure_scheme scheme) (match ec with None => true | Some _ => false end).
(** The constructors with a flag. *)
Definition uri_secure (secure : bool) (host resource : list Z) : uri :=
  Uri (str (if secure then "wss" else "ws")) host (resource_or_root resource)
    (if secure then uri_default_secure_port else uri_default_port) secure true.
Definition uri_secure_port (secure : bool) (host port resource : list Z) : uri :=
  let '(p, ec) := get_port_from_string secure port in
  Uri (str (if secure then "wss" else "ws")) host (resource_or_root resource) p secure
    (match ec with None => true | Some _ => false end).

Definition default_port (u : uri) : Z := if u_secure u then uri_default_secure_port else uri_default_port.
Definition get_host_port (u : uri) : list Z :=
  if u_port u =? default_port u then u_host u else u_host u ++ str ":" ++ dec (u_port u).
Definition uri_str (u : uri) : list Z :=
  u_scheme u ++ str "://" ++ u_host u ++
  (if negb (u_port u =? default_port u) then str ":" ++ dec (u_port u) else []) ++ u_resource u.

(** ** processors/base.hpp *)
Definition upgrade_token : list Z := str "websocket".
Definition connection_token : list Z := str "Upgrade".
Definition handshake_guid : list Z := str "258EAFA5-E914-47DA-95CA-C5AB0DC85B11".

(** ** processors/processor.hpp *)
Definition is_websocket_handshake (r : request) : bool :=
  ci_find_substr (get_header (str "Upgrade") (base r)) upgrade_token &&
  ci_find_substr (get_header (str "Connection") (base r)) connection_token.

Definition get_websocket_version (r : request) : Z :=
  if negb (m_ready r) then -2 else
  let header := get_header (str "Sec-WebSocket-Version") (base r) in
  if is_nil header then 0 else
  match extract_int (stringstream header) with
  | (Some version, ss) => if failbit ss then -1 else version
  | (None, _) => -1
  end.

(** [rfind] of one character: the position of the last one. *)
Fixpoint rfind (c : Z) (s : list Z) : option nat :=
  match s with
  | [] => None
  | c' :: s' => match rfind c s' with
                | Some i => Some (S i)
                | None => if c' =? c then Some O else None
                end
  end.
(** Whether the host has a port: the position of the colon. *)
Definition port_colon (h : list Z) : option nat :=
  match rfind 58 h, rfind 93 h with
  | None, _ => None
  | Some last_colon, Some last_sbrace => if (last_colon <? last_sbrace)%nat then None else Some last_colon
  | Some last_colon, None => Some last_colon
  end.
Definition get_uri_from_host (r : request) (scheme : list Z) : uri :=
  let h := get_header (str "Host") (base r) in
  match port_colon h with
  | None => uri_scheme scheme h (m_uri r)
  | Some last_colon => uri_scheme_port scheme (take last_colon h) (drop (S last_colon) h) (m_uri r)
  end.

(** ** processors/hybi13.hpp *)
Definition enable_extensions : bool := true.
Definition deflate_implemented : bool := false.

(** The error of the negotiation and the extensions it agreed on; with no
    extension implemented the list that was parsed is not looked at. *)
Definition negotiate_extensions_helper (header : parser) : option processor_errors * list Z :=
  if negb enable_extensions then (Some extensions_disabled, [])
  else
    let '(error, p) := get_header_as_plist (str "Sec-WebSocket-Extensions") header in
    if (error : bool) then (Some extension_parse_error, []) else (None, []).

Definition hybi13_validate_handshake (r : request) : option processor_errors :=
  if negb (bool_decide (m_method r = str "GET")) then Some invalid_http_method
  else if negb (bool_decide (m_version (base r) = str "HTTP/1.1")) then Some invalid_http_version
  else if is_nil (get_header (str "Sec-WebSocket-Key") (base r)) then Some missing_required_header
  else None.

(** [w] is what the buffer of the hash routine holds before it is written. *)
Definition process_handshake_key (w : list Z) (key : list Z) : list Z :=
  base64_encode (calc w (key ++ handshake_guid)).

Definition response_append (key val : list Z) (r : response) : result response :=
  p ← append_header key val (rbase r); Ok (with_rbase p r).
Definition response_replace (key val : list Z) (r : response) : response :=
  with_rbase (replace_header key val (rbase r)) r.

Definition hybi13_process_handshake (w : list Z) (req : request) (subprotocol : list Z) (res : response) :
    result (option processor_errors * response) :=
  let server_key := process_handshake_key w (get_header (str "Sec-WebSocket-Key") (base req)) in
  let res := response_replace (str "Sec-WebSocket-Accept") server_key res in
  res ← response_append (str "Upgrade") upgrade_token res;
  res ← response_append (str "Connection") connection_token res;
  let res := if is_nil subprotocol then res else response_replace (str "Sec-WebSocket-Protocol") subprotocol res in
  Ok (None, res).

(** The names of the parameters; the same function in hybi00.hpp. *)
Definition extract_subprotocols (req : request) (subprotocol_list : list (list Z)) :
    option processor_errors * list (list Z) :=
  if negb (is_nil (get_header (str "Sec-WebSocket-Protocol") (base req))) then
    let '(error, p) := get_header_as_plist (str "Sec-WebSocket-Protocol") (base req) in
    if (error : bool) then (Some subprotocol_parse_error, subprotocol_list)
    else (None, subprotocol_list ++ map fst p)
  else (None, subprotocol_list).

Definition hybi13_get_uri (secure : bool) (r : request) : uri :=
  get_uri_from_host r (str (if secure then "wss" else "ws")).

(** *** The client of version 13 *)

(** [raw_key] are the sixteen octets of the generator. *)
Definition client_handshake_request (raw_key : list Z) (u : uri) (subprotocols : list (list Z)) (req : request) :
    result request :=
  let req := Request (base req) (m_buf req) (str "GET") (u_resource u) (m_ready req) in
  let p := set_version (str "HTTP/1.1") (base req) in
  p ← append_header (str "Upgrade") (str "websocket") p;
  p ← append_header (str "Connection") (str "Upgrade") p;
  let p := replace_header (str "Sec-WebSocket-Version") (str "13") p in
  let p := replace_header (str "Host") (get_host_port u) p in
  let p := match subprotocols with
           | [] => p
           | s :: rest => replace_header (str "Sec-WebSocket-Protocol") (s ++ concat (map (fun s => str ", " ++ s) rest)) p
           end in
  let p := replace_header (str "Sec-WebSocket-Key") (base64_encode raw_key) p in
  Ok (with_base p req).

(** The response the client accepts: its status and its headers. *)
Definition validate_server_handshake_response (w : list Z) (req : request) (status_code : Z) (res : parser) :
    option processor_errors :=
  if negb (status_code =? switching_protocols) then Some invalid_http_status
  else if negb (ci_find_substr (get_header (str "Upgrade") res) upgrade_token) then Some missing_required_header
  else if negb (ci_find_substr (get_header (str "Connection") res) connection_token) then Some missing_required_header
  else
    let key := process_handshake_key w (get_header (str "Sec-WebSocket-Key") (base req)) in
    if negb (bool_decide (key = get_header (str "Sec-WebSocket-Accept") res)) then Some missing_required_header
    else None.

(** ** processors/hybi00.hpp *)
Definition hybi00_validate_handshake (r : request) : option processor_errors :=
  if negb (bool_decide (m_method r = str "GET")) then Some invalid_http_method
  else if negb (bool_decide (m_version (base r) = str "HTTP/1.1")) then Some invalid_http_version
  else if is_nil (get_header (str "Sec-WebSocket-Key1") (base r)) ||
          is_nil (get_header (str "Sec-WebSocket-Key2") (base r)) ||
          is_nil (get_header (str "Sec-WebSocket-Key3") (base r)) then Some missing_required_header
  else None.

Section machine.
Context `{Machine}.

(** bits/byteswap.h, by way of netinet/in.h. *)
Definition __bswap_32 (x : Z) : Z :=
  u32 (Z.lor (Z.lor (Z.lor (Z.shiftr (Z.land x 0xff000000) 24) (Z.shiftr (Z.land x 0x00ff0000) 8))
                    (Z.shiftl (Z.land x 0x0000ff00) 8)) (Z.shiftl (Z.land x 0x000000ff) 24)).
Definition htonl (x : Z) : Z := if little_endian then __bswap_32 x else x.

(** The digits of a key over its spaces, as four octets. *)
Definition decode_client_key (key : list Z) : list Z :=
  let spaces := u32 (Z.of_nat (length (filter (fun c => c = 32) key))) in
  let digits := filter (fun c => 48 <= c <= 57) key in
  let num := strtoul digits in
  if (0 <? spaces) && (0 <? num) then union_c 4 (htonl (num / spaces)) else replicate 4 0.

Definition hybi00_get_uri (secure : bool) (r : request) : uri :=
  let h := get_header (str "Host") (base r) in
  match port_colon h with
  | None => uri_secure secure h (m_uri r)
  | Some last_colon => uri_secure_port secure (take last_colon h) (drop (S last_colon) h) (m_uri r)
  end.

(** [key_final] is not initialised; [buf] is the buffer of the hash routine. *)
Definition hybi00_process_handshake (secure : bool) (key_final buf : list Z) (req : request) (subprotocol : list Z)
    (res : response) : result (option processor_errors * response) :=
  let key3 := take 8 (get_header (str "Sec-WebSocket-Key3") (base req)) in
  let key_final := copy_at 0 (decode_client_key (get_header (str "Sec-WebSocket-Key1") (base req))) key_final in
  let key_final := copy_at 4 (decode_client_key (get_header (str "Sec-WebSocket-Key2") (base req))) key_final in
  let key_final := copy_at 8 key3 key_final in
  res ← response_append (str "Sec-WebSocket-Key3") (md5_hash_string buf key_final) res;
  res ← response_append (str "Upgrade") (str "WebSocket") res;
  res ← response_append (str "Connection") (str "Upgrade") res;
  res ← (if is_nil (get_header (str "Sec-WebSocket-Origin") (rbase res))
         then response_append (str "Sec-WebSocket-Origin") (get_header (str "Origin") (base req)) res else Ok res);
  res ← (if is_nil (get_header (str "Sec-WebSocket-Location") (rbase res))
         then response_append (str "Sec-WebSocket-Location") (uri_str (hybi00_get_uri secure req)) res else Ok res);
  let res := if is_nil subprotocol then res else response_replace (str "Sec-WebSocket-Protocol") subprotocol res in
  Ok (None, res).

Definition hybi00_get_raw (res : response) : list Z :=
  response_raw (with_rbase (remove_header (str "Sec-WebSocket-Key3") (rbase res)) res) ++
  get_header (str "Sec-WebSocket-Key3") (rbase res).

(** ** The processors of a connection: [get_processor]

    hybi07.hpp and hybi08.hpp inherit the handshake of hybi13.hpp. *)
Inductive version := V0 | V7 | V8 | V13.
Definition get_processor (v : Z) : option version :=
  if v =? 0 then Some V0 else if v =? 7 then Some V7 else if v =? 8 then Some V8
  else if v =? 13 then Some V13 else None.
End machine.
