(* ===== verification/Opening.v ===== *)
(** * A connection before it is open: [websocketpp/impl/connection_impl.hpp]

    From [start] to the open handler on the server: the reads of the request, the
    choice of a processor, the response and the handshake timer. The members that
    the open connection uses too are those of [WsConnection.connection], whose
    processor stands for a null pointer until one is chosen.

    The program sets no http handler and no validate handler, and nobody selects a
    subprotocol. The buffers of the hash routines, which are not initialised, are
    parameters. The handlers log and change nothing else. *)
From S2P Require Import Prelude Text Sha1 Base64 Md5 Http WsFrame Hybi13 WsConnection Handshake.
Import http hybi13 WsConnection.

(** ** Configuration: config/core.hpp, version.hpp *)
Definition connection_read_buffer_size : Z := 16384.
Definition timeout_open_handshake : Z := 5000.
Definition user_agent : list Z := str "WebSocket++/0.8.2".
Definition versions_supported : list Z := [0; 7; 8; 13].

Record opening := Opening {
  con : connection;
  m_request : request;
  m_response : response;
  m_processor_version : option version;      (* [None]: [m_processor] is null *)
  m_uri_ptr : option uri;
  m_requested_subprotocols : list (list Z);
  m_subprotocol : list Z;
  m_buf_rest : list Z }.                     (* [m_buf] up to [m_buf_cursor] *)

Definition set_con (c : connection) (o : opening) : opening :=
  Opening c (m_request o) (m_response o) (m_processor_version o) (m_uri_ptr o) (m_requested_subprotocols o)
    (m_subprotocol o) (m_buf_rest o).
Definition set_request (r : request) (o : opening) : opening :=
  Opening (con o) r (m_response o) (m_processor_version o) (m_uri_ptr o) (m_requested_subprotocols o)
    (m_subprotocol o) (m_buf_rest o).
Definition set_response (r : response) (o : opening) : opening :=
  Opening (con o) (m_request o) r (m_processor_version o) (m_uri_ptr o) (m_requested_subprotocols o)
    (m_subprotocol o) (m_buf_rest o).
Definition set_version_of (v : option version) (o : opening) : opening :=
  Opening (con o) (m_request o) (m_response o) v (m_uri_ptr o) (m_requested_subprotocols o)
    (m_subprotocol o) (m_buf_rest o).
Definition set_uri (u : option uri) (o : opening) : opening :=
  Opening (con o) (m_request o) (m_response o) (m_processor_version o) u (m_requested_subprotocols o)
    (m_subprotocol o) (m_buf_rest o).
Definition set_subprotocols (l : list (list Z)) (o : opening) : opening :=
  Opening (con o) (m_request o) (m_response o) (m_processor_version o) (m_uri_ptr o) l
    (m_subprotocol o) (m_buf_rest o).
Definition set_buf_rest (b : list Z) (o : opening) : opening :=
  Opening (con o) (m_request o) (m_response o) (m_processor_version o) (m_uri_ptr o) (m_requested_subprotocols o)
    (m_subprotocol o) b.
Definition set_istate (i : istate) (c : connection) : connection :=
  Connection (m_state c) i (m_processor c) (m_is_server c) (m_send_queue c)
    (m_send_buffer_size c) (m_send_buffer c) (m_current_msgs c) (m_write_flag c) (m_read_flag c)
    (m_local_close c) (m_remote_close c) (m_ec c) (m_was_clean c) (m_handshake_timer c).

(** The constructor. *)
Definition new_opening : opening :=
  Opening (Connection connecting USER_INIT (new_processor true max_message_size) true
             [] 0 [] [] false true (close.abnormal_close, []) (close.abnormal_close, []) None false false)
    new_request new_response None None [] [] [].

(** What a handler asks of the transport and of the program. *)
Inductive oaction :=
| InitTransport                                (* transport_con_type::init *)
| ReadHandshake (num_bytes : nat)              (* async_read_at_least *)
| WriteHandshake (octets : list Z)             (* async_write *)
| SetOpenTimer (duration : Z)
| CancelOpenTimer
| ShutdownTransport (tstat : terminate_status) (* async_shutdown *)
| CallOpen                                     (* m_open_handler *)
| CallFail                                     (* m_fail_handler *)
| CallClose                                    (* m_close_handler *)
| HandleReadFrame (buf : list Z).              (* handle_read_frame, with the octets behind the request *)

(** A handler returns, lets an exception escape, or is undefined. *)
Definition ohandler (A : Type) : Type := opening -> result (A * opening * list oaction).
#[global] Instance ohandler_ret : MRet ohandler := fun A a o => Ok (a, o, []).
#[global] Instance ohandler_bind : MBind ohandler := fun A B k m o =>
  match m o with
  | Ok (a, o', l1) =>
      match k a o' with
      | Ok (b, o'', l2) => Ok (b, o'', l1 ++ l2)
      | Thrown c => Thrown c
      | Undefined => Undefined
      end
  | Thrown c => Thrown c
  | Undefined => Undefined
  end.
Definition self : ohandler opening := fun o => Ok (o, o, []).
Definition change (f : opening -> opening) : ohandler unit := fun o => Ok (tt, f o, []).
Definition change_con (f : connection -> connection) : ohandler unit := change (fun o => set_con (f (con o)) o).
Definition ask (a : oaction) : ohandler unit := fun o => Ok (tt, o, [a]).
Definition lift {A} (m : result A) : ohandler A := fun o => a ← m; Ok (a, o, []).

Section opening.
Context `{Machine}.

(** The buffers of [sha1::calc], of [hybi00::process_handshake] and of
    [md5_hash_string]. *)
Context (w key_final buf64 : list Z).

(** ** The end of a connection *)
Definition oterminate (ec : option error_code) : ohandler unit :=
  o ← self;
  _ ← (if m_handshake_timer (con o)
       then _ ← ask CancelOpenTimer; change_con (set_handshake_timer false) else mret tt);
  _ ← (match ec with
       | Some e => change_con (fun c => set_local_close (close.abnormal_close, message_of e) (set_ec (Some e) c))
       | None => mret tt
       end);
  if bool_decide (m_state (con o) = connecting) then
    _ ← change_con (set_state closed); ask (ShutdownTransport t_failed)
  else if negb (bool_decide (m_state (con o) = closed)) then
    _ ← change_con (set_state closed); ask (ShutdownTransport t_closed)
  else mret tt.

Definition ohandle_terminate (tstat : terminate_status) (ec : option error_code) : ohandler unit :=
  match tstat with
  | t_failed =>
      o ← self;
      if negb (bool_decide (m_ec (con o) = Some (EndpointError http_connection_ended))) then ask CallFail else mret tt
  | t_closed => ask CallClose
  | t_unknown => mret tt
  end.

Definition handle_open_handshake_timeout (ec : option error_code) : ohandler unit :=
  match ec with
  | Some _ => mret tt
  | None => oterminate (Some (EndpointError open_handshake_timeout))
  end.

(** ** The response *)
Definition get_raw (v : version) (r : response) : list Z :=
  match v with V0 => hybi00_get_raw r | _ => response_raw r end.

Definition write_http_response (ec : option error_code) : ohandler unit :=
  if bool_decide (ec = Some (EndpointError http_connection_ended)) then mret tt else
  o ← self;
  _ ← (if m_status_code (m_response o) =? uninitialized then
         _ ← change (fun o => set_response (set_status_code internal_server_error (m_response o)) o);
         change_con (set_ec (Some (EndpointError ep_general)))
       else change_con (set_ec ec));
  _ ← change (fun o =>
         let r := m_response o in
         let r := with_rbase (set_version (str "HTTP/1.1") (rbase r)) r in
         set_response (if is_nil (get_header (str "Server") (rbase r))
                       then response_replace (str "Server") user_agent r else r) o);
  o ← self;
  ask (WriteHandshake (match m_processor_version o with
                       | Some v => get_raw v (m_response o)
                       | None => response_raw (m_response o)
                       end)).

Definition write_http_response_error (ec : option error_code) : ohandler unit :=
  o ← self;
  if negb (bool_decide (m_internal_state (con o) = READ_HTTP_REQUEST)) then
    oterminate (Some (EndpointError invalid_state))
  else
    _ ← change_con (set_istate PROCESS_HTTP_REQUEST);
    write_http_response ec.

Definition handle_write_http_response (ec : option error_code) : ohandler unit :=
  o ← self;
  let '(ignore, ecm) :=
    match ec with
    | Some _ => (false, ec)
    | None =>
        match m_state (con o) with
        | connecting => (false, if bool_decide (m_internal_state (con o) = PROCESS_HTTP_REQUEST) then None
                                else Some (EndpointError invalid_state))
        | closed => (true, None)
        | _ => (false, Some (EndpointError invalid_state))
        end
    end in
  if (ignore : bool) then mret tt else
  match ecm with
  | Some e =>
      if bool_decide (e = TransportError eof) && bool_decide (m_state (con o) = closed) then mret tt
      else oterminate ecm
  | None =>
      _ ← (if m_handshake_timer (con o)
           then _ ← ask CancelOpenTimer; change_con (set_handshake_timer false) else mret tt);
      if negb (m_status_code (m_response o) =? switching_protocols) then oterminate (m_ec (con o))
      else
        _ ← change_con (fun c => set_state open (set_istate PROCESS_CONNECTION c));
        _ ← ask CallOpen;
        ask (HandleReadFrame (m_buf_rest o))
  end.

(** ** The request *)

(** A processor for the version that is asked for: the error, if there is one. *)
Definition initialize_processor : ohandler (option error_code) :=
  o ← self;
  if negb (is_websocket_handshake (m_request o)) then mret None else
  let v := get_websocket_version (m_request o) in
  if v <? 0 then
    _ ← change (fun o => set_response (set_status_code http.bad_request (m_response o)) o);
    mret (Some (EndpointError invalid_version))
  else
    _ ← change (set_version_of (get_processor v));
    match get_processor v with
    | Some _ => mret None
    | None =>
        _ ← change (fun o => set_response (response_replace (str "Sec-WebSocket-Version") (str "0,7,8,13")
                               (set_status_code http.bad_request (m_response o))) o);
        mret (Some (EndpointError unsupported_version))
    end.

(** The member functions of [m_processor]. *)
Definition validate_handshake (v : version) (r : request) : option processor_errors :=
  match v with V0 => hybi00_validate_handshake r | _ => hybi13_validate_handshake r end.
Definition negotiate_extensions (v : version) (r : request) : option processor_errors * list Z :=
  match v with V0 => (None, []) | _ => negotiate_extensions_helper (base r) end.
Definition get_uri (v : version) (r : request) : uri :=
  match v with V0 => hybi00_get_uri false r | _ => hybi13_get_uri false r end.
Definition process_handshake (v : version) (req : request) (subprotocol : list Z) (res : response) :
    result (option processor_errors * response) :=
  match v with
  | V0 => hybi00_process_handshake false key_final buf64 req subprotocol res
  | _ => hybi13_process_handshake w req subprotocol res
  end.

(** A response without the switch of protocols. *)
Definition refuse (code : Z) (ec : error_code) : ohandler (option error_code) :=
  _ ← change (fun o => set_response (set_status_code code (m_response o)) o); mret (Some ec).

Definition process_handshake_request : ohandler (option error_code) :=
  o ← self;
  let r := m_request o in
  if negb (is_websocket_handshake r) then
    let u := get_uri_from_host r (str "http") in
    _ ← change (set_uri (Some u));
    if negb (u_valid u) then refuse http.bad_request (EndpointError invalid_uri)
    else refuse http.upgrade_required (EndpointError ep_upgrade_required)
  else
    v ← lift (http.defined (m_processor_version o));
    match validate_handshake v r with
    | Some ec => refuse http.bad_request (ProcessorError ec)
    | None =>
        let neg_results := negotiate_extensions v r in
        match neg_results.1 with
        | Some extension_parse_error => refuse http.bad_request (ProcessorError extension_parse_error)
        | _ =>
            _ ← change (fun o =>
                   match neg_results.1 with
                   | None => if is_nil neg_results.2 then o
                             else set_response (response_replace (str "Sec-WebSocket-Extensions") neg_results.2
                                                  (m_response o)) o
                   | Some _ => o
                   end);
            let u := get_uri v r in
            _ ← change (set_uri (Some u));
            if negb (u_valid u) then refuse http.bad_request (EndpointError invalid_uri)
            else
              _ ← change (fun o => set_subprotocols (extract_subprotocols r (m_requested_subprotocols o)).2 o);
              o ← self;
              '(ec, res) ← lift (process_handshake v r (m_subprotocol o)
                                   (set_status_code switching_protocols (m_response o)));
              _ ← change (set_response res);
              match ec with
              | Some ec => refuse internal_server_error (ProcessorError ec)
              | None => mret None
              end
        end
    end.

(** The third key of the oldest version follows its request. *)
Definition read_key3 (buf : list Z) (bytes_processed : nat) : ohandler (option nat) :=
  if (8 <=? length buf - bytes_processed)%nat then
    _ ← change (fun o => set_request (with_base (replace_header (str "Sec-WebSocket-Key3")
                           (take 8 (drop bytes_processed buf)) (base (m_request o))) (m_request o)) o);
    mret (Some (bytes_processed + 8)%nat)
  else
    _ ← change (fun o => set_response (set_status_code internal_server_error (m_response o)) o);
    _ ← write_http_response_error (Some (ProcessorError short_key3));
    mret None.

(** The request is complete. *)
Definition request_ready (buf : list Z) (bytes_processed : nat) : ohandler unit :=
  processor_ec ← initialize_processor;
  match processor_ec with
  | Some _ => write_http_response_error processor_ec
  | None =>
      o ← self;
      go ← (match m_processor_version o with
            | Some V0 => read_key3 buf bytes_processed
            | _ => mret (Some bytes_processed)
            end);
      match (go : option nat) with
      | None => mret tt
      | Some bytes_processed =>
          _ ← change (set_buf_rest (drop bytes_processed buf));
          _ ← change_con (set_istate PROCESS_HTTP_REQUEST);
          handshake_ec ← process_handshake_request;
          write_http_response handshake_ec
      end
  end.

Definition handle_read_handshake (ec : option error_code) (buf : list Z) : ohandler unit :=
  o ← self;
  let '(ignore, ecm) :=
    match ec with
    | Some _ => (false, ec)
    | None =>
        match m_state (con o) with
        | connecting => (false, if bool_decide (m_internal_state (con o) = READ_HTTP_REQUEST) then None
                                else Some (EndpointError invalid_state))
        | closed => (true, None)
        | _ => (false, Some (EndpointError invalid_state))
        end
    end in
  if (ignore : bool) then mret tt else
  match ecm with
  | Some e =>
      if bool_decide (e = TransportError eof) && bool_decide (m_state (con o) = closed) then mret tt
      else oterminate ecm
  | None =>
      if connection_read_buffer_size <? Z.of_nat (length buf) then oterminate (Some (EndpointError ep_general))
      else
        match http.consume buf (m_request o) with
        | Thrown code =>
            _ ← change (fun o => set_response (set_status code [] (m_response o)) o);
            write_http_response_error (Some (EndpointError http_parse_error))
        | Undefined => lift Undefined
        | Ok (bytes_processed, r) =>
            _ ← change (set_request r);
            if (length buf <? bytes_processed)%nat then oterminate (Some (EndpointError ep_general))
            else if m_ready r then request_ready buf bytes_processed
            else ask (ReadHandshake 1)
        end
  end.

(** ** The beginning *)
Definition read_handshake (num_bytes : nat) : ohandler unit :=
  _ ← (if 0 <? timeout_open_handshake
       then _ ← ask (SetOpenTimer timeout_open_handshake); change_con (set_handshake_timer true) else mret tt);
  ask (ReadHandshake num_bytes).

(** Of a server. *)
Definition handle_transport_init (ec : option error_code) : ohandler unit :=
  o ← self;
  let ecm := if bool_decide (m_internal_state (con o) = TRANSPORT_INIT) then ec
             else Some (EndpointError invalid_state) in
  match ecm with
  | Some _ => oterminate ecm
  | None => _ ← change_con (set_istate READ_HTTP_REQUEST); read_handshake 1
  end.

Definition start : ohandler unit :=
  o ← self;
  if negb (bool_decide (m_internal_state (con o) = USER_INIT)) then oterminate (Some (EndpointError invalid_state))
  else _ ← change_con (set_istate TRANSPORT_INIT); ask InitTransport.

End opening.

(** ** An example: RFC 6455, section 1.3 *)
Definition reading_opening : opening :=
  set_con (set_handshake_timer true (set_istate READ_HTTP_REQUEST (con new_opening))) new_opening.

Definition rfc_request : list Z :=
  str "GET /chat HTTP/1.1" ++ header_delimiter ++
  str "Host: server.example.com" ++ header_delimiter ++
  str "Upgrade: websocket" ++ header_delimiter ++
  str "Connection: Upgrade" ++ header_delimiter ++
  str "Sec-WebSocket-Key: dGhlIHNhbXBsZSBub25jZQ==" ++ header_delimiter ++
  str "Origin: http://example.com" ++ header_delimiter ++
  str "Sec-WebSocket-Protocol: chat, superchat" ++ header_delimiter ++
  str "Sec-WebSocket-Version: 13" ++ header_delimiter ++ header_delimiter.

Example rfc_response :
  match @handle_read_handshake armhf (replicate 80 0) [] [] None (rfc_request ++ [129]) reading_opening with
  | Ok (_, o, l) =>
      l = [WriteHandshake (
        str "HTTP/1.1 101 Switching Protocols" ++ header_delimiter ++
        str "Connection: Upgrade" ++ header_delimiter ++
        str "Sec-WebSocket-Accept: s3pPLMBiTxaQ9kYGzzhZRbK+xOo=" ++ header_delimiter ++
        str "Server: WebSocket++/0.8.2" ++ header_delimiter ++
        str "Upgrade: websocket" ++ header_delimiter ++ header_delimiter)] /\ m_buf_rest o = [129]
  | _ => False
  end.
Proof. vm_compute. auto. Qed.
