(* ===== verification/OpeningProps.v ===== *)
(** * The opening handshake works

    A request cut anywhere opens the connection when it asks for what the server
    offers: the response carries the key that RFC 6455 prescribes, over the
    reference definitions of SHA-1 and base64, and the octets behind the request
    go to the frames. Every other request is refused. *)
From S2P Require Import Prelude Text Sha1 Sha1Correct Base64 Md5 Http HttpProps WsFrame Hybi13 WsConnection Handshake Opening.
Import http hybi13 WsConnection.

(** ** RFC 6455, section 4.2.2 *)
Definition accept_key (key : list Z) : list Z := base64 (sha1 (key ++ handshake_guid)).

Definition opening_response (key : list Z) : list Z :=
  str "HTTP/1.1 101 Switching Protocols" ++ header_delimiter ++
  str "Connection: Upgrade" ++ header_delimiter ++
  str "Sec-WebSocket-Accept: " ++ accept_key key ++ header_delimiter ++
  str "Server: " ++ user_agent ++ header_delimiter ++
  str "Upgrade: websocket" ++ header_delimiter ++ header_delimiter.

(** A response that refuses; the status line of a parse error has no text. *)
Definition refusal_response (code : Z) (msg : list Z) (headers : header_list) : list Z :=
  str "HTTP/1.1 " ++ dec_signed code ++ [32] ++ msg ++ header_delimiter ++
  concat (map (fun h => h.1 ++ str ": " ++ h.2 ++ header_delimiter) headers) ++ header_delimiter.
Definition server_header : list Z * list Z := (str "Server", user_agent).

(** What a request must say to be accepted. *)
Definition wants_websocket (r : request) : Prop :=
  ci_find_substr (get_header (str "Upgrade") (base r)) (str "websocket") = true /\
  ci_find_substr (get_header (str "Connection") (base r)) (str "upgrade") = true.
Definition accepts (r : request) : Prop :=
  wants_websocket r /\
  (get_websocket_version r = 7 \/ get_websocket_version r = 8 \/ get_websocket_version r = 13) /\
  m_method r = str "GET" /\ m_version (base r) = str "HTTP/1.1" /\
  get_header (str "Sec-WebSocket-Key") (base r) <> [] /\
  (get_header_as_plist (str "Sec-WebSocket-Extensions") (base r)).1 = false /\
  u_valid (hybi13_get_uri false r) = true.

(** ** Keys *)
Lemma sha1_octets message : Forall is_byte (sha1 message).
Proof.
  unfold sha1.
  destruct (compress_list_words (chunks (length (pad message) / 64) 64 (pad message)) _ initial_words)
    as (Ha & Hb & Hc & Hd & He).
  unfold is_word, be_octets in *.
  repeat (apply Forall_app; split); repeat constructor; unfold is_byte; Z.to_euclidean_division_equations; lia.
Qed.

Lemma process_handshake_key_spec w key : length w = 80%nat -> Forall is_byte key ->
  8 * Z.of_nat (length key + 36) < 2 ^ 32 -> process_handshake_key w key = accept_key key.
Proof.
  intros Hw Hk Hl. unfold process_handshake_key, accept_key.
  rewrite (calc_sha1 w (key ++ handshake_guid)); [|done| |].
  - apply base64_encode_spec, sha1_octets.
  - apply Forall_app. split; [done|]. repeat constructor; unfold is_byte; lia.
  - rewrite length_app. change (length handshake_guid) with 36%nat. done.
Qed.

(** The connection while a response is written. *)
Definition responding (ec : option error_code) (o : opening) : connection :=
  set_ec ec (set_istate PROCESS_HTTP_REQUEST (con o)).

(** Runs a handler on an explicit state. *)
Ltac orun :=
  cbv beta iota zeta delta [mbind ohandler_bind mret ohandler_ret self change change_con ask lift result_bind http.defined
    result_ret refuse write_http_response_error read_key3
    con m_request m_response m_processor_version m_uri_ptr m_requested_subprotocols m_subprotocol m_buf_rest
    set_con set_request set_response set_version_of set_uri set_subprotocols set_buf_rest
    responding fst snd];
  cbn [app].

Section opening.
Context `{Machine}.
Context (w key_final buf64 : list Z).
#[local] Set Default Proof Using "Type".

#[local] Abbreviation request_ready := (request_ready w key_final buf64).
#[local] Abbreviation handle_read_handshake := (handle_read_handshake w key_final buf64).
#[local] Abbreviation process_handshake_request := (process_handshake_request w key_final buf64).

(** Before the request is complete: the state in which the reads are handled. *)
Definition reading (o : opening) : Prop :=
  m_state (con o) = connecting /\ m_internal_state (con o) = READ_HTTP_REQUEST /\
  m_response o = new_response /\ m_processor_version o = None /\ m_subprotocol o = [] /\
  m_requested_subprotocols o = [].

(** What a handler did: the response it writes and the state it leaves. *)
Definition writes (m : result (unit * opening * list oaction)) (o : opening) (octets : list Z) (code : Z)
    (ec : option error_code) (rest : list Z) : Prop :=
  exists o', m = Ok (tt, o', [WriteHandshake octets]) /\ con o' = responding ec o /\
    m_status_code (m_response o') = code /\ m_buf_rest o' = rest /\ m_processor_version o' <> Some V0.

Lemma handshake_websocket r : is_websocket_handshake r = true <-> wants_websocket r.
Proof.
  unfold is_websocket_handshake, wants_websocket. rewrite andb_true_iff.
  assert (forall h, ci_find_substr h connection_token = ci_find_substr h (str "upgrade")) as ->; [|done].
  intros h. unfold ci_find_substr. enough (search my_equal connection_token h = search my_equal (str "upgrade") h) as -> by done.
  assert (forall l, prefix_with my_equal connection_token l = prefix_with my_equal (str "upgrade") l) as Hp.
  { intros l. do 7 (destruct l as [|? l]; [done|]). done. }
  induction h as [|c h IH]; [done|]. cbn [search]. by rewrite Hp, IH.
Qed.

(** The processors of the versions 7, 8 and 13. *)
Lemma hybi13_version {A} v (a b : A) : v <> V0 -> match v with V0 => a | _ => b end = b.
Proof. by destruct v. Qed.

Lemma negotiate_accepted r v : v <> V0 ->
  (get_header_as_plist (str "Sec-WebSocket-Extensions") (base r)).1 = false -> negotiate_extensions v r = (None, []).
Proof.
  intros Hv He. unfold negotiate_extensions. rewrite hybi13_version by done. unfold negotiate_extensions_helper.
  cbn [enable_extensions negb]. destruct (get_header_as_plist _ _) as [error p]. cbn in He. by rewrite He.
Qed.

Lemma validate_accepted r v : v <> V0 -> m_method r = str "GET" -> m_version (base r) = str "HTTP/1.1" ->
  get_header (str "Sec-WebSocket-Key") (base r) <> [] -> validate_handshake v r = None.
Proof.
  intros Hv Hm Hve Hk. unfold validate_handshake. rewrite hybi13_version by done. unfold hybi13_validate_handshake.
  rewrite !bool_decide_eq_true_2 by done. cbn [negb]. by rewrite is_nil_false.
Qed.

(** The response before the server is named. *)
Definition accepted (key : list Z) : response :=
  Response (set_headers [(str "Connection", str "Upgrade"); (str "Sec-WebSocket-Accept", accept_key key);
                         (str "Upgrade", str "websocket")] new_parser)
    (str "Switching Protocols") 0 (Some []) switching_protocols RESPONSE_LINE.

Lemma process_handshake_accepted r v : v <> V0 ->
  process_handshake_key w (get_header (str "Sec-WebSocket-Key") (base r)) =
    accept_key (get_header (str "Sec-WebSocket-Key") (base r)) ->
  process_handshake w key_final buf64 v r [] (set_status_code switching_protocols new_response) =
  Ok (None, accepted (get_header (str "Sec-WebSocket-Key") (base r))).
Proof.
  intros Hv Hk. unfold process_handshake. rewrite hybi13_version by done. unfold hybi13_process_handshake.
  rewrite Hk. reflexivity.
Qed.

Lemma process_request_accepted r c v u br : v <> V0 -> accepts r ->
  process_handshake_key w (get_header (str "Sec-WebSocket-Key") (base r)) =
    accept_key (get_header (str "Sec-WebSocket-Key") (base r)) ->
  process_handshake_request (Opening c r new_response (Some v) u [] [] br) =
  Ok (None, Opening c r (accepted (get_header (str "Sec-WebSocket-Key") (base r))) (Some v)
        (Some (hybi13_get_uri false r)) (extract_subprotocols r []).2 [] br, []).
Proof.
  intros Hv0 (Hw & Hver & Hm & Hv & Hk & He & Hu) Hkey. apply handshake_websocket in Hw.
  unfold Opening.process_handshake_request. orun. rewrite Hw. cbn [negb]. orun.
  rewrite validate_accepted, negotiate_accepted by done. orun. cbn [is_nil].
  assert (get_uri v r = hybi13_get_uri false r) as Eu.
  { by destruct v. }
  rewrite Eu, Hu. cbn [negb]. orun. by rewrite process_handshake_accepted.
Qed.

Lemma write_accepted c r key v u subs sub br :
  v <> V0 -> write_http_response None (Opening c r (accepted key) (Some v) u subs sub br) =
  Ok (tt, Opening (set_ec None c) r (response_replace (str "Server") user_agent
        (with_rbase (set_version (str "HTTP/1.1") (rbase (accepted key))) (accepted key))) (Some v) u subs sub br,
      [WriteHandshake (opening_response key)]).
Proof.
  intros Hv. destruct v; [done|..]; reflexivity.
Qed.

(** The response to a request that is accepted. *)
Lemma accepted_response r o v rest : reading o -> m_request o = r -> accepts r ->
  get_processor (get_websocket_version r) = Some v -> v <> V0 ->
  process_handshake_key w (get_header (str "Sec-WebSocket-Key") (base r)) =
    accept_key (get_header (str "Sec-WebSocket-Key") (base r)) ->
  writes (request_ready rest 0 o) o (opening_response (get_header (str "Sec-WebSocket-Key") (base r)))
    switching_protocols None rest.
Proof.
  destruct o as [c r0 res pv u subs sub br]. unfold reading, Opening.request_ready, writes.
  cbn [con m_request m_response m_processor_version m_subprotocol m_requested_subprotocols].
  intros (Hst & His & -> & -> & -> & ->) -> Ha Hp Hv0 Hkey. pose proof Ha as (Hw & Hver & _).
  apply handshake_websocket in Hw.
  assert ((get_websocket_version r <? 0) = false) as Hneg by lia.
  destruct v; [done|..]; (eexists; split; [unfold initialize_processor; orun; rewrite Hw; cbn [negb];
    rewrite Hneg; orun; rewrite Hp; orun; rewrite process_request_accepted by done; orun;
    rewrite write_accepted by done; reflexivity|by split_and!]).
Qed.

(** *** Requests that are refused *)

(** The status of a refusal. *)
Definition refusal_code (r : request) : Z :=
  if is_websocket_handshake r then http.bad_request
  else if u_valid (get_uri_from_host r (str "http")) then http.upgrade_required else http.bad_request.
(** A server that lacks the version names those it has. *)
Definition refusal_headers (r : request) : header_list :=
  if is_websocket_handshake r && (0 <=? get_websocket_version r) && bool_decide (get_processor (get_websocket_version r) = None)
  then [(str "Sec-WebSocket-Version", str "0,7,8,13"); server_header] else [server_header].

Definition refuses (m : result (unit * opening * list oaction)) (o : opening) (code : Z) (msg : list Z)
    (headers : header_list) : Prop :=
  exists o' ec, m = Ok (tt, o', [WriteHandshake (refusal_response code msg headers)]) /\
    con o' = responding (Some ec) o /\ m_status_code (m_response o') = code /\ ec <> EndpointError http_connection_ended.

Lemma write_refused c r code v u subs sub br ec : ec <> EndpointError http_connection_ended -> code <> 0 -> v <> Some V0 ->
  exists o', write_http_response (Some ec) (Opening c r (set_status_code code new_response) v u subs sub br) =
    Ok (tt, o', [WriteHandshake (refusal_response code (get_string code) [server_header])]) /\
    con o' = set_ec (Some ec) c /\ m_status_code (m_response o') = code.
Proof.
  intros He Hc Hv. unfold write_http_response. rewrite bool_decide_eq_false_2 by congruence. orun.
  assert ((m_status_code (set_status_code code new_response) =? uninitialized) = false) as -> by (simpl; unfold uninitialized; lia).
  orun. destruct v as [[]|]; [congruence|..]; (eexists; split; [reflexivity|by split]).
Qed.

Lemma process_request_refused r c v u br : is_websocket_handshake r = true -> v <> V0 -> ~ accepts r ->
  get_processor (get_websocket_version r) = Some v ->
  exists u' subs ec, process_handshake_request (Opening c r new_response (Some v) u [] [] br) =
    Ok (Some ec, Opening c r (set_status_code http.bad_request new_response) (Some v) u' subs [] br, []) /\
    ec <> EndpointError http_connection_ended.
Proof.
  intros Hw Hv0 Hn Hp. unfold Opening.process_handshake_request. orun. rewrite Hw. cbn [negb].
  assert (get_websocket_version r = 7 \/ get_websocket_version r = 8 \/ get_websocket_version r = 13) as Hver.
  { unfold get_processor in Hp. destruct (Z.eqb_spec (get_websocket_version r) 0); [by injection Hp as <-|].
    repeat match goal with H : context [?a =? ?b] |- _ => destruct (Z.eqb_spec a b) end; try done; auto. }
  orun. destruct (validate_handshake v r) as [e|] eqn:Eval.
  { do 3 eexists. split; [reflexivity|done]. }
  unfold validate_handshake in Eval. rewrite hybi13_version in Eval by done. unfold hybi13_validate_handshake in Eval.
  repeat case_bool_decide; try done. cbn [negb] in Eval.
  destruct (get_header (str "Sec-WebSocket-Key") (base r)) as [|k ks] eqn:Ek; [done|].
  unfold negotiate_extensions. rewrite hybi13_version by done. unfold negotiate_extensions_helper.
  cbn [enable_extensions negb].
  destruct (get_header_as_plist (str "Sec-WebSocket-Extensions") (base r)) as [error p] eqn:Eext. destruct error.
  { orun. do 3 eexists. split; [reflexivity|done]. }
  orun. cbn [is_nil]. assert (get_uri v r = hybi13_get_uri false r) as -> by by destruct v.
  destruct (u_valid (hybi13_get_uri false r)) eqn:Eu; cbn [negb].
  - exfalso. apply Hn. split; [by apply handshake_websocket|]. rewrite Ek, Eext. by split_and!.
  - orun. do 3 eexists. split; [reflexivity|done].
Qed.

Lemma refused_response r o rest : reading o -> m_request o = r -> ~ accepts r ->
  (wants_websocket r -> get_websocket_version r <> 0) ->
  refuses (request_ready rest 0 o) o (refusal_code r) (get_string (refusal_code r)) (refusal_headers r).
Proof.
  destruct o as [c r0 res pv u subs sub br]. unfold reading, Opening.request_ready, refuses.
  cbn [con m_request m_response m_processor_version m_subprotocol m_requested_subprotocols].
  intros (Hst & His & -> & -> & -> & ->) -> Hn H0. rewrite <-handshake_websocket in H0.
  unfold refusal_code, refusal_headers. unfold initialize_processor. orun.
  destruct (is_websocket_handshake r) eqn:Hw; cbn [negb andb].
  - specialize (H0 eq_refl). orun. destruct (Z.ltb_spec (get_websocket_version r) 0) as [Hneg|Hpos].
    + rewrite (proj2 (Z.leb_gt 0 _)) by lia. cbn [andb]. orun. rewrite His. cbn [negb bool_decide].
      rewrite bool_decide_eq_true_2 by done. cbn [negb]. orun.
      destruct (write_refused (set_istate PROCESS_HTTP_REQUEST c) r http.bad_request None u [] [] br
        (EndpointError invalid_version)) as (o' & E & Ec & Es); [done..|]. rewrite E. by exists o', (EndpointError invalid_version).
    + rewrite (proj2 (Z.leb_le 0 _)) by lia. cbn [andb]. orun.
      destruct (get_processor (get_websocket_version r)) as [v|] eqn:Hp.
      * rewrite bool_decide_eq_false_2 by done.
        assert (v <> V0) as Hv0.
        { intros ->. unfold get_processor in Hp. destruct (Z.eqb_spec (get_websocket_version r) 0); [done|].
          by repeat match goal with H : context [?a =? ?b] |- _ => destruct (Z.eqb_spec a b) end. }
        destruct (process_request_refused r (set_istate PROCESS_HTTP_REQUEST c) v u (drop 0 rest) Hw Hv0 Hn Hp)
          as (u' & subs & ec & E & Hec).
        destruct (write_refused (set_istate PROCESS_HTTP_REQUEST c) r http.bad_request (Some v) u' subs [] (drop 0 rest) ec)
          as (o' & E' & Ec & Es); [done|done|congruence|].
        exists o', ec. destruct v; [done|..]; orun; rewrite E; orun; rewrite E'; split_and!; [done..|congruence].
      * orun. rewrite !bool_decide_eq_true_2 by done. cbn [negb]. orun.
        eexists _, (EndpointError unsupported_version). split; [reflexivity|]. by split_and!.
  - orun. unfold Opening.process_handshake_request. orun. rewrite Hw. cbn [negb]. orun.
    destruct (u_valid (get_uri_from_host r (str "http"))) eqn:Eu; cbn [negb].
    + destruct (write_refused (set_istate PROCESS_HTTP_REQUEST c) r http.upgrade_required None
        (Some (get_uri_from_host r (str "http"))) [] [] (drop 0 rest) (EndpointError ep_upgrade_required))
        as (o' & E' & Ec & Es); [done..|]. orun. rewrite E'. by exists o', (EndpointError ep_upgrade_required).
    + destruct (write_refused (set_istate PROCESS_HTTP_REQUEST c) r http.bad_request None
        (Some (get_uri_from_host r (str "http"))) [] [] (drop 0 rest) (EndpointError invalid_uri))
        as (o' & E' & Ec & Es); [done..|]. orun. rewrite E'. by exists o', (EndpointError invalid_uri).
Qed.

(** ** The reads *)

(** The handler of the reads until it does something else than read on: what it
    did, and the reads that are left. *)
Fixpoint receive (reads : list (list Z)) (o : opening) : result (unit * opening * list oaction) * list (list Z) :=
  match reads with
  | [] => (Ok (tt, o, []), [])
  | buf :: reads' =>
      match handle_read_handshake None buf o with
      | Ok (_, o', [ReadHandshake _]) => receive reads' o'
      | m => (m, reads')
      end
  end.

Lemma request_ready_drop buf n o : request_ready buf n o = request_ready (drop n buf) 0 o.
Proof.
  unfold Opening.request_ready, read_key3. cbv beta delta [mbind ohandler_bind] iota.
  destruct (initialize_processor o) as [[[[e|] o'] l]|c|]; [done| |done|done].
  cbv beta delta [self] iota. rewrite drop_drop, Nat.add_0_r, length_drop, Nat.sub_0_r.
  destruct (m_processor_version o') as [[]|]; try done.
  destruct (8 <=? length buf - n)%nat; cbv beta iota delta [change mret ohandler_ret].
  - by rewrite drop_drop.
  - by destruct (write_http_response_error _ _) as [[[[] ?] ?]|?|].
Qed.

Lemma read_one buf o : reading o -> Z.of_nat (length buf) <= connection_read_buffer_size -> request_ok (m_request o) ->
  handle_read_handshake None buf o =
  match http.consume buf (m_request o) with
  | Thrown code =>
      write_http_response_error (Some (EndpointError http_parse_error))
        (set_response (set_status code [] (m_response o)) o)
  | Undefined => Undefined
  | Ok (n, r) => if m_ready r then request_ready (drop n buf) 0 (set_request r o)
                 else Ok (tt, set_request r o, [ReadHandshake 1])
  end.
Proof.
  intros (Hst & His & _) Hl Hok. pose proof (consume_ok buf (m_request o) Hok) as Hc.
  unfold Opening.handle_read_handshake. cbv beta delta [mbind ohandler_bind self] iota.
  rewrite Hst, bool_decide_eq_true_2 by done. rewrite (proj2 (Z.ltb_ge _ _)) by lia.
  destruct (http.consume buf (m_request o)) as [[n r]|code|] eqn:Ec; [|cbv beta delta [change] iota|done].
  - destruct Hc as [Hn _]. cbv beta delta [change] iota. rewrite (proj2 (Nat.ltb_ge _ _)) by lia. cbn [app].
    destruct (m_ready r); [|done]. rewrite request_ready_drop.
    by destruct (request_ready (drop n buf) 0 (set_request r o)) as [[[[] ?] ?]|?|].
  - by destruct (write_http_response_error _ _) as [[[[] ?] ?]|?|].
Qed.

Lemma set_request_reading r o : reading o -> reading (set_request r o).
Proof. done. Qed.

(** The reads come to what [consume_reads] says. *)
Lemma receive_complete reads : forall o r left_over reads' o' octets, reading o -> request_ok (m_request o) ->
  Forall (fun b => Z.of_nat (length b) <= connection_read_buffer_size) reads ->
  consume_reads reads (m_request o) = Ok (r, left_over, reads') -> m_ready r = true -> m_ready (m_request o) = false ->
  request_ready left_over 0 (set_request r o) = Ok (tt, o', [WriteHandshake octets]) ->
  receive reads o = (Ok (tt, o', [WriteHandshake octets]), reads').
Proof.
  induction reads as [|buf reads IH]; intros o r left_over reads' o' octets Ho Hok Hl E Hr Hr0 Hd.
  { cbn in E. injection E as <- <- <-. congruence. }
  apply Forall_cons in Hl as [Hb Hl]. cbn [consume_reads receive] in *. rewrite read_one by done.
  pose proof (consume_ok buf (m_request o) Hok) as Hc.
  destruct (http.consume buf (m_request o)) as [[n r1]|c|]; [|done|done]. destruct Hc as [Hn Hok1].
  cbn [mbind result_bind] in E. destruct (m_ready r1) eqn:Er.
  - injection E as <- <- <-. by rewrite Hd.
  - apply (IH (set_request r1 o) r left_over reads' o' octets); done.
Qed.

Lemma receive_thrown reads : forall o c, reading o -> request_ok (m_request o) ->
  Forall (fun b => Z.of_nat (length b) <= connection_read_buffer_size) reads ->
  consume_reads reads (m_request o) = Thrown c ->
  exists r reads', receive reads o =
    (match write_http_response_error (Some (EndpointError http_parse_error))
             (set_response (set_status c [] new_response) (set_request r o)) with
     | Ok (_, o', [ReadHandshake _]) => receive reads' o'
     | m => (m, reads')
     end).
Proof.
  induction reads as [|buf reads IH]; intros o c Ho Hok Hl E; [done|].
  apply Forall_cons in Hl as [Hb Hl]. cbn [consume_reads receive] in *. rewrite read_one by done.
  pose proof (consume_ok buf (m_request o) Hok) as Hc.
  destruct (http.consume buf (m_request o)) as [[n r1]|c'|]; [|injection E as ->|done].
  - destruct Hc as [Hn Hok1]. cbn [mbind result_bind] in E. destruct (m_ready r1) eqn:Er; [done|].
    destruct (IH (set_request r1 o) c) as (r & reads' & E'); try done. by exists r, reads'.
  - exists (m_request o), reads. destruct Ho as (_ & _ & -> & _). by destruct o.
Qed.

(** The status line of a parse error. *)
Lemma write_thrown c o r : reading o -> c <> 0 ->
  exists o', write_http_response_error (Some (EndpointError http_parse_error))
      (set_response (set_status c [] new_response) (set_request r o)) =
    Ok (tt, o', [WriteHandshake (refusal_response c [] [server_header])]) /\
    con o' = responding (Some (EndpointError http_parse_error)) o /\ m_status_code (m_response o') = c.
Proof.
  destruct o as [cn r0 res pv u subs sub br]. unfold reading.
  cbn [con m_request m_response m_processor_version m_subprotocol m_requested_subprotocols].
  intros (Hst & His & -> & -> & -> & ->) Hc. orun. rewrite bool_decide_eq_true_2 by done. cbn [negb].
  unfold write_http_response. rewrite bool_decide_eq_false_2 by done. orun.
  assert ((m_status_code (set_status c [] new_response) =? uninitialized) = false) as -> by (simpl; unfold uninitialized; lia).
  orun. eexists. by split.
Qed.

(** ** After the response *)

(** The connection opens, with the octets [rest] for the frames; or it ends, and
    the fail handler is called. *)
Definition opens (o : opening) (rest : list Z) : Prop :=
  exists o2, handle_write_http_response None o = Ok (tt, o2, [CancelOpenTimer; CallOpen; HandleReadFrame rest]) /\
    con o2 = opened_connection true.
Definition fails_to_open (o : opening) : Prop :=
  exists o2, handle_write_http_response None o = Ok (tt, o2, [CancelOpenTimer; ShutdownTransport t_failed]) /\
    m_state (con o2) = closed /\ forall ec, ohandle_terminate t_failed ec o2 = Ok (tt, o2, [CallFail]).

Lemma response_opens o o' rest : con o' = responding None o -> m_status_code (m_response o') = switching_protocols ->
  con o = con reading_opening -> m_buf_rest o' = rest -> opens o' rest.
Proof.
  destruct o' as [c r res pv u subs sub br]. cbn [con m_response m_buf_rest].
  intros -> Hs Ec ->. unfold opens, handle_write_http_response, responding. rewrite Ec. orun. cbn [m_state m_internal_state].
  rewrite Hs. eexists. split; reflexivity.
Qed.

Lemma response_fails o o' ec : con o' = responding (Some ec) o -> m_status_code (m_response o') <> switching_protocols ->
  con o = con reading_opening -> ec <> EndpointError http_connection_ended -> fails_to_open o'.
Proof.
  destruct o' as [c r res pv u subs sub br]. cbn [con m_response].
  intros -> Hs Ec Hec. unfold fails_to_open, handle_write_http_response, responding. rewrite Ec. orun.
  rewrite (proj2 (Z.eqb_neq _ _) Hs). eexists. split; [reflexivity|]. split; [reflexivity|].
  intros ec'. unfold ohandle_terminate. orun. cbn [m_ec set_con con].
  rewrite bool_decide_eq_false_2 by (cbn; congruence). done.
Qed.

#[global] Instance accepts_dec r : Decision (accepts r).
Proof. unfold accepts, wants_websocket. apply _. Defined.
End opening.

(** ** The exceptions of the parser *)
Definition error_codes : list Z :=
  [http.bad_request; request_entity_too_large; request_header_fields_too_large; internal_server_error].

Lemma line_step_codes line r c : line_step r line = Thrown c -> In c error_codes.
Proof.
  unfold line_step. destruct (is_nil (m_method r)).
  - unfold process. destruct (find_if _ line) as [m [|? l]]; [intros [= <-]; by left|].
    destruct (existsb _ _); [intros [= <-]; by left|]. destruct (find_if _ l) as [u [|? v]]; [intros [= <-]; by left|done].
  - unfold process_header. destruct (search _ _ _) as [[name rest]|]; [|intros [= <-]; by left].
    destruct (strip_lws name) as [k|]; [|done]. destruct (strip_lws _) as [v|]; [|done]. cbn.
    unfold append_header. destruct (existsb _ k); [intros [= <-]; by left|]. by destruct (is_nil (get_header k (base r))).
Qed.

Lemma process_body_codes buf p c : process_body buf p = Thrown c -> In c error_codes.
Proof. unfold process_body. destruct (m_body_encoding p); [|done|]; intros [= <-]; unfold error_codes; simpl; auto. Qed.

Lemma head_complete_codes buf rest r c : head_complete buf rest r = Thrown c -> In c error_codes.
Proof.
  unfold head_complete. destruct (is_nil _ || is_nil _); [intros [= <-]; by left|].
  unfold prepare_body. destruct (negb _); [|done]. destruct (_ <? _); [intros [= <-]; unfold error_codes; simpl; auto|].
  cbn [mbind result_bind]. destruct (process_body _ _) as [[n p]|c'|] eqn:E; [done|intros [= <-]; by eapply process_body_codes|done].
Qed.

Lemma consume_loop_codes fuel : forall buf begin r c, http.consume_loop fuel buf begin r = Thrown c -> In c error_codes.
Proof.
  induction fuel as [|fuel IH]; intros buf begin r c; cbn [http.consume_loop]; [done|].
  destruct (_ <? _); [intros [= <-]; unfold error_codes; simpl; auto|].
  destruct (search _ _ begin) as [[line rest]|]; [|done]. destruct (is_nil line); [apply head_complete_codes|].
  set (r1 := with_base _ r).
  change (if is_nil (m_method r1) then process line r1
          else p ← process_header line (base r1); Ok (with_base p r1)) with (line_step r1 line).
  destruct (line_step r1 line) as [r2|c'|] eqn:E; [apply IH|intros [= <-]; by eapply line_step_codes|done].
Qed.

Lemma consume_codes buf r c : http.consume buf r = Thrown c -> In c error_codes.
Proof.
  unfold http.consume. destruct (m_ready r); [done|]. destruct (0 <? _).
  - destruct (process_body buf (base r)) as [[? ?]|c'|] eqn:Eb; [done|intros [= <-]|done]. by eapply process_body_codes.
  - destruct (m_buf r) as [b|]; [|done]. apply consume_loop_codes.
Qed.

Lemma consume_reads_codes reads : forall r c, consume_reads reads r = Thrown c -> In c error_codes.
Proof.
  induction reads as [|buf reads IH]; intros r c; cbn [consume_reads]; [done|].
  destruct (http.consume buf r) as [[n r1]|c'|] eqn:E; [|intros [= <-]|done].
  - cbn [mbind result_bind]. destruct (m_ready r1); [done|apply IH].
  - by eapply consume_codes.
Qed.

Section decided.
Context `{Machine}.
Context (w key_final buf64 : list Z).
Hypothesis w_size : length w = 80%nat.
#[local] Set Default Proof Using "Type*".

(** The reads fit the buffer of the connection. *)
Definition fits (reads : list (list Z)) : Prop :=
  Forall (fun b => Z.of_nat (length b) <= connection_read_buffer_size) reads.

Lemma decided_accepted reads r left_over reads' : fits reads ->
  consume_reads reads new_request = Ok (r, left_over, reads') -> m_ready r = true -> accepts r ->
  let key := get_header (str "Sec-WebSocket-Key") (base r) in
  Forall is_byte key -> 8 * Z.of_nat (length key + 36) < 2 ^ 32 ->
  exists o, receive w key_final buf64 reads reading_opening = (Ok (tt, o, [WriteHandshake (opening_response key)]), reads') /\
    opens o left_over.
Proof.
  intros Hl E Hr Ha key Hb Hs. pose proof Ha as (_ & Hver & _).
  assert (exists v, get_processor (get_websocket_version r) = Some v /\ v <> V0) as (v & Hp & Hv).
  { destruct Hver as [-> | [-> | ->]]; eexists; by split. }
  assert (reading reading_opening) as Hro by by split_and!.
  destruct (accepted_response w key_final buf64 r (set_request r reading_opening) v left_over) as (o' & Eo & Ec & Est & Eb & _);
    try done; [by apply process_handshake_key_spec|].
  exists o'. split.
  - apply (receive_complete w key_final buf64 reads reading_opening r left_over reads' o'); try done. apply new_request_ok.
  - by apply (response_opens (set_request r reading_opening)).
Qed.

Lemma decided_refused reads r left_over reads' : fits reads ->
  consume_reads reads new_request = Ok (r, left_over, reads') -> m_ready r = true -> ~ accepts r ->
  (wants_websocket r -> get_websocket_version r <> 0) ->
  exists o, receive w key_final buf64 reads reading_opening =
      (Ok (tt, o, [WriteHandshake (refusal_response (refusal_code r) (get_string (refusal_code r)) (refusal_headers r))]), reads') /\
    fails_to_open o.
Proof.
  intros Hl E Hr Ha H0. assert (reading reading_opening) as Hro by by split_and!.
  destruct (refused_response w key_final buf64 r (set_request r reading_opening) left_over)
    as (o' & ec & Eo & Ec & Est & Hec); try done.
  exists o'. split.
  - apply (receive_complete w key_final buf64 reads reading_opening r left_over reads' o'); try done. apply new_request_ok.
  - apply (response_fails (set_request r reading_opening) o' ec); try done. rewrite Est.
    unfold refusal_code. destruct (is_websocket_handshake r), (u_valid (get_uri_from_host r (str "http"))); done.
Qed.

Lemma decided_thrown reads c : fits reads -> consume_reads reads new_request = Thrown c ->
  exists o reads', receive w key_final buf64 reads reading_opening =
      (Ok (tt, o, [WriteHandshake (refusal_response c [] [server_header])]), reads') /\ fails_to_open o.
Proof.
  intros Hl E. assert (reading reading_opening) as Hro by by split_and!.
  destruct (receive_thrown w key_final buf64 reads reading_opening c Hro new_request_ok Hl E) as (r & reads' & ->).
  pose proof (consume_reads_codes reads _ _ E) as Hc.
  assert (c <> 0 /\ c <> switching_protocols) as [Hc0 Hc1].
  { unfold error_codes in Hc. simpl in Hc. destruct Hc as [<-|[<-|[<-|[<-|[]]]]]; done. }
  destruct (write_thrown c reading_opening r Hro Hc0) as (o' & -> & Ec & Est).
  exists o', reads'. split; [done|]. apply (response_fails reading_opening o' _ Ec); try done. by rewrite Est.
Qed.

(** C9. Whatever octets a browser sends, and however they are cut: a complete
    request that does not ask for version 0 opens the connection, with the digest
    of the key that the standard prescribes in the response and the octets behind
    the request left for the frames, if and only if it is an acceptable opening
    handshake; any other such request is answered with the error status of its
    fault.  Octets that are no request are answered with an error status too, its
    reason phrase left empty.  After an error the connection is shut down and its
    fail handler called.  Not decided here: a request for version 0, the drafts before the standard, which opens the
    connection in a way of its own, and a key of 2^29 octets or more. *)
Theorem handshake_decided reads : fits reads ->
  match consume_reads reads new_request with
  | Ok (r, left_over, reads') =>
      let key := get_header (str "Sec-WebSocket-Key") (base r) in
      m_ready r = true -> (wants_websocket r -> get_websocket_version r <> 0) ->
      Forall is_byte key -> 8 * Z.of_nat (length key + 36) < 2 ^ 32 ->
      exists o octets, receive w key_final buf64 reads reading_opening = (Ok (tt, o, [WriteHandshake octets]), reads') /\
        (accepts r /\ octets = opening_response key /\ opens o left_over \/
         ~ accepts r /\ octets = refusal_response (refusal_code r) (get_string (refusal_code r)) (refusal_headers r) /\
         fails_to_open o)
  | Thrown c =>
      exists o reads', receive w key_final buf64 reads reading_opening =
        (Ok (tt, o, [WriteHandshake (refusal_response c [] [server_header])]), reads') /\ fails_to_open o
  | Undefined => False
  end.
Proof.
  intros Hl. destruct (consume_reads reads new_request) as [[[r left_over] reads']|c|] eqn:E.
  - cbn zeta. intros Hr H0 Hb Hs. destruct (decide (accepts r)) as [Ha|Ha].
    + destruct (decided_accepted reads r left_over reads') as (o & Eo & Ho); try done.
      exists o, (opening_response (get_header (str "Sec-WebSocket-Key") (base r))). split; [done|]. by left.
    + destruct (decided_refused reads r left_over reads') as (o & Eo & Ho); try done. eexists o, _. split; [done|]. by right.
  - by apply decided_thrown.
  - eapply (consume_reads_defined reads new_request); [apply new_request_ok|done].
Qed.
End decided.

(** The request of RFC 6455 in two reads, with an octet behind it. *)
Lemma handshake_decided_witness :
  match consume_reads [take 100 rfc_request; drop 100 rfc_request ++ [129]] new_request with
  | Ok (r, left_over, reads') =>
      let key := get_header (str "Sec-WebSocket-Key") (base r) in
      m_ready r = true -> (wants_websocket r -> get_websocket_version r <> 0) ->
      Forall is_byte key -> 8 * Z.of_nat (length key + 36) < 2 ^ 32 ->
      exists o octets, @receive armhf (replicate 80 7) [] [] [take 100 rfc_request; drop 100 rfc_request ++ [129]] reading_opening =
          (Ok (tt, o, [WriteHandshake octets]), reads') /\
        (accepts r /\ octets = opening_response key /\ opens o left_over \/
         ~ accepts r /\ octets = refusal_response (refusal_code r) (get_string (refusal_code r)) (refusal_headers r) /\
         fails_to_open o)
  | Thrown c =>
      exists o reads', @receive armhf (replicate 80 7) [] [] [take 100 rfc_request; drop 100 rfc_request ++ [129]] reading_opening =
        (Ok (tt, o, [WriteHandshake (refusal_response c [] [server_header])]), reads') /\ fails_to_open o
  | Undefined => False
  end.
Proof.
  apply (@handshake_decided armhf (replicate 80 7) [] [] (length_replicate _ _)). repeat constructor; vm_compute; discriminate.
Defined.
