(* ===== verification/OpeningSession.v ===== *)
(** * The life of a connection of the server

    From the accept to the end: the operations of the transport that are under way
    during the handshake, and the session of [WsSession] once the connection is
    open. Completions come in any order. The timer of the handshake, whose
    cancellation does not reach a handler that is already due, may fire in either
    phase. The frames of version 0 are not modelled: a connection that opens with
    it is accounted for, but of its session only the timer is an event. *)
From S2P Require Import Prelude Text Sha1 Base64 Md5 Http HttpProps WsFrame Hybi13 WsConnection WsSession Handshake Opening OpeningProps.
Import http hybi13 WsConnection.

(** [handle_accept] of [roles/server_endpoint.hpp], what it does to the
    connection; it also asks for the next one. *)
Definition handle_accept (ec : option error_code) : ohandler unit :=
  match ec with Some _ => oterminate ec | None => start end.

Record life := Life {
  me : opening;
  accepting : nat;                    (* outstanding [async_accept] *)
  inits : nat;                        (* [transport_con_type::init] *)
  hreads : nat;                       (* reads of the handshake *)
  hwriting : option (list Z);         (* the write of the response *)
  open_timers : nat;                  (* timers that run or were cancelled *)
  hshutdowns : list terminate_status; (* shutdowns before the connection was open *)
  calls_open : nat;                   (* calls of the handlers of the program *)
  calls_fail : nat;
  calls_close : nat;
  behind : option (list Z);           (* octets behind the request, due to [handle_read_frame] *)
  session : option world }.

Definition new_life : life := Life new_opening 1 0 0 None 0 [] 0 0 0 None None.

Definition with_me (o : opening) (w : life) : life :=
  Life o (accepting w) (inits w) (hreads w) (hwriting w) (open_timers w) (hshutdowns w)
    (calls_open w) (calls_fail w) (calls_close w) (behind w) (session w).
Definition with_starting (a i : nat) (w : life) : life :=
  Life (me w) a i (hreads w) (hwriting w) (open_timers w) (hshutdowns w)
    (calls_open w) (calls_fail w) (calls_close w) (behind w) (session w).
Definition with_hreads (n : nat) (w : life) : life :=
  Life (me w) (accepting w) (inits w) n (hwriting w) (open_timers w) (hshutdowns w)
    (calls_open w) (calls_fail w) (calls_close w) (behind w) (session w).
Definition with_hwriting (b : option (list Z)) (w : life) : life :=
  Life (me w) (accepting w) (inits w) (hreads w) b (open_timers w) (hshutdowns w)
    (calls_open w) (calls_fail w) (calls_close w) (behind w) (session w).
Definition with_open_timers (n : nat) (w : life) : life :=
  Life (me w) (accepting w) (inits w) (hreads w) (hwriting w) n (hshutdowns w)
    (calls_open w) (calls_fail w) (calls_close w) (behind w) (session w).
Definition with_hshutdowns (l : list terminate_status) (w : life) : life :=
  Life (me w) (accepting w) (inits w) (hreads w) (hwriting w) (open_timers w) l
    (calls_open w) (calls_fail w) (calls_close w) (behind w) (session w).
Definition with_calls (o f c : nat) (w : life) : life :=
  Life (me w) (accepting w) (inits w) (hreads w) (hwriting w) (open_timers w) (hshutdowns w)
    o f c (behind w) (session w).
Definition with_session (b : option (list Z)) (s : option world) (w : life) : life :=
  Life (me w) (accepting w) (inits w) (hreads w) (hwriting w) (open_timers w) (hshutdowns w)
    (calls_open w) (calls_fail w) (calls_close w) b s.

(** From the open handler on other threads can send, so the session begins there;
    its first read is the one of the octets behind the request. *)
Definition operform (w : life) (a : oaction) : life :=
  match a with
  | InitTransport => with_starting (accepting w) (S (inits w)) w
  | ReadHandshake _ => with_hreads (S (hreads w)) w
  | WriteHandshake octets => with_hwriting (Some octets) w
  | SetOpenTimer _ => with_open_timers (S (open_timers w)) w
  | CancelOpenTimer => w
  | ShutdownTransport tstat => with_hshutdowns (hshutdowns w ++ [tstat]) w
  | CallOpen =>
      with_calls (S (calls_open w)) (calls_fail w) (calls_close w)
        (with_session (behind w) (Some (World (con (me w)) 0 None 0 0 [] [] [] [] [] [] 0 0)) w)
  | CallFail => with_calls (calls_open w) (S (calls_fail w)) (calls_close w) w
  | CallClose => with_calls (calls_open w) (calls_fail w) (S (calls_close w)) w
  | HandleReadFrame buf => with_session (Some buf) (with_reading 1 <$> session w) w
  end.

(** An exception that leaves a handler ends the thread of the server. *)
Definition lrun (h : ohandler unit) (w : life) : option life :=
  match h (me w) with
  | Ok (_, o, l) => Some (fold_left operform l (with_me o w))
  | _ => None
  end.

(** ** Events *)
Inductive levent :=
| Accepted (ec : option error_code)
| InitDone (ec : option error_code)
| HandshakeRead (ec : option error_code) (buf : list Z)
| HandshakeWritten (ec : option error_code)
| OpenTimer (ec : option error_code)
| HandshakeShutdown (ec : option error_code)
| InSession (e : event).

(** The transport reports errors of its own. *)
Definition transport_ec (ec : option error_code) : Prop := ec <> Some (EndpointError http_connection_ended).

Section life.
Context `{Machine}.
Context (w0 key_final buf64 : list Z) (ping_handler : option (list Z -> bool)).

Definition lenabled (e : levent) (w : life) : Prop :=
  match e with
  | Accepted ec => (0 < accepting w)%nat /\ transport_ec ec
  | InitDone ec => (0 < inits w)%nat /\ transport_ec ec
  | HandshakeRead ec buf => (0 < hreads w)%nat /\ transport_ec ec /\ Forall is_byte buf
  | HandshakeWritten ec => is_Some (hwriting w) /\ transport_ec ec
  | OpenTimer ec => (0 < open_timers w)%nat /\ transport_ec ec
  | HandshakeShutdown _ => hshutdowns w <> []
  | InSession e =>
      match session w with
      | None => False
      | Some s =>
          enabled e s /\ m_processor_version (me w) <> Some V0 /\
          match e with
          | ReadDone ec buf => forall rest, behind w = Some rest -> ec = None /\ buf = rest
          | OpenTimerDone _ => False
          | _ => True
          end
      end
  end.

Definition lrun_event (e : levent) (w : life) : option life :=
  match e with
  | Accepted ec => lrun (handle_accept ec) (with_starting (accepting w - 1) (inits w) w)
  | InitDone ec => lrun (handle_transport_init ec) (with_starting (accepting w) (inits w - 1) w)
  | HandshakeRead ec buf =>
      lrun (handle_read_handshake w0 key_final buf64 ec buf) (with_hreads (hreads w - 1) w)
  | HandshakeWritten ec => lrun (handle_write_http_response ec) (with_hwriting None w)
  | OpenTimer ec =>
      let w := with_open_timers (open_timers w - 1) w in
      match session w with
      | None => lrun (Opening.handle_open_handshake_timeout ec) w
      | Some s => s ← run_event ping_handler (OpenTimerDone ec) s; Some (with_session (behind w) (Some s) w)
      end
  | HandshakeShutdown ec =>
      match hshutdowns w with
      | [] => None
      | tstat :: rest => lrun (ohandle_terminate tstat ec) (with_hshutdowns rest w)
      end
  | InSession e =>
      s ← session w;
      s ← run_event ping_handler e s;
      Some (with_session (match e with ReadDone _ _ => None | _ => behind w end) (Some s) w)
  end.

Inductive lreachable : life -> Prop :=
| lreach_new : lreachable new_life
| lreach_step w e w' : lreachable w -> lenabled e w -> lrun_event e w = Some w' -> lreachable w'.

Definition lrun_events (es : list levent) (w : life) : option life :=
  fold_left (fun w e => w ← w; lrun_event e w) es (Some w).

End life.

(** * A browser opens a connection

    The request that RFC 6455 has a browser write, in any order and spelling of
    its fields, opens the connection of the server, whatever the transport cuts it
    into. *)

(** ** Case *)
Lemma toupper_tolower c : toupper (tolower c) = toupper c.
Proof.
  unfold toupper, tolower. destruct ((65 <=? c) && (c <=? 90)) eqn:E; [|done].
  destruct ((97 <=? c + 32) && (c + 32 <=? 122)) eqn:E1, ((97 <=? c) && (c <=? 122)) eqn:E2; lia.
Qed.

Lemma prefix_with_lower needle : forall l rest, map tolower l = map tolower needle ++ rest ->
  prefix_with my_equal needle l = true.
Proof.
  induction needle as [|n needle IH]; intros [|c l] rest; cbn; try done.
  intros [= E1 E2]. rewrite (IH l rest E2), andb_true_r. unfold my_equal.
  by rewrite <-(toupper_tolower c), E1, toupper_tolower, Z.eqb_refl.
Qed.

(** Text that contains another but for case. *)
Definition contains (needle s : list Z) : Prop := exists pre post, map tolower s = pre ++ map tolower needle ++ post.

Lemma ci_find_contains needle s : contains needle s -> ci_find_substr s needle = true.
Proof.
  intros (pre & post & E). unfold ci_find_substr.
  enough (search my_equal needle s <> None) as H by by destruct (search my_equal needle s).
  revert s E. induction pre as [|c pre IH]; intros s E.
  - assert (prefix_with my_equal needle s = true) as Hp by by eapply prefix_with_lower.
    destruct s; cbn [search]; by rewrite Hp.
  - destruct s as [|c' s]; [done|]. injection E as _ E. specialize (IH s E). cbn [search].
    destruct (prefix_with my_equal needle (c' :: s)); [done|]. by destruct (search my_equal needle s) as [[]|].
Qed.

(** ** Hosts *)
(** A name, an IPv4 address, or an IPv6 address in brackets. *)
Inductive host_name : list Z -> Prop :=
| host_plain name : Forall (fun c => c <> 58 /\ c <> 93) name -> host_name name
| host_literal address : Forall (fun c => c <> 93) address -> host_name (91 :: address ++ [93]).
(** A host, and perhaps a port. *)
Inductive host_text : list Z -> Prop :=
| host_alone name : host_name name -> host_text name
| host_port name port : host_name name -> 0 < port < 65536 -> host_text (name ++ [58] ++ dec port).

Lemma rfind_none c s : Forall (fun x => x <> c) s -> rfind c s = None.
Proof. induction 1 as [|x s Hx _ IH]; cbn; [done|]. by rewrite IH, (proj2 (Z.eqb_neq _ _) Hx). Qed.
Lemma rfind_last c s t : Forall (fun x => x <> c) t -> rfind c (s ++ c :: t) = Some (length s).
Proof.
  intros Ht. induction s as [|x s IH]; cbn; [by rewrite rfind_none, Z.eqb_refl|]. by rewrite IH.
Qed.

Lemma rfind_other c s t : Forall (fun x => x <> c) t -> rfind c (s ++ t) = rfind c s.
Proof. intros Ht. induction s as [|x s IH]; cbn; [by apply rfind_none|]. by rewrite IH. Qed.
Lemma rfind_lt c s i : rfind c s = Some i -> (i < length s)%nat.
Proof.
  revert i. induction s as [|x s IH]; intros i; cbn; [done|].
  destruct (rfind c s) as [k|]; [intros [= <-]; specialize (IH k eq_refl); lia|].
  destruct (x =? c); [intros [= <-]; lia|done].
Qed.

(** The colons of an address in brackets are none of a port. *)
Lemma host_no_port name : host_name name -> port_colon name = None.
Proof.
  intros [h Hn|address Ha]; unfold port_colon.
  - by rewrite (rfind_none 58) by (eapply Forall_impl; [exact Hn|]; cbn; tauto).
  - change (91 :: address ++ [93]) with ((91 :: address) ++ [93]).
    rewrite (rfind_last 93 (91 :: address) []) by constructor.
    rewrite (rfind_other 58) by (repeat constructor; discriminate).
    destruct (rfind 58 (91 :: address)) as [i|] eqn:E; [|done].
    apply rfind_lt in E. by rewrite (proj2 (Nat.ltb_lt _ _) E).
Qed.
(** The last colon is the one of the port. *)
Lemma host_has_port name ds : Forall (fun d => is_digit d = true) ds ->
  port_colon (name ++ 58 :: ds) = Some (length name).
Proof.
  intros Hd. unfold port_colon. rewrite (rfind_last 58) by (eapply Forall_impl; [exact Hd|]; by intros ? E ->).
  rewrite (rfind_other 93).
  2: { constructor; [done|]. eapply Forall_impl; [exact Hd|]. by intros ? E ->. }
  destruct (rfind 93 name) as [i|] eqn:E; [|done]. apply rfind_lt in E.
  by rewrite (proj2 (Nat.ltb_ge _ _)) by lia.
Qed.

Lemma digits_not c ds : is_digit c = false -> Forall (fun d => is_digit d = true) ds -> Forall (fun d => d <> c) ds.
Proof. intros Hc Hd. eapply Forall_impl; [exact Hd|]. intros d Hd' ->. congruence. Qed.

Lemma digits_prefix_all ds : Forall (fun d => is_digit d = true) ds -> digits_prefix ds = ds.
Proof. induction 1 as [|d ds Hd _ IH]; cbn; [done|]. by rewrite Hd, IH. Qed.

Lemma atoi_dec v : 0 <= v < 2147483648 -> atoi (dec v) = v.
Proof.
  intros Hv. unfold atoi, strto. pose proof (dec_digits v ltac:(lia)) as Hd.
  pose proof (undec_dec v ltac:(lia)) as Hu. destruct (dec v) as [|d ds] eqn:E; [by apply dec_nonempty in E; [|lia]|].
  pose proof Hd as [Hd0 _]%Forall_cons.
  assert (is_space d = false) as Hs by by apply digit_not_space.
  cbn [skip_spaces]. rewrite Hs. cbn [take_sign].
  assert (d <> 45 /\ d <> 43) as [H1 H2] by (unfold is_digit in Hd0; lia).
  rewrite (proj2 (Z.eqb_neq d 45) H1), (proj2 (Z.eqb_neq d 43) H2), digits_prefix_all by done.
  rewrite Hu. destruct (Z.ltb_spec v (-2147483648)); [lia|]. destruct (Z.ltb_spec 2147483647 v); lia.
Qed.

Lemma host_valid h scheme r : host_text h -> get_header (str "Host") (base r) = h -> u_valid (get_uri_from_host r scheme) = true.
Proof.
  intros Hh E. unfold get_uri_from_host. rewrite E. destruct Hh as [name Hn|name port Hn Hp].
  - by rewrite host_no_port.
  - cbn [app]. rewrite host_has_port by (apply dec_digits; lia).
    unfold uri_scheme_port, get_port_from_string.
    replace (drop (S (length name)) (name ++ 58 :: dec port)) with (dec port).
    2: { rewrite drop_app_ge by lia. by replace (S (length name) - length name)%nat with 1%nat by lia. }
    rewrite is_nil_false by (apply dec_nonempty; lia). rewrite atoi_dec by lia. rewrite u32_small by lia.
    destruct (Z.ltb_spec 65535 port); [lia|]. destruct (Z.eqb_spec port 0); [lia|]. done.
Qed.

(** ** What a browser writes *)
Definition hdr (k : string) (fs : list field) : list Z := field_value [] (str k) fs.
Record browser_fields (fs : list field) : Prop := {
  bf_good : Forall good_field fs;
  bf_octets : Forall (fun f => Forall is_byte (f_value f)) fs;
  bf_host : host_text (hdr "Host" fs) /\ hdr "Host" fs <> [];
  bf_upgrade : contains (str "websocket") (hdr "Upgrade" fs);
  bf_connection : contains (str "upgrade") (hdr "Connection" fs);
  bf_key : hdr "Sec-WebSocket-Key" fs <> [];
  bf_version : hdr "Sec-WebSocket-Version" fs = str "13";
  bf_extensions : (parse_parameter_list (hdr "Sec-WebSocket-Extensions" fs)).1 = false;
  bf_no_body : hdr "Content-Length" fs = [] }.

Lemma header_as_plist key p : get_header_as_plist key p = parse_parameter_list (get_header key p).
Proof. unfold get_header_as_plist, get_header. destruct (map_find key (m_headers p)) as [v|]; [by destruct v|done]. Qed.

Lemma browser_accepted uri fs r : browser_fields fs -> describes (str "GET") uri (str "HTTP/1.1") fs r -> accepts r.
Proof.
  intros B (Hm & Hu & Hv & Hr & Hk). split; [|split; [|split_and!]].
  - split; rewrite Hk; apply ci_find_contains; apply B.
  - right. right. unfold get_websocket_version. rewrite Hr, Hk. change (field_value [] (str "Sec-WebSocket-Version") fs)
      with (hdr "Sec-WebSocket-Version" fs). by rewrite (bf_version _ B).
  - done.
  - done.
  - rewrite Hk. apply B.
  - rewrite header_as_plist, Hk. apply B.
  - apply (host_valid (hdr "Host" fs)); [apply B|apply Hk].
Qed.

Lemma field_value_bytes key fs : Forall (fun f => Forall is_byte (f_value f)) fs -> forall from,
  Forall is_byte from -> Forall is_byte (field_value from key fs).
Proof.
  induction 1 as [|f fs Hf _ IH]; intros from Hb; cbn [field_value]; [done|]. apply IH.
  destruct (same_key _ _); [|done]. unfold join_value. destruct (is_nil from); [done|].
  apply Forall_app. split; [done|]. apply Forall_app. split; [repeat constructor; unfold is_byte; lia|done].
Qed.

Lemma field_value_length key fs : forall from,
  Z.of_nat (length (field_value from key fs)) <= Z.of_nat (length from) + lines_size (map field_line fs).
Proof.
  induction fs as [|f fs IH]; intros from; cbn [field_value map lines_size]; [lia|].
  specialize (IH (if same_key (f_name f) key then join_value from (f_value f) else from)).
  enough (Z.of_nat (length (if same_key (f_name f) key then join_value from (f_value f) else from)) <=
    Z.of_nat (length from) + Z.of_nat (length (field_line f)) + 3) by lia.
  unfold field_line. rewrite !length_app. cbn [length]. destruct (same_key _ _); [|lia].
  unfold join_value. destruct (is_nil from); [lia|]. rewrite !length_app. simpl. lia.
Qed.

Section browser.
Context `{Machine}.
Context (w key_final buf64 : list Z).
Hypothesis w_size : length w = 80%nat.
#[local] Set Default Proof Using "Type*".

(** The reads of the browser's request up to the response. *)
Lemma browser_answered uri fs rest reads : browser_fields fs -> no_space uri -> no_cr uri ->
  fits reads -> concat reads = head_text (request_lines (str "GET") uri (str "HTTP/1.1") fs) ++ rest ->
  lines_size (request_lines (str "GET") uri (str "HTTP/1.1") fs) + 4 + 3 * Z.of_nat (length reads) <= max_header_size ->
  exists o left_over reads',
    receive w key_final buf64 reads reading_opening =
      (Ok (tt, o, [WriteHandshake (opening_response (hdr "Sec-WebSocket-Key" fs))]), reads') /\
    opens o left_over /\ left_over ++ concat reads' = rest.
Proof.
  intros B Hu Hucr Hf E Hsize.
  pose proof (request_roundtrip (str "GET") uri (str "HTTP/1.1") fs rest reads) as Hr.
  assert (is_nil (field_value [] (str "Host") fs) = false) as Hh by (apply is_nil_false, B). rewrite Hh in Hr.
  destruct Hr as (r & left_over & reads' & Ec & El & Hd); try done;
    [by repeat constructor|repeat constructor; unfold is_byte; lia|repeat constructor; discriminate|apply B|apply B|].
  pose proof (browser_accepted uri fs r B Hd) as Ha. pose proof Hd as (_ & _ & _ & Hready & Hk).
  destruct (decided_accepted w key_final buf64 w_size reads r left_over reads' Hf Ec Hready Ha) as (o & Eo & Ho).
  - rewrite Hk. apply field_value_bytes; [apply B|constructor].
  - rewrite Hk. pose proof (field_value_length (str "Sec-WebSocket-Key") fs []) as Hlen.
    cbn [request_lines lines_size length] in Hsize, Hlen. unfold max_header_size in Hsize. lia.
  - exists o, left_over, reads'. rewrite Hk in Eo. by split_and!.
Qed.

Context (ping_handler : option (list Z -> bool)).

(** The life of the connection while its handshake is read, and while the response
    is written. *)
Definition reading_life (o : opening) : life := Life o 0 0 1 None 1 [] 0 0 0 None None.
Definition responding_life (o : opening) (octets : list Z) : life := Life o 0 0 0 (Some octets) 1 [] 0 0 0 None None.

#[local] Abbreviation lrun_events := (lrun_events w key_final buf64 ping_handler).

Lemma lrun_events_app es1 es2 l : lrun_events (es1 ++ es2) l = (l' ← lrun_events es1 l; lrun_events es2 l').
Proof.
  unfold OpeningSession.lrun_events. rewrite fold_left_app. destruct (fold_left _ es1 (Some l)) as [l'|]; [done|].
  by induction es2.
Qed.

Lemma lrun_events_cons e es l : lrun_events (e :: es) l =
  (l' ← lrun_event w key_final buf64 ping_handler e l; lrun_events es l').
Proof. apply (lrun_events_app [e] es l). Qed.

(** [receive] is what the reads do to the connection. *)
Lemma receive_life reads : forall o o' octets reads',
  receive w key_final buf64 reads o = (Ok (tt, o', [WriteHandshake octets]), reads') ->
  exists used, reads = used ++ reads' /\
    lrun_events (map (HandshakeRead None) used) (reading_life o) = Some (responding_life o' octets).
Proof.
  induction reads as [|buf reads IH]; intros o o' octets reads' E; [by injection E|]. cbn [receive] in E.
  assert (forall o1 l, handle_read_handshake w key_final buf64 None buf o = Ok (tt, o1, l) ->
    lrun_event w key_final buf64 ping_handler (HandshakeRead None buf) (reading_life o) =
    Some (fold_left operform l (with_me o1 (with_hreads 0 (reading_life o))))) as Hrun.
  { intros o1 l Eo. unfold lrun_event, lrun. cbn [me with_hreads reading_life]. by rewrite Eo. }
  destruct (handle_read_handshake w key_final buf64 None buf o) as [[[[] o1] l]|c|] eqn:Eo; [|by injection E..].
  specialize (Hrun o1 l eq_refl).
  destruct l as [|[| | | | | | | | |] [|]]; try discriminate E.
  - destruct (IH _ _ _ _ E) as (used & -> & Er). exists (buf :: used). split; [done|].
    cbn [map]. rewrite lrun_events_cons, Hrun. exact Er.
  - injection E as <- <- <-. exists [buf]. split; [done|]. cbn [map]. by rewrite lrun_events_cons, Hrun.
Qed.

(** C8. The request of a browser - the fields of RFC 6455 in any order, their names
    in any case, among any others; a host given by name or address, with or without
    a port, version 13, a key, no body - opens the connection, whatever
    the reads cut it into as long as the head and three octets for every read stay
    within [max_header_size], 16000 octets ([HttpProps.limit_depends_on_the_cut]
    shows that a shorter head in single octets is refused): from the accept on the
    server writes the response of the standard, with the digest of the browser's
    key, and once that is written it calls the open handler once and goes on as
    the session of the other theorems, at the octet behind the request. *)
Theorem browser_opens uri fs rest reads : browser_fields fs -> no_space uri -> no_cr uri ->
  fits reads -> concat reads = head_text (request_lines (str "GET") uri (str "HTTP/1.1") fs) ++ rest ->
  lines_size (request_lines (str "GET") uri (str "HTTP/1.1") fs) + 4 + 3 * Z.of_nat (length reads) <= max_header_size ->
  exists used reads' left_over l1 l2,
    reads = used ++ reads' /\ left_over ++ concat reads' = rest /\
    lrun_events ([Accepted None; InitDone None] ++ map (HandshakeRead None) used) new_life = Some l1 /\
    hwriting l1 = Some (opening_response (hdr "Sec-WebSocket-Key" fs)) /\
    lrun_events [HandshakeWritten None] l1 = Some l2 /\
    calls_open l2 = 1%nat /\ calls_fail l2 = 0%nat /\ session l2 = Some opened_world /\ behind l2 = Some left_over.
Proof.
  intros B Hu Hucr Hf E Hsize.
  destruct (browser_answered uri fs rest reads) as (o & left_over & reads' & Er & (o2 & Eo & Ec) & El); try done.
  destruct (receive_life _ _ _ _ _ Er) as (used & Eu & Erun).
  exists used, reads', left_over, (responding_life o (opening_response (hdr "Sec-WebSocket-Key" fs))).
  eexists. split; [done|]. split; [done|]. split; [rewrite lrun_events_app; exact Erun|]. split; [done|].
  rewrite lrun_events_cons. split.
  - unfold lrun_event, lrun. cbn [me with_hwriting responding_life]. rewrite Eo. reflexivity.
  - unfold opened_world. rewrite <-Ec. by split_and!.
Qed.
End browser.

(** The request of a browser, an octet at a time. *)
Definition chrome_fields : list field :=
  [Field (str "Host") (str "rover:9002"); Field (str "Connection") (str "keep-alive, Upgrade");
   Field (str "Upgrade") (str "websocket"); Field (str "Origin") (str "http://rover");
   Field (str "Sec-WebSocket-Version") (str "13"); Field (str "Accept-Encoding") (str "gzip, deflate");
   Field (str "Sec-WebSocket-Key") (str "dGhlIHNhbXBsZSBub25jZQ==");
   Field (str "Sec-WebSocket-Extensions") (str "permessage-deflate; client_max_window_bits")].

Lemma chrome_browser : browser_fields chrome_fields.
Proof.
  constructor.
  - unfold chrome_fields. repeat (apply Forall_cons; split); [..|constructor];
    (split; [discriminate|]; split; [by repeat constructor|]; split; [repeat constructor; unfold is_byte; lia|];
     split; [|repeat constructor; discriminate]; split; [repeat constructor; discriminate|]; by split; intros c [= <-]).
  - repeat constructor; unfold is_byte; vm_compute; congruence.
  - split; [|discriminate]. apply (host_port (str "rover") 9002); [|lia]. repeat constructor; discriminate.
  - by exists [], [].
  - by exists (str "keep-alive, "), [].
  - discriminate.
  - reflexivity.
  - vm_compute. reflexivity.
  - reflexivity.
Qed.

Lemma browser_opens_witness :
  let reads := singly (head_text (request_lines (str "GET") (str "/") (str "HTTP/1.1") chrome_fields) ++ [129; 0]) in
  exists used reads' left_over l1 l2,
    reads = used ++ reads' /\ left_over ++ concat reads' = [129; 0] /\
    @lrun_events armhf (replicate 80 7) [] [] None ([Accepted None; InitDone None] ++ map (HandshakeRead None) used) new_life = Some l1 /\
    hwriting l1 = Some (opening_response (hdr "Sec-WebSocket-Key" chrome_fields)) /\
    @lrun_events armhf (replicate 80 7) [] [] None [HandshakeWritten None] l1 = Some l2 /\
    calls_open l2 = 1%nat /\ calls_fail l2 = 0%nat /\ session l2 = Some opened_world /\ behind l2 = Some left_over.
Proof.
  apply (@browser_opens armhf (replicate 80 7) [] [] (length_replicate _ _) None (str "/") chrome_fields [129; 0]
    (singly (head_text (request_lines (str "GET") (str "/") (str "HTTP/1.1") chrome_fields) ++ [129; 0]))).
  - exact chrome_browser.
  - repeat constructor.
  - repeat constructor; discriminate.
  - apply Forall_forall. intros b Hb. apply list_elem_of_fmap in Hb as (c & -> & _). vm_compute. discriminate.
  - vm_compute. reflexivity.
  - vm_compute. discriminate.
Defined.
