(* ===== verification/OpeningLife.v ===== *)
(** * The life of a connection: theorems

    Every handler of the handshake and of the session is defined in every order of
    events; a connection opens or fails once, is never forgotten, and a stalled
    handshake ends with its timer. *)
From S2P Require Import Prelude Text Sha1 Base64 Md5 Http HttpProps WsFrame WsFrameProps Hybi13 WsConnection WsSession WsSessionProps Handshake Opening OpeningProps OpeningSession.
Import http hybi13 WsConnection.

(** ** Handlers step by step *)

(** The handler is defined, no exception leaves it, and [Q] holds of what it
    returns, leaves and asks. *)
Definition does {A} (m : ohandler A) (o : opening) (Q : A -> opening -> list oaction -> Prop) : Prop :=
  match m o with Ok (a, o', l) => Q a o' l | _ => False end.

Lemma does_bind {A B} (m : ohandler A) (k : A -> ohandler B) o Q :
  does m o (fun a o1 l1 => does (k a) o1 (fun b o2 l2 => Q b o2 (l1 ++ l2))) -> does (m ≫= k) o Q.
Proof.
  unfold does. cbv beta delta [mbind ohandler_bind] iota. destruct (m o) as [[[a o1] l1]|c|]; [|done|done].
  by destruct (k a o1) as [[[b o2] l2]|c|].
Qed.
Lemma does_mono {A} (m : ohandler A) o (P Q : A -> opening -> list oaction -> Prop) :
  does m o P -> (forall a o' l, P a o' l -> Q a o' l) -> does m o Q.
Proof. unfold does. destruct (m o) as [[[a o1] l1]|c|]; auto. Qed.
Lemma does_ret {A} (a : A) o (Q : A -> opening -> list oaction -> Prop) : Q a o [] -> does (mret a) o Q.
Proof. done. Qed.
Lemma does_self o Q : Q o o [] -> does self o Q.
Proof. done. Qed.
Lemma does_change f o Q : Q tt (f o) [] -> does (change f) o Q.
Proof. done. Qed.
Lemma does_change_con f o Q : Q tt (set_con (f (con o)) o) [] -> does (change_con f) o Q.
Proof. done. Qed.
Lemma does_ask a o Q : Q tt o [a] -> does (ask a) o Q.
Proof. done. Qed.
Lemma does_lift {A} (m : result A) a o (Q : A -> opening -> list oaction -> Prop) :
  m = Ok a -> Q a o [] -> does (lift m) o Q.
Proof. by intros ->. Qed.

(** Runs a handler up to the next call that is not one of these. *)
Ltac ostep :=
  cbv beta iota zeta;
  repeat (match goal with
          | |- does (mbind _ _) _ _ => apply does_bind
          | |- does (mret _) _ _ => apply does_ret
          | |- does self _ _ => apply does_self
          | |- does (change _) _ _ => apply does_change
          | |- does (change_con _) _ _ => apply does_change_con
          | |- does (ask _) _ _ => apply does_ask
          end; cbv beta iota zeta).

(** ** What the handlers of the handshake do *)

(** The error of a response, and its status. *)
Definition outcome (ec : option error_code) (o : opening) : Prop :=
  match ec with
  | None => m_status_code (m_response o) = switching_protocols
  | Some e => e <> EndpointError http_connection_ended /\
      m_status_code (m_response o) <> uninitialized /\ m_status_code (m_response o) <> switching_protocols
  end.

(** Neither the connection nor what is behind the request has changed. *)
Definition keeps (o o' : opening) : Prop := con o' = con o /\ m_buf_rest o' = m_buf_rest o.

(** A response is written, and the connection waits for it. *)
Definition responds (o : opening) (_ : unit) (o' : opening) (l : list oaction) : Prop :=
  exists ec octets, l = [WriteHandshake octets] /\ con o' = responding ec o /\ outcome ec o' /\ m_buf_rest o' = m_buf_rest o.

Section handlers.
Context `{Machine}.
Context (w0 key_final buf64 : list Z).
#[local] Set Default Proof Using "Type".

Lemma write_response_shape ec o : outcome ec o -> does (write_http_response ec) o (fun _ o' l =>
  exists octets, l = [WriteHandshake octets] /\ con o' = set_ec ec (con o) /\ outcome ec o' /\ m_buf_rest o' = m_buf_rest o).
Proof.
  intros Ho. destruct o as [c r res pv u subs sub br]. unfold write_http_response.
  assert (ec <> Some (EndpointError http_connection_ended) /\ m_status_code res <> uninitialized) as [He Hs].
  { destruct ec as [e|]; cbn in Ho; [split; [destruct Ho; congruence|tauto]|split; [done|by rewrite Ho]]. }
  rewrite bool_decide_eq_false_2 by done. ostep. cbn [m_response].
  rewrite (proj2 (Z.eqb_neq _ _) Hs). ostep.
  eexists. split; [reflexivity|]. split; [reflexivity|]. split; [|reflexivity].
  cbn [m_response set_con set_response con]. by destruct ec; cbn [outcome m_response] in *; destruct (is_nil _).
Qed.

Lemma write_error_shape ec o : m_internal_state (con o) = READ_HTTP_REQUEST -> outcome (Some ec) o ->
  does (write_http_response_error (Some ec)) o (responds o).
Proof.
  intros Hi Ho. unfold write_http_response_error. ostep. rewrite bool_decide_eq_true_2 by done. cbn [negb]. ostep.
  eapply does_mono; [by apply write_response_shape|]. intros [] o' l (x & -> & E1 & E2 & E3). by exists (Some ec), x.
Qed.

Lemma response_append_ok key val r : existsb is_not_token_char key = false ->
  exists p, response_append key val r = Ok (with_rbase p r).
Proof.
  intros E. unfold response_append, append_header. rewrite E. destruct (is_nil _); by eexists.
Qed.

(** The member function of the version only writes headers. *)
Lemma process_handshake_shape v r sub res : exists res',
  process_handshake w0 key_final buf64 v r sub res = Ok (None, res') /\ m_status_code res' = m_status_code res.
Proof.
  destruct v; unfold process_handshake, hybi00_process_handshake, hybi13_process_handshake;
    repeat match goal with
    | |- context [response_append (str ?k) ?val ?r] =>
        destruct (response_append_ok (str k) val r eq_refl) as (? & ->); cbv beta iota delta [mbind result_bind]
    | |- context [if is_nil ?x then _ else _] => destruct (is_nil x)
    end; (eexists; split; [reflexivity|done]).
Qed.

Lemma negotiate_shape v r : (exists l, negotiate_extensions v r = (Some extension_parse_error, l)) \/
  negotiate_extensions v r = (None, []).
Proof.
  unfold negotiate_extensions, negotiate_extensions_helper. cbn [enable_extensions negb].
  destruct v; [by right|..]; destruct (get_header_as_plist _ _) as [[] p]; [left|right|left|right|left|right]; by try eexists.
Qed.

Lemma does_refuse code e o Q :
  Q (Some e) (set_response (set_status_code code (m_response o)) o) [] -> does (refuse code e) o Q.
Proof. done. Qed.

Lemma process_request_shape o : (is_websocket_handshake (m_request o) = true -> m_processor_version o <> None) ->
  does (process_handshake_request w0 key_final buf64) o (fun ec o' l => l = [] /\ keeps o o' /\ outcome ec o').
Proof.
  destruct o as [c r res pv u subs sub br]. cbn [m_request m_processor_version]. intros Hp.
  unfold process_handshake_request. ostep. cbn [m_request]. destruct (is_websocket_handshake r) eqn:Hw; cbn [negb].
  2: { ostep. destruct (u_valid _); cbn [negb]; by apply does_refuse. }
  destruct pv as [v|]; [|by specialize (Hp eq_refl)]. ostep.
  apply (does_lift _ v); [done|]. cbv beta iota zeta.
  destruct (validate_handshake v r) as [e|]; [by apply does_refuse|].
  destruct (negotiate_shape v r) as [[l ->]| ->]; cbn [fst snd]; [by apply does_refuse|].
  ostep. cbn [is_nil]. destruct (u_valid (get_uri v r)); cbn [negb]; [|by apply does_refuse].
  ostep. destruct (process_handshake_shape v r sub (set_status_code switching_protocols res)) as (res' & E & Es).
  eapply does_lift; [exact E|]. ostep. by split.
Qed.

Lemma initialize_shape o : does initialize_processor o (fun ec o' l => l = [] /\ keeps o o' /\
  m_request o' = m_request o /\
  match ec with
  | None => is_websocket_handshake (m_request o) = true -> m_processor_version o' <> None
  | Some e => outcome (Some e) o'
  end).
Proof.
  destruct o as [c r res pv u subs sub br]. unfold initialize_processor. ostep. cbn [m_request].
  destruct (is_websocket_handshake r) eqn:Hw; cbn [negb]; ostep; [|by split_and!].
  destruct (get_websocket_version r <? 0); ostep; [by split_and!|].
  destruct (get_processor (get_websocket_version r)) as [v|]; ostep; by split_and!.
Qed.

(** The response to a request that is complete. *)
Lemma answer_shape b o1 o : con o1 = set_istate PROCESS_HTTP_REQUEST (con o) -> m_buf_rest o1 = b ->
  (is_websocket_handshake (m_request o1) = true -> m_processor_version o1 <> None) ->
  does (process_handshake_request w0 key_final buf64) o1 (fun ec o2 l1 =>
    does (write_http_response ec) o2 (fun a o3 l2 => responds (set_buf_rest b o) a o3 (l1 ++ l2))).
Proof.
  intros Ec Eb Hv. eapply does_mono; [by apply process_request_shape|]. intros ec o2 l (-> & [Ec2 Eb2] & Ho).
  eapply does_mono; [by apply write_response_shape|]. intros [] o3 l (x & -> & E1 & E2 & E3).
  exists ec, x. unfold responding. rewrite E1, Ec2, E3, Eb2, Ec. by split_and!.
Qed.

Lemma request_ready_shape buf n o : m_internal_state (con o) = READ_HTTP_REQUEST ->
  does (request_ready w0 key_final buf64 buf n) o (fun a o' l =>
    responds o a o' l \/ exists k, responds (set_buf_rest (drop k buf) o) a o' l).
Proof.
  intros Hi. unfold request_ready. ostep. eapply does_mono; [apply initialize_shape|].
  intros ec o1 l (-> & [Ec Eb] & Eq & Ho). destruct ec as [e|].
  { eapply does_mono; [apply write_error_shape; [by rewrite Ec|done]|]. intros [] o2 l (ec & x & -> & E1 & E2 & E3).
    left. exists ec, x. unfold responding in *. by rewrite E1, E3, Ec, Eb. }
  ostep. assert (forall k o2, con o2 = set_istate PROCESS_HTTP_REQUEST (con o) -> m_buf_rest o2 = drop k buf ->
      m_processor_version o2 = m_processor_version o1 -> (m_processor_version o1 = None -> m_request o2 = m_request o) ->
      does (process_handshake_request w0 key_final buf64) o2 (fun ec o3 l1 =>
        does (write_http_response ec) o3 (fun a o' l2 =>
          responds o a o' (l1 ++ l2) \/ exists k, responds (set_buf_rest (drop k buf) o) a o' (l1 ++ l2)))) as Hgo.
  { intros k o2 E1 E2 E3 E4. eapply does_mono; [apply (answer_shape _ o2 o E1 E2)|].
    - intros Hw. rewrite E3. intros Hn. rewrite (E4 Hn) in Hw. by apply Ho.
    - intros ec o3 l1 Hd. eapply does_mono; [exact Hd|]. intros a o' l Hr. right. by exists k. }
  destruct (m_processor_version o1) as [[]|] eqn:Ev; ostep;
    try (apply (Hgo n); [cbn; by rewrite Ec|done|done|done]).
  unfold read_key3. destruct (8 <=? length buf - n)%nat; ostep;
    [apply (Hgo (n + 8)%nat); [cbn; by rewrite Ec|done|done|done]|].
  eapply does_mono; [by apply write_error_shape; [cbn; rewrite Ec|]|]. intros [] o2 l (ec & x & -> & E1 & E2 & E3).
  ostep. left. exists ec, x. unfold responding in *. cbn [set_response con m_buf_rest] in *. by rewrite E1, E3, Ec, Eb.
Qed.

(** A read of the handshake asks for more, or the request is answered, or the
    connection ends. *)
Definition more_to_read (o o' : opening) (l : list oaction) : Prop :=
  l = [ReadHandshake 1] /\ exists r, o' = set_request r o /\ request_ok r.
Definition ended (o o' : opening) (l : list oaction) : Prop :=
  l = [CancelOpenTimer; ShutdownTransport t_failed] /\ m_state (con o') = closed /\
  m_handshake_timer (con o') = false /\ m_ec (con o') <> Some (EndpointError http_connection_ended).

Lemma terminate_shape ec o : transport_ec ec -> m_handshake_timer (con o) = true -> m_state (con o) = connecting ->
  m_ec (con o) <> Some (EndpointError http_connection_ended) ->
  does (oterminate ec) o (fun _ o' l => ended o o' l).
Proof.
  intros He Ht Hs Hm. unfold oterminate. ostep. rewrite Ht. ostep. unfold ended.
  destruct ec as [e|]; ostep; rewrite bool_decide_eq_true_2 by done; ostep; by split_and!.
Qed.

Lemma read_shape buf o : reading o -> request_ok (m_request o) -> m_handshake_timer (con o) = true -> m_ec (con o) = None ->
  does (handle_read_handshake w0 key_final buf64 None buf) o (fun a o' l =>
    more_to_read o o' l \/ ended o o' l \/ responds o a o' l \/ exists k, responds (set_buf_rest (drop k buf) o) a o' l).
Proof.
  intros Ho Hok Ht Hm. pose proof Ho as (Hst & His & Hres & _). unfold handle_read_handshake. ostep.
  rewrite Hst, bool_decide_eq_true_2 by done. cbv beta iota zeta.
  assert (forall o1 ec, con o1 = con o -> transport_ec ec -> does (oterminate ec) o1 (fun a o' l =>
    more_to_read o o' l \/ ended o o' l \/ responds o a o' l \/ exists k, responds (set_buf_rest (drop k buf) o) a o' l)) as Hend.
  { intros o1 ec E He. eapply does_mono; [apply terminate_shape; rewrite ?E; try done; by rewrite Hm|]. tauto. }
  destruct (_ <? _); [by apply Hend|]. pose proof (consume_ok buf (m_request o) Hok) as Hc.
  destruct (http.consume buf (m_request o)) as [[n r]|code|] eqn:E; [|ostep|done].
  - ostep. destruct (_ <? _)%nat; [by apply Hend|]. destruct (m_ready r).
    + eapply does_mono; [by apply request_ready_shape|]. intros [] o' l Hr. right. right.
      destruct Hr as [(ec & x & ?)|(k & ec & x & ?)]; [left|right; exists k]; by exists ec, x.
    + ostep. left. split; [done|]. exists r. split; [done|]. tauto.
  - eapply does_mono; [apply write_error_shape; [done|]|].
    + pose proof (consume_codes _ _ _ E) as Hcode. unfold error_codes in Hcode. split; [done|]. cbn.
      simpl in Hcode. destruct Hcode as [<-|[<-|[<-|[<-|[]]]]]; done.
    + intros [] o' l (ec & x & -> & E1 & E2 & E3). right. right. left. by exists ec, x.
Qed.
End handlers.

(** ** Every event *)
Section life.
Context `{MachineLaws}.
Context (w0 key_final buf64 : list Z) (ping_handler : option (list Z -> bool)).
#[local] Set Default Proof Using "Type*".

#[local] Abbreviation lrun_event := (lrun_event w0 key_final buf64 ping_handler).
#[local] Abbreviation lreachable := (lreachable w0 key_final buf64 ping_handler).

Definition initing_opening : opening := set_con (set_istate TRANSPORT_INIT (con new_opening)) new_opening.

(** An opening that came to its end. *)
Definition dead (o : opening) : Prop :=
  m_state (con o) = closed /\ m_handshake_timer (con o) = false /\
  m_ec (con o) <> Some (EndpointError http_connection_ended).

(** What is under way then; its fail handler has been called, or will be. *)
Definition remains (r : nat) (wr : option (list Z)) (t : nat) (sh : list terminate_status) (f : nat) : Prop :=
  (r + match wr with Some _ => 1 | None => 0 end <= 1)%nat /\ (t <= 1)%nat /\
  Forall (fun s => s = t_failed) sh /\ (f + length sh = 1)%nat.

(** The phases: accepted, started, the request, the response, the end before it was
    open, and the session. *)
Inductive life_inv : life -> Prop :=
| inv_accepting : life_inv new_life
| inv_initing : life_inv (Life initing_opening 0 1 0 None 0 [] 0 0 0 None None)
| inv_reading o t : reading o -> request_ok (m_request o) -> con o = con reading_opening -> m_buf_rest o = [] ->
    (t <= 1)%nat -> life_inv (Life o 0 0 1 None t [] 0 0 0 None None)
| inv_responding o ec octets t : con o = responding ec reading_opening -> outcome ec o -> Forall is_byte (m_buf_rest o) ->
    (t <= 1)%nat -> life_inv (Life o 0 0 0 (Some octets) t [] 0 0 0 None None)
| inv_dead o r wr t sh f : dead o -> remains r wr t sh f ->
    life_inv (Life o 0 0 r wr t sh 0 f 0 None None)
| inv_open o t b s : reachable ping_handler s -> (t <= 1)%nat ->
    life_inv (Life o 0 0 0 None t [] 1 0 0 b (Some s)).

Definition lsteps (e : levent) (w : life) : Prop := exists w', lrun_event e w = Some w' /\ life_inv w'.

Lemma lrun_does h w : does h (me w) (fun _ o l => life_inv (fold_left operform l (with_me o w))) ->
  exists w', lrun h w = Some w' /\ life_inv w'.
Proof. unfold does, lrun. destruct (h (me w)) as [[[[] o] l]|c|]; [|done|done]. by eexists. Qed.

(** On a connection that is closed the late completions change nothing but the error. *)
Lemma terminate_dead ec o : dead o -> transport_ec ec -> does (oterminate ec) o (fun _ o' l => l = [] /\ dead o').
Proof.
  intros (Hs & Ht & Hm) He. unfold oterminate. ostep. rewrite Ht. ostep.
  destruct ec as [e|]; ostep; rewrite Hs; cbn [negb bool_decide decide decide_rel]; rewrite ?bool_decide_eq_false_2, ?bool_decide_eq_true_2 by done; cbn [negb]; ostep; split; try done; split_and!; done.
Qed.

Lemma dead_read r wr t sh f o ec buf : dead o -> transport_ec ec -> remains r wr t sh f -> (0 < r)%nat ->
  lsteps (HandshakeRead ec buf) (Life o 0 0 r wr t sh 0 f 0 None None).
Proof.
  intros Hd He (Hr & Hrest) Hpos. apply lrun_does. cbn [me with_hreads hreads].
  assert (forall o', dead o' -> life_inv (Life o' 0 0 (r - 1) wr t sh 0 f 0 None None)) as Hinv.
  { intros o' Ho'. apply inv_dead; [done|]. split; [lia|done]. }
  unfold handle_read_handshake. ostep. destruct ec as [e|].
  - destruct (_ && _); ostep; [by apply Hinv|]. eapply does_mono; [by apply terminate_dead|].
    intros [] o' l [-> Ho']. by apply Hinv.
  - pose proof Hd as (Hcl & _). rewrite Hcl. ostep. by apply Hinv.
Qed.

Lemma dead_written r octets t sh f o ec : dead o -> transport_ec ec -> remains r (Some octets) t sh f ->
  lsteps (HandshakeWritten ec) (Life o 0 0 r (Some octets) t sh 0 f 0 None None).
Proof.
  intros Hd He (Hr & Hrest). apply lrun_does. cbn [me with_hwriting hwriting].
  assert (forall o', dead o' -> life_inv (Life o' 0 0 r None t sh 0 f 0 None None)) as Hinv.
  { intros o' Ho'. apply inv_dead; [done|]. split; [lia|done]. }
  unfold handle_write_http_response. ostep. destruct ec as [e|].
  - destruct (_ && _); ostep; [by apply Hinv|]. eapply does_mono; [by apply terminate_dead|].
    intros [] o' l [-> Ho']. by apply Hinv.
  - pose proof Hd as (Hcl & _). rewrite Hcl. ostep. by apply Hinv.
Qed.

Lemma dead_timer r wr t sh f o ec : dead o -> transport_ec ec -> remains r wr t sh f ->
  lsteps (OpenTimer ec) (Life o 0 0 r wr t sh 0 f 0 None None).
Proof.
  intros Hd He (Hr & Ht & Hrest). apply lrun_does. cbn [me with_open_timers open_timers].
  assert (forall o', dead o' -> life_inv (Life o' 0 0 r wr (t - 1) sh 0 f 0 None None)) as Hinv.
  { intros o' Ho'. apply inv_dead; [done|]. split; [done|]. split; [lia|done]. }
  unfold Opening.handle_open_handshake_timeout. destruct ec as [e|]; ostep; [by apply Hinv|].
  eapply does_mono; [by apply terminate_dead|]. intros [] o' l [-> Ho']. by apply Hinv.
Qed.

Lemma dead_shutdown r wr t sh f o ec : dead o -> remains r wr t sh f -> sh <> [] ->
  lsteps (HandshakeShutdown ec) (Life o 0 0 r wr t sh 0 f 0 None None).
Proof.
  intros Hd (Hr & Ht & Hs & Hf) Hn. destruct sh as [|s sh]; [done|]. apply Forall_cons in Hs as [-> Hs].
  apply lrun_does. unfold ohandle_terminate. ostep. pose proof Hd as (_ & _ & Hm).
  rewrite bool_decide_eq_false_2 by done. cbn [negb]. ostep. apply inv_dead; [done|].
  split_and!; [done|done|done|]. simpl in *. lia.
Qed.

(** Before it is open a connection ends with its timer, and with an error of the
    transport. *)
Lemma ended_inv r wr t o o' l : ended o o' l -> (r + match wr with Some _ => 1 | None => 0 end <= 1)%nat -> (t <= 1)%nat ->
  life_inv (fold_left operform l (with_me o' (Life o 0 0 r wr t [] 0 0 0 None None))).
Proof.
  intros (-> & Hc & Ht & Hm) Hr Ht'. cbn. apply inv_dead; [by split_and!|]. split_and!; [done|done|by repeat constructor|done].
Qed.

Lemma event_accepted ec : transport_ec ec -> lsteps (Accepted ec) new_life.
Proof.
  intros He. apply lrun_does. destruct ec as [e|]; [|apply inv_initing]. cbn.
  apply inv_dead; [by split_and!|]. split_and!; repeat constructor.
Qed.

Lemma event_init ec : transport_ec ec -> lsteps (InitDone ec) (Life initing_opening 0 1 0 None 0 [] 0 0 0 None None).
Proof.
  intros He. apply lrun_does. destruct ec as [e|]; cbn.
  - apply inv_dead; [by split_and!|]. split_and!; repeat constructor.
  - apply inv_reading; [by split_and!|apply new_request_ok|done|done|done].
Qed.

(** The timer, before the connection has ended or is open. *)
Lemma alive_timer r wr t o ec : m_handshake_timer (con o) = true -> m_state (con o) = connecting ->
  m_ec (con o) <> Some (EndpointError http_connection_ended) ->
  (r + match wr with Some _ => 1 | None => 0 end <= 1)%nat -> (t <= 1)%nat ->
  life_inv (Life o 0 0 r wr (t - 1) [] 0 0 0 None None) ->
  lsteps (OpenTimer ec) (Life o 0 0 r wr t [] 0 0 0 None None).
Proof.
  intros Ht Hs Hm Hr Ht' Hinv. apply lrun_does. cbn [me with_open_timers open_timers].
  unfold Opening.handle_open_handshake_timeout. destruct ec as [e|]; ostep; [done|].
  eapply does_mono; [by apply terminate_shape|]. intros [] o' l He.
  apply (ended_inv r wr (t - 1)); [done|done|lia].
Qed.

Lemma event_handshake_read ec buf o t : reading o -> request_ok (m_request o) -> con o = con reading_opening -> m_buf_rest o = [] ->
  (t <= 1)%nat -> transport_ec ec -> Forall is_byte buf ->
  lsteps (HandshakeRead ec buf) (Life o 0 0 1 None t [] 0 0 0 None None).
Proof.
  intros Ho Hok Ec Er Ht He Hb. apply lrun_does. cbn [me with_hreads hreads Nat.sub]. destruct ec as [e|].
  - unfold handle_read_handshake. ostep. pose proof Ho as (Hs & _). rewrite Hs, andb_false_r.
    eapply does_mono; [apply terminate_shape; by rewrite ?Ec|]. intros [] o' l Hend. apply (ended_inv 0 None t o); [done|simpl; lia|done].
  - eapply does_mono; [apply read_shape; try done; by rewrite ?Ec|].
    intros [] o' l [(-> & r & -> & Hr)|[Hend|[(ec & x & -> & E1 & E2 & E3)|(k & ec & x & -> & E1 & E2 & E3)]]].
    + by apply inv_reading.
    + apply (ended_inv 0 None t o); [done|simpl; lia|done].
    + cbn. apply (inv_responding o' ec); [by rewrite E1; unfold responding; rewrite Ec|done|by rewrite E3, Er|done].
    + cbn. apply (inv_responding o' ec); [by rewrite E1; unfold responding; cbn; rewrite Ec|done| |done].
      rewrite E3. by apply Forall_drop.
Qed.

Lemma event_written ec o ec0 octets t : con o = responding ec0 reading_opening -> outcome ec0 o ->
  (t <= 1)%nat -> transport_ec ec -> lsteps (HandshakeWritten ec) (Life o 0 0 0 (Some octets) t [] 0 0 0 None None).
Proof.
  intros Ec Ho Ht He. apply lrun_does. cbn [me with_hwriting].
  assert (ec0 <> Some (EndpointError http_connection_ended)) as He0.
  { destruct ec0; [|done]. destruct Ho. congruence. }
  unfold handle_write_http_response. ostep. rewrite Ec. destruct ec as [e|].
  - cbn [m_state responding set_istate set_ec con reading_opening new_opening set_con set_handshake_timer].
    rewrite andb_false_r. eapply does_mono; [apply terminate_shape; by rewrite ?Ec|].
    intros [] o' l Hend. apply (ended_inv 0 None t o); [done|simpl; lia|done].
  - cbn [m_state m_internal_state responding set_istate set_ec con reading_opening new_opening set_con set_handshake_timer].
    rewrite bool_decide_eq_true_2 by done. destruct o as [c r res pv u subs sub br]. cbn in Ec. subst c.
    cbn [con]. change (m_handshake_timer (responding ec0 reading_opening)) with true. ostep. cbn [m_response set_con]. destruct ec0 as [e|].
    + destruct Ho as (_ & _ & Hs). cbn [m_response] in Hs. rewrite (proj2 (Z.eqb_neq _ _) Hs). cbn [negb].
      unfold oterminate. ostep. cbn [con set_con set_handshake_timer m_handshake_timer]. ostep.
      change (m_ec (responding (Some e) reading_opening)) with (Some e). cbv iota. ostep. rewrite bool_decide_eq_true_2 by done. ostep. apply (inv_dead _ 0 None t [t_failed] 0); [by split_and!|].
      split_and!; [simpl; lia|done|by repeat constructor|done].
    + cbn [outcome m_response] in Ho. rewrite Ho. cbn [negb switching_protocols Z.eqb Pos.eqb]. ostep.
      apply (inv_open _ t _ opened_world); [apply reach_open|done].
Qed.

(** After the open handler the session takes the events. *)
Lemma session_step e s : reachable ping_handler s -> enabled e s ->
  exists s', run_event ping_handler e s = Some s' /\ reachable ping_handler s'.
Proof.
  intros Hr He. destruct (event_ok ping_handler e s (session_reachable_inv _ s Hr) He) as (s' & E & _).
  exists s'. split; [done|]. by eapply reach_step.
Qed.

Lemma life_step e w : life_inv w -> lenabled e w -> lsteps e w.
Proof.
  destruct e as [ec|ec|ec buf|ec|ec|ec|e];
    intros [| |o t Ho Hok Ec Er Ht|o ec0 octets t Ec Hout Hb Ht|o r wr t sh f Hd Hr|o t b s Hr Ht] He; cbn in He;
    try (by destruct He); try lia; try (by destruct He as [[] ?]); try (destruct He; lia).
  - apply event_accepted, He.
  - apply event_init, He.
  - apply event_handshake_read; tauto.
  - apply dead_read; try done; tauto.
  - apply (event_written ec o ec0); tauto.
  - destruct He as [[octets ->] He]. by apply dead_written.
  - apply alive_timer; rewrite ?Ec; try done; try (simpl; lia). apply inv_reading; try done. lia.
  - apply alive_timer; rewrite ?Ec; try done; try (simpl; lia); [destruct ec0; [destruct Hout; cbn; congruence|done]|].
    apply (inv_responding o ec0); try done. lia.
  - apply dead_timer; tauto.
  - destruct (session_step (OpenTimerDone ec) s Hr) as (s' & E & Hr'); [done|].
    unfold lsteps. cbn -[run_event]. rewrite E. cbn [mbind option_bind]. eexists. split; [done|]. apply inv_open; [done|simpl; lia].
  - by apply dead_shutdown.
  - destruct He as [He _]. destruct (session_step e s Hr He) as (s' & E & Hr').
    unfold lsteps. cbn -[run_event]. rewrite E. cbn [mbind option_bind]. eexists. split; [done|]. by apply inv_open.
Qed.

Lemma life_reachable_inv w : lreachable w -> life_inv w.
Proof.
  induction 1 as [|w e w' _ IH He E]; [apply inv_accepting|].
  destruct (life_step e w IH He) as (w2 & E2 & Hi). rewrite E in E2. by simplify_eq.
Qed.

Lemma connection_runs w e : lreachable w -> lenabled e w -> exists w', lrun_event e w = Some w'.
Proof.
  intros Hr He. destruct (life_step e w (life_reachable_inv w Hr) He) as (w' & E & _). by exists w'.
Qed.

(** The operations of the handshake that are under way. *)
Definition under_way (w : life) : nat :=
  (accepting w + inits w + hreads w + match hwriting w with Some _ => 1 | None => 0 end + length (hshutdowns w))%nat.

(** C7. A connection from the accept to its end, whatever arrives (after a handshake
    of version 0: nothing but the timer, see [OpeningSession]), whatever threads
    send and in whatever order operations of the transport end and timers fire,
    that of the handshake after the connection is open included: no handler has
    undefined behaviour and no exception leaves one; there is one operation of
    the handshake under way at most; the open handler and the fail handler are
    called once at most and never both; the close handler is called once at most,
    after the open handler and when the connection is closed; and no connection
    is forgotten, for when nothing of the handshake is under way one of the first
    two has been called. *)
Theorem connection_lifecycle w e : lreachable w ->
  (lenabled e w -> exists w', lrun_event e w = Some w') /\
  (calls_open w + calls_fail w <= 1)%nat /\ calls_close w = 0%nat /\
  (accepting w + inits w + hreads w + match hwriting w with Some _ => 1 | None => 0 end <= 1)%nat /\
  (under_way w = 0%nat -> (calls_open w + calls_fail w = 1)%nat) /\
  match session w with
  | None => calls_open w = 0%nat
  | Some s => calls_open w = 1%nat /\ fails s = 0%nat /\ (closes s <= 1)%nat /\
      (closes s = 1%nat -> m_state (WsSession.con s) = closed /\ shutdowns s = [])
  end.
Proof.
  intros Hr. apply life_reachable_inv in Hr as Hi. split; [by apply connection_runs|].
  destruct Hi as [| |o t Ho Hok Ec Er Ht|o ec0 octets t Ec Hout Hb Ht|o r wr t sh f Hd (H1 & H2 & H3 & H4)|o t b s Hs Ht];
    unfold under_way; cbn -[Nat.add]; try (split_and!; lia).
  pose proof (session_ends ping_handler s (session_reachable_inv _ s Hs)) as Hends.
  do 5 (split; [lia|]). exact Hends.
Qed.

(** The timer leaves the connection to the shutdown, and this calls the fail handler. *)
Lemma alive_expires r wr t o : m_handshake_timer (con o) = true -> m_state (con o) = connecting ->
  m_ec (con o) <> Some (EndpointError http_connection_ended) ->
  exists o', dead o' /\ lrun_event (OpenTimer None) (Life o 0 0 r wr t [] 0 0 0 None None) =
    Some (Life o' 0 0 r wr (t - 1) [t_failed] 0 0 0 None None).
Proof.
  intros Ht Hs Hm. pose proof (terminate_shape (Some (EndpointError open_handshake_timeout)) o) as Hd.
  specialize (Hd ltac:(discriminate) Ht Hs Hm). unfold does in Hd.
  destruct (oterminate _ o) as [[[[] o'] l]|c|] eqn:E; [|done|done]. destruct Hd as (-> & Hd). exists o'. split; [done|].
  cbn -[oterminate]. unfold lrun. cbn -[oterminate]. by rewrite E.
Qed.

Lemma dead_expires r wr t sh f o : dead o ->
  exists o', dead o' /\ lrun_event (OpenTimer None) (Life o 0 0 r wr t sh 0 f 0 None None) =
    Some (Life o' 0 0 r wr (t - 1) sh 0 f 0 None None).
Proof.
  intros Hd. pose proof (terminate_dead (Some (EndpointError open_handshake_timeout)) o Hd ltac:(discriminate)) as Hd'.
  unfold does in Hd'. destruct (oterminate _ o) as [[[[] o'] l]|c|] eqn:E; [|done|done]. destruct Hd' as [-> Hd'].
  exists o'. split; [done|]. cbn -[oterminate]. unfold lrun. cbn -[oterminate]. by rewrite E.
Qed.

Lemma shutdown_fails r wr t f o ec : dead o ->
  lrun_event (HandshakeShutdown ec) (Life o 0 0 r wr t [t_failed] 0 f 0 None None) =
    Some (Life o 0 0 r wr t [] 0 (S f) 0 None None).
Proof.
  intros (_ & _ & Hm). assert (ohandle_terminate t_failed ec o = Ok (tt, o, [CallFail])) as E.
  { unfold ohandle_terminate. orun. by rewrite bool_decide_eq_false_2. }
  cbn -[ohandle_terminate]. unfold lrun. cbn -[ohandle_terminate]. by rewrite E.
Qed.

(** C10. The timer ends a handshake that does not go on: from every reachable state in
    which it runs and nobody was told, when it expires, whatever is under way, the
    connection is closed and shut down, and with the shutdown the fail handler
    has been called. *)
Theorem stalled_handshake_fails w ec : lreachable w -> session w = None -> (0 < open_timers w)%nat -> calls_fail w = 0%nat ->
  exists w1 w2, lrun_event (OpenTimer None) w = Some w1 /\ lrun_event (HandshakeShutdown ec) w1 = Some w2 /\
    m_state (con (me w2)) = closed /\ calls_fail w2 = 1%nat /\ calls_open w2 = 0%nat /\ session w2 = None.
Proof.
  intros Hr Hs Ht Hf. apply life_reachable_inv in Hr as Hi.
  assert (exists o r wr t, dead o /\ lrun_event (OpenTimer None) w = Some (Life o 0 0 r wr t [t_failed] 0 0 0 None None))
    as (o & r & wr & t & Hd & E).
  { destruct Hi as [| |o t Ho Hok Ec Er H1|o ec0 octets t Ec Hout Hb H1|o r wr t sh f Hd (H1 & H2 & H3 & H4)|o t b s Hi H1];
      try (simpl in Ht; lia); [| | |done].
    - destruct (alive_expires 1 None t o) as (o' & Hd & E); rewrite ?Ec; try done. by exists o', 1%nat, None, (t - 1)%nat.
    - destruct (alive_expires 0 (Some octets) t o) as (o' & Hd & E); rewrite ?Ec; try done;
        [destruct ec0; [destruct Hout; cbn; congruence|done]|]. by exists o', 0%nat, (Some octets), (t - 1)%nat.
    - simpl in Hf. subst f. destruct sh as [|s [|]]; try (simpl in H4; lia). apply Forall_cons in H3 as [-> _].
      destruct (dead_expires r wr t [t_failed] 0 o Hd) as (o' & Hd' & E). by exists o', r, wr, (t - 1)%nat. }
  do 2 eexists. split; [exact E|]. split; [by apply shutdown_fails|]. split; [apply Hd|done].
Qed.

End life.

(** ** Examples *)
Section life_witnesses.
#[local] Existing Instance armhf.
#[local] Existing Instance armhf_laws.

Definition example_buffer : list Z := replicate 80 7.

(** Runs events of the handshake that can happen one after the other. *)
Definition can_happen (e : levent) (w : life) : bool :=
  match e with
  | Accepted None => (0 <? accepting w)%nat
  | InitDone None => (0 <? inits w)%nat
  | HandshakeRead None buf => (0 <? hreads w)%nat && forallb (fun b => (0 <=? b) && (b <? 256)) buf
  | HandshakeWritten None => match hwriting w with Some _ => true | None => false end
  | OpenTimer None => (0 <? open_timers w)%nat
  | _ => false
  end.
Fixpoint happen (es : list levent) (w : life) : option life :=
  match es with
  | [] => Some w
  | e :: es =>
      if can_happen e w then w ← lrun_event example_buffer [] [] None e w; happen es w else None
  end.

Lemma can_happen_enabled e w : can_happen e w = true -> lenabled e w.
Proof.
  destruct e as [[]|[]|[] buf|[]|[]|ec|e]; cbn; try done; intros E; try (split; [by apply Nat.ltb_lt|discriminate]).
  - apply andb_true_iff in E as [E1 E2]. split; [by apply Nat.ltb_lt|]. split; [discriminate|].
    apply Forall_forall. intros b Hb%list_elem_of_In. rewrite forallb_forall in E2. specialize (E2 b Hb). unfold is_byte. lia.
  - split; [by destruct (hwriting w)|discriminate].
Qed.

Lemma happen_reachable es : forall w w', happen es w = Some w' -> lreachable example_buffer [] [] None w ->
  lreachable example_buffer [] [] None w'.
Proof.
  induction es as [|e es IH]; intros w w'; cbn [happen]; [by intros [= ->]|].
  destruct (can_happen e w) eqn:Ec; [|done]. destruct (lrun_event _ _ _ _ e w) as [w1|] eqn:E; [|done].
  intros Eh Hr. eapply (IH w1); [done|]. eapply lreach_step; [done|by apply can_happen_enabled|done].
Qed.

(** The request of RFC 6455 in two reads, with the first octet of a frame. *)
Definition opening_events : list levent :=
  [Accepted None; InitDone None; HandshakeRead None (take 100 rfc_request); HandshakeRead None (drop 100 rfc_request ++ [129]);
   HandshakeWritten None].
Definition life_after (es : list levent) : life := default new_life (happen es new_life).

Lemma life_after_reachable es : happen es new_life <> None -> lreachable example_buffer [] [] None (life_after es).
Proof.
  intros Hn. unfold life_after. destruct (happen es new_life) as [w|] eqn:E; [|done].
  eapply happen_reachable; [exact E|constructor].
Qed.

(** A connection that is open is closed by the timer of its handshake: it was
    cancelled when the response was out, but had expired before. *)
Theorem late_timer_closes_open : exists w w', lreachable example_buffer [] [] None w /\
  (exists s, session w = Some s /\ m_state (WsSession.con s) = open) /\
  lenabled (OpenTimer None) w /\ lrun_event example_buffer [] [] None (OpenTimer None) w = Some w' /\
  exists s', session w' = Some s' /\ m_state (WsSession.con s') = closed /\ shutdowns s' = [t_closed].
Proof.
  assert (lreachable example_buffer [] [] None (life_after opening_events)) as Hr
    by (apply life_after_reachable; vm_compute; discriminate).
  exists (life_after opening_events). eexists. split; [exact Hr|].
  split; [eexists; split; [vm_compute; reflexivity|reflexivity]|].
  split; [apply can_happen_enabled; vm_compute; reflexivity|].
  split; [vm_compute; reflexivity|]. eexists. split; [reflexivity|]. by split.
Qed.

Lemma connection_lifecycle_witness :
  let w := life_after opening_events in
  (exists w', lrun_event example_buffer [] [] None (InSession (ReadDone None [129])) w = Some w') /\
  (calls_open w + calls_fail w <= 1)%nat /\ session w <> None.
Proof.
  assert (lreachable example_buffer [] [] None (life_after opening_events)) as Hr
    by (apply life_after_reachable; vm_compute; discriminate).
  destruct (connection_lifecycle example_buffer [] [] None (life_after opening_events) (InSession (ReadDone None [129])) Hr)
    as (Hd & Hc & _).
  split; [|split; [exact Hc|vm_compute; discriminate]]. apply Hd.
  assert (session (life_after opening_events) = Some opened_world) as Es by (vm_compute; reflexivity).
  assert (behind (life_after opening_events) = Some [129]) as Eb by (vm_compute; reflexivity).
  unfold lenabled. rewrite Es, Eb. split.
  - split; [vm_compute; constructor|]. repeat constructor; discriminate.
  - split; [vm_compute; discriminate|]. intros rest [= <-]. by split.
Defined.

(** Half of the request, and then nothing. *)
Lemma stalled_handshake_fails_witness :
  let w := life_after (take 3 opening_events) in
  exists w1 w2, lrun_event example_buffer [] [] None (OpenTimer None) w = Some w1 /\
    lrun_event example_buffer [] [] None (HandshakeShutdown None) w1 = Some w2 /\
    m_state (con (me w2)) = closed /\ calls_fail w2 = 1%nat /\ calls_open w2 = 0%nat /\ session w2 = None.
Proof.
  apply (stalled_handshake_fails example_buffer [] [] None).
  - apply life_after_reachable. vm_compute. discriminate.
  - vm_compute. reflexivity.
  - vm_compute. constructor.
  - vm_compute. reflexivity.
Defined.

End life_witnesses.
