(* ===== verification/ServerLives.v ===== *)
(** * The server and its connections

    [ws_server] of [src/ws_server.cpp] under the library: connections are
    accepted, live as [OpeningSession] says, each at its own pace, and call
    [on_open], [on_message] and [on_close] as they go. The object of a connection
    lives at least until its end, since the operations under way hold it; then, or
    when it never began and nothing is under way, its address may be used again. *)
From S2P Require Import Prelude Utf8 Http Hybi13 WsFrame WsFrameProps WsConnection WsSession WsSessionProps Handshake Opening OpeningProps OpeningSession OpeningLife.
From S2P Require WsServer.
Import http hybi13 WsConnection.

(** * What a connection tells the program

    Which handlers of [WsConnection] call the message handler and the close
    handler, and when: the calls are followed through the handlers with an
    assertion on the state of the connection and one on the actions. *)

Module Notices.
Import frame hybi13 WsConnection WsSession.

(** Actions the program does not see. *)
Definition quiet (a : action) : Prop :=
  match a with OnMessage _ | OnClose | OnFail => False | _ => True end.

Section calls.
Context `{Machine}.
Context (ping_handler : option (list Z -> bool)).

(** [St] holds of the state of the connection before and after, [P] of the actions. *)
Context (St : session_state -> Prop) (P : action -> Prop).
Hypothesis closing_ok : St closing.
Hypothesis closed_ok : St closed.
Hypothesis quiet_ok : forall a, quiet a -> P a.
Hypothesis message_ok : forall m, St open -> P (OnMessage m).

#[local] Set Default Proof Using "Type*".

Definition follows {A} (h : handler A) : Prop :=
  forall c a c' l, St (m_state c) -> h c = Some (a, c', l) -> St (m_state c') /\ Forall P l.

Lemma follows_bind {A B} (h : handler A) (k : A -> handler B) :
  follows h -> (forall a, follows (k a)) -> follows (h ≫= k).
Proof.
  intros Hh Hk c b c2 l Hc. cbv beta delta [mbind handler_bind] iota.
  destruct (h c) as [[[a c1] l1]|] eqn:E; [|done]. destruct (k a c1) as [[[b' c'] l2]|] eqn:E2; [|done].
  intros [= <- <- <-]. destruct (Hh _ _ _ _ Hc E) as [H1 HP1]. destruct (Hk _ _ _ _ _ H1 E2) as [H2 HP2].
  split; [done|]. by apply Forall_app.
Qed.
Lemma follows_this {B} (k : connection -> handler B) :
  (forall c, St (m_state c) -> follows (k c)) -> follows (this ≫= k).
Proof.
  intros Hk c b c2 l Hc. cbv beta delta [mbind handler_bind this] iota.
  destruct (k c c) as [[[b' c'] l2]|] eqn:E; [|done]. intros [= <- <- <-]. exact (Hk c Hc _ _ _ _ Hc E).
Qed.
Lemma follows_ret {A} (a : A) : follows (mret a).
Proof. intros c b c' l Hc [= <- <- <-]. by split. Qed.
Lemma follows_defined {A} (o : option A) : follows (defined o).
Proof. intros c b c' l Hc. unfold defined. destruct o; [|done]. intros [= <- <- <-]. by split. Qed.
Lemma follows_act a : P a -> follows (act a).
Proof. intros Ha c b c' l Hc [= <- <- <-]. split; [done|]. by repeat constructor. Qed.
Lemma follows_modify f : (forall c, m_state (f c) = m_state c) -> follows (modify f).
Proof. intros Hf c b c' l Hc [= <- <- <-]. rewrite Hf. by split. Qed.
Lemma follows_set_state s : St s -> follows (modify (set_state s)).
Proof. intros Hs c b c' l Hc [= <- <- <-]. by split. Qed.

Create HintDb follows.

Ltac follow :=
  repeat match goal with
    | |- follows (this ≫= _) => apply follows_this; intros ? ?
    | |- follows (_ ≫= _) => apply follows_bind; [|intros ?]
    | |- follows (mret _) => apply follows_ret
    | |- follows (defined _) => apply follows_defined
    | |- follows (act _) => apply follows_act; try (by apply quiet_ok)
    | |- follows (modify (set_state _)) => apply follows_set_state; done
    | |- follows (modify _) => apply follows_modify; done
    | |- follows (match ?x with _ => _ end) => destruct x eqn:?
    end; auto with follows.

Lemma follows_push msg : follows (push_message msg).
Proof. unfold push_message, write_push. follow. Qed.
#[local] Hint Resolve follows_push : follows.
Lemma follows_pop : follows (write_pop).
Proof. unfold write_pop. follow. Qed.
#[local] Hint Resolve follows_pop : follows.
Lemma follows_write_loop fuel : forall m, follows (write_loop fuel m).
Proof. induction fuel as [|fuel IH]; intros [msg|]; cbn [write_loop]; follow. Qed.
#[local] Hint Resolve follows_write_loop : follows.
Lemma follows_write_frame : follows (write_frame).
Proof. unfold write_frame. follow. Qed.
#[local] Hint Resolve follows_write_frame : follows.
Lemma follows_terminate ec : follows (terminate ec).
Proof. unfold terminate. follow. Qed.
#[local] Hint Resolve follows_terminate : follows.
Lemma follows_written ec : follows (handle_write_frame ec).
Proof. unfold handle_write_frame. follow. Qed.
#[local] Hint Resolve follows_written : follows.
Lemma follows_send msg : follows (send_push msg).
Proof. unfold send_push. follow. Qed.
#[local] Hint Resolve follows_send : follows.
Lemma follows_pong payload : follows (pong payload).
Proof. unfold pong, control. follow. Qed.
#[local] Hint Resolve follows_pong : follows.
Lemma follows_send_close code reason ack terminal : follows (send_close_frame code reason ack terminal).
Proof. unfold send_close_frame. follow. Qed.
#[local] Hint Resolve follows_send_close : follows.
Lemma follows_close code reason : follows (close_connection code reason).
Proof. unfold close_connection. follow. Qed.
#[local] Hint Resolve follows_close : follows.
Lemma follows_process_close payload : follows (process_close payload).
Proof. unfold process_close, send_close_ack. follow. Qed.
#[local] Hint Resolve follows_process_close : follows.
Lemma follows_dispatch msg : follows (dispatch ping_handler msg).
Proof.
  unfold dispatch, process_control_frame. follow.
  apply message_ok. rewrite negb_false_iff, bool_decide_eq_true in *. congruence.
Qed.
#[local] Hint Resolve follows_dispatch : follows.
Lemma follows_failed e : follows (consume_failed e).
Proof. unfold consume_failed. follow. Qed.
#[local] Hint Resolve follows_failed : follows.
Lemma follows_read_loop fuel : forall buf, follows (read_loop ping_handler fuel buf).
Proof. induction fuel as [|fuel IH]; intros buf; cbn [read_loop]; follow. Qed.
#[local] Hint Resolve follows_read_loop : follows.
Lemma follows_read ec buf : follows (handle_read_frame ping_handler ec buf).
Proof. unfold handle_read_frame, read_frame. follow. Qed.
Lemma follows_close_timer ec : follows (handle_close_handshake_timeout ec).
Proof. unfold handle_close_handshake_timeout. follow. Qed.
Lemma follows_open_timer ec : follows (handle_open_handshake_timeout ec).
Proof. unfold handle_open_handshake_timeout. follow. Qed.

End calls.

(** ** Events *)
Definition heard_of (a : action) : list message := match a with OnMessage m => [m] | _ => [] end.
Definition ends (a : action) : bool := match a with OnClose => true | _ => false end.

Lemma perform_notices l : forall w, delivered (fold_left perform l w) = delivered w ++ concat (map heard_of l) /\
  closes (fold_left perform l w) = (closes w + length (List.filter ends l))%nat.
Proof.
  induction l as [|a l IH]; intros w; cbn [fold_left map concat List.filter length]; [by rewrite app_nil_r, Nat.add_0_r|].
  destruct (IH (perform w a)) as [-> ->]. destruct a; cbn; rewrite ?app_nil_r, <-?app_assoc; split; try done; lia.
Qed.

Section events.
Context `{Machine}.
Context (ping_handler : option (list Z -> bool)).

(** What the program learns from an event: messages only while the connection is
    open, and its end only from the shutdown. *)
Definition notices (w w' : world) (ms : list message) : Prop :=
  delivered w' = delivered w ++ ms /\ (ms <> [] -> m_state (con w) = open) /\ (closes w <= closes w')%nat.

Lemma run_notices {A} (h : handler A) w x w' :
  (forall (St : session_state -> Prop) (P : action -> Prop), St closing -> St closed -> (forall a, quiet a -> P a) ->
     (forall m, St open -> P (OnMessage m)) -> follows St P h) ->
  run h w = Some (x, w') -> exists ms, notices w w' ms /\ closes w' = closes w.
Proof.
  intros Hh E. unfold run in E. destruct (h (con w)) as [[[a c] l]|] eqn:Eh; [|done]. injection E as <- <-.
  destruct (perform_notices l (with_con c w)) as [Ed Ec]. unfold notices. rewrite Ed, Ec. exists (concat (map heard_of l)).
  assert (length (List.filter ends l) = 0%nat) as ->.
  { assert (follows (fun _ => True) (fun a => ends a = false) h) as Hf by (apply Hh; try done; by intros []).
    destruct (Hf _ _ _ _ I Eh) as [_ Hl]. clear -Hl. induction Hl as [|b l Hb _ IH]; cbn [List.filter]; [done|]. by rewrite Hb. }
  rewrite Nat.add_0_r. split; [|done]. split; [done|]. split; [|done]. intros Hms.
  destruct (decide (m_state (con w) = open)) as [|Hn]; [done|]. destruct Hms.
  assert (follows (fun s => s <> open) (fun a => heard_of a = []) h) as Hf by (apply Hh; try done; by intros []).
  destruct (Hf _ _ _ _ Hn Eh) as [_ Hl]. clear -Hl. induction Hl as [|b l Hb _ IH]; cbn [map concat]; [done|]. by rewrite Hb.
Qed.

Lemma event_notices e w w' : run_event ping_handler e w = Some w' -> exists ms, notices w w' ms.
Proof.
  assert (forall w1 ms, delivered w1 = delivered w -> con w1 = con w -> closes w1 = closes w -> notices w1 w' ms -> notices w w' ms)
    as Hsame by (unfold notices; intros w1 ms -> -> ->; done).
  assert (forall w1, delivered w1 = delivered w -> closes w1 = closes w -> exists ms, notices w w1 ms) as Hnone.
  { intros w1 E1 E2. exists []. unfold notices. rewrite E1, E2, app_nil_r. split_and!; done. }
  assert (forall A (h : handler A) w1,
    (forall (St : session_state -> Prop) (P : action -> Prop), St closing -> St closed -> (forall a, quiet a -> P a) ->
       (forall m, St open -> P (OnMessage m)) -> follows St P h) ->
    delivered w1 = delivered w -> con w1 = con w -> closes w1 = closes w ->
    ('(_, w) ← run h w1; Some w) = Some w' -> exists ms, notices w w' ms) as Hrun.
  { intros A h w1 Hh E1 E2 E3 E. destruct (run h w1) as [[x w2]|] eqn:Er; [|done]. injection E as ->.
    destruct (run_notices h w1 x w' Hh Er) as (ms & Hn & _). exists ms. by eapply Hsame. }
  destruct e as [msg|i|code reason| |ec n|ec buf|ec|ec|ec]; cbn [run_event].
  - intros [= <-]. destruct (send_check _); by apply Hnone.
  - destruct (senders w !! i) as [msg|]; [|done]. apply Hrun; try done. intros; by apply follows_send.
  - apply Hrun; try done. intros; by apply follows_close.
  - apply Hrun; try done. intros; by apply follows_write_frame.
  - destruct (writing w) as [octets|]; [|done]. apply Hrun; try done. intros; by apply follows_written.
  - destruct ec; apply Hrun; try done; intros; by apply follows_read.
  - apply Hrun; try done. intros; by apply follows_close_timer.
  - destruct (shutdowns w) as [|tstat rest]; [done|]. unfold handle_terminate.
    destruct tstat; intros [= <-]; [by apply Hnone| |by apply Hnone].
    exists []. unfold notices. cbn. rewrite app_nil_r. split_and!; [done|done|lia].
  - apply Hrun; try done. intros; by apply follows_open_timer.
Qed.
End events.

End Notices.
Import Notices.

(** * The server *)
Record server_world := ServerWorld {
  lives : gmap Z life;                    (* the connections, by address *)
  table : WsServer.ws_server;
  queue : list WsServer.queue_msg_t;      (* sent to [main_app] *)
  unknown : nat }.                        (* messages of connections the table lacks *)

Definition new_server_world : server_world := ServerWorld ∅ WsServer.new_server [] 0.

Definition with_lives (m : gmap Z life) (w : server_world) : server_world :=
  ServerWorld m (table w) (queue w) (unknown w).
Definition with_table (t : WsServer.ws_server) (w : server_world) : server_world :=
  ServerWorld (lives w) t (queue w) (unknown w).

(** The calls of the message handler, and of the close handler, so far. *)
Definition heard (l : life) : list message := match session l with Some s => delivered s | None => [] end.
Definition closes_of (l : life) : nat := match session l with Some s => closes s | None => 0%nat end.

(** The message of the application for a message of the connection. *)
Definition sent_on (id : Z) (m : message) : WsServer.queue_msg_t := WsServer.QueueMsg id (m_payload m ++ [0]).

Definition notify_message (ptr : Z) (w : server_world) (m : message) : server_world :=
  match WsServer.on_message ptr (m_payload m) (table w) with
  | Some q => ServerWorld (lives w) (table w) (queue w ++ [q]) (unknown w)
  | None => ServerWorld (lives w) (table w) (queue w) (S (unknown w))
  end.

(** The handlers that an event calls; a handle names its connection. *)
Definition notify (ptr : Z) (l l' : life) (w : server_world) : server_world :=
  let w := if (calls_open l <? calls_open l')%nat then with_table (WsServer.on_open ptr ptr (table w)) w else w in
  let w := fold_left (notify_message ptr) (drop (length (heard l)) (heard l')) w in
  if (closes_of l <? closes_of l')%nat then with_table (WsServer.on_close ptr (table w)) w else w.

Section server.
Context `{Machine}.
Context (w0 key_final buf64 : list Z) (ping_handler : option (list Z -> bool)).

Inductive server_step : server_world -> server_world -> Prop :=
| step_accept ptr w : lives w !! ptr = None -> server_step w (with_lives (<[ptr := new_life]> (lives w)) w)
| step_event ptr e l l' w : lives w !! ptr = Some l -> lenabled e l ->
    lrun_event w0 key_final buf64 ping_handler e l = Some l' ->
    server_step w (notify ptr l l' (with_lives (<[ptr := l']> (lives w)) w))
| step_free ptr l w : lives w !! ptr = Some l ->
    calls_fail l = 1%nat \/ closes_of l = 1%nat \/ session l = None /\ (forall e, ~ lenabled e l) ->
    server_step w (with_lives (delete ptr (lives w)) w)
| step_answer id message w : server_step w (with_table (WsServer.send id message (table w)).2 w).

Inductive server_reachable : nat -> server_world -> Prop :=
| server_new : server_reachable 0 new_server_world
| server_more n w w' : server_reachable n w -> server_step w w' -> server_reachable (S n) w'.
End server.

(** ** What an event of a connection means to the server *)
Section lives.
Context `{MachineLaws}.
Context (w0 key_final buf64 : list Z) (ping_handler : option (list Z -> bool)).
#[local] Set Default Proof Using "Type*".

#[local] Abbreviation lreachable := (lreachable w0 key_final buf64 ping_handler).
#[local] Abbreviation lrun_event := (lrun_event w0 key_final buf64 ping_handler).
#[local] Abbreviation server_reachable := (server_reachable w0 key_final buf64 ping_handler).

(** The close handler is yet to come. *)
Definition connected (l : life) : Prop := exists s, session l = Some s /\ closes s = 0%nat.

Lemma connected_session l s : session l = Some s -> connected l <-> closes s = 0%nat.
Proof. intros E. unfold connected. rewrite E. split; [by intros (? & [= <-] & ?)|by exists s]. Qed.

Lemma life_session l : lreachable l ->
  match session l with
  | None => calls_open l = 0%nat
  | Some s => calls_open l = 1%nat /\ calls_fail l = 0%nat /\ (closes s <= 1)%nat /\
      (closes s = 1%nat -> m_state (WsSession.con s) = closed)
  end.
Proof.
  intros Hr. apply life_reachable_inv in Hr as [| |o t Ho Hok Ec Er Ht|o ec0 octets t Ec Hout Hb Ht|o r wr t sh f Hd Hr|o t b s Hs Ht];
    try done.
  destruct (session_ends ping_handler s (session_reachable_inv _ s Hs)) as (_ & H1 & H2). cbn. split_and!; try done.
  intros E. by apply H2.
Qed.

(** A session that begins has told nothing. *)
Definition fresh_session (w : life) : Prop :=
  match session w with None => True | Some s => delivered s = [] /\ closes s = 0%nat end.

Lemma lrun_fresh h w w' : session w = None -> lrun h w = Some w' -> fresh_session w'.
Proof.
  intros Hs. unfold lrun. destruct (h (me w)) as [[[[] o] l]|c|]; [|done|done]. intros [= <-].
  assert (fresh_session (with_me o w)) as Hf by (unfold fresh_session; cbn; by rewrite Hs). clear Hs. revert Hf.
  generalize (with_me o w). induction l as [|a l IH]; intros w1 Hf; cbn [fold_left]; [done|]. apply IH.
  unfold fresh_session in *. destruct a; cbn; try done. by destruct (session w1).
Qed.

(** An event opens the session, or goes on with it, or precedes it. *)
Lemma life_event e l l' : lreachable l -> lenabled e l -> lrun_event e l = Some l' ->
  match session l, session l' with
  | None, None => calls_open l' = calls_open l
  | None, Some s' => calls_open l = 0%nat /\ calls_open l' = 1%nat /\ delivered s' = [] /\ closes s' = 0%nat
  | Some s, Some s' => calls_open l' = calls_open l /\ exists ms, notices s s' ms
  | Some _, None => False
  end.
Proof.
  intros Hr He E. pose proof (lreach_step _ _ _ _ l e l' Hr He E) as Hr'.
  pose proof (life_session l Hr) as Hl. pose proof (life_session l' Hr') as Hl'.
  destruct (session l) as [s|] eqn:Es.
  - apply life_reachable_inv in Hr as Hi. clear Hr Hr' Hl'. destruct Hi as [| |o t Ho Hok Ec Er Ht|o ec0 octets t Ec Hout Hb Ht|o r wr t sh f Hd Hr|o t b s1 Hs Ht]; try done.
    cbn in Es. assert (s1 = s) as -> by congruence. destruct e as [ec|ec|ec buf|ec|ec|ec|e]; cbn -[run_event] in He, E; try lia; try (by destruct He as [[] ?]); try done;
      try (destruct He; lia); (destruct (run_event _ _ s) as [s'|] eqn:Ee; [|done]); cbn in E; injection E as <-; cbn;
      (split; [done|]; by eapply event_notices).
  - assert (fresh_session l') as Hf.
    { destruct e; cbn -[run_event] in E; try (by eapply lrun_fresh; [|exact E]).
      - rewrite Es in E. by eapply lrun_fresh; [|exact E].
      - destruct (hshutdowns l); [done|]. by eapply lrun_fresh; [|exact E].
      - by rewrite Es in E. }
    unfold fresh_session in Hf. destruct (session l') as [s'|]; [|congruence]. by split_and!; try apply Hl'; try apply Hf.
Qed.

(** ** The tables know the connections *)
Definition knows (n : nat) (w : server_world) : Prop :=
  (forall ptr l, lives w !! ptr = Some l -> lreachable l) /\ unknown w = 0%nat /\
  exists ss, WsServer.ws_rep ss (table w) /\ 0 <= WsServer.connection_id_ctr (table w) <= Z.of_nat n /\
    (forall ptr, is_Some (ss !! ptr) <-> exists l, lives w !! ptr = Some l /\ connected l) /\
    (forall ptr id h, ss !! ptr = Some (id, h) -> h = ptr).

Lemma knows_new : knows 0 new_server_world.
Proof.
  split; [intros ptr l E; cbn in E; by rewrite lookup_empty in E|]. split; [done|].
  exists ∅. split; [apply WsServer.ws_rep_new|]. split; [done|]. split.
  - intros ptr. rewrite lookup_empty. split; [by intros [? ?]|]. intros (l & E & _). cbn in E. by rewrite lookup_empty in E.
  - intros ptr id h E. by rewrite lookup_empty in E.
Qed.

(** Messages of a connection that the table has are all sent on under its number. *)
Lemma notify_messages ptr id ms : forall w, WsServer.connections_rmap (table w) !! ptr = Some id ->
  fold_left (notify_message ptr) ms w =
  ServerWorld (lives w) (table w) (queue w ++ map (sent_on id) ms) (unknown w).
Proof.
  induction ms as [|m ms IH]; intros w E; cbn [fold_left map]; [rewrite app_nil_r; by destruct w|].
  unfold notify_message at 2, WsServer.on_message. rewrite E, IH by done. cbn. by rewrite <-app_assoc.
Qed.

(** The three kinds of an event. *)
Lemma notify_nothing ptr l l' w : calls_open l' = calls_open l -> heard l' = heard l -> closes_of l' = closes_of l ->
  notify ptr l l' w = w.
Proof.
  intros E1 E2 E3. unfold notify. rewrite E1, E2, E3, !Nat.ltb_irrefl, drop_all. done.
Qed.

Lemma notify_open ptr l l' w : (calls_open l < calls_open l')%nat -> heard l' = [] -> closes_of l' = closes_of l ->
  notify ptr l l' w = with_table (WsServer.on_open ptr ptr (table w)) w.
Proof.
  intros E1 E2 E3. unfold notify. rewrite E2, E3, Nat.ltb_irrefl, drop_nil. by rewrite (proj2 (Nat.ltb_lt _ _) E1).
Qed.

Lemma notify_session ptr l l' w id ms : calls_open l' = calls_open l -> heard l' = heard l ++ ms ->
  (ms <> [] -> WsServer.connections_rmap (table w) !! ptr = Some id) ->
  notify ptr l l' w =
    ServerWorld (lives w) (if (closes_of l <? closes_of l')%nat then WsServer.on_close ptr (table w) else table w)
      (queue w ++ map (sent_on id) ms) (unknown w).
Proof.
  intros E1 E2 Hid. unfold notify. rewrite E1, E2, Nat.ltb_irrefl, drop_app_length.
  destruct ms as [|m ms]; [cbn [fold_left map]; rewrite app_nil_r; destruct w; by destruct (_ <? _)%nat|].
  rewrite (notify_messages ptr id) by (by apply Hid). by destruct (_ <? _)%nat.
Qed.

Lemma notify_lives ptr l l' w : lives (notify ptr l l' w) = lives w.
Proof.
  assert (forall ms w, lives (fold_left (notify_message ptr) ms w) = lives w) as Hm.
  { intros ms. induction ms as [|m ms IH]; intros w1; [done|]. cbn [fold_left]. rewrite IH. unfold notify_message.
    by destruct (WsServer.on_message _ _ _). }
  unfold notify. destruct (_ <? _)%nat, (_ <? _)%nat; cbn [lives with_table]; by rewrite Hm.
Qed.

(** A connection that is heard is in the table. *)
Lemma heard_registered n w ptr l s ms : knows n w -> lives w !! ptr = Some l -> session l = Some s ->
  (ms <> [] -> m_state (WsSession.con s) = open) ->
  exists id : Z, ms <> @nil message -> WsServer.connections_rmap (table w) !! ptr = Some id /\
    WsServer.connections_fmap (table w) !! id = Some ptr.
Proof.
  intros (Hlives & _ & ss & (Hr & Hf & _) & _ & Hss & Hh) Hl Hs Hopen.
  destruct (decide (ms = [])) as [->|Hms]; [by exists 0|].
  assert (connected l) as Hc.
  { pose proof (life_session l (Hlives _ _ Hl)) as H1. rewrite Hs in H1. destruct H1 as (_ & _ & H1 & H2).
    exists s. split; [done|]. destruct (decide (closes s = 1%nat)) as [E|]; [|lia].
    apply H2 in E. rewrite (Hopen Hms) in E. done. }
  assert (is_Some (ss !! ptr)) as [[id h] E] by (apply Hss; by exists l).
  exists id. intros _. rewrite (Hh _ _ _ E) in E. split; [apply Hr; by exists ptr|apply Hf; by exists ptr].
Qed.

(** Nothing changes for the tables when the connection stays what it was. *)
Lemma knows_insert n w ptr l' t q : knows n w -> lreachable l' ->
  WsServer.connections_fmap t = WsServer.connections_fmap (table w) ->
  WsServer.connections_rmap t = WsServer.connections_rmap (table w) ->
  WsServer.connection_id_ctr t = WsServer.connection_id_ctr (table w) ->
  (connected l' <-> exists l, lives w !! ptr = Some l /\ connected l) ->
  knows (S n) (ServerWorld (<[ptr := l']> (lives w)) t q (unknown w)).
Proof.
  intros (Hl & Hu & ss & Hrep & Hc & Hss & Hh) Hr' E1 E2 E3 Hconn. split; [|split; [done|]].
  - intros p l. cbn. rewrite lookup_insert. case_decide; [by intros [= <-]|apply Hl].
  - exists ss. cbn. split; [by eapply WsServer.ws_rep_maps|]. rewrite E3. split; [lia|]. split; [|done].
    intros p. rewrite Hss, lookup_insert. case_decide as Hp; [subst p|done].
    rewrite <-Hconn. split; [intros; by exists l'|]. by intros (l & [= ->] & ?).
Qed.

(** What an event makes of the server: a connection opens, or delivers messages
    and goes on, or delivers messages and closes. *)
Inductive told (w : server_world) (ptr : Z) (l l' : life) : server_world -> Prop :=
| told_open : session l = None -> heard l' = [] -> connected l' ->
    told w ptr l l' (with_table (WsServer.on_open ptr ptr (table w)) w)
| told_messages id ms : heard l' = heard l ++ ms -> (ms <> [] -> WsServer.connections_rmap (table w) !! ptr = Some id) ->
    (connected l' <-> connected l) ->
    told w ptr l l' (ServerWorld (lives w) (table w) (queue w ++ map (sent_on id) ms) (unknown w))
| told_close id ms : heard l' = heard l ++ ms -> (ms <> [] -> WsServer.connections_rmap (table w) !! ptr = Some id) ->
    ~ connected l' ->
    told w ptr l l' (ServerWorld (lives w) (WsServer.on_close ptr (table w)) (queue w ++ map (sent_on id) ms) (unknown w)).

Lemma event_told n w m ptr e l l' : knows n w -> lives w !! ptr = Some l -> lenabled e l -> lrun_event e l = Some l' ->
  told (with_lives m w) ptr l l' (notify ptr l l' (with_lives m w)).
Proof.
  intros Hk El He E. pose proof Hk as (Hl & _). pose proof (Hl _ _ El) as Hr.
  pose proof (life_event e l l' Hr He E) as Hev. pose proof (lreach_step _ _ _ _ l e l' Hr He E) as Hr'.
  set (w1 := with_lives m w). destruct (session l) as [s|] eqn:Es, (session l') as [s'|] eqn:Es'; [| done | |].
  - destruct Hev as (Ec & ms & Ed & Ho & Hcl). destruct (heard_registered n w ptr l s ms Hk El Es Ho) as (id & Hid).
    assert (heard l' = heard l ++ ms) as Eh by (unfold heard; by rewrite Es, Es').
    rewrite (notify_session ptr l l' w1 id ms); [|done|done|intros Hms; by destruct (Hid Hms)].
    pose proof (life_session l' Hr') as H1. rewrite Es' in H1. destruct H1 as (_ & _ & H1 & _).
    unfold closes_of. rewrite Es, Es'. destruct (Nat.ltb_spec (closes s) (closes s')) as [Hlt|Hge].
    + apply told_close; [done|intros Hms; by destruct (Hid Hms)|]. rewrite (connected_session l' s') by done. lia.
    + apply told_messages; [done|intros Hms; by destruct (Hid Hms)|].
      rewrite (connected_session l' s'), (connected_session l s) by done. lia.
  - destruct Hev as (E0 & E1 & Ed & Ecl).
    rewrite notify_open; [|lia|unfold heard; by rewrite Es'|unfold closes_of; by rewrite Es, Es'].
    apply told_open; [done|unfold heard; by rewrite Es'|by apply (connected_session l' s')].
  - rewrite notify_nothing; [|done|unfold heard; by rewrite Es, Es'|unfold closes_of; by rewrite Es, Es'].
    cut (told w1 ptr l l' (ServerWorld (lives w1) (table w1) (queue w1 ++ map (sent_on 0) []) (unknown w1)));
      [cbn [map]; by rewrite app_nil_r|].
    apply told_messages; [unfold heard; by rewrite Es, Es'|done|]. unfold connected. by rewrite Es, Es'.
Qed.

Lemma knows_event n w ptr e l l' : knows n w -> Z.of_nat n + 1 < 2 ^ 32 -> lives w !! ptr = Some l -> lenabled e l ->
  lrun_event e l = Some l' -> knows (S n) (notify ptr l l' (with_lives (<[ptr := l']> (lives w)) w)).
Proof.
  intros Hk Hn El He E. pose proof Hk as (Hl & Hu & ss & Hrep & Hc & Hss & Hh).
  pose proof (lreach_step _ _ _ _ l e l' (Hl _ _ El) He E) as Hr'.
  assert (forall p l0, <[ptr := l']> (lives w) !! p = Some l0 -> lreachable l0) as Hl'
    by (intros p l0; rewrite lookup_insert; case_decide; [by intros [= <-]|apply Hl]).
  destruct (event_told n w (<[ptr := l']> (lives w)) ptr e l l' Hk El He E) as [Es _ Hcon|id ms _ _ Hcon|id ms _ _ Hcon].
  - assert (ss !! ptr = None) as Hnone.
    { destruct (ss !! ptr) as [x|] eqn:Ex; [|done]. assert (is_Some (ss !! ptr)) as Hx by by rewrite Ex.
      apply Hss in Hx as (l0 & El0 & s0 & E2 & _). congruence. }
    destruct (WsServer.on_open_rep ss (table w) ptr ptr Hrep) as [Hrep' Ectr];
      [lia|lia|by apply (WsServer.ws_rep_rmap_None ss (table w) ptr Hrep)|].
    split; [exact Hl'|]. split; [done|]. exists (WsServer.spec_open (WsServer.connection_id_ctr (table w)) ptr ptr ss).
    cbn [table with_table lives with_lives]. rewrite Ectr. split; [exact Hrep'|]. split; [lia|].
    unfold WsServer.spec_open. split.
    + intros p. rewrite !lookup_insert. case_decide as Hp; [subst p|apply Hss].
      split; [|done]. intros _. by exists l'.
    + intros p i h. rewrite lookup_insert. case_decide; [by intros [= <- <-]|apply Hh].
  - apply (knows_insert n w ptr l' (table w) _ Hk Hr'); try done. rewrite Hcon. split; [by exists l|].
    intros (l0 & E0 & ?). rewrite El in E0. by injection E0 as <-.
  - destruct (WsServer.on_close_rep ss (table w) ptr Hrep) as [Hrep' Ectr].
    split; [exact Hl'|]. split; [done|]. exists (delete ptr ss). cbn [table lives with_lives]. rewrite Ectr.
    split; [exact Hrep'|]. split; [lia|]. split.
    + intros p. rewrite lookup_delete, lookup_insert. case_decide as Hp; [subst p|apply Hss].
      split; [by intros [? ?]|]. by intros (l0 & [= <-] & ?).
    + intros p i h. rewrite lookup_delete. case_decide; [done|apply Hh].
Qed.

Lemma knows_step n w w' : knows n w -> Z.of_nat n + 1 < 2 ^ 32 -> server_step w0 key_final buf64 ping_handler w w' -> knows (S n) w'.
Proof.
  intros Hk Hn Hs. destruct Hs as [ptr w En|ptr e l l' w El He E|ptr l w El Hover|id message w].
  - apply (knows_insert n w ptr new_life (table w) (queue w)); try done; [constructor|].
    split; [by intros (? & ? & _)|]. intros (l & El & _). congruence.
  - by eapply knows_event.
  - destruct Hk as (Hl & Hu & ss & Hrep & Hc & Hss & Hh).
    assert (~ connected l) as Hnc.
    { intros (s & Es & Hcl). pose proof (life_session l (Hl _ _ El)) as H1. rewrite Es in H1.
      unfold closes_of in Hover. rewrite Es in Hover. destruct Hover as [?|[?|[? _]]]; [lia|lia|done]. }
    split; [|split; [done|]].
    + intros p l0. cbn. rewrite lookup_delete. case_decide; [done|apply Hl].
    + exists ss. split; [done|]. split; [cbn; lia|]. split; [|done]. intros p. rewrite Hss. cbn. rewrite lookup_delete.
      case_decide as Hp; [subst p|done]. split; [|by intros (? & ? & _)].
      intros (l0 & E0 & Hl0). rewrite El in E0. injection E0 as <-. done.
  - destruct Hk as (Hl & Hu & ss & Hrep & Hc & Hss & Hh). destruct (WsServer.send_maps id message (table w)) as (E1 & E2 & E3).
    split; [done|]. split; [done|]. exists ss. split; [by eapply WsServer.ws_rep_maps|]. split; [cbn; lia|done].
Qed.

Lemma reachable_knows n w : server_reachable n w -> Z.of_nat n < 2 ^ 32 -> knows n w.
Proof.
  induction 1 as [|n w w' _ IH Hs]; intros Hn; [apply knows_new|]. apply (knows_step n w w'); [apply IH; lia|lia|done].
Qed.

(** ** The queue of the application *)
Definition queued (id : Z) (w : server_world) : list WsServer.queue_msg_t :=
  List.filter (fun q => WsServer.conn_id q =? id) (queue w).

(** A number in the table marks exactly what its connection has delivered. *)
Definition hears (w : server_world) : Prop :=
  Forall (fun q => WsServer.conn_id q < WsServer.connection_id_ctr (table w)) (queue w) /\
  forall ptr id l, WsServer.connections_rmap (table w) !! ptr = Some id -> lives w !! ptr = Some l ->
    queued id w = map (sent_on id) (heard l).

Lemma filter_sent id i ms :
  List.filter (fun q => WsServer.conn_id q =? i) (map (sent_on id) ms) = if id =? i then map (sent_on id) ms else [].
Proof.
  induction ms as [|m ms IH]; cbn [map List.filter]; [by destruct (_ =? _)|].
  rewrite IH. cbn [sent_on WsServer.conn_id]. by destruct (id =? i).
Qed.

Lemma filter_below i (q : list WsServer.queue_msg_t) : Forall (fun m => WsServer.conn_id m < i) q ->
  List.filter (fun m => WsServer.conn_id m =? i) q = [].
Proof. induction 1 as [|m q Hm _ IH]; [done|]. cbn [List.filter]. by rewrite (proj2 (Z.eqb_neq _ _)) by lia. Qed.

(** The maps of the table, as the sessions say. *)
Lemma knows_maps n w : knows n w ->
  (forall p1 p2 id, WsServer.connections_rmap (table w) !! p1 = Some id ->
     WsServer.connections_rmap (table w) !! p2 = Some id -> p1 = p2) /\
  (forall p id, WsServer.connections_rmap (table w) !! p = Some id ->
     id < WsServer.connection_id_ctr (table w) /\ exists l, lives w !! p = Some l /\ connected l) /\
  (forall p l, lives w !! p = Some l -> connected l -> exists id, WsServer.connections_rmap (table w) !! p = Some id).
Proof.
  intros (_ & _ & ss & (Hr & Hf & Hi & Hb) & _ & Hss & _). split; [|split].
  - intros p1 p2 id [h1 E1]%Hr [h2 E2]%Hr. by eapply Hi.
  - intros p id [h E]%Hr. split; [by eapply Hb|]. apply Hss. by rewrite E.
  - intros p l El Hc. assert (is_Some (ss !! p)) as [[id h] E] by (apply Hss; by exists l). exists id. apply Hr. by exists h.
Qed.

Lemma hears_more n w m t ptr l l' id ms : knows n w -> hears w ->
  lives w !! ptr = Some l -> heard l' = heard l ++ ms ->
  (ms <> [] -> WsServer.connections_rmap (table w) !! ptr = Some id) ->
  WsServer.connection_id_ctr t = WsServer.connection_id_ctr (table w) ->
  (forall p i, WsServer.connections_rmap t !! p = Some i -> WsServer.connections_rmap (table w) !! p = Some i) ->
  m = <[ptr := l']> (lives w) ->
  hears (ServerWorld m t (queue w ++ map (sent_on id) ms) (unknown w)).
Proof.
  intros Hk [Hb Hq] El Eh Hid Hctr Hsub ->. destruct (knows_maps n w Hk) as (Hinj & Hlt & _). split.
  - cbn [queue table]. rewrite Hctr. apply Forall_app. split; [done|].
    destruct ms as [|a ms]; [constructor|]. destruct (Hlt _ _ (Hid ltac:(done))) as [? _].
    apply Forall_forall. intros q Hin%list_elem_of_In. by apply in_map_iff in Hin as (x & <- & _).
  - intros p i l0 Hp Hl0. cbn [table lives queue] in *. apply Hsub in Hp. unfold queued. cbn [queue].
    rewrite List.filter_app, filter_sent. rewrite lookup_insert in Hl0.
    destruct (decide (ptr = p)) as [<-|Hne].
    + injection Hl0 as <-. rewrite (Hq ptr i l Hp El : List.filter _ (queue w) = _), Eh, map_app. f_equal.
      destruct ms as [|a ms]; [by destruct (_ =? _)|]. specialize (Hid ltac:(done)). assert (id = i) as -> by congruence.
      by rewrite Z.eqb_refl.
    + rewrite (Hq p i l0 Hp Hl0 : List.filter _ (queue w) = _).
      destruct ms as [|a ms]; [destruct (_ =? _); by rewrite app_nil_r|]. specialize (Hid ltac:(done)).
      destruct (Z.eqb_spec id i) as [->|]; [|by rewrite app_nil_r]. by destruct Hne; eapply Hinj.
Qed.

Lemma hears_step n w w' : knows n w -> hears w -> Z.of_nat n + 1 < 2 ^ 32 ->
  server_step w0 key_final buf64 ping_handler w w' -> hears w'.
Proof.
  intros Hk Hh Hn Hs. destruct (knows_maps n w Hk) as (Hinj & Hlt & Hin). pose proof Hh as [Hb Hq].
  destruct Hs as [ptr w En|ptr e l l' w El He E|ptr l w El Hover|id message w].
  - split; [done|]. intros p i l0 Hp Hl0. cbn in Hp, Hl0. rewrite lookup_insert in Hl0. case_decide as Hne; [|exact (Hq p i l0 Hp Hl0)].
    subst p. destruct (Hlt _ _ Hp) as (_ & l & El & _). congruence.
  - destruct (event_told n w (<[ptr := l']> (lives w)) ptr e l l' Hk El He E) as [Es Eh Hcon|id ms Eh Hid Hcon|id ms Eh Hid Hcon].
    + assert (0 <= WsServer.connection_id_ctr (table w) <= Z.of_nat n) as Hc by by destruct Hk as (_ & _ & ss & _ & Hc & _).
      split.
      * cbn [queue table with_table with_lives WsServer.on_open WsServer.connection_id_ctr].
        eapply Forall_impl; [exact Hb|]. intros q Hlt'. cbn beta in Hlt'. rewrite u32_small by lia. lia.
      * intros p i l0. cbn [table with_table with_lives lives WsServer.on_open WsServer.connections_rmap].
        assert (WsServer.connections_rmap (table w) !! ptr = None) as Hnone.
        { destruct (WsServer.connections_rmap (table w) !! ptr) as [j|] eqn:Ej; [|done]. destruct (Hlt _ _ Ej) as (_ & l1 & El1 & s & Es1 & _). congruence. }
        unfold WsServer.emplace. rewrite Hnone, !lookup_insert. case_decide as Hp; [|by apply Hq].
        intros [= <-] [= <-]. rewrite Eh. by apply filter_below.
    + by eapply (hears_more n w).
    + eapply (hears_more n w); try done; [|intros p i; cbn; unfold WsServer.on_close].
      * cbn [table with_lives]. unfold WsServer.on_close. by destruct (WsServer.connections_rmap (table w) !! ptr).
      * destruct (WsServer.connections_rmap (table w) !! ptr) as [j|]; [|done]. cbn. rewrite lookup_delete. by case_decide.
  - split; [done|]. intros p i l0 Hp Hl0. cbn in Hp, Hl0. rewrite lookup_delete in Hl0. case_decide; [done|exact (Hq p i l0 Hp Hl0)].
  - destruct (WsServer.send_maps id message (table w)) as (E1 & E2 & E3). split; cbn.
    + by rewrite E1.
    + rewrite E3. apply Hq.
Qed.

Lemma reachable_hears n w : server_reachable n w -> Z.of_nat n < 2 ^ 32 -> hears w.
Proof.
  induction 1 as [|n w w' Hr IH Hs]; intros Hn.
  - split; [constructor|]. intros ptr id l _ El. cbn in El. by rewrite lookup_empty in El.
  - apply (hears_step n w w'); [by apply reachable_knows; [|lia]|apply IH; lia|lia|done].
Qed.

(** C33. The server and its connections.  Whatever connections are accepted, whatever
    happens to each and in whatever order, addresses used again included, for as
    long as the counter of connections does not wrap: every event of every
    connection is handled without undefined behaviour; the tables list exactly the
    connections whose open handler was called and whose close handler was not, each
    under a number of its own by which an answer finds it; no message is dropped
    because its connection is unknown; and what the application has been sent under
    that number is what the connection has delivered, all of it, in order, and
    nothing of another connection. *)
Theorem server_tracks_connections n w : server_reachable n w -> Z.of_nat n < 2 ^ 32 ->
  (forall ptr e l, lives w !! ptr = Some l -> lenabled e l -> exists l', lrun_event e l = Some l') /\
  (forall ptr, (exists id, WsServer.connections_rmap (table w) !! ptr = Some id) <->
     exists l, lives w !! ptr = Some l /\ calls_open l = 1%nat /\ closes_of l = 0%nat) /\
  (forall ptr id, WsServer.connections_rmap (table w) !! ptr = Some id <-> WsServer.connections_fmap (table w) !! id = Some ptr) /\
  unknown w = 0%nat /\
  (forall ptr id l, WsServer.connections_rmap (table w) !! ptr = Some id -> lives w !! ptr = Some l ->
     List.filter (fun q => WsServer.conn_id q =? id) (queue w) = map (sent_on id) (heard l)).
Proof.
  intros Hr Hn. pose proof (reachable_knows n w Hr Hn) as Hk. pose proof Hk as (Hl & Hu & ss & Hrep & Hc & Hss & Hh).
  destruct (knows_maps n w Hk) as (_ & Hlt & Hin). destruct (reachable_hears n w Hr Hn) as [_ Hq].
  split; [|split; [|split; [|split; [done|exact Hq]]]].
  - intros ptr e l El He. exact (connection_runs w0 key_final buf64 ping_handler l e (Hl _ _ El) He).
  - intros ptr. transitivity (exists l, lives w !! ptr = Some l /\ connected l).
    + split; [intros [id E]; by apply (Hlt ptr id)|]. intros (l & El & Hcon). by apply (Hin ptr l).
    + split; intros (l & El & Hcon); exists l; (split; [done|]); pose proof (life_session l (Hl _ _ El)) as H1;
        unfold closes_of, connected in *; destruct (session l) as [s|]; try lia.
      * destruct Hcon as (s0 & [= <-] & Hcl). tauto.
      * by destruct Hcon as (? & ? & _).
      * exists s. tauto.
  - intros ptr id. destruct Hrep as (Hrm & Hfm & _). rewrite Hrm, Hfm. split.
    + intros [h E]. exists ptr. by rewrite <-(Hh _ _ _ E) at 2.
    + intros [p E]. pose proof (Hh _ _ _ E) as ->. by exists p.
Qed.
End lives.

(** ** A server with one connection *)
Section server_witness.
#[local] Existing Instance armhf.
#[local] Existing Instance armhf_laws.

(** Events of one connection, one after the other. *)
Lemma happens_at ptr es : forall n w l l', server_reachable example_buffer [] [] None n w -> lives w !! ptr = Some l ->
  happen es l = Some l' ->
  exists w', server_reachable example_buffer [] [] None (length es + n) w' /\ lives w' !! ptr = Some l'.
Proof.
  induction es as [|e es IH]; intros n w l l' Hr El Eh; cbn [happen] in Eh; [injection Eh as <-; by exists w|].
  destruct (can_happen e l) eqn:Ec; [|done]. destruct (lrun_event _ _ _ _ e l) as [l1|] eqn:E; [|done].
  destruct (IH (S n) (notify ptr l l1 (with_lives (<[ptr := l1]> (lives w)) w)) l1 l') as (w' & Hr' & El'); [| |done|].
  - eapply server_more; [exact Hr|]. eapply step_event; [done|by apply can_happen_enabled|done].
  - rewrite notify_lives. cbn. by rewrite lookup_insert, decide_True.
  - exists w'. split; [|done]. cbn [length]. by replace (S (length es) + n)%nat with (length es + S n)%nat by lia.
Qed.

Definition one_connection : server_world := with_lives (<[7 := new_life]> ∅) new_server_world.

Lemma one_connection_reachable : server_reachable example_buffer [] [] None 1 one_connection.
Proof. eapply server_more; [constructor|]. by apply (step_accept _ _ _ _ 7 new_server_world). Qed.

(** The request of RFC 6455 arrives, is answered, and the connection is in the table. *)
Lemma server_tracks_connections_witness :
  exists w, server_reachable example_buffer [] [] None 6 w /\ lives w !! 7 = Some (life_after opening_events) /\ unknown w = 0%nat /\
    exists id, WsServer.connections_rmap (table w) !! 7 = Some id /\ WsServer.connections_fmap (table w) !! id = Some 7.
Proof.
  destruct (happens_at 7 opening_events 1 one_connection new_life (life_after opening_events)) as (w & Hr & El);
    [apply one_connection_reachable|by vm_compute|by vm_compute|].
  exists w. split; [exact Hr|]. split; [exact El|].
  destruct (server_tracks_connections example_buffer [] [] None 6 w Hr) as (_ & H1 & H2 & H3 & _); [by vm_compute|].
  split; [exact H3|]. destruct (proj2 (H1 7)) as [id E].
  - exists (life_after opening_events). split; [exact El|]. split; by vm_compute.
  - exists id. split; [exact E|]. by apply H2.
Defined.
End server_witness.
